(* ===== verification/_CoqProject ===== *)
-Q . S2P
Prelude.v
AllocSpec.v
BitmapAlloc.v
Bootstrap.v
RingBuffer.v
External.v
Addr.v
PhysMem.v
PageTable.v
PageTableFacts.v
PageTableThms.v
PageTableProps.v
Mapping.v
MappingThms.v
MappingProps.v
SelfTest.v
KStack.v
KStackThms.v
Transmute.v
Block.v
Ext2.v
Ext2Dir.v
Fat.v
Vfs.v
Ext2Fs.v
Ext2Demo.v
Ext2Thms.v
Ext2Inodes.v
Ext2Mount.v
Ext2DirThms.v
Ext2Vfs.v
Ext2VfsThms.v
VirtQueue.v
VirtQueueThms.v
Asm.v
Cells.v
Sched.v
SchedThms.v
SchedProps.v
TaskMem.v
Sync.v
VirtioBlock.v
VirtioBlockThms.v
Text.v
Sysfs.v
Registers.v
Interrupts.v
RegisterMaps.v
Tick.v
TickThms.v
PciIds.v
Pci.v
PciThms.v
Userspace.v
UserspaceThms.v
UserspaceProps.v
VirtioInit.v
VirtioInitThms.v
VirtioRng.v
VirtioProbe.v
VirtioProbeThms.v
Shell.v
ShellThms.v
ShellSession.v
Serial.v
Primes.v
UserAsm.v
GrubBoot.v
GrubBootThms.v
Keyboard.v
Acpi.v
Boot.v
Gdt.v
TextBuffer.v
TextBufferThms.v
BootInfo.v
