(* ===== verification/Prelude.v ===== *)
(** * rust-os, verified

    A shallow embedding of the kernel under [src/kernel/src] and of its crates under
    [src/crates], of the user programs under [src/userspace] and of the earlier boot code
    under [src/old-code], with the theorems that make its parts correct.  Definitions keep
    the names of the source; a Rust function becomes a function of the same name that takes
    the state it changes and returns the new one, a loop whose recursion is not structural
    gets fuel, an [enum] an inductive type, a [struct] a record.

    ** The program and its parts

    The boot loader hands over a memory map and the other CPUs.  The kernel builds an
    allocator of physical frames, takes over the page table, maps a heap, sets up segments,
    interrupts and the periodic tick, finds its devices on the PCI bus, and then runs tasks
    on several CPUs.  Tasks
    have kernel stacks with guard pages, are switched by assembly, sleep on channels and
    mutexes, and make system calls.  Files come from an ext2 file system on a virtio
    block device, or from the kernel's own state, behind one VFS interface.  A user
    program is read from a file, loaded into a page table of its own and entered.  A shell
    on the serial port drives all of it; text can also be drawn on the screen.

    - Machine arithmetic, panics and the monad of the model: this file.  An [outcome] is
      [Ret], a [Panic] (overflow, failed assertion, [expect], index, division) or
      [Diverge], the answer of a loop whose fuel ran out.
    - Third-party crates ([x86_64], [bitflags], [zerocopy]): classes of operations with
      classes of documented laws, [External]; each has a concrete instance, which the
      examples use.  The [elf] crate is [ElfCrate] of [Userspace], the [bitfield] crate
      [BitfieldCrate] of [Registers], the descriptor tables of [x86_64] are [GdtCrate] of
      [Gdt], the [acpi] crate is [AcpiCrate] of [Acpi] and the [pc_keyboard] crate
      [PcKeyboard] of [Keyboard].  Text of the standard library (decimal numbers, words): [Text].
    - [crates/bitmap-alloc]: [AllocSpec] is what an allocator of contiguous pages
      promises, [BitmapAlloc] the allocator and the proof that it keeps the promise,
      [Bootstrap] its construction from a memory map.
    - [crates/ring_buffer]: [RingBuffer].
    - [memory/]: addresses and pages in [Addr], the frame allocator and physical buffers
      in [PhysMem], the four-level page table in [PageTable], [PageTableFacts] and
      [PageTableThms], its contract in [PageTableProps]; the kernel's memory map and the
      heap region in [Mapping], [MappingThms] and [MappingProps], the self-test that the
      shell runs in [SelfTest].
    - [sched/]: kernel stacks in [KStack] and [KStackThms]; the assembly of the switch,
      of system calls and of the jump to user mode, with an evaluator for the
      instructions it uses, in [Asm]; tasks, the run queue and the scheduler in [Sched],
      [SchedThms] and [SchedProps]; the memory behind tasks and the system call handlers
      in [TaskMem]; loading programs in [Userspace], [UserspaceThms] and
      [UserspaceProps].
    - [sync/]: cells in [Cells], channels, mutexes and spin locks in [Sync].
    - [transmute.rs], [block.rs], [fs/ext2/]: [Transmute], [Block], then [Ext2] (on-disk
      structures), [Ext2Dir] (directories), [Ext2Fs] (the file system) and [Ext2Vfs]
      (behind the VFS); theorems in [Ext2Thms], [Ext2Inodes], [Ext2Mount],
      [Ext2DirThms] and [Ext2VfsThms], on the example disk of [Ext2Demo].
    - [vfs/]: [Vfs].  [fs/sysfs.rs]: [Sysfs].  [fs/fat.rs]: [Fat].
    - [virtio/]: the split virtqueue in [VirtQueue] and [VirtQueueThms], the block device
      in [VirtioBlock] and [VirtioBlockThms], the set-up of a device (configuration,
      features, queues, MSI-X) in [VirtioInit] and [VirtioInitThms], the probe that keeps
      the devices of the machine in [VirtioProbe] and [VirtioProbeThms], the entropy
      device in [VirtioRng].
    - [registers.rs], [apic.rs], [ioapic.rs], [hpet.rs]: device registers behind a class
      [Bus] of reads and writes, in [Registers]; the tables of the [register_struct!] macro
      with their accessors in [RegisterMaps]; [keyboard.rs] in [Keyboard], [acpi.rs] and
      the devices it names in [Acpi]; [interrupts.rs] in [Interrupts], [tick.rs]
      in [Tick] and [TickThms].
    - [pci/]: [PciIds], [Pci], [PciThms].
    - [lib.rs]: the start of the machine as a step relation over all its CPUs, [Boot];
      [gdt.rs] and [percpu.rs] in [Gdt]; [boot_info.rs] and [debug.rs] in [BootInfo].
    - [shell.rs] and [ansiterm.rs]: [Shell] (the commands reach the rest of the kernel
      through the classes [ShellVfs], with the VFS as an instance, and [ShellKernel]), with
      theorems in [ShellThms] (the parser) and [ShellSession] (the line editor).
    - [serial.rs] and [logging.rs]: [Serial].  [graphics/]: [TextBuffer],
      [TextBufferThms].  The prime task and [userspace/primes/primes.c]: [Primes];
      the assembly that user programs start with and that makes their system calls:
      [UserAsm].
    - [old-code/grub-64-bit-boot]: the 32-bit code that checks the processor, builds the
      first page table and enters long mode, on a machine with the page walk of the
      processor, in [GrubBoot] and [GrubBootThms].

    ** What the theorems show

    - Allocation: [allocate_contiguous] finds the first fit; no trace of allocations and
      deallocations gives a page to two owners; the bootstrapped bitmap is exact.
    - Page tables: on a well-formed tree [map_to], [unmap] and [set_flags] never panic,
      change the translation of one page and of nothing else, keep the tree well formed
      and leave the memory in use alone; [map_to] takes at most four frames and fails
      only when none is left.  Clones translate as their originals; the heap, kernel
      stacks and user programs are built on this.
    - The scheduler: in every reachable state a task is in at most one place;
      [run_scheduler] picks the first ready task, and a ready task runs after at most as
      many switches as there are tasks before it; switched-out tasks resume with their
      registers.
    - Channels deliver their message in every interleaving, a mutex has one owner.
    - ext2: inodes, directories and file contents that are written are read back, the
      rest of the disk is kept.
    - A virtqueue is a FIFO of requests, and with a device that follows the VIRTIO
      specification the block driver is a disk.
    - A loaded program finds its segments, flags, and arguments in memory.
    - Devices: the bus scan visits each function once, base address registers are decoded
      as declared, capability lists are walked to their end; a virtio device ends up
      running with the queues the driver keeps, or the driver stops before it; a block
      device that is probed joins the disks of the kernel and runs, or the driver stops; random
      bytes reach the task that asked for them.
    - Interrupts reach the handler installed for their vector; a tick wakes exactly the
      tasks whose timers expired.  From ACPI tables that
      describe the interrupt controller and the event timer, the keyboard and the tick are
      set up, and their interrupts reach their handlers.
    - Registers: no two registers of a device overlap, and the debug output of a device
      reads only registers that may be read.
    - Start-up: in every interleaving of the CPUs the set-up is ordered as it must be and
      ends with every CPU in the scheduler; segments and fault stacks are right and
      separate; per-CPU variables do not interfere.
    - The shell parses what it prints, accepts or explains every line, and a typing session
      with corrections runs the edited lines; the serial port loses nothing; the console
      shows the newest lines.
    - The user program [primes] ends without undefined behaviour and prints the prime plus
      one; the start-up code gives [main] its arguments and ends the task with its result.
    - The earlier boot code enters the 64-bit kernel with the first gigabyte mapped to
      itself, or shows the code of the check that failed.

    Some lemmas show where the code does not do what it means to: they are named for it
    ([bitmap_storage_not_reserved], [wrapped_completions_lost], [mutex_lost_wakeup],
    [create_file_shares_block], [bss_not_cleared], [spurious_interrupt_panics],
    [cyclic_capabilities_diverge], [write_to_file_never_creates], [long_argument_overflows]
    and others).

    ** State, interleaving, bounds

    A component's state is a record.  Memory is a function from addresses to 64-bit
    words ([store]), or to bytes where a driver copies bytes.  Locks that are held only
    around one access are not part of the state; where interleaving matters (the
    scheduler, channels, mutexes, the virtqueue and its device, the start of the machine)
    the component is a step
    relation and theorems are by induction on its runs.

    Machine integers are integers in [Z] with their width checked or wrapped at each
    operation, as debug builds do.  Fuel: a page-table walk has four levels; searches and
    iterations get a bound from the length of what they walk, and termination is part of
    the theorem (the result is [Ret], never [Diverge]).  [VfsOps.read_all] takes fuel
    that the theorems relate to the length of the file.  A capability list of 256 bytes
    needs at most 256 turns.  The shell gets one unit of fuel per key, the serial port one
    per reading of its status, the prime search one per candidate; the eleven digits of a C
    [int] bound [int_to_str].  The boot code runs as a step function, and its theorems state that
    the end is reached, through the 512 turns of its loop.  At most 255 CPUs start, since
    they are counted in a byte.

    ** Not modelled

    The parsing of ACPI tables and of scan codes, done by libraries whose answers the kernel
    forwards, and the heap allocator, a library as well; the layout of debug output; fences:
    memory is sequentially consistent here; the test harness. *)
From stdpp Require Export base tactics numbers option list gmap strings sets.
From Stdlib Require Export ZArith Lia ZifyBool.

#[local] Open Scope Z_scope.

(** ** Panics, divergence and results

    The kernel is built with debug assertions by default (Makefile,
    [RUST_BUILD_MODE = debug]), so arithmetic overflow, a failed [assert!], an
    [expect] on [None], an out-of-range index and a division by zero all stop
    the program.  [Undefined] is not a panic: it marks an access through a raw
    pointer outside of its allocation, after which nothing is promised.
    [Diverge] is what a fuelled loop of the model answers when its
    fuel runs out. *)
Inductive panic_kind : Type :=
| PanicAssert
| PanicExpect
| PanicIndex
| PanicOverflow
| PanicDivZero
| PanicExplicit
| PanicTodo
| Undefined.

Inductive outcome (A : Type) : Type :=
| Ret (a : A)
| Panic (why : panic_kind)
| Diverge.
Arguments Ret {A} a.
Arguments Panic {A} why.
Arguments Diverge {A}.

#[export] Instance panic_kind_eq_dec : EqDecision panic_kind.
Proof. solve_decision. Defined.

#[export] Instance outcome_ret : MRet outcome := λ A, @Ret A.
#[export] Instance outcome_bind : MBind outcome := λ A B f m,
  match m with
  | Ret a => f a
  | Panic w => Panic w
  | Diverge => Diverge
  end.
#[export] Instance outcome_fmap : FMap outcome := λ A B f m,
  match m with
  | Ret a => Ret (f a)
  | Panic w => Panic w
  | Diverge => Diverge
  end.

(** Rust's [Result]. *)
Inductive result (A E : Type) : Type :=
| Ok (a : A)
| Err (e : E).
Arguments Ok {A E} a.
Arguments Err {A E} e.

Definition is_ret {A} (m : outcome A) : bool :=
  match m with Ret _ => true | _ => false end.

(** [assert!(b)] *)
Definition assert_ (b : bool) : outcome unit :=
  if b then Ret tt else Panic PanicAssert.

(** [o.expect(..)] and [o.unwrap()] *)
Definition expect {A} (o : option A) : outcome A :=
  match o with Some a => Ret a | None => Panic PanicExpect end.

(** [slice[i]] and [slice[i] = x] for a [usize] index *)
Definition index {A} (l : list A) (i : Z) : outcome A :=
  match l !! Z.to_nat i with Some a => Ret a | None => Panic PanicIndex end.

Definition index_set {A} (l : list A) (i : Z) (x : A) : outcome (list A) :=
  match l !! Z.to_nat i with
  | Some _ => Ret (<[Z.to_nat i := x]> l)
  | None => Panic PanicIndex
  end.

(** [Vec::len] as a [usize] *)
Definition zlen {A} (l : list A) : Z := Z.of_nat (length l).

(** ** Machine integers

    A [uN] is a [Z] in [[0, 2^N)].  The arithmetic operators panic on overflow;
    casts ([as uN]) and the [wrapping_] operations reduce modulo [2^N]. *)
Definition in_width (w x : Z) : Prop := 0 ≤ x < 2 ^ w.

Definition uadd (w a b : Z) : outcome Z :=
  if a + b <? 2 ^ w then Ret (a + b) else Panic PanicOverflow.
Definition usub (a b : Z) : outcome Z :=
  if b <=? a then Ret (a - b) else Panic PanicOverflow.
Definition umul (w a b : Z) : outcome Z :=
  if a * b <? 2 ^ w then Ret (a * b) else Panic PanicOverflow.
Definition udiv (a b : Z) : outcome Z :=
  if b =? 0 then Panic PanicDivZero else Ret (a / b).
Definition urem (a b : Z) : outcome Z :=
  if b =? 0 then Panic PanicDivZero else Ret (a mod b).
Definition wrap (w x : Z) : Z := x mod 2 ^ w.
Definition wrapping_add (w a b : Z) : Z := wrap w (a + b).
Definition saturating_sub (a b : Z) : Z := Z.max 0 (a - b).
(** [!x] on a [uN] *)
Definition unot (w x : Z) : Z := Z.lxor x (Z.ones w).
(** [a.div_ceil(b)] and [a.next_multiple_of(b)] for [b > 0] *)
Definition div_ceil (a b : Z) : Z := a / b + (if a mod b =? 0 then 0 else 1).
Definition udiv_ceil (a b : Z) : outcome Z :=
  if b =? 0 then Panic PanicDivZero else Ret (div_ceil a b).
Definition next_multiple_of (a b : Z) : Z :=
  if a mod b =? 0 then a else a + (b - a mod b).
Definition is_power_of_two (x : Z) : bool := (0 <? x) && (Z.land x (x - 1) =? 0).

Declare Scope rust_scope.
Delimit Scope rust_scope with rust.
Notation "a '+!' b" := (uadd 64 a b) (at level 50, left associativity) : rust_scope.
Notation "a '-!' b" := (usub a b) (at level 50, left associativity) : rust_scope.
Notation "a '*!' b" := (umul 64 a b) (at level 40, left associativity) : rust_scope.
Notation "a '/!' b" := (udiv a b) (at level 40, left associativity) : rust_scope.

(** ** Loops

    [for x in l { .. }] is a fold in the panic monad; [flow] adds the early
    [return]/[break].  [range a b] is Rust's [a..b]. *)
Definition range (a b : Z) : list Z := seqZ a (b - a).

Fixpoint foldM {A S} (f : A → S → outcome S) (l : list A) (s : S) : outcome S :=
  match l with
  | [] => Ret s
  | x :: l => s' ← f x s; foldM f l s'
  end.

Inductive flow (S R : Type) : Type :=
| Next (s : S)
| Stop (r : R).
Arguments Next {S R} s.
Arguments Stop {S R} r.

Fixpoint loop {A S R} (f : A → S → flow S R) (l : list A) (s : S) : flow S R :=
  match l with
  | [] => Next s
  | x :: l =>
      match f x s with
      | Next s' => loop f l s'
      | Stop r => Stop r
      end
  end.

Fixpoint loopM {A S R} (f : A → S → outcome (flow S R)) (l : list A) (s : S)
  : outcome (flow S R) :=
  match l with
  | [] => Ret (Next s)
  | x :: l =>
      r ← f x s;
      match r with
      | Next s' => loopM f l s'
      | Stop r => Ret (Stop r)
      end
  end.

(** ** Lemmas on the monad *)
Lemma bind_ret_inv {A B} (m : outcome A) (f : A → outcome B) b :
  m ≫= f = Ret b ↔ ∃ a, m = Ret a ∧ f a = Ret b.
Proof. destruct m; simpl; naive_solver. Qed.

Lemma bind_converges {A B} (m : outcome A) (f : A → outcome B) :
  m ≠ Diverge → (∀ a, m = Ret a → f a ≠ Diverge) → m ≫= f ≠ Diverge.
Proof. destruct m; simpl; naive_solver. Qed.

Lemma assert_ret_inv b u : assert_ b = Ret u ↔ b = true.
Proof. destruct b, u; simpl; naive_solver. Qed.

Lemma expect_ret_inv {A} (o : option A) a : expect o = Ret a ↔ o = Some a.
Proof. destruct o; simpl; naive_solver. Qed.

Lemma uadd_ret_inv w a b c : uadd w a b = Ret c ↔ c = a + b ∧ a + b < 2 ^ w.
Proof. unfold uadd. destruct (Z.ltb_spec (a + b) (2 ^ w)); naive_solver lia. Qed.

Lemma usub_ret_inv a b c : usub a b = Ret c ↔ c = a - b ∧ b ≤ a.
Proof. unfold usub. destruct (Z.leb_spec b a); naive_solver lia. Qed.

Lemma umul_ret_inv w a b c : umul w a b = Ret c ↔ c = a * b ∧ a * b < 2 ^ w.
Proof. unfold umul. destruct (Z.ltb_spec (a * b) (2 ^ w)); naive_solver lia. Qed.

Lemma udiv_ret_inv a b c : udiv a b = Ret c ↔ b ≠ 0 ∧ c = a / b.
Proof. unfold udiv. destruct (Z.eqb_spec b 0); naive_solver. Qed.

Lemma urem_ret_inv a b c : urem a b = Ret c ↔ b ≠ 0 ∧ c = a mod b.
Proof. unfold urem. destruct (Z.eqb_spec b 0); naive_solver. Qed.

Lemma index_ret_inv {A} (l : list A) i x : index l i = Ret x ↔ l !! Z.to_nat i = Some x.
Proof. unfold index. destruct (l !! Z.to_nat i); naive_solver. Qed.

Lemma index_set_ret_inv {A} (l l' : list A) i x :
  index_set l i x = Ret l' ↔
  (Z.to_nat i < length l)%nat ∧ l' = <[Z.to_nat i := x]> l.
Proof.
  unfold index_set. destruct (l !! Z.to_nat i) eqn:E.
  - apply lookup_lt_Some in E. naive_solver.
  - apply lookup_ge_None in E. naive_solver lia.
Qed.

Lemma index_is_ret {A} (l : list A) i :
  (Z.to_nat i < length l)%nat → ∃ x, index l i = Ret x ∧ l !! Z.to_nat i = Some x.
Proof. intros [x Hx]%lookup_lt_is_Some. exists x. by rewrite index_ret_inv. Qed.

Lemma uadd_ok w a b : a + b < 2 ^ w → uadd w a b = Ret (a + b).
Proof. intros. by apply uadd_ret_inv. Qed.
Lemma usub_ok a b : b ≤ a → usub a b = Ret (a - b).
Proof. intros. by apply usub_ret_inv. Qed.
Lemma umul_ok w a b : a * b < 2 ^ w → umul w a b = Ret (a * b).
Proof. intros. by apply umul_ret_inv. Qed.

(** Invert every [Ret] equation of the context. *)
Ltac inv_ret_step :=
  match goal with
  | H : mbind _ _ = Ret _ |- _ =>
      let a := fresh "a" in let H1 := fresh H in
      apply bind_ret_inv in H as (a & H1 & H); simpl in H
  | H : assert_ _ = Ret _ |- _ => apply assert_ret_inv in H
  | H : expect _ = Ret _ |- _ => apply expect_ret_inv in H
  | H : uadd _ _ _ = Ret _ |- _ => apply uadd_ret_inv in H as [-> H]
  | H : usub _ _ = Ret _ |- _ => apply usub_ret_inv in H as [-> H]
  | H : umul _ _ _ = Ret _ |- _ => apply umul_ret_inv in H as [-> H]
  | H : udiv _ _ = Ret _ |- _ => apply udiv_ret_inv in H as [H ->]
  | H : urem _ _ = Ret _ |- _ => apply urem_ret_inv in H as [H ->]
  | H : index _ _ = Ret _ |- _ => apply index_ret_inv in H
  | H : index_set _ _ _ = Ret _ |- _ => apply index_set_ret_inv in H as [H ->]
  | H : Ret _ = Ret _ |- _ => injection H as H
  | H : mret _ = Ret _ |- _ => injection H as H
  | H : Panic _ = Ret _ |- _ => discriminate H
  | H : Diverge = Ret _ |- _ => discriminate H
  end.
Ltac inv_ret := repeat (inv_ret_step; simplify_eq/=).

(** Run the monad as far as the values are known. *)
Ltac run_monad := cbn [mbind outcome_bind mret outcome_ret fmap outcome_fmap expect].

(** Discharge goals with division and modulo by constants. *)
Ltac zdm := Z.div_mod_to_equations; nia.

(** ** Loops *)
Lemma foldM_app {A S} (f : A → S → outcome S) l1 l2 s :
  foldM f (l1 ++ l2) s = s' ← foldM f l1 s; foldM f l2 s'.
Proof.
  revert s. induction l1 as [|x l1 IH]; intros s; [done|].
  cbn. destruct (f x s); simpl; auto.
Qed.

Lemma foldM_fmap {A B S} (f : B → S → outcome S) (g : A → B) l s :
  foldM f (g <$> l) s = foldM (λ x, f (g x)) l s.
Proof.
  revert s. induction l as [|x l IH]; intros s; [done|].
  cbn. destruct (f (g x) s); simpl; auto.
Qed.

(** Invariant rule: if each iteration succeeds under the invariant, so does the
    loop, and the invariant holds at the end. *)
Lemma foldM_inv {A S} (f : A → S → outcome S) (I : list A → S → Prop) l s :
  I [] s →
  (∀ done x rest s, l = done ++ x :: rest → I done s →
     ∃ s', f x s = Ret s' ∧ I (done ++ [x]) s') →
  ∃ s', foldM f l s = Ret s' ∧ I l s'.
Proof.
  intros H0 Hstep.
  enough (∀ done rest s, l = done ++ rest → I done s →
    ∃ s', foldM f rest s = Ret s' ∧ I l s') as H by (by apply (H [] l)).
  clear s H0. intros done rest. revert done.
  induction rest as [|x rest IH]; intros done s Hl HI.
  - exists s. rewrite app_nil_r in Hl. by subst.
  - destruct (Hstep done x rest s Hl HI) as (s1 & Hf & HI1).
    destruct (IH (done ++ [x]) s1) as (s2 & ? & ?); [|done|].
    { by rewrite <-app_assoc. }
    exists s2. simpl. rewrite Hf. simpl. done.
Qed.

Lemma foldM_bind {A B S} (f : B → S → outcome S) (g : A → list B) l s :
  foldM f (l ≫= g) s = foldM (λ x, foldM f (g x)) l s.
Proof.
  revert s. induction l as [|x l IH]; intros s; cbn [mbind list_bind foldM]; [done|]. rewrite foldM_app.
  destruct (foldM f (g x) s); run_monad; [apply IH|done..].
Qed.

Lemma foldM_ext {A S} (f g : A → S → outcome S) l s : (∀ x s, x ∈ l → f x s = g x s) → foldM f l s = foldM g l s.
Proof.
  revert s. induction l as [|x l IH]; intros s Hf; cbn [foldM]; [done|]. rewrite Hf by set_solver.
  destruct (g x s); run_monad; [|done..]. apply IH. set_solver.
Qed.

(** Preservation rule for a loop known to have returned. *)
Lemma foldM_preserve {A S} (f : A → S → outcome S) (I : S → Prop) l s s' :
  (∀ x s s', x ∈ l → I s → f x s = Ret s' → I s') →
  I s → foldM f l s = Ret s' → I s'.
Proof.
  revert s. induction l as [|x l IH]; intros s Hf HI H; simpl in H; [by inv_ret|].
  inv_ret. eapply (IH a); [|by eapply Hf; eauto; left|done].
  intros. eapply Hf; eauto. by right.
Qed.

Lemma loop_ext {A B St R} (f : A → St → flow St R) (g : B → St → flow St R) l k s :
  length l = length k →
  (∀ i x y s, l !! i = Some x → k !! i = Some y → f x s = g y s) →
  loop f l s = loop g k s.
Proof.
  revert k s. induction l as [|x l IH]; intros [|y k] s Hlen Hfg; try done.
  simpl. rewrite (Hfg 0%nat x y) by done.
  destruct (g y s); [|done]. apply IH; [by injection Hlen|].
  intros i x' y' s' ? ?. by apply (Hfg (S i)).
Qed.

Lemma loop_app {A St R} (f : A → St → flow St R) l1 l2 s :
  loop f (l1 ++ l2) s =
  match loop f l1 s with Next s' => loop f l2 s' | Stop r => Stop r end.
Proof.
  revert s. induction l1 as [|x l1 IH]; intros s; simpl; [done|].
  destruct (f x s); [apply IH|done].
Qed.

(** ** Lists *)
Lemma filter_ext_in {A} (P Q : A → Prop) `{∀ x, Decision (P x), ∀ x, Decision (Q x)} (l : list A) :
  (∀ x, x ∈ l → P x ↔ Q x) → filter P l = filter Q l.
Proof.
  induction l as [|x l IH]; intros HPQ; [done|]. rewrite !filter_cons.
  rewrite IH by (intros; apply HPQ; by right).
  pose proof (HPQ x ltac:(by left)).
  destruct (decide (P x)), (decide (Q x)); try done; exfalso; tauto.
Qed.

Lemma filter_none {A} (P : A → Prop) `{∀ x, Decision (P x)} (l : list A) :
  (∀ x, x ∈ l → ¬ P x) → filter P l = [].
Proof.
  intros HP. induction l as [|x l IH]; [done|]. rewrite filter_cons.
  rewrite decide_False by (apply HP; by left). apply IH. intros. apply HP. by right.
Qed.

Lemma elem_of_range a b x : x ∈ range a b ↔ a ≤ x < b.
Proof. unfold range. rewrite elem_of_seqZ. lia. Qed.

Lemma range_nil a b : b ≤ a → range a b = [].
Proof. intros. unfold range. apply seqZ_nil. lia. Qed.

Lemma range_cons a b : a < b → range a b = a :: range (a + 1) b.
Proof.
  intros. unfold range. rewrite seqZ_cons by lia.
  f_equal; f_equal; lia.
Qed.

Lemma range_snoc a b : a < b → range a b = range a (b - 1) ++ [b - 1].
Proof.
  intros. unfold range. replace (b - a) with ((b - 1 - a) + 1) by lia.
  rewrite seqZ_app by lia. f_equal. rewrite seqZ_cons by lia.
  rewrite seqZ_nil by lia. f_equal; lia.
Qed.

Lemma range_app a b c : a ≤ b ≤ c → range a c = range a b ++ range b c.
Proof.
  intros. unfold range. replace (c - a) with ((b - a) + (c - b)) by lia.
  rewrite seqZ_app by lia. do 2 f_equal; lia.
Qed.

Lemma length_range a b : length (range a b) = Z.to_nat (b - a).
Proof. unfold range. by rewrite length_seqZ. Qed.

Lemma zlen_range a b : a ≤ b → zlen (range a b) = b - a.
Proof. intros. unfold zlen. rewrite length_range. lia. Qed.

Lemma zlen_app {A} (l k : list A) : zlen (l ++ k) = zlen l + zlen k.
Proof. unfold zlen. rewrite length_app. lia. Qed.

Lemma zlen_cons {A} (x : A) l : zlen (x :: l) = zlen l + 1.
Proof. unfold zlen. cbn [length]. lia. Qed.

Lemma zlen_nil {A} : zlen (@nil A) = 0.
Proof. done. Qed.

Lemma zlen_insert {A} i (x : A) l : zlen (<[i := x]> l) = zlen l.
Proof. unfold zlen. by rewrite length_insert. Qed.

Lemma zlen_nonneg {A} (l : list A) : 0 ≤ zlen l.
Proof. unfold zlen. lia. Qed.

Lemma range_split_at a b done x rest :
  range a b = done ++ x :: rest →
  x = a + zlen done ∧ a ≤ x < b ∧ done = range a x ∧ rest = range (x + 1) b.
Proof.
  intros H. assert (Hx : range a b !! length done = Some x).
  { rewrite H. rewrite lookup_app_r by lia. by rewrite Nat.sub_diag. }
  unfold range in Hx. apply lookup_seqZ in Hx as [-> Hlen]. unfold zlen.
  assert (Hsp : range a b = range a (a + Z.of_nat (length done)) ++
    (a + Z.of_nat (length done)) :: range (a + Z.of_nat (length done) + 1) b).
  { rewrite (range_app a (a + Z.of_nat (length done)) b) by lia.
    by rewrite (range_cons (a + Z.of_nat (length done)) b) by lia. }
  rewrite Hsp in H.
  apply app_inj_1 in H as [Hd Hr]; [|rewrite length_range; lia].
  injection Hr as Hr. split_and!; [done|lia|lia|done|done].
Qed.

Lemma lookup_range a b i x : range a b !! i = Some x ↔ x = a + Z.of_nat i ∧ x < b.
Proof. unfold range. rewrite lookup_seqZ. lia. Qed.

Lemma NoDup_range a b : NoDup (range a b).
Proof. unfold range. apply NoDup_seqZ. Qed.

#[global] Opaque range.

(** ** Arithmetic *)
Lemma div_ceil_spec a b : 0 < b → a ≤ div_ceil a b * b < a + b.
Proof.
  intros. unfold div_ceil. pose proof (Z.mod_pos_bound a b ltac:(lia)).
  pose proof (Z.div_mod a b ltac:(lia)). destruct (Z.eqb_spec (a mod b) 0); nia.
Qed.

Lemma div_ceil_le a b n : 0 < b → a ≤ n * b → div_ceil a b ≤ n.
Proof. intros ? ?. pose proof (div_ceil_spec a b ltac:(lia)). nia. Qed.

Lemma div_ceil_nonneg a b : 0 < b → 0 ≤ a → 0 ≤ div_ceil a b.
Proof. intros ? ?. pose proof (div_ceil_spec a b ltac:(lia)). nia. Qed.

Lemma next_multiple_of_spec a b :
  0 < b → next_multiple_of a b mod b = 0 ∧ a ≤ next_multiple_of a b < a + b.
Proof.
  intros. unfold next_multiple_of. pose proof (Z.mod_pos_bound a b ltac:(lia)).
  destruct (Z.eqb_spec (a mod b) 0); [lia|]. split; [|lia].
  replace (a + (b - a mod b)) with ((a / b + 1) * b).
  - apply Z_mod_mult.
  - pose proof (Z.div_mod a b ltac:(lia)). nia.
Qed.

(** ** Bits *)
Lemma testbit_high w x i : in_width w x → 0 ≤ w ≤ i → Z.testbit x i = false.
Proof.
  intros [? ?] ?. destruct (Z.eq_dec x 0) as [->|]; [apply Z.bits_0|].
  apply Z.bits_above_log2; [lia|].
  apply Z.log2_lt_pow2; [lia|].
  eapply Z.lt_le_trans; [done|]. apply Z.pow_le_mono_r; lia.
Qed.

Lemma in_width_testbit w x : 0 ≤ w → 0 ≤ x →
  (∀ i, w ≤ i → Z.testbit x i = false) → in_width w x.
Proof.
  intros Hw Hx Hb. split; [done|].
  destruct (Z.eq_dec x 0) as [->|]; [apply Z.pow_pos_nonneg; lia|].
  apply Z.log2_lt_pow2; [lia|].
  destruct (Z.lt_ge_cases (Z.log2 x) w) as [|Hge]; [done|].
  specialize (Hb _ Hge). rewrite Z.bit_log2 in Hb by lia. done.
Qed.

Lemma testbit_one_shiftl b i : 0 ≤ b → Z.testbit (Z.shiftl 1 b) i = bool_decide (i = b).
Proof.
  intros Hb. rewrite Z.shiftl_1_l. case_bool_decide as E.
  - subst. by apply Z.pow2_bits_true.
  - by apply Z.pow2_bits_false.
Qed.

(** [x & (1 << b) == 0] is the bit test. *)
Lemma land_bit_zero x b : 0 ≤ b →
  (Z.land x (Z.shiftl 1 b) =? 0) = negb (Z.testbit x b).
Proof.
  intros Hb. destruct (Z.testbit x b) eqn:E; simpl.
  - apply Z.eqb_neq. intros H. apply (f_equal (λ z, Z.testbit z b)) in H.
    rewrite Z.land_spec, testbit_one_shiftl, E, Z.bits_0 in H by done.
    rewrite bool_decide_eq_true_2 in H by done. done.
  - apply Z.eqb_eq. apply Z.bits_inj. intros i.
    rewrite Z.land_spec, testbit_one_shiftl, Z.bits_0 by done.
    case_bool_decide; [subst; by rewrite E|apply andb_false_r].
Qed.

Lemma testbit_set_bit x b i : 0 ≤ b →
  Z.testbit (Z.lor x (Z.shiftl 1 b)) i = Z.testbit x i || bool_decide (i = b).
Proof. intros. by rewrite Z.lor_spec, testbit_one_shiftl. Qed.

Lemma testbit_unot w x i : 0 ≤ i < w → Z.testbit (unot w x) i = negb (Z.testbit x i).
Proof.
  intros. unfold unot. rewrite Z.lxor_spec, Z.ones_spec_low by lia.
  apply xorb_true_r.
Qed.

Lemma testbit_clear_bit w x b i : in_width w x → 0 ≤ b < w →
  Z.testbit (Z.land x (unot w (Z.shiftl 1 b))) i
  = Z.testbit x i && negb (bool_decide (i = b)).
Proof.
  intros Hx Hb. rewrite Z.land_spec.
  destruct (Z.lt_ge_cases i 0) as [|Hi].
  { by rewrite !Z.testbit_neg_r by lia. }
  destruct (Z.lt_ge_cases i w).
  - by rewrite testbit_unot, testbit_one_shiftl by lia.
  - by rewrite (testbit_high w x i) by (done || lia).
Qed.

Lemma in_width_set_bit w x b : in_width w x → 0 ≤ b < w →
  in_width w (Z.lor x (Z.shiftl 1 b)).
Proof.
  intros Hx Hb. apply in_width_testbit; [lia| |].
  - apply Z.lor_nonneg. split; [destruct Hx; lia|].
    rewrite Z.shiftl_1_l. apply Z.pow_nonneg. lia.
  - intros i Hi. rewrite testbit_set_bit by lia.
    rewrite (testbit_high w x i) by (done || lia). simpl.
    apply bool_decide_eq_false_2. lia.
Qed.

Lemma in_width_land w x y : in_width w x → 0 ≤ w → in_width w (Z.land x y).
Proof.
  intros Hx Hw. apply in_width_testbit; [done| |].
  - apply Z.land_nonneg. left. destruct Hx; lia.
  - intros i Hi. rewrite Z.land_spec.
    by rewrite (testbit_high w x i) by (done || lia).
Qed.

Lemma in_width_lor w x y : in_width w x → in_width w y → 0 ≤ w → in_width w (Z.lor x y).
Proof.
  intros Hx Hy Hw. apply in_width_testbit; [done| |].
  - apply Z.lor_nonneg. destruct Hx, Hy; lia.
  - intros i Hi. rewrite Z.lor_spec.
    by rewrite (testbit_high w x i), (testbit_high w y i) by (done || lia).
Qed.

Create HintDb rust discriminated.
#[export] Hint Resolve in_width_set_bit in_width_land in_width_lor : rust.
