(* ===== verification/AllocSpec.v ===== *)
(** * What a contiguous allocator promises its clients

    The physical memory allocator, the kernel stack allocator and the traces of
    the crate's own property test all use a [BitmapAllocator] only through
    allocation and deallocation of runs of pages.  [ContiguousAllocator] is that
    interface, [ContiguousAllocatorLaws] its contract.  The client theorems below
    are proved against the contract; [BitmapAlloc] discharges it. *)
From S2P Require Import Prelude.
#[local] Open Scope Z_scope.

Definition in_block (s n p : Z) : bool := (s <=? p) && (p <? s + n).

(** [n] free pages in a row from [s] *)
Definition free_run (used : Z → bool) (s n : Z) : Prop :=
  ∀ p, s ≤ p < s + n → used p = false.

(** The lowest start of such a run, if there is one. *)
Definition first_fit (used : Z → bool) (n : Z) (r : option Z) : Prop :=
  match r with
  | Some s => 0 ≤ s ∧ free_run used s n ∧ ∀ s', 0 ≤ s' < s → ¬ free_run used s' n
  | None => ∀ s', 0 ≤ s' → ¬ free_run used s' n
  end.

Definition marks_block (used used' : Z → bool) (s n : Z) : Prop :=
  ∀ p, 0 ≤ p → used' p = used p || in_block s n p.
Definition clears_block (used used' : Z → bool) (s n : Z) : Prop :=
  ∀ p, 0 ≤ p → used' p = used p && negb (in_block s n p).

Class ContiguousAllocator (A : Type) : Type := {
  ca_wf : A → Prop;
  ca_used : A → Z → bool;
  ca_capacity : A → Z;
  ca_allocate : A → Z → outcome (option Z * A);
  ca_free : A → Z → Z → outcome A;
}.

Class ContiguousAllocatorLaws (A : Type) `{!ContiguousAllocator A} : Prop := {
  ca_capacity_width (a : A) : ca_wf a → 0 ≤ ca_capacity a < 2 ^ 64;
  ca_beyond (a : A) p : ca_capacity a ≤ p → ca_used a p = true;
  ca_allocate_ok (a : A) n : ca_wf a → 0 < n →
    ∃ r a', ca_allocate a n = Ret (r, a') ∧ ca_wf a' ∧
      ca_capacity a' = ca_capacity a ∧ first_fit (ca_used a) n r ∧
      match r with
      | None => ∀ p, 0 ≤ p → ca_used a' p = ca_used a p
      | Some s => marks_block (ca_used a) (ca_used a') s n
      end;
  ca_free_ok (a : A) s n : ca_wf a → 0 ≤ s → 0 < n → s + n ≤ ca_capacity a →
    (∀ p, s ≤ p < s + n → ca_used a p = true) →
    ∃ a', ca_free a s n = Ret a' ∧ ca_wf a' ∧
      ca_capacity a' = ca_capacity a ∧
      clears_block (ca_used a) (ca_used a') s n;
}.

(** ** A client that frees only what it owns

    The trace of the crate's property test [alloc_free]: an allocation adds the
    returned block to the owned ones, a deallocation returns one of them. *)
Inductive client_op : Type :=
| Alloc (n : Z)
| Free (k : nat).

Definition op_ok (op : client_op) : Prop :=
  match op with Alloc n => 0 < n | Free _ => True end.

Section client.
Context {A : Type} `{!ContiguousAllocator A}.

Definition client_step (op : client_op) (c : A * list (Z * Z))
  : outcome (A * list (Z * Z)) :=
  let '(a, owned) := c in
  match op with
  | Alloc n =>
      '(r, a') ← ca_allocate a n;
      match r with
      | Some s => mret (a', (s, n) :: owned)
      | None => mret (a', owned)
      end
  | Free k =>
      match owned !! k with
      | None => mret c
      | Some (s, n) =>
          a' ← ca_free a s n;
          mret (a', delete k owned)
      end
  end.

Definition owners (owned : list (Z * Z)) (p : Z) : nat :=
  length (filter (λ b, in_block b.1 b.2 p = true) owned).

(** [u0] is what was in use before the client started, [cap] the number of
    pages. *)
Record client_inv (u0 : Z → bool) (cap : Z) (c : A * list (Z * Z)) : Prop := {
  ci_wf : ca_wf c.1;
  ci_capacity : ca_capacity c.1 = cap;
  ci_bounds : Forall (λ b, 0 ≤ b.1 ∧ 0 < b.2 ∧ b.1 + b.2 ≤ cap) c.2;
  ci_once : ∀ p, 0 ≤ p → (owners c.2 p + (if u0 p then 1 else 0) ≤ 1)%nat;
  ci_used : ∀ p, 0 ≤ p → ca_used c.1 p = u0 p || bool_decide (0 < owners c.2 p)%nat;
}.

Lemma in_block_spec s n p : in_block s n p = true ↔ s ≤ p < s + n.
Proof. unfold in_block. rewrite andb_true_iff, Z.leb_le, Z.ltb_lt. done. Qed.

Lemma owners_cons s n owned p :
  owners ((s, n) :: owned) p = ((if in_block s n p then 1 else 0) + owners owned p)%nat.
Proof. unfold owners. rewrite filter_cons. simpl. by destruct (in_block s n p). Qed.

Lemma owners_delete owned k s n p : owned !! k = Some (s, n) →
  owners owned p = ((if in_block s n p then 1 else 0) + owners (delete k owned) p)%nat.
Proof.
  intros H. rewrite <-owners_cons. unfold owners. apply Permutation_length.
  apply filter_Permutation. by apply delete_Permutation.
Qed.

Context `{!ContiguousAllocatorLaws A}.

Lemma first_fit_capacity a n s :
  0 < n → first_fit (ca_used a) n (Some s) → 0 ≤ s ∧ s + n ≤ ca_capacity a.
Proof.
  intros Hn (Hs & Hrun & _). split; [done|].
  destruct (Z.lt_ge_cases (ca_capacity a) (s + n)); [|lia].
  specialize (Hrun (s + n - 1) ltac:(lia)). rewrite ca_beyond in Hrun by lia. done.
Qed.

Lemma client_alloc_inv u0 cap a owned n : client_inv u0 cap (a, owned) → 0 < n →
  ∃ c', client_step (Alloc n) (a, owned) = Ret c' ∧ client_inv u0 cap c'.
Proof.
  intros [Hwf Hc0 Hb Ho Hu] Hn. simpl in *.
  destruct (ca_allocate_ok a n Hwf Hn) as (r & a' & -> & Hwf' & Hcap & Hff & Hr).
  simpl. destruct r as [s|].
  - destruct (first_fit_capacity a n s Hn Hff). destruct Hff as (_ & Hrun & _).
    exists (a', (s, n) :: owned). split; [done|]. split; simpl.
    + done.
    + congruence.
    + constructor; [|done]. simpl. lia.
    + intros p Hp. rewrite owners_cons. specialize (Ho p Hp).
      destruct (in_block s n p) eqn:E; [|lia]. apply in_block_spec in E.
      specialize (Hrun p E). rewrite Hu in Hrun by done.
      apply orb_false_iff in Hrun as [-> Hz]. apply bool_decide_eq_false in Hz. lia.
    + intros p Hp. rewrite (Hr p Hp), Hu, owners_cons by done.
      destruct (u0 p), (in_block s n p); simpl; try done; lia.
  - exists (a', owned). split; [done|]. split; simpl; auto; [congruence|].
    intros p Hp. by rewrite Hr, Hu by done.
Qed.

Lemma client_free_inv u0 cap a owned k : client_inv u0 cap (a, owned) →
  ∃ c', client_step (Free k) (a, owned) = Ret c' ∧ client_inv u0 cap c'.
Proof.
  intros [Hwf Hc0 Hb Ho Hu]. simpl in *.
  destruct (owned !! k) as [[s n]|] eqn:E; [|by exists (a, owned)].
  pose proof (Forall_lookup_1 _ _ _ _ Hb E) as (Hs & Hn & Hc). simpl in *.
  destruct (ca_free_ok a s n) as (a' & -> & Hwf' & Hcap & Hclr); [done|done|done|lia| |].
  { intros p Hp. rewrite Hu by lia. rewrite (owners_delete _ _ _ _ _ E).
    rewrite (proj2 (in_block_spec s n p)) by done.
    rewrite (bool_decide_eq_true_2 (_ < _)%nat) by lia. apply orb_true_r. }
  exists (a', delete k owned). split; [done|]. split; simpl.
  - done.
  - congruence.
  - by apply Forall_delete.
  - intros p Hp. specialize (Ho p Hp). rewrite (owners_delete _ _ _ _ _ E) in Ho. lia.
  - intros p Hp. specialize (Ho p Hp).
    rewrite (Hclr p Hp), Hu by done. rewrite (owners_delete _ _ _ _ _ E) in *.
    destruct (in_block s n p); simpl; [|by rewrite andb_true_r].
    rewrite andb_false_r. destruct (u0 p); simpl; [lia|].
    symmetry. apply bool_decide_eq_false. lia.
Qed.

Lemma client_run_inv u0 cap ops c : client_inv u0 cap c → Forall op_ok ops →
  ∃ c', foldM client_step ops c = Ret c' ∧ client_inv u0 cap c'.
Proof.
  revert c. induction ops as [|op ops IH]; intros [a owned] Hc Hok; [by eexists|].
  inversion_clear Hok as [|? ? Hop Hops]. destruct op as [n|k].
  - destruct (client_alloc_inv u0 cap a owned n Hc Hop) as (c' & Hs & Hc').
    cbn [foldM]. rewrite Hs. simpl. by apply IH.
  - destruct (client_free_inv u0 cap a owned k Hc) as (c' & Hs & Hc').
    cbn [foldM]. rewrite Hs. simpl. by apply IH.
Qed.

Lemma client_inv_init a : ca_wf a → client_inv (ca_used a) (ca_capacity a) (a, []).
Proof.
  intros. split; simpl; [done|done|constructor| |].
  - intros p _. unfold owners. simpl. by destruct (ca_used a p); lia.
  - intros p _. unfold owners. simpl. by rewrite orb_false_r.
Qed.

End client.
