(* ===== verification/BitmapAlloc.v ===== *)
(** * The bitmap allocator ([crates/bitmap-alloc/src/alloc.rs])

    State: the chunks of the bitmap (a [list] of [u64]s) and the cached start
    of the single-page search.  Operations: [mark_used], [mark_unused],
    [allocate_contiguous], [find_next_contiguous], [free_contiguous].  The
    page-level reading of the bitmap is [page_used]; the theorems state first
    fit, the exact effect of every operation on [page_used], when an operation
    panics, and that a client that only frees what it owns never panics.

    Overflow: [start + num_pages] is checked as in the code.  The products
    [i * BITS_PER_CHUNK + bit + 1] of the search are left in [Z]: they are at
    most the number of pages the bitmap covers, which [wf] bounds by [2^64]. *)
From S2P Require Import Prelude AllocSpec.
#[local] Open Scope Z_scope.

Module BitmapAllocator.

Definition BITS_PER_CHUNK : Z := 64.

Record t : Type := mk {
  bitmap : list Z;
  last_single_page_allocation : option Z;
}.

Definition new (bitmap : list Z) : t :=
  {| bitmap := bitmap; last_single_page_allocation := None |}.

Definition set_bitmap (a : t) (bm : list Z) : t :=
  {| bitmap := bm; last_single_page_allocation := a.(last_single_page_allocation) |}.
Definition set_last (a : t) (l : option Z) : t :=
  {| bitmap := a.(bitmap); last_single_page_allocation := l |}.

Definition mark_used (page : Z) (self : t) : outcome t :=
  let idx := page / BITS_PER_CHUNK in
  let bit := page mod BITS_PER_CHUNK in
  chunk ← index self.(bitmap) idx;
  _ ← assert_ (Z.land chunk (Z.shiftl 1 bit) =? 0);
  bm ← index_set self.(bitmap) idx (Z.lor chunk (Z.shiftl 1 bit));
  mret (set_bitmap self bm).

Definition mark_unused (page : Z) (self : t) : outcome t :=
  let idx := page / BITS_PER_CHUNK in
  let bit := page mod BITS_PER_CHUNK in
  chunk ← index self.(bitmap) idx;
  _ ← assert_ (negb (Z.land chunk (Z.shiftl 1 bit) =? 0));
  bm ← index_set self.(bitmap) idx (Z.land chunk (unot 64 (Z.shiftl 1 bit)));
  mret (set_bitmap self bm).

(** One iteration of the inner loop of [find_next_contiguous]: the loop state is
    [(start, current_len)]; [Stop] is the early [return Some(start)]. *)
Definition scan_bit (num_pages i byte bit : Z) (st : Z * Z) : flow (Z * Z) Z :=
  let '(start, current_len) := st in
  let bit_free := Z.land byte (Z.shiftl 1 bit) =? 0 in
  if bit_free then
    let current_len := current_len + 1 in
    if current_len =? num_pages then Stop start else Next (start, current_len)
  else Next (i * BITS_PER_CHUNK + bit + 1, 0).

Definition scan_chunk (num_pages : Z) (bm : list Z) (i : Z) (st : Z * Z)
  : outcome (flow (Z * Z) Z) :=
  byte ← index bm i;
  mret (loop (scan_bit num_pages i byte) (range 0 BITS_PER_CHUNK) st).

Definition find_next_contiguous (self : t) (num_pages : Z) : outcome (option Z) :=
  let start :=
    if num_pages =? 1 then default 0 self.(last_single_page_allocation) else 0 in
  let byte_idx := start / BITS_PER_CHUNK in
  r ← loopM (scan_chunk num_pages self.(bitmap))
        (range byte_idx (zlen self.(bitmap))) (start, 0);
  match r with
  | Stop start => mret (Some start)
  | Next _ => mret None
  end.

Definition allocate_contiguous (self : t) (num_pages : Z) : outcome (option Z * t) :=
  _ ← assert_ (0 <? num_pages);
  start ← find_next_contiguous self num_pages;
  let self := if num_pages =? 1 then set_last self start else self in
  match start with
  | None => mret (None, self)
  | Some start =>
      end_ ← uadd 64 start num_pages;
      self ← foldM mark_used (range start end_) self;
      mret (Some start, self)
  end.

Definition free_contiguous (self : t) (start_page num_pages : Z) : outcome t :=
  _ ← assert_ (0 <? num_pages);
  end_ ← uadd 64 start_page num_pages;
  self ← foldM mark_unused (range start_page end_) self;
  match self.(last_single_page_allocation) with
  | Some last_single_page_start =>
      if start_page <? last_single_page_start
      then mret (set_last self (Some start_page))
      else mret self
  | None => mret self
  end.

(** ** The page-level reading of the bitmap *)

(** Pages the bitmap does not cover count as used: they are never handed out. *)
Definition page_used (bm : list Z) (p : Z) : bool :=
  match bm !! Z.to_nat (p / BITS_PER_CHUNK) with
  | Some chunk => Z.testbit chunk (p mod BITS_PER_CHUNK)
  | None => true
  end.

Definition capacity (bm : list Z) : Z := BITS_PER_CHUNK * zlen bm.

(** The invariant of a well-formed allocator.  [wf_last] is what the comment in
    [find_next_contiguous] relies on: every page below the cached start is in
    use. *)
Record wf (a : t) : Prop := {
  wf_width : Forall (in_width 64) a.(bitmap);
  wf_capacity : capacity a.(bitmap) < 2 ^ 64;
  wf_last : ∀ l, a.(last_single_page_allocation) = Some l →
    0 ≤ l ∧ ∀ p, 0 ≤ p < l → page_used a.(bitmap) p = true;
}.

(** The two nested loops of [find_next_contiguous] seen as one scan over page
    numbers. *)
Definition scan_page (bm : list Z) (n p : Z) (st : Z * Z) : flow (Z * Z) Z :=
  if page_used bm p then Next (p + 1, 0)
  else if st.2 + 1 =? n then Stop st.1 else Next (st.1, st.2 + 1).

(** ** Lemmas *)
Lemma page_used_covered bm p : 0 ≤ p → page_used bm p = false → p < capacity bm.
Proof.
  intros Hp H. unfold page_used, capacity, zlen, BITS_PER_CHUNK in *.
  destruct (bm !! Z.to_nat (p / 64)) eqn:E; [|done].
  apply lookup_lt_Some in E. zdm.
Qed.

Lemma chunk_of bm p : 0 ≤ p < capacity bm →
  ∃ c, bm !! Z.to_nat (p / 64) = Some c ∧ page_used bm p = Z.testbit c (p mod 64).
Proof.
  intros Hp. unfold page_used, capacity, zlen, BITS_PER_CHUNK in *.
  destruct (bm !! Z.to_nat (p / 64)) eqn:E; [eauto|].
  apply lookup_ge_None in E. zdm.
Qed.

Lemma page_used_insert bm p c c' q :
  0 ≤ p → 0 ≤ q → bm !! Z.to_nat (p / 64) = Some c →
  (∀ i, 0 ≤ i < 64 → i ≠ p mod 64 → Z.testbit c' i = Z.testbit c i) →
  page_used (<[Z.to_nat (p / 64) := c']> bm) q
  = if decide (p = q) then Z.testbit c' (p mod 64) else page_used bm q.
Proof.
  intros Hp Hq Hc Hbits. unfold page_used, BITS_PER_CHUNK.
  pose proof (lookup_lt_Some _ _ _ Hc) as Hlt.
  destruct (decide (p / 64 = q / 64)) as [E|E].
  - rewrite <-E, list_lookup_insert_eq, Hc by done.
    case_decide as Epq; [by subst|]. apply Hbits; zdm.
  - rewrite list_lookup_insert_ne by zdm.
    case_decide; [by subst|done].
Qed.

Lemma mark_used_spec a p :
  Forall (in_width 64) a.(bitmap) → 0 ≤ p →
  page_used a.(bitmap) p = false →
  ∃ a', mark_used p a = Ret a' ∧
    Forall (in_width 64) a'.(bitmap) ∧
    length a'.(bitmap) = length a.(bitmap) ∧
    a'.(last_single_page_allocation) = a.(last_single_page_allocation) ∧
    ∀ q, 0 ≤ q → page_used a'.(bitmap) q = page_used a.(bitmap) q || bool_decide (q = p).
Proof.
  intros Hw Hp Hfree. pose proof (page_used_covered _ _ Hp Hfree) as Hcap.
  destruct (chunk_of _ _ (conj Hp Hcap)) as (c & Hc & Hu).
  pose proof (lookup_lt_Some _ _ _ Hc) as Hlt.
  pose proof (Forall_lookup_1 _ _ _ _ Hw Hc) as Hcw.
  unfold mark_used, BITS_PER_CHUNK. unfold index, index_set. cbv zeta. rewrite Hc. simpl.
  rewrite land_bit_zero, <-Hu, Hfree by zdm. simpl.
  eexists; split_and!; [done|..]; simpl.
  - apply Forall_insert; [done|]. apply in_width_set_bit; [done|zdm].
  - apply length_insert.
  - done.
  - intros q Hq. rewrite (page_used_insert _ _ c) by
      (done || (intros; rewrite testbit_set_bit by zdm;
        rewrite (bool_decide_eq_false_2 (_ = _)) by done; by rewrite orb_false_r)).
    rewrite testbit_set_bit by zdm.
    rewrite (bool_decide_eq_true_2 (p mod 64 = _)), orb_true_r by done.
    case_decide; [|by rewrite bool_decide_eq_false_2, orb_false_r by done].
    subst. by rewrite bool_decide_eq_true_2, orb_true_r by done.
Qed.

Lemma mark_unused_spec a p :
  Forall (in_width 64) a.(bitmap) → 0 ≤ p < capacity a.(bitmap) →
  page_used a.(bitmap) p = true →
  ∃ a', mark_unused p a = Ret a' ∧
    Forall (in_width 64) a'.(bitmap) ∧
    length a'.(bitmap) = length a.(bitmap) ∧
    a'.(last_single_page_allocation) = a.(last_single_page_allocation) ∧
    ∀ q, 0 ≤ q →
      page_used a'.(bitmap) q = page_used a.(bitmap) q && negb (bool_decide (q = p)).
Proof.
  intros Hw Hp Hused. destruct (chunk_of _ _ Hp) as (c & Hc & Hu).
  pose proof (lookup_lt_Some _ _ _ Hc) as Hlt.
  pose proof (Forall_lookup_1 _ _ _ _ Hw Hc) as Hcw.
  unfold mark_unused, BITS_PER_CHUNK. unfold index, index_set. cbv zeta. rewrite Hc. simpl.
  rewrite land_bit_zero, <-Hu, Hused by zdm. simpl.
  eexists; split_and!; [done|..]; simpl.
  - apply Forall_insert; [done|]. apply in_width_land; [done|lia].
  - apply length_insert.
  - done.
  - intros q Hq. rewrite (page_used_insert _ _ c) by
      (done || lia || (intros; rewrite testbit_clear_bit by (done || zdm);
        rewrite (bool_decide_eq_false_2 (_ = _)) by done; by rewrite andb_true_r)).
    rewrite testbit_clear_bit by (done || zdm).
    rewrite (bool_decide_eq_true_2 (p mod 64 = _)), andb_false_r by done.
    case_decide; [|by rewrite bool_decide_eq_false_2, andb_true_r by done].
    subst. by rewrite bool_decide_eq_true_2, andb_false_r by done.
Qed.

Lemma in_block_snoc s x p : s ≤ x →
  in_block s (x + 1 - s) p = in_block s (x - s) p || bool_decide (p = x).
Proof.
  intros. apply eq_bool_prop_intro.
  rewrite orb_True, !Is_true_true, !in_block_spec, bool_decide_eq_true. lia.
Qed.

(** The marking loop of [allocate_contiguous]. *)
Lemma mark_used_block a s n :
  Forall (in_width 64) a.(bitmap) → 0 ≤ s → 0 ≤ n → free_run (page_used a.(bitmap)) s n →
  ∃ a', foldM mark_used (range s (s + n)) a = Ret a' ∧
    Forall (in_width 64) a'.(bitmap) ∧
    length a'.(bitmap) = length a.(bitmap) ∧
    a'.(last_single_page_allocation) = a.(last_single_page_allocation) ∧
    ∀ q, 0 ≤ q → page_used a'.(bitmap) q = page_used a.(bitmap) q || in_block s n q.
Proof.
  intros Hw Hs Hn Hfree.
  set (I := λ (done : list Z) (b : t),
    Forall (in_width 64) b.(bitmap) ∧
    length b.(bitmap) = length a.(bitmap) ∧
    b.(last_single_page_allocation) = a.(last_single_page_allocation) ∧
    ∀ q, 0 ≤ q → page_used b.(bitmap) q
      = page_used a.(bitmap) q || in_block s (zlen done) q).
  destruct (foldM_inv mark_used I (range s (s + n)) a) as (a' & Ha' & H1 & H2 & H3 & H4).
  - unfold I. split_and!; [done..|]. intros q _.
    replace (in_block s _ q) with false; [by rewrite orb_false_r|].
    unfold in_block, zlen. simpl. symmetry. lia.
  - intros done x rest b Hr (Hb1 & Hb2 & Hb3 & Hb4).
    apply range_split_at in Hr as (Hx & Hxr & _ & _).
    destruct (mark_used_spec b x) as (b' & Hb' & ? & ? & ? & Hq); [done|lia| |].
    { rewrite Hb4 by lia. rewrite (Hfree x) by lia. unfold in_block. lia. }
    exists b'. unfold I. split_and!; [done..|congruence|congruence|].
    intros q Hq0. rewrite Hq, Hb4 by done. unfold zlen in *. rewrite length_app. simpl.
    rewrite <-orb_assoc. f_equal.
    replace (Z.of_nat (length done + 1)) with (x + 1 - s) by lia.
    rewrite in_block_snoc by lia. do 2 f_equal. lia.
  - exists a'. split_and!; [done..|]. intros q Hq. rewrite H4 by done.
    unfold zlen. rewrite length_range. do 2 f_equal. lia.
Qed.

(** The marking loop of [free_contiguous]. *)
Lemma mark_unused_block a s n :
  Forall (in_width 64) a.(bitmap) → 0 ≤ s → 0 ≤ n → s + n ≤ capacity a.(bitmap) →
  (∀ p, s ≤ p < s + n → page_used a.(bitmap) p = true) →
  ∃ a', foldM mark_unused (range s (s + n)) a = Ret a' ∧
    Forall (in_width 64) a'.(bitmap) ∧
    length a'.(bitmap) = length a.(bitmap) ∧
    a'.(last_single_page_allocation) = a.(last_single_page_allocation) ∧
    ∀ q, 0 ≤ q →
      page_used a'.(bitmap) q = page_used a.(bitmap) q && negb (in_block s n q).
Proof.
  intros Hw Hs Hn Hcap Hused.
  set (I := λ (done : list Z) (b : t),
    Forall (in_width 64) b.(bitmap) ∧
    length b.(bitmap) = length a.(bitmap) ∧
    b.(last_single_page_allocation) = a.(last_single_page_allocation) ∧
    ∀ q, 0 ≤ q → page_used b.(bitmap) q
      = page_used a.(bitmap) q && negb (in_block s (zlen done) q)).
  destruct (foldM_inv mark_unused I (range s (s + n)) a) as (a' & Ha' & H1 & H2 & H3 & H4).
  - unfold I. split_and!; [done..|]. intros q _.
    replace (in_block s _ q) with false; [by rewrite andb_true_r|].
    unfold in_block, zlen. simpl. symmetry. lia.
  - intros done x rest b Hr (Hb1 & Hb2 & Hb3 & Hb4).
    apply range_split_at in Hr as (Hx & Hxr & _ & _).
    destruct (mark_unused_spec b x) as (b' & Hb' & ? & ? & ? & Hq); [done| | |].
    { unfold capacity, zlen in *. rewrite Hb2. lia. }
    { rewrite Hb4 by lia. rewrite (Hused x) by lia. unfold in_block. lia. }
    exists b'. unfold I. split_and!; [done..|congruence|congruence|].
    intros q Hq0. rewrite Hq, Hb4 by done. unfold zlen in *. rewrite length_app. simpl.
    rewrite <-andb_assoc, <-negb_orb. do 2 f_equal.
    replace (Z.of_nat (length done + 1)) with (x + 1 - s) by lia.
    rewrite in_block_snoc by lia. do 2 f_equal. lia.
  - exists a'. split_and!; [done..|]. intros q Hq. rewrite H4 by done.
    unfold zlen. rewrite length_range. do 3 f_equal. lia.
Qed.

(** ** The search *)

Lemma scan_chunk_flat bm n i st :
  0 ≤ i < zlen bm →
  scan_chunk n bm i st = Ret (loop (scan_page bm n) (range (64 * i) (64 * i + 64)) st).
Proof.
  intros Hi. destruct (index_is_ret bm i) as (c & Hc & Hlk); [unfold zlen in Hi; lia|].
  unfold scan_chunk. rewrite Hc. simpl. f_equal.
  apply loop_ext; [by rewrite !length_range; f_equal; unfold BITS_PER_CHUNK; lia|].
  intros k b p [start len] Hb Hp. unfold BITS_PER_CHUNK in Hb.
  apply lookup_range in Hb as [Hb ?]. apply lookup_range in Hp as [Hp ?].
  unfold scan_bit, scan_page, page_used, BITS_PER_CHUNK.
  replace (p / 64) with i by zdm. replace (p mod 64) with b by zdm. rewrite Hlk.
  rewrite land_bit_zero by lia. destruct (Z.testbit c b); simpl; [|done].
  do 2 f_equal; lia.
Qed.

Lemma scan_flat bm n i st :
  0 ≤ i →
  loopM (scan_chunk n bm) (range i (zlen bm)) st
  = Ret (loop (scan_page bm n) (range (64 * i) (capacity bm)) st).
Proof.
  intros Hi. destruct (Z.lt_ge_cases (zlen bm) i).
  { unfold capacity, BITS_PER_CHUNK. by rewrite !range_nil by lia. }
  remember (Z.to_nat (zlen bm - i)) as k eqn:Hk. revert i st Hi H Hk.
  induction k as [|k IH]; intros i st Hi Hle Hk.
  { unfold capacity, BITS_PER_CHUNK. by rewrite !range_nil by lia. }
  rewrite (range_cons i) by lia. simpl. rewrite scan_chunk_flat by lia. simpl.
  rewrite (range_app (64 * i) (64 * i + 64) (capacity bm))
    by (unfold capacity, BITS_PER_CHUNK; lia).
  rewrite loop_app. destruct (loop _ (range (64 * i) _) st) as [st'|]; [|done].
  rewrite IH by lia. do 3 f_equal. lia.
Qed.

(** A prefix of used pages resets the scan. *)
Lemma scan_used_prefix bm n a b st :
  a < b → (∀ p, a ≤ p < b → page_used bm p = true) →
  loop (scan_page bm n) (range a b) st = Next (b, 0).
Proof.
  intros Hab. remember (Z.to_nat (b - a)) as k eqn:Hk. revert a st Hab Hk.
  induction k as [|k IH]; intros a st Hab Hk Hu; [lia|].
  rewrite range_cons by lia. simpl. unfold scan_page at 1. rewrite Hu by lia.
  destruct (decide (a + 1 = b)) as [<-|]; [by rewrite range_nil by lia|].
  apply IH; [lia|lia|]. intros. apply Hu. lia.
Qed.

Lemma free_run_blocked bm s n p :
  s ≤ p < s + n → page_used bm p = true → ¬ free_run (page_used bm) s n.
Proof. intros Hp Hu Hf. rewrite Hf in Hu; done. Qed.

(** From a state where [[start, p)] is a run of free pages shorter than [n] and
    no earlier start fits, the scan finds the first fit. *)
Lemma scan_first_fit bm n p start :
  0 < n → 0 ≤ start ≤ p → p ≤ capacity bm → p - start < n →
  free_run (page_used bm) start (p - start) →
  (∀ s', 0 ≤ s' < start → ¬ free_run (page_used bm) s' n) →
  first_fit (page_used bm) n
    match loop (scan_page bm n) (range p (capacity bm)) (start, p - start) with
    | Stop s => Some s
    | Next _ => None
    end.
Proof.
  intros Hn. remember (Z.to_nat (capacity bm - p)) as k eqn:Hk. revert p start Hk.
  induction k as [|k IH]; intros p start Hk Hsp Hp Hlen Hrun Hmin.
  - rewrite range_nil by lia. simpl. intros s' Hs' Hf.
    destruct (Z.lt_ge_cases s' start); [apply (Hmin s'); [lia|done]|].
    specialize (Hf (s' + n - 1) ltac:(lia)). apply page_used_covered in Hf; lia.
  - rewrite range_cons by lia. simpl. unfold scan_page at 1. simpl.
    destruct (page_used bm p) eqn:Hu.
    + replace 0 with (p + 1 - (p + 1)) by lia. apply IH; [lia..| |].
      { intros q Hq. lia. }
      intros s' Hs'. destruct (Z.lt_ge_cases s' start); [apply Hmin; lia|].
      apply (free_run_blocked _ _ _ p); [lia|done].
    + assert (Hrun' : free_run (page_used bm) start (p + 1 - start)).
      { intros q Hq. destruct (decide (q = p)) as [->|]; [done|]. apply Hrun. lia. }
      destruct (Z.eqb_spec (p - start + 1) n) as [E|E].
      * simpl. split; [lia|]. split; [|done].
        by replace n with (p + 1 - start) by lia.
      * replace (p - start + 1) with (p + 1 - start) by lia. apply IH; auto; lia.
Qed.

Lemma find_next_contiguous_first_fit a n :
  wf a → 0 < n →
  ∃ r, find_next_contiguous a n = Ret r ∧ first_fit (page_used a.(bitmap)) n r.
Proof.
  intros Hwf Hn. unfold find_next_contiguous.
  set (start := if n =? 1 then _ else 0).
  assert (Hst : 0 ≤ start ∧ ∀ p, 0 ≤ p < start → page_used a.(bitmap) p = true).
  { unfold start. destruct (n =? 1); [|split; intros; lia].
    destruct a.(last_single_page_allocation) as [l|] eqn:El; simpl.
    - by apply (wf_last a Hwf).
    - split; intros; lia. }
  clearbody start. destruct Hst as [Hs0 Hused]. unfold BITS_PER_CHUNK.
  rewrite scan_flat by zdm. cbn -[range].
  assert (Hmin : ∀ s', 0 ≤ s' < start → ¬ free_run (page_used (bitmap a)) s' n).
  { intros s' Hs'. apply (free_run_blocked _ _ _ s'); [lia|]. apply Hused. lia. }
  assert (E : loop (scan_page (bitmap a) n)
      (range (64 * (start / 64)) (capacity (bitmap a))) (start, 0)
    = loop (scan_page (bitmap a) n) (range start (capacity (bitmap a))) (start, 0)).
  { destruct (decide (64 * (start / 64) = start)) as [->|]; [done|].
    destruct (Z.lt_ge_cases (capacity (bitmap a)) start) as [Hc|].
    - rewrite (range_nil start) by lia.
      rewrite (range_nil (64 * _)); [done|].
      unfold capacity, BITS_PER_CHUNK in *. zdm.
    - rewrite (range_app (64 * (start / 64)) start) by zdm.
      rewrite loop_app, scan_used_prefix; [done|zdm|].
      intros. apply Hused. zdm. }
  rewrite E. clear E.
  destruct (Z.lt_ge_cases (capacity (bitmap a)) start) as [Hc|Hc].
  - rewrite range_nil by lia. eexists; split; [done|]. simpl. intros s' Hs' Hf.
    destruct (Z.lt_ge_cases s' start); [apply (Hmin s'); [lia|done]|].
    specialize (Hf s' ltac:(lia)). apply page_used_covered in Hf; lia.
  - pose proof (scan_first_fit (bitmap a) n start start) as H.
    rewrite Z.sub_diag in H. specialize (H Hn ltac:(lia) Hc ltac:(lia)).
    destruct (loop _ _ _); eexists; (split; [done|]); apply H; try done;
      intros ? ?; lia.
Qed.

(** ** Allocation and deallocation *)
Lemma free_run_capacity bm s n : 0 ≤ s → 0 < n → free_run (page_used bm) s n → s + n ≤ capacity bm.
Proof.
  intros Hs Hn Hf. specialize (Hf (s + n - 1) ltac:(lia)).
  apply page_used_covered in Hf; lia.
Qed.

Lemma first_fit_last bm n r l : first_fit (page_used bm) 1 r → r = Some l → n = 1 →
  0 ≤ l ∧ ∀ p, 0 ≤ p < l → page_used bm p = true.
Proof.
  intros Hff -> _. destruct Hff as (? & _ & Hmin). split; [done|].
  intros p Hp. specialize (Hmin p Hp). destruct (page_used bm p) eqn:E; [done|].
  exfalso. apply Hmin. intros q Hq. by replace q with p by lia.
Qed.

Lemma allocate_spec a n :
  wf a → 0 < n →
  ∃ r a', allocate_contiguous a n = Ret (r, a') ∧ wf a' ∧
    first_fit (page_used a.(bitmap)) n r ∧
    match r with
    | None => a'.(bitmap) = a.(bitmap)
    | Some s => length a'.(bitmap) = length a.(bitmap) ∧
        marks_block (page_used a.(bitmap)) (page_used a'.(bitmap)) s n
    end.
Proof.
  intros Hwf Hn. unfold allocate_contiguous.
  destruct (find_next_contiguous_first_fit a n Hwf Hn) as (r & -> & Hff).
  replace (0 <? n) with true by lia. simpl.
  set (a1 := if n =? 1 then set_last a r else a).
  assert (Hb1 : bitmap a1 = bitmap a) by (unfold a1; by destruct (n =? 1)).
  assert (Hwf1 : wf a1).
  { destruct Hwf as [Hw Hc Hl]. split; rewrite ?Hb1; [done..|].
    unfold a1. destruct (Z.eqb_spec n 1); [|done]. subst. simpl. intros l Hr.
    by eapply first_fit_last. }
  destruct r as [s|]; simpl.
  2: { exists None, a1. done. }
  destruct Hff as (Hs & Hrun & Hmin).
  pose proof (free_run_capacity _ _ _ Hs Hn Hrun) as Hcap.
  pose proof (wf_capacity _ Hwf). rewrite uadd_ok by lia. simpl.
  destruct (mark_used_block a1 s n) as (a' & -> & H1 & H2 & H3 & H4);
    [by apply wf_width|done|lia|by rewrite Hb1|].
  simpl. exists (Some s), a'. rewrite Hb1 in H2, H4. split_and!; [done| |done..].
  - destruct Hwf1 as [_ _ Hl]. split; [done|unfold capacity, zlen in *; congruence|].
    rewrite H3. intros l El. apply Hl in El as [? Hu]. split; [done|].
    intros p Hp. rewrite H4 by lia. rewrite <-Hb1, Hu by lia. done.
Qed.

Lemma free_spec a s n :
  wf a → 0 ≤ s → 0 < n → s + n ≤ capacity a.(bitmap) →
  (∀ p, s ≤ p < s + n → page_used a.(bitmap) p = true) →
  ∃ a', free_contiguous a s n = Ret a' ∧ wf a' ∧
    length a'.(bitmap) = length a.(bitmap) ∧
    clears_block (page_used a.(bitmap)) (page_used a'.(bitmap)) s n.
Proof.
  intros Hwf Hs Hn Hcap Hused. unfold free_contiguous.
  pose proof (wf_capacity _ Hwf). replace (0 <? n) with true by lia. simpl.
  rewrite uadd_ok by lia. simpl.
  destruct (mark_unused_block a s n) as (a1 & -> & H1 & H2 & H3 & H4);
    [by apply wf_width|done|lia|done|done|].
  simpl. rewrite H3.
  assert (Hc1 : capacity (bitmap a1) < 2 ^ 64) by (unfold capacity, zlen in *; congruence).
  destruct (last_single_page_allocation a) as [l|] eqn:El.
  2: { exists a1. split_and!; [done| |done..]. split; [done..|]. rewrite H3. done. }
  apply (wf_last _ Hwf) in El as [Hl0 Hl].
  assert (Hbelow : ∀ p, 0 ≤ p < l → p < s → page_used (bitmap a1) p = true).
  { intros p Hp Hps. rewrite H4, Hl by lia.
    replace (in_block s n p) with false by (unfold in_block; lia). done. }
  destruct (Z.ltb_spec s l).
  - exists (set_last a1 (Some s)). split_and!; [done| |done..].
    split; [done..|]. simpl. intros ? [= <-]. split; [done|].
    intros p Hp. apply Hbelow; lia.
  - exists a1. split_and!; [done| |done..]. split; [done..|].
    rewrite H3. intros ? [= <-]. split; [done|]. intros p Hp. apply Hbelow; lia.
Qed.

(** ** Inversion of the freeing loop *)
Lemma mark_unused_inv a a' p :
  Forall (in_width 64) a.(bitmap) → 0 ≤ p → mark_unused p a = Ret a' →
  p < capacity a.(bitmap) ∧ page_used a.(bitmap) p = true ∧
  Forall (in_width 64) a'.(bitmap) ∧ length a'.(bitmap) = length a.(bitmap) ∧
  ∀ q, 0 ≤ q → q ≠ p → page_used a'.(bitmap) q = page_used a.(bitmap) q.
Proof.
  intros Hw Hp H.
  assert (Hc : p < capacity a.(bitmap)).
  { unfold mark_unused in H. apply bind_ret_inv in H as (c & Hc & _).
    apply index_ret_inv, lookup_lt_Some in Hc.
    unfold capacity, zlen, BITS_PER_CHUNK in *. zdm. }
  assert (Hu : page_used a.(bitmap) p = true).
  { destruct (chunk_of _ _ (conj Hp Hc)) as (c & Hlk & ->).
    unfold mark_unused, index, BITS_PER_CHUNK in H. rewrite Hlk in H. simpl in H.
    apply bind_ret_inv in H as (u & Ha & _). apply assert_ret_inv in Ha.
    rewrite land_bit_zero, negb_involutive in Ha by zdm. done. }
  destruct (mark_unused_spec a p Hw (conj Hp Hc) Hu) as (b & Hb & ? & ? & _ & Hq).
  rewrite Hb in H. injection H as <-. split_and!; [done..|].
  intros q Hq0 Hne. by rewrite Hq, bool_decide_eq_false_2, andb_true_r by done.
Qed.

Lemma mark_unused_block_inv a a' s e :
  Forall (in_width 64) a.(bitmap) → 0 ≤ s → s < e →
  foldM mark_unused (range s e) a = Ret a' →
  e ≤ capacity a.(bitmap) ∧ ∀ p, s ≤ p < e → page_used a.(bitmap) p = true.
Proof.
  remember (Z.to_nat (e - s)) as k eqn:Hk. revert a s Hk.
  induction k as [|k IH]; intros a s Hk Hw Hs Hse H; [lia|].
  rewrite range_cons in H by lia. cbn [foldM] in H.
  apply bind_ret_inv in H as (a1 & H1 & H).
  apply mark_unused_inv in H1 as (Hc & Hu & Hw1 & Hlen & Hoth); [|done..].
  destruct (decide (s + 1 = e)) as [<-|].
  - split; [lia|]. intros p Hp. by replace p with s by lia.
  - apply IH in H as [Hc1 Hu1]; [|done || lia..].
    unfold capacity, zlen in *. rewrite Hlen in Hc1. split; [done|].
    intros p Hp. destruct (decide (p = s)) as [->|]; [done|].
    rewrite <-Hoth by lia. apply Hu1. lia.
Qed.

(** Two bitmaps of the same length with the same pages in use are equal. *)
Lemma page_used_ext bm bm' :
  Forall (in_width 64) bm → Forall (in_width 64) bm' → length bm = length bm' →
  (∀ p, 0 ≤ p → page_used bm p = page_used bm' p) → bm = bm'.
Proof.
  intros Hw Hw' Hlen Hp. apply list_eq_same_length with (length bm); [done..|].
  intros i x y Hi Hx Hy.
  pose proof (Forall_lookup_1 _ _ _ _ Hw Hx) as Hxw.
  pose proof (Forall_lookup_1 _ _ _ _ Hw' Hy) as Hyw.
  apply Z.bits_inj'. intros b Hb. destruct (Z.lt_ge_cases b 64).
  - specialize (Hp (64 * Z.of_nat i + b) ltac:(lia)).
    unfold page_used, BITS_PER_CHUNK in Hp.
    replace ((64 * Z.of_nat i + b) / 64) with (Z.of_nat i) in Hp by zdm.
    replace ((64 * Z.of_nat i + b) mod 64) with b in Hp by zdm.
    rewrite Nat2Z.id in Hp. by rewrite Hx, Hy in Hp.
  - by rewrite !(testbit_high 64) by (done || lia).
Qed.

#[global] Instance contiguous_allocator : ContiguousAllocator t := {|
  ca_wf := wf;
  ca_used := λ a, page_used a.(bitmap);
  ca_capacity := λ a, capacity a.(bitmap);
  ca_allocate := allocate_contiguous;
  ca_free := free_contiguous;
|}.

#[global] Instance contiguous_allocator_laws : ContiguousAllocatorLaws t.
Proof.
  split; simpl.
  - intros a [_ Hc _]. split; [unfold capacity, zlen, BITS_PER_CHUNK; lia|done].
  - intros a p Hp. unfold page_used, capacity, zlen, BITS_PER_CHUNK in *.
    rewrite lookup_ge_None_2; [done|]. zdm.
  - intros a n Hwf Hn.
    destruct (allocate_spec a n Hwf Hn) as (r & a' & ? & ? & ? & Hr).
    exists r, a'. unfold capacity, zlen. destruct r as [s|].
    + destruct Hr as [-> ?]. by split_and!.
    + rewrite Hr. by split_and!.
  - intros a s n Hwf Hs Hn Hc Hu.
    destruct (free_spec a s n Hwf Hs Hn Hc Hu) as (a' & ? & ? & Hlen & ?).
    exists a'. unfold capacity, zlen. rewrite Hlen. by split_and!.
Qed.

Lemma page_used_zeroed k p : 0 ≤ p →
  page_used (replicate k 0) p = bool_decide (capacity (replicate k 0) ≤ p).
Proof.
  intros Hp. unfold page_used, capacity, zlen, BITS_PER_CHUNK. rewrite length_replicate.
  destruct (replicate k 0 !! Z.to_nat (p / 64)) eqn:E.
  - apply lookup_replicate in E as [-> ?]. rewrite Z.bits_0.
    symmetry. apply bool_decide_eq_false. zdm.
  - apply lookup_replicate_None in E. symmetry. apply bool_decide_eq_true. zdm.
Qed.

Lemma wf_new bm : Forall (in_width 64) bm → capacity bm < 2 ^ 64 → wf (new bm).
Proof. intros. by split. Qed.

Lemma zeroed_width k : Forall (in_width 64) (replicate k 0).
Proof. apply Forall_replicate. split; lia. Qed.

(** ** Properties *)

(** C4: on a well-formed allocator [allocate_contiguous] never panics; it
    returns the lowest start of a run of [n] free pages, or [None] exactly when
    there is no such run; it marks exactly that block and leaves a well-formed
    allocator, so the single-page cache never changes the answer. *)
Theorem allocate_contiguous_first_fit a n :
  wf a → 0 < n →
  ∃ r a', allocate_contiguous a n = Ret (r, a') ∧ wf a' ∧
    first_fit (page_used a.(bitmap)) n r ∧
    match r with
    | None => a'.(bitmap) = a.(bitmap)
    | Some s => length a'.(bitmap) = length a.(bitmap) ∧
        marks_block (page_used a.(bitmap)) (page_used a'.(bitmap)) s n
    end.
Proof. apply allocate_spec. Qed.

Lemma allocate_contiguous_first_fit_witness :
  ∃ r a', allocate_contiguous (mk [7; 0] (Some 2)) 1 = Ret (r, a') ∧ r = Some 3.
Proof.
  destruct (allocate_contiguous_first_fit (mk [7; 0] (Some 2)) 1)
    as (r & a' & E & _ & _); [|lia|].
  - split; simpl; [repeat constructor; lia|unfold capacity, zlen, BITS_PER_CHUNK; simpl; lia|].
    intros l [= <-]. split; [lia|]. intros p Hp.
    assert (p = 0 ∨ p = 1) as [-> | ->] by lia; reflexivity.
  - exists r, a'. split; [done|]. revert E. vm_compute. congruence.
Defined.

(** [free_contiguous] returns (rather than panics) exactly when the block is
    non-empty, lies within the bitmap and every one of its pages is in use; it
    then clears exactly that block and keeps the allocator well-formed. *)
Theorem free_contiguous_exact a s n :
  wf a → 0 ≤ s → 0 ≤ n →
  (is_ret (free_contiguous a s n) = true ↔
    0 < n ∧ s + n ≤ capacity a.(bitmap) ∧
    ∀ p, s ≤ p < s + n → page_used a.(bitmap) p = true) ∧
  (∀ a', free_contiguous a s n = Ret a' →
    wf a' ∧ length a'.(bitmap) = length a.(bitmap) ∧
    clears_block (page_used a.(bitmap)) (page_used a'.(bitmap)) s n).
Proof.
  intros Hwf Hs Hn.
  assert (Hiff : is_ret (free_contiguous a s n) = true → 0 < n ∧
    s + n ≤ capacity a.(bitmap) ∧ ∀ p, s ≤ p < s + n → page_used a.(bitmap) p = true).
  { intros H. destruct (free_contiguous a s n) as [a'| |] eqn:E; try done.
    unfold free_contiguous in E. inv_ret. assert (0 < n) by lia. split; [done|].
    eapply mark_unused_block_inv; [by apply wf_width|done|lia|done]. }
  split.
  - split; [done|]. intros (? & ? & ?).
    by destruct (free_spec a s n) as (a' & -> & _).
  - intros a' E. destruct Hiff as (? & ? & ?); [by rewrite E|].
    destruct (free_spec a s n) as (b & Hb & ? & ? & ?); [done..|].
    rewrite Hb in E. injection E as <-. by split_and!.
Qed.

Lemma free_contiguous_exact_witness :
  is_ret (free_contiguous (mk [6] None) 1 2) = true ∧
  is_ret (free_contiguous (mk [6] None) 1 3) = false.
Proof.
  assert (Hwf : wf (mk [6] None)).
  { apply wf_new; [repeat constructor; lia|unfold capacity, zlen, BITS_PER_CHUNK; simpl; lia]. }
  split.
  - apply (free_contiguous_exact (mk [6] None) 1 2 Hwf ltac:(lia) ltac:(lia)).
    split; [lia|]. split; [unfold capacity, zlen, BITS_PER_CHUNK; simpl; lia|].
    intros p Hp. assert (p = 1 ∨ p = 2) as [-> | ->] by lia; reflexivity.
  - reflexivity.
Defined.

(** allocating a block and freeing it gives back the same bitmap. *)
Theorem allocate_free_roundtrip a n s a' :
  wf a → 0 < n → allocate_contiguous a n = Ret (Some s, a') →
  ∃ a'', free_contiguous a' s n = Ret a'' ∧ wf a'' ∧ a''.(bitmap) = a.(bitmap).
Proof.
  intros Hwf Hn E.
  destruct (allocate_spec a n Hwf Hn) as (r & b & E' & Hwf' & Hff & Hr).
  rewrite E in E'. injection E' as <- <-. destruct Hr as [Hlen Hmark].
  destruct Hff as (Hs & Hrun & _).
  pose proof (free_run_capacity _ _ _ Hs Hn Hrun) as Hcap.
  destruct (free_spec a' s n) as (a'' & Hf & Hwf'' & Hlen' & Hclr); [done..| | |].
  { unfold capacity, zlen in *. by rewrite Hlen. }
  { intros p Hp. rewrite Hmark by lia. rewrite (proj2 (in_block_spec s n p)) by done.
    apply orb_true_r. }
  exists a''. split_and!; [done..|].
  apply page_used_ext; [by apply wf_width..|congruence|].
  intros p Hp. rewrite Hclr, Hmark by done.
  destruct (in_block s n p) eqn:E'; simpl.
  - apply in_block_spec in E'. by rewrite (Hrun p E'), andb_false_r.
  - by rewrite orb_false_r, andb_true_r.
Qed.

Lemma allocate_free_roundtrip_witness :
  ∃ a' a'', allocate_contiguous (new [5; 0]) 3 = Ret (Some 3, a') ∧
    free_contiguous a' 3 3 = Ret a'' ∧ a''.(bitmap) = [5; 0].
Proof.
  destruct (allocate_free_roundtrip (new [5; 0]) 3 3 (mk [61; 0] None))
    as (a'' & ? & _ & ?); [|lia|reflexivity|by eexists _, a''].
  apply wf_new; [repeat constructor; lia|unfold capacity, zlen, BITS_PER_CHUNK; simpl; lia].
Defined.

(** C26: the crate's property test as a theorem: from an empty bitmap, any
    sequence of allocations and of deallocations of owned blocks runs without a
    panic; no page ever belongs to two blocks, a page is marked in use exactly
    when some block owns it, and once every block is freed the bitmap is all
    zeroes again. *)
Theorem alloc_free_traces k ops :
  64 * Z.of_nat k < 2 ^ 64 → Forall op_ok ops →
  ∃ a owned, foldM client_step ops (new (replicate k 0), []) = Ret (a, owned) ∧
    (∀ p, 0 ≤ p → (owners owned p ≤ 1)%nat) ∧
    (∀ p, 0 ≤ p < 64 * Z.of_nat k →
       page_used a.(bitmap) p = bool_decide (owners owned p = 1%nat)) ∧
    (owned = [] → a.(bitmap) = replicate k 0).
Proof.
  intros Hk Hops. set (a0 := new (replicate k 0)).
  assert (Hcap : capacity (replicate k 0) = 64 * Z.of_nat k).
  { unfold capacity, zlen, BITS_PER_CHUNK. by rewrite length_replicate. }
  assert (Hwf : wf a0) by (apply wf_new; [apply zeroed_width|simpl; lia]).
  destruct (client_run_inv (ca_used a0) (ca_capacity a0) ops (a0, []))
    as ([a owned] & E & [Hwf' Hc _ Ho Hu]);
    [by apply client_inv_init|done|]. simpl in *.
  assert (Hlen : length a.(bitmap) = length (replicate k 0)).
  { unfold capacity, zlen, BITS_PER_CHUNK in Hc. lia. }
  exists a, owned. split; [done|]. split; [intros p Hp; specialize (Ho p Hp); lia|].
  split.
  - intros p Hp. rewrite Hu, page_used_zeroed, Hcap by lia.
    rewrite (bool_decide_eq_false_2 (_ ≤ _)) by lia. simpl.
    specialize (Ho p ltac:(lia)). apply bool_decide_ext. lia.
  - intros ->. apply page_used_ext; [by apply wf_width|apply zeroed_width|done|].
    intros p Hp. rewrite Hu by done. unfold owners. simpl. by rewrite orb_false_r.
Qed.

Lemma alloc_free_traces_witness :
  ∃ a, foldM client_step [Alloc 1; Alloc 70; Free 1; Alloc 2; Free 0; Free 0]
    (new (replicate 2 0), []) = Ret (a, []) ∧ a.(bitmap) = [0; 0].
Proof.
  destruct (alloc_free_traces 2 [Alloc 1; Alloc 70; Free 1; Alloc 2; Free 0; Free 0])
    as (a & owned & E & _ & _ & H).
  - lia.
  - repeat constructor; simpl; lia.
  - exists a. assert (owned = []) as ->.
    { revert E. vm_compute. congruence. }
    split; [done|]. by apply H.
Defined.

End BitmapAllocator.
