(* ===== verification/Bootstrap.v ===== *)
(** * Bootstrapping the allocator ([crates/bitmap-alloc/src/bootstrap.rs])

    [MemoryRegion], its rounding to pages, and [bootstrap_allocator], which
    places the bitmap in a free region, marks the pages of the free regions as
    unused and the bitmap's own pages as used.  [iter_regions] is the list of
    regions it yields (each call yields the same ones); [allocate_bitmap] is the
    closure the kernel passes, a parameter that returns the slice's words. *)
From S2P Require Import Prelude AllocSpec BitmapAlloc.
#[local] Open Scope Z_scope.

Module Bootstrap.
Import BitmapAllocator.

Record MemoryRegion : Type := {
  start_address : Z;
  len_bytes : Z;
  free : bool;
}.

Definition shift_up_page_size (value page_size : Z) : outcome Z :=
  r ← urem value page_size;
  let shift := if r =? 0 then 0 else page_size - r in
  uadd 64 value shift.

Definition shift_down_page_size (value page_size : Z) : outcome Z :=
  r ← urem value page_size;
  mret (value - r).

Definition page_aligned_start_end_address (self : MemoryRegion) (page_size : Z)
  : outcome (option (Z * Z)) :=
  if self.(free) then
    aligned_start ← shift_up_page_size self.(start_address) page_size;
    end_ ← uadd 64 self.(start_address) self.(len_bytes);
    aligned_end ← shift_down_page_size end_ page_size;
    if aligned_end <=? aligned_start then mret None
    else mret (Some (aligned_start, aligned_end))
  else
    aligned_start ← shift_down_page_size self.(start_address) page_size;
    end_ ← uadd 64 self.(start_address) self.(len_bytes);
    aligned_end ← shift_up_page_size end_ page_size;
    mret (Some (aligned_start, aligned_end)).

Definition mark_region (used : bool) (page_size : Z) (region : MemoryRegion)
    (alloc : t) : outcome t :=
  r ← page_aligned_start_end_address region page_size;
  match r with
  | None => mret alloc
  | Some (start_addr, end_addr) =>
      start ← udiv start_addr page_size;
      end_ ← udiv end_addr page_size;
      foldM (if used then mark_used else mark_unused) (range start end_) alloc
  end.

(** [iter_regions().map(|r| r.start_address + r.len_bytes as usize).max()] *)
Fixpoint max_end (regions : list MemoryRegion) : outcome (option Z) :=
  match regions with
  | [] => mret None
  | r :: rest =>
      e ← uadd 64 r.(start_address) r.(len_bytes);
      m ← max_end rest;
      mret (Some (match m with None => e | Some m => Z.max e m end))
  end.

(** The [filter(..).find_map(..)] that places the bitmap. *)
Fixpoint find_bitmap_start (page_size bitmap_bytes : Z) (regions : list MemoryRegion)
  : outcome (option Z) :=
  match regions with
  | [] => mret None
  | region :: rest =>
      if region.(free) then
        r ← page_aligned_start_end_address region page_size;
        match r with
        | None => find_bitmap_start page_size bitmap_bytes rest
        | Some (start, end_) =>
            len ← usub end_ start;
            if bitmap_bytes <=? len then mret (Some start)
            else find_bitmap_start page_size bitmap_bytes rest
        end
      else find_bitmap_start page_size bitmap_bytes rest
  end.

(** Where the bitmap goes and the [bitmap_bytes] it is given. *)
Definition bitmap_placement (page_size : Z) (regions : list MemoryRegion)
  : outcome (Z * Z) :=
  m ← max_end regions;
  total_memory ← expect m;
  bitmap_bits ← udiv_ceil total_memory page_size;
  bitmap_bytes ← udiv_ceil bitmap_bits 64;
  s ← find_bitmap_start page_size bitmap_bytes regions;
  bitmap_start ← expect s;
  mret (bitmap_start, bitmap_bytes).

Definition u64_max : Z := 2 ^ 64 - 1.

Definition bootstrap_allocator (page_size : Z) (regions : list MemoryRegion)
    (allocate_bitmap : Z → Z → outcome (list Z)) : outcome t :=
  '(bitmap_start, bitmap_bytes) ← bitmap_placement page_size regions;
  bitmap ← allocate_bitmap bitmap_start bitmap_bytes;
  let bitmap := replicate (length bitmap) u64_max in
  let alloc := new bitmap in
  alloc ← foldM (λ region alloc,
            if negb region.(free) then mret alloc
            else mark_region false page_size region alloc) regions alloc;
  let bitmap_region :=
    {| start_address := bitmap_start; len_bytes := bitmap_bytes; free := false |} in
  mark_region true page_size bitmap_region alloc.

(** ** Specification *)
Definition round_down (v ps : Z) : Z := v - v mod ps.
Definition round_up (v ps : Z) : Z := if v mod ps =? 0 then v else v + (ps - v mod ps).
Definition end_address (r : MemoryRegion) : Z := r.(start_address) + r.(len_bytes).

(** Page [p] lies entirely in the free region [r]. *)
Definition region_frees (ps : Z) (r : MemoryRegion) (p : Z) : bool :=
  r.(free) && (r.(start_address) <=? p * ps) && ((p + 1) * ps <=? end_address r).

(** Addresses are [usize]s and rounding them up stays below [2^64]. *)
Definition region_ok (ps : Z) (r : MemoryRegion) : Prop :=
  0 ≤ r.(start_address) ∧ 0 ≤ r.(len_bytes) ∧ end_address r + ps < 2 ^ 64.

(** No page is freed by two regions. *)
Definition regions_disjoint (ps : Z) (regions : list MemoryRegion) : Prop :=
  ∀ p, 0 ≤ p → (length (filter (λ r, region_frees ps r p = true) regions) ≤ 1)%nat.

Definition frees_page (ps : Z) (regions : list MemoryRegion) (p : Z) : bool :=
  existsb (λ r, region_frees ps r p) regions.

(** What the kernel needs of the memory map: it has regions, no page is freed
    twice, and some free region can hold the bitmap. *)
Record memory_map_ok (ps : Z) (regions : list MemoryRegion) : Prop := {
  mm_page_size : 1 < ps;
  mm_regions : Forall (region_ok ps) regions;
  mm_disjoint : regions_disjoint ps regions;
  mm_placement : is_ret (bitmap_placement ps regions) = true;
}.

(** ** Rounding *)
Lemma round_down_spec v ps : 0 < ps → round_down v ps = ps * (v / ps).
Proof. intros. unfold round_down. pose proof (Z.div_mod v ps ltac:(lia)). lia. Qed.

Lemma round_up_spec v ps : 0 < ps → round_up v ps = ps * div_ceil v ps.
Proof.
  intros. unfold round_up, div_ceil. pose proof (Z.div_mod v ps ltac:(lia)).
  destruct (Z.eqb_spec (v mod ps) 0); nia.
Qed.

Lemma shift_down_ok v ps : 0 < ps → shift_down_page_size v ps = Ret (round_down v ps).
Proof.
  intros. unfold shift_down_page_size, urem.
  by replace (ps =? 0) with false by lia.
Qed.

Lemma shift_up_ok v ps : 0 < ps → v + ps < 2 ^ 64 →
  shift_up_page_size v ps = Ret (round_up v ps).
Proof.
  intros Hps Hv. unfold shift_up_page_size, urem, round_up.
  replace (ps =? 0) with false by lia. cbn -[Z.pow].
  pose proof (Z.mod_pos_bound v ps ltac:(lia)).
  destruct (Z.eqb_spec (v mod ps) 0); rewrite uadd_ok by lia; f_equal; lia.
Qed.

Lemma aligned_ok r ps : 0 < ps → region_ok ps r →
  page_aligned_start_end_address r ps = Ret
    (if r.(free) then
       let s := round_up r.(start_address) ps in
       let e := round_down (end_address r) ps in
       if e <=? s then None else Some (s, e)
     else Some (round_down r.(start_address) ps, round_up (end_address r) ps)).
Proof.
  intros Hps (Hs & Hl & He). unfold end_address in *.
  unfold page_aligned_start_end_address.
  destruct (free r).
  - rewrite shift_up_ok by lia. cbn -[Z.pow]. rewrite uadd_ok by lia. cbn -[Z.pow].
    rewrite shift_down_ok by lia. cbn. by destruct (_ <=? _).
  - rewrite shift_down_ok by lia. cbn -[Z.pow]. rewrite uadd_ok by lia. cbn -[Z.pow].
    rewrite shift_up_ok by lia. done.
Qed.

Lemma div_ceil_lb v ps p : 0 < ps → div_ceil v ps ≤ p ↔ v ≤ p * ps.
Proof.
  intros. pose proof (div_ceil_spec v ps ltac:(lia)). split; [nia|].
  intros. apply div_ceil_le; lia.
Qed.

Lemma div_floor_ub v ps p : 0 < ps → p < v / ps ↔ (p + 1) * ps ≤ v.
Proof.
  intros. pose proof (Z.div_mod v ps ltac:(lia)).
  pose proof (Z.mod_pos_bound v ps ltac:(lia)). split; intros; nia.
Qed.

(** The pages of a free region are those [mark_region] visits. *)
Lemma region_frees_range ps r p : 0 < ps → r.(free) = true →
  region_frees ps r p = true ↔
  div_ceil r.(start_address) ps ≤ p < end_address r / ps.
Proof.
  intros Hps Hf. unfold region_frees. rewrite Hf. simpl.
  rewrite andb_true_iff, !Z.leb_le, div_ceil_lb, div_floor_ub by done. done.
Qed.

Lemma mark_region_free_ok ps r alloc : 0 < ps → region_ok ps r → r.(free) = true →
  mark_region false ps r alloc = foldM mark_unused
    (range (div_ceil r.(start_address) ps) (end_address r / ps)) alloc.
Proof.
  intros Hps Hr Hf. unfold mark_region. rewrite aligned_ok, Hf by done. cbn -[Z.pow].
  rewrite round_up_spec, round_down_spec by done.
  destruct (Z.leb_spec (ps * (end_address r / ps)) (ps * div_ceil (start_address r) ps)).
  - rewrite range_nil by nia. done.
  - cbn -[Z.pow]. unfold udiv. replace (ps =? 0) with false by lia. simpl.
    rewrite !(Z.mul_comm ps), !Z.div_mul by lia. done.
Qed.

(** ** Placement of the bitmap *)
Lemma max_end_ok ps regions : 0 < ps → regions ≠ [] → Forall (region_ok ps) regions →
  ∃ m, max_end regions = Ret (Some m) ∧ 0 ≤ m < 2 ^ 64 ∧
    Forall (λ r, end_address r ≤ m) regions.
Proof.
  intros Hps. induction regions as [|r rest IH]; intros Hne Hok; [done|].
  inversion_clear Hok as [|? ? (Hs & Hl & He) Hrest]. unfold end_address in *. cbn -[Z.pow].
  rewrite uadd_ok by lia. cbn -[Z.pow]. destruct rest as [|r' rest].
  - simpl. eexists; split; [done|]. split; [lia|]. constructor; [lia|constructor].
  - destruct IH as (m & E & Hm & Hall); [done..|]. rewrite E. simpl.
    eexists; split; [done|]. split; [lia|]. constructor; [lia|].
    eapply Forall_impl; [exact Hall|]. simpl. intros. lia.
Qed.

Lemma find_bitmap_start_sound ps n regions s : 0 < ps → Forall (region_ok ps) regions →
  find_bitmap_start ps n regions = Ret (Some s) →
  ∃ r, r ∈ regions ∧ r.(free) = true ∧ s = ps * div_ceil r.(start_address) ps ∧
    s + n ≤ ps * (end_address r / ps) ∧ s < ps * (end_address r / ps).
Proof.
  intros Hps. induction regions as [|r rest IH]; intros Hok H; simpl in H; [by inv_ret|].
  inversion_clear Hok as [|? ? Hr Hrest].
  assert (Hrec : find_bitmap_start ps n rest = Ret (Some s) →
    ∃ r0, r0 ∈ r :: rest ∧ r0.(free) = true ∧ s = ps * div_ceil r0.(start_address) ps ∧
      s + n ≤ ps * (end_address r0 / ps) ∧ s < ps * (end_address r0 / ps)).
  { intros H'. destruct (IH Hrest H') as (r0 & ? & ?). exists r0. split; [by right|done]. }
  destruct (free r) eqn:Hf; [|by apply Hrec].
  rewrite aligned_ok, Hf in H by done. cbn -[Z.pow] in H.
  rewrite round_up_spec, round_down_spec in H by done.
  destruct (Z.leb_spec (ps * (end_address r / ps)) (ps * div_ceil (start_address r) ps));
    [by apply Hrec|].
  rewrite usub_ok in H by lia. simpl in H.
  case_match eqn:E; [|by apply Hrec]. inv_ret. apply Z.leb_le in E.
  exists r. split_and!; [by left|done|done|lia|lia].
Qed.

Lemma find_bitmap_start_complete ps n regions : 0 < ps → Forall (region_ok ps) regions →
  (∃ r, r ∈ regions ∧ r.(free) = true ∧
    ps * div_ceil r.(start_address) ps < ps * (end_address r / ps) ∧
    ps * div_ceil r.(start_address) ps + n ≤ ps * (end_address r / ps)) →
  ∃ s, find_bitmap_start ps n regions = Ret (Some s).
Proof.
  intros Hps. induction regions as [|r rest IH]; intros Hok (r0 & Hin & Hf0 & Hlt & Hle).
  { by apply elem_of_nil in Hin. }
  inversion_clear Hok as [|? ? Hr Hrest]. simpl.
  assert (Hrec : r0 ∈ rest → ∃ s, find_bitmap_start ps n rest = Ret (Some s)).
  { intros. apply IH; [done|]. by exists r0. }
  apply elem_of_cons in Hin as [<-|Hin].
  - rewrite Hf0, aligned_ok, Hf0 by done. cbn -[Z.pow].
    rewrite round_up_spec, round_down_spec by done.
    rewrite (proj2 (Z.leb_gt _ _) Hlt). cbn -[Z.pow]. rewrite usub_ok by lia. simpl.
    rewrite (proj2 (Z.leb_le _ _)) by lia. by eexists.
  - destruct (free r) eqn:Hf; [|by apply Hrec].
    rewrite aligned_ok, Hf by done. cbn -[Z.pow].
    destruct (Z.leb_spec (round_down (end_address r) ps) (round_up (start_address r) ps));
      [by apply Hrec|].
    rewrite usub_ok by lia. simpl. case_match; [by eexists|by apply Hrec].
Qed.

(** ** Freeing the free regions *)
Lemma page_used_full k p : 0 ≤ p → page_used (replicate k u64_max) p = true.
Proof.
  intros. unfold page_used, BITS_PER_CHUNK.
  destruct (replicate k u64_max !! Z.to_nat (p / 64)) eqn:E; [|done].
  apply lookup_replicate in E as [-> _]. unfold u64_max.
  change (2 ^ 64 - 1) with (Z.ones 64). apply Z.ones_spec_low. zdm.
Qed.

Lemma filter_frees_zero ps regions p :
  length (filter (λ r, region_frees ps r p = true) regions) = 0%nat →
  frees_page ps regions p = false.
Proof.
  unfold frees_page. induction regions as [|r rest IH]; [done|]. simpl.
  rewrite filter_cons. destruct (region_frees ps r p); simpl; [done|auto].
Qed.

Lemma free_regions_ok ps regions alloc :
  0 < ps → Forall (region_ok ps) regions → regions_disjoint ps regions →
  Forall (in_width 64) alloc.(bitmap) →
  (∀ p, 0 ≤ p → page_used alloc.(bitmap) p = true) →
  Forall (λ r, end_address r / ps ≤ capacity alloc.(bitmap)) regions →
  ∃ alloc', foldM (λ region alloc,
      if negb region.(free) then mret alloc
      else mark_region false ps region alloc) regions alloc = Ret alloc' ∧
    Forall (in_width 64) alloc'.(bitmap) ∧
    length alloc'.(bitmap) = length alloc.(bitmap) ∧
    alloc'.(last_single_page_allocation) = alloc.(last_single_page_allocation) ∧
    ∀ p, 0 ≤ p → page_used alloc'.(bitmap) p = negb (frees_page ps regions p).
Proof.
  intros Hps Hok Hdis Hw Hfull Hcap.
  set (I := λ (done : list MemoryRegion) (b : t),
    Forall (in_width 64) b.(bitmap) ∧
    length b.(bitmap) = length alloc.(bitmap) ∧
    b.(last_single_page_allocation) = alloc.(last_single_page_allocation) ∧
    ∀ p, 0 ≤ p → page_used b.(bitmap) p = negb (frees_page ps done p)).
  apply (foldM_inv _ I); [by split_and!|].
  intros done r rest b Hsplit (Hb1 & Hb2 & Hb3 & Hb4).
  rewrite Hsplit in Hok, Hcap, Hdis.
  apply Forall_app in Hok as [_ Hok]. inversion_clear Hok as [|? ? Hr _].
  apply Forall_app in Hcap as [_ Hcap]. inversion_clear Hcap as [|? ? Hrc _].
  assert (Hfr : ∀ p, frees_page ps (done ++ [r]) p
      = frees_page ps done p || region_frees ps r p).
  { intros p. unfold frees_page. rewrite existsb_app. simpl. by rewrite orb_false_r. }
  destruct (free r) eqn:Hf; simpl.
  2: { exists b. split; [done|]. unfold I. split_and!; [done..|].
       intros p Hp. rewrite Hfr, Hb4 by done. unfold region_frees. rewrite Hf.
       by rewrite orb_false_r. }
  rewrite mark_region_free_ok by done.
  set (s := div_ceil _ ps). set (e := end_address r / ps).
  assert (0 ≤ s) by (destruct Hr; apply div_ceil_nonneg; lia).
  destruct (Z.le_gt_cases e s) as [Hes|Hse].
  { rewrite range_nil by lia. exists b. split; [done|]. unfold I.
    split_and!; [done..|]. intros p Hp. rewrite Hfr, Hb4 by done.
    replace (region_frees ps r p) with false; [by rewrite orb_false_r|].
    symmetry. apply not_true_is_false. rewrite region_frees_range by done. lia. }
  destruct (mark_unused_block b s (e - s)) as (b' & Hb' & ? & ? & ? & Hq);
    [done|done|lia| | |].
  { unfold capacity, zlen in *. rewrite Hb2. fold e in Hrc. lia. }
  { intros p Hp. rewrite Hb4 by lia. rewrite (filter_frees_zero ps done p); [done|].
    specialize (Hdis p ltac:(lia)). rewrite filter_app, length_app, filter_cons in Hdis.
    rewrite decide_True in Hdis; [simpl in Hdis; lia|].
    apply region_frees_range; [done..|]. fold s e. lia. }
  replace (s + (e - s)) with e in Hb' by lia.
  exists b'. split; [done|]. unfold I. split_and!; [done|congruence|congruence|].
  intros p Hp. rewrite Hfr, Hq, Hb4, negb_orb by done. f_equal. f_equal.
  apply eq_bool_prop_intro. rewrite !Is_true_true, in_block_spec, region_frees_range by done.
  fold s e. lia.
Qed.

(** ** The bootstrapped allocator *)

Lemma bitmap_placement_inv ps regions s n :
  1 < ps → Forall (region_ok ps) regions → bitmap_placement ps regions = Ret (s, n) →
  0 ≤ s ∧ 0 ≤ n ∧ 64 * n < 2 ^ 64 ∧ Forall (λ r, end_address r / ps ≤ 64 * n) regions ∧
  ∃ r, r ∈ regions ∧ r.(free) = true ∧ s = ps * div_ceil r.(start_address) ps ∧
    s + n ≤ ps * (end_address r / ps).
Proof.
  intros Hps1 Hok H. assert (Hps : 0 < ps) by lia. unfold bitmap_placement in H.
  destruct (decide (regions = [])) as [->|Hne]; [done|].
  destruct (max_end_ok ps regions Hps Hne Hok) as (m & E & Hm & Hall).
  rewrite E in H. cbn -[Z.pow] in H. unfold udiv_ceil in H.
  replace (ps =? 0) with false in H by lia. cbn -[Z.pow] in H.
  apply bind_ret_inv in H as (o & Hfind & H). inv_ret.
  destruct (find_bitmap_start_sound _ _ _ _ Hps Hok Hfind) as (r & Hin & Hf & -> & Hle & Hlt).
  rewrite Forall_forall in Hok. destruct (Hok r Hin) as (Hs0 & _).
  pose proof (div_ceil_nonneg _ ps Hps Hs0).
  pose proof (div_ceil_nonneg m ps Hps (proj1 Hm)) as Hb.
  pose proof (div_ceil_nonneg (div_ceil m ps) 64 ltac:(lia) Hb).
  pose proof (div_ceil_spec (div_ceil m ps) 64 ltac:(lia)).
  pose proof (div_ceil_spec m ps Hps).
  split_and!; [nia|done|nia| |by exists r].
  eapply Forall_impl; [exact Hall|]. simpl. intros r' Hr'.
  apply Z.div_le_upper_bound; nia.
Qed.

(** The bitmap is not longer than the memory it describes needs. *)
Lemma max_end_ub regions m B :
  Forall (λ r, end_address r ≤ B) regions → max_end regions = Ret (Some m) → m ≤ B.
Proof.
  revert m. induction regions as [|r rest IH]; intros m HB H; [done|].
  inversion_clear HB as [|? ? Hr Hrest]. cbn -[Z.pow] in H. inv_ret.
  unfold end_address in Hr. destruct a0 as [m'|]; [|done].
  specialize (IH m' Hrest ltac:(done)). lia.
Qed.

Lemma bitmap_placement_ub ps regions s n B :
  1 < ps → Forall (region_ok ps) regions → Forall (λ r, end_address r ≤ B) regions →
  bitmap_placement ps regions = Ret (s, n) → s + n ≤ B ∧ 64 * n * ps < B + 64 * ps.
Proof.
  intros Hps Hok HB H. destruct (bitmap_placement_inv ps regions s n Hps Hok H)
    as (_ & _ & _ & _ & r & Hin & _ & _ & Hfit).
  rewrite Forall_forall in HB. specialize (HB r Hin) as Hr. rewrite <-Forall_forall in HB.
  pose proof (Z.mul_div_le (end_address r) ps ltac:(lia)). split; [lia|].
  unfold bitmap_placement in H. apply bind_ret_inv in H as (o & Hm & H).
  apply bind_ret_inv in H as (m & Ho & H). apply expect_ret_inv in Ho as ->.
  apply max_end_ub with (B := B) in Hm; [|done].
  unfold udiv_ceil in H. replace (ps =? 0) with false in H by lia. cbn -[Z.pow] in H. inv_ret.
  pose proof (div_ceil_spec (div_ceil m ps) 64 ltac:(lia)).
  pose proof (div_ceil_spec m ps ltac:(lia)). nia.
Qed.

(** The bitmap's own pages, as [mark_region] computes them. *)
Lemma mark_bitmap_region_ok ps q n alloc : 0 < ps → 0 ≤ q → 0 ≤ n →
  ps * q + n + ps < 2 ^ 64 →
  mark_region true ps
    {| start_address := ps * q; len_bytes := n; free := false |} alloc
  = foldM mark_used (range q (q + div_ceil n ps)) alloc.
Proof.
  intros Hps Hq Hn Hw. unfold mark_region.
  rewrite aligned_ok by (done || (unfold region_ok, end_address; simpl; nia)).
  cbn -[Z.pow]. unfold end_address. simpl.
  rewrite round_up_spec, round_down_spec by done.
  unfold udiv. replace (ps =? 0) with false by lia. simpl.
  rewrite !(Z.mul_comm ps), !Z.div_mul by lia. do 2 f_equal.
  pose proof (div_ceil_spec n ps Hps). pose proof (div_ceil_spec (q * ps + n) ps Hps). nia.
Qed.

Lemma bootstrap_spec ps regions mem s n storage :
  memory_map_ok ps regions → bitmap_placement ps regions = Ret (s, n) →
  mem s n = Ret storage → length storage = Z.to_nat n →
  ∃ alloc, bootstrap_allocator ps regions mem = Ret alloc ∧ wf alloc ∧
    length alloc.(bitmap) = Z.to_nat n ∧
    ∀ p, 0 ≤ p → page_used alloc.(bitmap) p
      = negb (frees_page ps regions p) || in_block (s / ps) (div_ceil n ps) p.
Proof.
  intros [Hps1 Hok Hdis _] Hpl Hmem Hlen. assert (Hps : 0 < ps) by lia.
  destruct (bitmap_placement_inv ps regions s n Hps1 Hok Hpl)
    as (Hs & Hn & Hn64 & Hends & r & Hin & Hf & Hsr & Hfit).
  unfold bootstrap_allocator. rewrite Hpl. simpl. rewrite Hmem. simpl. rewrite Hlen.
  set (a0 := new (replicate (Z.to_nat n) u64_max)).
  assert (Hcap : capacity a0.(bitmap) = 64 * n).
  { unfold capacity, zlen, BITS_PER_CHUNK. simpl. rewrite length_replicate. lia. }
  destruct (free_regions_ok ps regions a0) as (a1 & -> & Hw1 & Hl1 & Hlast & Hu1);
    [done|done|done| |by intros; apply page_used_full|by rewrite Hcap|].
  { apply Forall_replicate. unfold u64_max, in_width. lia. }
  simpl. set (q := div_ceil (start_address r) ps) in *. subst s.
  rewrite Forall_forall in Hok. destruct (Hok r Hin) as (Hr1 & Hr2 & Hr3).
  assert (0 ≤ q) by (apply div_ceil_nonneg; lia).
  assert (ps * (end_address r / ps) ≤ end_address r) by (apply Z.mul_div_le; lia).
  rewrite mark_bitmap_region_ok by lia.
  assert (Hsub : ∀ p, q ≤ p < q + div_ceil n ps → frees_page ps regions p = true).
  { intros p Hp. unfold frees_page. apply existsb_exists. exists r.
    split; [by apply list_elem_of_In|].
    apply region_frees_range; [done..|]. fold q. split; [lia|].
    pose proof (div_ceil_spec n ps Hps). nia. }
  destruct (mark_used_block a1 q (div_ceil n ps)) as (a2 & -> & Hw2 & Hl2 & Hlast2 & Hu2);
    [done|done|by apply div_ceil_nonneg|intros p Hp; rewrite Hu1 by lia; by rewrite Hsub|].
  assert (Hlen2 : length a2.(bitmap) = Z.to_nat n).
  { rewrite Hl2, Hl1. simpl. apply length_replicate. }
  exists a2. split_and!; [done| |done|].
  - split; [done| |].
    + unfold capacity, zlen, BITS_PER_CHUNK. rewrite Hlen2. lia.
    + rewrite Hlast2, Hlast. done.
  - intros p Hp. rewrite Hu2, Hu1 by done.
    rewrite (Z.mul_comm ps), Z.div_mul by lia. done.
Qed.

(** rounding a region to pages: for a free region the result is exactly the
    interval of pages that lie inside it, and [None] when no page does; for an
    occupied region it is the interval of pages that meet it. *)
Theorem page_aligned_spec r ps : 0 < ps → region_ok ps r →
  ∃ o, page_aligned_start_end_address r ps = Ret o ∧
    match o with
    | None => r.(free) = true ∧ ∀ p, region_frees ps r p = false
    | Some (s, e) => s mod ps = 0 ∧ e mod ps = 0 ∧
        if r.(free)
        then ∀ p, region_frees ps r p = true ↔ s ≤ p * ps ∧ (p + 1) * ps ≤ e
        else ∀ p, s ≤ p * ps < e ↔
               r.(start_address) < (p + 1) * ps ∧ p * ps < end_address r
    end.
Proof.
  intros Hps Hr. rewrite aligned_ok by done. eexists; split; [done|].
  rewrite !round_up_spec, !round_down_spec by done.
  assert (Hm : ∀ x, (ps * x) mod ps = 0) by (intros; rewrite Z.mul_comm; apply Z_mod_mult).
  cbv zeta. destruct (free r) eqn:Hf.
  - destruct (Z.leb_spec (ps * (end_address r / ps)) (ps * div_ceil (start_address r) ps)).
    + split; [done|]. intros p. apply not_true_is_false.
      rewrite region_frees_range by done. nia.
    + split_and!; [done..|]. intros p. rewrite region_frees_range by done. split; nia.
  - split_and!; [done..|]. intros p.
    pose proof (div_ceil_lb (end_address r) ps p Hps).
    pose proof (div_floor_ub (start_address r) ps p Hps). split; nia.
Qed.

Lemma page_aligned_spec_witness :
  region_frees 0x10 {| start_address := 0x101; len_bytes := 0x1f; free := true |} 0x11 = true.
Proof.
  destruct (page_aligned_spec {| start_address := 0x101; len_bytes := 0x1f; free := true |}
    0x10) as (o & E & H); [lia|unfold region_ok, end_address; simpl; lia|].
  assert (o = Some (0x110, 0x120)) as -> by (revert E; vm_compute; congruence).
  apply H. lia.
Defined.


(** A region map with one free region. *)
Lemma single_region_ok ps r : 1 < ps → region_ok ps r →
  is_ret (bitmap_placement ps [r]) = true → memory_map_ok ps [r].
Proof.
  intros Hps Hr Hpl. split; [done|by apply Forall_singleton| |done].
  intros p _. rewrite filter_cons. by case_decide; simpl; lia.
Qed.


(** the storage of the bitmap is not reserved: [bitmap_bytes] is a number of
    [u64] words, but it is used as a number of bytes when the storage is placed
    and marked.  With the kernel's page size and 256 MiB of memory at 1 MiB, the
    page with the words from 512 on is left free, although the slice of
    [bitmap_bytes] words covers it. *)
Theorem bitmap_storage_not_reserved :
  ∃ regions s n alloc p,
    bitmap_placement 4096 regions = Ret (s, n) ∧
    bootstrap_allocator 4096 regions (λ _ n, Ret (replicate (Z.to_nat n) 0)) = Ret alloc ∧
    s ≤ p * 4096 ∧ (p + 1) * 4096 ≤ s + 8 * n ∧
    page_used alloc.(bitmap) p = false.
Proof.
  set (r := {| start_address := 0x100000; len_bytes := 0x10000000; free := true |}).
  assert (Hpl : bitmap_placement 4096 [r] = Ret (0x100000, 1028)) by (vm_compute; reflexivity).
  destruct (bootstrap_spec 4096 [r] (λ _ n, Ret (replicate (Z.to_nat n) 0)) 0x100000 1028
      (replicate 1028 0)) as (alloc & Hb & _ & _ & Hu); [|exact Hpl|reflexivity|apply length_replicate|].
  - apply single_region_ok; [lia|unfold region_ok, end_address; simpl; lia|].
    rewrite Hpl. reflexivity.
  - exists [r], 0x100000, 1028, alloc, 257. split_and!; [exact Hpl|exact Hb|lia|lia|].
    rewrite Hu by lia. reflexivity.
Qed.
End Bootstrap.
