(* ===== verification/RingBuffer.v ===== *)
(** * crates/ring_buffer: an append-only ring buffer

    [RingBuffer N] overwrites its oldest element once [N] elements have been
    pushed; [get] and the iterator count backwards from the newest.  The
    abstraction is the list of everything ever pushed, newest first:
    [repr N b h] relates a buffer to its history, and every operation is
    characterised by what it does to, or reads from, the history. *)
From S2P Require Import Prelude.
#[local] Open Scope Z_scope.

Module RingBuffer.

Record t (A : Type) : Type := mk {
  elements : list (option A);
  next_free : Z;
}.
Arguments mk {A} elements next_free.
Arguments elements {A} t.
Arguments next_free {A} t.

Section ops.
Context {A : Type} (N : Z).

Definition new : t A := mk (replicate (Z.to_nat N) None) 0.

Definition len (self : t A) : outcome Z :=
  e ← index self.(elements) self.(next_free);
  mret (match e with Some _ => N | None => self.(next_free) end).

Definition push (element : A) (self : t A) : outcome (t A) :=
  es ← index_set self.(elements) self.(next_free) (Some element);
  n ← uadd 64 self.(next_free) 1;
  n ← urem n N;
  mret (mk es n).

(** The slot [get] and [get_mut] read, once the index is in bounds. *)
Definition slot (self : t A) (i : Z) : outcome Z :=
  if i <? self.(next_free)
  then a ← usub self.(next_free) i; usub a 1
  else a ← usub N 1; b ← usub i self.(next_free); usub a b.

Definition get (self : t A) (i : Z) : outcome (option A) :=
  if zlen self.(elements) <=? i then mret None
  else k ← slot self i; index self.(elements) k.

(** [get_mut] hands out a reference; [f] is what the caller does through it. *)
Definition get_mut (f : A → A) (self : t A) (i : Z) : outcome (option A * t A) :=
  if zlen self.(elements) <=? i then mret (None, self)
  else
    k ← slot self i;
    e ← index self.(elements) k;
    es ← index_set self.(elements) k (f <$> e);
    mret (e, mk es self.(next_free)).

Record RingBufferIter : Type := mkIter {
  buffer : t A;
  iter_index : Z;
}.

Definition iter (self : t A) : RingBufferIter := mkIter self 0.

Definition next (it : RingBufferIter) : outcome (option A * RingBufferIter) :=
  l ← len it.(buffer);
  if l <=? it.(iter_index) then mret (None, it)
  else
    item ← get it.(buffer) it.(iter_index);
    i ← uadd 64 it.(iter_index) 1;
    mret (item, mkIter it.(buffer) i).

(** [for x in it]: call [next] until it answers [None]. *)
Fixpoint collect (fuel : nat) (it : RingBufferIter) : outcome (list A) :=
  match fuel with
  | O => Diverge
  | S fuel =>
      '(item, it') ← next it;
      match item with
      | None => mret []
      | Some x => xs ← collect fuel it'; mret (x :: xs)
      end
  end.

(** The slot of the [i]-th newest element after [n] pushes. *)
Definition position (n i : Z) : Z := (n - 1 - i) mod N.

Record repr (b : t A) (h : list A) : Prop := {
  repr_length : length b.(elements) = Z.to_nat N;
  repr_next : b.(next_free) = zlen h mod N;
  repr_slots : ∀ i, 0 ≤ i < N →
    b.(elements) !! Z.to_nat (position (zlen h) i) = Some (h !! Z.to_nat i);
}.
End ops.
Arguments RingBufferIter A : clear implicits.

Section facts.
Context {A : Type} (N : Z) (HN : 0 < N < 2 ^ 64).
Implicit Types (b : t A) (h : list A).

Lemma position_bound n i : 0 ≤ position N n i < N.
Proof. apply Z.mod_pos_bound. lia. Qed.

Lemma position_inj n i j : 0 ≤ i < N → 0 ≤ j < N → position N n i = position N n j → i = j.
Proof.
  unfold position. intros Hi Hj E.
  pose proof (Z.div_mod (n - 1 - i) N ltac:(lia)).
  pose proof (Z.div_mod (n - 1 - j) N ltac:(lia)).
  assert ((n - 1 - i) / N = (n - 1 - j) / N) by nia. nia.
Qed.

(** The newest element of the next state goes into [next_free]. *)
Lemma position_newest n : position N (n + 1) 0 = n mod N.
Proof. unfold position. f_equal. lia. Qed.

Lemma position_succ n i : position N (n + 1) (i + 1) = position N n i.
Proof. unfold position. f_equal. lia. Qed.

Lemma position_oldest n : position N n (N - 1) = n mod N.
Proof.
  unfold position. replace (n - 1 - (N - 1)) with (n + -1 * N) by lia. apply Z_mod_plus_full.
Qed.

(** The two branches of [get] compute the position. *)
Lemma slot_position b n i : next_free b = n mod N → 0 ≤ i < N →
  slot N b i = Ret (position N n i).
Proof.
  intros Hn Hi. unfold slot, position. rewrite Hn.
  pose proof (Z.mod_pos_bound n N ltac:(lia)) as Hb.
  pose proof (Z.div_mod n N ltac:(lia)) as Hd.
  destruct (Z.ltb_spec i (n mod N)).
  - rewrite usub_ok by lia. simpl. rewrite usub_ok by lia. f_equal.
    apply (Z.mod_unique _ _ (n / N)); lia.
  - rewrite usub_ok by lia. simpl. rewrite usub_ok by lia. simpl.
    rewrite usub_ok by lia. f_equal. apply (Z.mod_unique _ _ (n / N - 1)); lia.
Qed.

Lemma repr_new : repr N (new N) ([] : list A).
Proof.
  split; simpl.
  - apply length_replicate.
  - by rewrite Z.mod_0_l by lia.
  - intros i Hi. pose proof (position_bound (zlen (@nil A)) i).
    rewrite lookup_nil. apply lookup_replicate_2. lia.
Qed.

Lemma push_ok b h x : repr N b h → ∃ b', push N x b = Ret b' ∧ repr N b' (x :: h).
Proof.
  intros [Hl Hn Hs]. unfold push.
  pose proof (Z.mod_pos_bound (zlen h) N ltac:(lia)) as Hb.
  unfold index_set. rewrite Hn.
  destruct (lookup_lt_is_Some_2 (elements b) (Z.to_nat (zlen h mod N))) as [e ->]; [lia|].
  simpl. rewrite uadd_ok by lia. simpl. unfold urem.
  destruct (Z.eqb_spec N 0); [lia|]. simpl. eexists; split; [done|].
  assert (Hz : zlen (x :: h) = zlen h + 1) by (unfold zlen; simpl; lia).
  split; simpl.
  - by rewrite length_insert.
  - rewrite Hz, Zplus_mod_idemp_l. done.
  - intros i Hi. rewrite Hz. destruct (Z.eq_dec i 0) as [->|Hi0].
    + rewrite position_newest. by rewrite list_lookup_insert_eq by lia.
    + replace i with (i - 1 + 1) at 1 by lia. rewrite position_succ.
      rewrite list_lookup_insert_ne; [|].
      * rewrite Hs by lia. f_equal. by replace (Z.to_nat i) with (S (Z.to_nat (i - 1))) by lia.
      * pose proof (position_bound (zlen h) (i - 1)).
        rewrite <-(position_oldest (zlen h)). intros E.
        apply Z2Nat.inj in E; [|pose proof (position_bound (zlen h) (N - 1)); lia|lia].
        apply position_inj in E; lia.
Qed.

Lemma pushes_ok l b h : repr N b h →
  ∃ b', foldM (push N) l b = Ret b' ∧ repr N b' (reverse l ++ h).
Proof.
  revert b h. induction l as [|x l IH]; intros b h Hr; [by exists b|].
  destruct (push_ok b h x Hr) as (b1 & E & Hr1).
  destruct (IH b1 (x :: h) Hr1) as (b2 & E2 & Hr2). exists b2.
  cbn [foldM]. rewrite E. simpl. by rewrite reverse_cons, <-app_assoc.
Qed.

Lemma get_ok b h i : repr N b h → 0 ≤ i →
  get N b i = Ret (if i <? N then h !! Z.to_nat i else None).
Proof.
  intros [Hl Hn Hs] Hi. unfold get, zlen. rewrite Hl, Z2Nat.id by lia.
  destruct (Z.leb_spec N i), (Z.ltb_spec i N); try lia; [done|].
  rewrite (slot_position b _ i Hn) by lia. simpl. unfold index. by rewrite Hs by lia.
Qed.

Lemma len_ok b h : repr N b h → len N b = Ret (N `min` zlen h).
Proof.
  intros [Hl Hn Hs]. unfold len, index. rewrite Hn.
  rewrite <-(position_oldest (zlen h)), Hs by lia. simpl.
  destruct (h !! Z.to_nat (N - 1)) eqn:E.
  - apply lookup_lt_Some in E. f_equal. unfold zlen. lia.
  - apply lookup_ge_None in E. f_equal. rewrite position_oldest.
    rewrite Z.mod_small; unfold zlen; lia.
Qed.

Lemma get_mut_ok f b h i : repr N b h → 0 ≤ i →
  ∃ b', get_mut N f b i = Ret (if i <? N then h !! Z.to_nat i else None, b') ∧
    repr N b' (if i <? N then alter f (Z.to_nat i) h else h).
Proof.
  intros Hr Hi. pose proof Hr as [Hl Hn Hs]. unfold get_mut, zlen.
  rewrite Hl, Z2Nat.id by lia.
  destruct (Z.leb_spec N i), (Z.ltb_spec i N); try lia; [by exists b|].
  rewrite (slot_position b _ i Hn) by lia. simpl. unfold index, index_set.
  rewrite Hs by lia. simpl. eexists; split; [done|].
  assert (Hz : zlen (alter f (Z.to_nat i) h) = zlen h) by (unfold zlen; by rewrite length_alter).
  split; simpl; rewrite ?Hz; [by rewrite length_insert|done|].
  intros j Hj. pose proof (position_bound (zlen h) i). pose proof (position_bound (zlen h) j).
  destruct (Z.eq_dec i j) as [->|Hij].
  - rewrite list_lookup_insert_eq by lia. by rewrite list_lookup_alter_eq.
  - rewrite list_lookup_insert_ne; [by rewrite Hs, list_lookup_alter_ne by lia|].
    intros E. apply Z2Nat.inj in E; [|lia|lia]. apply position_inj in E; lia.
Qed.

Lemma take_cons_lookup {B} (l : list B) i m x : l !! i = Some x → (i < m)%nat →
  drop i (take m l) = x :: drop (S i) (take m l).
Proof.
  intros Hx Hm. rewrite (drop_S _ x); [done|]. by rewrite lookup_take_lt.
Qed.

Lemma collect_ok b h i fuel : repr N b h → 0 ≤ i →
  (Z.to_nat (N `min` zlen h - i) < fuel)%nat →
  collect N fuel (mkIter b i) = Ret (drop (Z.to_nat i) (take (Z.to_nat N) h)).
Proof.
  intros Hr. revert i. induction fuel as [|fuel IH]; intros i Hi Hf; [lia|].
  cbn [collect]. unfold next. simpl. rewrite (len_ok b h Hr). simpl.
  destruct (Z.leb_spec (N `min` zlen h) i).
  - simpl. f_equal. symmetry. apply drop_ge. rewrite length_take. unfold zlen in *. lia.
  - rewrite (get_ok b h i Hr Hi). destruct (Z.ltb_spec i N); [|lia]. simpl.
    rewrite uadd_ok by lia. simpl.
    destruct (lookup_lt_is_Some_2 h (Z.to_nat i)) as [x Hx]; [unfold zlen in *; lia|].
    rewrite Hx, IH by lia. simpl. f_equal. replace (Z.to_nat (i + 1)) with (S (Z.to_nat i)) by lia.
    symmetry. apply take_cons_lookup; [done|lia].
Qed.
End facts.

(** the ring buffer is a bounded history: after pushing the elements of [l]
    into a new buffer, [len] is the number of elements pushed capped at [N],
    [get i] is the [i]-th newest element for [i < N] and [None] beyond, and the
    iterator yields the newest [N] elements, newest first, and then ends. *)
Theorem push_history {A} (N : Z) (l : list A) : 0 < N < 2 ^ 64 →
  ∃ b, foldM (push N) l (new N) = Ret b ∧
    len N b = Ret (N `min` zlen l) ∧
    (∀ i, 0 ≤ i → get N b i = Ret (if i <? N then reverse l !! Z.to_nat i else None)) ∧
    collect N (S (Z.to_nat N)) (iter b) = Ret (take (Z.to_nat N) (reverse l)).
Proof.
  intros HN. destruct (pushes_ok N HN l (new N) [] (repr_new N HN)) as (b & E & Hr).
  rewrite app_nil_r in Hr. exists b. split_and!; [done| | |].
  - rewrite (len_ok N HN b _ Hr). unfold zlen. by rewrite length_reverse.
  - intros i Hi. by apply get_ok.
  - unfold iter. rewrite (collect_ok N HN b _ 0 _ Hr) by lia. by rewrite drop_0.
Qed.

Lemma push_history_witness :
  ∃ b, foldM (push 3) [1; 2; 3; 4; 5] (new 3) = Ret b ∧
    collect 3 4 (iter b) = Ret [5; 4; 3].
Proof.
  destruct (push_history 3 [1; 2; 3; 4; 5]) as (b & E & _ & _ & C); [lia|].
  exists b. split; [exact E|exact C].
Defined.

(** writing through [get_mut] changes exactly the element that [get] at the
    same index would return: the history of the result differs from the old one
    at that index only, and nothing changes when the index is out of range. *)
Theorem get_mut_updates_one {A} (N : Z) (f : A → A) (b : t A) (h : list A) i :
  0 < N < 2 ^ 64 → repr N b h → 0 ≤ i →
  ∃ b', get_mut N f b i = Ret (if i <? N then h !! Z.to_nat i else None, b') ∧
    ∀ j, 0 ≤ j → get N b' j =
      Ret (if j <? N then (if j =? i then f <$> h !! Z.to_nat j else h !! Z.to_nat j) else None).
Proof.
  intros HN Hr Hi. destruct (get_mut_ok N HN f b h i Hr Hi) as (b' & E & Hr').
  exists b'. split; [done|]. intros j Hj. rewrite (get_ok N HN b' _ j Hr' Hj). f_equal.
  destruct (Z.ltb_spec j N); [|done].
  destruct (Z.ltb_spec i N), (Z.eqb_spec j i) as [->|]; try done; try lia.
  - by rewrite list_lookup_alter_eq.
  - by rewrite list_lookup_alter_ne by lia.
Qed.

Lemma get_mut_updates_one_witness :
  ∃ b', get_mut 2 (Z.add 1) (mk [Some 7; Some 9] 1) 0 = Ret (Some 7, b') ∧
    get 2 b' 0 = Ret (Some 8) ∧ get 2 b' 1 = Ret (Some 9).
Proof.
  destruct (get_mut_updates_one 2 (Z.add 1) (mk [Some 7; Some 9] 1) [7; 9; 3] 0)
    as (b' & E & G); [lia| |lia|].
  - split; [reflexivity|reflexivity|]. intros i Hi.
    assert (i = 0 ∨ i = 1) as [-> | ->] by lia; reflexivity.
  - exists b'. split; [exact E|]. split; rewrite G by lia; reflexivity.
Defined.
End RingBuffer.
