(* ===== verification/External.v ===== *)
(** * Third-party crates as interfaces

    The kernel calls crates whose source is not part of the repository.  Each
    one is a type class of the operations the kernel uses, and a second class
    states the documented behaviour the theorems rely on.  Theorems quantify
    over every implementation of the classes; [documented_x86_64],
    [documented_bitflags] and [documented_zerocopy] are concrete implementations
    at which the theorems are exercised. *)
From S2P Require Import Prelude.
#[local] Open Scope Z_scope.

(** ** The [x86_64] crate: addresses

    An address is the [u64] it wraps. *)
Definition canonical (a : Z) : bool :=
  ((0 <=? a) && (a <? 2 ^ 47)) || ((2 ^ 64 - 2 ^ 47 <=? a) && (a <? 2 ^ 64)).

Class X86_64 : Type := {
  PhysAddr_new : Z → outcome Z;      (* PhysAddr::new *)
  VirtAddr_new : Z → outcome Z;      (* VirtAddr::new *)
  VirtAddr_add : Z → Z → outcome Z;  (* <VirtAddr as Add<u64/usize>>::add *)
  align_down : Z → Z → outcome Z;    (* x86_64::align_down, PhysAddr/VirtAddr::align_down *)
}.

Class X86_64Laws `{!X86_64} : Prop := {
  (** a physical address has 52 bits *)
  PhysAddr_new_ok a : 0 ≤ a < 2 ^ 52 → PhysAddr_new a = Ret a;
  (** bits 48 to 63 of a virtual address are copies of bit 47 *)
  VirtAddr_new_ok a : canonical a = true → VirtAddr_new a = Ret a;
  VirtAddr_add_ok a b : canonical a = true → canonical (a + b) = true → 0 ≤ b →
    VirtAddr_add a b = Ret (a + b);
  (** the greatest multiple of a power of two that is not above the address *)
  align_down_ok a k : 0 ≤ a < 2 ^ 64 → 0 ≤ k < 64 →
    align_down a (2 ^ k) = Ret (a - a mod 2 ^ k);
}.

#[local] Instance documented_x86_64 : X86_64 := {|
  PhysAddr_new a := if a <? 2 ^ 52 then Ret a else Panic PanicExpect;
  VirtAddr_new a := if canonical a then Ret a else Panic PanicExpect;
  VirtAddr_add a b := if canonical (a + b) then Ret (a + b) else Panic PanicExpect;
  align_down a align :=
    if is_power_of_two align then Ret (a - a mod align) else Panic PanicAssert;
|}.

(** ** The [bitflags] crate

    A flags type is a [uN] whose declared flags are the bits of [all]. *)
Class Bitflags : Type := {
  from_bits_truncate : Z → Z → Z;  (* T::from_bits_truncate; the first argument is T::all() *)
  contains : Z → Z → bool;         (* self.contains(other) *)
  flags_or : Z → Z → Z;            (* self | other *)
  flags_and : Z → Z → Z;           (* self & other *)
  flags_remove : Z → Z → Z;        (* self.remove(other) *)
}.

Class BitflagsLaws `{!Bitflags} : Prop := {
  from_bits_truncate_ok all b : from_bits_truncate all b = Z.land b all;
  contains_ok a b : contains a b = (Z.land a b =? b);
  flags_or_ok a b : flags_or a b = Z.lor a b;
  flags_and_ok a b : flags_and a b = Z.land a b;
  flags_remove_ok a b : flags_remove a b = Z.ldiff a b;
}.

#[local] Instance documented_bitflags : Bitflags := {|
  from_bits_truncate all b := Z.land b all;
  contains a b := Z.land a b =? b;
  flags_or := Z.lor;
  flags_and := Z.land;
  flags_remove := Z.ldiff;
|}.

(** ** The [zerocopy] crate

    A byte slice is its address and its bytes.  [prefix_verified size align s]
    is whether [LayoutVerified::<_, T>::new_from_prefix] succeeds on [s] for a
    [T] of that size and alignment. *)
Record slice : Type := Slice { slice_ptr : Z; slice_bytes : list Z }.

Class Zerocopy : Type := {
  prefix_verified : Z → Z → slice → bool;
}.

Class ZerocopyLaws `{!Zerocopy} : Prop := {
  (** the slice is long enough and its address is aligned *)
  prefix_verified_ok size align s : 0 ≤ size → 0 < align →
    prefix_verified size align s =
      (size <=? zlen (slice_bytes s)) && (slice_ptr s mod align =? 0);
}.

#[local] Instance documented_zerocopy : Zerocopy := {|
  prefix_verified size align s :=
    (size <=? zlen (slice_bytes s)) && (slice_ptr s mod align =? 0);
|}.

Lemma is_power_of_two_pow k : 0 ≤ k → is_power_of_two (2 ^ k) = true.
Proof.
  intros Hk. unfold is_power_of_two. apply andb_true_iff. split.
  - apply Z.ltb_lt. by apply Z.pow_pos_nonneg.
  - apply Z.eqb_eq. replace (2 ^ k - 1) with (Z.ones k) by (rewrite Z.ones_equiv; lia).
    rewrite Z.land_ones by done. by apply Z.mod_same, Z.pow_nonzero.
Qed.

#[local] Instance documented_x86_64_laws : X86_64Laws.
Proof.
  split; simpl.
  - intros a Ha. by destruct (Z.ltb_spec a (2 ^ 52)); [|lia].
  - by intros a ->.
  - by intros a b _ -> _.
  - intros a k _ Hk. by rewrite is_power_of_two_pow by lia.
Qed.

#[local] Instance documented_bitflags_laws : BitflagsLaws.
Proof. by split. Qed.

#[local] Instance documented_zerocopy_laws : ZerocopyLaws.
Proof. by split. Qed.
