(* ===== verification/Addr.v ===== *)
(** * kernel/src/memory: addresses, pages and the address-space layout

    [address.rs] ([KernPhysAddr]), [page.rs] ([Page], [PageRange], [PageSize])
    and the layout constants of [mapping.rs].  An address is its [u64]; the
    three address types of the source differ in which operations they have, and
    the [Address] trait is the class below. *)
From S2P Require Import Prelude External.
#[local] Open Scope Z_scope.
#[local] Open Scope rust_scope.

(** ** mapping.rs: the layout *)
Definition HIGHER_HALF_START : Z := 0xffff800000000000.
Definition KERNEL_PHYSICAL_MAPPING_START : Z := HIGHER_HALF_START.
Definition KERNEL_PHYSICAL_MAPPING_END : Z := 0xffffb77777777777.
Definition KERNEL_HEAP_REGION_START : Z := 0xffffc00000000000.
Definition KERNEL_HEAP_REGION_MAX_SIZE : Z := 0x0000100000000000.
Definition KERNEL_STACK_REGION_START : Z := 0xffffd00000000000.
Definition KERNEL_STACK_REGION_MAX_SIZE : Z := 0xffff100000000000.
Definition KERNEL_TEXT_DATA_REGION_START : Z := 0xffffffff80000000.

Module KernPhysAddr.
Section ops.
Context {x86 : X86_64}.

Definition in_mapping (addr : Z) : bool :=
  (KERNEL_PHYSICAL_MAPPING_START <=? addr) && (addr <=? KERNEL_PHYSICAL_MAPPING_END).

Definition new (addr : Z) : outcome Z := _ ← assert_ (in_mapping addr); mret addr.

Definition to_phys_addr (self : Z) : outcome Z :=
  _ ← assert_ (in_mapping self);
  a ← self -! KERNEL_PHYSICAL_MAPPING_START;
  PhysAddr_new a.

Definition from_phys_addr (addr : Z) : outcome Z :=
  a ← addr +! KERNEL_PHYSICAL_MAPPING_START;
  new a.

Definition add (self rhs : Z) : outcome Z := a ← self +! rhs; new a.
Definition sub (self rhs : Z) : outcome Z := a ← self -! rhs; new a.

(** [VirtAddr::from(KernPhysAddr)] *)
Definition to_virt_addr (self : Z) : outcome Z := VirtAddr_new self.
End ops.
#[global] Arguments new : simpl never.
#[global] Arguments to_phys_addr : simpl never.
#[global] Arguments from_phys_addr : simpl never.
End KernPhysAddr.

Inductive PageSize : Type :=
| Size4KiB
| Size2MiB
| Size1GiB.

#[export] Instance page_size_eq_dec : EqDecision PageSize.
Proof. solve_decision. Defined.

Definition size_bytes (self : PageSize) : Z :=
  match self with
  | Size4KiB => 4096
  | Size2MiB => 2 * 1024 * 1024
  | Size1GiB => 1024 * 1024 * 1024
  end.

(** [Page<A>] and [PageRange<A>]; the address type is recorded by the trait
    instance the operations are used at. *)
Record Page : Type := mkPage {
  start_addr : Z;
  size : PageSize;
}.

#[export] Instance page_eq_dec : EqDecision Page.
Proof. solve_decision. Defined.

Record PageRange : Type := mkPageRange {
  start : Page;
  num_pages : Z;
}.

(** The [Address] trait: addition of a [usize]. *)
Class Address : Type := { addr_add : Z → Z → outcome Z }.
Definition AddressVirt {x86 : X86_64} : Address := {| addr_add := VirtAddr_add |}.
Definition AddressKernPhys : Address := {| addr_add := KernPhysAddr.add |}.

Section page.
Context {x86 : X86_64}.

(** [Address::is_aligned] *)
Definition is_aligned (addr align : Z) : outcome bool :=
  a ← align_down addr align; mret (a =? addr).

Definition from_start_addr (start_addr : Z) (size : PageSize) : outcome Page :=
  b ← is_aligned start_addr (size_bytes size);
  _ ← assert_ b;
  mret (mkPage start_addr size).

Definition containing_address (addr : Z) (size : PageSize) : outcome Page :=
  a ← align_down addr (size_bytes size);
  mret (mkPage a size).

Definition from_num_bytes (start : Page) (num_bytes : Z) : outcome PageRange :=
  n ← udiv_ceil num_bytes (size_bytes start.(size));
  mret (mkPageRange start n).

Definition num_bytes (self : PageRange) : outcome Z :=
  self.(num_pages) *! size_bytes self.(start).(size).

(** [PageRangeIter]: the range and [current_page]. *)
Definition PageRangeIter_next {addr : Address} (self : PageRange) (current_page : Z)
  : outcome (option (Page * Z)) :=
  if self.(num_pages) <=? current_page then mret None
  else
    off ← current_page *! size_bytes self.(start).(size);
    a ← addr_add self.(start).(start_addr) off;
    c ← current_page +! 1;
    mret (Some (mkPage a self.(start).(size), c)).

(** What [for page in range.iter()] visits. *)
Fixpoint PageRange_collect {addr : Address} (fuel : nat) (self : PageRange) (current_page : Z)
  : outcome (list Page) :=
  match fuel with
  | O => Diverge
  | S fuel =>
      r ← PageRangeIter_next self current_page;
      match r with
      | None => mret []
      | Some (p, c) => ps ← PageRange_collect fuel self c; mret (p :: ps)
      end
  end.
Definition PageRange_iter {addr : Address} (self : PageRange) : outcome (list Page) :=
  PageRange_collect (S (Z.to_nat self.(num_pages))) self 0.
End page.

(** Page [i] of a range. *)
Definition nth_page (r : PageRange) (i : Z) : Page :=
  mkPage (r.(start).(start_addr) + i * size_bytes r.(start).(size)) r.(start).(size).

Section facts.
Context {x86 : X86_64} {x86_laws : X86_64Laws}.

Definition size_shift (s : PageSize) : Z :=
  match s with Size4KiB => 12 | Size2MiB => 21 | Size1GiB => 30 end.

Lemma size_bytes_pow s : size_bytes s = 2 ^ size_shift s.
Proof. by destruct s. Qed.

Lemma size_bytes_pos s : 0 < size_bytes s.
Proof. by destruct s. Qed.

Lemma in_mapping_spec a : KernPhysAddr.in_mapping a = true ↔
  KERNEL_PHYSICAL_MAPPING_START ≤ a ≤ KERNEL_PHYSICAL_MAPPING_END.
Proof. unfold KernPhysAddr.in_mapping. rewrite andb_true_iff, !Z.leb_le. done. Qed.

Lemma in_mapping_canonical a : KernPhysAddr.in_mapping a = true → canonical a = true.
Proof.
  rewrite in_mapping_spec. unfold canonical, KERNEL_PHYSICAL_MAPPING_START,
    KERNEL_PHYSICAL_MAPPING_END, HIGHER_HALF_START. lia.
Qed.

Lemma kern_new_ok a : KernPhysAddr.in_mapping a = true → KernPhysAddr.new a = Ret a.
Proof. unfold KernPhysAddr.new. by intros ->. Qed.

Lemma to_phys_addr_ok a : KernPhysAddr.in_mapping a = true →
  KernPhysAddr.to_phys_addr a = Ret (a - KERNEL_PHYSICAL_MAPPING_START).
Proof.
  intros H. unfold KernPhysAddr.to_phys_addr. rewrite H. simpl.
  apply in_mapping_spec in H. rewrite usub_ok by lia. simpl. apply PhysAddr_new_ok.
  unfold KERNEL_PHYSICAL_MAPPING_START, KERNEL_PHYSICAL_MAPPING_END, HIGHER_HALF_START in *. lia.
Qed.

Lemma from_phys_addr_ok p :
  0 ≤ p → p + KERNEL_PHYSICAL_MAPPING_START ≤ KERNEL_PHYSICAL_MAPPING_END →
  KernPhysAddr.from_phys_addr p = Ret (p + KERNEL_PHYSICAL_MAPPING_START).
Proof.
  intros H0 H1. unfold KernPhysAddr.from_phys_addr. rewrite uadd_ok.
  - simpl. apply kern_new_ok, in_mapping_spec. lia.
  - unfold KERNEL_PHYSICAL_MAPPING_END in H1. lia.
Qed.

Lemma is_aligned_ok a s : 0 ≤ a < 2 ^ 64 →
  is_aligned a (size_bytes s) = Ret (a mod size_bytes s =? 0).
Proof.
  intros Ha. unfold is_aligned. rewrite size_bytes_pow, align_down_ok by (done || by destruct s).
  simpl. f_equal. lia.
Qed.

Lemma from_start_addr_ok a s : 0 ≤ a < 2 ^ 64 → a mod size_bytes s = 0 →
  from_start_addr a s = Ret (mkPage a s).
Proof. intros Ha Hm. unfold from_start_addr. rewrite is_aligned_ok by done. by rewrite Hm. Qed.

Lemma containing_address_ok a s : 0 ≤ a < 2 ^ 64 →
  containing_address a s = Ret (mkPage (a - a mod size_bytes s) s).
Proof.
  intros Ha. unfold containing_address. rewrite size_bytes_pow.
  by rewrite align_down_ok by (done || by destruct s).
Qed.

Lemma kern_aligned a s : (a - KERNEL_PHYSICAL_MAPPING_START) mod size_bytes s = 0 ↔
  a mod size_bytes s = 0.
Proof.
  assert (E : KERNEL_PHYSICAL_MAPPING_START mod size_bytes s = 0) by (by destruct s).
  pose proof (size_bytes_pos s). rewrite Zminus_mod, E, Z.sub_0_r, Z.mod_mod by lia. done.
Qed.

(** Iteration over a range whose pages are all addressable. *)
Lemma PageRange_collect_ok (AA : Address) r i fuel :
  0 ≤ i → r.(num_pages) * size_bytes r.(start).(size) < 2 ^ 64 →
  (∀ j, 0 ≤ j < r.(num_pages) →
     addr_add r.(start).(start_addr) (j * size_bytes r.(start).(size))
     = Ret (r.(start).(start_addr) + j * size_bytes r.(start).(size))) →
  (Z.to_nat (r.(num_pages) - i) < fuel)%nat →
  PageRange_collect fuel r i = Ret (nth_page r <$> range i r.(num_pages)).
Proof.
  intros Hi Hw Ha. revert i Hi. induction fuel as [|fuel IH]; intros i Hi Hf; [lia|].
  cbn [PageRange_collect]. unfold PageRangeIter_next.
  pose proof (size_bytes_pos r.(start).(size)).
  destruct (Z.leb_spec r.(num_pages) i).
  - simpl. by rewrite range_nil by lia.
  - rewrite umul_ok by nia. simpl. rewrite Ha by lia. simpl.
    rewrite uadd_ok by nia. simpl. rewrite IH by lia. simpl.
    rewrite (range_cons i) by lia. done.
Qed.

Lemma PageRange_iter_virt r :
  0 ≤ r.(num_pages) → r.(num_pages) * size_bytes r.(start).(size) < 2 ^ 64 →
  canonical r.(start).(start_addr) = true →
  (∀ j, 0 ≤ j < r.(num_pages) →
     canonical (r.(start).(start_addr) + j * size_bytes r.(start).(size)) = true) →
  PageRange_iter (addr:=AddressVirt) r = Ret (nth_page r <$> range 0 r.(num_pages)).
Proof.
  intros Hn Hw Hc Hj. unfold PageRange_iter. apply PageRange_collect_ok; [lia|done| |lia].
  intros j Hj'. apply VirtAddr_add_ok; [done|by apply Hj|].
  pose proof (size_bytes_pos r.(start).(size)). nia.
Qed.
End facts.
