(* ===== verification/PhysMem.v ===== *)
(** * kernel/src/memory/physical.rs: the physical frame allocator

    [PhysicalMemoryAllocator] wraps an allocator of page numbers and hands out
    [Page]s and [PageRange]s of [KernPhysAddr]s.  It is written here over any
    [ContiguousAllocator], so the theorems use its contract only.

    The memory that the code reaches through kernel physical addresses is a
    store of 64-bit words indexed by the (8-byte aligned) address.  Locks are
    taken and released within each operation and are not part of the state. *)
From S2P Require Import Prelude AllocSpec BitmapAlloc Bootstrap External Addr.
#[local] Open Scope Z_scope.
#[local] Open Scope rust_scope.

Inductive AllocError : Type := mkAllocError.

Definition PAGE_SIZE : Z := 4096.

(** ** The word store *)
Definition store : Type := Z → Z.
Definition store_set (m : store) (a v : Z) : store := λ x, if x =? a then v else m x.
(** [ptr.write_bytes(0, n)] *)
Definition store_zero (m : store) (a n : Z) : store :=
  λ x, if (a <=? x) && (x <? a + n) then 0 else m x.
(** [slice::from_raw_parts(ptr as *const u64, n)] *)
Definition store_slice (m : store) (a n : Z) : list Z :=
  (λ i, m (a + 8 * i)) <$> range 0 n.

Module PhysicalMemoryAllocator.
Section ops.
Context {x86 : X86_64} {A : Type} {CA : ContiguousAllocator A}.

Definition allocate_pages (n : Z) (self : A) : outcome (result PageRange AllocError * A) :=
  '(r, self) ← ca_allocate self n;
  match r with
  | None => mret (Err mkAllocError, self)
  | Some page =>
      _ ← assert_ (0 <? page);
      bytes ← page *! PAGE_SIZE;
      phys_addr ← PhysAddr_new bytes;
      start_addr ← KernPhysAddr.from_phys_addr phys_addr;
      start_page ← from_start_addr start_addr Size4KiB;
      mret (Ok (mkPageRange start_page n), self)
  end.

Definition allocate_page (self : A) : outcome (result Page AllocError * A) :=
  '(r, self) ← allocate_pages 1 self;
  match r with
  | Err e => mret (Err e, self)
  | Ok pages =>
      first ← PageRangeIter_next (addr:=AddressKernPhys) pages 0;
      '(page, c) ← expect first;
      second ← PageRangeIter_next (addr:=AddressKernPhys) pages c;
      _ ← assert_ (match second with None => true | Some _ => false end);
      mret (Ok page, self)
  end.

Definition free_pages (pages : PageRange) (self : A) : outcome A :=
  start_addr ← KernPhysAddr.to_phys_addr pages.(start).(start_addr);
  start_page ← start_addr /! size_bytes pages.(start).(size);
  ca_free self start_page pages.(num_pages).

Definition free_page (page : Page) (self : A) : outcome A :=
  free_pages (mkPageRange page 1) self.
End ops.

(** [PhysicalMemoryAllocator::new]: the bitmap's words are the memory at the
    chosen address, seen through the direct mapping. *)
Definition new {x86 : X86_64} (m : store) (regions : list Bootstrap.MemoryRegion)
  : outcome BitmapAllocator.t :=
  Bootstrap.bootstrap_allocator PAGE_SIZE regions (λ bitmap_addr bitmap_len,
    phys_addr ← PhysAddr_new bitmap_addr;
    kern_phys_addr ← KernPhysAddr.from_phys_addr phys_addr;
    mret (store_slice m kern_phys_addr bitmap_len)).
End PhysicalMemoryAllocator.

(** ** [LockedPhysicalMemoryAllocator] *)
Definition with_lock {A R} (f : A → outcome (R * A)) (lock : option A) : outcome (R * option A) :=
  allocator ← expect lock;
  '(r, allocator) ← f allocator;
  mret (r, Some allocator).

(** ** [PhysicalBuffer] *)
Module PhysicalBuffer.
Section ops.
Context {x86 : X86_64} {A : Type} {CA : ContiguousAllocator A}.
Import PhysicalMemoryAllocator.

(** A buffer is its pages; the state is the word store and the allocator. *)
Definition allocate_zeroed_pages (n : Z) (st : store * option A)
  : outcome (result PageRange AllocError * (store * option A)) :=
  let '(m, lock) := st in
  '(r, lock) ← with_lock (allocate_pages n) lock;
  match r with
  | Err e => mret (Err e, (m, lock))
  | Ok pages =>
      b ← num_bytes pages;
      mret (Ok pages, (store_zero m pages.(start).(start_addr) b, lock))
  end.

Definition allocate_zeroed (min_bytes : Z) (st : store * option A)
  : outcome (result PageRange AllocError * (store * option A)) :=
  n ← udiv_ceil min_bytes PAGE_SIZE;
  allocate_zeroed_pages n st.

(** [Drop] *)
Definition drop (self : PageRange) (st : store * option A) : outcome (store * option A) :=
  let '(m, lock) := st in
  '(_, lock) ← with_lock (λ a, a ← free_pages self a; mret (tt, a)) lock;
  mret (m, lock).

(** The length of [as_slice_mut]. *)
Definition slice_len (self : PageRange) : outcome Z := num_bytes self.
End ops.
End PhysicalBuffer.

(** ** Facts *)
Lemma store_zero_in m a n x : a ≤ x < a + n → store_zero m a n x = 0.
Proof.
  intros. unfold store_zero. by replace ((a <=? x) && (x <? a + n)) with true by lia.
Qed.

Lemma store_zero_out m a n x : x < a ∨ a + n ≤ x → store_zero m a n x = m x.
Proof.
  intros. unfold store_zero. by replace ((a <=? x) && (x <? a + n)) with false by lia.
Qed.

Lemma store_set_eq m a v : store_set m a v a = v.
Proof. unfold store_set. by rewrite Z.eqb_refl. Qed.

Lemma store_set_ne m a v x : x ≠ a → store_set m a v x = m x.
Proof. intros. unfold store_set. by replace (x =? a) with false by lia. Qed.

Section facts.
Context {x86 : X86_64} {x86_laws : X86_64Laws}.
Context {A : Type} {CA : ContiguousAllocator A} {CAL : ContiguousAllocatorLaws A}.
Import PhysicalMemoryAllocator.

(** The frame [f], seen through the direct mapping. *)
Definition frame_addr (f : Z) : Z := KERNEL_PHYSICAL_MAPPING_START + PAGE_SIZE * f.
Definition frame_page (f : Z) : Page := mkPage (frame_addr f) Size4KiB.

(** The allocator is usable by the kernel: the zero frame is never free and the
    frames it manages are inside the direct mapping. *)
Record frames_ok (a : A) : Prop := {
  fo_wf : ca_wf a;
  fo_zero : ca_used a 0 = true;
  fo_capacity : frame_addr (ca_capacity a) ≤ KERNEL_PHYSICAL_MAPPING_END;
}.

Lemma frame_in_mapping a f : frames_ok a → 0 ≤ f ≤ ca_capacity a →
  KernPhysAddr.in_mapping (frame_addr f) = true.
Proof.
  intros [_ _ Hc] Hf. apply in_mapping_spec. unfold frame_addr, PAGE_SIZE in *. lia.
Qed.

Lemma frame_addr_aligned f : frame_addr f mod 4096 = 0.
Proof.
  unfold frame_addr, PAGE_SIZE. rewrite Z.mul_comm, Z_mod_plus_full. reflexivity.
Qed.

Lemma allocate_pages_ok a n : frames_ok a → 0 < n →
  ∃ r a', ca_allocate a n = Ret (r, a') ∧ frames_ok a' ∧ ca_capacity a' = ca_capacity a ∧
    first_fit (ca_used a) n r ∧
    match r with
    | None => allocate_pages n a = Ret (Err mkAllocError, a') ∧
        ∀ p, 0 ≤ p → ca_used a' p = ca_used a p
    | Some f => allocate_pages n a = Ret (Ok (mkPageRange (frame_page f) n), a') ∧
        0 < f ∧ f + n ≤ ca_capacity a ∧ marks_block (ca_used a) (ca_used a') f n
    end.
Proof.
  intros Hok Hn. pose proof Hok as [Hwf Hz Hc].
  destruct (ca_allocate_ok a n Hwf Hn) as (r & a' & E & Hwf' & Hcap & Hff & Hr).
  exists r, a'. unfold allocate_pages. rewrite E. simpl.
  destruct r as [f|].
  - destruct (first_fit_capacity a n f Hn Hff) as [Hf0 Hfc].
    assert (0 < f).
    { destruct (Z.eq_dec f 0) as [->|]; [|lia]. destruct Hff as (_ & Hrun & _).
      rewrite (Hrun 0) in Hz by lia. done. }
    pose proof (frame_in_mapping a f Hok ltac:(lia)) as Hm.
    pose proof (proj1 (in_mapping_spec _) Hm) as Hm'.
    unfold KERNEL_PHYSICAL_MAPPING_END, frame_addr, KERNEL_PHYSICAL_MAPPING_START,
      HIGHER_HALF_START, PAGE_SIZE in Hm'.
    replace (0 <? f) with true by lia. simpl. unfold PAGE_SIZE at 1. rewrite umul_ok by lia.
    simpl. rewrite PhysAddr_new_ok by lia. simpl.
    rewrite from_phys_addr_ok by (unfold KERNEL_PHYSICAL_MAPPING_START, HIGHER_HALF_START,
      KERNEL_PHYSICAL_MAPPING_END; lia).
    simpl. replace (f * 4096 + KERNEL_PHYSICAL_MAPPING_START) with (frame_addr f)
      by (unfold frame_addr, PAGE_SIZE; lia).
    rewrite from_start_addr_ok;
      [|unfold frame_addr, KERNEL_PHYSICAL_MAPPING_START, HIGHER_HALF_START, PAGE_SIZE; lia
       |apply frame_addr_aligned].
    split_and!; try done; [split; [done| |by rewrite Hcap]|by destruct Hff as (? & ? & ?)|].
    + rewrite (Hr 0) by lia. by rewrite Hz.
    + by destruct Hff as (? & ? & ?).
  - split_and!; try done. split; [done| |by rewrite Hcap]. by rewrite Hr.
Qed.

Lemma kern_next_page f n i : 0 ≤ i → frame_addr (f + i) ≤ KERNEL_PHYSICAL_MAPPING_END → 0 ≤ f →
  PageRangeIter_next (addr:=AddressKernPhys) (mkPageRange (frame_page f) n) i
  = Ret (if n <=? i then None else Some (frame_page (f + i), i + 1)).
Proof.
  intros Hi Hm Hf. unfold PageRangeIter_next. simpl. destruct (Z.leb_spec n i); [done|].
  unfold frame_addr, KERNEL_PHYSICAL_MAPPING_START, KERNEL_PHYSICAL_MAPPING_END,
    HIGHER_HALF_START, PAGE_SIZE in Hm.
  rewrite umul_ok by lia. simpl. unfold KernPhysAddr.add.
  rewrite (uadd_ok _ (frame_addr f))
    by (unfold frame_addr, KERNEL_PHYSICAL_MAPPING_START, HIGHER_HALF_START, PAGE_SIZE; lia).
  simpl. rewrite kern_new_ok.
  - simpl. rewrite uadd_ok by lia. simpl. unfold frame_page.
    do 4 f_equal. unfold frame_addr, PAGE_SIZE. lia.
  - apply in_mapping_spec. unfold frame_addr, KERNEL_PHYSICAL_MAPPING_START,
      KERNEL_PHYSICAL_MAPPING_END, HIGHER_HALF_START, PAGE_SIZE. lia.
Qed.

Lemma allocate_page_ok a : frames_ok a →
  ∃ r a', allocate_page a = Ret (r, a') ∧ frames_ok a' ∧ ca_capacity a' = ca_capacity a ∧
    match r with
    | Err _ => (∀ p, 0 ≤ p → ca_used a p = true) ∧
        ∀ p, 0 ≤ p → ca_used a' p = ca_used a p
    | Ok page => ∃ f, page = frame_page f ∧ 0 < f < ca_capacity a ∧ ca_used a f = false ∧
        (∀ f', 0 ≤ f' < f → ca_used a f' = true) ∧
        ∀ p, 0 ≤ p → ca_used a' p = ca_used a p || bool_decide (p = f)
    end.
Proof.
  intros Hok. destruct (allocate_pages_ok a 1 Hok ltac:(lia))
    as (r & a' & _ & Hok' & Hcap & Hff & Hr).
  unfold allocate_page. destruct r as [f|].
  - destruct Hr as (-> & Hf & Hfc & Hmk). simpl.
    pose proof (fo_capacity a Hok) as Hc.
    rewrite kern_next_page by (unfold frame_addr, PAGE_SIZE in *; lia). simpl.
    rewrite Z.add_0_r. eexists _, a'. split; [done|]. split_and!; [done..|].
    destruct Hff as (_ & Hrun & Hmin). exists f. split_and!; [done|lia|lia|apply Hrun; lia| |].
    + intros f' Hf'. apply not_false_is_true. intros Hu. apply (Hmin f' Hf').
      intros p Hp. by replace p with f' by lia.
    + intros p Hp. rewrite (Hmk p Hp). f_equal. unfold in_block. case_bool_decide; lia.
  - destruct Hr as [-> Hr]. simpl. exists (Err mkAllocError), a'. split_and!; [done..| |done].
    intros p Hp. apply not_false_is_true. intros Hu. apply (Hff p Hp).
    intros q Hq. by replace q with p by lia.
Qed.

Lemma free_pages_ok a f n : frames_ok a → 0 < f → 0 < n → f + n ≤ ca_capacity a →
  (∀ p, f ≤ p < f + n → ca_used a p = true) →
  ∃ a', free_pages (mkPageRange (frame_page f) n) a = Ret a' ∧ frames_ok a' ∧
    ca_capacity a' = ca_capacity a ∧ clears_block (ca_used a) (ca_used a') f n.
Proof.
  intros Hok Hf Hn Hc Hu. pose proof Hok as [Hwf Hz Hcap]. unfold free_pages. simpl.
  rewrite to_phys_addr_ok by (eapply frame_in_mapping; [done|lia]). simpl.
  replace (frame_addr f - KERNEL_PHYSICAL_MAPPING_START) with (f * 4096)
    by (unfold frame_addr, PAGE_SIZE; lia).
  unfold udiv. simpl. rewrite Z.div_mul by lia.
  destruct (ca_free_ok a f n Hwf ltac:(lia) Hn Hc Hu) as (a' & E & Hwf' & Hcap' & Hcl).
  exists a'. split_and!; [done| |done|done]. split; [done| |by rewrite Hcap'].
  rewrite (Hcl 0) by lia. rewrite Hz. simpl. unfold in_block. lia.
Qed.

Lemma free_page_ok a f : frames_ok a → 0 < f < ca_capacity a → ca_used a f = true →
  ∃ a', free_page (frame_page f) a = Ret a' ∧ frames_ok a' ∧
    ca_capacity a' = ca_capacity a ∧
    ∀ p, 0 ≤ p → ca_used a' p = ca_used a p && negb (bool_decide (p = f)).
Proof.
  intros Hok Hf Hu. destruct (free_pages_ok a f 1) as (a' & E & Hok' & Hcap & Hcl);
    [done|lia|lia|lia|intros p Hp; by replace p with f by lia|].
  exists a'. split_and!; [done..|]. intros p Hp. rewrite (Hcl p Hp). do 2 f_equal.
  unfold in_block. case_bool_decide; lia.
Qed.
End facts.

(** initialisation of the physical allocator: for a memory map whose free
    regions are disjoint, leave frame 0 alone and end inside the direct mapping,
    [PhysicalMemoryAllocator::new] does not panic, and the allocator it builds
    satisfies the invariant the rest of the kernel relies on (frame 0 is never
    handed out, every frame has an address in the direct mapping); the frames it
    can hand out are exactly those of the free regions outside the part of the
    bitmap that is reserved. *)
Theorem new_frames_ok {x86 : X86_64} {x86_laws : X86_64Laws} m regions :
  Bootstrap.memory_map_ok PAGE_SIZE regions →
  Bootstrap.frees_page PAGE_SIZE regions 0 = false →
  Forall (λ r, Bootstrap.end_address r ≤
    KERNEL_PHYSICAL_MAPPING_END - KERNEL_PHYSICAL_MAPPING_START - 64 * PAGE_SIZE) regions →
  ∃ s n a, Bootstrap.bitmap_placement PAGE_SIZE regions = Ret (s, n) ∧
    PhysicalMemoryAllocator.new m regions = Ret a ∧ frames_ok a ∧
    ∀ f, 0 ≤ f → ca_used a f = negb (Bootstrap.frees_page PAGE_SIZE regions f)
      || in_block (s / PAGE_SIZE) (div_ceil n PAGE_SIZE) f.
Proof.
  intros Hmm Hz Hend. pose proof (Bootstrap.mm_placement _ _ Hmm) as Hpl.
  destruct (Bootstrap.bitmap_placement PAGE_SIZE regions) as [[s n]| |] eqn:E; try done.
  pose proof (Bootstrap.mm_page_size _ _ Hmm) as Hps.
  pose proof (Bootstrap.mm_regions _ _ Hmm) as Hok.
  destruct (Bootstrap.bitmap_placement_inv _ _ _ _ Hps Hok E) as (Hs & Hn & _).
  destruct (Bootstrap.bitmap_placement_ub _ _ _ _ _ Hps Hok Hend E) as (Hsb & Hnb).
  set (k := KernPhysAddr.from_phys_addr s).
  assert (Hk : k = Ret (s + KERNEL_PHYSICAL_MAPPING_START)).
  { apply from_phys_addr_ok; unfold PAGE_SIZE in *; lia. }
  destruct (Bootstrap.bootstrap_spec PAGE_SIZE regions (λ bitmap_addr bitmap_len,
    phys_addr ← PhysAddr_new bitmap_addr;
    kern_phys_addr ← KernPhysAddr.from_phys_addr phys_addr;
    mret (store_slice m kern_phys_addr bitmap_len)) s n
    (store_slice m (s + KERNEL_PHYSICAL_MAPPING_START) n) Hmm E)
    as (a & Ha & Hwf & Hlen & Hu).
  - rewrite PhysAddr_new_ok by (unfold PAGE_SIZE, KERNEL_PHYSICAL_MAPPING_END,
      KERNEL_PHYSICAL_MAPPING_START, HIGHER_HALF_START in *; lia).
    simpl. fold k. by rewrite Hk.
  - unfold store_slice. rewrite length_fmap, length_range. f_equal. lia.
  - exists s, n, a. split_and!; [done|exact Ha| |exact Hu]. split; [done| |].
    + simpl. rewrite Hu by lia. by rewrite Hz.
    + simpl. unfold BitmapAllocator.capacity, BitmapAllocator.BITS_PER_CHUNK, zlen.
      rewrite Hlen, Z2Nat.id by lia. unfold frame_addr, PAGE_SIZE in *. lia.
Qed.

Lemma new_frames_ok_witness :
  ∃ a, PhysicalMemoryAllocator.new (x86 := documented_x86_64) (λ _, 0)
    [{| Bootstrap.start_address := 0x100000; Bootstrap.len_bytes := 0x10000;
        Bootstrap.free := true |}] = Ret a ∧
    ca_used a 0x100 = true ∧ ca_used a 0x101 = false.
Proof.
  destruct (new_frames_ok (x86 := documented_x86_64) (x86_laws := documented_x86_64_laws)
    (λ _, 0) [{| Bootstrap.start_address := 0x100000; Bootstrap.len_bytes := 0x10000;
        Bootstrap.free := true |}]) as (s & n & a & Hpl & Ha & _ & Hu).
  - apply Bootstrap.single_region_ok; [reflexivity| |vm_compute; reflexivity].
    unfold Bootstrap.region_ok, Bootstrap.end_address, PAGE_SIZE. simpl. lia.
  - reflexivity.
  - apply Forall_singleton. vm_compute. discriminate.
  - assert (s = 0x100000 ∧ n = 5) as [-> ->]
      by (revert Hpl; vm_compute; intros [= <- <-]; split; reflexivity).
    exists a. split; [exact Ha|]. rewrite !Hu by lia. split; reflexivity.
Defined.

(** a physical buffer: [allocate_zeroed] never panics; when there is no run
    of free frames long enough it answers [AllocError] and changes nothing;
    otherwise the buffer starts on a page boundary, has at least the requested
    number of bytes, reads as zero, no other memory is written, and dropping it
    gives back exactly the frames it took. *)
Theorem buffer_allocate_drop {x86 : X86_64} {x86_laws : X86_64Laws}
    {A : Type} {CA : ContiguousAllocator A} {CAL : ContiguousAllocatorLaws A}
    (m : store) (a : A) min_bytes :
  frames_ok a → 0 < min_bytes →
  ∃ r m' a', PhysicalBuffer.allocate_zeroed min_bytes (m, Some a) = Ret (r, (m', Some a')) ∧
    frames_ok a' ∧
    match r with
    | Err _ => m' = m ∧ first_fit (ca_used a) (div_ceil min_bytes PAGE_SIZE) None ∧
        ∀ f, 0 ≤ f → ca_used a' f = ca_used a f
    | Ok buf => ∃ len a'', PhysicalBuffer.slice_len buf = Ret len ∧ min_bytes ≤ len ∧
        buf.(start).(start_addr) mod PAGE_SIZE = 0 ∧
        (∀ x, m' x = if (buf.(start).(start_addr) <=? x)
                        && (x <? buf.(start).(start_addr) + len) then 0 else m x) ∧
        PhysicalBuffer.drop buf (m', Some a') = Ret (m', Some a'') ∧ frames_ok a'' ∧
        ∀ f, 0 ≤ f → ca_used a'' f = ca_used a f
    end.
Proof.
  intros Hok Hb. unfold PhysicalBuffer.allocate_zeroed, udiv_ceil. cbn -[div_ceil with_lock].
  pose proof (div_ceil_spec min_bytes PAGE_SIZE ltac:(reflexivity)) as Hd.
  set (n := div_ceil min_bytes PAGE_SIZE) in *.
  assert (Hn : 0 < n) by (unfold PAGE_SIZE in *; lia).
  destruct (allocate_pages_ok a n Hok Hn) as (r & a' & _ & Hok' & Hcap & Hff & Hr).
  unfold with_lock. simpl. destruct r as [f|].
  - destruct Hr as (-> & Hf & Hfc & Hmk). simpl.
    pose proof (fo_capacity a Hok) as Hc.
    unfold frame_addr, KERNEL_PHYSICAL_MAPPING_START, KERNEL_PHYSICAL_MAPPING_END,
      HIGHER_HALF_START, PAGE_SIZE in Hc.
    assert (Hl : num_bytes (mkPageRange (frame_page f) n) = Ret (n * 4096)).
    { apply umul_ok. simpl. lia. }
    rewrite Hl. simpl.
    destruct (free_pages_ok a' f n Hok' Hf Hn) as (a'' & E & Hok'' & _ & Hcl); [lia| |].
    { intros p Hp. rewrite (Hmk p) by lia. rewrite (proj2 (in_block_spec f n p)) by lia.
      apply orb_true_r. }
    eexists _, _, a'. split; [done|]. split; [done|].
    exists (n * 4096), a''. split_and!; [done|unfold PAGE_SIZE in *; lia|apply frame_addr_aligned
      |done|unfold with_lock; simpl; by rewrite E|done|].
    intros p Hp. rewrite (Hcl p Hp), (Hmk p Hp). destruct Hff as (_ & Hrun & _).
    destruct (in_block f n p) eqn:Hin; simpl; [|by rewrite orb_false_r, andb_true_r].
    apply in_block_spec in Hin. by rewrite (Hrun p Hin).
  - destruct Hr as [-> Hr]. simpl. by exists (Err mkAllocError), m, a'.
Qed.

Lemma buffer_allocate_drop_witness :
  ∃ buf m' a', PhysicalBuffer.allocate_zeroed (x86 := documented_x86_64) 5000
      (λ x, x, Some (BitmapAllocator.mk [1] None)) = Ret (Ok buf, (m', Some a')) ∧
    PhysicalBuffer.slice_len buf = Ret 8192 ∧ m' (frame_addr 2) = 0.
Proof.
  destruct (buffer_allocate_drop (x86 := documented_x86_64) (x86_laws := documented_x86_64_laws)
    (λ x, x) (BitmapAllocator.mk [1] None) 5000) as (r & m' & a' & E & _ & Hr); [|lia|].
  - split; [|reflexivity|vm_compute; discriminate].
    split; [repeat constructor; simpl; lia|vm_compute; reflexivity|discriminate].
  - pose proof (f_equal (λ o, match o with Ret (r, _) => Some r | _ => None end) E) as Er.
    vm_compute in Er. injection Er as <-.
    destruct Hr as (len & a'' & Hl & _ & _ & Hm & _).
    eexists _, m', a'. split; [exact E|].
    assert (len = 8192) as -> by (revert Hl; vm_compute; intros [= <-]; reflexivity).
    split; [exact Hl|]. rewrite Hm. reflexivity.
Defined.
