(* ===== verification/PageTable.v ===== *)
(** * kernel/src/memory/page_table.rs: the four-level page table

    Tables live in the word store, 512 entries of 8 bytes each; a table is the
    kernel physical address of its first entry.  [machine] is what the
    operations of [Level4PageTable] change: the word store, the frame allocator
    and the pages whose TLB entries were flushed. *)
From S2P Require Import Prelude AllocSpec External Addr PhysMem.
#[local] Open Scope Z_scope.

Module PageTable.

(** ** Entries *)
Definition PRESENT : Z := 1.
Definition WRITABLE : Z := Z.shiftl 1 1.
Definition USER_ACCESSIBLE : Z := Z.shiftl 1 2.
Definition PAGE_WRITE_THROUGH : Z := Z.shiftl 1 3.
Definition PAGE_CACHE_DISABLE : Z := Z.shiftl 1 4.
Definition ACCESSED : Z := Z.shiftl 1 5.
Definition DIRTY : Z := Z.shiftl 1 6.
Definition HUGE_PAGE : Z := Z.shiftl 1 7.
Definition GLOBAL : Z := Z.shiftl 1 8.
Definition OS_BITS : list Z := [9; 10; 11; 52; 53; 54; 55; 56; 57; 58; 59; 60; 61; 62].
Definition NO_EXECUTE : Z := Z.shiftl 1 63.

(** [PageTableEntryFlags::all()] *)
Definition ALL_FLAGS : Z :=
  foldr Z.lor 0 ([PRESENT; WRITABLE; USER_ACCESSIBLE; PAGE_WRITE_THROUGH; PAGE_CACHE_DISABLE;
    ACCESSED; DIRTY; HUGE_PAGE; GLOBAL] ++ (Z.shiftl 1 <$> OS_BITS) ++ [NO_EXECUTE]).

Inductive PageTableLevel : Type :=
| Level1
| Level2
| Level3
| Level4.

Definition level_num (l : PageTableLevel) : Z :=
  match l with Level1 => 1 | Level2 => 2 | Level3 => 3 | Level4 => 4 end.

Definition next_lower_level (self : PageTableLevel) : option PageTableLevel :=
  match self with
  | Level4 => Some Level3
  | Level3 => Some Level2
  | Level2 => Some Level1
  | Level1 => None
  end.

(** [PageTableTarget<T>]; a table is its address. *)
Inductive PageTableTarget : Type :=
| Unmapped
| TargetPage (page : Page) (flags : Z)
| NextTable (level : PageTableLevel) (table : Z).

Inductive TranslateResult : Type :=
| TranslateUnmapped
| TranslateMapped (page : Page) (flags offset : Z).

Inductive MapTarget : Type :=
| ExistingPhysPage (page : Page)
| NewPhysPage.

Inductive MapError : Type :=
| PhysicalPageAllocationFailed (e : AllocError)
| PageAlreadyMapped (existing_target : Page) (flags : Z).

Inductive UnmapError : Type :=
| UnmapPageNotMapped
| PageWrongSize (expected_size actual_size : PageSize).

Inductive SetFlagsError : Type := SetFlagsPageNotMapped.

Definition NUM_PAGE_TABLE_ENTRIES : Z := 512.
Definition ADDRESS_MASK : Z := 0x000ffffffffff000.

Definition PageTableIndex_new (index : Z) : outcome Z :=
  _ ← assert_ (index <? NUM_PAGE_TABLE_ENTRIES); mret index.

(** [PageTableIndex::from_address] *)
Definition from_address (level : PageTableLevel) (address : Z) : outcome Z :=
  k ← usub (level_num level) 1;
  k ← umul 64 k 9;
  shift ← uadd 64 12 k;
  let mask := 0x1ff in
  PageTableIndex_new (wrap 16 (Z.land (Z.shiftr address shift) mask)).

(** [address_entry] and [address_entry_mut]: where the entry is. *)
Definition address_entry (table : Z) (level : PageTableLevel) (addr : Z) : outcome Z :=
  i ← from_address level addr;
  if i <? NUM_PAGE_TABLE_ENTRIES then mret (table + 8 * i) else Panic PanicIndex.

Definition sign_extend_virtual_address (address : Z) : Z :=
  let SIGN_BIT := 0x0000800000000000 in
  let SIGN_MASK := 0xFFFF800000000000 in
  if Z.land address SIGN_BIT =? 0 then address
  else Z.lor (Z.lor address SIGN_BIT) SIGN_MASK.

Section entry.
Context {x86 : X86_64} {bf : Bitflags}.

Definition page_table_entry_virtual_address (level : PageTableLevel) (index : Z) : outcome Z :=
  k ← usub (level_num level) 1;
  k ← umul 64 k 9;
  shift ← uadd 64 k 12;
  let raw_addr := wrap 64 (Z.shiftl index shift) in
  VirtAddr_new (sign_extend_virtual_address raw_addr).

Definition entry_flags (e : Z) : Z := from_bits_truncate ALL_FLAGS e.
Definition raw_address (e : Z) : Z := Z.land e ADDRESS_MASK.
Definition entry_set_flags (flags e : Z) : Z := Z.lor (raw_address e) flags.

Definition entry_address (e : Z) : outcome Z :=
  phys ← PhysAddr_new (raw_address e);
  KernPhysAddr.from_phys_addr phys.

Definition set_address (addr e : Z) : outcome Z :=
  _ ← assert_ (Z.land addr (unot 64 ADDRESS_MASK) =? 0);
  mret (Z.lor e addr).

Definition is_present (e : Z) : bool := contains (entry_flags e) PRESENT.

Definition target_inner (e : Z) (level : PageTableLevel) : outcome PageTableTarget :=
  if negb (is_present e) then mret Unmapped
  else
    let flags := entry_flags e in
    if contains flags HUGE_PAGE then
      page_size ← match level with
                  | Level4 => Panic PanicExplicit
                  | Level3 => mret Size1GiB
                  | Level2 => mret Size2MiB
                  | Level1 => Panic PanicExplicit
                  end;
      a ← entry_address e;
      page ← from_start_addr a page_size;
      mret (TargetPage page flags)
    else
      match next_lower_level level with
      | None =>
          a ← entry_address e;
          page ← from_start_addr a Size4KiB;
          mret (TargetPage page flags)
      | Some level =>
          a ← entry_address e;
          mret (NextTable level a)
      end.

Definition set_target_page (page : Page) (flags e : Z) : outcome Z :=
  a ← KernPhysAddr.to_phys_addr page.(start_addr);
  e ← set_address a e;
  mret (entry_set_flags (flags_or flags PRESENT) e).

(** ** [Level4PageTable::translate_address] *)
Fixpoint translate_loop (fuel : nat) (m : store) (table : Z) (level : PageTableLevel) (addr : Z)
  : outcome TranslateResult :=
  match fuel with
  | O => Diverge
  | S fuel =>
      ea ← address_entry table level addr;
      target ← target_inner (m ea) level;
      match target with
      | Unmapped => mret TranslateUnmapped
      | TargetPage page flags =>
          offset ← urem addr (size_bytes page.(size));
          mret (TranslateMapped page flags offset)
      | NextTable level table => translate_loop fuel m table level addr
      end
  end.

Definition translate_address (m : store) (self : Z) (addr : Z) : outcome TranslateResult :=
  translate_loop 4 m self Level4 addr.

(** [AddressPageMapping::address] *)
Definition mapping_address (page : Page) (offset : Z) : outcome Z :=
  KernPhysAddr.add page.(start_addr) offset.
End entry.

(** ** Operations that change the table *)
Record machine (A : Type) : Type := mkMachine {
  words : store;
  frames : A;
  flushed : list Z;
}.
Arguments mkMachine {A} words frames flushed.
Arguments words {A} m.
Arguments frames {A} m.
Arguments flushed {A} m.

Section ops.
Context {x86 : X86_64} {bf : Bitflags} {A : Type} {CA : ContiguousAllocator A}.
Implicit Types st : machine A.

Definition write_entry (ea e : Z) st : machine A :=
  mkMachine (store_set st.(words) ea e) st.(frames) st.(flushed).
(** [page.flush()] *)
Definition flush (page : Page) st : machine A :=
  mkMachine st.(words) st.(frames) (st.(flushed) ++ [page.(start_addr)]).

Definition get_target_page (self : MapTarget) (target_page_size : PageSize) st
  : outcome (result Page AllocError * machine A) :=
  match self with
  | ExistingPhysPage page =>
      _ ← assert_ (bool_decide (page.(size) = target_page_size));
      mret (Ok page, st)
  | NewPhysPage =>
      _ ← assert_ (size_bytes target_page_size =? PAGE_SIZE);
      '(r, a) ← PhysicalMemoryAllocator.allocate_page st.(frames);
      mret (r, mkMachine st.(words) a st.(flushed))
  end.

(** The entry at [ea] gets a fresh zeroed table. *)
Definition allocate_and_map_child_table (ea : Z) (flags : Z) st
  : outcome (result Z AllocError * machine A) :=
  '(r, a) ← PhysicalMemoryAllocator.allocate_page st.(frames);
  match r with
  | Err e => mret (Err e, mkMachine st.(words) a st.(flushed))
  | Ok new_table_page =>
      let m := store_zero st.(words) new_table_page.(start_addr)
                 (size_bytes new_table_page.(size)) in
      phys ← KernPhysAddr.to_phys_addr new_table_page.(start_addr);
      e ← set_address phys (m ea);
      let m := store_set m ea (entry_set_flags (flags_or flags PRESENT) e) in
      mret (Ok new_table_page.(start_addr), mkMachine m a st.(flushed))
  end.

Fixpoint map_to_loop (fuel : nat) (table : Z) (level : PageTableLevel) (page : Page)
    (map_target : MapTarget) (flags parent_flags : Z) st
  : outcome (result Page MapError * machine A) :=
  match fuel with
  | O => Diverge
  | S fuel =>
      ea ← address_entry table level page.(start_addr);
      target ← target_inner (st.(words) ea) level;
      match target with
      | Unmapped =>
          match next_lower_level level with
          | None =>
              '(r, st) ← get_target_page map_target page.(size) st;
              match r with
              | Err e => mret (Err (PhysicalPageAllocationFailed e), st)
              | Ok target_page =>
                  e ← set_target_page target_page flags (st.(words) ea);
                  mret (Ok target_page, flush page (write_entry ea e st))
              end
          | Some next_level =>
              '(r, st) ← allocate_and_map_child_table ea parent_flags st;
              match r with
              | Err e => mret (Err (PhysicalPageAllocationFailed e), st)
              | Ok table => map_to_loop fuel table next_level page map_target flags parent_flags st
              end
          end
      | TargetPage page flags => mret (Err (PageAlreadyMapped page flags), st)
      | NextTable level table => map_to_loop fuel table level page map_target flags parent_flags st
      end
  end.

Definition map_to (self : Z) (page : Page) (map_target : MapTarget) (flags : Z) st
  : outcome (result Page MapError * machine A) :=
  let parent_flags := flags_and flags (flags_or (flags_or PRESENT WRITABLE) USER_ACCESSIBLE) in
  map_to_loop 4 self Level4 page map_target flags parent_flags st.

Fixpoint set_flags_loop (fuel : nat) (table : Z) (level : PageTableLevel) (page : Page)
    (flags : Z) st : outcome (result unit SetFlagsError * machine A) :=
  match fuel with
  | O => Diverge
  | S fuel =>
      ea ← address_entry table level page.(start_addr);
      target ← target_inner (st.(words) ea) level;
      match target with
      | Unmapped => mret (Err SetFlagsPageNotMapped, st)
      | TargetPage _ _ =>
          mret (Ok tt, flush page (write_entry ea (entry_set_flags flags (st.(words) ea)) st))
      | NextTable level table => set_flags_loop fuel table level page flags st
      end
  end.

Definition set_flags (self : Z) (page : Page) (flags : Z) st
  : outcome (result unit SetFlagsError * machine A) :=
  set_flags_loop 4 self Level4 page flags st.

Fixpoint unmap_loop (fuel : nat) (table : Z) (level : PageTableLevel) (page : Page)
    (free_physical_page : bool) st : outcome (result Page UnmapError * machine A) :=
  match fuel with
  | O => Diverge
  | S fuel =>
      ea ← address_entry table level page.(start_addr);
      target ← target_inner (st.(words) ea) level;
      match target with
      | Unmapped => mret (Err UnmapPageNotMapped, st)
      | TargetPage target_page _ =>
          if bool_decide (target_page.(size) = page.(size)) then
            let st := flush page (write_entry ea 0 st) in
            if free_physical_page then
              a ← PhysicalMemoryAllocator.free_page target_page st.(frames);
              mret (Ok target_page, mkMachine st.(words) a st.(flushed))
            else mret (Ok target_page, st)
          else mret (Err (PageWrongSize page.(size) target_page.(size)), st)
      | NextTable level table => unmap_loop fuel table level page free_physical_page st
      end
  end.

Definition unmap (self : Z) (page : Page) (free_physical_page : bool) st
  : outcome (result Page UnmapError * machine A) :=
  unmap_loop 4 self Level4 page free_physical_page st.

Definition unmap_lower_half (self : Z) st : machine A :=
  foldl (λ st i, write_entry (self + 8 * i) 0 st) st (range 0 256).

Definition fill_entry (self i : Z) st : outcome (machine A) :=
  let flags := flags_or PRESENT WRITABLE in
  let ea := self + 8 * i in
  target ← target_inner (st.(words) ea) Level4;
  match target with
  | Unmapped =>
      '(r, st) ← allocate_and_map_child_table ea flags st;
      match r with Ok _ => mret st | Err _ => Panic PanicExpect end
  | TargetPage _ _ => Panic PanicExplicit
  | NextTable _ _ => mret (write_entry ea (entry_set_flags flags (st.(words) ea)) st)
  end.

Definition fill_top_half_entries (self : Z) st : outcome (machine A) :=
  foldM (fill_entry self) (range 256 512) st.

(** [allocate_clone]: a fresh page with a copy of the 512 entries. *)
Definition allocate_clone (self : Z) st : outcome (Z * machine A) :=
  '(r, a) ← PhysicalMemoryAllocator.allocate_page st.(frames);
  match r with
  | Err _ => Panic PanicExpect
  | Ok page =>
      let new_table := page.(start_addr) in
      let m := foldl (λ m i, store_set m (new_table + 8 * i) (st.(words) (self + 8 * i)))
                 st.(words) (range 0 NUM_PAGE_TABLE_ENTRIES) in
      mret (new_table, mkMachine m a st.(flushed))
  end.

(** [physical_address] *)
Definition physical_address (self : Z) : outcome Z :=
  a ← KernPhysAddr.new self; KernPhysAddr.to_phys_addr a.
End ops.
#[global] Arguments translate_address : simpl never.
#[global] Arguments map_to : simpl never.
#[global] Arguments unmap : simpl never.
#[global] Arguments set_flags : simpl never.
End PageTable.
