(* ===== verification/PageTableFacts.v ===== *)
(** * The page table as a tree

    The vocabulary of the page-table theorems, and the lemmas on entries,
    indices and walks they share.  A labelling [T] gives every table of a
    four-level tree its level and its virtual prefix; [labelled T st] is the
    well-formedness of the tree in the machine state [st]. *)
From S2P Require Import Prelude AllocSpec External Addr PhysMem PageTable.
#[local] Open Scope Z_scope.
Import PageTable.

(** ** Virtual prefixes

    [vpn k a] drops the page offset and the [k] lowest indices of [a]; a table
    of level [l] serves the addresses that share [vpn (level_num l)]. *)
Definition vpn (k a : Z) : Z := (a mod 2 ^ 48) / 2 ^ (12 + 9 * k).
Definition table_index (l : PageTableLevel) (a : Z) : Z :=
  (a / 2 ^ (12 + 9 * (level_num l - 1))) mod 512.

Definition level_fuel (l : PageTableLevel) : nat := Z.to_nat (level_num l).

(** Two addresses in the same 4 KiB page. *)
Definition same_page (a b : Z) : Prop := vpn 0 a = vpn 0 b.
#[export] Instance same_page_dec a b : Decision (same_page a b).
Proof. unfold same_page. apply _. Defined.

Definition table_map : Type := Z → option (PageTableLevel * Z).

Section spec.
Context {x86 : X86_64} {bf : Bitflags} {A : Type} {CA : ContiguousAllocator A}.

(** A leftover address in an entry that is not present would be mixed into the
    next address written to it, so it must be zero; present entries decode. *)
Definition entry_ok (l : PageTableLevel) (e : Z) : Prop :=
  0 ≤ e < 2 ^ 64 ∧ (is_present e = false → raw_address e = 0) ∧
  is_ret (target_inner e l) = true.

Record labelled (T : table_map) (st : machine A) : Prop := {
  lb_frames : frames_ok st.(frames);
  lb_table t l p : T t = Some (l, p) →
    ∃ f, t = frame_addr f ∧ 0 ≤ f ∧ t ≤ KERNEL_PHYSICAL_MAPPING_END ∧
      ca_used st.(frames) f = true;
  lb_entry t l p i : T t = Some (l, p) → 0 ≤ i < 512 → entry_ok l (st.(words) (t + 8 * i));
  lb_child t l p i l' t' : T t = Some (l, p) → 0 ≤ i < 512 →
    target_inner (st.(words) (t + 8 * i)) l = Ret (NextTable l' t') →
    T t' = Some (l', 512 * p + i);
}.

Definition lookup (m : store) (l : PageTableLevel) (t a : Z) : outcome TranslateResult :=
  translate_loop (level_fuel l) m t l a.

(** A frame that a mapping may target. *)
Definition target_ok (p : Page) : Prop :=
  p.(size) = Size4KiB ∧ KernPhysAddr.in_mapping p.(start_addr) = true ∧
  p.(start_addr) mod 4096 = 0.

Definition map_target_ok (mt : MapTarget) : Prop :=
  match mt with ExistingPhysPage p => target_ok p | NewPhysPage => True end.

(** Flags of a leaf: declared bits only, not the huge-page bit. *)
Definition leaf_flags_ok (flags : Z) : Prop :=
  0 ≤ flags ∧ Z.land flags ALL_FLAGS = flags ∧ Z.land flags HUGE_PAGE = 0.
End spec.

#[global] Arguments lookup : simpl never.

(** ** Index arithmetic *)
Lemma level_num_bound l : 1 ≤ level_num l ≤ 4.
Proof. destruct l; simpl; lia. Qed.

Lemma next_lower_num l l' : next_lower_level l = Some l' → level_num l' = level_num l - 1.
Proof. by destruct l; intros [= <-]. Qed.

Lemma next_lower_fuel l l' : next_lower_level l = Some l' → level_fuel l = S (level_fuel l').
Proof. by destruct l; intros [= <-]. Qed.

Lemma next_lower_none l : next_lower_level l = None → l = Level1.
Proof. by destruct l. Qed.

Lemma level_fuel_pos l : ∃ n, level_fuel l = S n.
Proof. destruct l; eexists; reflexivity. Qed.

Lemma table_index_bound l a : 0 ≤ table_index l a < 512.
Proof. apply Z.mod_pos_bound. lia. Qed.

Lemma mod_div_mod a k n : 0 ≤ k → 0 ≤ n →
  (a mod 2 ^ (k + n)) / 2 ^ k = (a / 2 ^ k) mod 2 ^ n.
Proof.
  intros. apply Z.bits_inj. intros i. destruct (Z.lt_ge_cases i 0).
  { by rewrite !Z.testbit_neg_r by lia. }
  rewrite Z.div_pow2_bits, Z.testbit_mod_pow2, Z.testbit_mod_pow2, Z.div_pow2_bits by lia.
  f_equal. lia.
Qed.

Lemma vpn_spec k a : 0 ≤ k ≤ 4 → vpn k a = (a / 2 ^ (12 + 9 * k)) mod 2 ^ (36 - 9 * k).
Proof.
  intros. unfold vpn. replace 48 with ((12 + 9 * k) + (36 - 9 * k)) by lia.
  rewrite mod_div_mod by lia. done.
Qed.

(** The prefix of the next level is the prefix of this one and the index. *)
Lemma vpn_step l a : vpn (level_num l - 1) a = 512 * vpn (level_num l) a + table_index l a.
Proof.
  pose proof (level_num_bound l). set (k := level_num l - 1).
  rewrite !vpn_spec by lia. unfold table_index. fold k.
  replace (level_num l) with (k + 1) by lia.
  replace (12 + 9 * (k + 1)) with ((12 + 9 * k) + 9) by lia.
  assert (0 ≤ 12 + 9 * k) by lia. generalize dependent (12 + 9 * k). intros s Hs.
  rewrite (Z.pow_add_r 2 s 9) by lia.
  assert (0 < 2 ^ s) by (apply Z.pow_pos_nonneg; lia).
  rewrite <-(Z.div_div a (2 ^ s)) by lia. set (b := a / 2 ^ s).
  replace (36 - 9 * k) with (9 + (36 - 9 * (k + 1))) by lia.
  rewrite Z.pow_add_r by lia. change (2 ^ 9) with 512.
  assert (0 < 2 ^ (36 - 9 * (k + 1))) by (apply Z.pow_pos_nonneg; lia).
  rewrite Z.rem_mul_r by lia. lia.
Qed.

Lemma vpn_root a : vpn 4 a = 0.
Proof. unfold vpn. apply Z.div_small. apply Z.mod_pos_bound. lia. Qed.

Lemma vpn_mono l a b : vpn (level_num l - 1) a = vpn (level_num l - 1) b →
  vpn (level_num l) a = vpn (level_num l) b ∧ table_index l a = table_index l b.
Proof.
  rewrite !vpn_step. pose proof (table_index_bound l a). pose proof (table_index_bound l b). lia.
Qed.

Lemma same_page_table a b l : same_page a b →
  vpn (level_num l) a = vpn (level_num l) b ∧ table_index l a = table_index l b.
Proof.
  unfold same_page. intros H.
  destruct (vpn_mono Level1 a b H) as [H1 I1].
  destruct (vpn_mono Level2 a b H1) as [H2 I2].
  destruct (vpn_mono Level3 a b H2) as [H3 I3].
  destruct (vpn_mono Level4 a b H3) as [H4 I4].
  by destruct l.
Qed.

Lemma from_address_ok l a : from_address l a = Ret (table_index l a).
Proof.
  unfold from_address. pose proof (level_num_bound l).
  rewrite usub_ok by lia. cbn [mbind outcome_bind].
  rewrite umul_ok by lia. cbn [mbind outcome_bind].
  rewrite uadd_ok by lia. cbn [mbind outcome_bind]. cbv zeta.
  rewrite Z.shiftr_div_pow2 by lia. change 0x1ff with (Z.ones 9). rewrite Z.land_ones by lia.
  change (2 ^ 9) with 512. replace ((level_num l - 1) * 9) with (9 * (level_num l - 1)) by lia.
  fold (table_index l a). pose proof (table_index_bound l a).
  unfold wrap. rewrite Z.mod_small by lia. unfold PageTableIndex_new, NUM_PAGE_TABLE_ENTRIES.
  by replace (table_index l a <? 512) with true by lia.
Qed.

Lemma address_entry_ok t l a : address_entry t l a = Ret (t + 8 * table_index l a).
Proof.
  unfold address_entry. rewrite from_address_ok. simpl. unfold NUM_PAGE_TABLE_ENTRIES.
  pose proof (table_index_bound l a). by replace (table_index l a <? 512) with true by lia.
Qed.

(** ** Entries *)
Section entries.
Context {x86 : X86_64} {x86_laws : X86_64Laws} {bf : Bitflags} {bf_laws : BitflagsLaws}.

Lemma masks_disjoint : Z.land ADDRESS_MASK ALL_FLAGS = 0.
Proof. reflexivity. Qed.

Lemma masks_total : Z.lor ADDRESS_MASK ALL_FLAGS = Z.ones 64.
Proof. reflexivity. Qed.

(** An address and flags packed into an entry can both be read back. *)
Lemma pack_address a f : Z.land a ADDRESS_MASK = a → Z.land f ALL_FLAGS = f →
  raw_address (Z.lor a f) = a ∧ entry_flags (Z.lor a f) = f.
Proof.
  intros Ha Hf. unfold raw_address, entry_flags. rewrite from_bits_truncate_ok.
  rewrite !Z.land_lor_distr_l. split.
  - rewrite Ha, <-Hf, <-Z.land_assoc, (Z.land_comm ALL_FLAGS), masks_disjoint.
    by rewrite Z.land_0_r, Z.lor_0_r.
  - rewrite Hf, <-Ha, <-Z.land_assoc, masks_disjoint. by rewrite Z.land_0_r.
Qed.

Lemma raw_address_idem e : Z.land (raw_address e) ADDRESS_MASK = raw_address e.
Proof. unfold raw_address. by rewrite <-Z.land_assoc, Z.land_diag. Qed.

Lemma land_address_mask a : 0 ≤ a < 2 ^ 52 → a mod 4096 = 0 → Z.land a ADDRESS_MASK = a.
Proof.
  intros Ha Hm. change ADDRESS_MASK with (Z.shiftl (Z.ones 40) 12).
  apply Z.bits_inj. intros i. rewrite Z.land_spec.
  destruct (Z.lt_ge_cases i 0). { by rewrite !Z.testbit_neg_r. }
  rewrite Z.shiftl_spec by done. destruct (Z.lt_ge_cases i 12).
  - rewrite (Z.testbit_neg_r _ (i - 12)) by lia. rewrite andb_false_r.
    symmetry. replace a with (a / 4096 * 2 ^ 12).
    + apply Z.mul_pow2_bits_low. lia.
    + change (2 ^ 12) with 4096. pose proof (Z.div_mod a 4096 ltac:(lia)). lia.
  - destruct (Z.lt_ge_cases i 52).
    + rewrite Z.ones_spec_low by lia. apply andb_true_r.
    + by rewrite (testbit_high 52 a i) by (done || lia).
Qed.

Lemma raw_address_range e : 0 ≤ e → 0 ≤ raw_address e < 2 ^ 52 ∧ raw_address e mod 4096 = 0.
Proof.
  intros He. unfold raw_address. change ADDRESS_MASK with (Z.shiftl (Z.ones 40) 12).
  split.
  - rewrite Z.land_comm. apply in_width_land; [|lia]. split; vm_compute; congruence.
  - change 4096 with (2 ^ 12). rewrite <-Z.land_ones by lia.
    rewrite <-Z.land_assoc. change (Z.land (Z.shiftl (Z.ones 40) 12) (Z.ones 12)) with 0.
    apply Z.land_0_r.
Qed.

Lemma contains_bit fl b : contains fl b = true ↔ Z.land fl b = b.
Proof. rewrite contains_ok. apply Z.eqb_eq. Qed.

Lemma kern_addr_range t : KernPhysAddr.in_mapping t = true →
  0 ≤ t - KERNEL_PHYSICAL_MAPPING_START < 2 ^ 52 ∧ 0 ≤ t < 2 ^ 64.
Proof.
  rewrite in_mapping_spec.
  unfold KERNEL_PHYSICAL_MAPPING_START, KERNEL_PHYSICAL_MAPPING_END, HIGHER_HALF_START. lia.
Qed.

(** The entry that [set_address] and [set_flags] build from a clean one. *)
Lemma pack_entry t fl : KernPhysAddr.in_mapping t = true → t mod 4096 = 0 →
  Z.land fl ALL_FLAGS = fl → Z.land fl PRESENT = PRESENT → Z.land fl HUGE_PAGE = 0 →
  let e := Z.lor (t - KERNEL_PHYSICAL_MAPPING_START) fl in
  raw_address e = t - KERNEL_PHYSICAL_MAPPING_START ∧ entry_flags e = fl ∧
  is_present e = true ∧
  ∀ l, target_inner e l = Ret (match next_lower_level l with
                               | None => TargetPage (mkPage t Size4KiB) fl
                               | Some l' => NextTable l' t
                               end).
Proof.
  intros Hm Ha Hf Hp Hh e. destruct (kern_addr_range t Hm) as [H52 H64].
  destruct (pack_address (t - KERNEL_PHYSICAL_MAPPING_START) fl) as [Hr He]; [|done|].
  { apply land_address_mask; [done|]. by apply (kern_aligned t Size4KiB). }
  fold e in Hr, He. split_and!; [done|done| |].
  { unfold is_present. rewrite He. by apply contains_bit. }
  intros l. unfold target_inner, is_present. rewrite He.
  rewrite (proj2 (contains_bit fl PRESENT) Hp). simpl.
  replace (contains fl HUGE_PAGE) with false.
  2: { symmetry. apply not_true_is_false. rewrite contains_bit, Hh. done. }
  assert (Hea : entry_address e = Ret t).
  { unfold entry_address. rewrite Hr, PhysAddr_new_ok by done. simpl.
    apply in_mapping_spec in Hm. rewrite from_phys_addr_ok by lia. f_equal. lia. }
  destruct (next_lower_level l); rewrite Hea; simpl; [done|].
  by rewrite from_start_addr_ok by done.
Qed.

Lemma set_address_ok t e : KernPhysAddr.in_mapping t = true → t mod 4096 = 0 →
  raw_address e = 0 →
  ∃ e', set_address (t - KERNEL_PHYSICAL_MAPPING_START) e = Ret e' ∧
    raw_address e' = t - KERNEL_PHYSICAL_MAPPING_START.
Proof.
  intros Hm Ha He. destruct (kern_addr_range t Hm) as [H52 _].
  set (a := t - KERNEL_PHYSICAL_MAPPING_START) in *.
  assert (Hla : Z.land a ADDRESS_MASK = a).
  { apply land_address_mask; [done|]. by apply (kern_aligned t Size4KiB). }
  assert (Hun : Z.land a (unot 64 ADDRESS_MASK) = 0).
  { rewrite <-Hla, <-Z.land_assoc.
    change (Z.land ADDRESS_MASK (unot 64 ADDRESS_MASK)) with 0. apply Z.land_0_r. }
  unfold set_address. rewrite Hun. simpl. eexists; split; [done|].
  unfold raw_address in *. by rewrite Z.land_lor_distr_l, He, Hla.
Qed.

Lemma leaf_flags_present fl : leaf_flags_ok fl →
  let fl' := Z.lor fl PRESENT in
  in_width 64 fl' ∧ Z.land fl' ALL_FLAGS = fl' ∧ Z.land fl' PRESENT = PRESENT ∧
  Z.land fl' HUGE_PAGE = 0.
Proof.
  intros (H0 & Hf & Hh) fl'. unfold fl'. rewrite !Z.land_lor_distr_l, Hf, Hh.
  assert (in_width 64 fl).
  { rewrite <-Hf, Z.land_comm. apply in_width_land; [|lia]. split; vm_compute; congruence. }
  split_and!; [|done| |done].
  - apply in_width_lor; [done|split; vm_compute; congruence|lia].
  - change (Z.land PRESENT PRESENT) with PRESENT. apply Z.bits_inj. intros i.
    rewrite Z.lor_spec, Z.land_spec. by destruct (Z.testbit fl i), (Z.testbit PRESENT i).
Qed.

(** [set_address] and [set_flags] on a clean entry. *)
Lemma new_entry_ok t fl e : KernPhysAddr.in_mapping t = true → t mod 4096 = 0 →
  leaf_flags_ok fl → raw_address e = 0 →
  ∃ e', (e1 ← set_address (t - KERNEL_PHYSICAL_MAPPING_START) e;
         mret (entry_set_flags (flags_or fl PRESENT) e1)) = Ret e' ∧
    (∀ l, entry_ok l e') ∧
    ∀ l, target_inner e' l = Ret (match next_lower_level l with
                                  | None => TargetPage (mkPage t Size4KiB) (Z.lor fl PRESENT)
                                  | Some l' => NextTable l' t
                                  end).
Proof.
  intros Hm Ha Hfl He. destruct (leaf_flags_present fl Hfl) as (Hw & Hall & Hp & Hh).
  destruct (set_address_ok t e Hm Ha He) as (e1 & -> & Hr1). simpl.
  eexists; split; [done|]. unfold entry_set_flags. rewrite Hr1, flags_or_ok.
  destruct (pack_entry t _ Hm Ha Hall Hp Hh) as (Hr & _ & Hpr & Htg).
  split; [|done]. intros l. split_and!.
  - apply Z.lor_nonneg. destruct (kern_addr_range t Hm). destruct Hw. lia.
  - eapply in_width_lor; [|exact Hw|lia]. destruct (kern_addr_range t Hm). split; lia.
  - by rewrite Hpr.
  - by rewrite Htg.
Qed.

(** What [target_inner] can answer. *)
Lemma target_next e l l' t : target_inner e l = Ret (NextTable l' t) →
  next_lower_level l = Some l' ∧ is_present e = true.
Proof.
  unfold target_inner. destruct (is_present e); simpl; [|done].
  destruct (contains _ HUGE_PAGE).
  - intros H. inv_ret.
  - destruct (next_lower_level l); intros H; inv_ret; done.
Qed.

Lemma target_unmapped e l : target_inner e l = Ret Unmapped → is_present e = false.
Proof.
  unfold target_inner. destruct (is_present e); simpl; [|done].
  destruct (contains _ HUGE_PAGE); [|destruct (next_lower_level l)]; intros H; inv_ret.
Qed.

Lemma target_inner_converges e l : target_inner e l ≠ Diverge.
Proof.
  assert (Hr : 0 ≤ raw_address e < 2 ^ 52 ∧ raw_address e mod 4096 = 0).
  { unfold raw_address. replace (Z.land e ADDRESS_MASK)
      with (raw_address (Z.land e ADDRESS_MASK)) by apply raw_address_idem.
    apply raw_address_range. apply Z.land_nonneg. by right. }
  assert (Ha : (∃ a, entry_address e = Ret a ∧ 0 ≤ a < 2 ^ 64)
               ∨ ∃ w, entry_address e = Panic w).
  { unfold entry_address. rewrite PhysAddr_new_ok by lia. simpl.
    unfold KernPhysAddr.from_phys_addr, uadd. case_match; simpl; [|right; by eexists].
    unfold KernPhysAddr.new.
    destruct (KernPhysAddr.in_mapping _) eqn:E; [left|right; by eexists].
    eexists; split; [done|]. by apply kern_addr_range. }
  assert (Hp : ∀ s, (a ← entry_address e; from_start_addr a s) ≠ Diverge).
  { intros s. destruct Ha as [(a & -> & Hw)|[w ->]]; [|done]. simpl. unfold from_start_addr.
    rewrite is_aligned_ok by done. simpl. by destruct (a mod _ =? 0). }
  unfold target_inner. destruct (is_present e); simpl; [|done].
  destruct (contains _ HUGE_PAGE), l; simpl; try done;
    destruct (entry_address e) as [a|w|]; simpl; try done;
    try (by destruct (Hp Size4KiB)); apply bind_converges; (apply Hp || done).
Qed.

Lemma target_not_present e l : is_present e = false → target_inner e l = Ret Unmapped.
Proof. unfold target_inner. by intros ->. Qed.

Lemma not_present_zero : is_present 0 = false.
Proof. unfold is_present, entry_flags. by rewrite contains_ok, from_bits_truncate_ok. Qed.

Lemma entry_ok_zero l : entry_ok l 0.
Proof.
  split_and!; [lia|lia|done|]. by rewrite target_not_present by apply not_present_zero.
Qed.

(** ** Walks *)
Lemma lookup_unfold m l t a :
  lookup m l t a =
  target ← target_inner (m (t + 8 * table_index l a)) l;
  match target with
  | Unmapped => Ret TranslateUnmapped
  | TargetPage page flags => Ret (TranslateMapped page flags (a mod size_bytes page.(size)))
  | NextTable l' t' => lookup m l' t' a
  end.
Proof.
  unfold lookup. destruct (level_fuel_pos l) as [n Hn]. rewrite Hn. cbn [translate_loop].
  rewrite address_entry_ok. cbn [mbind outcome_bind].
  destruct (target_inner _ l) as [[|p fl|l' t']| |] eqn:E; try done; cbn [mbind outcome_bind].
  - unfold urem. pose proof (size_bytes_pos (size p)).
    by replace (size_bytes (size p) =? 0) with false by lia.
  - apply target_next in E as [E _]. apply next_lower_fuel in E. rewrite E in Hn.
    by injection Hn as ->.
Qed.
End entries.
