(* ===== verification/PageTableThms.v ===== *)
(** * Correctness of the page-table operations

    Each operation is followed down the tree: on a labelled tree it never
    panics and terminates, keeps the tree labelled, and changes the translation
    of exactly the addresses of its page. *)
From S2P Require Import Prelude AllocSpec BitmapAlloc External Addr PhysMem PageTable.
From S2P Require Import PageTableFacts.
#[local] Open Scope Z_scope.
Import PageTable.

Section walks.
Context {x86 : X86_64} {x86_laws : X86_64Laws} {bf : Bitflags} {bf_laws : BitflagsLaws}.
Context {A : Type} {CA : ContiguousAllocator A} {CAL : ContiguousAllocatorLaws A}.
Implicit Types (st : machine A) (T : table_map).

(** Entries of different tables are different words. *)
Lemma entry_addr_inj T st t l p t' l' p' i i' :
  labelled T st → T t = Some (l, p) → T t' = Some (l', p') →
  0 ≤ i < 512 → 0 ≤ i' < 512 → t + 8 * i = t' + 8 * i' → t = t' ∧ i = i'.
Proof.
  intros Hl Ht Ht' Hi Hi' E.
  destruct (lb_table T st Hl _ _ _ Ht) as (f & -> & _).
  destruct (lb_table T st Hl _ _ _ Ht') as (f' & -> & _).
  unfold frame_addr, PAGE_SIZE in *. lia.
Qed.

Lemma labelled_step T st t l a l' t' : labelled T st → T t = Some (l, vpn (level_num l) a) →
  target_inner (st.(words) (t + 8 * table_index l a)) l = Ret (NextTable l' t') →
  T t' = Some (l', vpn (level_num l') a).
Proof.
  intros Hl Ht Hn. pose proof (lb_child T st Hl _ _ _ _ _ _ Ht (table_index_bound l a) Hn) as E.
  apply target_next in Hn as [Hn _]. apply next_lower_num in Hn.
  rewrite Hn, vpn_step. done.
Qed.

(** A walk from a table of the tree ends, without a panic. *)
Lemma lookup_total T st l t a : labelled T st → T t = Some (l, vpn (level_num l) a) →
  ∃ r, lookup st.(words) l t a = Ret r.
Proof.
  intros Hl. remember (level_fuel l) as n eqn:Hn. revert l t Hn.
  induction n as [|n IH]; intros l t Hn Ht.
  { destruct (level_fuel_pos l) as [? ?]. congruence. }
  rewrite lookup_unfold.
  destruct (lb_entry T st Hl _ _ _ _ Ht (table_index_bound l a)) as (_ & _ & Hr).
  destruct (target_inner _ l) as [[|pg fl|l' t']| |] eqn:E; try done; simpl; [by eexists..|].
  apply (IH l'); [|by eapply labelled_step].
  apply target_next in E as [E _]. apply next_lower_fuel in E. congruence.
Qed.

(** If two stores agree on the tree except for one entry, walks that do not use
    the entry agree; walks that do are determined by what happens there. *)
Lemma lookup_agree T st m' t0 l0 p0 i0 a : labelled T st → T t0 = Some (l0, p0) →
  (∀ t l p i, T t = Some (l, p) → 0 ≤ i < 512 → ¬ (t = t0 ∧ i = i0) →
     m' (t + 8 * i) = st.(words) (t + 8 * i)) →
  (vpn (level_num l0) a = p0 → table_index l0 a = i0 →
     lookup m' l0 t0 a = lookup st.(words) l0 t0 a) →
  ∀ l t, T t = Some (l, vpn (level_num l) a) →
    lookup m' l t a = lookup st.(words) l t a.
Proof.
  intros Hl Ht0 Hsame H0 l. remember (level_fuel l) as n eqn:Hn. revert l Hn.
  induction n as [|n IH]; intros l Hn t Ht.
  { destruct (level_fuel_pos l) as [? ?]. congruence. }
  destruct (decide (t = t0 ∧ table_index l a = i0)) as [[-> Hi]|Hne].
  { rewrite Ht0 in Ht. injection Ht as -> Hp. by apply H0. }
  rewrite !lookup_unfold. rewrite (Hsame _ _ _ _ Ht (table_index_bound l a) Hne).
  destruct (target_inner _ l) as [[|pg fl|l' t']| |] eqn:E; try done. simpl.
  apply (IH l'); [|by eapply labelled_step].
  apply target_next in E as [E _]. apply next_lower_fuel in E. congruence.
Qed.

(** Changing a level-1 entry is invisible outside its page. *)
Lemma lookup_other_page T st m' t0 a0 a : labelled T st →
  T t0 = Some (Level1, vpn 1 a0) →
  (∀ t l p i, T t = Some (l, p) → 0 ≤ i < 512 → ¬ (t = t0 ∧ i = table_index Level1 a0) →
     m' (t + 8 * i) = st.(words) (t + 8 * i)) →
  ¬ same_page a a0 → ∀ l t, T t = Some (l, vpn (level_num l) a) →
    lookup m' l t a = lookup st.(words) l t a.
Proof.
  intros Hl Ht0 Hsame Hne. eapply lookup_agree; [done|exact Ht0|exact Hsame|].
  intros Hv Hi. destruct Hne. unfold same_page. change 0 with (level_num Level1 - 1).
  rewrite !vpn_step. simpl in *. congruence.
Qed.

(** The walk of an address depends only on its page, up to the offset. *)
Definition shift_result (a : Z) (r : TranslateResult) : TranslateResult :=
  match r with
  | TranslateUnmapped => TranslateUnmapped
  | TranslateMapped p fl _ => TranslateMapped p fl (a mod size_bytes p.(size))
  end.

Lemma lookup_same_page m l t a b : same_page a b →
  lookup m l t a = r ← lookup m l t b; Ret (shift_result a r).
Proof.
  intros Hs. remember (level_fuel l) as n eqn:Hn. revert l t Hn.
  induction n as [|n IH]; intros l t Hn.
  { destruct (level_fuel_pos l) as [? ?]. congruence. }
  rewrite !lookup_unfold. destruct (same_page_table a b l Hs) as [_ ->].
  destruct (target_inner _ l) as [[|pg fl|l' t']| |] eqn:E; try done. simpl. apply IH.
  apply target_next in E as [E _]. apply next_lower_fuel in E. congruence.
Qed.

(** ** Building blocks of the updates *)

(** A labelled tree stays labelled when the allocator only gains frames. *)
Lemma labelled_frames T st a' : labelled T st → frames_ok a' →
  (∀ f, 0 ≤ f → ca_used st.(frames) f = true → ca_used a' f = true) →
  labelled T (mkMachine st.(words) a' st.(flushed)).
Proof.
  intros [Hf Ht He Hc] Hok Hm. split; simpl; [done| |done|done].
  intros t l p E. destruct (Ht t l p E) as (f & ? & ? & ? & ?). exists f. auto.
Qed.

(** Writing an entry that is well formed and does not create a table. *)
Lemma labelled_write T st t l p i e : labelled T st → T t = Some (l, p) → 0 ≤ i < 512 →
  entry_ok l e →
  (∀ l' t', target_inner e l = Ret (NextTable l' t') → T t' = Some (l', 512 * p + i)) →
  labelled T (write_entry (t + 8 * i) e st).
Proof.
  intros Hl Ht Hi He Hn. pose proof Hl as [Hf Htb Hen Hch].
  assert (Hw : ∀ t' l' p' i', T t' = Some (l', p') → 0 ≤ i' < 512 →
    store_set (words st) (t + 8 * i) e (t' + 8 * i') =
    if decide (t' = t ∧ i' = i) then e else words st (t' + 8 * i')).
  { intros t' l' p' i' Ht' Hi'. unfold store_set. case_decide as E.
    - destruct E as [-> ->]. by rewrite Z.eqb_refl.
    - destruct (Z.eqb_spec (t' + 8 * i') (t + 8 * i)); [|done]. destruct E.
      by eapply (entry_addr_inj T st). }
  split; simpl; [done|done| |].
  - intros t' l' p' i' Ht' Hi'. rewrite (Hw _ _ _ _ Ht' Hi'). case_decide as E; [|by eapply Hen].
    destruct E as [-> ->]. rewrite Ht in Ht'. by injection Ht' as <- _.
  - intros t' l' p' i' l2 t2 Ht' Hi'. rewrite (Hw _ _ _ _ Ht' Hi').
    case_decide as E; [|by apply Hch].
    destruct E as [-> ->]. rewrite Ht in Ht'. injection Ht' as <- <-. apply Hn.
Qed.

Lemma write_entry_other T st t l p i e t' l' p' i' : labelled T st →
  T t = Some (l, p) → 0 ≤ i < 512 → T t' = Some (l', p') → 0 ≤ i' < 512 →
  ¬ (t' = t ∧ i' = i) →
  words (write_entry (t + 8 * i) e st) (t' + 8 * i') = words st (t' + 8 * i').
Proof.
  intros Hl Ht Hi Ht' Hi' Hne. simpl. unfold store_set.
  destruct (Z.eqb_spec (t' + 8 * i') (t + 8 * i)); [|done]. destruct Hne.
  by eapply (entry_addr_inj T st).
Qed.

Lemma labelled_flush T st page : labelled T st → labelled T (flush page st).
Proof. intros [? ? ? ?]. by split. Qed.

(** The tree with one more table. *)
Definition table_insert (t : Z) (x : PageTableLevel * Z) T : table_map :=
  λ t', if t' =? t then Some x else T t'.

Lemma frame_addr_inj f f' : frame_addr f = frame_addr f' → f = f'.
Proof. unfold frame_addr, PAGE_SIZE. lia. Qed.

(** A frame that the allocator had not handed out is not a table. *)
Lemma fresh_frame_far T st f t l p i : labelled T st → 0 ≤ f → ca_used (frames st) f = false →
  T t = Some (l, p) → 0 ≤ i < 512 →
  t + 8 * i < frame_addr f ∨ frame_addr f + 4096 ≤ t + 8 * i.
Proof.
  intros Hl Hf Hu Ht Hi. destruct (lb_table T st Hl _ _ _ Ht) as (f2 & -> & ? & _ & Hu2).
  assert (f2 ≠ f) by congruence. unfold frame_addr, PAGE_SIZE. lia.
Qed.

Lemma fresh_frame_new T st f : labelled T st → 0 ≤ f → ca_used (frames st) f = false →
  T (frame_addr f) = None.
Proof.
  intros Hl Hf Hu. destruct (T (frame_addr f)) as [[l p]|] eqn:E; [|done].
  destruct (fresh_frame_far T st f _ _ _ 0 Hl Hf Hu E); lia.
Qed.

(** The tree after a fresh zeroed table was linked below an entry. *)
Lemma labelled_insert T st t l p i l' f m2 a' : labelled T st → T t = Some (l, p) →
  0 ≤ i < 512 → frames_ok a' → 0 ≤ f → frame_addr f ≤ KERNEL_PHYSICAL_MAPPING_END →
  ca_used (frames st) f = false →
  (∀ f', 0 ≤ f' → ca_used a' f' = ca_used (frames st) f' || bool_decide (f' = f)) →
  (∀ t2 l2 p2 i2, T t2 = Some (l2, p2) → 0 ≤ i2 < 512 → ¬ (t2 = t ∧ i2 = i) →
     m2 (t2 + 8 * i2) = words st (t2 + 8 * i2)) →
  (∀ i2, 0 ≤ i2 < 512 → m2 (frame_addr f + 8 * i2) = 0) →
  entry_ok l (m2 (t + 8 * i)) →
  target_inner (m2 (t + 8 * i)) l = Ret (NextTable l' (frame_addr f)) →
  labelled (table_insert (frame_addr f) (l', 512 * p + i) T) (mkMachine m2 a' (flushed st)).
Proof.
  intros Hl Ht Hi Hok' Hf Hend Hfree Hused Hm2 Hz Heok Htg.
  pose proof (fresh_frame_new T st f Hl Hf Hfree) as Hnew. pose proof Hl as [Hfr Htb Hen Hch].
  set (t' := frame_addr f) in *.
  assert (Hother : ∀ t2 x, T t2 = Some x → (t2 =? t') = false).
  { intros t2 x Ht2. apply Z.eqb_neq. intros ->. congruence. }
  split; cbn [frames words flushed]; unfold table_insert.
  - done.
  - intros t2 l2 p2. destruct (Z.eqb_spec t2 t') as [->|].
    + intros _. exists f. split_and!; [done..|].
      rewrite Hused by lia. rewrite bool_decide_eq_true_2 by done. apply orb_true_r.
    + intros Ht2. destruct (Htb _ _ _ Ht2) as (f2 & ? & ? & ? & Hu). exists f2.
      split_and!; [done..|]. by rewrite Hused, Hu.
  - intros t2 l2 p2 i2. destruct (Z.eqb_spec t2 t') as [->|].
    + intros [= <- <-] Hi2. rewrite Hz by done. apply entry_ok_zero.
    + intros Ht2 Hi2. destruct (decide (t2 = t ∧ i2 = i)) as [[-> ->]|Hne].
      * rewrite Ht in Ht2. by injection Ht2 as <- _.
      * rewrite (Hm2 _ _ _ _ Ht2 Hi2 Hne). by eapply Hen.
  - intros t2 l2 p2 i2 l3 t3. destruct (Z.eqb_spec t2 t') as [->|].
    + intros _ Hi2. rewrite Hz by done. rewrite target_not_present; [done|].
      apply not_present_zero.
    + intros Ht2 Hi2. destruct (decide (t2 = t ∧ i2 = i)) as [[-> ->]|Hne].
      * rewrite Ht in Ht2. injection Ht2 as <- <-. rewrite Htg. intros [= <- <-].
        by rewrite Z.eqb_refl.
      * rewrite (Hm2 _ _ _ _ Ht2 Hi2 Hne). intros Hn.
        pose proof (Hch _ _ _ _ _ _ Ht2 Hi2 Hn) as Hc. by rewrite (Hother _ _ Hc).
Qed.

(** ** Counting free frames *)
Definition free_frames (a : A) : nat :=
  length (filter (λ f, ca_used a f = false) (range 0 (ca_capacity a))).

Lemma free_frames_exhausted a : (∀ f, 0 ≤ f → ca_used a f = true) → free_frames a = 0%nat.
Proof.
  intros H. unfold free_frames. rewrite filter_none; [done|]. intros f Hf.
  apply elem_of_range in Hf. rewrite H by lia. done.
Qed.

Lemma free_frames_take a a' f : ca_capacity a' = ca_capacity a → 0 ≤ f < ca_capacity a →
  ca_used a f = false →
  (∀ p, 0 ≤ p → ca_used a' p = ca_used a p || bool_decide (p = f)) →
  free_frames a = S (free_frames a').
Proof.
  intros Hcap Hf Hu Hus. unfold free_frames. rewrite Hcap.
  rewrite (range_app 0 f (ca_capacity a)), (range_cons f) by lia.
  rewrite !filter_app, !length_app, !filter_cons.
  rewrite decide_True by done. rewrite decide_False.
  2: { rewrite Hus, bool_decide_eq_true_2, orb_true_r by lia. done. }
  assert (Hsame : ∀ l, Forall (λ p, 0 ≤ p ∧ p ≠ f) l →
    filter (λ p, ca_used a' p = false) l = filter (λ p, ca_used a p = false) l).
  { intros l Hl. apply filter_ext_in. intros p Hp.
    rewrite Forall_forall in Hl. destruct (Hl p Hp) as [H0 Hne].
    rewrite Hus, bool_decide_eq_false_2, orb_false_r by done. done. }
  rewrite !Hsame; [simpl; lia|..]; apply Forall_forall; intros p Hp;
    apply elem_of_range in Hp; lia.
Qed.

Lemma free_frames_same a a' : ca_capacity a' = ca_capacity a → (∀ p, 0 ≤ p → ca_used a' p = ca_used a p) →
  free_frames a' = free_frames a.
Proof.
  intros Hcap Hus. unfold free_frames. rewrite Hcap. f_equal. apply filter_ext_in. intros p Hp.
  apply elem_of_range in Hp. by rewrite Hus by lia.
Qed.

(** Allocating a page takes at most one of them. *)
Lemma free_frames_alloc a a' : ca_capacity a' = ca_capacity a →
  (∀ p, 0 ≤ p → ca_used a' p = ca_used a p) ∨
  (∃ f, 0 ≤ f < ca_capacity a ∧ ca_used a f = false ∧ ∀ p, 0 ≤ p → ca_used a' p = ca_used a p || bool_decide (p = f)) →
  Z.of_nat (free_frames a) ≤ 1 + Z.of_nat (free_frames a').
Proof.
  intros Hcap [Hs|(f & Hf & Hu & Hus)].
  - rewrite (free_frames_same a a') by done. lia.
  - rewrite (free_frames_take a a' f) by done. lia.
Qed.

(** The memory in use that holds no table is left alone. *)
Definition keeps_data T st st' : Prop := ∀ f y, 0 ≤ f → ca_used (frames st) f = true →
  T (frame_addr f) = None → 0 ≤ y < 4096 → words st' (frame_addr f + y) = words st (frame_addr f + y).

Lemma entry_not_data T st t l p i f y : labelled T st → T t = Some (l, p) → 0 ≤ i < 512 →
  T (frame_addr f) = None → 0 ≤ y < 4096 → frame_addr f + y ≠ t + 8 * i.
Proof.
  intros Hl Ht Hi Hn Hy. destruct (lb_table T st Hl _ _ _ Ht) as (f' & -> & _).
  assert (f' ≠ f) by congruence. unfold frame_addr, PAGE_SIZE. lia.
Qed.

Lemma link_child_ok T st t l p i l' fl : labelled T st → T t = Some (l, p) → 0 ≤ i < 512 →
  next_lower_level l = Some l' → is_present (words st (t + 8 * i)) = false →
  leaf_flags_ok fl →
  ∃ r st', allocate_and_map_child_table (t + 8 * i) fl st = Ret (r, st') ∧
    ca_capacity (frames st') = ca_capacity (frames st) ∧
    (∀ f, 0 ≤ f → ca_used (frames st) f = true → ca_used (frames st') f = true) ∧
    flushed st' = flushed st ∧ keeps_data T st st' ∧
    match r with
    | Err _ => labelled T st' ∧ words st' = words st ∧
        ∀ f, 0 ≤ f → ca_used (frames st) f = true
    | Ok t' =>
        labelled (table_insert t' (l', 512 * p + i) T) st' ∧ T t' = None ∧
        (∀ t2 l2 p2 i2, T t2 = Some (l2, p2) → 0 ≤ i2 < 512 → ¬ (t2 = t ∧ i2 = i) →
           words st' (t2 + 8 * i2) = words st (t2 + 8 * i2)) ∧
        target_inner (words st' (t + 8 * i)) l = Ret (NextTable l' t') ∧
        (∀ i2, 0 ≤ i2 < 512 → words st' (t' + 8 * i2) = 0) ∧
        ∃ f, t' = frame_addr f ∧ 0 ≤ f < ca_capacity (frames st) ∧
          ca_used (frames st) f = false ∧
          ∀ p, 0 ≤ p → ca_used (frames st') p = ca_used (frames st) p || bool_decide (p = f)
    end.
Proof.
  intros Hl Ht Hi Hlow Hnp Hfl. pose proof Hl as [Hfr _ Hen _].
  destruct (allocate_page_ok (frames st) Hfr) as (r & a' & E & Hok' & Hcap & Hr).
  unfold allocate_and_map_child_table. rewrite E. cbn [mbind outcome_bind].
  destruct r as [pg|e].
  2: { destruct Hr as [Hall Hsame]. exists (Err e), (mkMachine (words st) a' (flushed st)).
       split_and!; [done|done|by intros; simpl; rewrite Hsame|done|done| |done|done].
       apply labelled_frames; [done..|]. intros. by rewrite Hsame. }
  destruct Hr as (f & -> & Hf & Hfree & _ & Hused). simpl start_addr. simpl size.
  assert (Hm : KernPhysAddr.in_mapping (frame_addr f) = true)
    by (eapply frame_in_mapping; [exact Hfr|lia]).
  pose proof (frame_addr_aligned f) as Hal.
  pose proof (λ t l p i, fresh_frame_far T st f t l p i Hl ltac:(lia) Hfree) as Hfar.
  rewrite to_phys_addr_ok by done. cbn [mbind outcome_bind size_bytes].
  set (m1 := store_zero (words st) (frame_addr f) 4096).
  assert (Hm1 : ∀ t2 l2 p2 i2, T t2 = Some (l2, p2) → 0 ≤ i2 < 512 →
    m1 (t2 + 8 * i2) = words st (t2 + 8 * i2)).
  { intros t2 l2 p2 i2 Ht2 Hi2. by eapply store_zero_out, Hfar. }
  destruct (Hen _ _ _ _ Ht Hi) as (_ & Hclean & _).
  destruct (new_entry_ok (frame_addr f) fl (m1 (t + 8 * i))) as (e' & He' & Heok & Htg);
    [done..|rewrite (Hm1 _ _ _ _ Ht Hi); by apply Hclean|].
  apply bind_ret_inv in He' as (e1 & -> & [= <-]). cbn [mbind outcome_bind].
  eexists (Ok (frame_addr f)), _. split; [done|]. cbn [frames words flushed].
  set (e' := entry_set_flags _ e1) in *. set (m2 := store_set m1 (t + 8 * i) e').
  assert (Hm2 : ∀ t2 l2 p2 i2, T t2 = Some (l2, p2) → 0 ≤ i2 < 512 → ¬ (t2 = t ∧ i2 = i) →
    m2 (t2 + 8 * i2) = words st (t2 + 8 * i2)).
  { intros t2 l2 p2 i2 Ht2 Hi2 Hne. unfold m2. rewrite store_set_ne; [by eapply Hm1|].
    intros Heq. destruct Hne. by eapply (entry_addr_inj T st). }
  assert (Hz : ∀ i2, 0 ≤ i2 < 512 → m2 (frame_addr f + 8 * i2) = 0).
  { intros i2 Hi2. unfold m2. rewrite store_set_ne; [apply store_zero_in; lia|].
    destruct (Hfar _ _ _ _ Ht Hi); lia. }
  assert (He : m2 (t + 8 * i) = e') by apply store_set_eq.
  assert (Hnext : target_inner (m2 (t + 8 * i)) l = Ret (NextTable l' (frame_addr f)))
    by (by rewrite He, Htg, Hlow).
  split_and!; [done|intros f' ? Hu; by rewrite Hused, Hu|done| | | |done|done|done|].
  - intros f' y Hf' Hu Hn Hy. simpl. unfold m2. rewrite store_set_ne by (by eapply entry_not_data).
    apply store_zero_out. assert (f' ≠ f) by congruence. unfold frame_addr, PAGE_SIZE. lia.
  - apply in_mapping_spec in Hm.
    eapply labelled_insert; [done..|lia|lia|done|done|done|done|rewrite He; apply Heok|done].
  - eapply fresh_frame_new; [done|lia|done].
  - exists f. split_and!; [done|lia|lia|done|done].
Qed.

(** Linking an empty table below an unmapped entry changes no translation. *)
Lemma lookup_link T st m' t l p i l' t' : labelled T st → T t = Some (l, p) → 0 ≤ i < 512 →
  is_present (words st (t + 8 * i)) = false →
  (∀ t2 l2 p2 i2, T t2 = Some (l2, p2) → 0 ≤ i2 < 512 → ¬ (t2 = t ∧ i2 = i) →
     m' (t2 + 8 * i2) = words st (t2 + 8 * i2)) →
  target_inner (m' (t + 8 * i)) l = Ret (NextTable l' t') →
  (∀ i2, 0 ≤ i2 < 512 → m' (t' + 8 * i2) = 0) →
  ∀ a l2 t2, T t2 = Some (l2, vpn (level_num l2) a) →
    lookup m' l2 t2 a = lookup (words st) l2 t2 a.
Proof.
  intros Hl Ht Hi Hnp Hm' Hn Hz a. eapply lookup_agree; [done|exact Ht|exact Hm'|].
  intros _ Hidx. rewrite (lookup_unfold m'), (lookup_unfold (words st)), Hidx, Hn. simpl.
  rewrite (target_not_present _ l) by done. simpl.
  rewrite lookup_unfold, Hz by apply table_index_bound.
  by rewrite target_not_present by apply not_present_zero.
Qed.

Definition extends T T' : Prop := ∀ t x, T t = Some x → T' t = Some x.

(** What an update leaves alone: the tables, the frames in use (those that are
    not tables do not become tables), the entries of the levels above [l] and the
    memory in use; it takes at most one frame for each level. *)
Record update_frame (l : PageTableLevel) T T' st st' : Prop := {
  uf_labelled : labelled T' st';
  uf_extends : extends T T';
  uf_capacity : ca_capacity (frames st') = ca_capacity (frames st);
  uf_used f : 0 ≤ f → ca_used (frames st) f = true → ca_used (frames st') f = true;
  uf_new f : 0 ≤ f → ca_used (frames st) f = true → T (frame_addr f) = None →
    T' (frame_addr f) = None;
  uf_above t l' p i : T t = Some (l', p) → level_num l < level_num l' → 0 ≤ i < 512 →
    words st' (t + 8 * i) = words st (t + 8 * i);
  uf_data : keeps_data T st st';
  uf_free : Z.of_nat (free_frames (frames st)) ≤ level_num l + Z.of_nat (free_frames (frames st'));
}.

(** The page a successful [map_to] targets. *)
Definition mapped_target T' (mt : MapTarget) st st' (tp : Page) : Prop :=
  match mt with
  | ExistingPhysPage p => tp = p
  | NewPhysPage => ∃ f, tp = frame_page f ∧ 0 < f < ca_capacity (frames st) ∧
      ca_used (frames st) f = false ∧ ca_used (frames st') f = true ∧
      T' (frame_addr f) = None
  end.

Definition map_post T T' st st' l t va mt fl (r : result Page MapError) : Prop :=
  match r with
  | Ok tp =>
      lookup (words st) l t va = Ret TranslateUnmapped ∧ mapped_target T' mt st st' tp ∧
      flushed st' = flushed st ++ [va] ∧
      lookup (words st') l t va = Ret (TranslateMapped tp (Z.lor fl PRESENT) (va mod 4096)) ∧
      ∀ a l2 t2, T t2 = Some (l2, vpn (level_num l2) a) → ¬ same_page a va →
        lookup (words st') l2 t2 a = lookup (words st) l2 t2 a
  | Err (PageAlreadyMapped p f) =>
      st' = st ∧
      lookup (words st) l t va = Ret (TranslateMapped p f (va mod size_bytes p.(size)))
  | Err (PhysicalPageAllocationFailed _) =>
      free_frames (frames st') = 0%nat ∧ flushed st' = flushed st ∧
      ∀ a l2 t2, T t2 = Some (l2, vpn (level_num l2) a) →
        lookup (words st') l2 t2 a = lookup (words st) l2 t2 a
  end.

Lemma get_target_page_ok T st mt : labelled T st → map_target_ok mt →
  ∃ r st', get_target_page mt Size4KiB st = Ret (r, st') ∧ words st' = words st ∧
    flushed st' = flushed st ∧ update_frame Level1 T T st st' ∧
    match r with
    | Ok tp => target_ok tp ∧ mapped_target T mt st st' tp
    | Err _ => free_frames (frames st') = 0%nat
    end.
Proof.
  intros Hl Hmt. destruct mt as [p|].
  - exists (Ok p), st. simpl. destruct Hmt as (Hs & Hm & Ha).
    rewrite Hs, bool_decide_eq_true_2 by done.
    do 3 (split; [done|]). split; [split; auto; [by intros ??|by intros ?*|simpl; lia]|]. by split_and!.
  - destruct (allocate_page_ok (frames st) (lb_frames T st Hl))
      as (r & a' & E & Hok & Hcap & Hr).
    unfold get_target_page. simpl. rewrite E. simpl.
    exists r, (mkMachine (words st) a' (flushed st)). split_and!; [done..| |].
    + assert (Hmono : ∀ f, 0 ≤ f → ca_used (frames st) f = true → ca_used a' f = true).
      { destruct r as [pg|e].
        - destruct Hr as (f0 & _ & _ & _ & _ & Hu). intros f Hf Huf. by rewrite Hu, Huf.
        - destruct Hr as [_ Hu]. intros f Hf Huf. by rewrite Hu. }
      split; simpl; [by apply labelled_frames|by intros ??|done|done|done|done|done|].
      apply free_frames_alloc; [done|]. destruct r as [pg|e]; [right|left; apply Hr].
      destruct Hr as (f0 & _ & Hf0 & Hfr & _ & Hu). exists f0. split_and!; [lia|lia|done|done].
    + destruct r as [pg|e].
      2: { destruct Hr as [Hall Hu]. apply free_frames_exhausted. intros f Hf. simpl. by rewrite Hu, Hall. }
      destruct Hr as (f & -> & Hf & Hfree & _ & Hu).
      split; [split_and!; [done| |apply frame_addr_aligned]|].
      * eapply frame_in_mapping; [apply (lb_frames T st Hl)|lia].
      * exists f. split_and!; [done|lia|lia|done| |by eapply fresh_frame_new; [|lia|]].
        simpl. rewrite Hu by lia. rewrite bool_decide_eq_true_2 by done. apply orb_true_r.
Qed.

(** The last step of [map_to]: a free level-1 entry gets its page. *)
Lemma map_leaf_ok T st t va mt fl : labelled T st → T t = Some (Level1, vpn 1 va) →
  map_target_ok mt → leaf_flags_ok fl →
  is_present (words st (t + 8 * table_index Level1 va)) = false →
  ∃ r st', ('(r, st1) ← get_target_page mt Size4KiB st;
      match r with
      | Err e => mret (Err (PhysicalPageAllocationFailed e), st1)
      | Ok tp =>
          e ← set_target_page tp fl (words st1 (t + 8 * table_index Level1 va));
          mret (Ok tp, flush (mkPage va Size4KiB)
                         (write_entry (t + 8 * table_index Level1 va) e st1))
      end) = Ret (r, st') ∧
    update_frame Level1 T T st st' ∧ map_post T T st st' Level1 t va mt fl r.
Proof.
  intros Hl Ht Hmt Hfl Hnp. pose proof (table_index_bound Level1 va) as Hi.
  destruct (get_target_page_ok T st mt Hl Hmt) as (r & st1 & -> & Hw & Hfs & Huf & Hr).
  destruct Huf as [Hl1 _ Hcap Hused _ _ _ Hfree]. simpl. destruct r as [tp|e].
  2: { eexists _, st1. split; [done|]. split; [split; auto; [by intros ??|congruence|by intros ?*; rewrite Hw]|].
       simpl. by rewrite Hw. }
  destruct Hr as ((Hs & Hm & Ha) & Htgt). unfold set_target_page.
  rewrite to_phys_addr_ok by done. cbn [mbind outcome_bind]. rewrite Hw.
  destruct (lb_entry T st Hl _ _ _ _ Ht Hi) as (_ & Hclean & _).
  destruct (new_entry_ok tp.(start_addr) fl (words st (t + 8 * table_index Level1 va)))
    as (e' & He' & Heok & Htg); [done..|by apply Hclean|].
  rewrite He'. cbn [mbind outcome_bind].
  specialize (Htg Level1). simpl in Htg.
  replace (mkPage (start_addr tp) Size4KiB) with tp in Htg by (destruct tp; by simpl in *; subst).
  eexists _, _. split; [done|]. split; [split|].
  - apply labelled_flush. eapply labelled_write; [done..|by rewrite Htg].
  - by intros ??.
  - done.
  - done.
  - done.
  - intros t' l' p' i' Ht' Hlt Hi'. rewrite <-Hw. eapply write_entry_other; [done..|].
    intros [-> _]. rewrite Ht in Ht'. injection Ht' as <- _. lia.
  - intros f y Hf Hu Hn Hy. simpl. rewrite store_set_ne by (by eapply entry_not_data). by rewrite Hw.
  - exact Hfree.
  - unfold map_post. simpl. rewrite Hfs. split_and!; [|done|done| |].
    + rewrite lookup_unfold. by rewrite (target_not_present _ Level1).
    + rewrite lookup_unfold, store_set_eq, Htg. simpl. by rewrite Hs.
    + intros a l2 t2 Ht2 Hne. rewrite <-Hw.
      eapply (lookup_other_page T st1); [done|done| |done|done].
      intros t' l' p' i' Ht' Hi' Hne'. by eapply (write_entry_other T st1).
Qed.

(** Below a link that the update leaves alone, walks start at the child. *)
Lemma lookup_down m l t l' t' a :
  target_inner (m (t + 8 * table_index l a)) l = Ret (NextTable l' t') →
  lookup m l t a = lookup m l' t' a.
Proof. intros H. by rewrite lookup_unfold, H. Qed.

Lemma map_post_down T T' st st' l t l' t' va mt fl r :
  update_frame l' T T' st st' → T t = Some (l, vpn (level_num l) va) →
  target_inner (words st (t + 8 * table_index l va)) l = Ret (NextTable l' t') →
  map_post T T' st st' l' t' va mt fl r →
  update_frame l T T' st st' ∧ map_post T T' st st' l t va mt fl r.
Proof.
  intros [Hlb Hex Hcap Hus Hnt Hab Hda Hfr] Ht Hn Hpost.
  assert (Hlow : level_num l' < level_num l).
  { apply target_next in Hn as [Hn _]. apply next_lower_num in Hn. lia. }
  assert (Hn' : target_inner (words st' (t + 8 * table_index l va)) l = Ret (NextTable l' t'))
    by (by rewrite (Hab _ _ _ _ Ht Hlow (table_index_bound l va))).
  split; [split; auto; [intros; eapply Hab; [done|lia|done]|lia]|].
  destruct r as [tp|[e|p f]]; simpl in *; [|done|].
  - by rewrite (lookup_down _ _ _ _ _ _ Hn), (lookup_down _ _ _ _ _ _ Hn').
  - by rewrite (lookup_down _ _ _ _ _ _ Hn).
Qed.

(** A step down a link that was just created. *)
Lemma map_post_link T T2 st st1 st2 l t l' t' va mt fl r :
  labelled T st → T t = Some (l, vpn (level_num l) va) → T t' = None →
  next_lower_level l = Some l' →
  is_present (words st (t + 8 * table_index l va)) = false →
  (∀ t2 l2 p2 i2, T t2 = Some (l2, p2) → 0 ≤ i2 < 512 →
     ¬ (t2 = t ∧ i2 = table_index l va) → words st1 (t2 + 8 * i2) = words st (t2 + 8 * i2)) →
  target_inner (words st1 (t + 8 * table_index l va)) l = Ret (NextTable l' t') →
  (∀ i2, 0 ≤ i2 < 512 → words st1 (t' + 8 * i2) = 0) →
  ca_capacity (frames st1) = ca_capacity (frames st) →
  (∀ f, 0 ≤ f → ca_used (frames st) f = true → ca_used (frames st1) f = true) →
  flushed st1 = flushed st → keeps_data T st st1 →
  Z.of_nat (free_frames (frames st)) ≤ 1 + Z.of_nat (free_frames (frames st1)) →
  (∀ f, 0 ≤ f → ca_used (frames st) f = true → t' ≠ frame_addr f) →
  let T1 := table_insert t' (l', vpn (level_num l') va) T in
  update_frame l' T1 T2 st1 st2 → map_post T1 T2 st1 st2 l' t' va mt fl r →
  update_frame l T T2 st st2 ∧ map_post T T2 st st2 l t va mt fl r.
Proof.
  intros Hl Ht Hnew Hlow Hnp Hsame Hn Hz Hcap Hus Hfs Hda Hfr Hfresh T1
    [Hlb2 Hex2 Hcap2 Hus2 Hnt2 Hab2 Hda2 Hfr2] Hpost.
  assert (Hex : extends T T1).
  { intros t2 x Ht2. unfold T1, table_insert. destruct (Z.eqb_spec t2 t') as [->|]; congruence. }
  apply next_lower_num in Hlow as Hnum. pose proof (table_index_bound l va) as Hi.
  pose proof (lookup_link T st (words st1) _ _ _ _ _ _ Hl Ht Hi Hnp Hsame Hn Hz) as Hlink.
  assert (Hempty : lookup (words st1) l' t' va = Ret TranslateUnmapped).
  { rewrite lookup_unfold, Hz by apply table_index_bound.
    by rewrite target_not_present by apply not_present_zero. }
  assert (Hn2 : target_inner (words st2 (t + 8 * table_index l va)) l = Ret (NextTable l' t'))
    by (by rewrite (Hab2 _ l _ _ (Hex _ _ Ht)) by (done || lia)).
  split.
  { assert (HT1 : ∀ f, 0 ≤ f → ca_used (frames st) f = true → T (frame_addr f) = None → T1 (frame_addr f) = None).
    { intros f Hf Hu Htf. unfold T1, table_insert.
      destruct (Z.eqb_spec (frame_addr f) t'); [|done]. by destruct (Hfresh f Hf Hu). }
    split; [done|intros ? ? ?; by apply Hex2, Hex|congruence|auto|auto| | |lia].
    2: { intros f y Hf Hu Htf Hy. rewrite Hda2 by auto. by apply Hda. }
    intros t2 l2 p2 i2 Ht2 Hlt Hi2. rewrite (Hab2 _ l2 p2 _ (Hex _ _ Ht2)) by (done || lia).
    eapply Hsame; [done..|]. intros [-> _]. rewrite Ht in Ht2. injection Ht2 as <- _. lia. }
  destruct r as [tp|[e|p f]]; simpl in *.
  - destruct Hpost as (_ & Htg & Hf2 & Hmap & Hoth). split_and!; [| | | |].
    + rewrite lookup_unfold. by rewrite (target_not_present _ l).
    + destruct mt; [done|]. destruct Htg as (f & -> & Hf & Hfree & Hu & Hnt). exists f.
      split_and!; [done|lia|lia| |done|done]. apply not_true_is_false. intros Hu0.
      rewrite Hus in Hfree; [done|lia|done].
    + by rewrite Hf2, Hfs.
    + by rewrite (lookup_down _ _ _ _ _ _ Hn2).
    + intros a l2 t2 Ht2 Hne. rewrite Hoth by auto. by apply Hlink.
  - destruct Hpost as (Hno & Hf2 & Hoth). split_and!; [done|congruence|].
    intros a l2 t2 Ht2. rewrite Hoth by auto. by apply Hlink.
  - destruct Hpost as [_ Hp]. congruence.
Qed.

Lemma parent_flags_ok fl : leaf_flags_ok fl → leaf_flags_ok
  (flags_and fl (flags_or (flags_or PRESENT WRITABLE) USER_ACCESSIBLE)).
Proof.
  intros (H0 & _ & _). rewrite flags_and_ok, !flags_or_ok. split_and!.
  - apply Z.land_nonneg. by left.
  - by rewrite <-Z.land_assoc.
  - rewrite <-Z.land_assoc. apply Z.land_0_r.
Qed.

Lemma map_to_loop_ok T st l t va mt fl pfl : labelled T st →
  T t = Some (l, vpn (level_num l) va) → map_target_ok mt → leaf_flags_ok fl →
  leaf_flags_ok pfl →
  ∃ r st' T', map_to_loop (level_fuel l) t l (mkPage va Size4KiB) mt fl pfl st = Ret (r, st') ∧
    update_frame l T T' st st' ∧ map_post T T' st st' l t va mt fl r.
Proof.
  intros Hl Ht Hmt Hfl Hpfl. remember (level_fuel l) as n eqn:Hn.
  revert T st l t Hn Hl Ht. induction n as [|n IH]; intros T st l t Hn Hl Ht.
  { destruct (level_fuel_pos l) as [? ?]. congruence. }
  cbn [map_to_loop]. simpl start_addr. rewrite address_entry_ok. cbn [mbind outcome_bind].
  pose proof (table_index_bound l va) as Hi.
  destruct (lb_entry T st Hl _ _ _ _ Ht Hi) as (_ & _ & Hret).
  destruct (target_inner _ l) as [[|pg f|l' t']| |] eqn:E; try done; cbn [mbind outcome_bind].
  - apply target_unmapped in E as Hnp. destruct (next_lower_level l) as [l'|] eqn:El.
    + destruct (link_child_ok T st t l _ _ l' pfl Hl Ht Hi El Hnp Hpfl)
        as (r & st1 & -> & Hcap & Hus & Hfs & Hda & Hr). cbn [mbind outcome_bind].
      destruct r as [t'|e].
      * destruct Hr as (Hl1 & Hnew & Hsame & Hnx & Hz & f & -> & Hf & Hfree & Hused).
        rewrite <-vpn_step, <-(next_lower_num _ _ El) in Hl1.
        destruct (IH (table_insert (frame_addr f) (l', vpn (level_num l') va) T) st1 l'
          (frame_addr f))
          as (r & st2 & T2 & -> & Hu2 & Hp2); [|exact Hl1| |].
        { apply next_lower_fuel in El. congruence. }
        { unfold table_insert. by rewrite Z.eqb_refl. }
        exists r, st2, T2. split; [done|]. eapply map_post_link; [done..| | |done|done].
        { apply free_frames_alloc; [done|]. right. by exists f. }
        intros f' _ Hu' Heq. apply frame_addr_inj in Heq. congruence.
      * destruct Hr as (Hl1 & Hw & Hall). eexists _, st1, T. split; [done|]. simpl. rewrite Hw.
        split; [|split; [apply free_frames_exhausted; auto|done]].
        split; [done|by intros ??|done|done|done|by rewrite Hw|done|].
        rewrite (free_frames_exhausted (frames st)) by done. pose proof (level_num_bound l). lia.
    + apply next_lower_none in El as ->.
      destruct (map_leaf_ok T st t va mt fl Hl Ht Hmt Hfl Hnp) as (r & st' & E' & Huf & Hp).
      exists r, st', T. split; [exact E'|done].
  - eexists _, st, T. split; [done|]. pose proof (level_num_bound l).
    split; [split; auto; [by intros ??|by intros ?*|lia]|]. simpl. split; [done|]. by rewrite lookup_unfold, E.
  - pose proof (labelled_step _ _ _ _ _ _ _ Hl Ht E) as Ht'.
    apply target_next in E as E'. destruct E' as [El _].
    destruct (IH T st l' t') as (r & st' & T' & -> & Hu & Hp); [|done|done|].
    { apply next_lower_fuel in El. congruence. }
    exists r, st', T'. split; [done|]. by eapply map_post_down.
Qed.

(** ** Updates of an existing mapping

    A page of size [s] is served by one entry of level [size_level s + 1]. *)
Definition size_level (s : PageSize) : Z :=
  match s with Size4KiB => 0 | Size2MiB => 1 | Size1GiB => 2 end.
Definition same_block (s : PageSize) (a b : Z) : Prop :=
  vpn (size_level s) a = vpn (size_level s) b.

Lemma target_page_level e l pg fl : target_inner e l = Ret (TargetPage pg fl) →
  size_level pg.(size) = level_num l - 1 ∧ fl = entry_flags e.
Proof.
  unfold target_inner, from_start_addr. destruct (is_present e); simpl; [|done].
  destruct (contains _ HUGE_PAGE); destruct l; simpl; intros H; inv_ret; done.
Qed.

Lemma block_index l k a b : 0 ≤ k ≤ level_num l - 1 → vpn k a = vpn k b →
  vpn (level_num l) a = vpn (level_num l) b ∧ table_index l a = table_index l b.
Proof.
  intros Hk H.
  assert (Hup : ∀ l', level_num l' - 1 = k → vpn (level_num l') a = vpn (level_num l') b)
    by (intros l' <-; by apply vpn_mono).
  assert (k = level_num l - 1 ∨ k < level_num l - 1) as [->|Hlt] by lia; [by apply vpn_mono|].
  destruct l; simpl in Hk, Hlt; [lia| | |].
  - apply vpn_mono. apply (Hup Level1). simpl. lia.
  - apply vpn_mono. simpl. assert (k = 0 ∨ k = 1) as [-> | ->] by lia.
    + apply (vpn_mono Level2), (Hup Level1). done.
    + apply (Hup Level2). done.
  - apply vpn_mono. simpl. assert (k = 0 ∨ k = 1 ∨ k = 2) as [-> |[-> | ->]] by lia.
    + apply (vpn_mono Level3), (vpn_mono Level2), (Hup Level1). done.
    + apply (vpn_mono Level3), (Hup Level2). done.
    + apply (Hup Level3). done.
Qed.

(** Rewriting the leaf entry of [va]: walks outside its block are unchanged. *)
Lemma leaf_write_other T st t l va e : labelled T st → T t = Some (l, vpn (level_num l) va) →
  ∀ a l2 t2, T t2 = Some (l2, vpn (level_num l2) a) →
    vpn (level_num l - 1) a ≠ vpn (level_num l - 1) va →
    lookup (words (write_entry (t + 8 * table_index l va) e st)) l2 t2 a
    = lookup (words st) l2 t2 a.
Proof.
  intros Hl Ht a l2 t2 Ht2 Hne. pose proof (table_index_bound l va) as Hi.
  eapply lookup_agree; [done|exact Ht| | |exact Ht2].
  - intros t' l' p' i' Ht' Hi' Hne'. by eapply (write_entry_other T st).
  - intros Hv Hidx. destruct Hne. rewrite !vpn_step. congruence.
Qed.

(** How a loop that rewrites the leaf entry to [f e] behaves, whatever the level
    the leaf is found at: [leaf_at m l t va l0 t0] says the walk ends there. *)
Fixpoint leaf_of (fuel : nat) (m : store) (l : PageTableLevel) (t va : Z)
  : option (PageTableLevel * Z) :=
  match fuel with
  | O => None
  | S fuel =>
      match target_inner (m (t + 8 * table_index l va)) l with
      | Ret (NextTable l' t') => leaf_of fuel m l' t' va
      | _ => Some (l, t)
      end
  end.

Lemma leaf_of_spec T st l t va : labelled T st → T t = Some (l, vpn (level_num l) va) →
  ∃ l0 t0, leaf_of (level_fuel l) (words st) l t va = Some (l0, t0) ∧
    T t0 = Some (l0, vpn (level_num l0) va) ∧
    (∀ a m', (∀ t2 l2 p2 i2, T t2 = Some (l2, p2) → 0 ≤ i2 < 512 →
         ¬ (t2 = t0 ∧ i2 = table_index l0 va) → m' (t2 + 8 * i2) = words st (t2 + 8 * i2)) →
       vpn (level_num l0 - 1) a = vpn (level_num l0 - 1) va →
       lookup m' l t a = lookup m' l0 t0 a) ∧
    ∀ l' t', target_inner (words st (t0 + 8 * table_index l0 va)) l0 ≠ Ret (NextTable l' t').
Proof.
  intros Hl. remember (level_fuel l) as n eqn:Hn. revert l t Hn.
  induction n as [|n IH]; intros l t Hn Ht.
  { destruct (level_fuel_pos l) as [? ?]. congruence. }
  cbn [leaf_of]. pose proof (table_index_bound l va) as Hi.
  destruct (target_inner (words st (t + 8 * table_index l va)) l) as [[|pg f|l' t']| |] eqn:E;
    try (exists l, t; split_and!; [done|done|done|congruence]).
  pose proof (labelled_step _ _ _ _ _ _ _ Hl Ht E) as Ht'.
  apply target_next in E as E'. destruct E' as [El _].
  destruct (IH l' t') as (l0 & t0 & Hlf & Ht0 & Hwalk & Hno); [|done|].
  { apply next_lower_fuel in El. congruence. }
  exists l0, t0. split_and!; [done|done| |done]. intros a m' Hm' Ha.
  assert (Hdeep : level_num l0 ≤ level_num l').
  { clear -Hlf. revert l' t' Hlf. induction n as [|n IH]; intros l' t' Hlf; [done|].
    cbn [leaf_of] in Hlf.
    destruct (target_inner _ l') as [[|pg f|l2 t2]| |] eqn:E; simplify_eq; try lia.
    apply IH in Hlf. apply target_next in E as [E _]. apply next_lower_num in E. lia. }
  apply next_lower_num in El. pose proof (level_num_bound l0).
  destruct (block_index l (level_num l0 - 1) a va ltac:(lia) Ha) as [_ Hidx].
  rewrite (lookup_down m' l t l' t').
  - by apply Hwalk.
  - rewrite Hidx, (Hm' _ _ _ _ Ht Hi); [done|]. intros [-> _].
    rewrite Ht in Ht0. injection Ht0 as <- _. lia.
Qed.

#[export] Instance same_block_dec s a b : Decision (same_block s a b).
Proof. unfold same_block. apply _. Defined.

Lemma unmap_loop_leaf n l t l0 t0 page free st :
  leaf_of n (words st) l t page.(start_addr) = Some (l0, t0) →
  (∀ l' t', target_inner (words st (t0 + 8 * table_index l0 page.(start_addr))) l0
     ≠ Ret (NextTable l' t')) →
  unmap_loop n t l page free st = unmap_loop 1 t0 l0 page free st.
Proof.
  intros H Hno. revert l t H. induction n as [|n IH]; intros l t H; [done|].
  cbn [leaf_of] in H. cbn [unmap_loop]. rewrite !address_entry_ok. cbn [mbind outcome_bind].
  destruct (target_inner (words st (t + _)) l) as [[|pg f|l' t']| |] eqn:E;
    simplify_eq; try (by rewrite E).
  cbn [mbind outcome_bind]. rewrite (IH _ _ H). cbn [unmap_loop]. by rewrite address_entry_ok.
Qed.

Lemma set_flags_loop_leaf n l t l0 t0 page fl st :
  leaf_of n (words st) l t page.(start_addr) = Some (l0, t0) →
  (∀ l' t', target_inner (words st (t0 + 8 * table_index l0 page.(start_addr))) l0
     ≠ Ret (NextTable l' t')) →
  set_flags_loop n t l page fl st = set_flags_loop 1 t0 l0 page fl st.
Proof.
  intros H Hno. revert l t H. induction n as [|n IH]; intros l t H; [done|].
  cbn [leaf_of] in H. cbn [set_flags_loop]. rewrite !address_entry_ok. cbn [mbind outcome_bind].
  destruct (target_inner (words st (t + _)) l) as [[|pg f|l' t']| |] eqn:E;
    simplify_eq; try (by rewrite E).
  cbn [mbind outcome_bind]. rewrite (IH _ _ H). cbn [set_flags_loop]. by rewrite address_entry_ok.
Qed.

(** The walk of [va] and what rewriting its leaf entry does to every walk from
    the root. *)
Lemma leaf_rewrite T st root va : labelled T st → T root = Some (Level4, 0) →
  ∃ l0 t0, let ea := t0 + 8 * table_index l0 va in
    leaf_of 4 (words st) Level4 root va = Some (l0, t0) ∧
    T t0 = Some (l0, vpn (level_num l0) va) ∧
    (∀ l' t', target_inner (words st ea) l0 ≠ Ret (NextTable l' t')) ∧
    translate_address (words st) root va = lookup (words st) l0 t0 va ∧
    ∀ e a, translate_address (words (write_entry ea e st)) root a =
      if decide (vpn (level_num l0 - 1) a = vpn (level_num l0 - 1) va)
      then lookup (words (write_entry ea e st)) l0 t0 a
      else translate_address (words st) root a.
Proof.
  intros Hl Hroot.
  assert (Hr : ∀ a, T root = Some (Level4, vpn (level_num Level4) a))
    by (intros a; by rewrite vpn_root).
  destruct (leaf_of_spec T st Level4 root va Hl (Hr va)) as (l0 & t0 & Hlf & Ht0 & Hw & Hno).
  exists l0, t0. intros ea. split_and!; [done|done|done|by apply Hw|].
  intros e a. case_decide as Hd.
  - apply Hw; [|done]. intros t2 l2 p2 i2 Ht2 Hi2 Hne.
    eapply (write_entry_other T st); [done|done|apply table_index_bound|done..].
  - exact (leaf_write_other T st t0 l0 va e Hl Ht0 a Level4 root (Hr a) Hd).
Qed.

Lemma lookup_leaf m l t a : (∀ l' t', target_inner (m (t + 8 * table_index l a)) l
     ≠ Ret (NextTable l' t')) →
  lookup m l t a =
  target ← target_inner (m (t + 8 * table_index l a)) l;
  match target with
  | TargetPage page flags => Ret (TranslateMapped page flags (a mod size_bytes page.(size)))
  | _ => Ret TranslateUnmapped
  end.
Proof.
  intros Hno. rewrite lookup_unfold.
  destruct (target_inner _ l) as [[| |l' t']| |]; try done. by destruct (Hno l' t').
Qed.

Lemma from_start_addr_inv a s q : from_start_addr a s = Ret q → q = mkPage a s.
Proof. unfold from_start_addr. intros H. by inv_ret. Qed.

Ltac reflag_cases e :=
  destruct (entry_address e) as [a| |]; simpl; try done;
  match goal with |- context [from_start_addr a ?s] =>
    destruct (from_start_addr a s) as [q| |] eqn:Eq; simpl; try done;
    apply from_start_addr_inv in Eq as ->; intros [= <- <-]; done
  end.

(** A leaf entry with other flags still points to its page. *)
Lemma target_reflag e l pg f0 fl : target_inner e l = Ret (TargetPage pg f0) → 0 ≤ e →
  0 ≤ fl → Z.land fl ALL_FLAGS = fl → Z.land fl PRESENT = PRESENT →
  (if decide (pg.(size) = Size4KiB) then Z.land fl HUGE_PAGE = 0
   else Z.land fl HUGE_PAGE = HUGE_PAGE) →
  let e' := entry_set_flags fl e in
  target_inner e' l = Ret (TargetPage pg fl) ∧ entry_ok l e'.
Proof.
  intros Ht He Hfl0 Hall Hp Hh e'.
  destruct (pack_address (raw_address e) fl (raw_address_idem e) Hall) as [Hr Hf].
  change (Z.lor (raw_address e) fl) with e' in Hr, Hf.
  assert (Hw : in_width 64 fl).
  { rewrite <-Hall, Z.land_comm. apply in_width_land; [|lia]. split; vm_compute; congruence. }
  assert (Hin : 0 ≤ e' < 2 ^ 64).
  { apply in_width_lor; [|done|lia]. destruct (raw_address_range e He) as [? _]. split; lia. }
  assert (Hpr : is_present e' = true) by (unfold is_present; rewrite Hf; by apply contains_bit).
  assert (Htg : target_inner e' l = Ret (TargetPage pg fl)).
  { revert Ht. unfold target_inner. rewrite Hpr. simpl. rewrite Hf.
    assert (Hea : entry_address e' = entry_address e) by (unfold entry_address; by rewrite Hr).
    rewrite Hea. destruct (is_present e); simpl; [|done]. case_decide as Hs.
    - replace (contains fl HUGE_PAGE) with false
        by (symmetry; apply not_true_is_false; by rewrite contains_bit, Hh).
      destruct (contains (entry_flags e) HUGE_PAGE), l; simpl; try done; reflag_cases e.
    - rewrite (proj2 (contains_bit fl HUGE_PAGE) Hh).
      destruct (contains (entry_flags e) HUGE_PAGE), l; simpl; try done; reflag_cases e. }
  split; [done|]. split_and!; [lia|lia|by rewrite Hpr|by rewrite Htg].
Qed.

(** What [leaf_rewrite] gives for the entry that maps a page of size [sz]: the
    new translation of the page is what the new entry says, the rest is kept. *)
Lemma leaf_rewrite_page T st root va l0 t0 pg fl e : labelled T st →
  T t0 = Some (l0, vpn (level_num l0) va) → entry_ok l0 e →
  target_inner (words st (t0 + 8 * table_index l0 va)) l0 = Ret (TargetPage pg fl) →
  (∀ l' t', target_inner e l0 ≠ Ret (NextTable l' t')) →
  let st1 := write_entry (t0 + 8 * table_index l0 va) e st in
  (∀ a, translate_address (words st1) root a =
      if decide (vpn (level_num l0 - 1) a = vpn (level_num l0 - 1) va)
      then lookup (words st1) l0 t0 a else translate_address (words st) root a) →
  labelled T st1 ∧
  ∀ a, translate_address (words st1) root a =
    if decide (same_block pg.(size) a va)
    then target ← target_inner e l0;
         match target with
         | TargetPage page flags => Ret (TranslateMapped page flags (a mod size_bytes page.(size)))
         | _ => Ret TranslateUnmapped
         end
    else translate_address (words st) root a.
Proof.
  intros Hl Ht0 He E Hno st1 Hw. pose proof (table_index_bound l0 va) as Hi. split.
  { eapply labelled_write; [done..|]. intros l' t' H. by destruct (Hno l' t'). }
  intros a. rewrite Hw. destruct (target_page_level _ _ _ _ E) as [Hlev _].
  assert (Hb : same_block (size pg) a va ↔
    vpn (level_num l0 - 1) a = vpn (level_num l0 - 1) va) by (unfold same_block; by rewrite Hlev).
  destruct (decide (vpn _ _ = _)) as [Hd|Hd], (decide (same_block _ _ _)) as [Hs|Hs];
    try (exfalso; tauto); [|done].
  destruct (vpn_mono l0 a va Hd) as [_ Hix].
  assert (Hent : words st1 (t0 + 8 * table_index l0 a) = e) by (rewrite Hix; apply store_set_eq).
  rewrite lookup_leaf; rewrite Hent; done.
Qed.

(** Giving back a frame that is not a table. *)
Lemma labelled_free T st f a' : labelled T st → frames_ok a' → T (frame_addr f) = None →
  (∀ p, 0 ≤ p → ca_used a' p = ca_used (frames st) p && negb (bool_decide (p = f))) →
  labelled T (mkMachine (words st) a' (flushed st)).
Proof.
  intros [Hfr Htb Hen Hch] Hok Hnt Hus. split; simpl; [done| |done|done].
  intros t l p Ht. destruct (Htb t l p Ht) as (f' & -> & H0 & He & Hu').
  exists f'. split_and!; [done..|]. rewrite Hus, Hu' by done. simpl.
  rewrite bool_decide_eq_false_2; [done|]. intros ->. congruence.
Qed.

Lemma frame_page_inj f f' : frame_page f = frame_page f' ↔ f = f'.
Proof. split; [intros [= H]; by apply frame_addr_inj|by intros ->]. Qed.

(** [map_to] from the root. *)
Lemma map_to_ok T st root va mt flags :
  labelled T st → T root = Some (Level4, 0) → map_target_ok mt → leaf_flags_ok flags →
  ∃ r st' T', map_to root (mkPage va Size4KiB) mt flags st = Ret (r, st') ∧
    update_frame Level4 T T' st st' ∧
    match r with
    | Ok tp =>
        translate_address (words st) root va = Ret TranslateUnmapped ∧
        mapped_target T' mt st st' tp ∧ flushed st' = flushed st ++ [va] ∧
        ∀ a, translate_address (words st') root a =
          if decide (same_page a va)
          then Ret (TranslateMapped tp (Z.lor flags PRESENT) (a mod 4096))
          else translate_address (words st) root a
    | Err (PageAlreadyMapped p f) =>
        st' = st ∧ translate_address (words st) root va
          = Ret (TranslateMapped p f (va mod size_bytes p.(size)))
    | Err (PhysicalPageAllocationFailed _) =>
        free_frames (frames st') = 0%nat ∧ flushed st' = flushed st ∧
        ∀ a, translate_address (words st') root a = translate_address (words st) root a
    end.
Proof.
  intros Hl Hroot Hmt Hfl.
  assert (Hr : ∀ a, T root = Some (Level4, vpn (level_num Level4) a))
    by (intros a; by rewrite vpn_root).
  destruct (map_to_loop_ok T st Level4 root va mt flags _ Hl (Hr va) Hmt Hfl
    (parent_flags_ok flags Hfl)) as (r & st' & T' & E & Huf & Hp).
  exists r, st', T'. split_and!; [exact E|done|].
  destruct r as [tp|[e|p f]]; cbn [map_post] in Hp.
  - destruct Hp as (Hun & Htg & Hfs & Hmap & Hoth). split_and!; [exact Hun|done|done|].
    intros a. case_decide as Hd; [|by apply (Hoth a Level4)].
    change (lookup (words st') Level4 root a
      = Ret (TranslateMapped tp (Z.lor flags PRESENT) (a mod 4096))).
    rewrite (lookup_same_page _ _ _ a va Hd), Hmap. simpl.
    assert (Hs : size tp = Size4KiB); [|by rewrite Hs].
    destruct mt; [by destruct Htg; destruct Hmt|by destruct Htg as (f & -> & _)].
  - destruct Hp as (Hno & Hfs & Hoth). split_and!; [done|done|]. intros a. by apply (Hoth a Level4).
  - exact Hp.
Qed.

(** [unmap] from the root. *)
Lemma unmap_ok T st root va sz free :
  labelled T st → T root = Some (Level4, 0) →
  (free = true → ∀ tp fl off, translate_address (words st) root va
       = Ret (TranslateMapped tp fl off) →
     ∃ f, tp = frame_page f ∧ 0 < f < ca_capacity (frames st) ∧
       ca_used (frames st) f = true ∧ T (frame_addr f) = None) →
  ∃ r st', unmap root (mkPage va sz) free st = Ret (r, st') ∧ labelled T st' ∧
    ca_capacity (frames st') = ca_capacity (frames st) ∧
    match r with
    | Ok tp =>
        (∃ fl, translate_address (words st) root va
           = Ret (TranslateMapped tp fl (va mod size_bytes sz))) ∧
        flushed st' = flushed st ++ [va] ∧
        (∀ a, translate_address (words st') root a =
           if decide (same_block sz a va) then Ret TranslateUnmapped
           else translate_address (words st) root a) ∧
        ∀ f, 0 ≤ f → ca_used (frames st') f =
          ca_used (frames st) f && negb (free && bool_decide (tp = frame_page f))
    | Err UnmapPageNotMapped =>
        st' = st ∧ translate_address (words st) root va = Ret TranslateUnmapped
    | Err (PageWrongSize expected actual) =>
        st' = st ∧ expected = sz ∧ actual ≠ sz ∧
        ∃ p fl off, translate_address (words st) root va = Ret (TranslateMapped p fl off) ∧
          p.(size) = actual
    end.
Proof.
  intros Hl Hroot Hfree.
  destruct (leaf_rewrite T st root va Hl Hroot) as (l0 & t0 & Hlf & Ht0 & Hno & Htr & Hw).
  unfold unmap. rewrite (unmap_loop_leaf 4 Level4 root l0 t0 (mkPage va sz) free st Hlf Hno).
  cbn [unmap_loop]. simpl start_addr. rewrite address_entry_ok. cbn [mbind outcome_bind].
  rewrite lookup_leaf in Htr by exact Hno. pose proof (table_index_bound l0 va) as Hi.
  destruct (lb_entry T st Hl _ _ _ _ Ht0 Hi) as (_ & _ & Hret).
  destruct (target_inner _ l0) as [[|pg fl|l' t']| |] eqn:E; try done;
    [| |by destruct (Hno l' t')].
  - by exists (Err UnmapPageNotMapped), st.
  - cbn [mbind outcome_bind] in *. simpl size. case_bool_decide as Hs.
    2: { eexists (Err _), st. do 3 (split; [done|]). split_and!; [done..|].
         by eexists _, _, _. }
    rewrite Hs in Htr.
    destruct (leaf_rewrite_page T st root va l0 t0 pg fl 0 Hl Ht0) as [Hl1 Hafter];
      [apply entry_ok_zero|exact E|by rewrite target_not_present by apply not_present_zero
      |intros a; apply Hw|].
    rewrite target_not_present, Hs in Hafter by apply not_present_zero.
    destruct free.
    + destruct (Hfree eq_refl _ _ _ Htr) as (f & -> & Hf & Hu & Hnt).
      destruct (free_page_ok (frames st) f (lb_frames T st Hl) Hf Hu)
        as (a' & Ea & Hok' & Hcap & Hus).
      cbn [flush write_entry frames]. rewrite Ea. cbn [mbind outcome_bind].
      eexists (Ok _), _. split; [done|]. split.
      { by eapply (labelled_free T (flush _ (write_entry _ _ st))); [apply labelled_flush|..]. }
      split; [exact Hcap|]. split_and!; [by exists fl|done|exact Hafter|].
      intros f' Hf'. cbn [frames]. rewrite Hus by done. simpl. do 2 f_equal.
      apply bool_decide_ext. rewrite frame_page_inj. naive_solver.
    + eexists (Ok pg), _. split; [done|]. split; [by apply labelled_flush|].
      split; [done|]. split_and!; [by exists fl|done|exact Hafter|].
      intros f Hf. simpl. by rewrite andb_true_r.
Qed.

(** [set_flags] from the root. *)
Lemma set_flags_ok T st root va sz fl :
  labelled T st → T root = Some (Level4, 0) →
  0 ≤ fl → Z.land fl ALL_FLAGS = fl → Z.land fl PRESENT = PRESENT →
  (∀ tp f0 off, translate_address (words st) root va = Ret (TranslateMapped tp f0 off) →
     if decide (tp.(size) = Size4KiB) then Z.land fl HUGE_PAGE = 0
     else Z.land fl HUGE_PAGE = HUGE_PAGE) →
  ∃ r st', set_flags root (mkPage va sz) fl st = Ret (r, st') ∧ labelled T st' ∧
    frames st' = frames st ∧ keeps_data T st st' ∧
    match r with
    | Ok _ => ∃ tp f0, translate_address (words st) root va
          = Ret (TranslateMapped tp f0 (va mod size_bytes tp.(size))) ∧
        flushed st' = flushed st ++ [va] ∧
        ∀ a, translate_address (words st') root a =
          if decide (same_block tp.(size) a va)
          then Ret (TranslateMapped tp fl (a mod size_bytes tp.(size)))
          else translate_address (words st) root a
    | Err _ => st' = st ∧ translate_address (words st) root va = Ret TranslateUnmapped
    end.
Proof.
  intros Hl Hroot H0 Hall Hpr Hhuge.
  destruct (leaf_rewrite T st root va Hl Hroot) as (l0 & t0 & Hlf & Ht0 & Hno & Htr & Hw).
  unfold set_flags.
  rewrite (set_flags_loop_leaf 4 Level4 root l0 t0 (mkPage va sz) fl st Hlf Hno).
  cbn [set_flags_loop]. simpl start_addr. rewrite address_entry_ok. cbn [mbind outcome_bind].
  rewrite lookup_leaf in Htr by exact Hno. pose proof (table_index_bound l0 va) as Hi.
  destruct (lb_entry T st Hl _ _ _ _ Ht0 Hi) as (He & _ & Hret).
  destruct (target_inner _ l0) as [[|pg f0|l' t']| |] eqn:E; try done;
    [| |by destruct (Hno l' t')].
  - by exists (Err SetFlagsPageNotMapped), st.
  - cbn [mbind outcome_bind] in *. specialize (Hhuge _ _ _ Htr).
    destruct (target_reflag _ l0 pg f0 fl E (proj1 He) H0 Hall Hpr Hhuge) as [Htg Hok].
    destruct (leaf_rewrite_page T st root va l0 t0 pg f0 _ Hl Ht0 Hok E) as [Hl1 Hafter];
      [by rewrite Htg|intros a; apply Hw|].
    rewrite Htg in Hafter. eexists (Ok tt), _. split; [done|].
    split; [by apply labelled_flush|]. split; [done|]. split; [|by exists pg, f0].
    intros f y _ _ Hn Hy. by apply store_set_ne; eapply entry_not_data.
Qed.
End walks.
