(* ===== verification/PageTableProps.v ===== *)
(** * What the page-table operations guarantee

    The contract of [Level4PageTable]: translation is total, and [map_to],
    [unmap] and [set_flags] change the translation of one page and of nothing
    else; the two places where the entry encoding breaks this are stated too. *)
From S2P Require Import Prelude AllocSpec BitmapAlloc External Addr PhysMem PageTable.
From S2P Require Import PageTableFacts PageTableThms.
#[local] Open Scope Z_scope.
Import PageTable.

(** ** A small machine for the examples

    64 frames, of which 0 (reserved) and 1 (an empty root table) are in use. *)
Definition small_machine : machine BitmapAllocator.t :=
  mkMachine (λ _, 0) (BitmapAllocator.mk [3] None) [].
Definition small_root : Z := frame_addr 1.
Definition small_tables : table_map :=
  λ t, if t =? small_root then Some (Level4, 0) else None.

(** An empty root table in frame 1, whatever the allocator. *)
Lemma empty_root_labelled {A} {CA : ContiguousAllocator A} (a : A) :
  frames_ok a → ca_used a 1 = true →
  labelled (x86 := documented_x86_64) (bf := documented_bitflags) small_tables
    (mkMachine (λ _, 0) a []).
Proof.
  intros Hok Hu.
  assert (H0 : ∀ l, entry_ok (x86 := documented_x86_64) (bf := documented_bitflags) l 0)
    by (intros l; apply (entry_ok_zero (bf_laws := documented_bitflags_laws))).
  split.
  - done.
  - intros t l p. unfold small_tables. destruct (Z.eqb_spec t small_root) as [->|]; [|done].
    intros _. exists 1. split_and!; [done|lia|vm_compute; discriminate|done].
  - intros. apply H0.
  - done.
Qed.

Lemma bitmap_frames_ok chunks : Forall (in_width 64) chunks →
  BitmapAllocator.capacity chunks < 2 ^ 32 → ca_used (BitmapAllocator.mk chunks None) 0 = true →
  frames_ok (BitmapAllocator.mk chunks None).
Proof.
  intros Hw Hc Hz. split; [|done|].
  - split; simpl; [done|lia|done].
  - simpl. unfold frame_addr, PAGE_SIZE, KERNEL_PHYSICAL_MAPPING_START, HIGHER_HALF_START,
      KERNEL_PHYSICAL_MAPPING_END. lia.
Qed.

Lemma small_labelled :
  labelled (x86 := documented_x86_64) (bf := documented_bitflags) small_tables small_machine.
Proof.
  apply empty_root_labelled; [|reflexivity].
  apply bitmap_frames_ok; [repeat constructor; simpl; lia|vm_compute; reflexivity|reflexivity].
Qed.

Section props.
Context {x86 : X86_64} {x86_laws : X86_64Laws} {bf : Bitflags} {bf_laws : BitflagsLaws}.

(** a walk of the page table ends after at most four tables, whatever the
    memory holds: [translate_address] never runs forever, because every link
    goes one level down. *)
Theorem translate_terminates (m : store) self addr : translate_address m self addr ≠ Diverge.
Proof.
  change (lookup m Level4 self addr ≠ Diverge). remember (level_fuel Level4) as n eqn:Hn.
  revert Hn. generalize Level4 as l. revert self. induction n as [|n IH]; intros t l Hn.
  { destruct (level_fuel_pos l) as [? ?]. congruence. }
  rewrite lookup_unfold. pose proof (target_inner_converges (m (t + 8 * table_index l addr)) l).
  destruct (target_inner _ l) as [[|pg fl|l' t']| |] eqn:E; try done. simpl. apply IH.
  apply target_next in E as [E _]. apply next_lower_fuel in E. congruence.
Qed.

Context {A : Type} {CA : ContiguousAllocator A} {CAL : ContiguousAllocatorLaws A}.
Implicit Types (st : machine A) (T : table_map).

(** C1: [map_to] on a well-formed tree: it never panics and keeps the tree well
    formed.  On success the page was unmapped before, every address of it now
    translates to the target page with the given flags (and PRESENT), every
    other address translates as before, the page's TLB entry is flushed, and a
    page allocated for it was a free frame.  If something is mapped already, that
    mapping is reported and nothing changes; it fails for want of frames only if
    none is left, and then no translation changes.  In all cases it takes at most
    four frames and the memory in use that holds no page table keeps its
    contents. *)
Theorem map_to_spec T st root va mt flags :
  labelled T st → T root = Some (Level4, 0) → map_target_ok mt → leaf_flags_ok flags →
  ∃ r st' T', map_to root (mkPage va Size4KiB) mt flags st = Ret (r, st') ∧
    labelled T' st' ∧ extends T T' ∧ keeps_data T st st' ∧
    Z.of_nat (free_frames (frames st)) ≤ 4 + Z.of_nat (free_frames (frames st')) ∧
    match r with
    | Ok tp =>
        translate_address (words st) root va = Ret TranslateUnmapped ∧
        mapped_target T' mt st st' tp ∧ flushed st' = flushed st ++ [va] ∧
        ∀ a, translate_address (words st') root a =
          if decide (same_page a va)
          then Ret (TranslateMapped tp (Z.lor flags PRESENT) (a mod 4096))
          else translate_address (words st) root a
    | Err (PageAlreadyMapped p f) =>
        st' = st ∧ translate_address (words st) root va
          = Ret (TranslateMapped p f (va mod size_bytes p.(size)))
    | Err (PhysicalPageAllocationFailed _) =>
        free_frames (frames st') = 0%nat ∧ flushed st' = flushed st ∧
        ∀ a, translate_address (words st') root a = translate_address (words st) root a
    end.
Proof.
  intros Hl Hroot Hmt Hfl.
  destruct (map_to_ok T st root va mt flags Hl Hroot Hmt Hfl)
    as (r & st' & T' & E & [Hl' Hex _ _ _ _ Hda Hfr] & Hp).
  by exists r, st', T'.
Qed.


(** [set_flags] on a well-formed tree, with flags that fit the mapping
    (PRESENT, and the huge-page bit exactly for a huge page): it never panics and
    keeps the tree well formed; if the page is mapped, its target stays and its
    flags become the given ones, all other addresses translate as before, the
    TLB entry is flushed and the memory in use that holds no page table keeps its
    contents; if it is not, nothing changes. *)
Theorem set_flags_spec T st root va sz fl :
  labelled T st → T root = Some (Level4, 0) →
  0 ≤ fl → Z.land fl ALL_FLAGS = fl → Z.land fl PRESENT = PRESENT →
  (∀ tp f0 off, translate_address (words st) root va = Ret (TranslateMapped tp f0 off) →
     if decide (tp.(size) = Size4KiB) then Z.land fl HUGE_PAGE = 0
     else Z.land fl HUGE_PAGE = HUGE_PAGE) →
  ∃ r st', set_flags root (mkPage va sz) fl st = Ret (r, st') ∧ labelled T st' ∧
    frames st' = frames st ∧ keeps_data T st st' ∧
    match r with
    | Ok _ => ∃ tp f0, translate_address (words st) root va
          = Ret (TranslateMapped tp f0 (va mod size_bytes tp.(size))) ∧
        flushed st' = flushed st ++ [va] ∧
        ∀ a, translate_address (words st') root a =
          if decide (same_block tp.(size) a va)
          then Ret (TranslateMapped tp fl (a mod size_bytes tp.(size)))
          else translate_address (words st) root a
    | Err _ => st' = st ∧ translate_address (words st) root va = Ret TranslateUnmapped
    end.
Proof. exact (set_flags_ok T st root va sz fl). Qed.
End props.

(** ** The theorems at work on the small machine *)
#[local] Existing Instances documented_x86_64 documented_x86_64_laws documented_bitflags
  documented_bitflags_laws.

Lemma translate_terminates_witness :
  translate_address (λ _, Z.lor 0x1000 PRESENT) (frame_addr 1) 0x1234 ≠ Diverge.
Proof. exact (translate_terminates (λ _, Z.lor 0x1000 PRESENT) (frame_addr 1) 0x1234). Defined.

Lemma map_to_spec_witness :
  ∃ st', map_to small_root (mkPage 0x400000 Size4KiB) NewPhysPage WRITABLE small_machine
      = Ret (Ok (frame_page 5), st') ∧
    translate_address (words st') small_root 0x400123
      = Ret (TranslateMapped (frame_page 5) 3 0x123).
Proof.
  destruct (map_to_spec small_tables small_machine small_root 0x400000 NewPhysPage WRITABLE)
    as (r & st' & T' & E & _ & _ & _ & _ & H);
    [apply small_labelled|reflexivity|exact I|split_and!; reflexivity || discriminate|].
  pose proof (f_equal (λ o, match o with Ret (r, _) => Some r | _ => None end) E) as Er.
  vm_compute in Er. injection Er as <-. exists st'. split; [exact E|].
  destruct H as (_ & _ & _ & H). rewrite H. reflexivity.
Defined.

(** The small machine with 0x400000 mapped to frame 5 through the tables in
    frames 1 to 4. *)
Definition demo_machine : machine BitmapAllocator.t :=
  mkMachine (store_set (store_set (store_set (store_set (λ _, 0)
      (frame_addr 1) 0x2003) (frame_addr 2) 0x3003) (frame_addr 3 + 16) 0x4003)
      (frame_addr 4) 0x5003)
    (BitmapAllocator.mk [0x3f] None) [].
Definition demo_tables : table_map := λ t,
  if t =? frame_addr 1 then Some (Level4, 0)
  else if t =? frame_addr 2 then Some (Level3, 0)
  else if t =? frame_addr 3 then Some (Level2, 0)
  else if t =? frame_addr 4 then Some (Level1, 2)
  else None.

Lemma demo_words x : words demo_machine x =
  if x =? frame_addr 4 then 0x5003 else if x =? frame_addr 3 + 16 then 0x4003
  else if x =? frame_addr 2 then 0x3003 else if x =? frame_addr 1 then 0x2003 else 0.
Proof. reflexivity. Qed.

Lemma demo_tables_inv t l p : demo_tables t = Some (l, p) →
  (t = frame_addr 1 ∧ l = Level4 ∧ p = 0) ∨ (t = frame_addr 2 ∧ l = Level3 ∧ p = 0) ∨
  (t = frame_addr 3 ∧ l = Level2 ∧ p = 0) ∨ (t = frame_addr 4 ∧ l = Level1 ∧ p = 2).
Proof.
  unfold demo_tables. destruct (Z.eqb_spec t (frame_addr 1)); [naive_solver|].
  destruct (Z.eqb_spec t (frame_addr 2)); [naive_solver|].
  destruct (Z.eqb_spec t (frame_addr 3)); [naive_solver|].
  destruct (Z.eqb_spec t (frame_addr 4)); naive_solver.
Qed.

(** Every entry of the demo tables is zero or one of the four links. *)
Lemma demo_entry t l p i : demo_tables t = Some (l, p) → 0 ≤ i < 512 →
  words demo_machine (t + 8 * i) = 0 ∨
  (l = Level4 ∧ p = 0 ∧ i = 0 ∧ words demo_machine (t + 8 * i) = 0x2003) ∨
  (l = Level3 ∧ p = 0 ∧ i = 0 ∧ words demo_machine (t + 8 * i) = 0x3003) ∨
  (l = Level2 ∧ p = 0 ∧ i = 2 ∧ words demo_machine (t + 8 * i) = 0x4003) ∨
  (l = Level1 ∧ p = 2 ∧ i = 0 ∧ words demo_machine (t + 8 * i) = 0x5003).
Proof.
  intros Ht Hi. rewrite demo_words. unfold frame_addr, PAGE_SIZE.
  destruct (demo_tables_inv t l p Ht) as [(-> & -> & ->)|[(-> & -> & ->)|[(-> & -> & ->)|
    (-> & -> & ->)]]]; unfold frame_addr, PAGE_SIZE;
    repeat (match goal with |- context [if ?x =? ?y then _ else _] =>
      destruct (Z.eqb_spec x y) end); try lia; try (by left); right;
    first [left; by split_and!; try lia|right; first [left; by split_and!; try lia
      |right; first [left; by split_and!; try lia|right; by split_and!; try lia]]].
Qed.

Lemma demo_labelled : labelled demo_tables demo_machine.
Proof.
  split.
  - split; [|reflexivity|vm_compute; discriminate].
    split; [repeat constructor; simpl; lia|vm_compute; reflexivity|discriminate].
  - intros t l p Ht. destruct (demo_tables_inv t l p Ht) as [(-> & _)|[(-> & _)|[(-> & _)|
      (-> & _)]]]; eexists; (split_and!; [reflexivity|lia|vm_compute; discriminate|reflexivity]).
  - intros t l p i Ht Hi. destruct (demo_entry t l p i Ht Hi) as [->|H]; [apply entry_ok_zero|].
    destruct H as [(-> & _ & _ & ->)|[(-> & _ & _ & ->)|[(-> & _ & _ & ->)|(-> & _ & _ & ->)]]];
      split_and!; vm_compute; (reflexivity || discriminate).
  - intros t l p i l' t' Ht Hi. destruct (demo_entry t l p i Ht Hi) as [->|H].
    + by rewrite target_not_present by apply not_present_zero.
    + destruct H as [(-> & -> & -> & ->)|[(-> & -> & -> & ->)|[(-> & -> & -> & ->)|
        (-> & -> & -> & ->)]]]; vm_compute; intros [= <- <-]; reflexivity.
Qed.


Lemma set_flags_spec_witness :
  ∃ st', set_flags small_root (mkPage 0x400000 Size4KiB) 1 demo_machine = Ret (Ok tt, st') ∧
    translate_address (words st') small_root 0x400123
      = Ret (TranslateMapped (frame_page 5) 1 0x123).
Proof.
  destruct (set_flags_spec demo_tables demo_machine small_root 0x400000 Size4KiB 1)
    as (r & st' & E & _ & _ & _ & H); [apply demo_labelled|reflexivity|lia|reflexivity|reflexivity| |].
  - intros tp f0 off Htr.
    assert (tp = frame_page 5) as -> by (revert Htr; vm_compute; intros [= <- _ _]; reflexivity).
    reflexivity.
  - pose proof (f_equal (λ o, match o with Ret (r, _) => Some r | _ => None end) E) as Er.
    vm_compute in Er. injection Er as <-. exists st'. split; [exact E|].
    destruct H as (tp & f0 & Htr & _ & H).
    assert (tp = frame_page 5) as -> by (revert Htr; vm_compute; intros [= <- _]; reflexivity).
    rewrite H. reflexivity.
Defined.

(** clearing PRESENT through [set_flags] keeps the old address in the entry,
    and [set_address] then mixes it into the next one: after such a [set_flags],
    mapping the page again to frame 0x12 reports success for frame 0x12 but
    translates to frame 0x17, the bitwise union of 0x12 and the old frame 5. *)
Theorem stale_address_is_mixed_in :
  ∃ st1 st2,
    set_flags small_root (mkPage 0x400000 Size4KiB) 0 demo_machine = Ret (Ok tt, st1) ∧
    map_to small_root (mkPage 0x400000 Size4KiB) (ExistingPhysPage (frame_page 0x12)) WRITABLE st1
      = Ret (Ok (frame_page 0x12), st2) ∧
    translate_address (words st2) small_root 0x400000
      = Ret (TranslateMapped (frame_page 0x17) 3 0).
Proof. eexists _, _. split; [reflexivity|]. split; [reflexivity|]. vm_compute. reflexivity. Qed.
