(* ===== verification/Mapping.v ===== *)
(** * kernel/src/memory: mapping.rs, heap.rs and the initialisation in mod.rs

    The kernel's page table and frame allocator are global [SpinLock<Option<_>>]
    values; [kmem] holds them together with the memory they manage.  The heap
    allocator is a third-party crate: what is recorded of it is the region it
    was initialised with. *)
From S2P Require Import Prelude AllocSpec BitmapAlloc Bootstrap External Addr PhysMem PageTable.
From S2P Require Import PageTableFacts PageTableThms.
#[local] Open Scope Z_scope.
Import PageTable.

Record kmem (A : Type) : Type := mkKmem {
  k_words : store;
  k_frames : option A;            (* KERNEL_PHYSICAL_ALLOCATOR *)
  k_flushed : list Z;
  k_table : option Z;             (* KERNEL_PAGE_TABLE *)
  k_heap : option (Z * Z);        (* the region ALLOCATOR was given *)
}.
Arguments mkKmem {A}.
Arguments k_words {A}.
Arguments k_frames {A}.
Arguments k_flushed {A}.
Arguments k_table {A}.
Arguments k_heap {A}.

Definition HEAP_START : Z := KERNEL_HEAP_REGION_START.
Definition HEAP_SIZE : Z := 10 * 1024 * 1024.

Section ops.
Context {x86 : X86_64} {bf : Bitflags} {A : Type} {CA : ContiguousAllocator A}.

(** [KERNEL_PHYSICAL_ALLOCATOR.with_lock(|allocator| ..)] *)
Definition with_allocator {R} (f : machine A → outcome (R * machine A)) (k : kmem A)
  : outcome (R * kmem A) :=
  a ← expect k.(k_frames);
  '(r, st) ← f (mkMachine k.(k_words) a k.(k_flushed));
  mret (r, mkKmem st.(words) (Some st.(frames)) st.(flushed) k.(k_table) k.(k_heap)).

Definition with_kernel_page_table_lock {R} (f : Z → kmem A → outcome (R * kmem A)) (k : kmem A)
  : outcome (R * kmem A) :=
  table ← expect k.(k_table);
  f table k.

(** [mapping::init]; [cr3] is the frame address the CPU register holds. *)
Definition mapping_init (higher_half_direct_map_offset kernel_address_virtual_base cr3 : Z)
    (k : kmem A) : outcome (kmem A) :=
  _ ← assert_ (higher_half_direct_map_offset =? HIGHER_HALF_START);
  _ ← assert_ (kernel_address_virtual_base =? KERNEL_TEXT_DATA_REGION_START);
  _ ← assert_ (match k.(k_table) with None => true | Some _ => false end);
  page_table ← KernPhysAddr.from_phys_addr cr3;
  mret (mkKmem k.(k_words) k.(k_frames) k.(k_flushed) (Some page_table) k.(k_heap)).

Definition clean_up_kernel_page_table (k : kmem A) : outcome (kmem A) :=
  table ← expect k.(k_table);
  let k := mkKmem (words (unmap_lower_half table (mkMachine k.(k_words) tt k.(k_flushed))))
             k.(k_frames) k.(k_flushed) k.(k_table) k.(k_heap) in
  '(_, k) ← with_allocator (λ st, st ← fill_top_half_entries table st; mret (tt, st)) k;
  mret k.

Definition clone_kernel_page_table (k : kmem A) : outcome (Z * kmem A) :=
  table ← expect k.(k_table);
  with_allocator (allocate_clone table) k.

(** The loop of [allocate_and_map_pages]. *)
Fixpoint map_new_pages (table : Z) (pages : list Page) (flags : Z) (st : machine A)
  : outcome (result unit MapError * machine A) :=
  match pages with
  | [] => mret (Ok tt, st)
  | page :: pages =>
      '(r, st) ← map_to table page NewPhysPage flags st;
      match r with
      | Ok _ => map_new_pages table pages flags st
      | Err e => mret (Err e, st)
      end
  end.

Definition allocate_and_map_pages (table : Z) (pages : list Page) (flags : Z) (k : kmem A)
  : outcome (result unit MapError * kmem A) :=
  with_allocator (map_new_pages table pages flags) k.

Fixpoint set_page_flags (table : Z) (pages : list Page) (flags : Z) (st : machine A)
  : outcome (result unit SetFlagsError * machine A) :=
  match pages with
  | [] => mret (Ok tt, st)
  | page :: pages =>
      '(r, st) ← set_flags table page flags st;
      match r with
      | Ok _ => set_page_flags table pages flags st
      | Err e => mret (Err e, st)
      end
  end.

Definition unmap_page (table : Z) (page : Page) (k : kmem A)
  : outcome (result Page UnmapError * kmem A) :=
  with_allocator (unmap table page false) k.

Definition unmap_and_free_page (table : Z) (page : Page) (k : kmem A)
  : outcome (result Page UnmapError * kmem A) :=
  with_allocator (unmap table page true) k.

Fixpoint identity_map_loop (table : Z) (phys_pages : list Page) (flags : Z) (st : machine A)
  : outcome (result unit MapError * machine A) :=
  match phys_pages with
  | [] => mret (Ok tt, st)
  | phys_page :: phys_pages =>
      virt_addr ← KernPhysAddr.to_virt_addr phys_page.(start_addr);
      virt_page ← from_start_addr virt_addr phys_page.(size);
      '(r, st) ← map_to table virt_page (ExistingPhysPage phys_page) flags st;
      match r with
      | Ok _ | Err (PageAlreadyMapped _ _) => identity_map_loop table phys_pages flags st
      | Err e => mret (Err e, st)
      end
  end.

Definition identity_map_physical_pages (table : Z) (phys_pages : list Page) (flags : Z)
    (k : kmem A) : outcome (result unit MapError * kmem A) :=
  with_allocator (identity_map_loop table phys_pages flags) k.

(** [heap::init] *)
Definition heap_init (k : kmem A) : outcome (result unit MapError * kmem A) :=
  _ ← assert_ (HEAP_SIZE <? KERNEL_HEAP_REGION_MAX_SIZE);
  heap_start_addr ← VirtAddr_new HEAP_START;
  heap_start ← containing_address heap_start_addr Size4KiB;
  page_range ← from_num_bytes heap_start HEAP_SIZE;
  let flags := flags_or PRESENT WRITABLE in
  '(r, k) ← with_kernel_page_table_lock (λ table k,
      pages ← PageRange_iter (addr:=AddressVirt) page_range;
      allocate_and_map_pages table pages flags k) k;
  match r with
  | Err e => mret (Err e, k)
  | Ok _ =>
      mret (Ok tt, mkKmem k.(k_words) k.(k_frames) k.(k_flushed) k.(k_table)
                     (Some (HEAP_START, HEAP_SIZE)))
  end.
End ops.

(** [memory::init]: page table, frame allocator, clean-up, heap. *)
Definition memory_init {x86 : X86_64} {bf : Bitflags}
    (higher_half_direct_map_offset kernel_address_virtual_base cr3 : Z)
    (regions : list Bootstrap.MemoryRegion) (k : kmem BitmapAllocator.t)
  : outcome (kmem BitmapAllocator.t) :=
  k ← mapping_init higher_half_direct_map_offset kernel_address_virtual_base cr3 k;
  a ← PhysicalMemoryAllocator.new k.(k_words) regions;
  let k := mkKmem k.(k_words) (Some a) k.(k_flushed) k.(k_table) k.(k_heap) in
  k ← clean_up_kernel_page_table k;
  '(r, k) ← heap_init k;
  match r with Ok _ => mret k | Err _ => Panic PanicExpect end.

(** ** Mapping a range of fresh pages *)
Section facts.
Context {x86 : X86_64} {x86_laws : X86_64Laws} {bf : Bitflags} {bf_laws : BitflagsLaws}.
Context {A : Type} {CA : ContiguousAllocator A} {CAL : ContiguousAllocatorLaws A}.
Implicit Types (st : machine A) (T : table_map).

Lemma map_new_pages_ok pages T st root flags :
  labelled T st → T root = Some (Level4, 0) → leaf_flags_ok flags →
  Forall (λ p, p.(size) = Size4KiB) pages →
  NoDup ((λ p, vpn 0 p.(start_addr)) <$> pages) →
  Forall (λ p, translate_address (words st) root p.(start_addr) = Ret TranslateUnmapped) pages →
  ∃ r st' T', map_new_pages root pages flags st = Ret (r, st') ∧
    labelled T' st' ∧ extends T T' ∧ ca_capacity (frames st') = ca_capacity (frames st) ∧
    (∀ f, 0 ≤ f → ca_used (frames st) f = true → ca_used (frames st') f = true) ∧
    (∀ f, 0 ≤ f → ca_used (frames st) f = true → T (frame_addr f) = None →
       T' (frame_addr f) = None) ∧
    keeps_data T st st' ∧
    Z.of_nat (free_frames (frames st)) ≤ 4 * zlen pages + Z.of_nat (free_frames (frames st')) ∧
    (∀ a, Forall (λ p, ¬ same_page a p.(start_addr)) pages →
       translate_address (words st') root a = translate_address (words st) root a) ∧
    match r with
    | Ok _ => ∃ fs, length fs = length pages ∧ NoDup fs ∧
        Forall (λ f, 0 < f < ca_capacity (frames st) ∧ ca_used (frames st) f = false ∧
                     ca_used (frames st') f = true ∧ T' (frame_addr f) = None) fs ∧
        ∀ i p f, pages !! i = Some p → fs !! i = Some f → ∀ a, same_page a p.(start_addr) →
          translate_address (words st') root a
          = Ret (TranslateMapped (frame_page f) (Z.lor flags PRESENT) (a mod 4096))
    | Err (PhysicalPageAllocationFailed _) => free_frames (frames st') = 0%nat
    | Err (PageAlreadyMapped _ _) => False
    end.
Proof.
  revert T st. induction pages as [|[va sz] pages IH]; intros T st Hl Hroot Hfl Hsz Hnd Hun.
  { exists (Ok tt), st, T. split_and!; [done|done|by intros ??|done..|]. exists [].
    split_and!; [done|constructor|constructor|done]. }
  inversion_clear Hsz as [|? ? Hs Hsz']. inversion_clear Hun as [|? ? Hu Hun'].
  rewrite fmap_cons in Hnd. apply NoDup_cons in Hnd as [Hni Hnd]. simpl in Hs, Hu. subst sz.
  destruct (map_to_ok T st root va NewPhysPage flags Hl Hroot I Hfl)
    as (r & st1 & T1 & E & [Hl1 Hex Hcap Hus Hnt1 _ Hda1 Hfr1] & Hr).
  cbn [map_new_pages]. rewrite E. cbn [mbind outcome_bind].
  destruct r as [tp|[e|p f]].
  - destruct Hr as (_ & (f & -> & Hf & Hfree & Huf & Hnf) & _ & Htr).
    assert (Hne : ∀ q, q ∈ pages → ¬ same_page q.(start_addr) va).
    { intros q Hq Hsp. apply Hni. apply list_elem_of_fmap. exists q. by split. }
    destruct (IH T1 st1 Hl1 (Hex _ _ Hroot) Hfl Hsz' Hnd) as
      (r & st2 & T2 & E2 & Hl2 & Hex2 & Hcap2 & Hus2 & Hnt2 & Hda2 & Hfr2 & Hoth & Hr).
    { rewrite Forall_forall in Hun' |- *. intros q Hq. rewrite Htr.
      rewrite decide_False by (by apply Hne). by apply Hun'. }
    exists r, st2, T2. split_and!; [done|done|intros ???; by apply Hex2, Hex|lia|auto|auto| |rewrite zlen_cons; simpl in Hfr1; lia| |].
    { intros f' y Hf' Hu' Hn Hy. rewrite Hda2 by auto. by apply Hda1. }
    { intros a Ha. inversion_clear Ha as [|? ? Ha1 Ha2]. rewrite (Hoth a Ha2), Htr.
      by rewrite decide_False by done. }
    destruct r as [[]|[e|p' f']]; [|exact Hr|done].
    destruct Hr as (fs & Hlen & Hndf & Hfs & Hmap). exists (f :: fs).
    rewrite Forall_forall in Hfs. split_and!.
    + simpl. lia.
    + apply NoDup_cons. split; [|done]. intros Hin. destruct (Hfs f Hin) as (_ & ? & _). congruence.
    + apply Forall_cons. split; [split_and!; [lia|lia|done|apply Hus2; [lia|done]|apply Hnt2; [lia|done|done]]|].
      apply Forall_forall. intros f' Hin. destruct (Hfs f' Hin) as (? & Hfr & ? & ?).
      split_and!; [lia|lia| |done|done]. apply not_true_is_false. intros Hx.
      rewrite Hus in Hfr; [done|lia|done].
    + intros [|i] p f' Hp Hf' a Ha; simpl in Hp, Hf'; simplify_eq; [|by eapply Hmap].
      simpl in Ha. rewrite Hoth, Htr; [by rewrite decide_True by done|].
      apply Forall_forall. intros q Hq Hsq. apply (Hne q Hq). unfold same_page in *. congruence.
  - destruct Hr as (Hno & _ & Hr). eexists _, st1, T1. split; [done|]. pose proof (zlen_nonneg pages).
    split_and!; [done..|rewrite zlen_cons; simpl in Hfr1; lia| |done]. intros a _. apply Hr.
  - destruct Hr as [_ Hr]. congruence.
Qed.
End facts.
