(* ===== verification/MappingThms.v ===== *)
(** * Kernel address-space set-up

    Regions of pages, copies of the top-level table, and the clean-up that
    prepares the kernel table for being cloned. *)
From S2P Require Import Prelude AllocSpec BitmapAlloc Bootstrap External Addr PhysMem PageTable.
From S2P Require Import PageTableFacts PageTableThms Mapping.
#[local] Open Scope Z_scope.
Import PageTable.

(** ** Regions of consecutive pages *)
Lemma region_mod base x : 0 ≤ x → base mod 2 ^ 48 + x < 2 ^ 48 →
  (base + x) mod 2 ^ 48 = base mod 2 ^ 48 + x.
Proof.
  intros Hx Hb. pose proof (Z.mod_pos_bound base (2 ^ 48) ltac:(lia)).
  rewrite <-Zplus_mod_idemp_l. apply Z.mod_small. lia.
Qed.

Lemma region_vpn base x : base mod 4096 = 0 → 0 ≤ x → base mod 2 ^ 48 + x < 2 ^ 48 →
  vpn 0 (base + x) = vpn 0 base + x / 4096.
Proof.
  intros Ha Hx Hb. unfold vpn. rewrite region_mod by done.
  change (2 ^ (12 + 9 * 0)) with 4096.
  assert (E : base mod 2 ^ 48 = base mod 2 ^ 48 / 4096 * 4096).
  { assert (Hm : (base mod 2 ^ 48) mod 4096 = 0).
    { change (2 ^ 48) with (4096 * 2 ^ 36). rewrite Z.rem_mul_r by lia.
      rewrite Ha, Z.add_0_l, Z.mul_comm. by apply Z_mod_mult. }
    pose proof (Z.div_mod (base mod 2 ^ 48) 4096 ltac:(lia)). lia. }
  rewrite E at 1. rewrite Z.add_comm, Z.div_add by lia. lia.
Qed.

Lemma region_same_page base x y : base mod 4096 = 0 → 0 ≤ x → 0 ≤ y →
  base mod 2 ^ 48 + x < 2 ^ 48 → base mod 2 ^ 48 + y < 2 ^ 48 →
  same_page (base + x) (base + y) ↔ x / 4096 = y / 4096.
Proof. intros. unfold same_page. rewrite !region_vpn by done. lia. Qed.

(** The pages of a range are pairwise different. *)
Lemma region_nodup base n : base mod 4096 = 0 → base mod 2 ^ 48 + n * 4096 ≤ 2 ^ 48 →
  NoDup ((λ p, vpn 0 p.(start_addr)) <$>
    (nth_page (mkPageRange (mkPage base Size4KiB) n) <$> range 0 n)).
Proof.
  intros Ha Hb. rewrite <-list_fmap_compose. apply NoDup_fmap_2_strong.
  - intros i j Hi Hj. rewrite elem_of_range in Hi, Hj. simpl.
    rewrite !region_vpn, !Z.div_mul by lia. lia.
  - apply NoDup_range.
Qed.

(** ** Copying a table *)
Lemma copy_words_hit n src m a b i : a ≤ i < b →
  foldl (λ m i, store_set m (n + 8 * i) (src i)) m (range a b) (n + 8 * i) = src i.
Proof.
  intros H. assert (Hb : a ≤ b) by lia. revert H. revert i. revert b Hb.
  apply (Zlt_lower_bound_ind (λ b, ∀ i, a ≤ i < b →
    foldl (λ m i, store_set m (n + 8 * i) (src i)) m (range a b) (n + 8 * i) = src i)).
  intros b IH Hb i Hi. rewrite range_snoc by lia. rewrite foldl_app. cbn [foldl].
  destruct (Z.eq_dec i (b - 1)) as [->|].
  - apply store_set_eq.
  - rewrite store_set_ne by lia. apply IH; lia.
Qed.

Lemma copy_words_miss n src m l x : (∀ i, i ∈ l → x ≠ n + 8 * i) →
  foldl (λ m i, store_set m (n + 8 * i) (src i)) m l x = m x.
Proof.
  revert m. induction l as [|i l IH]; intros m H; [done|]. cbn [foldl].
  rewrite IH by (intros; apply H; by right). apply store_set_ne, H. by left.
Qed.

Section facts.
Context {x86 : X86_64} {x86_laws : X86_64Laws} {bf : Bitflags} {bf_laws : BitflagsLaws}.
Context {A : Type} {CA : ContiguousAllocator A} {CAL : ContiguousAllocatorLaws A}.
Implicit Types (st : machine A) (T : table_map).

(** Walks in a store that agrees with the tree. *)
Lemma lookup_same T st m' a l t : labelled T st → T t = Some (l, vpn (level_num l) a) →
  (∀ t l p i, T t = Some (l, p) → 0 ≤ i < 512 → m' (t + 8 * i) = st.(words) (t + 8 * i)) →
  lookup m' l t a = lookup st.(words) l t a.
Proof.
  intros Hl Ht Hm. eapply (lookup_agree T st m' t l _ (-1)); [done|exact Ht| | |exact Ht].
  - intros t' l' p' i' Ht' Hi' _. by eapply Hm.
  - intros _ Hi. pose proof (table_index_bound l a). lia.
Qed.

(** Walks below the levels where a store differs. *)
Lemma lookup_below T st m' l0 a : labelled T st →
  (∀ t l p i, T t = Some (l, p) → level_num l < level_num l0 → 0 ≤ i < 512 →
     m' (t + 8 * i) = st.(words) (t + 8 * i)) →
  ∀ l t, level_num l < level_num l0 → T t = Some (l, vpn (level_num l) a) →
    lookup m' l t a = lookup st.(words) l t a.
Proof.
  intros Hl Hm l. remember (level_fuel l) as n eqn:Hn. revert l Hn.
  induction n as [|n IH]; intros l Hn t Hlt Ht.
  { destruct (level_fuel_pos l) as [? ?]. congruence. }
  rewrite !lookup_unfold, (Hm _ _ _ _ Ht Hlt (table_index_bound l a)).
  destruct (target_inner _ l) as [[|pg fl|l' t']| |] eqn:E; try done. simpl.
  apply target_next in E as Hn'. destruct Hn' as [Hn' _].
  apply (IH l'); [|apply next_lower_num in Hn'; lia|by eapply labelled_step].
  apply next_lower_fuel in Hn'. congruence.
Qed.

Lemma allocate_clone_ok T st root : labelled T st → T root = Some (Level4, 0) →
  (allocate_clone root st = Panic PanicExpect ∧ ∀ f, 0 ≤ f → ca_used (frames st) f = true) ∨
  ∃ new st' T', allocate_clone root st = Ret (new, st') ∧ labelled T' st' ∧ extends T T' ∧
    T new = None ∧ T' new = Some (Level4, 0) ∧ flushed st' = flushed st ∧
    (∀ i, 0 ≤ i < 512 → words st' (new + 8 * i) = words st (root + 8 * i)) ∧
    ∀ t l p i, T t = Some (l, p) → 0 ≤ i < 512 → words st' (t + 8 * i) = words st (t + 8 * i).
Proof.
  intros Hl Hroot. destruct (allocate_page_ok (frames st) (lb_frames T st Hl))
    as (r & a' & E & Hok & Hcap & Hr).
  unfold allocate_clone. rewrite E. cbn [mbind outcome_bind]. destruct r as [pg|e].
  2: { left. by destruct Hr. }
  right. destruct Hr as (f & -> & Hf & Hfree & _ & Hus). simpl start_addr.
  set (m' := foldl _ _ _).
  assert (Hnew : T (frame_addr f) = None) by (eapply fresh_frame_new; [done|lia|done]).
  assert (Hhit : ∀ i, 0 ≤ i < 512 → m' (frame_addr f + 8 * i) = words st (root + 8 * i))
    by (intros i Hi; by apply (copy_words_hit (frame_addr f) (λ i, words st (root + 8 * i)))).
  assert (Hmiss : ∀ t l p i, T t = Some (l, p) → 0 ≤ i < 512 →
    m' (t + 8 * i) = words st (t + 8 * i)).
  { intros t l p i Ht Hi. apply (copy_words_miss (frame_addr f)). intros j Hj.
    apply elem_of_range in Hj. unfold NUM_PAGE_TABLE_ENTRIES in Hj.
    destruct (fresh_frame_far T st f t l p i Hl ltac:(lia) Hfree Ht Hi); lia. }
  assert (Hins : ∀ t x, T t = Some x → table_insert (frame_addr f) (Level4, 0) T t = Some x).
  { intros t x Ht. unfold table_insert. destruct (Z.eqb_spec t (frame_addr f)); congruence. }
  pose proof Hl as [Hfr Htb Hen Hch].
  exists (frame_addr f), (mkMachine m' a' (flushed st)), (table_insert (frame_addr f) (Level4, 0) T).
  split_and!; [done| |done|done|unfold table_insert; by rewrite Z.eqb_refl|done|done|done].
  split; cbn [frames words]; [done|..].
  - intros t l p. unfold table_insert. destruct (Z.eqb_spec t (frame_addr f)) as [->|].
    + intros _. exists f. pose proof (fo_capacity _ Hfr).
      split_and!; [done|lia|unfold frame_addr, PAGE_SIZE in *; lia|].
      rewrite Hus by lia. rewrite bool_decide_eq_true_2 by done. apply orb_true_r.
    + intros Ht. destruct (Htb _ _ _ Ht) as (f2 & ? & ? & ? & Hu). exists f2.
      split_and!; [done..|]. by rewrite Hus, Hu.
  - intros t l p i. unfold table_insert. destruct (Z.eqb_spec t (frame_addr f)) as [->|].
    + intros [= <- <-] Hi. rewrite Hhit by done. by eapply Hen.
    + intros Ht Hi. rewrite (Hmiss _ _ _ _ Ht Hi). by eapply Hen.
  - intros t l p i l' t'. unfold table_insert at 1. destruct (Z.eqb_spec t (frame_addr f)) as [->|].
    + intros [= <- <-] Hi. rewrite Hhit by done. intros H. by eapply Hins, Hch.
    + intros Ht Hi. rewrite (Hmiss _ _ _ _ Ht Hi). intros H. by eapply Hins, Hch.
Qed.

(** ** Clearing entries of the root *)
Lemma clear_entries_ok T st root l : labelled T st → T root = Some (Level4, 0) →
  Forall (λ i, 0 ≤ i < 512) l →
  let st' := foldl (λ st i, write_entry (root + 8 * i) 0 st) st l in
  labelled T st' ∧ frames st' = frames st ∧ flushed st' = flushed st ∧
  (∀ i, 0 ≤ i < 512 → words st' (root + 8 * i) =
     if decide (i ∈ l) then 0 else words st (root + 8 * i)) ∧
  ∀ t l p i, T t = Some (l, p) → t ≠ root → 0 ≤ i < 512 →
    words st' (t + 8 * i) = words st (t + 8 * i).
Proof.
  intros Hl Hroot Hb. revert st Hl. induction l as [|j l IH]; intros st Hl; [done|].
  inversion_clear Hb as [|? ? Hj Hb']. cbn [foldl].
  assert (Hl1 : labelled T (write_entry (root + 8 * j) 0 st)).
  { eapply labelled_write; [done..|apply entry_ok_zero|].
    intros l' t'. by rewrite target_not_present by apply not_present_zero. }
  destruct (IH Hb' _ Hl1) as (Hl2 & Hfr & Hfl & Hhit & Hoth).
  split_and!; [done|done|done| |].
  - intros i Hi. rewrite Hhit by done. simpl. unfold store_set.
    destruct (Z.eqb_spec (root + 8 * i) (root + 8 * j)) as [E|E].
    + rewrite (decide_True (P := i ∈ j :: l)) by (assert (i = j) by lia; subst; by left).
      by case_decide.
    + destruct (decide (i ∈ l)) as [Hin|Hin].
      * by rewrite decide_True by (by right).
      * rewrite decide_False; [done|]. rewrite elem_of_cons. intros [->|]; [lia|done].
  - intros t l0 p i Ht Hne Hi. rewrite (Hoth _ _ _ _ Ht Hne Hi).
    eapply (write_entry_other T st); [done..|]. by intros [-> _].
Qed.

(** A root entry with other flags still points to its table. *)
Lemma reflag_link e l l' t fl : target_inner e l = Ret (NextTable l' t) → 0 ≤ e →
  leaf_flags_ok fl → Z.land fl PRESENT = PRESENT →
  let e' := entry_set_flags fl e in
  target_inner e' l = Ret (NextTable l' t) ∧ entry_ok l e' ∧ is_present e' = true.
Proof.
  intros Ht He (Hf0 & Hall & Hh) Hp e'.
  destruct (pack_address (raw_address e) fl (raw_address_idem e) Hall) as [Hr Hf].
  change (Z.lor (raw_address e) fl) with e' in Hr, Hf.
  assert (Hw : in_width 64 fl).
  { rewrite <-Hall, Z.land_comm. apply in_width_land; [|lia]. split; vm_compute; congruence. }
  assert (Hin : 0 ≤ e' < 2 ^ 64).
  { apply in_width_lor; [|done|lia]. destruct (raw_address_range e He) as [? _]. split; lia. }
  assert (Hpr : is_present e' = true) by (unfold is_present; rewrite Hf; by apply contains_bit).
  assert (Htg : target_inner e' l = Ret (NextTable l' t)).
  { apply target_next in Ht as Hn. destruct Hn as [Hn Hpe].
    revert Ht. unfold target_inner. rewrite Hpr, Hpe, Hf, Hn. simpl.
    assert (Hea : entry_address e' = entry_address e) by (unfold entry_address; by rewrite Hr).
    replace (contains fl HUGE_PAGE) with false
      by (symmetry; apply not_true_is_false; by rewrite contains_bit, Hh).
    rewrite Hea. destruct (contains (entry_flags e) HUGE_PAGE); [|done].
    intros H. inv_ret. }
  split; [done|]. split; [|done]. split_and!; [lia|lia|by rewrite Hpr|by rewrite Htg].
Qed.

Lemma kernel_link_flags : leaf_flags_ok (flags_or PRESENT WRITABLE) ∧
  Z.land (flags_or PRESENT WRITABLE) PRESENT = PRESENT.
Proof. rewrite flags_or_ok. by vm_compute. Qed.

(** One step of [fill_top_half_entries]. *)
Lemma fill_entry_ok T st root i : labelled T st → T root = Some (Level4, 0) → 0 ≤ i < 512 →
  (0 < free_frames (frames st))%nat →
  ∃ st' T', fill_entry root i st = Ret st' ∧ labelled T' st' ∧ extends T T' ∧
    (free_frames (frames st) ≤ S (free_frames (frames st')))%nat ∧
    is_present (words st' (root + 8 * i)) = true ∧
    (∀ j, 0 ≤ j < 512 → j ≠ i → words st' (root + 8 * j) = words st (root + 8 * j)) ∧
    ∀ a, translate_address (words st') root a = translate_address (words st) root a.
Proof.
  intros Hl Hroot Hi Hfree. destruct kernel_link_flags as [Hfl Hflp].
  assert (Hr : ∀ a, T root = Some (Level4, vpn (level_num Level4) a))
    by (intros a; by rewrite vpn_root).
  destruct (lb_entry T st Hl _ _ _ _ Hroot Hi) as ([He _] & _ & Hret). unfold fill_entry.
  destruct (target_inner _ Level4) as [[|pg fl|l' t']| |] eqn:E; try done;
    cbn [mbind outcome_bind].
  - apply target_unmapped in E as Hnp.
    destruct (link_child_ok T st root Level4 0 i Level3 _ Hl Hroot Hi eq_refl Hnp Hfl)
      as (r & st' & -> & Hcap & Hus & Hfs & _ & Hr'). cbn [mbind outcome_bind].
    destruct r as [t'|e].
    2: { destruct Hr' as (_ & _ & Hall). rewrite free_frames_exhausted in Hfree by done. lia. }
    destruct Hr' as (Hl' & Hnew & Hsame & Hn & Hz & f & -> & Hf & Huf & Hus').
    set (t' := frame_addr f) in *.
    exists st', (table_insert t' (Level3, 512 * 0 + i) T). split_and!; [done|done| | | | |].
    + intros t x Ht. unfold table_insert. destruct (Z.eqb_spec t t'); congruence.
    + rewrite (free_frames_take (frames st) (frames st') f) by done. lia.
    + by apply target_next in Hn as [_ ?].
    + intros j Hj Hne. eapply Hsame; [done..|]. by intros [_ ->].
    + intros a. exact (lookup_link T st (words st') _ _ _ _ _ _ Hl Hroot Hi Hnp Hsame Hn Hz
        a Level4 root (Hr a)).
  - apply target_page_level in E as [E _]. by destruct (size pg).
  - destruct (reflag_link _ _ _ _ _ E He Hfl Hflp) as (Htg & Hok & Hpr).
    set (e' := entry_set_flags _ _) in *.
    assert (Hsame : ∀ t l p j, T t = Some (l, p) → 0 ≤ j < 512 → ¬ (t = root ∧ j = i) →
      words (write_entry (root + 8 * i) e' st) (t + 8 * j) = words st (t + 8 * j))
      by (intros; by eapply (write_entry_other T st)).
    exists (write_entry (root + 8 * i) e' st), T. split_and!; [done| |by intros ??|simpl; lia| | |].
    + eapply labelled_write; [done..|]. rewrite Htg. intros l2 t2 [= <- <-].
      by eapply lb_child.
    + simpl. by rewrite store_set_eq.
    + intros j Hj Hne. eapply Hsame; [done..|]. by intros [_ ->].
    + intros a. change (lookup (words (write_entry (root + 8 * i) e' st)) Level4 root a
        = lookup (words st) Level4 root a).
      eapply (lookup_agree T st _ root Level4 _ i a Hl (Hr a)); [exact Hsame| |exact (Hr a)].
      intros _ Hix. rewrite !(lookup_unfold _ Level4), Hix, E. simpl. rewrite store_set_eq, Htg.
      simpl. apply (lookup_below T st _ Level4).
      * done.
      * intros t2 l2 p2 j Ht2 Hlt Hj. eapply Hsame; [done..|]. intros [-> _].
        rewrite Hroot in Ht2. injection Ht2 as <- _. lia.
      * apply target_next in E as [E _]. apply next_lower_num in E. simpl in *. lia.
      * eapply labelled_step; [done|exact (Hr a)|by rewrite Hix].
Qed.

(** ** Mapping a region of fresh pages

    [in_region base n y]: [y] is one of the [n] pages from [base], up to the
    bits that translation ignores. *)
Definition in_region (base n y : Z) : Prop :=
  base mod 2 ^ 48 ≤ y mod 2 ^ 48 < base mod 2 ^ 48 + n * 4096.

Lemma region_page_of base i y n : base mod 4096 = 0 → 0 ≤ i < n →
  base mod 2 ^ 48 + n * 4096 ≤ 2 ^ 48 → same_page y (base + i * 4096) → in_region base n y.
Proof.
  intros Ha Hi Hb Hs. unfold same_page in Hs. rewrite region_vpn, Z.div_mul in Hs by lia.
  unfold vpn, in_region in *. change (2 ^ (12 + 9 * 0)) with 4096 in Hs.
  assert (Hm : (base mod 2 ^ 48) mod 4096 = 0).
  { change (2 ^ 48) with (4096 * 2 ^ 36). rewrite Z.rem_mul_r by lia.
    rewrite Ha, Z.add_0_l, Z.mul_comm. by apply Z_mod_mult. }
  pose proof (Z.div_mod (base mod 2 ^ 48) 4096 ltac:(lia)).
  pose proof (Z.div_mod (y mod 2 ^ 48) 4096 ltac:(lia)).
  pose proof (Z.mod_pos_bound (y mod 2 ^ 48) 4096 ltac:(lia)). lia.
Qed.

Lemma map_region_ok T st root base n flags :
  labelled T st → T root = Some (Level4, 0) → leaf_flags_ok flags →
  base mod 4096 = 0 → 0 ≤ n → base mod 2 ^ 48 + n * 4096 ≤ 2 ^ 48 →
  (∀ x, 0 ≤ x < n * 4096 →
     translate_address (words st) root (base + x) = Ret TranslateUnmapped) →
  ∃ r st' T', map_new_pages root
      (nth_page (mkPageRange (mkPage base Size4KiB) n) <$> range 0 n) flags st = Ret (r, st') ∧
    labelled T' st' ∧ extends T T' ∧ ca_capacity (frames st') = ca_capacity (frames st) ∧
    (∀ f, 0 ≤ f → ca_used (frames st) f = true → ca_used (frames st') f = true) ∧
    (∀ f, 0 ≤ f → ca_used (frames st) f = true → T (frame_addr f) = None →
       T' (frame_addr f) = None) ∧
    keeps_data T st st' ∧
    Z.of_nat (free_frames (frames st)) ≤ 4 * n + Z.of_nat (free_frames (frames st')) ∧
    (∀ y, ¬ in_region base n y →
       translate_address (words st') root y = translate_address (words st) root y) ∧
    match r with
    | Ok _ => ∃ fr : Z → Z,
        (∀ i j, 0 ≤ i < n → 0 ≤ j < n → fr i = fr j → i = j) ∧
        (∀ i, 0 ≤ i < n → 0 < fr i < ca_capacity (frames st) ∧
           ca_used (frames st) (fr i) = false ∧ ca_used (frames st') (fr i) = true ∧
           T' (frame_addr (fr i)) = None) ∧
        ∀ x, 0 ≤ x < n * 4096 → translate_address (words st') root (base + x)
          = Ret (TranslateMapped (frame_page (fr (x / 4096))) (Z.lor flags PRESENT) (x mod 4096))
    | Err e => free_frames (frames st') = 0%nat ∧ ∃ e', e = PhysicalPageAllocationFailed e'
    end.
Proof.
  intros Hl Hroot Hfl Ha Hn Hb Hun. set (r0 := mkPageRange (mkPage base Size4KiB) n).
  destruct (map_new_pages_ok (nth_page r0 <$> range 0 n) T st root flags)
    as (r & st' & T' & E & Hl' & Hex & Hcap & Hus & Hnt & Hda & Hfrs & Hoth & Hr); [done..| | | |].
  { apply Forall_fmap, Forall_forall. done. }
  { by apply region_nodup. }
  { apply Forall_fmap, Forall_forall. intros i Hi. apply elem_of_range in Hi. simpl.
    apply Hun. lia. }
  exists r, st', T'. split_and!; [done..| | |].
  { unfold zlen in Hfrs. rewrite length_fmap, length_range in Hfrs. lia. }
  { intros y Hy. apply Hoth, Forall_fmap, Forall_forall. intros i Hi Hs.
    apply elem_of_range in Hi. by apply Hy, (region_page_of base i). }
  destruct r as [u|[e|p f]]; [|by split; [|exists e]|done].
  destruct Hr as (fs & Hlen & Hnd & Hfs & Hmap).
  rewrite length_fmap, length_range, Z.sub_0_r in Hlen.
  assert (Hat : ∀ i, 0 ≤ i < n → fs !! Z.to_nat i = Some (nth (Z.to_nat i) fs 0)).
  { intros i Hi. by destruct (nth_lookup_or_length fs (Z.to_nat i) 0); [|lia]. }
  exists (λ i, nth (Z.to_nat i) fs 0). split_and!.
  - intros i j Hi Hj Hij. pose proof (Hat i Hi) as Hfi. pose proof (Hat j Hj) as Hfj.
    rewrite Hij in Hfi. pose proof (NoDup_lookup fs _ _ _ Hnd Hfi Hfj). lia.
  - intros i Hi. exact (Forall_lookup_1 _ _ _ _ Hfs (Hat i Hi)).
  - intros x Hx. assert (Hi : 0 ≤ x / 4096 < n)
      by (split; [apply Z.div_pos; lia|apply Z.div_lt_upper_bound; lia]).
    rewrite (Hmap (Z.to_nat (x / 4096)) (nth_page r0 (x / 4096))
      (nth (Z.to_nat (x / 4096)) fs 0)).
    + do 2 f_equal. rewrite Zplus_mod, Ha, Z.add_0_l. by apply Z.mod_mod.
    + rewrite list_lookup_fmap, (proj2 (lookup_range 0 n _ (x / 4096))) by lia. done.
    + by apply Hat.
    + simpl. apply region_same_page; [done|lia|lia|lia|nia|]. by rewrite Z.div_mul by lia.
Qed.
End facts.
