(* ===== verification/MappingProps.v ===== *)
(** * What the address-space set-up guarantees *)
From S2P Require Import Prelude AllocSpec BitmapAlloc Bootstrap External Addr PhysMem PageTable.
From S2P Require Import PageTableFacts PageTableThms Mapping MappingThms PageTableProps.
#[local] Open Scope Z_scope.
Import PageTable.

Section props.
Context {x86 : X86_64} {x86_laws : X86_64Laws} {bf : Bitflags} {bf_laws : BitflagsLaws}.
Context {A : Type} {CA : ContiguousAllocator A} {CAL : ContiguousAllocatorLaws A}.
Implicit Types (st : machine A) (T : table_map).

Lemma fill_top_half_ok T st root : labelled T st → T root = Some (Level4, 0) →
  (256 ≤ free_frames (frames st))%nat →
  ∃ st' T', fill_top_half_entries root st = Ret st' ∧ labelled T' st' ∧ extends T T' ∧
    (∀ i, 256 ≤ i < 512 → is_present (words st' (root + 8 * i)) = true) ∧
    ∀ a, translate_address (words st') root a = translate_address (words st) root a.
Proof.
  intros Hl Hroot Hfree. unfold fill_top_half_entries.
  destruct (foldM_inv (fill_entry root) (λ done st',
    ∃ T', labelled T' st' ∧ extends T T' ∧
      (256 ≤ length done + free_frames (frames st'))%nat ∧
      (∀ i, i ∈ done → is_present (words st' (root + 8 * i)) = true) ∧
      ∀ a, translate_address (words st') root a = translate_address (words st) root a)
    (range 256 512) st) as (st' & E & T' & H1 & H2 & _ & H4 & H5).
  - exists T. split_and!; [done|by intros ??|simpl; lia|intros i Hi; by apply elem_of_nil in Hi|done].
  - intros done i rest st1 Hsp (T1 & Hl1 & Hex1 & Hfr1 & Hpr1 & Htr1).
    apply range_split_at in Hsp as (_ & Hi & Hdone & _).
    assert (Hlen : length done = Z.to_nat (i - 256)) by (rewrite Hdone; apply length_range).
    destruct (fill_entry_ok T1 st1 root i Hl1 (Hex1 _ _ Hroot) ltac:(lia) ltac:(lia))
      as (st2 & T2 & E & Hl2 & Hex2 & Hfr2 & Hpr2 & Hsame & Htr2).
    exists st2. split; [done|]. exists T2. split_and!.
    + done.
    + intros ???. by apply Hex2, Hex1.
    + rewrite length_app. simpl. lia.
    + intros j Hj. apply elem_of_app in Hj as [Hj| ->%list_elem_of_singleton]; [|done].
      rewrite Hdone in Hj. apply elem_of_range in Hj. rewrite Hsame by lia.
      apply Hpr1. rewrite Hdone. apply elem_of_range. lia.
    + intros a. by rewrite Htr2, Htr1.
  - exists st', T'. split_and!; [done..| |done]. intros i Hi. apply H4, elem_of_range. lia.
Qed.

(** the clean-up of the boot page table: with 256 free frames,
    [unmap_lower_half] followed by [fill_top_half_entries] succeeds and leaves a
    well-formed tree in which no address of the lower half is mapped, every
    address of the upper half translates as before, and every upper-half entry
    of the top-level table is present, so that tables cloned from it share all
    of the kernel's half. *)
Theorem clean_up_spec T st root : labelled T st → T root = Some (Level4, 0) →
  (256 ≤ free_frames (frames st))%nat →
  ∃ st' T', fill_top_half_entries root (unmap_lower_half root st) = Ret st' ∧
    labelled T' st' ∧ extends T T' ∧
    (∀ i, 256 ≤ i < 512 → is_present (words st' (root + 8 * i)) = true) ∧
    ∀ a, translate_address (words st') root a =
      if table_index Level4 a <? 256 then Ret TranslateUnmapped
      else translate_address (words st) root a.
Proof.
  intros Hl Hroot Hfree.
  assert (Hr : ∀ a, T root = Some (Level4, vpn (level_num Level4) a))
    by (intros a; by rewrite vpn_root).
  destruct (clear_entries_ok T st root (range 0 256) Hl Hroot) as (Hl1 & Hfr & _ & Hhit & Hoth).
  { apply Forall_forall. intros i Hi. apply elem_of_range in Hi. lia. }
  fold (unmap_lower_half root st) in *.
  destruct (fill_top_half_ok T (unmap_lower_half root st) root Hl1 Hroot) as
    (st' & T' & E & Hl' & Hex & Hpr & Htr); [by rewrite Hfr|].
  exists st', T'. split_and!; [done..|]. intros a. rewrite Htr.
  change (lookup (words (unmap_lower_half root st)) Level4 root a =
    if table_index Level4 a <? 256 then Ret TranslateUnmapped
    else lookup (words st) Level4 root a).
  pose proof (table_index_bound Level4 a) as Hi. rewrite !(lookup_unfold _ Level4), Hhit by done.
  destruct (Z.ltb_spec (table_index Level4 a) 256) as [Hlow|Hhigh].
  - rewrite decide_True by (apply elem_of_range; lia).
    by rewrite target_not_present by apply not_present_zero.
  - rewrite decide_False by (rewrite elem_of_range; lia).
    destruct (target_inner _ Level4) as [[|pg fl|l' t']| |] eqn:En; try done. simpl.
    apply (lookup_below T st _ Level4); [done| | |].
    + intros t2 l2 p2 i2 Ht2 Hlt Hi2. eapply Hoth; [done| |done].
      intros ->. rewrite Hroot in Ht2. injection Ht2 as <- _. lia.
    + apply target_next in En as [En _]. apply next_lower_num in En. simpl in *. lia.
    + exact (labelled_step T st root Level4 a _ _ Hl (Hr a) En).
Qed.

(** C34: a clone of a page table translates every address exactly as the original,
    the original is not disturbed, and the clone is part of the same well-formed
    forest; the only way [allocate_clone] fails is that no frame is left. *)
Theorem allocate_clone_spec T st root : labelled T st → T root = Some (Level4, 0) →
  (allocate_clone root st = Panic PanicExpect ∧ ∀ f, 0 ≤ f → ca_used (frames st) f = true) ∨
  ∃ new st' T', allocate_clone root st = Ret (new, st') ∧ labelled T' st' ∧ extends T T' ∧
    T new = None ∧ T' new = Some (Level4, 0) ∧
    ∀ a, translate_address (words st') new a = translate_address (words st) root a ∧
         translate_address (words st') root a = translate_address (words st) root a.
Proof.
  intros Hl Hroot.
  assert (Hr : ∀ a, T root = Some (Level4, vpn (level_num Level4) a))
    by (intros a; by rewrite vpn_root).
  destruct (allocate_clone_ok T st root Hl Hroot) as [H|(new & st' & T' & E & Hl' & Hex & Hn & Hn' &
    _ & Hcopy & Hsame)]; [by left|].
  right. exists new, st', T'. split_and!; [done..|]. intros a. split.
  - change (lookup (words st') Level4 new a = lookup (words st) Level4 root a).
    pose proof (table_index_bound Level4 a) as Hi. rewrite !(lookup_unfold _ Level4), Hcopy by done.
    destruct (target_inner _ Level4) as [[|pg fl|l' t']| |] eqn:En; try done. simpl.
    apply (lookup_same T st); [done| |done].
    exact (labelled_step T st root Level4 a _ _ Hl (Hr a) En).
  - exact (lookup_same T st (words st') a Level4 root Hl (Hr a) Hsame).
Qed.

(** C33: kernel mappings are shared: when two top-level tables have the same
    present entry for an address (as a clone and the cleaned-up kernel table do
    in the upper half), a page mapped through one of them is mapped identically
    in the other, and nothing else changes there. *)
Theorem shared_entry_map_to T st root root' va mt flags tp st' :
  labelled T st → T root = Some (Level4, 0) → T root' = Some (Level4, 0) →
  map_target_ok mt → leaf_flags_ok flags →
  is_present (words st (root + 8 * table_index Level4 va)) = true →
  words st (root' + 8 * table_index Level4 va) = words st (root + 8 * table_index Level4 va) →
  map_to root (mkPage va Size4KiB) mt flags st = Ret (Ok tp, st') →
  translate_address (words st') root' va
    = Ret (TranslateMapped tp (Z.lor flags PRESENT) (va mod 4096)) ∧
  ∀ a, ¬ same_page a va →
    translate_address (words st') root' a = translate_address (words st) root' a.
Proof.
  intros Hl Hroot Hroot' Hmt Hfl Hpr Heq E.
  assert (Hr : ∀ t a, T t = Some (Level4, 0) → T t = Some (Level4, vpn (level_num Level4) a))
    by (intros t a; by rewrite vpn_root).
  pose proof (table_index_bound Level4 va) as Hi.
  destruct (lb_entry T st Hl _ _ _ _ Hroot Hi) as (_ & _ & Hret).
  unfold map_to in E. cbn [map_to_loop] in E. simpl start_addr in E.
  rewrite address_entry_ok in E. cbn [mbind outcome_bind] in E.
  destruct (target_inner _ Level4) as [[|pg fl|l' t']| |] eqn:En; try done;
    cbn [mbind outcome_bind] in E.
  { apply target_unmapped in En. congruence. }
  apply target_next in En as Hlow. destruct Hlow as [[= <-] _].
  destruct (map_to_loop_ok T st Level3 t' va mt flags _ Hl
    (labelled_step _ _ _ _ va _ _ Hl (Hr _ va Hroot) En) Hmt Hfl (parent_flags_ok flags Hfl))
    as (r & st2 & T2 & E2 & [Hl2 Hex _ _ _ Hab] & Hp).
  assert (Ret (r, st2) = Ret (Ok tp, st')) as [= -> ->] by (rewrite <-E2; exact E).
  cbn [map_post] in Hp. destruct Hp as (_ & _ & _ & Hmap & Hoth). split.
  - change (lookup (words st') Level4 root' va
      = Ret (TranslateMapped tp (Z.lor flags PRESENT) (va mod 4096))).
    rewrite lookup_unfold, (Hab _ _ _ _ Hroot') by (done || simpl; lia). by rewrite Heq, En.
  - intros a Ha. exact (Hoth a Level4 root' (Hr _ a Hroot') Ha).
Qed.

(** the kernel heap: on a well-formed kernel table whose heap region is
    unmapped, [heap::init] never panics; on success every address of the
    [HEAP_SIZE] bytes from [HEAP_START] is mapped writable, different pages to
    different frames that were free before, every address outside the region
    translates as before, and the heap allocator was given exactly this region.
    The only error is that frames ran out, and with more than four free frames for
    each page of the heap there is none. *)
Theorem heap_init_spec T root a (k : kmem A) :
  k.(k_table) = Some root → k.(k_frames) = Some a →
  labelled T (mkMachine k.(k_words) a k.(k_flushed)) → T root = Some (Level4, 0) →
  (∀ x, 0 ≤ x < HEAP_SIZE →
     translate_address k.(k_words) root (HEAP_START + x) = Ret TranslateUnmapped) →
  ∃ r k', heap_init k = Ret (r, k') ∧
    match r with
    | Ok _ => k'.(k_heap) = Some (HEAP_START, HEAP_SIZE) ∧
        (∀ y, ¬ in_region HEAP_START (HEAP_SIZE / 4096) y →
          translate_address k'.(k_words) root y = translate_address k.(k_words) root y) ∧
        ∃ fr : Z → Z,
          (∀ i j, 0 ≤ i < HEAP_SIZE / 4096 → 0 ≤ j < HEAP_SIZE / 4096 → fr i = fr j → i = j) ∧
          ∀ x, 0 ≤ x < HEAP_SIZE → ca_used a (fr (x / 4096)) = false ∧
            translate_address k'.(k_words) root (HEAP_START + x)
            = Ret (TranslateMapped (frame_page (fr (x / 4096))) (Z.lor PRESENT WRITABLE)
                     (x mod 4096))
    | Err e => Z.of_nat (free_frames a) ≤ 4 * (HEAP_SIZE / 4096) ∧ ∃ e', e = PhysicalPageAllocationFailed e'
    end.
Proof.
  intros Htab Hfr Hl Hroot Hun. unfold heap_init. simpl assert_. cbn [mbind outcome_bind].
  rewrite VirtAddr_new_ok by done. cbn [mbind outcome_bind].
  rewrite containing_address_ok by (unfold HEAP_START, KERNEL_HEAP_REGION_START; lia).
  cbn [mbind outcome_bind]. change (HEAP_START - HEAP_START mod size_bytes Size4KiB) with HEAP_START.
  unfold with_kernel_page_table_lock. rewrite Htab.
  change (from_num_bytes (mkPage HEAP_START Size4KiB) HEAP_SIZE)
    with (Ret (mkPageRange (mkPage HEAP_START Size4KiB) 2560)). cbn [mbind outcome_bind expect].
  rewrite PageRange_iter_virt; [|simpl; lia|reflexivity|reflexivity|].
  2: { simpl num_pages. simpl start. simpl. intros j Hj. apply orb_true_iff. right.
       unfold HEAP_START, KERNEL_HEAP_REGION_START. lia. }
  simpl num_pages. cbn [mbind outcome_bind]. unfold allocate_and_map_pages, with_allocator.
  rewrite Hfr. cbn [mbind outcome_bind expect].
  destruct (map_region_ok T _ root HEAP_START 2560 (flags_or PRESENT WRITABLE) Hl Hroot)
    as (r & st' & T' & -> & _ & _ & _ & _ & _ & _ & Hfrs & Hoth & Hr);
    [apply kernel_link_flags|reflexivity|lia|vm_compute; discriminate|exact Hun|].
  cbn [mbind outcome_bind]. destruct r as [[]|e]; (eexists _, _; split; [reflexivity|]).
  2: { destruct Hr as [Hno Hr]. split; [|exact Hr]. simpl in Hfrs. change (HEAP_SIZE / 4096) with 2560. lia. }
  destruct Hr as (fr & Hinj & Hfresh & Hmap).
  split_and!; [done|exact Hoth|]. exists fr. split; [exact Hinj|]. intros x Hx. split.
  - apply Hfresh. change HEAP_SIZE with (2560 * 4096) in Hx.
    split; [apply Z.div_pos; lia|apply Z.div_lt_upper_bound; lia].
  - simpl. rewrite Hmap by done. rewrite flags_or_ok. done.
Qed.
End props.

(** ** Examples *)
#[local] Existing Instances documented_x86_64 documented_x86_64_laws documented_bitflags
  documented_bitflags_laws.

(** 320 frames, an empty root in frame 1. *)
Definition roomy_machine : machine BitmapAllocator.t :=
  mkMachine (λ _, 0) (BitmapAllocator.mk [3; 0; 0; 0; 0] None) [].

Lemma roomy_labelled : labelled small_tables roomy_machine.
Proof.
  apply empty_root_labelled; [|reflexivity].
  apply bitmap_frames_ok; [|vm_compute; reflexivity|reflexivity].
  repeat constructor; simpl; lia.
Qed.

Lemma clean_up_spec_witness : ∃ st',
  fill_top_half_entries small_root (unmap_lower_half small_root roomy_machine) = Ret st' ∧
  is_present (words st' (small_root + 8 * 511)) = true.
Proof.
  destruct (clean_up_spec small_tables roomy_machine small_root) as (st' & T' & E & _ & _ & Hp & _);
    [apply roomy_labelled|reflexivity|vm_compute; lia|].
  exists st'. split; [exact E|]. apply Hp. lia.
Defined.

Lemma allocate_clone_spec_witness : ∃ new st', allocate_clone small_root demo_machine = Ret (new, st') ∧
  translate_address (words st') new 0x400123 = Ret (TranslateMapped (frame_page 5) 3 0x123).
Proof.
  destruct (allocate_clone_spec demo_tables demo_machine small_root) as
    [[_ H]|(new & st' & T' & E & _ & _ & _ & _ & H)]; [apply demo_labelled|reflexivity| |].
  - specialize (H 6 ltac:(lia)). discriminate H.
  - exists new, st'. split; [exact E|]. destruct (H 0x400123) as [-> _]. vm_compute. reflexivity.
Defined.

(** The demo machine and the clone of its root, in frame 6. *)
Definition twin_machine : machine BitmapAllocator.t :=
  match allocate_clone small_root demo_machine with
  | Ret (_, st) => st
  | _ => demo_machine
  end.

Lemma twin_labelled : ∃ T, labelled T twin_machine ∧ T small_root = Some (Level4, 0) ∧
  T (frame_addr 6) = Some (Level4, 0).
Proof.
  destruct (allocate_clone_ok demo_tables demo_machine small_root demo_labelled eq_refl)
    as [[_ H]|(new & st' & T' & E & Hl & Hex & _ & Hnew & _)].
  - specialize (H 6 ltac:(lia)). discriminate H.
  - exists T'. assert (twin_machine = st') as -> by (unfold twin_machine; by rewrite E).
    pose proof (f_equal (λ o, match o with Ret (n, _) => Some n | _ => None end) E) as En.
    vm_compute in En. injection En as <-. split_and!; [done|by apply Hex|done].
Qed.

Lemma shared_entry_map_to_witness : ∃ st',
  map_to small_root (mkPage 0x401000 Size4KiB) NewPhysPage WRITABLE twin_machine
    = Ret (Ok (frame_page 7), st') ∧
  translate_address (words st') (frame_addr 6) 0x401000
    = Ret (TranslateMapped (frame_page 7) 3 0).
Proof.
  destruct twin_labelled as (T & Hl & Hr & Hr').
  assert (Er : match map_to small_root (mkPage 0x401000 Size4KiB) NewPhysPage WRITABLE twin_machine
    with Ret (r, _) => Some r | _ => None end = Some (Ok (frame_page 7)))
    by (vm_compute; reflexivity).
  destruct (map_to small_root _ NewPhysPage WRITABLE twin_machine) as [[r st']| |] eqn:E;
    [injection Er as ->|discriminate Er..].
  exists st'. split; [reflexivity|].
  eapply (shared_entry_map_to T twin_machine small_root (frame_addr 6) 0x401000 NewPhysPage
    WRITABLE); [exact Hl|exact Hr|exact Hr'|exact I|split_and!; reflexivity || discriminate
    |vm_compute; reflexivity|vm_compute; reflexivity|exact E].
Defined.

Lemma heap_init_spec_witness :
  ∃ r k', heap_init (mkKmem (λ _, 0) (Some (BitmapAllocator.mk [3; 0] None)) []
    (Some small_root) None) = Ret (r, k').
Proof.
  destruct (heap_init_spec small_tables small_root (BitmapAllocator.mk [3; 0] None)
    (mkKmem (λ _, 0) (Some (BitmapAllocator.mk [3; 0] None)) [] (Some small_root) None))
    as (r & k' & E & _); [reflexivity|reflexivity| |reflexivity| |].
  - apply (empty_root_labelled (BitmapAllocator.mk [3; 0] None)); [|reflexivity].
    apply bitmap_frames_ok; [repeat constructor; simpl; lia|vm_compute; reflexivity|reflexivity].
  - intros x Hx. change (lookup (λ _, 0) Level4 small_root (HEAP_START + x) = Ret TranslateUnmapped).
    rewrite lookup_unfold. by rewrite target_not_present by apply not_present_zero.
  - exists r, k'. exact E.
Defined.
