(* ===== verification/SelfTest.v ===== *)
(** * kernel/src/memory/mapping.rs: [test_new_page_table]

    The shell's test of the page table: it translates a few addresses, maps a page to a given
    frame and another one to a new frame, and unmaps both.  What it prints on the serial port
    is the list of its reports. *)
From S2P Require Import Prelude AllocSpec BitmapAlloc Bootstrap External Addr PhysMem PageTable.
From S2P Require Import PageTableFacts PageTableThms Mapping MappingThms PageTableProps MappingProps.
#[local] Open Scope Z_scope.
Import PageTable.

(** A line of the output *)
Inductive report : Type :=
| TableReport (table : Z)                                      (* the table itself *)
| TargetReport (addr : Z) (target : TranslateResult)           (* Target of addr: target *)
| MappingReport (virt : Page) (phys : Page) (r : result Page MapError)
| MappedReport (virt : Page) (r : result Page MapError)
| UnmapReport (r : result Page UnmapError).

Section ops.
Context {x86 : X86_64} {bf : Bitflags} {A : Type} {CA : ContiguousAllocator A}.

Definition test_new_page_table (k : kmem A) : outcome (list report * kmem A) :=
  table ← expect k.(k_table);
  let out := [TableReport table] in
  target_addr ← VirtAddr_new 0x1234;
  target ← translate_address k.(k_words) table target_addr;
  let out := out ++ [TargetReport target_addr target] in
  target_addr ← VirtAddr_new 0x40001234;
  target ← translate_address k.(k_words) table target_addr;
  let out := out ++ [TargetReport target_addr target] in
  target_addr ← VirtAddr_new 0xffffffff80001234;
  target ← translate_address k.(k_words) table target_addr;
  let out := out ++ [TargetReport target_addr target] in
  map_virt_addr ← VirtAddr_new 0x400000000;
  map_virt ← from_start_addr map_virt_addr Size4KiB;
  map_phys_addr ← PhysAddr_new 0x100000000;
  map_phys_addr ← KernPhysAddr.from_phys_addr map_phys_addr;
  map_phys ← from_start_addr map_phys_addr Size4KiB;
  '(result, k) ← with_allocator (map_to table map_virt (ExistingPhysPage map_phys) (flags_or PRESENT WRITABLE)) k;
  let out := out ++ [MappingReport map_virt map_phys result] in
  target ← translate_address k.(k_words) table map_virt.(start_addr);
  let out := out ++ [TargetReport map_virt.(start_addr) target] in
  '(unmap_result, k) ← with_allocator (unmap table map_virt false) k;
  let out := out ++ [UnmapReport unmap_result] in
  map_virt_addr ← VirtAddr_new 0x400010000;
  map_virt ← from_start_addr map_virt_addr Size4KiB;
  '(result, k) ← with_allocator (map_to table map_virt NewPhysPage (flags_or PRESENT WRITABLE)) k;
  let out := out ++ [MappedReport map_virt result] in
  target ← translate_address k.(k_words) table map_virt.(start_addr);
  let out := out ++ [TargetReport target_addr target] in
  '(unmap_result, k) ← with_allocator (unmap table map_virt true) k;
  mret (out ++ [UnmapReport unmap_result], k).
End ops.

Section theorems.
Context {x86 : X86_64} {x86_laws : X86_64Laws} {bf : Bitflags} {bf_laws : BitflagsLaws}.
Context {A : Type} {CA : ContiguousAllocator A} {CAL : ContiguousAllocatorLaws A}.
Implicit Types (st : machine A) (T : table_map).

(** On a well-formed tree every translation returns. *)
Lemma translate_returns T st root va : labelled T st → T root = Some (Level4, 0) →
  ∃ r, translate_address (words st) root va = Ret r.
Proof.
  intros Hl Hroot. destruct (leaf_rewrite T st root va Hl Hroot) as (l0 & t0 & _ & Ht0 & Hno & -> & _).
  rewrite lookup_leaf by exact Hno. pose proof (table_index_bound l0 va) as Hi.
  destruct (lb_entry T st Hl _ _ _ _ Ht0 Hi) as (_ & _ & Hret).
  destruct (target_inner _ l0) as [[|pg fl|l' t']| |] eqn:E; try done; [..|by destruct (Hno l' t')]; run_monad; eauto.
Qed.

(** Whether the frame of a page goes back to the allocator with the page *)
Definition frees (mt : MapTarget) : bool := match mt with NewPhysPage => true | ExistingPhysPage _ => false end.

(** A page that is mapped and unmapped again leaves every translation as it was. *)
Lemma map_then_unmap T st root va mt flags :
  labelled T st → T root = Some (Level4, 0) → map_target_ok mt → leaf_flags_ok flags → 0 ≤ va → va mod 4096 = 0 →
  (4 < free_frames (frames st))%nat → translate_address (words st) root va = Ret TranslateUnmapped →
  ∃ tp st1 st2 T', map_to root (mkPage va Size4KiB) mt flags st = Ret (Ok tp, st1) ∧
    mapped_target T' mt st st1 tp ∧
    translate_address (words st1) root va = Ret (TranslateMapped tp (Z.lor flags PRESENT) 0) ∧
    unmap root (mkPage va Size4KiB) (frees mt) st1 = Ret (Ok tp, st2) ∧
    labelled T' st2 ∧ T' root = Some (Level4, 0) ∧ flushed st2 = flushed st ++ [va; va] ∧
    (∀ a, translate_address (words st2) root a = translate_address (words st) root a) ∧
    (∀ f, 0 ≤ f → ca_used (frames st) f = true → ca_used (frames st2) f = true) ∧
    (frees mt = false → Z.of_nat (free_frames (frames st)) ≤ 4 + Z.of_nat (free_frames (frames st2))).
Proof.
  intros Hl Hroot Hmt Hfl Hva Hal Hfree Hun.
  destruct (map_to_ok T st root va mt flags Hl Hroot Hmt Hfl) as (r & st1 & T' & E & Huf & Hp).
  destruct Huf as [Hl1 Hex Hcap Hus Hnew _ _ Hfr]. cbn [level_num] in Hfr.
  destruct r as [tp|[e|p f]]; [|lia|destruct Hp; congruence].
  destruct Hp as (_ & Htg & Hfs & Htr).
  assert (Hm : translate_address (words st1) root va = Ret (TranslateMapped tp (Z.lor flags PRESENT) 0))
    by (rewrite Htr, decide_True, Hal by done; done).
  destruct (unmap_ok T' st1 root va Size4KiB (frees mt) Hl1 (Hex _ _ Hroot)) as (r & st2 & E2 & Hl2 & Hcap2 & Hp).
  { intros Hf tp' fl off E'. rewrite Hm in E'. injection E' as <- _ _. destruct mt; [done|].
    destruct Htg as (f & ? & ? & ? & ? & ?). exists f. rewrite Hcap. done. }
  destruct r as [tp'|[|? ?]]; [|destruct Hp; congruence|].
  2:{ destruct Hp as (_ & _ & Hsz & p & fl & off & E' & Hs). rewrite Hm in E'. injection E' as <- _ _. destruct Hsz. rewrite <-Hs.
      destruct mt; cbn in Htg; [rewrite Htg; apply Hmt|by destruct Htg as (f & -> & _)]. }
  destruct Hp as ((fl & E') & Hfs2 & Htr2 & Hus2). rewrite Hm in E'. injection E' as <- _ _.
  exists tp, st1, st2, T'. split_and!; [done|done|done|done|done|by apply Hex| | | |].
  - by rewrite Hfs2, Hfs, <-app_assoc.
  - intros a. rewrite Htr2, Htr. destruct (decide (same_block _ a va)) as [Hd|Hd]; [|by rewrite decide_False].
    change (Ret TranslateUnmapped = lookup (words st) Level4 root a). rewrite (lookup_same_page _ _ _ a va Hd).
    change (lookup (words st) Level4 root va) with (translate_address (words st) root va). by rewrite Hun.
  - intros f Hf Hu. rewrite Hus2, Hus by done. destruct mt; [done|]. destruct Htg as (g & -> & ? & Hg & _).
    rewrite bool_decide_eq_false_2; [done|]. intros Eq. injection Eq. unfold frame_addr, PAGE_SIZE. intros.
    assert (f = g) by lia. congruence.
  - intros Hff. rewrite (free_frames_same (frames st1) (frames st2)); [lia|done|]. intros f Hf.
    rewrite Hus2, Hff by done. apply andb_true_r.
Qed.

Definition test_frame : Page := mkPage (KERNEL_PHYSICAL_MAPPING_START + 0x100000000) Size4KiB.

(** On a kernel whose two test pages are not mapped and which has nine free frames,
    [test_new_page_table] succeeds: both pages are mapped where they are asked to be and are
    unmapped again; afterwards every address translates as before and no frame in use was
    released.  The last translation it prints, that of the second page, is labelled with the address
    of the kernel's text. *)
Theorem self_test_restores T root a (k : kmem A) :
  labelled T (mkMachine k.(k_words) a k.(k_flushed)) → T root = Some (Level4, 0) →
  k.(k_table) = Some root → k.(k_frames) = Some a → (8 < free_frames a)%nat →
  translate_address k.(k_words) root 0x400000000 = Ret TranslateUnmapped →
  translate_address k.(k_words) root 0x400010000 = Ret TranslateUnmapped →
  ∃ t1 t2 t3 f k' a', test_new_page_table k = Ret
      ([TableReport root; TargetReport 0x1234 t1; TargetReport 0x40001234 t2; TargetReport 0xffffffff80001234 t3;
        MappingReport (mkPage 0x400000000 Size4KiB) test_frame (Ok test_frame);
        TargetReport 0x400000000 (TranslateMapped test_frame 3 0); UnmapReport (Ok test_frame);
        MappedReport (mkPage 0x400010000 Size4KiB) (Ok (frame_page f));
        TargetReport 0xffffffff80001234 (TranslateMapped (frame_page f) 3 0); UnmapReport (Ok (frame_page f))], k') ∧
    k'.(k_table) = Some root ∧ k'.(k_frames) = Some a' ∧ k'.(k_heap) = k.(k_heap) ∧
    (∀ x, translate_address k'.(k_words) root x = translate_address k.(k_words) root x) ∧
    (∀ g, 0 ≤ g → ca_used a g = true → ca_used a' g = true) ∧ ca_used a f = false ∧
    k'.(k_flushed) = k.(k_flushed) ++ [0x400000000; 0x400000000; 0x400010000; 0x400010000].
Proof.
  intros Hl Hroot Ht Ha Hfree Hu1 Hu2. destruct kernel_link_flags as [Hfl _]. set (st := mkMachine _ _ _) in *.
  destruct (translate_returns T st root 0x1234 Hl Hroot) as [t1 E1].
  destruct (translate_returns T st root 0x40001234 Hl Hroot) as [t2 E2].
  destruct (translate_returns T st root 0xffffffff80001234 Hl Hroot) as [t3 E3]. exists t1, t2, t3.
  destruct (map_then_unmap T st root 0x400000000 (ExistingPhysPage test_frame) (flags_or PRESENT WRITABLE))
    as (tp & st1 & st2 & T1 & M1 & -> & R1 & U1 & L1 & Hr1 & F1 & S1 & K1 & C1); [done|done|done|done|done|done|cbn; lia|done|].
  specialize (C1 eq_refl).
  destruct (map_then_unmap T1 st2 root 0x400010000 NewPhysPage (flags_or PRESENT WRITABLE))
    as (tp & st3 & st4 & T2 & M2 & (f & -> & Hf & Hn & _) & R2 & U2 & L2 & Hr2 & F2 & S2 & K2 & _);
    [done|done|done|done|done|done|cbn in C1; lia|by rewrite S1|].
  exists f, (mkKmem (words st4) (Some (frames st4)) (flushed st4) (Some root) (k_heap k)), (frames st4).
  split_and!; [|done|done|done| | | |].
  - unfold test_new_page_table. rewrite Ht. run_monad. rewrite !VirtAddr_new_ok by done. run_monad.
    rewrite (E1 : translate_address (k_words k) _ _ = _). run_monad. rewrite (E2 : translate_address (k_words k) _ _ = _). run_monad.
    rewrite (E3 : translate_address (k_words k) _ _ = _). run_monad.
    rewrite !from_start_addr_ok by done. run_monad. rewrite PhysAddr_new_ok by done. run_monad. rewrite from_phys_addr_ok by done. run_monad.
    rewrite from_start_addr_ok by done. run_monad. change (mkPage (_ + _) Size4KiB) with test_frame.
    unfold with_allocator. rewrite Ha. run_monad. fold st. rewrite M1. run_monad. cbn [k_words k_frames k_flushed k_table k_heap start_addr].
    rewrite R1. run_monad. destruct st1 as [w1 a1 l1]. cbn [words frames flushed] in *. cbn [frees] in U1. rewrite U1. run_monad.
    cbn [k_words k_frames k_flushed k_table k_heap]. run_monad. destruct st2 as [w2 a2 l2]. cbn [words frames flushed] in *. rewrite M2. run_monad.
    cbn [k_words k_frames k_flushed k_table k_heap]. rewrite R2. run_monad. destruct st3 as [w3 a3 l3]. cbn [words frames flushed] in *.
    cbn [frees] in U2. rewrite U2. run_monad. rewrite flags_or_ok, Ht. reflexivity.
  - intros x. cbn [k_words]. by rewrite S2, S1.
  - intros g Hg Hu. by apply K2, K1.
  - destruct (ca_used a f) eqn:E; [|done]. rewrite (K1 f) in Hn by (done || lia). done.
  - cbn [k_flushed]. by rewrite F2, F1, <-app_assoc.
Qed.
End theorems.

#[local] Existing Instances documented_x86_64 documented_x86_64_laws documented_bitflags
  documented_bitflags_laws.

Lemma self_test_restores_witness : ∃ out k',
  test_new_page_table (mkKmem (words roomy_machine) (Some (frames roomy_machine)) [] (Some small_root) None) = Ret (out, k') ∧
  length out = 10%nat ∧ translate_address k'.(k_words) small_root 0x400010000 = Ret TranslateUnmapped.
Proof.
  edestruct (self_test_restores small_tables small_root (frames roomy_machine)
    (mkKmem (words roomy_machine) (Some (frames roomy_machine)) [] (Some small_root) None))
    as (t1 & t2 & t3 & f & k' & a' & E & _ & _ & _ & S & _);
    [apply roomy_labelled|reflexivity|reflexivity|reflexivity|vm_compute; lia|vm_compute; reflexivity|vm_compute; reflexivity|].
  eexists _, k'. split_and!; [exact E|reflexivity|]. rewrite S. vm_compute. reflexivity.
Defined.
