(* ===== verification/KStack.v ===== *)
(** * kernel/src/sched/stack.rs: kernel stacks with guard pages

    A kernel stack is [KERNEL_STACK_SIZE_PAGES] pages of virtual memory, the
    lowest of which is left unmapped as a guard page.  Stack numbers come from a
    [ContiguousAllocator] of [MAX_KERNEL_STACKS] slots, frames from the kernel's
    physical allocator. *)
From S2P Require Import Prelude AllocSpec BitmapAlloc External Addr PhysMem PageTable.
From S2P Require Import PageTableFacts PageTableThms Mapping MappingThms.
#[local] Open Scope Z_scope.
Import PageTable.

Module KStack.

Definition KERNEL_STACK_SIZE_PAGES : Z := 16.
Definition KERNEL_STACK_PHYS_PAGES : Z := KERNEL_STACK_SIZE_PAGES - 1.
Definition KERNEL_STACK_SIZE_BYTES : Z := KERNEL_STACK_SIZE_PAGES * PAGE_SIZE.
Definition KERNEL_STACK_START_VIRT_ADDR : Z := KERNEL_STACK_REGION_START.
Definition MAX_KERNEL_STACKS : Z := 256.
Definition MAX_KERNEL_ALLOC_BIT_CHUNKS : Z := div_ceil MAX_KERNEL_STACKS 64.

(** [KernelStackAllocator::new] on the static array of zero chunks. *)
Definition new : BitmapAllocator.t :=
  BitmapAllocator.new (replicate (Z.to_nat MAX_KERNEL_ALLOC_BIT_CHUNKS) 0).

Definition stack_init : outcome (option BitmapAllocator.t) :=
  _ ← assert_ (MAX_KERNEL_STACKS * KERNEL_STACK_SIZE_PAGES <? KERNEL_STACK_REGION_MAX_SIZE);
  mret (Some new).

(** [KernelStack { start_addr }] is its start address. *)
Section stack.
Context {x86 : X86_64}.

Definition top_addr (stack : Z) : outcome Z := VirtAddr_add stack KERNEL_STACK_SIZE_BYTES.

Definition guard_page (stack : Z) : outcome Page :=
  _ ← assert_ (stack mod PAGE_SIZE =? 0);
  from_start_addr stack Size4KiB.

Definition physically_mapped_pages (stack : Z) : outcome PageRange :=
  start_addr ← VirtAddr_add stack PAGE_SIZE;
  start_page ← from_start_addr start_addr Size4KiB;
  mret (mkPageRange start_page KERNEL_STACK_PHYS_PAGES).
End stack.

Definition is_kernel_guard_page (addr : Z) : outcome bool :=
  let above_kernel_stack := KERNEL_STACK_START_VIRT_ADDR <=? addr in
  kernel_stack_size ← umul 64 KERNEL_STACK_SIZE_BYTES MAX_KERNEL_STACKS;
  end_ ← uadd 64 KERNEL_STACK_START_VIRT_ADDR kernel_stack_size;
  let within_kernel_stack := addr <? end_ in
  if negb (above_kernel_stack && within_kernel_stack) then mret false
  else
    relative_start ← usub addr KERNEL_STACK_START_VIRT_ADDR;
    stack_page_index ← udiv relative_start PAGE_SIZE;
    r ← urem stack_page_index KERNEL_STACK_SIZE_PAGES;
    mret (r =? 0).

Section alloc.
Context {x86 : X86_64} {bf : Bitflags} {A : Type} {CA : ContiguousAllocator A}.
Context {B : Type} {CB : ContiguousAllocator B}.

(** The kernel memory state and [KERNEL_STACK_ALLOCATOR]'s contents. *)
Definition kstate : Type := kmem A * B.

(** [ptr.write_bytes(0, ..)] on mapped virtual pages: each page's frame is
    zeroed. *)
Definition zero_virtual_page (table : Z) (m : store) (page : Page) : store :=
  match translate_address m table page.(start_addr) with
  | Ret (TranslateMapped p _ _) => store_zero m p.(start_addr) (size_bytes p.(size))
  | _ => m
  end.

(** [KernelStackAllocator::allocate] *)
Definition allocate (st : kstate) : outcome (option Z * kstate) :=
  let '(k, self) := st in
  '(r, self) ← ca_allocate self 1;
  match r with
  | None => mret (None, (k, self))
  | Some stack_index =>
      off ← umul 64 stack_index KERNEL_STACK_SIZE_BYTES;
      a ← uadd 64 KERNEL_STACK_START_VIRT_ADDR off;
      stack ← VirtAddr_new a;
      '(u, k) ← with_kernel_page_table_lock (λ table k,
          guard ← guard_page stack;
          unmap_page table guard k) k;
      _ ← match u with
          | Err UnmapPageNotMapped => mret tt
          | _ => Panic PanicExplicit
          end;
      pages ← physically_mapped_pages stack;
      let flags := flags_or PRESENT WRITABLE in
      '(r, k) ← with_kernel_page_table_lock (λ table k,
          ps ← PageRange_iter (addr:=AddressVirt) pages;
          allocate_and_map_pages table ps flags k) k;
      _ ← match r with Ok _ => mret tt | Err _ => Panic PanicExpect end;
      ps ← PageRange_iter (addr:=AddressVirt) pages;
      table ← expect k.(k_table);
      let k := mkKmem (foldl (zero_virtual_page table) k.(k_words) ps)
                 k.(k_frames) k.(k_flushed) k.(k_table) k.(k_heap) in
      mret (Some stack, (k, self))
  end.

(** [KernelStackAllocator::free] *)
Definition free (stack : Z) (st : kstate) : outcome kstate :=
  let '(k, self) := st in
  d ← usub stack KERNEL_STACK_START_VIRT_ADDR;
  stack_index ← udiv d KERNEL_STACK_SIZE_BYTES;
  self ← ca_free self stack_index 1;
  pages ← physically_mapped_pages stack;
  ps ← PageRange_iter (addr:=AddressVirt) pages;
  k ← foldM (λ page k,
        '(r, k) ← with_kernel_page_table_lock (λ table k, unmap_and_free_page table page k) k;
        match r with Ok _ => mret k | Err _ => Panic PanicExpect end) ps k;
  mret (k, self).

(** [allocate_stack] and [Drop for KernelStack], on the locked allocator. *)
Definition allocate_stack (k : kmem A) (lock : option B) : outcome (Z * kmem A * option B) :=
  allocator ← expect lock;
  '(r, (k, allocator)) ← allocate (k, allocator);
  stack ← expect r;
  mret (stack, k, Some allocator).

Definition drop (stack : Z) (k : kmem A) (lock : option B) : outcome (kmem A * option B) :=
  allocator ← expect lock;
  '(k, allocator) ← free stack (k, allocator);
  mret (k, Some allocator).
End alloc.

(** ** Geometry *)
Definition stack_addr (i : Z) : Z := KERNEL_STACK_START_VIRT_ADDR + i * KERNEL_STACK_SIZE_BYTES.

(** [is_kernel_guard_page] recognises exactly the guard pages: for every
    [u64] address it answers without a panic, and answers true if and only if the
    address lies in the first page of one of the [MAX_KERNEL_STACKS] stacks. *)
Theorem is_kernel_guard_page_spec addr : 0 ≤ addr < 2 ^ 64 →
  ∃ b, is_kernel_guard_page addr = Ret b ∧
    (b = true ↔ ∃ i, 0 ≤ i < MAX_KERNEL_STACKS ∧ stack_addr i ≤ addr < stack_addr i + PAGE_SIZE).
Proof.
  intros Ha. unfold is_kernel_guard_page, stack_addr.
  change (umul 64 KERNEL_STACK_SIZE_BYTES MAX_KERNEL_STACKS) with (Ret 0x1000000).
  cbn [mbind outcome_bind].
  change (uadd 64 KERNEL_STACK_START_VIRT_ADDR 0x1000000) with (Ret 0xffffd00001000000).
  cbn [mbind outcome_bind]. unfold KERNEL_STACK_START_VIRT_ADDR, KERNEL_STACK_REGION_START,
    KERNEL_STACK_SIZE_BYTES, KERNEL_STACK_SIZE_PAGES, PAGE_SIZE, MAX_KERNEL_STACKS.
  destruct (negb _) eqn:E; [eexists; split; [done|]; split; [done|]; intros (i & Hi & ?); lia|].
  rewrite usub_ok by lia. cbn [mbind outcome_bind]. unfold udiv, urem. simpl.
  eexists; split; [done|]. rewrite Z.eqb_eq. split.
  - intros Hz. exists ((addr - 0xffffd00000000000) / 65536). zdm.
  - intros (i & Hi & Hb). zdm.
Qed.

Lemma is_kernel_guard_page_spec_witness :
  ∃ b, is_kernel_guard_page 0xffffd00000020fff = Ret b ∧ b = true.
Proof.
  destruct (is_kernel_guard_page_spec 0xffffd00000020fff) as (b & E & H); [lia|].
  exists b. split; [exact E|]. apply H. exists 2. vm_compute.
  split; [split; [discriminate|reflexivity]|split; [discriminate|reflexivity]].
Defined.
End KStack.
