(* ===== verification/KStackThms.v ===== *)
(** * Kernel stacks: what allocation and deallocation do *)
From S2P Require Import Prelude AllocSpec BitmapAlloc External Addr PhysMem PageTable.
From S2P Require Import PageTableFacts PageTableThms Mapping MappingThms PageTableProps KStack.
#[local] Open Scope Z_scope.
Import PageTable KStack.

Section facts.
Context {x86 : X86_64} {x86_laws : X86_64Laws} {bf : Bitflags} {bf_laws : BitflagsLaws}.
Context {A : Type} {CA : ContiguousAllocator A} {CAL : ContiguousAllocatorLaws A}.
Context {B : Type} {CB : ContiguousAllocator B} {CBL : ContiguousAllocatorLaws B}.
Implicit Types (st : machine A) (T : table_map) (k : kmem A).

Definition machine_of k (a : A) : machine A := mkMachine k.(k_words) a k.(k_flushed).

(** The kernel's page table and frame allocator are initialised and well formed. *)
Record kmem_ok T (root : Z) k (a : A) : Prop := {
  ko_table : k.(k_table) = Some root;
  ko_frames : k.(k_frames) = Some a;
  ko_labelled : labelled T (machine_of k a);
  ko_root : T root = Some (Level4, 0);
}.

(** ** Zeroing frames that are not tables *)
Lemma labelled_ext T st m' : labelled T st →
  (∀ t l p i, T t = Some (l, p) → 0 ≤ i < 512 → m' (t + 8 * i) = words st (t + 8 * i)) →
  labelled T (mkMachine m' (frames st) (flushed st)).
Proof.
  intros [Hf Ht He Hc] Hm. split; simpl; [done|done| |].
  - intros t l p i E Hi. rewrite (Hm _ _ _ _ E Hi). by eapply He.
  - intros t l p i l' t' E Hi. rewrite (Hm _ _ _ _ E Hi). by eapply Hc.
Qed.

Lemma zero_frame_entries T st f t l p i : labelled T st → T (frame_addr f) = None →
  T t = Some (l, p) → 0 ≤ i < 512 →
  store_zero (words st) (frame_addr f) 4096 (t + 8 * i) = words st (t + 8 * i).
Proof.
  intros Hl Hn Ht Hi. apply store_zero_out.
  destruct (lb_table T st Hl _ _ _ Ht) as (f' & -> & _).
  assert (f' ≠ f) by congruence. unfold frame_addr, PAGE_SIZE. lia.
Qed.

Lemma zero_pages_ok T root ps fr st m' : labelled T st → T root = Some (Level4, 0) →
  (∀ p, p ∈ ps → T (frame_addr (fr p)) = None ∧ ∃ fl off,
     translate_address (words st) root p.(start_addr)
       = Ret (TranslateMapped (frame_page (fr p)) fl off)) →
  m' = foldl (zero_virtual_page root) (words st) ps →
  labelled T (mkMachine m' (frames st) (flushed st)) ∧
  (∀ a, translate_address m' root a = translate_address (words st) root a) ∧
  (∀ p y, p ∈ ps → 0 ≤ y < 4096 → m' (frame_addr (fr p) + y) = 0) ∧
  ∀ x, m' x = words st x ∨ m' x = 0.
Proof.
  intros Hl Hroot. revert st Hl. induction ps as [|p ps IH]; intros st Hl Hps Hm'.
  { subst m'. split_and!; [by destruct st|done|by intros p y ?%elem_of_nil|by left]. }
  destruct (Hps p ltac:(by left)) as (Hn & fl & off & Htr).
  cbn [foldl] in Hm'. unfold zero_virtual_page at 2 in Hm'. rewrite Htr in Hm'. 
  set (m1 := store_zero (words st) (frame_addr (fr p)) 4096).
  assert (Hm1 : ∀ t l q i, T t = Some (l, q) → 0 ≤ i < 512 → m1 (t + 8 * i) = words st (t + 8 * i))
    by (intros; by eapply zero_frame_entries).
  pose proof (labelled_ext T st m1 Hl Hm1) as Hl1.
  assert (Htr1 : ∀ a, translate_address m1 root a = translate_address (words st) root a).
  { intros a. apply (lookup_same T st m1 a Level4 root Hl); [by rewrite vpn_root|done]. }
  destruct (IH _ Hl1) as (Hl2 & Htr2 & Hz & Hor).
  { intros q Hq. destruct (Hps q ltac:(by right)) as (? & fl' & off' & Hq'). split; [done|].
    exists fl', off'. cbn [words]. by rewrite Htr1. }
  { exact Hm'. }
  cbn [words frames flushed] in *. split_and!; [done| | |].
  - intros a. by rewrite Htr2, Htr1.
  - intros q y Hq Hy. apply elem_of_cons in Hq as [->|Hq]; [|by apply Hz].
    destruct (Hor (frame_addr (fr p) + y)) as [->| ->]; [|done].
    apply store_zero_in. lia.
  - intros x. destruct (Hor x) as [->| ->]; [|by right]. unfold m1, store_zero.
    case_match; [by right|by left].
Qed.

(** ** Addresses of stack [i] *)
Lemma stack_addr_facts i : 0 ≤ i < MAX_KERNEL_STACKS →
  canonical (stack_addr i) = true ∧ canonical (stack_addr i + 4096) = true ∧
  0 ≤ stack_addr i < 2 ^ 64 ∧ stack_addr i mod 4096 = 0 ∧
  (stack_addr i) mod 2 ^ 48 = 0xd00000000000 + i * 65536.
Proof.
  unfold MAX_KERNEL_STACKS. intros Hi.
  assert (E : stack_addr i = 0xffffd00000000000 + i * 65536) by done.
  unfold canonical. rewrite E. split_and!; [lia..| |].
  - replace (0xffffd00000000000 + i * 65536) with ((0xffffd00000000 + i * 16) * 4096) by lia.
    apply Z_mod_mult.
  - replace (0xffffd00000000000 + i * 65536)
      with (0xd00000000000 + i * 65536 + 0xffff * 2 ^ 48) by lia.
    rewrite Z_mod_plus_full. apply Z.mod_small. lia.
Qed.

Lemma guard_page_ok i : 0 ≤ i < MAX_KERNEL_STACKS →
  guard_page (stack_addr i) = Ret (mkPage (stack_addr i) Size4KiB).
Proof.
  intros Hi. destruct (stack_addr_facts i Hi) as (_ & _ & Hw & Ha & _).
  unfold guard_page, PAGE_SIZE. rewrite Ha. simpl. by apply from_start_addr_ok.
Qed.

Lemma mapped_pages_ok i : 0 ≤ i < MAX_KERNEL_STACKS →
  let r := mkPageRange (mkPage (stack_addr i + 4096) Size4KiB) 15 in
  physically_mapped_pages (stack_addr i) = Ret r ∧
  PageRange_iter (addr:=AddressVirt) r = Ret (nth_page r <$> range 0 15).
Proof.
  intros Hi r. destruct (stack_addr_facts i Hi) as (Hc & Hc' & Hw & Ha & _).
  assert (Hx : stack_addr i = 0xffffd00000000000 + i * 65536) by done.
  unfold MAX_KERNEL_STACKS in Hi. split.
  - unfold physically_mapped_pages, PAGE_SIZE. rewrite VirtAddr_add_ok by (done || lia).
    cbn [mbind outcome_bind]. rewrite from_start_addr_ok; [done|lia|].
    change (size_bytes Size4KiB) with 4096. rewrite Zplus_mod, Ha. done.
  - apply (PageRange_iter_virt r); simpl; [lia|lia|done|].
    intros j Hj. unfold canonical. lia.
Qed.

(** The virtual pages of a stack, without the guard page, start here. *)
Definition stack_base (i : Z) : Z := stack_addr i + 4096.

Lemma stack_base_facts i : 0 ≤ i < MAX_KERNEL_STACKS →
  stack_base i mod 4096 = 0 ∧ stack_base i mod 2 ^ 48 = 0xd00000000000 + i * 65536 + 4096.
Proof.
  intros Hi. destruct (stack_addr_facts i Hi) as (_ & _ & _ & Ha & Hm).
  unfold MAX_KERNEL_STACKS in Hi. unfold stack_base. split.
  - by rewrite Zplus_mod, Ha.
  - rewrite <-Zplus_mod_idemp_l, Hm. apply Z.mod_small. lia.
Qed.

(** No address of slot [i] is mapped. *)
Definition slot_unmapped k root (i : Z) : Prop := ∀ x, 0 ≤ x < KERNEL_STACK_SIZE_BYTES →
  translate_address k.(k_words) root (stack_addr i + x) = Ret TranslateUnmapped.

(** Slot [i] holds a stack: the guard page is unmapped, the [j]-th page above it
    is mapped writable to the frame [fr j]; the frames are different, in use and
    not page tables. *)
Record stack_mapped T k root (a : A) (i : Z) (fr : Z → Z) : Prop := {
  sm_guard x : 0 ≤ x < PAGE_SIZE →
    translate_address k.(k_words) root (stack_addr i + x) = Ret TranslateUnmapped;
  sm_pages x : 0 ≤ x < KERNEL_STACK_PHYS_PAGES * PAGE_SIZE →
    translate_address k.(k_words) root (stack_base i + x)
    = Ret (TranslateMapped (frame_page (fr (x / 4096))) (Z.lor PRESENT WRITABLE) (x mod 4096));
  sm_inj j j' : 0 ≤ j < KERNEL_STACK_PHYS_PAGES → 0 ≤ j' < KERNEL_STACK_PHYS_PAGES →
    fr j = fr j' → j = j';
  sm_frames j : 0 ≤ j < KERNEL_STACK_PHYS_PAGES →
    0 < fr j < ca_capacity a ∧ ca_used a (fr j) = true ∧ T (frame_addr (fr j)) = None;
}.

Lemma slot_split i x : 0 ≤ i < MAX_KERNEL_STACKS →
  in_region (stack_base i) 15 (stack_addr i + x) → 0 ≤ x < 65536 → 4096 ≤ x.
Proof.
  intros Hi Hr Hx. destruct (stack_addr_facts i Hi) as (_ & _ & _ & _ & Hm).
  destruct (stack_base_facts i Hi) as [_ Hb]. unfold in_region in Hr.
  unfold MAX_KERNEL_STACKS in Hi. rewrite region_mod, Hm, Hb in Hr by lia. lia.
Qed.

Lemma zero_stack_ok T root k a i fr : 0 ≤ i < MAX_KERNEL_STACKS →
  kmem_ok T root k a → stack_mapped T k root a i fr →
  let ps := nth_page (mkPageRange (mkPage (stack_base i) Size4KiB) 15) <$> range 0 15 in
  let k' := mkKmem (foldl (zero_virtual_page root) k.(k_words) ps)
              k.(k_frames) k.(k_flushed) k.(k_table) k.(k_heap) in
  kmem_ok T root k' a ∧ stack_mapped T k' root a i fr ∧
  (∀ j y, 0 ≤ j < 15 → 0 ≤ y < 4096 → k'.(k_words) (frame_addr (fr j) + y) = 0) ∧
  ∀ y, translate_address k'.(k_words) root y = translate_address k.(k_words) root y.
Proof.
  intros Hi [Hkt Hkf Hl Hroot] [Hg Hp Hinj Hfr] ps k'.
  set (fr' := λ p : Page, fr ((p.(start_addr) - stack_base i) / 4096)).
  assert (Hfr' : ∀ j, fr' (nth_page (mkPageRange (mkPage (stack_base i) Size4KiB) 15) j) = fr j).
  { intros j. unfold fr'. simpl. f_equal.
    replace (stack_base i + j * 4096 - stack_base i) with (j * 4096) by lia.
    by apply Z.div_mul. }
  destruct (zero_pages_ok T root ps fr' (machine_of k a) k'.(k_words) Hl Hroot)
    as (Hl' & Htr & Hz & _); [|reflexivity|].
  { intros p Hps. unfold ps in Hps. apply list_elem_of_fmap in Hps as (j & -> & Hj).
    apply elem_of_range in Hj. rewrite Hfr'.
    split; [by destruct (Hfr j Hj) as (_ & _ & ?)|]. eexists _, _.
    cbn [nth_page start_addr start size]. rewrite Hp by (unfold KERNEL_STACK_PHYS_PAGES,
      KERNEL_STACK_SIZE_PAGES, PAGE_SIZE; simpl; lia).
    change (size_bytes Size4KiB) with 4096. rewrite Z.div_mul by lia. reflexivity. }
  split_and!; [by split| | |done].
  - split; [intros x Hx|intros x Hx|done|done].
    + change (k_words k') with (foldl (zero_virtual_page root) k.(k_words) ps).
      rewrite Htr. by apply Hg.
    + rewrite Htr. by apply Hp.
  - intros j y Hj Hy. rewrite <-(Hfr' j). apply Hz; [|done]. unfold ps.
    apply list_elem_of_fmap. exists j. split; [done|]. by apply elem_of_range.
Qed.

Definition allocate_post T root k (a : A) (b : B) (r : option Z) k' (b' : B) : Prop :=
  match r with
  | None => k' = k ∧ ∀ i, 0 ≤ i < MAX_KERNEL_STACKS → ca_used b i = true
  | Some s => ∃ i T' a' fr, s = stack_addr i ∧ 0 ≤ i < MAX_KERNEL_STACKS ∧
      ca_used b i = false ∧ (∀ j, 0 ≤ j → ca_used b' j = ca_used b j || bool_decide (j = i)) ∧
      kmem_ok T' root k' a' ∧ stack_mapped T' k' root a' i fr ∧
      (∀ j, 0 ≤ j < KERNEL_STACK_PHYS_PAGES → ca_used a (fr j) = false) ∧
      (∀ j y, 0 ≤ j < KERNEL_STACK_PHYS_PAGES → 0 ≤ y < PAGE_SIZE →
         k'.(k_words) (frame_addr (fr j) + y) = 0) ∧
      ∀ y, ¬ in_region (stack_base i) KERNEL_STACK_PHYS_PAGES y →
        translate_address k'.(k_words) root y = translate_address k.(k_words) root y
  end.

(** Unmapping the guard page of a free slot finds nothing. *)
Lemma guard_unmap_ok T root k a i : 0 ≤ i < MAX_KERNEL_STACKS → kmem_ok T root k a →
  slot_unmapped k root i →
  with_kernel_page_table_lock (λ table k,
    guard ← guard_page (stack_addr i); unmap_page table guard k) k
  = Ret (Err UnmapPageNotMapped, k).
Proof.
  intros Hi [Hkt Hkf Hl Hroot] Hun. unfold with_kernel_page_table_lock. rewrite Hkt. run_monad.
  rewrite guard_page_ok by done. run_monad. unfold unmap_page, with_allocator.
  rewrite Hkf. run_monad. fold (machine_of k a).
  destruct (unmap_ok T (machine_of k a) root (stack_addr i) Size4KiB false Hl Hroot ltac:(done))
    as (u & st1 & -> & _ & _ & Hu).
  pose proof (Hun 0 ltac:(by vm_compute)) as Hg0. rewrite Z.add_0_r in Hg0.
  destruct u as [tp|[|se sa]]; cbn [machine_of words] in Hu.
  - destruct Hu as ((fl & Hu) & _). congruence.
  - destruct Hu as [-> _]. run_monad. destruct k. simpl in *. by subst.
  - destruct Hu as (_ & _ & _ & p & fl & off & Hu & _). congruence.
Qed.

(** Mapping the pages above the guard page of a free slot. *)
Lemma map_stack_ok T root k a i : 0 ≤ i < MAX_KERNEL_STACKS → kmem_ok T root k a →
  slot_unmapped k root i →
  let r0 := mkPageRange (mkPage (stack_base i) Size4KiB) 15 in
  ∃ r k2, with_kernel_page_table_lock (λ table k,
      ps ← PageRange_iter (addr:=AddressVirt) r0;
      allocate_and_map_pages table ps (flags_or PRESENT WRITABLE) k) k = Ret (r, k2) ∧
    match r with
    | Err _ => Z.of_nat (free_frames a) ≤ 60
    | Ok _ => ∃ T2 a2 fr, kmem_ok T2 root k2 a2 ∧ stack_mapped T2 k2 root a2 i fr ∧
        (∀ j, 0 ≤ j < 15 → ca_used a (fr j) = false) ∧
        ∀ y, ¬ in_region (stack_base i) 15 y →
          translate_address k2.(k_words) root y = translate_address k.(k_words) root y
    end.
Proof.
  intros Hi [Hkt Hkf Hl Hroot] Hun r0. destruct (stack_base_facts i Hi) as [Hba Hbm].
  assert (Hi' : 0 ≤ i < 256) by exact Hi.
  unfold with_kernel_page_table_lock. rewrite Hkt. run_monad.
  destruct (mapped_pages_ok i Hi) as [_ Hiter]. unfold stack_base in r0. unfold r0.
  rewrite Hiter. run_monad. unfold allocate_and_map_pages, with_allocator. rewrite Hkf. run_monad.
  fold (machine_of k a). fold (stack_base i).
  destruct (map_region_ok T (machine_of k a) root (stack_base i) 15 (flags_or PRESENT WRITABLE)
    Hl Hroot) as (r & st2 & T2 & -> & Hl2 & Hex2 & Hcap2 & Hus2 & _ & _ & Hfrs & Hoth & Hr2);
    [apply kernel_link_flags|done|lia|lia| |].
  { intros x Hx. unfold stack_base. rewrite <-Z.add_assoc. apply Hun.
    unfold KERNEL_STACK_SIZE_BYTES, KERNEL_STACK_SIZE_PAGES, PAGE_SIZE. lia. }
  run_monad. eexists r, _. split; [reflexivity|]. destruct r as [[]|e].
  2: { destruct Hr2 as [Hno _]. simpl in Hfrs. lia. }
  destruct Hr2 as (fr & Hinj & Hfr & Hmap). rewrite flags_or_ok in Hmap.
  exists T2, (frames st2), fr. split_and!.
  - split; [done|done| |by apply Hex2]. by destruct st2.
  - split; [|exact Hmap|exact Hinj|].
    + intros x Hx. unfold PAGE_SIZE in Hx. cbn [k_words]. rewrite Hoth.
      * apply Hun. unfold KERNEL_STACK_SIZE_BYTES, KERNEL_STACK_SIZE_PAGES, PAGE_SIZE. lia.
      * intros Hin. apply slot_split in Hin; [lia|done|lia].
    + intros j Hj. destruct (Hfr j Hj) as (? & _ & ? & ?). rewrite Hcap2. done.
  - intros j Hj. by destruct (Hfr j Hj) as (_ & ? & _).
  - exact Hoth.
Qed.

Lemma allocate_ok T root k (a : A) (b : B) : kmem_ok T root k a → ca_wf b →
  ca_capacity b = MAX_KERNEL_STACKS →
  (∀ i, 0 ≤ i < MAX_KERNEL_STACKS → ca_used b i = false → slot_unmapped k root i) →
  (allocate (k, b) = Panic PanicExpect ∧ Z.of_nat (free_frames a) ≤ 4 * KERNEL_STACK_PHYS_PAGES) ∨
  ∃ r k' b', allocate (k, b) = Ret (r, (k', b')) ∧ ca_wf b' ∧
    ca_capacity b' = MAX_KERNEL_STACKS ∧ allocate_post T root k a b r k' b'.
Proof.
  intros Hk Hwf Hcap Hun.
  destruct (ca_allocate_ok b 1 Hwf ltac:(lia)) as (r & b' & E & Hwf' & Hcap' & Hff & Hr).
  unfold allocate. rewrite E. run_monad. destruct r as [i|].
  2: { right. exists None, k, b'. split_and!; [done|done|congruence|]. split; [done|].
       intros i Hi. apply not_false_is_true. intros Hu. apply (Hff i ltac:(lia)).
       intros p Hp. by replace p with i by lia. }
  destruct (first_fit_capacity b 1 i ltac:(lia) Hff) as [Hi0 Hic].
  assert (Hi : 0 ≤ i < MAX_KERNEL_STACKS) by lia.
  assert (Hfree : ca_used b i = false) by (destruct Hff as (_ & Hrun & _); apply Hrun; lia).
  destruct (stack_addr_facts i Hi) as (Hc & _ & Hw & _ & _).
  assert (Hi' : 0 ≤ i < 256) by exact Hi.
  rewrite umul_ok by (unfold KERNEL_STACK_SIZE_BYTES, KERNEL_STACK_SIZE_PAGES, PAGE_SIZE; lia).
  run_monad. rewrite uadd_ok by (unfold stack_addr in Hw; lia).
  run_monad. fold (stack_addr i). rewrite VirtAddr_new_ok by done. run_monad.
  rewrite (guard_unmap_ok T root k a i Hi Hk) by auto. run_monad.
  destruct (mapped_pages_ok i Hi) as [-> Hiter]. run_monad.
  destruct (map_stack_ok T root k a i Hi Hk (Hun i Hi Hfree)) as (r & k2 & E2 & Hr2).
  unfold stack_base in E2. rewrite E2. run_monad. destruct r as [[]|e]; [|by left].
  destruct Hr2 as (T2 & a2 & fr & Hk2 & Hs2 & Hfr & Hoth). rewrite Hiter. run_monad.
  rewrite (ko_table _ _ _ _ Hk2). run_monad.
  destruct (zero_stack_ok T2 root k2 a2 i fr Hi Hk2 Hs2) as (Hk3 & Hs3 & Hz & Htr).
  rewrite (ko_table _ _ _ _ Hk2) in *.
  right. eexists (Some _), _, b'. split; [reflexivity|]. split_and!; [done|congruence|].
  exists i, T2, a2, fr. split_and!; [done|lia|lia|done| |exact Hk3|exact Hs3|exact Hfr|exact Hz|].
  - intros j Hj. rewrite (Hr j Hj). f_equal. unfold in_block. case_bool_decide; lia.
  - intros y Hy. rewrite Htr. by apply Hoth.
Qed.

(** ** Deallocation *)

(** The state while [free] has unmapped the first [m] pages. *)
Record half_freed T k (a : A) root i (fr : Z → Z) m k' (a' : A) : Prop := {
  hf_ok : kmem_ok T root k' a';
  hf_capacity : ca_capacity a' = ca_capacity a;
  hf_translate y : translate_address k'.(k_words) root y =
    if decide (in_region (stack_base i) m y) then Ret TranslateUnmapped
    else translate_address k.(k_words) root y;
  hf_used f : 0 ≤ f →
    ca_used a' f = ca_used a f && negb (bool_decide (f ∈ fr <$> range 0 m));
}.

#[local] Instance in_region_dec base n y : Decision (in_region base n y).
Proof. unfold in_region. apply _. Defined.

Lemma in_region_succ base m y : base mod 4096 = 0 → 0 ≤ m →
  base mod 2 ^ 48 + (m + 1) * 4096 ≤ 2 ^ 48 →
  in_region base (m + 1) y ↔ in_region base m y ∨ same_page y (base + m * 4096).
Proof.
  intros Ha Hm Hb. split.
  - intros Hr. destruct (decide (in_region base m y)) as [|Hn]; [by left|right].
    unfold same_page. rewrite region_vpn, Z.div_mul by lia. unfold vpn, in_region in *.
    change (2 ^ (12 + 9 * 0)) with 4096.
    assert (Hbm : (base mod 2 ^ 48) mod 4096 = 0).
    { change (2 ^ 48) with (4096 * 2 ^ 36). rewrite Z.rem_mul_r by lia.
      rewrite Ha, Z.add_0_l, Z.mul_comm. by apply Z_mod_mult. }
    pose proof (Z.div_mod (base mod 2 ^ 48) 4096 ltac:(lia)).
    symmetry. apply (Z.div_unique _ _ _ (y mod 2 ^ 48 - base mod 2 ^ 48 - m * 4096)); lia.
  - intros [Hr|Hs].
    + unfold in_region in *. lia.
    + apply (region_page_of base m); [done|lia|lia|done].
Qed.

Lemma free_step T k a root i fr m k' a' :
  0 ≤ i < MAX_KERNEL_STACKS → stack_mapped T k root a i fr → 0 ≤ m < 15 →
  half_freed T k a root i fr m k' a' →
  let page := nth_page (mkPageRange (mkPage (stack_base i) Size4KiB) 15) m in
  ∃ k2 a2, ('(r, k) ← with_kernel_page_table_lock
                        (λ table k, unmap_and_free_page table page k) k';
            match r with Ok _ => mret k | Err _ => Panic PanicExpect end) = Ret k2 ∧
    half_freed T k a root i fr (m + 1) k2 a2.
Proof.
  intros Hi Hs Hm [[Hkt Hkf Hl Hroot] Hcap Htr Hus] page.
  destruct (stack_base_facts i Hi) as [Hba Hbm]. assert (Hi' : 0 ≤ i < 256) by exact Hi.
  assert (Hva : start_addr page = stack_base i + m * 4096) by done.
  set (va := stack_base i + m * 4096) in *.
  assert (Hmod : va mod 2 ^ 48 = stack_base i mod 2 ^ 48 + m * 4096)
    by (apply region_mod; lia).
  assert (Hmap : translate_address k'.(k_words) root va
    = Ret (TranslateMapped (frame_page (fr m)) (Z.lor PRESENT WRITABLE) 0)).
  { rewrite Htr, decide_False by (unfold in_region; lia). unfold va.
    rewrite (sm_pages _ _ _ _ _ _ Hs)
      by (unfold KERNEL_STACK_PHYS_PAGES, KERNEL_STACK_SIZE_PAGES, PAGE_SIZE; lia).
    rewrite Z.div_mul, Z.mod_mul by lia. done. }
  destruct (sm_frames _ _ _ _ _ _ Hs m Hm) as (Hfb & Hfu & Hft).
  assert (Hfu' : ca_used a' (fr m) = true).
  { rewrite Hus, Hfu by lia. rewrite bool_decide_eq_false_2; [done|].
    intros (j & Hj & Hjr)%list_elem_of_fmap. apply elem_of_range in Hjr.
    assert (m = j); [|lia]. apply (sm_inj _ _ _ _ _ _ Hs);
      [exact Hm|unfold KERNEL_STACK_PHYS_PAGES, KERNEL_STACK_SIZE_PAGES; lia|done]. }
  unfold with_kernel_page_table_lock. rewrite Hkt. run_monad.
  unfold unmap_and_free_page, with_allocator. rewrite Hkf. run_monad.
  destruct (unmap_ok T (machine_of k' a') root va Size4KiB true Hl Hroot)
    as (r & st2 & E & Hl2 & Hcap2 & Hr).
  { intros _ tp fl off Htp. cbn [machine_of words] in Htp. rewrite Hmap in Htp.
    injection Htp as <- <- <-. exists (fr m). rewrite <-Hcap in Hfb. done. }
  cbn [machine_of words frames flushed] in *.
  destruct r as [tp|[|se sa]]; [|destruct Hr as [_ Hr]; congruence
    |destruct Hr as (_ & _ & Hne & p & fl & off & Hr & Hsz); rewrite Hmap in Hr;
     injection Hr as <- <- <-; by destruct Hne].
  destruct Hr as ((fl & Htp) & _ & Htr2 & Hus2). rewrite Hmap in Htp. injection Htp as <- _ _.
  unfold machine_of in E. change page with (mkPage va Size4KiB). rewrite E. run_monad. eexists _, (frames st2). split; [reflexivity|].
  split; [split; [done|done|by destruct st2|done]|congruence| |].
  - intros y. cbn [k_words]. rewrite Htr2, Htr.
    pose proof (in_region_succ (stack_base i) m y Hba ltac:(lia) ltac:(lia)) as Hsucc.
    change (same_block Size4KiB y va) with (same_page y va).
    destruct (decide (same_page y va)), (decide (in_region (stack_base i) m y)),
      (decide (in_region (stack_base i) (m + 1) y)); try done; exfalso; tauto.
  - intros f Hf. rewrite Hus2, Hus by done. rewrite (range_snoc 0 (m + 1)) by lia.
    replace (m + 1 - 1) with m by lia. rewrite fmap_app, <-andb_assoc. f_equal. simpl.
    rewrite <-negb_orb. f_equal. rewrite <-bool_decide_or. apply bool_decide_ext.
    rewrite elem_of_app, list_elem_of_singleton, frame_page_inj. naive_solver.
Qed.

Lemma free_ok T root k a i fr (b : B) : kmem_ok T root k a → 0 ≤ i < MAX_KERNEL_STACKS →
  stack_mapped T k root a i fr → ca_wf b → ca_capacity b = MAX_KERNEL_STACKS →
  ca_used b i = true →
  ∃ k' b' a', free (stack_addr i) (k, b) = Ret (k', b') ∧
    ca_wf b' ∧ ca_capacity b' = MAX_KERNEL_STACKS ∧
    (∀ j, 0 ≤ j → ca_used b' j = ca_used b j && negb (bool_decide (j = i))) ∧
    half_freed T k a root i fr 15 k' a'.
Proof.
  intros Hk Hi Hs Hwf Hcap Hu. destruct (stack_addr_facts i Hi) as (_ & _ & Hw & _).
  assert (Hi' : 0 ≤ i < 256) by exact Hi.
  assert (Hx : stack_addr i = 0xffffd00000000000 + i * 65536) by done.
  unfold free. rewrite usub_ok by (rewrite Hx; unfold KERNEL_STACK_START_VIRT_ADDR,
    KERNEL_STACK_REGION_START; lia). run_monad.
  replace (stack_addr i - KERNEL_STACK_START_VIRT_ADDR) with (i * 65536)
    by (rewrite Hx; unfold KERNEL_STACK_START_VIRT_ADDR, KERNEL_STACK_REGION_START; lia).
  change KERNEL_STACK_SIZE_BYTES with 65536. unfold udiv. simpl (65536 =? 0). run_monad.
  rewrite Z.div_mul by lia.
  destruct (ca_free_ok b i 1 Hwf) as (b' & -> & Hwf' & Hcap' & Hcl); [lia|lia|lia| |].
  { intros p Hp. by replace p with i by lia. }
  run_monad. destruct (mapped_pages_ok i Hi) as [-> Hiter]. run_monad. rewrite Hiter. run_monad.
  rewrite foldM_fmap. fold (stack_base i).
  destruct (foldM_inv (λ m k,
      '(r, k) ← with_kernel_page_table_lock (λ table k, unmap_and_free_page table
                  (nth_page (mkPageRange (mkPage (stack_base i) Size4KiB) 15) m) k) k;
      match r with Ok _ => mret k | Err _ => Panic PanicExpect end)
    (λ done k', ∃ a', half_freed T k a root i fr (zlen done) k' a') (range 0 15) k)
    as (k' & E & a' & Hh).
  - exists a. split; [done|done| |].
    + intros y. rewrite decide_False; [done|]. unfold in_region, zlen. simpl. lia.
    + intros f Hf. change (zlen (@nil Z)) with 0. rewrite range_nil by lia. simpl.
      by rewrite andb_true_r.
  - intros done m rest k1 Hsp (a1 & Hh). apply range_split_at in Hsp as (Hm & Hmb & _ & _).
    rewrite Z.add_0_l in Hm. rewrite <-Hm in Hh.
    destruct (free_step T k a root i fr m k1 a1 Hi Hs Hmb Hh) as (k2 & a2 & E & Hh2).
    exists k2. split; [exact E|]. exists a2. unfold zlen in *. rewrite length_app. simpl.
    by replace (Z.of_nat (length done + 1)) with (m + 1) by lia.
  - cbn [start_addr] in E. rewrite E. run_monad. exists k', b', a'.
    split_and!; [done|done|congruence| |].
    + intros j Hj. rewrite (Hcl j Hj). do 2 f_equal. unfold in_block. case_bool_decide; lia.
    + unfold zlen in Hh. by rewrite length_range in Hh.
Qed.

Lemma region_unmapped k root i y : 0 ≤ i < MAX_KERNEL_STACKS → slot_unmapped k root i →
  in_region (stack_base i) 15 y → translate_address k.(k_words) root y = Ret TranslateUnmapped.
Proof.
  intros Hi Hun Hr. destruct (stack_base_facts i Hi) as [Hba Hbm].
  assert (Hi' : 0 ≤ i < 256) by exact Hi. unfold in_region in Hr.
  set (x := y mod 2 ^ 48 - stack_base i mod 2 ^ 48).
  assert (Hs : same_page y (stack_base i + x)).
  { unfold same_page, vpn. rewrite (region_mod (stack_base i) x) by lia. do 2 f_equal. lia. }
  change (lookup k.(k_words) Level4 root y = Ret TranslateUnmapped).
  rewrite (lookup_same_page _ _ _ y _ Hs). unfold stack_base. rewrite <-Z.add_assoc.
  change (lookup k.(k_words) Level4 root (stack_addr i + (4096 + x)))
    with (translate_address k.(k_words) root (stack_addr i + (4096 + x))).
  rewrite Hun; [done|].
  unfold KERNEL_STACK_SIZE_BYTES, KERNEL_STACK_SIZE_PAGES, PAGE_SIZE. lia.
Qed.

(** C24: allocating a kernel stack: as long as the slots that are not handed out
    are unmapped, the only failure is that frames ran out, which does not happen
    with more than four free frames for each page of the stack; [None] means that all
    [MAX_KERNEL_STACKS] slots are taken; otherwise the stack is in a slot that
    was free, its guard page is unmapped, the 15 pages above are mapped writable
    to different frames that were free, are not page tables and read as zero, and
    no translation outside these pages changes. *)
Theorem kstack_allocate_spec T root k (a : A) (b : B) : kmem_ok T root k a → ca_wf b →
  ca_capacity b = MAX_KERNEL_STACKS →
  (∀ i, 0 ≤ i < MAX_KERNEL_STACKS → ca_used b i = false → slot_unmapped k root i) →
  (allocate (k, b) = Panic PanicExpect ∧ Z.of_nat (free_frames a) ≤ 4 * KERNEL_STACK_PHYS_PAGES) ∨
  ∃ r k' b', allocate (k, b) = Ret (r, (k', b')) ∧ ca_wf b' ∧
    ca_capacity b' = MAX_KERNEL_STACKS ∧
    match r with
    | None => k' = k ∧ ∀ i, 0 ≤ i < MAX_KERNEL_STACKS → ca_used b i = true
    | Some s => ∃ i T' a' fr, s = stack_addr i ∧ 0 ≤ i < MAX_KERNEL_STACKS ∧
        ca_used b i = false ∧ (∀ j, 0 ≤ j → ca_used b' j = ca_used b j || bool_decide (j = i)) ∧
        kmem_ok T' root k' a' ∧ stack_mapped T' k' root a' i fr ∧
        (∀ j, 0 ≤ j < KERNEL_STACK_PHYS_PAGES → ca_used a (fr j) = false) ∧
        (∀ j y, 0 ≤ j < KERNEL_STACK_PHYS_PAGES → 0 ≤ y < PAGE_SIZE →
           k'.(k_words) (frame_addr (fr j) + y) = 0) ∧
        ∀ y, ¬ in_region (stack_base i) KERNEL_STACK_PHYS_PAGES y →
          translate_address k'.(k_words) root y = translate_address k.(k_words) root y
    end.
Proof. exact (allocate_ok T root k a b). Qed.

(** dropping a kernel stack undoes its allocation: [free] succeeds, every
    address translates as before the allocation, the slot is free again and no
    other slot changes, and exactly the 15 frames of the stack are given back. *)
Theorem kstack_allocate_free T root k (a : A) (b : B) s k1 b1 :
  kmem_ok T root k a → ca_wf b → ca_capacity b = MAX_KERNEL_STACKS →
  (∀ i, 0 ≤ i < MAX_KERNEL_STACKS → ca_used b i = false → slot_unmapped k root i) →
  allocate (k, b) = Ret (Some s, (k1, b1)) →
  ∃ k2 b2 a1 a2 frs, free s (k1, b1) = Ret (k2, b2) ∧
    k1.(k_frames) = Some a1 ∧ k2.(k_frames) = Some a2 ∧
    (∀ y, translate_address k2.(k_words) root y = translate_address k.(k_words) root y) ∧
    (∀ j, 0 ≤ j → ca_used b2 j = ca_used b j) ∧
    length frs = Z.to_nat KERNEL_STACK_PHYS_PAGES ∧ NoDup frs ∧
    Forall (λ f, ca_used a f = false ∧ ca_used a1 f = true) frs ∧
    ∀ f, 0 ≤ f → ca_used a2 f = ca_used a1 f && negb (bool_decide (f ∈ frs)).
Proof.
  intros Hk Hwf Hcap Hun E.
  destruct (allocate_ok T root k a b Hk Hwf Hcap Hun) as [[H _]|(r & k' & b' & E' & Hwf1 & Hcap1 & Hr)];
    [congruence|].
  rewrite E in E'. injection E' as <- <- <-.
  destruct Hr as (i & T' & a' & fr & -> & Hi & Hfree & Hb1 & Hk1 & Hs & Hfr & _ & Hoth).
  destruct (free_ok T' root k1 a' i fr b1 Hk1 Hi Hs Hwf1 Hcap1)
    as (k2 & b2 & a2 & E2 & _ & _ & Hb2 & [Hk2 _ Htr Hus]).
  { rewrite Hb1 by lia. rewrite (bool_decide_eq_true_2 (i = i)) by done. apply orb_true_r. }
  exists k2, b2, a', a2, (fr <$> range 0 15).
  split_and!; [done|apply Hk1|apply Hk2| | |by rewrite length_fmap, length_range| | |exact Hus].
  - intros y. rewrite Htr. case_decide as Hd; [|by apply Hoth].
    symmetry. apply (region_unmapped k root i); auto.
  - intros j Hj. rewrite Hb2, Hb1 by done. case_bool_decide as Hji; [subst|].
    + rewrite Hfree. done.
    + by rewrite orb_false_r, andb_true_r.
  - apply NoDup_fmap_2_strong; [|apply NoDup_range]. intros j j' Hj Hj'.
    apply elem_of_range in Hj, Hj'. by apply (sm_inj _ _ _ _ _ _ Hs).
  - apply Forall_fmap, Forall_forall. intros j Hj. apply elem_of_range in Hj. simpl.
    split; [by apply Hfr|]. by destruct (sm_frames _ _ _ _ _ _ Hs j Hj) as (_ & ? & _).
Qed.
End facts.

(** ** Example: the first stack of a kernel with 128 frames *)
#[local] Existing Instances documented_x86_64 documented_x86_64_laws documented_bitflags
  documented_bitflags_laws.

Definition boot_kmem : kmem BitmapAllocator.t :=
  mkKmem (λ _, 0) (Some (BitmapAllocator.mk [3; 0] None)) [] (Some small_root) None.

Lemma boot_kmem_ok : kmem_ok small_tables small_root boot_kmem (BitmapAllocator.mk [3; 0] None).
Proof.
  split; [done|done| |done]. apply empty_root_labelled; [|reflexivity].
  apply bitmap_frames_ok; [repeat constructor; simpl; lia|vm_compute; reflexivity|reflexivity].
Qed.

Lemma boot_slot_unmapped i : slot_unmapped boot_kmem small_root i.
Proof.
  intros x _. change (lookup (λ _, 0) Level4 small_root (stack_addr i + x) = Ret TranslateUnmapped).
  rewrite lookup_unfold. by rewrite target_not_present by apply not_present_zero.
Qed.

Lemma stack_allocator_wf : ca_wf KStack.new.
Proof.
  split; simpl; [repeat constructor; simpl; lia|vm_compute; reflexivity|done].
Qed.

(** The result of the first allocation. *)
Lemma boot_allocate : ∃ k' b', allocate (boot_kmem, KStack.new) = Ret (Some (stack_addr 0), (k', b')).
Proof.
  assert (Er : match allocate (boot_kmem, KStack.new) with Ret (r, _) => Some r | _ => None end
    = Some (Some (stack_addr 0))) by (vm_compute; reflexivity).
  destruct (allocate (boot_kmem, KStack.new)) as [[r [k' b']]| |]; [|discriminate Er..].
  injection Er as ->. by exists k', b'.
Qed.

Lemma kstack_allocate_spec_witness : ∃ k' b', allocate (boot_kmem, KStack.new)
    = Ret (Some (stack_addr 0), (k', b')) ∧
  translate_address k'.(k_words) small_root (stack_addr 0) = Ret TranslateUnmapped.
Proof.
  destruct boot_allocate as (k1 & b1 & E1).
  destruct (kstack_allocate_spec small_tables small_root boot_kmem (BitmapAllocator.mk [3; 0] None)
    KStack.new) as [[H _]|(r & k' & b' & E & _ & _ & Hr)];
    [apply boot_kmem_ok|apply stack_allocator_wf|reflexivity|intros; apply boot_slot_unmapped| |].
  - rewrite E1 in H. discriminate H.
  - rewrite E1 in E. injection E as <- <- <-. exists k1, b1. split; [exact E1|].
    destruct Hr as (i & T' & a' & fr & Hs & Hi & _ & _ & _ & Hm & _). rewrite Hs.
    rewrite <-(Z.add_0_r (stack_addr i)). apply (sm_guard _ _ _ _ _ _ Hm).
    unfold PAGE_SIZE. lia.
Defined.

Lemma kstack_allocate_free_witness : ∃ k1 b1 k2 b2,
  allocate (boot_kmem, KStack.new) = Ret (Some (stack_addr 0), (k1, b1)) ∧
  free (stack_addr 0) (k1, b1) = Ret (k2, b2) ∧ ca_used b2 0 = false.
Proof.
  destruct boot_allocate as (k1 & b1 & E1).
  destruct (kstack_allocate_free small_tables small_root boot_kmem
    (BitmapAllocator.mk [3; 0] None) KStack.new (stack_addr 0) k1 b1)
    as (k2 & b2 & a1 & a2 & frs & E2 & _ & _ & _ & Hb & _);
    [apply boot_kmem_ok|apply stack_allocator_wf|reflexivity|intros; apply boot_slot_unmapped
    |exact E1|].
  exists k1, b1, k2, b2. split_and!; [exact E1|exact E2|]. rewrite Hb by lia. reflexivity.
Defined.
