(* ===== verification/Transmute.v ===== *)
(** * Casting bytes to structures ([kernel/src/transmute.rs])

    A [#[repr(C, packed)]] structure is laid out field after field, integers in
    little-endian order.  A [layout T] is such a layout with its decoder and its
    encoder; layouts of integers, byte arrays, arrays, pairs and (through a
    bijection with nested pairs) records are closed under [layout_ok].  The
    functions of [transmute.rs] are written over any type with a layout. *)
From S2P Require Import Prelude External.
#[local] Open Scope Z_scope.

(** ** Byte strings *)
Definition bytes_ok (bs : list Z) : Prop := Forall (in_width 8) bs.

Definition read_at (off n : Z) (bs : list Z) : list Z :=
  take (Z.to_nat n) (drop (Z.to_nat off) bs).

Definition write_at (off : Z) (new bs : list Z) : list Z :=
  take (Z.to_nat off) bs ++ new ++ drop (Z.to_nat off + length new) bs.

Fixpoint le_combine (bs : list Z) : Z :=
  match bs with [] => 0 | b :: bs => b + 256 * le_combine bs end.

Fixpoint le_split (n : nat) (z : Z) : list Z :=
  match n with O => [] | S n => z mod 256 :: le_split n (z / 256) end.

(** ** Layouts *)
Record layout (T : Type) : Type := Layout {
  lsize : nat;
  lof : list Z → T;
  lto : T → list Z;
  lvalid : T → Prop;
}.
Arguments lsize {T} l.
Arguments lof {T} l bs.
Arguments lto {T} l v.
Arguments lvalid {T} l v.

Record layout_ok {T} (L : layout T) : Prop := {
  lo_length v : lvalid L v → length (lto L v) = lsize L;
  lo_bytes v : lvalid L v → bytes_ok (lto L v);
  lo_of_to v : lvalid L v → lof L (lto L v) = v;
  lo_to_of bs : length bs = lsize L → bytes_ok bs → lto L (lof L bs) = bs;
  lo_valid bs : length bs = lsize L → bytes_ok bs → lvalid L (lof L bs);
}.

Definition uint (n : nat) : layout Z :=
  {| lsize := n; lof := le_combine; lto := le_split n; lvalid := in_width (8 * Z.of_nat n) |}.
Definition u8 : layout Z := (uint 1).
Definition u16 : layout Z := (uint 2).
Definition u32 : layout Z := (uint 4).
Definition u64 : layout Z := (uint 8).

(** [[u8; n]] *)
Definition byte_array (n : nat) : layout (list Z) :=
  {| lsize := n; lof := id; lto := id; lvalid := λ bs, length bs = n ∧ bytes_ok bs |}.

Definition pair_layout {A B} (a : layout A) (b : layout B) : layout (A * B) :=
  {| lsize := lsize a + lsize b;
     lof := λ bs, (lof a (take (lsize a) bs), lof b (drop (lsize a) bs));
     lto := λ v, lto a v.1 ++ lto b v.2;
     lvalid := λ v, lvalid a v.1 ∧ lvalid b v.2 |}.

Fixpoint array_of {A} (a : layout A) (n : nat) (bs : list Z) : list A :=
  match n with
  | O => []
  | S n => lof a (take (lsize a) bs) :: array_of a n (drop (lsize a) bs)
  end.

(** [[T; n]] *)
Definition array {A} (a : layout A) (n : nat) : layout (list A) :=
  {| lsize := n * lsize a;
     lof := array_of a n;
     lto := λ vs, concat (map (lto a) vs);
     lvalid := λ vs, length vs = n ∧ Forall (lvalid a) vs |}.

Definition iso {A B} (f : A → B) (g : B → A) (a : layout A) : layout B :=
  {| lsize := lsize a; lof := λ bs, f (lof a bs); lto := λ v, lto a (g v);
     lvalid := λ v, lvalid a (g v) |}.

Declare Scope layout_scope.
Delimit Scope layout_scope with layout.
Infix "⊕" := pair_layout (at level 60, right associativity) : layout_scope.

(** A type with a layout: what [FromBytes] and [AsBytes] derive. *)
Class FromBytes (T : Type) : Type := {
  layout_of : layout T;
  align_of : Z;
  layout_of_ok : layout_ok layout_of;
  align_of_pos : 0 < align_of;
}.
Arguments layout_of T {_}.
Arguments align_of T {_}.

Definition size_of (T : Type) `{FromBytes T} : Z := Z.of_nat (lsize (layout_of T)).

Module Transmute.
Section transmute.
Context `{!Zerocopy} {T : Type} `{!FromBytes T}.

Definition cast (bs : list Z) : T := lof (layout_of T) (read_at 0 (size_of T) bs).

(** [bytes.get(offset..)] *)
Definition get_from (bytes : slice) (offset : Z) : option slice :=
  if offset <=? zlen (slice_bytes bytes)
  then Some (Slice (slice_ptr bytes + offset) (drop (Z.to_nat offset) (slice_bytes bytes)))
  else None.

Definition try_cast_bytes_ref (bytes : slice) : option T :=
  if prefix_verified (size_of T) (align_of T) bytes
  then Some (cast (slice_bytes bytes)) else None.

Definition try_cast_bytes_ref_offset (bytes : slice) (offset : Z) : option T :=
  bytes ← get_from bytes offset; try_cast_bytes_ref bytes.

(** Writing [*val_ref = value] through the reference that
    [try_cast_bytes_ref_mut(bytes)] returns. *)
Definition assign_bytes_ref_mut (bytes : slice) (value : T) : option slice :=
  if prefix_verified (size_of T) (align_of T) bytes
  then Some (Slice (slice_ptr bytes)
               (write_at 0 (lto (layout_of T) value) (slice_bytes bytes)))
  else None.

Definition try_write_bytes_offset (bytes : slice) (offset : Z) (value : T) : option slice :=
  tail ← get_from bytes offset;
  tail' ← assign_bytes_ref_mut tail value;
  Some (Slice (slice_ptr bytes)
          (take (Z.to_nat offset) (slice_bytes bytes) ++ slice_bytes tail')).
End transmute.
Arguments try_cast_bytes_ref {_} T {_}.
Arguments try_cast_bytes_ref_offset {_} T {_}.
Arguments cast T {_}.

(** ** [TransmuteView] and [TransmuteCollection]

    Both wrap a buffer; a view checks the cast once, in its constructor. *)
Section view.
Context `{!Zerocopy} (T : Type) `{!FromBytes T}.

Definition view_new (buffer : slice) : option slice :=
  _ ← try_cast_bytes_ref T buffer; Some buffer.

Definition view_deref (view : slice) : outcome T := expect (try_cast_bytes_ref T view).

(** an assignment through [deref_mut] *)
Definition view_assign (view : slice) (value : T) : outcome slice :=
  expect (assign_bytes_ref_mut view value).

Definition collection_get (coll : slice) (offset : Z) : option T :=
  try_cast_bytes_ref_offset T coll offset.

Definition collection_write (coll : slice) (offset : Z) (value : T) : option slice :=
  try_write_bytes_offset coll offset value.
End view.
End Transmute.

(** ** Byte strings: lemmas *)
Definition bytes_okb (bs : list Z) : bool := forallb (λ b, (0 <=? b) && (b <? 256)) bs.

Lemma bytes_okb_ok bs : bytes_okb bs = true → bytes_ok bs.
Proof.
  unfold bytes_okb. rewrite forallb_forall. intros H. apply Forall_forall. intros b Hb.
  rewrite list_elem_of_In in Hb. apply H in Hb. split; simpl; lia.
Qed.

Lemma length_read_at off n bs :
  0 ≤ off → 0 ≤ n → off + n ≤ zlen bs → zlen (read_at off n bs) = n.
Proof. unfold zlen, read_at. rewrite length_take, length_drop. lia. Qed.

Lemma length_write_at off new bs :
  0 ≤ off → off + zlen new ≤ zlen bs → zlen (write_at off new bs) = zlen bs.
Proof. unfold zlen, write_at. rewrite !length_app, length_take, length_drop. lia. Qed.

Lemma read_at_lookup off n bs i :
  0 ≤ off → (i < Z.to_nat n)%nat → read_at off n bs !! i = bs !! (Z.to_nat off + i)%nat.
Proof. intros. unfold read_at. rewrite lookup_take_lt by done. by rewrite lookup_drop. Qed.

Lemma write_at_lookup off new bs i :
  0 ≤ off → off + zlen new ≤ zlen bs →
  write_at off new bs !! i =
    if decide (Z.to_nat off ≤ i < Z.to_nat off + length new)%nat
    then new !! (i - Z.to_nat off)%nat else bs !! i.
Proof.
  unfold zlen, write_at. intros.
  assert (length (take (Z.to_nat off) bs) = Z.to_nat off) as Hl by (rewrite length_take; lia).
  case_decide as Hi.
  - rewrite lookup_app_r by lia. rewrite Hl, lookup_app_l by lia. done.
  - destruct (decide (i < Z.to_nat off)%nat).
    + rewrite lookup_app_l by lia. by rewrite lookup_take_lt.
    + rewrite lookup_app_r, Hl by lia. rewrite lookup_app_r by lia.
      rewrite lookup_drop. f_equal. lia.
Qed.

Lemma read_write_same off new bs :
  0 ≤ off → off + zlen new ≤ zlen bs → read_at off (zlen new) (write_at off new bs) = new.
Proof.
  intros Ho Hl. apply list_eq. intros i. unfold zlen in *.
  destruct (decide (i < length new)%nat).
  - rewrite read_at_lookup, write_at_lookup by (unfold zlen; lia).
    rewrite decide_True by lia. f_equal. lia.
  - rewrite !lookup_ge_None_2; [done|lia|]. unfold read_at. rewrite length_take. lia.
Qed.

Lemma read_write_other off new bs off' n :
  0 ≤ off → off + zlen new ≤ zlen bs → 0 ≤ off' → 0 ≤ n →
  off' + n ≤ off ∨ off + zlen new ≤ off' →
  read_at off' n (write_at off new bs) = read_at off' n bs.
Proof.
  intros Ho Hl Ho' Hn Hd. apply list_eq. intros i. unfold zlen in *.
  destruct (decide (i < Z.to_nat n)%nat).
  - rewrite !read_at_lookup, write_at_lookup by (unfold zlen; lia).
    by rewrite decide_False by lia.
  - rewrite !lookup_ge_None_2; [done|..]; unfold read_at; rewrite length_take; lia.
Qed.

(** A read inside the written range, and a write inside the read range. *)
Lemma read_at_read_at off n off' n' bs :
  0 ≤ off → 0 ≤ off' → 0 ≤ n' → off' + n' ≤ n →
  read_at off' n' (read_at off n bs) = read_at (off + off') n' bs.
Proof.
  intros. apply list_eq. intros i. destruct (decide (i < Z.to_nat n')%nat).
  - rewrite !read_at_lookup by lia. f_equal. lia.
  - by rewrite !lookup_ge_None_2 by (unfold read_at; rewrite length_take; lia).
Qed.

Lemma read_write_inside off new bs off' n :
  0 ≤ off' ≤ off → off + zlen new ≤ off' + n → off' + n ≤ zlen bs →
  read_at off' n (write_at off new bs) = write_at (off - off') new (read_at off' n bs).
Proof.
  intros. apply list_eq. intros i.
  pose proof (length_read_at off' n bs). unfold zlen in *.
  destruct (decide (i < Z.to_nat n)%nat).
  - rewrite read_at_lookup, !write_at_lookup by (unfold zlen; lia).
    rewrite read_at_lookup by lia. destruct (decide _), (decide _); try lia; f_equal; lia.
  - rewrite !lookup_ge_None_2; [done|..].
    + pose proof (length_write_at (off - off') new (read_at off' n bs)). unfold zlen in *. lia.
    + unfold read_at. rewrite length_take. lia.
Qed.

Lemma write_at_read off n bs :
  0 ≤ off → 0 ≤ n → off + n ≤ zlen bs → write_at off (read_at off n bs) bs = bs.
Proof.
  intros. pose proof (length_read_at off n bs). unfold zlen in *.
  apply list_eq. intros i. rewrite write_at_lookup by (unfold zlen; lia).
  case_decide; [|done]. rewrite read_at_lookup by lia. f_equal. lia.
Qed.

(** Rewriting a chunk with a change inside it is the change. *)
Lemma write_at_nested off off' n new bs :
  0 ≤ off → 0 ≤ off' → off' + zlen new ≤ n → off + n ≤ zlen bs →
  write_at off (write_at off' new (read_at off n bs)) bs = write_at (off + off') new bs.
Proof.
  intros. pose proof (length_read_at off n bs).
  pose proof (length_write_at off' new (read_at off n bs)).
  assert (0 ≤ zlen new) by (unfold zlen; lia).
  apply list_eq. intros i. rewrite !write_at_lookup by lia. unfold zlen in *.
  repeat case_decide; try lia; rewrite ?read_at_lookup by lia; try done; f_equal; lia.
Qed.

Lemma read_at_all bs : read_at 0 (zlen bs) bs = bs.
Proof. unfold read_at, zlen. rewrite drop_0. apply take_ge. lia. Qed.

Lemma bytes_ok_read off n bs : bytes_ok bs → bytes_ok (read_at off n bs).
Proof. intros. by apply Forall_take, Forall_drop. Qed.

Lemma bytes_ok_write off new bs : bytes_ok new → bytes_ok bs → bytes_ok (write_at off new bs).
Proof. intros. apply Forall_app; split; [by apply Forall_take|]. apply Forall_app; split; [done|by apply Forall_drop]. Qed.

#[export] Hint Resolve bytes_ok_read bytes_ok_write : rust.

(** ** Little-endian integers *)
Lemma length_le_split n z : length (le_split n z) = n.
Proof. revert z. induction n; intros; simpl; auto. Qed.

Lemma bytes_ok_le_split n z : bytes_ok (le_split n z).
Proof.
  revert z. induction n as [|n IH]; intros z; simpl; constructor; [|apply IH].
  split; apply Z.mod_pos_bound; lia.
Qed.

Lemma le_combine_split n z : in_width (8 * Z.of_nat n) z → le_combine (le_split n z) = z.
Proof.
  revert z. induction n as [|n IH]; intros z [Hz1 Hz2]; cbn [le_combine le_split].
  - change (2 ^ (8 * Z.of_nat 0)) with 1 in Hz2. lia.
  - rewrite IH; [|split].
    + pose proof (Z.div_mod z 256 ltac:(lia)). lia.
    + apply Z.div_pos; lia.
    + apply Z.div_lt_upper_bound; [lia|].
      replace (8 * Z.of_nat (S n)) with (8 + 8 * Z.of_nat n) in Hz2 by lia.
      rewrite Z.pow_add_r in Hz2 by lia. done.
Qed.

Lemma le_combine_bound bs : bytes_ok bs → in_width (8 * zlen bs) (le_combine bs).
Proof.
  unfold zlen. induction 1 as [|b bs Hb _ IH]; cbn [le_combine length]; [split; simpl; lia|].
  replace (8 * Z.of_nat (S (length bs))) with (8 + 8 * Z.of_nat (length bs)) by lia.
  destruct Hb, IH. split; [lia|]. rewrite Z.pow_add_r by lia. change (2 ^ 8) with 256 in *. lia.
Qed.

Lemma le_split_combine bs : bytes_ok bs → le_split (length bs) (le_combine bs) = bs.
Proof.
  induction 1 as [|b bs [? Hb] _ IH]; cbn [le_combine le_split length]; [done|].
  change (2 ^ 8) with 256 in Hb.
  assert ((b + 256 * le_combine bs) mod 256 = b) as ->.
  { rewrite Z.mul_comm, Z.mod_add by lia. apply Z.mod_small; lia. }
  assert ((b + 256 * le_combine bs) / 256 = le_combine bs) as ->.
  { rewrite Z.mul_comm, Z.div_add, Z.div_small by lia. lia. }
  by rewrite IH.
Qed.

(** ** The layouts are sound *)
Lemma uint_ok n : layout_ok (uint n).
Proof.
  split; simpl.
  - intros. apply length_le_split.
  - intros. apply bytes_ok_le_split.
  - apply le_combine_split.
  - intros bs <-. apply le_split_combine.
  - intros bs <-. apply le_combine_bound.
Qed.

Lemma byte_array_ok n : layout_ok (byte_array n).
Proof. split; simpl; naive_solver. Qed.

Lemma pair_layout_ok {A B} (a : layout A) (b : layout B) :
  layout_ok a → layout_ok b → layout_ok (pair_layout a b).
Proof.
  intros Ha Hb. split; simpl.
  - intros [x y] [Hx Hy]. simpl in *. by rewrite length_app, (lo_length a), (lo_length b).
  - intros [x y] [Hx Hy]. apply Forall_app. split; [by apply (lo_bytes a)|by apply (lo_bytes b)].
  - intros [x y] [Hx Hy]. simpl in *. pose proof (lo_length a Ha x Hx) as Hl.
    rewrite <-Hl, take_app_length, drop_app_length.
    by rewrite (lo_of_to a), (lo_of_to b).
  - intros bs Hl Hbs. rewrite (lo_to_of a), (lo_to_of b); try done.
    + apply take_drop.
    + rewrite length_drop. lia.
    + by apply Forall_drop.
    + rewrite length_take. lia.
    + by apply Forall_take.
  - intros bs Hl Hbs. split.
    + apply (lo_valid a); [done|rewrite length_take; lia|by apply Forall_take].
    + apply (lo_valid b); [done|rewrite length_drop; lia|by apply Forall_drop].
Qed.

Lemma array_ok {A} (a : layout A) n : layout_ok a → layout_ok (array a n).
Proof.
  intros Ha. split; simpl.
  - intros vs [<- Hvs]. induction Hvs as [|v vs Hv _ IH]; simpl; [done|].
    by rewrite length_app, IH, (lo_length a).
  - intros vs [_ Hvs]. induction Hvs as [|v vs Hv _ IH]; simpl; [by constructor|].
    apply Forall_app. split; [by apply (lo_bytes a)|done].
  - intros vs [<- Hvs]. induction Hvs as [|v vs Hv _ IH]; simpl; [done|].
    rewrite <-(lo_length a Ha v Hv), take_app_length, drop_app_length, IH.
    by rewrite (lo_of_to a).
  - induction n as [|n IH]; simpl; intros bs Hl Hbs.
    + by apply nil_length_inv in Hl as ->.
    + rewrite (lo_to_of a), IH; [apply take_drop| | |done| |by apply Forall_take].
      * rewrite length_drop. lia.
      * by apply Forall_drop.
      * rewrite length_take. lia.
  - induction n as [|n IH]; simpl; intros bs Hl Hbs; [by split|].
    destruct (IH (drop (lsize a) bs)) as [Hn HF];
      [rewrite length_drop; lia|by apply Forall_drop|].
    split; [lia|]. constructor; [|done].
    apply (lo_valid a); [done|rewrite length_take; lia|by apply Forall_take].
Qed.

Lemma iso_ok {A B} (f : A → B) (g : B → A) (a : layout A) :
  layout_ok a → Cancel (=) f g → Cancel (=) g f → layout_ok (iso f g a).
Proof.
  intros Ha Hfg Hgf. split; simpl; intros.
  - by apply (lo_length a).
  - by apply (lo_bytes a).
  - by rewrite (lo_of_to a).
  - rewrite (cancel g f). by apply (lo_to_of a).
  - rewrite (cancel g f). by apply (lo_valid a).
Qed.

Create HintDb layout.
#[export] Hint Resolve uint_ok byte_array_ok pair_layout_ok array_ok iso_ok : layout.

(** Discharge [layout_ok] for a record given by its tuple of fields. *)
Ltac solve_layout :=
  apply iso_ok;
    [repeat first [apply pair_layout_ok | apply array_ok | apply uint_ok | apply byte_array_ok]
    |intros []; reflexivity
    |let v := fresh in intros v; repeat (destruct v as [? v]); reflexivity].

(** ** What the casts do *)
Section casts.
Context `{!Zerocopy, !ZerocopyLaws} {T : Type} `{!FromBytes T}.
Implicit Types (s : slice) (v : T).

Definition fits (s : slice) (off : Z) : Prop :=
  0 ≤ off ∧ off + size_of T ≤ zlen (slice_bytes s) ∧ (slice_ptr s + off) mod align_of T = 0.

Lemma size_of_nonneg : 0 ≤ size_of T.
Proof. unfold size_of. lia. Qed.

Lemma zlen_to_bytes v : lvalid (layout_of T) v → zlen (lto (layout_of T) v) = size_of T.
Proof. intros Hv. unfold zlen. by rewrite (lo_length _ layout_of_ok v Hv). Qed.

(** Validity of a concrete value, by evaluation. *)
Lemma lvalid_by_eval v :
  lof (layout_of T) (lto (layout_of T) v) = v →
  (length (lto (layout_of T) v) =? lsize (layout_of T))%nat && bytes_okb (lto (layout_of T) v) = true →
  lvalid (layout_of T) v.
Proof.
  intros E [Hl%Nat.eqb_eq Hb%bytes_okb_ok]%andb_true_iff. rewrite <-E.
  by apply (lo_valid _ layout_of_ok).
Qed.

Lemma get_from_ok s off :
  fits s off →
  Transmute.get_from s off = Some (Slice (slice_ptr s + off) (drop (Z.to_nat off) (slice_bytes s))).
Proof.
  intros (? & ? & _). unfold Transmute.get_from. pose proof size_of_nonneg.
  by destruct (Z.leb_spec off (zlen (slice_bytes s))); [|lia].
Qed.

Lemma verified_ok s off :
  fits s off →
  prefix_verified (size_of T) (align_of T)
    (Slice (slice_ptr s + off) (drop (Z.to_nat off) (slice_bytes s))) = true.
Proof.
  intros (? & ? & Hal). rewrite prefix_verified_ok by (apply align_of_pos || apply size_of_nonneg).
  simpl. rewrite Hal. unfold zlen in *. rewrite length_drop.
  apply andb_true_iff. split; [apply Z.leb_le; lia|done].
Qed.

Lemma collection_get_ok s off :
  fits s off →
  Transmute.collection_get T s off = Some (lof (layout_of T) (read_at off (size_of T) (slice_bytes s))).
Proof.
  intros Hf. unfold Transmute.collection_get, Transmute.try_cast_bytes_ref_offset.
  rewrite get_from_ok by done. simpl. unfold Transmute.try_cast_bytes_ref.
  rewrite verified_ok by done. done.
Qed.

Lemma collection_write_ok s off v :
  fits s off → lvalid (layout_of T) v →
  Transmute.collection_write T s off v =
    Some (Slice (slice_ptr s) (write_at off (lto (layout_of T) v) (slice_bytes s))).
Proof.
  intros Hf Hv. unfold Transmute.collection_write, Transmute.try_write_bytes_offset.
  rewrite get_from_ok by done. simpl. unfold Transmute.assign_bytes_ref_mut.
  rewrite verified_ok by done. simpl. do 2 f_equal. unfold write_at.
  change (Z.to_nat 0) with 0%nat. by rewrite take_0, drop_drop.
Qed.

(** Past the end of the buffer, or misaligned, every access is refused. *)
Lemma collection_get_none s off :
  0 ≤ off → ¬ fits s off → Transmute.collection_get T s off = None.
Proof.
  intros Ho Hf. unfold Transmute.collection_get, Transmute.try_cast_bytes_ref_offset, Transmute.get_from.
  destruct (Z.leb_spec off (zlen (slice_bytes s))); [|done]. simpl.
  unfold Transmute.try_cast_bytes_ref.
  rewrite prefix_verified_ok by (apply align_of_pos || apply size_of_nonneg). simpl.
  destruct (_ && _) eqn:E; [|done]. exfalso. apply Hf.
  apply andb_true_iff in E as [E1%Z.leb_le E2%Z.eqb_eq].
  split_and!; [done| |done]. unfold zlen in *. rewrite length_drop in E1. lia.
Qed.

Lemma view_deref_ok s :
  fits s 0 → Transmute.view_deref T s = Ret (lof (layout_of T) (read_at 0 (size_of T) (slice_bytes s))).
Proof.
  intros Hf. unfold Transmute.view_deref, Transmute.try_cast_bytes_ref.
  pose proof (verified_ok s 0 Hf) as Hv. change (Z.to_nat 0) with 0%nat in Hv.
  rewrite Z.add_0_r, drop_0 in Hv. destruct s. simpl in *. by rewrite Hv.
Qed.

Lemma view_new_ok s : fits s 0 → Transmute.view_new T s = Some s.
Proof.
  intros Hf. pose proof (view_deref_ok s Hf) as E. unfold Transmute.view_deref in E.
  apply expect_ret_inv in E. unfold Transmute.view_new. by rewrite E.
Qed.

Lemma view_assign_ok s v :
  fits s 0 →
  Transmute.view_assign T s v =
    Ret (Slice (slice_ptr s) (write_at 0 (lto (layout_of T) v) (slice_bytes s))).
Proof.
  intros Hf. unfold Transmute.view_assign, Transmute.assign_bytes_ref_mut.
  pose proof (verified_ok s 0 Hf) as Hv. change (Z.to_nat 0) with 0%nat in Hv.
  rewrite Z.add_0_r, drop_0 in Hv. destruct s. simpl in *. by rewrite Hv.
Qed.

Lemma fits_write s off v :
  fits s off → lvalid (layout_of T) v →
  fits (Slice (slice_ptr s) (write_at off (lto (layout_of T) v) (slice_bytes s))) off.
Proof.
  intros (? & ? & ?) Hv. split_and!; [done| |done]. cbn [slice_bytes].
  by rewrite length_write_at; rewrite ?zlen_to_bytes.
Qed.

(** A value written into a buffer is read back. *)
Lemma read_back s off v :
  fits s off → lvalid (layout_of T) v →
  lof (layout_of T) (read_at off (size_of T) (write_at off (lto (layout_of T) v) (slice_bytes s))) = v.
Proof.
  intros (? & ? & _) Hv. rewrite <-(zlen_to_bytes v Hv), read_write_same by
    (rewrite ?zlen_to_bytes by done; lia).
  by apply (lo_of_to _ layout_of_ok).
Qed.
End casts.
Arguments fits T {_} s off.
