(* ===== verification/Block.v ===== *)
(** * Block devices ([kernel/src/block.rs])

    [BlockDeviceDriver] is the trait of the same name with the driver's state
    made explicit; [BlockDeviceLaws] says what a driver promises, that the
    device is an array of bytes ([image]) read and written in device blocks.
    [BlockDevice] and [BlockBuffer] are written and proved against the
    interface. *)
From S2P Require Import Prelude External Transmute.
#[local] Open Scope Z_scope.

Class BlockDeviceDriver (D : Type) : Type := {
  device_block_size : D → Z;
  read_device_blocks : D → Z → Z → outcome slice;
  write_device_blocks : D → Z → list Z → outcome D;
}.

Class BlockDeviceLaws (D : Type) `{!BlockDeviceDriver D} : Type := {
  (** the bytes of the device *)
  image : D → list Z;
  device_block_size_ok d : 0 < device_block_size d < 2 ^ 16;
  image_bytes_ok d : bytes_ok (image d);
  read_device_blocks_ok d start n :
    0 ≤ start → 0 ≤ n < 2 ^ 32 → (start + n) * device_block_size d ≤ zlen (image d) →
    ∃ ptr, read_device_blocks d start n =
      Ret (Slice ptr (read_at (start * device_block_size d) (n * device_block_size d) (image d)));
  write_device_blocks_ok d start data n :
    0 ≤ start → 0 ≤ n < 2 ^ 32 → zlen data = n * device_block_size d → bytes_ok data →
    (start + n) * device_block_size d ≤ zlen (image d) →
    ∃ d', write_device_blocks d start data = Ret d' ∧
      device_block_size d' = device_block_size d ∧
      image d' = write_at (start * device_block_size d) data (image d);
}.

Record BlockBuffer : Type := {
  device_start_block : Z;
  device_num_blocks : Z;
  data : slice;
}.

Module BlockDevice.
Section device.
Context {D : Type} `{!BlockDeviceDriver D}.

Definition read_blocks (driver : D) (block_size start_block num_blocks : Z) : outcome BlockBuffer :=
  q ← udiv block_size (device_block_size driver);
  device_start_block ← umul 64 start_block q;
  c ← udiv_ceil block_size (device_block_size driver);
  device_num_blocks ← umul 64 num_blocks c;
  data ← read_device_blocks driver device_start_block device_num_blocks;
  mret {| device_start_block := device_start_block; device_num_blocks := device_num_blocks;
          data := data |}.

(** [impl Add for BlockIndex] *)
Definition BlockIndex_add (a b : Z) : outcome Z := uadd 64 a b.

(** [BlockBuffer::flush] *)
Definition flush (b : BlockBuffer) (driver : D) : outcome D :=
  r ← urem (zlen (slice_bytes (data b))) (device_block_size driver);
  _ ← assert_ (r =? 0);
  write_device_blocks driver (device_start_block b) (slice_bytes (data b)).
End device.

Definition with_data (b : BlockBuffer) (s : slice) : BlockBuffer :=
  {| device_start_block := device_start_block b; device_num_blocks := device_num_blocks b;
     data := s |}.

(** new contents through [data_mut] *)
Definition with_bytes (b : BlockBuffer) (bs : list Z) : BlockBuffer :=
  with_data b (Slice (slice_ptr (data b)) bs).
End BlockDevice.
Import BlockDevice.

(** ** A disk in memory

    The driver that keeps the whole device in a byte string, in sectors of 512
    bytes. *)
Record RamDisk : Type := { ram_bytes : list Z }.

Definition ram_image (d : RamDisk) : list Z := (λ b, b mod 256) <$> ram_bytes d.

#[local] Instance ram_driver : BlockDeviceDriver RamDisk := {|
  device_block_size d := 512;
  read_device_blocks d start n :=
    if (start + n) * 512 <=? zlen (ram_bytes d)
    then Ret (Slice 4096 (read_at (start * 512) (n * 512) (ram_image d)))
    else Panic PanicExplicit;
  write_device_blocks d start data :=
    if start * 512 + zlen data <=? zlen (ram_bytes d)
    then Ret {| ram_bytes := write_at (start * 512) data (ram_bytes d) |}
    else Panic PanicExplicit;
|}.

Lemma ram_image_bytes_ok d : bytes_ok (ram_image d).
Proof.
  unfold ram_image, bytes_ok. rewrite Forall_fmap. apply Forall_true.
  intros b. apply Z.mod_pos_bound. lia.
Qed.

Lemma bytes_ok_image bs : bytes_ok bs → (λ b, b mod 256) <$> bs = bs.
Proof.
  induction 1 as [|b bs Hb _ IH]; [done|]. rewrite fmap_cons, IH. f_equal.
  apply Z.mod_small. exact Hb.
Qed.

Lemma ram_image_write off new bs :
  bytes_ok new →
  ram_image {| ram_bytes := write_at off new bs |} =
  write_at off new (ram_image {| ram_bytes := bs |}).
Proof.
  intros Hn. unfold ram_image, write_at. simpl.
  by rewrite !fmap_app, fmap_take, fmap_drop, (bytes_ok_image new Hn).
Qed.

#[local] Instance ram_laws : BlockDeviceLaws RamDisk.
Proof.
  refine {| image := ram_image |}; simpl.
  - lia.
  - apply ram_image_bytes_ok.
  - intros d start n ? ? Hl. exists 4096. unfold zlen, ram_image in Hl.
    rewrite length_fmap in Hl.
    destruct (Z.leb_spec ((start + n) * 512) (zlen (ram_bytes d))); [done|unfold zlen in *; lia].
  - intros d start new n ? ? Hn Hb Hl. unfold zlen, ram_image in Hl. rewrite length_fmap in Hl.
    destruct (Z.leb_spec (start * 512 + zlen new) (zlen (ram_bytes d))); [|unfold zlen in *; lia].
    eexists. split_and!; [done|done|]. destruct d. by apply ram_image_write.
Defined.

(** ** Reading and writing blocks *)
Section blocks.
Context {D : Type} `{!BlockDeviceDriver D} `{laws : !BlockDeviceLaws D}.
Implicit Types d : D.

(** A file-system block size the device supports. *)
Definition block_size_ok (d : D) (bs : Z) : Prop :=
  0 < bs < 2 ^ 16 ∧ (device_block_size d | bs).

Definition in_image (d : D) (off n : Z) : Prop := 0 ≤ off ∧ 0 ≤ n ∧ off + n ≤ zlen (image d).

Lemma block_size_factor d bs :
  block_size_ok d bs →
  ∃ k, bs = k * device_block_size d ∧ 0 < k < 2 ^ 16 ∧
    bs / device_block_size d = k ∧ div_ceil bs (device_block_size d) = k.
Proof.
  intros [Hbs [k Hk]]. pose proof (device_block_size_ok d). exists k.
  split_and!; [done|nia|nia| |].
  - subst bs. apply Z.div_mul. lia.
  - subst bs. unfold div_ceil. rewrite Z.div_mul, Z.mod_mul by lia. simpl. lia.
Qed.

Lemma read_blocks_ok d bs start n :
  block_size_ok d bs → zlen (image d) < 2 ^ 48 → 0 ≤ start → 0 ≤ n < 2 ^ 16 →
  (start + n) * bs ≤ zlen (image d) →
  ∃ b, read_blocks d bs start n = Ret b ∧
    slice_bytes (data b) = read_at (start * bs) (n * bs) (image d) ∧
    device_start_block b * device_block_size d = start * bs ∧ 0 ≤ device_start_block b.
Proof.
  intros Hbs Hcap Hs Hn Hl. destruct (block_size_factor d bs Hbs) as (k & Ek & Hk & Hq & Hc).
  pose proof (device_block_size_ok d) as Hds. unfold read_blocks, udiv, udiv_ceil.
  destruct (Z.eqb_spec (device_block_size d) 0); [lia|]. run_monad. rewrite Hq, Hc.
  rewrite umul_ok by nia. run_monad. rewrite umul_ok by nia. run_monad.
  destruct (read_device_blocks_ok d (start * k) (n * k)) as [ptr E]; [nia|nia|nia|].
  rewrite E. run_monad. eexists. split; [done|]. simpl. split_and!; [|nia|nia].
  f_equal; nia.
Qed.

Lemma flush_ok b d n :
  0 ≤ device_start_block b → 0 ≤ n < 2 ^ 32 →
  zlen (slice_bytes (data b)) = n * device_block_size d →
  bytes_ok (slice_bytes (data b)) →
  (device_start_block b + n) * device_block_size d ≤ zlen (image d) →
  ∃ d', flush b d = Ret d' ∧ device_block_size d' = device_block_size d ∧
    image d' = write_at (device_start_block b * device_block_size d)
                 (slice_bytes (data b)) (image d).
Proof.
  intros Hs Hn Hlen Hb Hl. unfold flush, urem. pose proof (device_block_size_ok d).
  destruct (Z.eqb_spec (device_block_size d) 0); [lia|]. run_monad.
  rewrite Hlen, Z.mod_mul by lia. simpl. by apply write_device_blocks_ok with n.
Qed.

(** Read a block, change its bytes and flush it: the device changes there and
    nowhere else. *)
Lemma read_modify_flush d bs start n :
  block_size_ok d bs → zlen (image d) < 2 ^ 48 → 0 ≤ start → 0 ≤ n < 2 ^ 16 →
  (start + n) * bs ≤ zlen (image d) →
  ∃ b, read_blocks d bs start n = Ret b ∧
    slice_bytes (data b) = read_at (start * bs) (n * bs) (image d) ∧
    ∀ b' d0, device_start_block b' = device_start_block b →
      zlen (slice_bytes (data b')) = n * bs → bytes_ok (slice_bytes (data b')) →
      device_block_size d0 = device_block_size d → zlen (image d0) = zlen (image d) →
      ∃ d', flush b' d0 = Ret d' ∧ device_block_size d' = device_block_size d ∧
        image d' = write_at (start * bs) (slice_bytes (data b')) (image d0).
Proof.
  intros Hbs Hcap Hs Hn Hl.
  destruct (read_blocks_ok d bs start n) as (b & Eb & Hd & Hst & Hpos); try done.
  exists b. split_and!; [done|done|]. intros b' d0 Est Hlen Hok Hds Hcap'.
  destruct (block_size_factor d bs Hbs) as (k & Ek & Hk & _).
  pose proof (device_block_size_ok d).
  destruct (flush_ok b' d0 (n * k)) as (d' & Ef & Hds' & Him).
  - lia.
  - nia.
  - rewrite Hlen, Hds. nia.
  - done.
  - rewrite Est, Hds, Hcap'. nia.
  - exists d'. rewrite <-Hds. split_and!; [done|done|]. rewrite Him, Est, Hds. by rewrite Hst.
Qed.
End blocks.
