(* ===== verification/Ext2Dir.v ===== *)
(** * ext2 directories ([kernel/src/fs/ext2/directory.rs], [strings.rs])

    A directory block is a buffer with the offsets of its entries.  Strings are
    their UTF-8 bytes. *)
From S2P Require Import Prelude External Transmute Block Ext2.
#[local] Open Scope Z_scope.

(** ** [core::str::from_utf8] *)
Module Utf8.
Definition within (lo b hi : Z) : bool := (lo <=? b) && (b <=? hi).
Definition cont (b : Z) : bool := within 0x80 b 0xBF.

Fixpoint valid (bs : list Z) : bool :=
  match bs with
  | [] => true
  | b0 :: r0 =>
      if b0 <=? 0x7F then valid r0 else
      match r0 with
      | [] => false
      | b1 :: r1 =>
          if within 0xC2 b0 0xDF then cont b1 && valid r1 else
          match r1 with
          | [] => false
          | b2 :: r2 =>
              if ((b0 =? 0xE0) && within 0xA0 b1 0xBF)
                 || ((within 0xE1 b0 0xEC || within 0xEE b0 0xEF) && cont b1)
                 || ((b0 =? 0xED) && within 0x80 b1 0x9F)
              then cont b2 && valid r2 else
              match r2 with
              | [] => false
              | b3 :: r3 =>
                  (((b0 =? 0xF0) && within 0x90 b1 0xBF)
                   || (within 0xF1 b0 0xF3 && cont b1)
                   || ((b0 =? 0xF4) && within 0x80 b1 0x8F))
                  && cont b2 && cont b3 && valid r3
              end
          end
      end
  end.

Definition from_utf8 (bs : list Z) : option (list Z) := if valid bs then Some bs else None.
End Utf8.

(** The bytes of a string literal. *)
Definition str (s : string) : list Z := (λ c, Z.of_nat (Ascii.nat_of_ascii c)) <$> String.list_ascii_of_string s.

(** [c_str_from_bytes]: up to the first NUL byte, or all of it *)
Definition c_str_from_bytes (bytes : list Z) : list Z :=
  let nul_location := match list_find (λ c, c = 0) bytes with
                      | Some (i, _) => i | None => length bytes end in
  default (str "<invalid UTF-8>") (Utf8.from_utf8 (take nul_location bytes)).

(** ** Entries *)
Module DirectoryEntryHeader.
Record t : Type := mk {
  inode : Z;
  rec_len : Z;
  name_len : Z;
  raw_file_type : Z;
}.

Definition fields := (
  u32 ⊕ u16 ⊕ u8 ⊕ u8)%layout.

Definition of_fields : _ → t := λ '(
    a0, (a1, (a2, a3))),
  mk a0 a1 a2 a3.

Definition to_fields (v : t) :=
  (inode v, (rec_len v, (name_len v, raw_file_type v))).

#[global] Instance header_from_bytes : FromBytes t.
Proof. refine {| layout_of := iso of_fields to_fields fields; align_of := 1 |}; [solve_layout|lia]. Defined.

Definition set_rec_len (x : Z) (v : t) : t :=
  let 'mk a0 _ a2 a3 := v in
  mk a0 x a2 a3.

Definition new (inode : Z) (name : list Z) (file_type : Z) : t :=
  {| inode := inode; rec_len := 0; name_len := wrap 8 (zlen name); raw_file_type := file_type |}.

Definition header_of_bytes `{!Zerocopy} (bytes : slice) : outcome t :=
  expect (Transmute.try_cast_bytes_ref t bytes).

Definition required_space (h : t) : Z := next_multiple_of (size_of t + name_len h) 4.
End DirectoryEntryHeader.

Module DirectoryEntryFileType.
Inductive t : Type :=
| Unknown
| RegularFile
| Directory
| CharacterDevice
| BlockDevice
| Fifo
| Socket
| SymbolicLink.

#[global] Instance file_type_eq_dec : EqDecision t.
Proof. solve_decision. Defined.

(** [self as u8] *)
Definition to_u8 (v : t) : Z :=
  match v with
  | Unknown => 0 | RegularFile => 1 | Directory => 2 | CharacterDevice => 3
  | BlockDevice => 4 | Fifo => 5 | Socket => 6 | SymbolicLink => 7
  end.

(** [From<u8>] *)
Definition from_u8 (raw : Z) : outcome t :=
  if raw =? to_u8 Unknown then Ret Unknown else
  if raw =? to_u8 RegularFile then Ret RegularFile else
  if raw =? to_u8 Directory then Ret Directory else
  if raw =? to_u8 CharacterDevice then Ret CharacterDevice else
  if raw =? to_u8 BlockDevice then Ret BlockDevice else
  if raw =? to_u8 Fifo then Ret Fifo else
  if raw =? to_u8 Socket then Ret Socket else
  if raw =? to_u8 SymbolicLink then Ret SymbolicLink else
  Panic PanicExplicit.
End DirectoryEntryFileType.

(** [&bytes[location..]] *)
Definition slice_from (bytes : slice) (location : Z) : outcome slice :=
  match Transmute.get_from bytes location with
  | Some s => Ret s
  | None => Panic PanicIndex
  end.

(** A [DirectoryEntry] is the slice that starts at its header. *)
Module DirectoryEntry.
Section entry.
Context `{!Zerocopy}.

Definition header (e : slice) : outcome DirectoryEntryHeader.t :=
  DirectoryEntryHeader.header_of_bytes e.

Definition name (e : slice) : outcome (list Z) :=
  let name_start := size_of DirectoryEntryHeader.t in
  h ← header e;
  name_end ← uadd 64 name_start (DirectoryEntryHeader.name_len h);
  if name_end <=? zlen (slice_bytes e)
  then mret (default (str "<invalid utf8>")
               (Utf8.from_utf8 (read_at name_start (name_end - name_start) (slice_bytes e))))
  else Panic PanicIndex.

Definition inode_number (e : slice) : outcome Z := h ← header e; mret (DirectoryEntryHeader.inode h).

Definition file_type (e : slice) : outcome DirectoryEntryFileType.t :=
  h ← header e; DirectoryEntryFileType.from_u8 (DirectoryEntryHeader.raw_file_type h).

Definition is_file (e : slice) : outcome bool :=
  t ← file_type e; mret (bool_decide (t = DirectoryEntryFileType.RegularFile)).

Definition is_dir (e : slice) : outcome bool :=
  t ← file_type e; mret (bool_decide (t = DirectoryEntryFileType.Directory)).
End entry.
End DirectoryEntry.

(** ** Directory blocks *)
Module DirectoryBlock.
Record t : Type := mk {
  block : BlockBuffer;
  entry_locations : list Z;
}.

Section directory_block.
Context `{!Zerocopy}.

(** The [while offset < bytes.len()] loop.  An entry with [rec_len = 0] does
    not advance, so the loop runs out of any fuel; otherwise it advances by at
    least one byte a turn. *)
Fixpoint scan_entries (fuel : nat) (bytes : slice) (offset : Z) (locations : list Z)
  : outcome (list Z) :=
  if negb (offset <? zlen (slice_bytes bytes)) then mret locations else
  match fuel with
  | O => Diverge
  | S fuel =>
      entry ← slice_from bytes offset;
      header ← DirectoryEntry.header entry;
      offset' ← uadd 64 offset (DirectoryEntryHeader.rec_len header);
      scan_entries fuel bytes offset' (locations ++ [offset])
  end.

Definition from_existing_block (block : BlockBuffer) : outcome t :=
  locations ← scan_entries (length (slice_bytes (data block))) (data block) 0 [];
  mret (mk block locations).

Definition load_entry_from_location (b : t) (location : Z) : outcome slice :=
  slice_from (data (block b)) location.

(** [enumerate().find_map(..)] over the entries, for space of [needed] bytes *)
Fixpoint find_space (b : t) (needed : Z) (i : Z) (locations : list Z) : outcome (option (Z * Z)) :=
  match locations with
  | [] => mret None
  | location :: rest =>
      entry ← load_entry_from_location b location;
      header ← DirectoryEntry.header entry;
      free ← usub (DirectoryEntryHeader.rec_len header) (DirectoryEntryHeader.required_space header);
      if needed <=? free
      then location' ← index (entry_locations b) i; mret (Some (i, location'))
      else find_space b needed (i + 1) rest
  end.

(** [ptr.write] and [copy_from_nonoverlapping] through a raw pointer to
    [bytes[location..]]: outside of the buffer the behaviour is undefined. *)
Definition raw_write (bytes : list Z) (location : Z) (new : list Z) : outcome (list Z) :=
  if location <=? zlen bytes then
    if location + zlen new <=? zlen bytes then Ret (write_at location new bytes)
    else Panic Undefined
  else Panic PanicIndex.

Definition raw_header (bytes : slice) (location : Z) : outcome DirectoryEntryHeader.t :=
  s ← slice_from bytes location;
  if size_of DirectoryEntryHeader.t <=? zlen (slice_bytes s)
  then Ret (Transmute.cast DirectoryEntryHeader.t (slice_bytes s))
  else Panic Undefined.

Definition header_bytes (h : DirectoryEntryHeader.t) : list Z :=
  lto (layout_of DirectoryEntryHeader.t) h.

Definition insert_entry (b : t) (name : list Z) (inode_number : Z)
  (entry_type : DirectoryEntryFileType.t) : outcome (option slice * t) :=
  let new_header := DirectoryEntryHeader.new inode_number name (DirectoryEntryFileType.to_u8 entry_type) in
  found ← find_space b (DirectoryEntryHeader.required_space new_header) 0 (entry_locations b);
  match found with
  | None => mret (None, b)
  | Some (found_index, found_location) =>
      found_header ← raw_header (data (block b)) found_location;
      let prev_rec_len := DirectoryEntryHeader.rec_len found_header in
      let found_header := DirectoryEntryHeader.set_rec_len
        (wrap 16 (DirectoryEntryHeader.required_space found_header)) found_header in
      bytes ← raw_write (slice_bytes (data (block b))) found_location (header_bytes found_header);
      new_location ← uadd 64 found_location (DirectoryEntryHeader.rec_len found_header);
      new_rec_len ← usub prev_rec_len (DirectoryEntryHeader.rec_len found_header);
      let new_header := DirectoryEntryHeader.set_rec_len new_rec_len new_header in
      bytes ← raw_write bytes new_location (header_bytes new_header);
      bytes ← raw_write bytes (new_location + size_of DirectoryEntryHeader.t) name;
      let b' := mk (BlockDevice.with_bytes (block b) bytes)
                   (take (Z.to_nat found_index) (entry_locations b) ++
                    new_location :: drop (Z.to_nat found_index) (entry_locations b)) in
      entry ← load_entry_from_location b' new_location;
      mret (Some entry, b')
  end.

Definition flush {D} `{!BlockDeviceDriver D} (b : t) (driver : D) : outcome D :=
  BlockDevice.flush (block b) driver.
End directory_block.
End DirectoryBlock.
