(* ===== verification/Fat.v ===== *)
(** * The boot sector of a FAT file system ([kernel/src/fs/fat.rs])

    The BIOS parameter block that the shell's [fat bios] command reads from the first
    sector of a disk and prints. *)
From S2P Require Import Prelude Transmute.
#[local] Open Scope Z_scope.

Module BIOSParameterBlock.
Record t : Type := mk {
  jmp_boot : list Z;
  oem_name : list Z;
  bytes_per_sector : Z;
  sectors_per_cluster : Z;
  reserved_sectors : Z;
  fat_count : Z;
  root_dir_entries : Z;
  total_sectors : Z;
  media_descriptor : Z;
  sectors_per_fat : Z;
  sectors_per_track : Z;
  head_count : Z;
  hidden_sectors : Z;
  total_sectors_large : Z;
}.

Definition fields := (
  byte_array 3 ⊕ byte_array 8 ⊕ u16 ⊕ u8 ⊕ u16 ⊕ u8 ⊕ u16 ⊕ u16 ⊕ u8 ⊕ u16 ⊕ u16 ⊕ u16 ⊕ u32 ⊕ u32)%layout.

Definition of_fields : _ → t := λ '(
    a0, (a1, (a2, (a3, (a4, (a5, (a6, (a7, (a8, (a9, (a10, (a11, (a12, a13))))))))))))),
  mk a0 a1 a2 a3 a4 a5 a6 a7 a8 a9 a10 a11 a12 a13.

Definition to_fields (v : t) :=
  (jmp_boot v, (oem_name v, (bytes_per_sector v, (sectors_per_cluster v, (reserved_sectors v, (fat_count v, (
   root_dir_entries v, (total_sectors v, (media_descriptor v, (sectors_per_fat v, (sectors_per_track v, (
   head_count v, (hidden_sectors v, total_sectors_large v))))))))))))).

#[global] Instance parameter_block_from_bytes : FromBytes t.
Proof. refine {| layout_of := iso of_fields to_fields fields; align_of := 1 |}; [solve_layout|lia]. Defined.

(** [data.as_ptr().cast::<BIOSParameterBlock>().read()], of the bytes that were read *)
Definition read (data : list Z) : t := Transmute.cast t data.
End BIOSParameterBlock.

(** The block is the first 36 bytes of the sector, which the command has read, and it is packed: each field is at the
    offset that FAT gives it. *)
Lemma parameter_block_size : size_of BIOSParameterBlock.t = 36.
Proof. reflexivity. Qed.

Lemma parameter_block_read v rest : lvalid (layout_of BIOSParameterBlock.t) v →
  BIOSParameterBlock.read (lto (layout_of BIOSParameterBlock.t) v ++ rest) = v.
Proof.
  intros Hv. unfold BIOSParameterBlock.read, Transmute.cast, read_at. cbn [drop]. change (Z.to_nat 0) with 0%nat. rewrite drop_0.
  pose proof (lo_length _ (layout_of_ok (T := BIOSParameterBlock.t)) v Hv) as Hl. unfold size_of. rewrite Nat2Z.id, <-Hl, take_app_length.
  by apply (lo_of_to _ (layout_of_ok (T := BIOSParameterBlock.t))).
Qed.

(** The number of bytes in a sector, of a sector of a FAT disk *)
Example parameter_block_field :
  BIOSParameterBlock.bytes_per_sector (BIOSParameterBlock.read ([0xeb; 0x3c; 0x90] ++ replicate 8 32 ++ [0; 2; 4] ++ replicate 22 0)) = 512.
Proof. reflexivity. Qed.
