(* ===== verification/Vfs.v ===== *)
(** * The virtual file system ([kernel/src/vfs])

    [FilePath] is [path.rs]: strings are their UTF-8 bytes, in which ['/'] is
    the byte 47.  [Vfs] is the interface of [fs.rs]: the traits [FileSystem],
    [FileInode], [DirectoryInode] and [DirectoryEntry] with the file system's
    state made explicit, and the functions the traits provide over it. *)
From S2P Require Import Prelude.
#[local] Open Scope Z_scope.

(** ** Paths *)
Module FilePath.
Record t : Type := mk {
  absolute : bool;
  components : list (list Z);
}.

Definition SLASH : Z := 47.

(** [s.split('/')] *)
Fixpoint split (s : list Z) : list (list Z) :=
  match s with
  | [] => [[]]
  | c :: s =>
      if c =? SLASH then [] :: split s
      else match split s with
           | [] => [[c]]
           | w :: ws => (c :: w) :: ws
           end
  end.

(** [parts.join("/")] *)
Fixpoint join (ws : list (list Z)) : list Z :=
  match ws with
  | [] => []
  | w :: ws => match ws with [] => w | _ => w ++ SLASH :: join ws end
  end.

Definition is_empty (s : list Z) : bool := match s with [] => true | _ => false end.

(** [FilePathComponent::new] *)
Definition component_new (s : list Z) : outcome (option (list Z)) :=
  _ ← assert_ (negb (bool_decide (SLASH ∈ s)));
  mret (if is_empty s then None else Some s).

(** [.filter_map(FilePathComponent::new).collect()] *)
Fixpoint collect_components (ws : list (list Z)) : outcome (list (list Z)) :=
  match ws with
  | [] => mret []
  | w :: ws =>
      c ← component_new w;
      cs ← collect_components ws;
      mret (match c with Some c => c :: cs | None => cs end)
  end.

Definition starts_with_slash (s : list Z) : bool :=
  match s with c :: _ => c =? SLASH | [] => false end.

Definition parse (s : list Z) : outcome (option t) :=
  let absolute := starts_with_slash s in
  components ← collect_components (filter (λ w, is_empty w = false) (split s));
  mret (if negb absolute && bool_decide (components = []) then None
        else Some (mk absolute components)).

Definition as_string (p : t) : list Z :=
  (if absolute p then [SLASH] else []) ++ join (components p).

Definition split_dirname_filename (p : t) : option (t * list Z) :=
  match rev (components p) with
  | [] => None
  | filename :: parent => Some (mk (absolute p) (rev parent), filename)
  end.
End FilePath.

(** ** The file system interface *)
Inductive inode_type (I : Type) : Type :=
| File (i : I)
| Directory (i : I).
Arguments File {I} i.
Arguments Directory {I} i.

Inductive FileInodeReadResult : Type :=
| Success
| Done (bytes_read : Z).

Inductive DirectoryEntryType : Type :=
| EntryFile
| EntryDirectory.

Class Vfs (FS I E : Type) : Type := {
  read_root : FS → outcome (inode_type I);
  (** [FileInode] *)
  read_file : FS → I → list Z → Z → outcome (FileInodeReadResult * list Z);
  write_file : FS → I → list Z → outcome (bool * I * FS);
  (** [DirectoryInode] *)
  subdirectories : FS → I → outcome (list E * FS);
  create_file : FS → I → list Z → outcome (option I * FS);
  (** [DirectoryEntry] *)
  entry_name : E → list Z;
  entry_type : E → DirectoryEntryType;
  get_inode : FS → E → outcome (inode_type I);
}.

(** The trait's provided [FileInode::write] and [DirectoryInode::create_file]. *)
Definition default_write {FS I} (fs : FS) (i : I) (_ : list Z) : outcome (bool * I * FS) :=
  mret (false, i, fs).
Definition default_create_file {FS I} (fs : FS) (_ : I) (_ : list Z) : outcome (option I * FS) :=
  mret (None, fs).

Module VfsOps.
Section vfs.
Context {FS I E : Type} `{!Vfs FS I E}.

(** [into_iter().find(|entry| entry.name() == component)] *)
Definition find_entry (entries : list E) (component : list Z) : option E :=
  snd <$> list_find (λ e, entry_name e = component) entries.

(** The [for] loop of [traverse_path]. *)
Fixpoint traverse (fs : FS) (inode : inode_type I) (components : list (list Z))
  : outcome (option (inode_type I) * FS) :=
  match components with
  | [] => mret (Some inode, fs)
  | component :: rest =>
      match inode with
      | File _ => mret (None, fs)
      | Directory dir =>
          '(entries, fs) ← subdirectories fs dir;
          match find_entry entries component with
          | None => mret (None, fs)
          | Some entry => inode ← get_inode fs entry; traverse fs inode rest
          end
      end
  end.

Definition traverse_path (fs : FS) (path : FilePath.t) : outcome (option (inode_type I) * FS) :=
  inode ← read_root fs;
  traverse fs inode (FilePath.components path).

Inductive path_error : Type :=
| NoFileSystem
| NotAbsolute
| NotFound.

(** [get_path_inode] on the contents of [MOUNTED_ROOT_FILE_SYSTEM] *)
Definition get_path_inode (root : option FS) (path : FilePath.t)
  : outcome (result (inode_type I) path_error * option FS) :=
  match root with
  | None => mret (Err NoFileSystem, root)
  | Some fs =>
      if negb (FilePath.absolute path) then mret (Err NotAbsolute, root) else
      '(inode, fs) ← traverse_path fs path;
      mret (match inode with Some inode => Ok inode | None => Err NotFound end, Some fs)
  end.

Definition mount_root_filesystem (_ : option FS) (fs : FS) : option FS := Some fs.
Definition unmount_root_filesystem (_ : option FS) : option FS := None.

Definition READ_BUFFER_SIZE : Z := 4096.

(** The [loop] of [read_all]. *)
Fixpoint read_all_loop (fuel : nat) (fs : FS) (file : I) (buffer : list Z) (offset : Z)
  : outcome (list Z) :=
  match fuel with
  | O => Diverge
  | S fuel =>
      let read_buffer := replicate (Z.to_nat READ_BUFFER_SIZE) 0 in
      '(r, read_buffer) ← read_file fs file read_buffer offset;
      match r with
      | Success =>
          offset ← uadd 64 offset (zlen read_buffer);
          read_all_loop fuel fs file (buffer ++ read_buffer) offset
      | Done bytes_read =>
          if bytes_read <=? zlen read_buffer
          then mret (buffer ++ take (Z.to_nat bytes_read) read_buffer)
          else Panic PanicIndex
      end
  end.

Definition read_all (fuel : nat) (fs : FS) (file : I) : outcome (list Z) :=
  read_all_loop fuel fs file [] 0.
End vfs.
End VfsOps.

(** ** Paths: parsing and printing *)
Section paths.
Import FilePath.

(** What [parse] returns and [as_string] prints faithfully. *)
Definition component_ok (w : list Z) : Prop := w ≠ [] ∧ SLASH ∉ w.

Record path_ok (p : t) : Prop := {
  po_components : Forall component_ok (components p);
  po_nonempty : absolute p = true ∨ components p ≠ [];
}.

Lemma split_no_slash s w : w ∈ split s → SLASH ∉ w.
Proof.
  revert w. induction s as [|c s IH]; intros w; simpl.
  - rewrite list_elem_of_singleton. intros ->. apply not_elem_of_nil.
  - destruct (Z.eqb_spec c SLASH) as [->|Hc].
    + rewrite elem_of_cons. intros [->|?]; [apply not_elem_of_nil|by apply IH].
    + destruct (split s) as [|w0 ws] eqn:E.
      * rewrite list_elem_of_singleton. intros ->. rewrite list_elem_of_singleton. congruence.
      * rewrite elem_of_cons. intros [->|Hw].
        -- rewrite not_elem_of_cons. split; [congruence|]. apply IH. left.
        -- apply IH. by right.
Qed.

Lemma collect_components_ok ws :
  Forall component_ok ws → collect_components ws = Ret ws.
Proof.
  induction 1 as [|w ws [Hne Hs] _ IH]; simpl; [done|].
  unfold component_new. rewrite bool_decide_false by done. simpl.
  rewrite IH. simpl. by destruct w.
Qed.

(** [parse] never panics; what it returns has non-empty components without
    separators. *)
Lemma parse_eq s :
  let ws := filter (λ w, is_empty w = false) (split s) in
  Forall component_ok ws ∧
  parse s = Ret (if negb (starts_with_slash s) && bool_decide (ws = []) then None
                 else Some (mk (starts_with_slash s) ws)).
Proof.
  intros ws. assert (Forall component_ok ws) as Hok.
  { apply Forall_forall. intros w [He Hw]%list_elem_of_filter. split.
    - by intros ->.
    - by apply (split_no_slash s). }
  split; [done|]. unfold parse. fold ws. by rewrite (collect_components_ok ws Hok).
Qed.

Lemma split_app_slash w s : SLASH ∉ w → split (w ++ SLASH :: s) = w :: split s.
Proof.
  induction w as [|c w IH]; intros Hw; [done|].
  rewrite not_elem_of_cons in Hw. destruct Hw as [Hc Hw]. cbn [app split].
  destruct (Z.eqb_spec c SLASH); [congruence|]. by rewrite (IH Hw).
Qed.

Lemma split_single w : SLASH ∉ w → split w = [w].
Proof.
  induction w as [|c w IH]; intros Hw; [done|].
  rewrite not_elem_of_cons in Hw. destruct Hw as [Hc Hw]. cbn [split].
  destruct (Z.eqb_spec c SLASH); [congruence|]. by rewrite (IH Hw).
Qed.

Lemma split_join ws : ws ≠ [] → Forall component_ok ws → split (join ws) = ws.
Proof.
  induction ws as [|w ws IH]; intros Hne Hok; [done|].
  apply Forall_cons in Hok as [[Hw Hs] Hok]. destruct ws as [|w' ws'].
  - by apply split_single.
  - change (join (w :: w' :: ws')) with (w ++ SLASH :: join (w' :: ws')).
    rewrite split_app_slash by done. by rewrite IH.
Qed.

Lemma filter_components ws :
  Forall component_ok ws → filter (λ w, is_empty w = false) ws = ws.
Proof.
  intros Hok. induction Hok as [|w ws [Hw _] _ IH]; [done|].
  rewrite filter_cons, IH, decide_True; [done|]. by destruct w.
Qed.

Lemma join_head ws : ws ≠ [] → Forall component_ok ws → starts_with_slash (join ws) = false.
Proof.
  intros Hne Hok. destruct ws as [|w ws]; [done|].
  apply Forall_cons in Hok as [[Hw Hs] _]. destruct w as [|c w]; [done|].
  rewrite not_elem_of_cons in Hs.
  assert ((c =? SLASH) = false) as Hc by (apply Z.eqb_neq; naive_solver).
  destruct ws; simpl; by rewrite Hc.
Qed.

(** parsing the printed form of a path gives the path back: for every path
    with non-empty, separator-free components that is absolute or has a
    component, [parse] of [as_string] returns it and does not panic. *)
Theorem parse_as_string p : path_ok p → parse (as_string p) = Ret (Some p).
Proof.
  intros [Hok Hne]. destruct p as [abs cs]. simpl in *.
  destruct (parse_eq (as_string (mk abs cs))) as [_ ->]. unfold as_string. simpl.
  destruct (decide (cs = [])) as [->|Hcs]; [by destruct abs; [|naive_solver]|].
  pose proof (split_join cs Hcs Hok) as Hj. pose proof (join_head cs Hcs Hok) as Hh.
  destruct abs.
  - change ([SLASH] ++ join cs) with (SLASH :: join cs).
    change (split (SLASH :: join cs)) with ([] :: split (join cs)).
    by rewrite Hj, filter_cons, filter_components by done.
  - rewrite app_nil_l, Hh, Hj, filter_components, bool_decide_false by done. done.
Qed.

Lemma parse_as_string_witness :
  path_ok (mk true [[117; 115; 114]; [98]]) ∧
  parse (as_string (mk true [[117; 115; 114]; [98]])) = Ret (Some (mk true [[117; 115; 114]; [98]])).
Proof.
  assert (path_ok (mk true [[117; 115; 114]; [98]])) as H.
  { split; [|by left]. repeat constructor; try done; simpl; unfold SLASH; set_solver. }
  split; [exact H|]. exact (parse_as_string _ H).
Defined.

(** every string parses without a panic; a path that is returned is well
    formed, and [None] is returned exactly for a relative string with nothing
    but separators, which is the empty string. *)
Theorem parse_total s :
  match parse s with
  | Ret (Some p) => path_ok p ∧ absolute p = starts_with_slash s
  | Ret None => s = []
  | _ => False
  end.
Proof.
  destruct (parse_eq s) as [Hok ->].
  destruct (starts_with_slash s) eqn:Es; simpl.
  - split; [|done]. split; [done|by left].
  - case_bool_decide as Hf; simpl.
    + destruct s as [|c s]; [done|]. exfalso. simpl in *. rewrite Es in Hf.
      destruct (split s); simpl in Hf; done.
    + split; [|done]. split; [done|by right].
Qed.

(** The parent and the file name rebuild the path. *)
Lemma split_dirname_filename_ok p :
  match split_dirname_filename p with
  | Some (parent, filename) =>
      components p = components parent ++ [filename] ∧ absolute parent = absolute p
  | None => components p = []
  end.
Proof.
  unfold split_dirname_filename. destruct (rev (components p)) as [|f r] eqn:E.
  - apply (f_equal (@rev _)) in E. by rewrite rev_involutive in E.
  - apply (f_equal (@rev _)) in E. rewrite rev_involutive in E. simpl in *. done.
Qed.
End paths.
