(* ===== verification/Ext2Fs.v ===== *)
(** * The ext2 file system ([kernel/src/fs/ext2/file_system.rs], [vfs.rs])

    [FileSystem] owns the superblock and descriptor buffers and the device; its
    methods take the file system and return the new one.  The VFS objects share
    one file system behind [Arc<Mutex<..>>]: an operation on an inode takes the
    shared file system, as it is under the lock, and returns it. *)
From S2P Require Import Prelude External Transmute Block Ext2 Ext2Dir.
#[local] Open Scope Z_scope.

(** ** [BlockGroupDescriptorBlocks] *)
Module BlockGroupDescriptorBlocks.
Record t : Type := mk {
  descriptors : BlockBuffer;
  num_block_groups : Z;
}.

Section descriptors.
Context `{!Zerocopy}.

Definition new (blocks : BlockBuffer) (num_block_groups : Z) : outcome t :=
  needed ← umul 64 num_block_groups (size_of BlockGroupDescriptor.t);
  _ ← assert_ (needed <=? zlen (slice_bytes (data blocks)));
  mret (mk blocks num_block_groups).

Definition offset (b : t) (index : Z) : outcome (option Z) :=
  if num_block_groups b <=? index then mret None else
  off ← umul 64 index (size_of BlockGroupDescriptor.t); mret (Some off).

Definition get (b : t) (index : Z) : outcome (option BlockGroupDescriptor.t) :=
  off ← offset b index;
  mret (off ← off; Transmute.collection_get BlockGroupDescriptor.t (data (descriptors b)) off).

(** [*get_mut(index)? = value] *)
Definition assign (b : t) (index : Z) (value : BlockGroupDescriptor.t) : outcome (option t) :=
  off ← offset b index;
  mret (off ← off;
        s ← Transmute.collection_write BlockGroupDescriptor.t (data (descriptors b)) off value;
        Some (mk (BlockDevice.with_data (descriptors b) s) (num_block_groups b))).

Definition flush {D} `{!BlockDeviceDriver D} (b : t) (device : D) : outcome D :=
  BlockDevice.flush (descriptors b) device.
End descriptors.
End BlockGroupDescriptorBlocks.

(** ** [FileSystem] *)
Module FileSystem.
Record t {D : Type} : Type := mk {
  superblock_buffer : BlockBuffer;
  block_group_descriptors : BlockGroupDescriptorBlocks.t;
  block_size : Z;
  device : D;
}.
Arguments t D : clear implicits.

Section file_system.
Context `{!Zerocopy, !Bitflags} {D : Type} `{!BlockDeviceDriver D}.
Notation fs_t := (t D).

Definition superblock (fs : fs_t) : outcome Superblock.t :=
  Transmute.view_deref Superblock.t (data (superblock_buffer fs)).

Definition with_device (fs : fs_t) (d : D) : fs_t :=
  mk D (superblock_buffer fs) (block_group_descriptors fs) (block_size fs) d.

Definition read (device : D) : outcome (option fs_t) :=
  buf ← BlockDevice.read_blocks device Superblock.SUPERBLOCK_BLOCK_SIZE Superblock.SUPERBLOCK_BLOCK_INDEX 1;
  view ← expect (Transmute.view_new Superblock.t (data buf));
  s ← Transmute.view_deref Superblock.t view;
  if negb (Superblock.magic_valid s) then mret None else
  block_size ← Superblock.block_size s;
  num_block_groups ← Superblock.num_block_groups s;
  num_descriptor_blocks ← udiv_ceil num_block_groups block_size;
  descriptor_block_start ← Superblock.block_descriptor_table_start_block s;
  blocks ← BlockDevice.read_blocks device block_size descriptor_block_start num_descriptor_blocks;
  descriptors ← BlockGroupDescriptorBlocks.new blocks num_block_groups;
  mount_count ← uadd 16 (Superblock.mount_count s) 1;
  view ← Transmute.view_assign Superblock.t view (Superblock.set_mount_count mount_count s);
  let buf := BlockDevice.with_data buf view in
  device ← BlockDevice.flush buf device;
  mret (Some (mk D buf descriptors block_size device)).

Definition inode_bitmap_block (fs : fs_t) (g : BlockGroupDescriptor.t) : outcome BlockBuffer :=
  BlockDevice.read_blocks (device fs) (block_size fs) (BlockGroupDescriptor.inode_bitmap g) 1.

Definition block_bitmap_block (fs : fs_t) (g : BlockGroupDescriptor.t) : outcome BlockBuffer :=
  BlockDevice.read_blocks (device fs) (block_size fs) (BlockGroupDescriptor.block_bitmap g) 1.

Definition inode_block (fs : fs_t) (g : BlockGroupDescriptor.t) (local_inode_index : Z)
  : outcome (BlockBuffer * Z) :=
  s ← superblock fs;
  '(inode_block_index, inode_offset) ←
    Superblock.inode_block_and_offset s (BlockGroupDescriptor.inode_table g) local_inode_index;
  buf ← BlockDevice.read_blocks (device fs) (block_size fs) inode_block_index 1;
  mret (buf, inode_offset).

Definition read_inode (fs : fs_t) (inode_number : Z) : outcome (option Inode.t) :=
  s ← superblock fs;
  '(block_group_index, local_inode_index) ← Superblock.inode_location s inode_number;
  g ← BlockGroupDescriptorBlocks.get (block_group_descriptors fs) block_group_index;
  match g with
  | None => mret None
  | Some g =>
      bitmap ← inode_bitmap_block fs g;
      match Bitmap.is_used (slice_bytes (data bitmap)) local_inode_index with
      | None | Some false => mret None
      | Some true =>
          '(inodes, inode_offset) ← inode_block fs g local_inode_index;
          inode ← expect (Transmute.collection_get Inode.t (data inodes) inode_offset);
          mret (Some inode)
      end
  end.

Definition read_root (fs : fs_t) : outcome (Inode.t * Z) :=
  inode ← read_inode fs Superblock.ROOT_DIRECTORY;
  inode ← expect inode;
  mret (inode, Superblock.ROOT_DIRECTORY).

Definition write_inode (fs : fs_t) (inode : Inode.t) (inode_number : Z) : outcome fs_t :=
  s ← superblock fs;
  '(block_group_index, local_inode_index) ← Superblock.inode_location s inode_number;
  g ← BlockGroupDescriptorBlocks.get (block_group_descriptors fs) block_group_index;
  g ← expect g;
  bitmap ← inode_bitmap_block fs g;
  inode_used ← expect (Bitmap.is_used (slice_bytes (data bitmap)) local_inode_index);
  _ ← assert_ inode_used;
  '(inodes, inode_offset) ← inode_block fs g local_inode_index;
  written ← expect (Transmute.collection_write Inode.t (data inodes) inode_offset inode);
  d ← BlockDevice.flush (BlockDevice.with_data inodes written) (device fs);
  mret (with_device fs d).

(** [BlockAddress] is a [u32] newtype: its size and its alignment are 4. *)
Definition block_address_from_bytes : FromBytes Z.
Proof. refine {| layout_of := u32; align_of := 4 |}; [apply uint_ok|lia]. Defined.

Definition SIZE_OF_BLOCK_INDEX : Z := 8.

Definition read_inode_block (fs : fs_t) (inode : Inode.t) (idx : Z) : outcome BlockBuffer :=
  match Inode.direct_blocks inode !! Z.to_nat idx with
  | Some block_addr => BlockDevice.read_blocks (device fs) (block_size fs) block_addr 1
  | None =>
      let block_indexes_per_indirect := block_size fs / SIZE_OF_BLOCK_INDEX in
      indirect_block_index ← usub block_indexes_per_indirect (zlen (Inode.direct_blocks inode));
      _ ← assert_ (indirect_block_index <? block_indexes_per_indirect);
      let indirect_block_addr := Inode.singly_indirect_block inode in
      _ ← assert_ (0 <? indirect_block_addr);
      indirect_block ← BlockDevice.read_blocks (device fs) (block_size fs) indirect_block_addr 1;
      block_addr ← expect (@Transmute.collection_get _ Z block_address_from_bytes
                             (data indirect_block) indirect_block_index);
      BlockDevice.read_blocks (device fs) (block_size fs) block_addr 1
  end.

(** The callback sees the device, which it may flush a buffer to, and its own
    captured variables; it returns whether to go on. *)
Definition iter_file_blocks {St} (fs : fs_t) (inode : Inode.t)
  (func : Z → BlockBuffer → D → St → outcome (bool * D * St)) (s : St) : outcome (fs_t * St) :=
  sb ← superblock fs;
  it ← iter_inode_blocks sb inode;
  r ← InodeBlockIterator.for_each (λ offset block_addr '(d, s),
        block_buf ← BlockDevice.read_blocks d (block_size fs) block_addr 1;
        '(go_on, d, s) ← func offset block_buf d s;
        mret (if go_on : bool then Next (d, s) else Stop (d, s))) it (device fs, s);
  match r with Next (d, s) | Stop (d, s) => mret (with_device fs d, s) end.

Definition iter_directory_blocks {St} (fs : fs_t) (inode : Inode.t)
  (func : DirectoryBlock.t → D → St → outcome (bool * D * St)) (s : St) : outcome (fs_t * St) :=
  _ ← assert_ (Inode.is_dir inode);
  sb ← superblock fs;
  let inode_size := Superblock.file_size sb inode in
  bs ← Superblock.block_size sb;
  r ← urem inode_size bs;
  _ ← assert_ (r =? 0);
  iter_file_blocks fs inode (λ _ buf d s,
    dir_block ← DirectoryBlock.from_existing_block buf;
    func dir_block d s) s.

Definition new_file_inode (parent : Inode.t) (blocks : Z) (direct_blocks : list Z) : Inode.t :=
  {| Inode.mode := flags_or (flags_or (flags_or (flags_or Inode.IROTH Inode.IRGRP) Inode.IWUSR)
                               Inode.IRUSR) Inode.IFREG;
     Inode.uid := Inode.uid parent; Inode.size_low := 0; Inode.atime := 0; Inode.ctime := 0;
     Inode.mtime := 0; Inode.dtime := 0; Inode.gid := Inode.gid parent;
     Inode.links_count := 1; Inode.blocks := blocks; Inode.flags := 0; Inode.osd1 := 0;
     Inode.direct_blocks := direct_blocks; Inode.singly_indirect_block := 0;
     Inode.doubly_indirect_block := 0; Inode.triply_indirect_block := 0;
     Inode.generation := 0; Inode.file_acl := 0; Inode.size_high := 0; Inode.faddr := 0;
     Inode.osd2 := replicate 12 0 |}.

(** The callback of [create_file]: insert the entry in the first block that has
    room and flush the block. *)
Definition insert_callback (name : list Z) (inode_number : Z) (dir_block : DirectoryBlock.t)
  (d : D) (found_free_entry : bool) : outcome (bool * D * bool) :=
  '(entry, dir_block) ← DirectoryBlock.insert_entry dir_block name inode_number
                          DirectoryEntryFileType.RegularFile;
  match entry with
  | Some _ => d ← DirectoryBlock.flush dir_block d; mret (false, d, true)
  | None => mret (true, d, found_free_entry)
  end.

(** [superblock.free_inodes_count -= 1; superblock.buffer().flush()] *)
Definition take_superblock_inode (fs : fs_t) : outcome fs_t :=
  s ← superblock fs;
  free ← usub (Superblock.free_inodes_count s) 1;
  view ← Transmute.view_assign Superblock.t (data (superblock_buffer fs))
           (Superblock.set_free_inodes_count free s);
  let buf := BlockDevice.with_data (superblock_buffer fs) view in
  d ← BlockDevice.flush buf (device fs);
  mret (mk D buf (block_group_descriptors fs) (block_size fs) d).

(** The group's counter: [None] when the descriptor is missing. *)
Definition take_group_inode (fs : fs_t) (block_group_index : Z) : outcome (option fs_t) :=
  g ← BlockGroupDescriptorBlocks.get (block_group_descriptors fs) block_group_index;
  match g with
  | None => mret None
  | Some g =>
      free ← usub (BlockGroupDescriptor.free_inodes_count g) 1;
      gs ← BlockGroupDescriptorBlocks.assign (block_group_descriptors fs) block_group_index
             (BlockGroupDescriptor.set_free_inodes_count free g);
      gs ← expect gs;
      d ← BlockGroupDescriptorBlocks.flush gs (device fs);
      mret (Some (mk D (superblock_buffer fs) gs (block_size fs) d))
  end.

Definition create_file (fs : fs_t) (parent : Inode.t) (parent_number : Z) (name : list Z)
  : outcome (option (Inode.t * Z) * fs_t) :=
  _ ← assert_ (Inode.is_dir parent);
  s ← superblock fs;
  '(block_group_index, _) ← Superblock.inode_location s parent_number;
  g ← BlockGroupDescriptorBlocks.get (block_group_descriptors fs) block_group_index;
  match g with
  | None => mret (None, fs)
  | Some g =>
      inode_bitmap ← inode_bitmap_block fs g;
      match Bitmap.reserve_next_free_u32 (slice_bytes (data inode_bitmap)) with
      | None => mret (None, fs)
      | Some (local_inode_index, bytes) =>
          d ← BlockDevice.flush (BlockDevice.with_bytes inode_bitmap bytes) (device fs);
          let fs := with_device fs d in
          block_bitmap ← block_bitmap_block fs g;
          match Bitmap.reserve_next_free_u32 (slice_bytes (data block_bitmap)) with
          | None => mret (None, fs)
          | Some (block_address, bytes) =>
              d ← BlockDevice.flush (BlockDevice.with_bytes block_bitmap bytes) (device fs);
              let fs := with_device fs d in
              direct_blocks ← Inode.direct_insert Inode.direct_empty 0 block_address;
              bs ← Superblock.block_size s;
              let inode := new_file_inode parent (bs / 512) direct_blocks in
              inode_number ← Superblock.inode_number s block_group_index local_inode_index;
              fs ← write_inode fs inode inode_number;
              '(fs, found_free_entry) ←
                iter_directory_blocks fs parent (insert_callback name inode_number) false;
              if negb found_free_entry then mret (None, fs) else
              fs' ← take_group_inode fs block_group_index;
              match fs' with
              | None => mret (None, fs)
              | Some fs => fs ← take_superblock_inode fs; mret (Some (inode, inode_number), fs)
              end
          end
      end
  end.
End file_system.
End FileSystem.
