(* ===== verification/Ext2Demo.v ===== *)
(** * A small ext2 disk

    A disk of sixteen 1 KiB blocks with one block group of sixteen inodes, on
    which the theorems about ext2 are exercised: block 1 is the superblock, 2 the
    descriptor table, 3 and 4 the block and inode bitmaps, 5 and 6 the inode
    table, 7 the root directory and 8 the contents of [/hello]. *)
From S2P Require Import Prelude External Transmute Block Ext2 Ext2Dir Ext2Fs.
#[local] Open Scope Z_scope.
#[local] Existing Instances ram_driver documented_zerocopy documented_bitflags.

Definition padded (n : nat) (bs : list Z) : list Z := bs ++ replicate (n - length bs) 0.

Definition demo_superblock : Superblock.t :=
  Superblock.mk 16 16 0 7 13 1 0 0 8192 8192 16 0 0 0 20 0xEF53 1 1 0 0 0 0 1 0 0 11 128 0 0 0 0
    (replicate 16 7) (padded 16 (str "demo")) (replicate 64 0) 0 0 0 0 (replicate 16 0) 0 0 0
    [0; 0; 0; 0] 0 [0; 0; 0] 0 0.

Definition demo_descriptor : BlockGroupDescriptor.t :=
  BlockGroupDescriptor.mk 3 4 5 7 13 1 0 (replicate 12 0).

Definition demo_root : Inode.t :=
  Inode.mk 0x41ED 0 1024 0 0 0 0 0 2 2 0 0 (7 :: replicate 11 0) 0 0 0 0 0 0 0 (replicate 12 0).

Definition demo_file : Inode.t :=
  Inode.mk 0x81A4 0 5 0 0 0 0 0 1 2 0 0 (8 :: replicate 11 0) 0 0 0 0 0 0 0 (replicate 12 0).

Definition demo_entry (inode rec_len file_type : Z) (name : list Z) : list Z :=
  padded (Z.to_nat rec_len)
    (DirectoryBlock.header_bytes (DirectoryEntryHeader.mk inode rec_len (zlen name) file_type) ++ name).

Definition demo_directory : list Z :=
  demo_entry 2 12 2 (str ".") ++ demo_entry 2 12 2 (str "..") ++ demo_entry 3 1000 1 (str "hello").

Definition inode_bytes (i : Inode.t) : list Z := lto (layout_of Inode.t) i.

Definition demo_image : list Z :=
  replicate 1024 0 ++
  padded 1024 (lto (layout_of Superblock.t) demo_superblock) ++
  padded 1024 (lto (layout_of BlockGroupDescriptor.t) demo_descriptor) ++
  padded 1024 [0xFF] ++
  padded 1024 [0x07] ++
  padded 2048 (replicate 128 0 ++ inode_bytes demo_root ++ inode_bytes demo_file) ++
  demo_directory ++
  padded 1024 (str "Hello") ++
  replicate (7 * 1024) 0.

Definition demo_disk : RamDisk := {| ram_bytes := demo_image |}.

(** The mounted file system. *)
Definition demo_fs : FileSystem.t RamDisk :=
  match FileSystem.read demo_disk with
  | Ret (Some fs) => fs
  | _ => FileSystem.mk _ (Build_BlockBuffer 0 0 (Slice 0 []))
           (BlockGroupDescriptorBlocks.mk (Build_BlockBuffer 0 0 (Slice 0 [])) 0) 0 demo_disk
  end.

Definition demo_mounted_superblock : Superblock.t := Superblock.set_mount_count 1 demo_superblock.

Definition demo_new_file : Inode.t := Inode.set_size_low 77 demo_file.
