(* ===== verification/Ext2Thms.v ===== *)
(** * ext2: bitmaps, inode numbers and inodes on disk *)
From S2P Require Import Prelude External Transmute Block Ext2 Ext2Dir Ext2Fs Ext2Demo.
#[local] Open Scope Z_scope.

(** ** Bitmaps *)
Section bitmap.
Import Bitmap.

Lemma land_pow_testbit b k : 0 ≤ k → negb (Z.land b (Z.shiftl 1 k) =? 0) = Z.testbit b k.
Proof.
  intros Hk. rewrite Z.shiftl_1_l. destruct (Z.testbit b k) eqn:E.
  - apply negb_true_iff, Z.eqb_neq. intros H0.
    apply (f_equal (λ z, Z.testbit z k)) in H0.
    by rewrite Z.land_spec, E, Z.pow2_bits_true, Z.bits_0 in H0 by lia.
  - apply negb_false_iff, Z.eqb_eq, Z.bits_inj'. intros i Hi.
    rewrite Z.land_spec, Z.bits_0. destruct (decide (i = k)) as [->|]; [by rewrite E|].
    by rewrite Z.pow2_bits_false, andb_false_r by lia.
Qed.

Definition byte_check (byte : Z) : bool :=
  match reserve_in_byte byte with
  | Stop (byte', bit) =>
      (0 <=? bit) && (bit <? 8) && negb (Z.testbit byte bit) && (0 <=? byte') && (byte' <? 256)
      && forallb (λ j, (bit <=? j) || Z.testbit byte j) (range 0 8)
      && forallb (λ j, eqb (Z.testbit byte' j) ((j =? bit) || Z.testbit byte j)) (range 0 8)
  | Next _ => byte =? 255
  end.

Lemma byte_checked : forallb byte_check (range 0 256) = true.
Proof. vm_compute. reflexivity. Qed.

Lemma reserve_in_byte_ok byte :
  in_width 8 byte →
  match reserve_in_byte byte with
  | Stop (byte', bit) =>
      0 ≤ bit < 8 ∧ in_width 8 byte' ∧ Z.testbit byte bit = false ∧
      (∀ j, 0 ≤ j < bit → Z.testbit byte j = true) ∧
      (∀ j, 0 ≤ j < 8 → Z.testbit byte' j = (j =? bit) || Z.testbit byte j)
  | Next _ => byte = 255
  end.
Proof.
  intros Hb. pose proof byte_checked as Hc. rewrite forallb_forall in Hc.
  assert (byte_check byte = true) as H.
  { apply Hc. rewrite <-list_elem_of_In. apply elem_of_range. exact Hb. }
  unfold byte_check in H. destruct (reserve_in_byte byte) as [|[byte' bit]].
  - by apply Z.eqb_eq.
  - repeat (apply andb_true_iff in H as [H ?]). rewrite !forallb_forall in *.
    split_and!; try lia; [split; simpl; lia|..].
    + intros j Hj. assert ((bit <=? j) || Z.testbit byte j = true) as Hx.
      { match goal with Hf : ∀ x, In x _ → (_ <=? x) || _ = true |- _ => apply Hf end.
        rewrite <-list_elem_of_In. apply elem_of_range. lia. }
      destruct (Z.leb_spec bit j); [lia|done].
    + intros j Hj. apply eqb_prop.
      match goal with Hf : ∀ x, In x _ → eqb _ _ = true |- _ => apply Hf end.
      rewrite <-list_elem_of_In. by apply elem_of_range.
Qed.

(** Whether bit [j] of the bitmap is set. *)
Definition bit (bytes : list Z) (j : Z) : option bool :=
  byte ← bytes !! Z.to_nat (j / 8); Some (Z.testbit byte (j mod 8)).

Lemma is_used_bit bytes j : is_used bytes j = bit bytes j.
Proof.
  unfold is_used, bit. destruct (bytes !! _); [|done]. simpl. f_equal.
  apply land_pow_testbit. apply Z.mod_pos_bound. lia.
Qed.

Lemma bit_cons byte bytes j :
  0 ≤ j → bit (byte :: bytes) j = if j <? 8 then Some (Z.testbit byte j) else bit bytes (j - 8).
Proof.
  intros Hj. unfold bit. destruct (Z.ltb_spec j 8).
  - rewrite Z.div_small, Z.mod_small by lia. done.
  - replace (Z.to_nat (j / 8)) with (S (Z.to_nat ((j - 8) / 8))) by zdm.
    simpl. by replace ((j - 8) mod 8) with (j mod 8) by zdm.
Qed.

(** What a reservation that starts counting at byte [index] promises. *)
Definition reserve_post (index : Z) (bytes : list Z) (r : option (Z * list Z)) : Prop :=
  match r with
  | Some (i, bytes') =>
      let i := i - index * 8 in
      0 ≤ i < 8 * zlen bytes ∧ bit bytes i = Some false ∧
      (∀ j, 0 ≤ j < i → bit bytes j = Some true) ∧
      (∀ j, 0 ≤ j → bit bytes' j = if j =? i then Some true else bit bytes j) ∧
      length bytes' = length bytes ∧ bytes_ok bytes'
  | None => ∀ j, 0 ≤ j < 8 * zlen bytes → bit bytes j = Some true
  end.

Lemma bit_ff j : 0 ≤ j < 8 → Z.testbit 255 j = true.
Proof. intros. change 255 with (Z.ones 8). by apply Z.ones_spec_low. Qed.

(** A full byte in front: the search goes on behind it. *)
Lemma reserve_post_full index bytes r :
  0 ≤ index → reserve_post (index + 1) bytes r →
  reserve_post index (255 :: bytes) ('(i, bs) ← r; Some (i, 255 :: bs)).
Proof.
  intros Hi Hr. destruct r as [[i bytes']|]; simpl in *.
  - destruct Hr as (Hb & Hf & Hlt & Hset & Hlen & Hok). unfold zlen in *. cbn [length].
    split_and!; try lia.
    + rewrite bit_cons by lia. destruct (Z.ltb_spec (i - index * 8) 8); [lia|].
      rewrite <-Hf. f_equal. lia.
    + intros j Hj. rewrite bit_cons by lia.
      destruct (Z.ltb_spec j 8); [by rewrite bit_ff by lia|apply Hlt; lia].
    + intros j Hj. rewrite !bit_cons by lia. destruct (Z.ltb_spec j 8).
      * destruct (Z.eqb_spec j (i - index * 8)); [lia|done].
      * rewrite Hset by lia. by replace (j - 8 =? i - (index + 1) * 8) with (j =? i - index * 8) by lia.
    + constructor; [by split|done].
  - intros j Hj. unfold zlen in *. cbn [length] in Hj. rewrite bit_cons by lia.
    destruct (Z.ltb_spec j 8); [by rewrite bit_ff by lia|]. apply Hr. lia.
Qed.

Lemma reserve_post_here index byte byte' b bytes :
  in_width 8 byte → bytes_ok bytes → reserve_in_byte byte = Stop (byte', b) →
  reserve_post index (byte :: bytes) (Some (index * 8 + b, byte' :: bytes)).
Proof.
  intros Hby Hok E. pose proof (reserve_in_byte_ok byte Hby) as H. rewrite E in H.
  destruct H as (Hb & Hw & Hf & Hlt & Hset). simpl.
  replace (index * 8 + b - index * 8) with b by lia. unfold zlen. cbn [length].
  split_and!; try lia.
  - rewrite bit_cons by lia. destruct (Z.ltb_spec b 8); [by rewrite Hf|lia].
  - intros j Hj. rewrite bit_cons by lia. destruct (Z.ltb_spec j 8); [|lia].
    by rewrite Hlt.
  - intros j Hj. rewrite !bit_cons by lia. destruct (Z.ltb_spec j 8).
    + rewrite Hset by lia. by destruct (j =? b).
    + destruct (Z.eqb_spec j b); [lia|done].
  - by constructor.
Qed.

Lemma reserve_from_ok index bytes :
  0 ≤ index → bytes_ok bytes → reserve_post index bytes (reserve_from index bytes).
Proof.
  intros Hi Hok. revert index Hi. induction Hok as [|byte bytes Hby Hok IH]; intros index Hi.
  - intros j Hj. unfold zlen in Hj. simpl in Hj. lia.
  - cbn [reserve_from]. pose proof (reserve_in_byte_ok byte Hby) as Hr.
    destruct (Z.eqb_spec byte 255) as [->|Hne].
    + apply reserve_post_full; [done|]. apply IH. lia.
    + destruct (reserve_in_byte byte) as [|[byte' b]] eqn:E; [done|].
      by apply reserve_post_here.
Qed.

(** [reserve_next_free] returns the lowest free bit and sets that bit and no
    other one; it returns [None] exactly when every bit of the bitmap is used. *)
Theorem reserve_next_free_spec bytes :
  bytes_ok bytes →
  match reserve_next_free bytes with
  | Some (i, bytes') =>
      0 ≤ i < 8 * zlen bytes ∧ is_used bytes i = Some false ∧
      (∀ j, 0 ≤ j < i → is_used bytes j = Some true) ∧
      (∀ j, 0 ≤ j → is_used bytes' j = if j =? i then Some true else is_used bytes j) ∧
      length bytes' = length bytes ∧ bytes_ok bytes'
  | None => ∀ j, 0 ≤ j < 8 * zlen bytes → is_used bytes j = Some true
  end.
Proof.
  intros Hok. pose proof (reserve_from_ok 0 bytes ltac:(lia) Hok) as H.
  unfold reserve_next_free. destruct (reserve_from 0 bytes) as [[i bytes']|]; simpl in H.
  - rewrite Z.sub_0_r in H. destruct H as (? & ? & ? & Hs & ? & ?). rewrite is_used_bit.
    split_and!; try done || lia; intros; rewrite !is_used_bit; auto.
  - intros. rewrite is_used_bit. auto.
Qed.

Lemma reserve_next_free_spec_witness :
  bytes_ok [255; 0x17] ∧ reserve_next_free [255; 0x17] = Some (11, [255; 0x1f]) ∧
  is_used [255; 0x17] 11 = Some false.
Proof.
  assert (bytes_ok [255; 0x17]) as H by (by apply bytes_okb_ok).
  split; [exact H|]. split; [reflexivity|]. exact (proj1 (proj2 (reserve_next_free_spec _ H))).
Defined.
End bitmap.

(** ** Inode numbers *)
Section numbers.
Import Superblock.

Lemma inode_location_ok s n :
  0 < inodes_per_group s → 1 ≤ n →
  inode_location s n = Ret ((n - 1) / inodes_per_group s, (n - 1) mod inodes_per_group s).
Proof.
  intros. unfold inode_location. rewrite usub_ok by lia. run_monad. unfold udiv, urem.
  by destruct (Z.eqb_spec (inodes_per_group s) 0); [lia|].
Qed.

(** inode numbers and locations are inverse to each other: every inode
    number has a group and an index below [inodes_per_group] from which
    [inode_number] computes it back, and the location of a computed number is
    the one it was computed from. *)
Theorem inode_number_location s :
  0 < inodes_per_group s →
  (∀ n, 1 ≤ n < 2 ^ 32 → ∃ g l, inode_location s n = Ret (g, l) ∧
     0 ≤ l < inodes_per_group s ∧ inode_number s g l = Ret n) ∧
  (∀ g l, 0 ≤ g → 0 ≤ l < inodes_per_group s → g * inodes_per_group s + l + 1 < 2 ^ 32 →
     ∃ n, inode_number s g l = Ret n ∧ inode_location s n = Ret (g, l)).
Proof.
  intros Hipg. set (p := inodes_per_group s) in *. split.
  - intros n Hn. do 2 eexists. split; [apply inode_location_ok; [exact Hipg|lia]|]. fold p.
    pose proof (Z.mod_pos_bound (n - 1) p ltac:(lia)). split; [done|].
    pose proof (Z.div_mod (n - 1) p ltac:(lia)).
    unfold inode_number. fold p. rewrite umul_ok by nia. run_monad.
    rewrite uadd_ok by nia. run_monad. rewrite uadd_ok by nia. f_equal. nia.
  - intros g l Hg Hl Hlt. exists (g * p + l + 1). split.
    + unfold inode_number. fold p. rewrite umul_ok by nia. run_monad.
      rewrite uadd_ok by nia. run_monad. by rewrite uadd_ok by nia.
    + rewrite inode_location_ok by (fold p; nia). fold p. do 2 f_equal.
      * symmetry. apply Z.div_unique with l; lia.
      * symmetry. apply Z.mod_unique with g; lia.
Qed.
End numbers.
