(* ===== verification/Ext2Inodes.v ===== *)
(** * ext2: inodes on disk

    The invariant of a mounted file system, where each inode lies on the device,
    and that [write_inode] and [read_inode] address exactly that place. *)
From S2P Require Import Prelude External Transmute Block Ext2 Ext2Dir Ext2Fs Ext2Demo Ext2Thms.
#[local] Open Scope Z_scope.
Import FileSystem.

Section inodes.
Context `{!Zerocopy, !ZerocopyLaws} {D : Type} `{!BlockDeviceDriver D} `{laws : !BlockDeviceLaws D}.
Implicit Types (fs : t D) (sb : Superblock.t) (inode : Inode.t).

Definition fs_image fs : list Z := image (device fs).

(** The descriptor of group [i] as the file system holds it. *)
Definition group fs (i : Z) : BlockGroupDescriptor.t :=
  lof (layout_of BlockGroupDescriptor.t)
    (read_at (i * size_of BlockGroupDescriptor.t) (size_of BlockGroupDescriptor.t)
       (slice_bytes (data (BlockGroupDescriptorBlocks.descriptors (block_group_descriptors fs))))).

Definition num_groups fs : Z := BlockGroupDescriptorBlocks.num_block_groups (block_group_descriptors fs).

Definition table_blocks fs sb : Z :=
  div_ceil (Superblock.inodes_per_group sb * Superblock.inode_size sb) (block_size fs).

(** Where inode [l] of group [i] starts on the device. *)
Definition inode_address fs sb (i l : Z) : Z :=
  BlockGroupDescriptor.inode_table (group fs i) * block_size fs + Superblock.inode_size sb * l.

Definition inode_bitmap_bytes fs (i : Z) : list Z :=
  read_at (BlockGroupDescriptor.inode_bitmap (group fs i) * block_size fs) (block_size fs) (fs_image fs).

(** [n] is the number of an inode of the file system. *)
Definition inode_in fs sb (n : Z) : Prop :=
  1 ≤ n ∧ (n - 1) / Superblock.inodes_per_group sb < num_groups fs.

Definition inode_group sb (n : Z) : Z := (n - 1) / Superblock.inodes_per_group sb.
Definition inode_index sb (n : Z) : Z := (n - 1) mod Superblock.inodes_per_group sb.

(** The mounted file system: the buffers hold the superblock and the
    descriptors, and the geometry they describe fits the device. *)
Record fs_ok fs sb : Prop := {
  fo_buffer : 1024 ≤ zlen (slice_bytes (data (superblock_buffer fs)));
  fo_superblock : lof (layout_of Superblock.t)
    (read_at 0 (size_of Superblock.t) (slice_bytes (data (superblock_buffer fs)))) = sb;
  fo_block_size : Superblock.block_size sb = Ret (block_size fs);
  fo_device : block_size_ok (device fs) (block_size fs);
  fo_capacity : zlen (fs_image fs) < 2 ^ 48;
  fo_groups : 0 ≤ num_groups fs < 2 ^ 32;
  fo_descriptors : num_groups fs * size_of BlockGroupDescriptor.t ≤
    zlen (slice_bytes (data (BlockGroupDescriptorBlocks.descriptors (block_group_descriptors fs))));
  fo_inode_size : size_of Inode.t ≤ Superblock.inode_size sb < 2 ^ 16;
  fo_inode_fits : (Superblock.inode_size sb | block_size fs);
  fo_inodes : 0 < Superblock.inodes_per_group sb ≤ 8 * block_size fs;
  fo_bitmap i : 0 ≤ i < num_groups fs →
    0 ≤ BlockGroupDescriptor.inode_bitmap (group fs i) ∧
    (BlockGroupDescriptor.inode_bitmap (group fs i) + 1) * block_size fs ≤ zlen (fs_image fs);
  fo_table i : 0 ≤ i < num_groups fs →
    0 ≤ BlockGroupDescriptor.inode_table (group fs i) ∧
    (BlockGroupDescriptor.inode_table (group fs i) + table_blocks fs sb) * block_size fs
      ≤ zlen (fs_image fs);
}.

(** The tables do not overlap each other or a bitmap. *)
Record geometry_ok fs sb : Prop := {
  ge_bitmap i j : 0 ≤ i < num_groups fs → 0 ≤ j < num_groups fs →
    let b := BlockGroupDescriptor.inode_bitmap (group fs i) in
    let t := BlockGroupDescriptor.inode_table (group fs j) in
    b + 1 ≤ t ∨ t + table_blocks fs sb ≤ b;
  ge_tables i j : 0 ≤ i < num_groups fs → 0 ≤ j < num_groups fs → i ≠ j →
    let t := BlockGroupDescriptor.inode_table (group fs i) in
    let u := BlockGroupDescriptor.inode_table (group fs j) in
    t + table_blocks fs sb ≤ u ∨ u + table_blocks fs sb ≤ t;
}.

Section mounted.
Context (fs : t D) (sb : Superblock.t) (Hfs : fs_ok fs sb).

Lemma inode_size_is : size_of Inode.t = 128.
Proof. reflexivity. Qed.

Lemma superblock_ok : superblock fs = Ret sb.
Proof.
  unfold superblock. rewrite view_deref_ok.
  - by rewrite (fo_superblock fs sb Hfs).
  - split_and!; [done| |apply Z.mod_1_r].
    change (size_of Superblock.t) with 264. pose proof (fo_buffer fs sb Hfs). lia.
Qed.

Lemma block_size_bounds : 0 < block_size fs < 2 ^ 16.
Proof. apply (fo_device fs sb Hfs). Qed.

Lemma get_group i :
  0 ≤ i < num_groups fs →
  BlockGroupDescriptorBlocks.get (block_group_descriptors fs) i = Ret (Some (group fs i)).
Proof.
  intros Hi. unfold BlockGroupDescriptorBlocks.get, BlockGroupDescriptorBlocks.offset.
  fold (num_groups fs). destruct (Z.leb_spec (num_groups fs) i); [lia|].
  pose proof (fo_groups fs sb Hfs). change (size_of BlockGroupDescriptor.t) with 32.
  rewrite umul_ok by lia. run_monad. cbn [mbind option_bind].
  rewrite collection_get_ok; [done|]. split_and!; [lia| |apply Z.mod_1_r].
  pose proof (fo_descriptors fs sb Hfs). change (size_of BlockGroupDescriptor.t) with 32 in *. lia.
Qed.

Lemma get_group_none i :
  num_groups fs ≤ i → BlockGroupDescriptorBlocks.get (block_group_descriptors fs) i = Ret None.
Proof.
  intros Hi. unfold BlockGroupDescriptorBlocks.get, BlockGroupDescriptorBlocks.offset.
  fold (num_groups fs). by destruct (Z.leb_spec (num_groups fs) i); [|lia].
Qed.

(** ** The place of an inode *)
Lemma table_blocks_covers l :
  0 ≤ l < Superblock.inodes_per_group sb →
  let off := Superblock.inode_size sb * l in
  0 ≤ off / block_size fs ∧ off / block_size fs + 1 ≤ table_blocks fs sb ∧
  off mod block_size fs + size_of Inode.t ≤ block_size fs.
Proof.
  intros Hl off. subst off. pose proof block_size_bounds as Hbs.
  pose proof (fo_inode_size fs sb Hfs) as Hsz. rewrite inode_size_is in *.
  destruct (fo_inode_fits fs sb Hfs) as [k Hk].
  set (sz := Superblock.inode_size sb) in *. set (bs := block_size fs) in *.
  assert (0 < k) by nia.
  pose proof (Z.div_mod l k ltac:(lia)). pose proof (Z.mod_pos_bound l k ltac:(lia)).
  assert (sz * l = l / k * bs + sz * (l mod k)) as E by nia.
  assert (0 ≤ sz * (l mod k) ≤ bs - sz) by nia.
  assert (0 ≤ l / k) by (apply Z.div_pos; lia).
  assert ((sz * l) / bs = l / k) as ->.
  { symmetry. apply Z.div_unique with (sz * (l mod k)); lia. }
  assert ((sz * l) mod bs = sz * (l mod k)) as ->.
  { symmetry. apply Z.mod_unique with (l / k); lia. }
  unfold table_blocks. fold sz bs.
  pose proof (div_ceil_spec (Superblock.inodes_per_group sb * sz) bs ltac:(lia)). nia.
Qed.

Lemma inode_place i l :
  0 ≤ i < num_groups fs → 0 ≤ l < Superblock.inodes_per_group sb →
  let t := BlockGroupDescriptor.inode_table (group fs i) in
  ∃ b off, Superblock.inode_block_and_offset sb t l = Ret (b, off) ∧
    t ≤ b < t + table_blocks fs sb ∧ 0 ≤ off ∧ off + size_of Inode.t ≤ block_size fs ∧
    b * block_size fs + off = inode_address fs sb i l.
Proof.
  intros Hi Hl t. destruct (table_blocks_covers l Hl) as (H1 & H2 & H3).
  destruct (fo_table fs sb Hfs i Hi) as [Ht Hcap]. fold t in Ht, Hcap.
  pose proof block_size_bounds as Hbs. pose proof (fo_inode_size fs sb Hfs) as Hsz.
  pose proof (fo_inodes fs sb Hfs). rewrite inode_size_is in *.
  exists (t + Superblock.inode_size sb * l / block_size fs),
    (Superblock.inode_size sb * l mod block_size fs).
  pose proof (fo_capacity fs sb Hfs). split_and!; try lia.
  - unfold Superblock.inode_block_and_offset. rewrite umul_ok by nia. run_monad.
    rewrite (fo_block_size fs sb Hfs). run_monad. unfold udiv, urem.
    destruct (Z.eqb_spec (block_size fs) 0); [lia|]. run_monad.
    unfold BlockDevice.BlockIndex_add. by rewrite uadd_ok by nia.
  - apply Z.mod_pos_bound. lia.
  - unfold inode_address. fold t.
    pose proof (Z.div_mod (Superblock.inode_size sb * l) (block_size fs) ltac:(lia)). nia.
Qed.

Lemma inode_block_ok i l :
  0 ≤ i < num_groups fs → 0 ≤ l < Superblock.inodes_per_group sb →
  ∃ buf b off, inode_block fs (group fs i) l = Ret (buf, off) ∧
    0 ≤ b ∧ 0 ≤ off ∧ off + size_of Inode.t ≤ block_size fs ∧
    (b + 1) * block_size fs ≤ zlen (fs_image fs) ∧
    b * block_size fs + off = inode_address fs sb i l ∧
    BlockDevice.read_blocks (device fs) (block_size fs) b 1 = Ret buf ∧
    slice_bytes (data buf) = read_at (b * block_size fs) (block_size fs) (fs_image fs).
Proof.
  intros Hi Hl. destruct (inode_place i l Hi Hl) as (b & off & Eb & Hb & Hoff & Hfit & Hadr).
  destruct (fo_table fs sb Hfs i Hi) as [Ht Hcap]. pose proof block_size_bounds as Hbs.
  assert ((b + 1) * block_size fs ≤ zlen (fs_image fs)) as Hin by nia.
  destruct (read_blocks_ok (device fs) (block_size fs) b 1) as (buf & Er & Hd & _);
    [apply (fo_device fs sb Hfs)|apply (fo_capacity fs sb Hfs)|lia|lia|done|].
  exists buf, b, off. unfold inode_block. rewrite superblock_ok. run_monad. rewrite Eb. run_monad.
  rewrite Er. run_monad. rewrite Z.mul_1_l in Hd. split_and!; try done; lia.
Qed.

Lemma inode_bitmap_block_ok i :
  0 ≤ i < num_groups fs →
  ∃ buf, inode_bitmap_block fs (group fs i) = Ret buf ∧
    slice_bytes (data buf) = inode_bitmap_bytes fs i.
Proof.
  intros Hi. destruct (fo_bitmap fs sb Hfs i Hi) as [Hb Hin].
  destruct (read_blocks_ok (device fs) (block_size fs)
    (BlockGroupDescriptor.inode_bitmap (group fs i)) 1) as (buf & Er & Hd & _);
    [apply (fo_device fs sb Hfs)|apply (fo_capacity fs sb Hfs)|lia|lia|done|].
  exists buf. rewrite Z.mul_1_l in Hd. done.
Qed.

Lemma inode_location_in n :
  inode_in fs sb n →
  Superblock.inode_location sb n = Ret (inode_group sb n, inode_index sb n) ∧
  0 ≤ inode_group sb n < num_groups fs ∧ 0 ≤ inode_index sb n < Superblock.inodes_per_group sb.
Proof.
  intros [Hn Hg]. pose proof (fo_inodes fs sb Hfs).
  split_and!; try done; [apply inode_location_ok; lia|apply Z.div_pos; lia|..];
    apply Z.mod_pos_bound; lia.
Qed.

Lemma read_inode_ok n :
  inode_in fs sb n →
  read_inode fs n = Ret
    match Bitmap.is_used (inode_bitmap_bytes fs (inode_group sb n)) (inode_index sb n) with
    | Some true => Some (lof (layout_of Inode.t)
        (read_at (inode_address fs sb (inode_group sb n) (inode_index sb n)) (size_of Inode.t)
           (fs_image fs)))
    | _ => None
    end.
Proof.
  intros Hn. destruct (inode_location_in n Hn) as (El & Hg & Hl).
  destruct (inode_bitmap_block_ok _ Hg) as (bm & Ebm & Hbm).
  destruct (inode_block_ok _ _ Hg Hl) as (buf & b & off & Eb & Hb & Hoff & Hfit & Hin & Hadr & _ & Hd).
  unfold read_inode. rewrite superblock_ok. run_monad. rewrite El. run_monad.
  rewrite get_group by done. run_monad. rewrite Ebm. run_monad. rewrite Hbm.
  destruct (Bitmap.is_used _ _) as [[]|]; try done.
  rewrite Eb. run_monad. rewrite collection_get_ok.
  - run_monad. rewrite Hd, read_at_read_at, Hadr; try done; rewrite ?inode_size_is in *; nia.
  - split_and!; [done| |apply Z.mod_1_r]. pose proof block_size_bounds. rewrite Hd, length_read_at; nia.
Qed.

Lemma write_inode_ok n inode :
  inode_in fs sb n → lvalid (layout_of Inode.t) inode →
  Bitmap.is_used (inode_bitmap_bytes fs (inode_group sb n)) (inode_index sb n) = Some true →
  ∃ d', write_inode fs inode n = Ret (with_device fs d') ∧
    device_block_size d' = device_block_size (device fs) ∧
    image d' = write_at (inode_address fs sb (inode_group sb n) (inode_index sb n))
                 (lto (layout_of Inode.t) inode) (fs_image fs).
Proof.
  intros Hn Hv Hu. destruct (inode_location_in n Hn) as (El & Hg & Hl).
  destruct (inode_bitmap_block_ok _ Hg) as (bm & Ebm & Hbm).
  destruct (inode_block_ok _ _ Hg Hl) as (buf & b & off & Eb & Hb & Hoff & Hfit & Hin & Hadr & Er & Hd).
  pose proof block_size_bounds as Hbs. pose proof (zlen_to_bytes inode Hv) as Hlen.
  assert (zlen (slice_bytes (data buf)) = block_size fs) as Hbl
    by (rewrite Hd, length_read_at; nia).
  unfold write_inode. rewrite superblock_ok. run_monad. rewrite El. run_monad.
  rewrite get_group by done. run_monad. rewrite Ebm. run_monad. rewrite Hbm, Hu. run_monad.
  rewrite Eb. run_monad. rewrite collection_write_ok; [|split_and!; [done|lia|apply Z.mod_1_r]|done].
  run_monad.
  destruct (read_modify_flush (device fs) (block_size fs) b 1) as (buf' & Er' & Hd' & Hflush);
    [apply (fo_device fs sb Hfs)|apply (fo_capacity fs sb Hfs)|lia|lia|done|].
  rewrite Er in Er'. injection Er' as <-.
  edestruct (Hflush (BlockDevice.with_data buf (Slice (slice_ptr (data buf))
    (write_at off (lto (layout_of Inode.t) inode) (slice_bytes (data buf)))))
    (device fs)) as (d' & -> & Hds & Him).
  - done.
  - cbn [BlockDevice.with_data data slice_bytes]. rewrite length_write_at; lia.
  - apply bytes_ok_write; [by apply (lo_bytes _ layout_of_ok)|].
    rewrite Hd. apply bytes_ok_read, image_bytes_ok.
  - done.
  - done.
  - exists d'. split_and!; [done|done|]. rewrite Him.
    cbn [BlockDevice.with_data data slice_bytes]. rewrite Hd, write_at_nested, Hadr; try done; rewrite ?Hlen; try nia.
    unfold fs_image in Hin. nia.
Qed.

(** ** Frames *)
Lemma inode_address_bounds i l :
  0 ≤ i < num_groups fs → 0 ≤ l < Superblock.inodes_per_group sb →
  let t := BlockGroupDescriptor.inode_table (group fs i) in
  t * block_size fs ≤ inode_address fs sb i l ∧
  inode_address fs sb i l + size_of Inode.t ≤ (t + table_blocks fs sb) * block_size fs.
Proof.
  intros Hi Hl t. destruct (inode_place i l Hi Hl) as (b & off & _ & Hb & Hoff & Hfit & <-).
  pose proof block_size_bounds. fold t in Hb. nia.
Qed.

Lemma inode_address_disjoint i l j m :
  geometry_ok fs sb →
  0 ≤ i < num_groups fs → 0 ≤ l < Superblock.inodes_per_group sb →
  0 ≤ j < num_groups fs → 0 ≤ m < Superblock.inodes_per_group sb →
  (i, l) ≠ (j, m) →
  inode_address fs sb i l + size_of Inode.t ≤ inode_address fs sb j m ∨
  inode_address fs sb j m + size_of Inode.t ≤ inode_address fs sb i l.
Proof.
  intros Hge Hi Hl Hj Hm Hne. destruct (decide (i = j)) as [<-|Hij].
  - pose proof (fo_inode_size fs sb Hfs). unfold inode_address.
    assert (l ≠ m) by congruence. nia.
  - destruct (inode_address_bounds i l Hi Hl), (inode_address_bounds j m Hj Hm).
    pose proof block_size_bounds. destruct (ge_tables fs sb Hge i j Hi Hj Hij); nia.
Qed.

Lemma with_device_ok d' :
  device_block_size d' = device_block_size (device fs) →
  zlen (image d') = zlen (fs_image fs) → fs_ok (with_device fs d') sb.
Proof.
  intros Hds Hlen. destruct Hfs as [H1 H2 H3 [H41 H42] H5 H6 H7 H8 H9 H10 H11 H12].
  assert (zlen (fs_image (with_device fs d')) = zlen (fs_image fs)) as Hl by exact Hlen.
  split; try done; rewrite ?Hl; try done.
  split; [done|]. simpl. by rewrite Hds.
Qed.
End mounted.

Lemma inode_number_inj fs sb n m :
  fs_ok fs sb → 1 ≤ n → 1 ≤ m →
  (inode_group sb n, inode_index sb n) = (inode_group sb m, inode_index sb m) → n = m.
Proof.
  intros Hfs Hn Hm [= Hg Hi]. pose proof (fo_inodes fs sb Hfs). unfold inode_group, inode_index in *.
  pose proof (Z.div_mod (n - 1) (Superblock.inodes_per_group sb) ltac:(lia)).
  pose proof (Z.div_mod (m - 1) (Superblock.inodes_per_group sb) ltac:(lia)). nia.
Qed.

(** Overwriting one inode: the mounted file system stays well formed, the inode
    reads back and nothing else that [read_inode] looks at changes. *)
Lemma write_inode_frame fs sb n inode d' :
  fs_ok fs sb → geometry_ok fs sb → inode_in fs sb n → lvalid (layout_of Inode.t) inode →
  device_block_size d' = device_block_size (device fs) →
  image d' = write_at (inode_address fs sb (inode_group sb n) (inode_index sb n))
               (lto (layout_of Inode.t) inode) (fs_image fs) →
  fs_ok (with_device fs d') sb ∧ geometry_ok (with_device fs d') sb ∧
  (∀ i, 0 ≤ i < num_groups fs → inode_bitmap_bytes (with_device fs d') i = inode_bitmap_bytes fs i) ∧
  (∀ m, inode_in fs sb m →
     lof (layout_of Inode.t)
       (read_at (inode_address fs sb (inode_group sb m) (inode_index sb m)) (size_of Inode.t) (image d'))
     = if decide (m = n) then inode else
       lof (layout_of Inode.t)
       (read_at (inode_address fs sb (inode_group sb m) (inode_index sb m)) (size_of Inode.t) (fs_image fs))).
Proof.
  intros Hfs Hge Hn Hv Hds Him. destruct (inode_location_in fs sb Hfs n Hn) as (_ & Hg & Hl).
  destruct (inode_address_bounds fs sb Hfs _ _ Hg Hl) as [Ha1 Ha2].
  destruct (fo_table fs sb Hfs _ Hg) as [Ht Hcap]. pose proof (block_size_bounds fs sb Hfs) as Hbs.
  pose proof (zlen_to_bytes inode Hv) as Hlen. rewrite inode_size_is in *.
  set (a := inode_address fs sb (inode_group sb n) (inode_index sb n)) in *.
  assert (0 ≤ a ∧ a + 128 ≤ zlen (fs_image fs)) as [Ha0 Ha3] by nia.
  assert (fs_ok (with_device fs d') sb) as Hfs'.
  { apply with_device_ok; [done|done|]. rewrite Him. apply length_write_at; lia. }
  split_and!; [done|by destruct Hge| |].
  - intros i Hi. destruct (fo_bitmap fs sb Hfs i Hi). unfold inode_bitmap_bytes, fs_image.
    change (device (with_device fs d')) with d'. rewrite Him.
    apply read_write_other; rewrite ?Hlen; try lia; [exact Ha3|].
    pose proof (ge_bitmap fs sb Hge i _ Hi Hg) as Hdis. cbn zeta in Hdis.
    destruct Hdis as [Hx|Hx]; [left|right];
      apply (Z.mul_le_mono_nonneg_r _ _ (block_size fs)) in Hx; lia.
  - intros m Hm. destruct (inode_location_in fs sb Hfs m Hm) as (_ & Hg' & Hl'). rewrite Him.
    case_decide as Hd.
    + subst m. fold a. rewrite <-Hlen, read_write_same by lia. by apply (lo_of_to _ layout_of_ok).
    + f_equal. destruct (inode_address_bounds fs sb Hfs _ _ Hg' Hl') as [? _].
      destruct (fo_table fs sb Hfs _ Hg') as [? _].
      apply read_write_other; try nia. rewrite Hlen.
      eapply (inode_address_disjoint fs sb Hfs); try done. intros E.
      apply Hd, (inode_number_inj fs sb); [done|apply Hm|apply Hn|done].
Qed.

(** writing a used inode succeeds, the inode reads back as written, and every
    other inode of the file system reads as before; the file system stays well
    formed. *)
Theorem write_inode_read_inode fs sb n inode :
  fs_ok fs sb → geometry_ok fs sb → inode_in fs sb n → lvalid (layout_of Inode.t) inode →
  Bitmap.is_used (inode_bitmap_bytes fs (inode_group sb n)) (inode_index sb n) = Some true →
  ∃ fs', write_inode fs inode n = Ret fs' ∧ fs_ok fs' sb ∧ geometry_ok fs' sb ∧
    read_inode fs' n = Ret (Some inode) ∧
    (∀ m, inode_in fs sb m → m ≠ n → read_inode fs' m = read_inode fs m).
Proof.
  intros Hfs Hge Hn Hv Hu.
  destruct (write_inode_ok fs sb Hfs n inode Hn Hv Hu) as (d' & Ew & Hds & Him).
  destruct (write_inode_frame fs sb n inode d') as (Hfs' & Hge' & Hbm & Hrd); try done.
  exists (with_device fs d'). split_and!; try done.
  - rewrite (read_inode_ok (with_device fs d') sb Hfs' n Hn).
    destruct (inode_location_in fs sb Hfs n Hn) as (_ & Hg & _).
    rewrite Hbm, Hu by done. change (fs_image (with_device fs d')) with (image d').
    pose proof (Hrd n Hn) as Hr. rewrite decide_True in Hr by done. by rewrite <-Hr.
  - intros m Hm Hne. destruct (inode_location_in fs sb Hfs m Hm) as (_ & Hg & _).
    rewrite (read_inode_ok (with_device fs d') sb Hfs' m Hm), (read_inode_ok fs sb Hfs m Hm).
    rewrite Hbm by done. destruct (Bitmap.is_used _ _) as [[]|]; try done.
    pose proof (Hrd m Hm) as Hr. rewrite decide_False in Hr by done. by rewrite <-Hr.
Qed.
End inodes.

(** ** On the small disk *)
Section demo.
#[local] Existing Instances ram_driver ram_laws documented_zerocopy documented_zerocopy_laws
  documented_bitflags.

Lemma demo_groups i : 0 ≤ i < num_groups demo_fs → i = 0.
Proof.
  assert (num_groups demo_fs = 1) as -> by (vm_compute; reflexivity). lia.
Qed.

Lemma demo_fs_ok : fs_ok demo_fs demo_mounted_superblock.
Proof.
  split; try (vm_compute; done); try (split; vm_compute; done).
  - split; [vm_compute; done|]. exists 2. vm_compute. reflexivity.
  - exists 8. vm_compute. reflexivity.
  - intros i ->%demo_groups. vm_compute. done.
  - intros i ->%demo_groups. vm_compute. done.
Qed.

Lemma demo_geometry_ok : geometry_ok demo_fs demo_mounted_superblock.
Proof.
  split.
  - intros i j ->%demo_groups ->%demo_groups. left. vm_compute. done.
  - intros i j ->%demo_groups ->%demo_groups. done.
Qed.

Lemma demo_inode_in : inode_in demo_fs demo_mounted_superblock 3.
Proof. vm_compute. done. Qed.

Lemma demo_root_in : inode_in demo_fs demo_mounted_superblock 2.
Proof. vm_compute. done. Qed.

Lemma demo_read_root : read_inode demo_fs 2 = Ret (Some demo_root).
Proof. vm_compute. reflexivity. Qed.

Lemma demo_new_file_valid : lvalid (layout_of Inode.t) demo_new_file.
Proof. apply lvalid_by_eval; vm_compute; reflexivity. Qed.

Lemma write_inode_read_inode_witness :
  ∃ fs', write_inode demo_fs demo_new_file 3 = Ret fs' ∧ read_inode fs' 3 = Ret (Some demo_new_file) ∧
    read_inode fs' 2 = Ret (Some demo_root).
Proof.
  destruct (write_inode_read_inode demo_fs demo_mounted_superblock 3 demo_new_file
    demo_fs_ok demo_geometry_ok demo_inode_in demo_new_file_valid ltac:(vm_compute; reflexivity))
    as (fs' & E & _ & _ & Hr & Ho).
  exists fs'. split; [exact E|]. split; [exact Hr|].
  exact (eq_trans (Ho 2 demo_root_in ltac:(discriminate)) demo_read_root).
Defined.
End demo.
