(* ===== verification/Ext2Mount.v ===== *)
(** * ext2: mounting ([FileSystem::read])

    What mounting reads, that the mount counter is all it changes, and the
    images it refuses. *)
From S2P Require Import Prelude External Transmute Block Ext2 Ext2Dir Ext2Fs Ext2Demo Ext2Inodes.
#[local] Open Scope Z_scope.
Import FileSystem.

Lemma superblock_widths (v : Superblock.t) :
  lvalid (layout_of Superblock.t) v →
  in_width 32 (Superblock.log_block_size v) ∧ in_width 32 (Superblock.first_data_block v) ∧
  in_width 16 (Superblock.mount_count v).
Proof. destruct v. intros Hv. split_and!; apply Hv. Qed.

Lemma set_mount_count_valid (v : Superblock.t) n :
  lvalid (layout_of Superblock.t) v → in_width 16 n →
  lvalid (layout_of Superblock.t) (Superblock.set_mount_count n v).
Proof.
  destruct v. intros Hv Hn. cbn in *. tauto.
Qed.

Section mount.
Context `{!Zerocopy, !ZerocopyLaws, !Bitflags} {D : Type} `{!BlockDeviceDriver D}
  `{laws : !BlockDeviceLaws D}.

Definition sb_size : Z := size_of Superblock.t.

(** The superblock on the device. *)
Definition disk_superblock (d : D) : Superblock.t :=
  lof (layout_of Superblock.t) (read_at 1024 sb_size (image d)).

Definition descriptor_count (sb : Superblock.t) : Z :=
  div_ceil (Superblock.blocks_count sb) (Superblock.blocks_per_group sb).

(** A device with a superblock, and the block size it names. *)
Record disk_ok (d : D) (sb : Superblock.t) (bs : Z) : Prop := {
  di_superblock : disk_superblock d = sb;
  di_capacity : 2048 ≤ zlen (image d) < 2 ^ 48;
  di_sectors : (device_block_size d | 1024);
  di_magic : Superblock.magic_valid sb = true;
  di_log : Superblock.log_block_size sb ≤ 5;
  di_block_size : bs = 1024 * 2 ^ Superblock.log_block_size sb;
  di_group : 0 < Superblock.blocks_per_group sb;
  di_groups : descriptor_count sb ≤ bs;
  di_table : (Superblock.first_data_block sb + 2) * bs ≤ zlen (image d);
  di_some : 0 < Superblock.blocks_count sb;
}.

Lemma disk_superblock_valid d :
  2048 ≤ zlen (image d) → lvalid (layout_of Superblock.t) (disk_superblock d).
Proof.
  intros Hl. apply (lo_valid _ layout_of_ok).
  - pose proof (length_read_at 1024 sb_size (image d)) as Hr. unfold zlen in *.
    change sb_size with 264 in *. change (lsize (layout_of Superblock.t)) with 264%nat. lia.
  - apply bytes_ok_read, image_bytes_ok.
Qed.

Lemma block_size_1024 d : (device_block_size d | 1024) → block_size_ok d 1024.
Proof. by split. Qed.

Lemma divide_trans_1024 d k : (device_block_size d | 1024) → (device_block_size d | 1024 * k).
Proof. intros. by apply Z.divide_mul_l. Qed.

Lemma block_size_pow k :
  0 ≤ k ≤ 5 → 1024 * 2 ^ k < 2 ^ 16 ∧ 1024 ≤ 1024 * 2 ^ k.
Proof.
  intros. assert (2 ^ k ≤ 2 ^ 5) by (apply Z.pow_le_mono_r; lia).
  assert (0 < 2 ^ k) by (apply Z.pow_pos_nonneg; lia). change (2 ^ 5) with 32 in *. lia.
Qed.

Section ok.
Context (d : D) (sb : Superblock.t) (bs : Z) (Hd : disk_ok d sb bs).

Lemma sb_valid : lvalid (layout_of Superblock.t) sb.
Proof. rewrite <-(di_superblock d sb bs Hd). apply disk_superblock_valid, (di_capacity d sb bs Hd). Qed.

Lemma sb_log : 0 ≤ Superblock.log_block_size sb ≤ 5.
Proof.
  split; [|apply (di_log d sb bs Hd)].
  apply (superblock_widths _ sb_valid).
Qed.

Lemma sb_block_size : Superblock.block_size sb = Ret bs.
Proof.
  pose proof sb_log. unfold Superblock.block_size.
  destruct (Z.ltb_spec (Superblock.log_block_size sb) 16); [|lia]. f_equal.
  rewrite Z.shiftl_mul_pow2, (di_block_size d sb bs Hd) by lia. unfold wrap.
  apply Z.mod_small. pose proof (block_size_pow (Superblock.log_block_size sb)). lia.
Qed.

Lemma bs_ok : block_size_ok d bs.
Proof.
  pose proof (block_size_pow (Superblock.log_block_size sb) sb_log).
  rewrite (di_block_size d sb bs Hd). split; [lia|].
  by apply divide_trans_1024, (di_sectors d sb bs Hd).
Qed.

Lemma sb_groups : Superblock.num_block_groups sb = Ret (descriptor_count sb) ∧ 0 < descriptor_count sb.
Proof.
  pose proof (di_group d sb bs Hd). unfold Superblock.num_block_groups, udiv_ceil, descriptor_count.
  destruct (Z.eqb_spec (Superblock.blocks_per_group sb) 0); [lia|]. split; [done|].
  pose proof (div_ceil_spec (Superblock.blocks_count sb) (Superblock.blocks_per_group sb) ltac:(lia)).
  pose proof (di_some d sb bs Hd). nia.
Qed.

(** One block of descriptors is read, however many groups there are. *)
Lemma one_block : div_ceil (descriptor_count sb) bs = 1.
Proof.
  pose proof (proj1 bs_ok). pose proof (di_groups d sb bs Hd). destruct sb_groups as [_ Hpos].
  pose proof (div_ceil_spec (descriptor_count sb) bs ltac:(lia)). nia.
Qed.

Lemma first_data_block_bounds : 0 ≤ Superblock.first_data_block sb < 2 ^ 32.
Proof. apply (superblock_widths _ sb_valid). Qed.

(** The reads of [FileSystem::read], up to the check of the descriptors. *)
Lemma mount_reads :
  ∃ buf blocks,
    read d = (descriptors ← BlockGroupDescriptorBlocks.new blocks (descriptor_count sb);
              mount_count ← uadd 16 (Superblock.mount_count sb) 1;
              view ← Transmute.view_assign Superblock.t (data buf) (Superblock.set_mount_count mount_count sb);
              let buf := BlockDevice.with_data buf view in
              device ← BlockDevice.flush buf d;
              mret (Some (mk D buf descriptors bs device))) ∧
    BlockDevice.read_blocks d 1024 1 1 = Ret buf ∧
    slice_bytes (data buf) = read_at 1024 1024 (image d) ∧
    slice_bytes (data blocks) =
      read_at ((Superblock.first_data_block sb + 1) * bs) bs (image d).
Proof.
  pose proof (di_capacity d sb bs Hd) as Hcap. pose proof first_data_block_bounds as Hfd.
  destruct (read_blocks_ok d 1024 1 1) as (buf & Eb & Hb & _);
    [apply block_size_1024, (di_sectors d sb bs Hd)|lia|lia|lia|lia|].
  pose proof bs_ok as Hbs.
  destruct (read_blocks_ok d bs (Superblock.first_data_block sb + 1) 1) as (blocks & Ek & Hk & _);
    [done|lia|lia|lia|pose proof (di_table d sb bs Hd); lia|].
  assert (fits Superblock.t (data buf) 0) as Hf.
  { split_and!; [done| |apply Z.mod_1_r]. rewrite Hb, length_read_at; try lia. done. }
  assert (lof (layout_of Superblock.t) (read_at 0 (size_of Superblock.t) (slice_bytes (data buf))) = sb)
    as Hsb by (rewrite <-(di_superblock d sb bs Hd); unfold disk_superblock, sb_size; rewrite Hb, read_at_read_at by (lia || (vm_compute; done)); done).
  exists buf, blocks. rewrite Z.mul_1_l in Hb, Hk. split_and!; [|done|done|done].
  unfold read. change Superblock.SUPERBLOCK_BLOCK_SIZE with 1024.
  change Superblock.SUPERBLOCK_BLOCK_INDEX with 1. rewrite Eb. run_monad.
  rewrite view_new_ok by done. run_monad. rewrite view_deref_ok by done. run_monad.
  rewrite Hsb.
  rewrite (di_magic d sb bs Hd). cbn [negb]. rewrite sb_block_size. run_monad.
  destruct sb_groups as [-> _]. run_monad. unfold udiv_ceil at 1.
  destruct (Z.eqb_spec bs 0); [pose proof (proj1 Hbs); lia|]. run_monad. rewrite one_block.
  unfold Superblock.block_descriptor_table_start_block. rewrite (uadd_ok 64) by lia. run_monad.
  rewrite Ek. run_monad. reflexivity.
Qed.

(** The mount counter goes up by one in the buffer and on the device. *)
Lemma mount_ok :
  descriptor_count sb * size_of BlockGroupDescriptor.t ≤ bs →
  Superblock.mount_count sb + 1 < 2 ^ 16 →
  let sb' := Superblock.set_mount_count (Superblock.mount_count sb + 1) sb in
  ∃ fs, read d = Ret (Some fs) ∧ superblock fs = Ret sb' ∧ block_size fs = bs ∧
    num_groups fs = descriptor_count sb ∧
    image (device fs) = write_at 1024 (lto (layout_of Superblock.t) sb') (image d) ∧
    slice_bytes (data (BlockGroupDescriptorBlocks.descriptors (block_group_descriptors fs))) =
      read_at ((Superblock.first_data_block sb + 1) * bs) bs (image d).
Proof.
  intros Hdesc Hmc sb'. destruct mount_reads as (buf & blocks & -> & Eb & Hb & Hk).
  pose proof (di_capacity d sb bs Hd) as Hcap. pose proof (proj1 bs_ok) as Hbs.
  destruct (superblock_widths _ sb_valid) as (_ & _ & [Hmc0 _]).
  assert (lvalid (layout_of Superblock.t) sb') as Hv by (apply set_mount_count_valid; [apply sb_valid|split; lia]).
  pose proof (zlen_to_bytes sb' Hv) as Hlen. change (size_of Superblock.t) with 264 in Hlen.
  pose proof (proj2 sb_groups) as Hpos. pose proof (di_groups d sb bs Hd).
  assert (zlen (slice_bytes (data blocks)) = bs) as Hkl.
  { pose proof (di_table d sb bs Hd). pose proof first_data_block_bounds. rewrite Hk, length_read_at; lia. }
  assert (zlen (slice_bytes (data buf)) = 1024) as Hbl by (rewrite Hb, length_read_at; lia).
  unfold BlockGroupDescriptorBlocks.new. change (size_of BlockGroupDescriptor.t) with 32 in *.
  rewrite umul_ok by lia. run_monad. rewrite Hkl. rewrite (proj2 (Z.leb_le _ _) Hdesc). run_monad.
  cbn [assert_]. run_monad. rewrite (uadd_ok 16) by lia. run_monad. fold sb'.
  assert (fits Superblock.t (data buf) 0) as Hf.
  { split_and!; [done| |apply Z.mod_1_r]. rewrite Hbl. done. }
  rewrite view_assign_ok by done. run_monad.
  destruct (read_modify_flush d 1024 1 1) as (buf' & Eb' & _ & Hflush);
    [apply block_size_1024, (di_sectors d sb bs Hd)|lia|lia|lia|lia|].
  rewrite Eb in Eb'. injection Eb' as <-.
  set (s' := Slice _ (write_at 0 _ _)).
  destruct (Hflush (BlockDevice.with_data buf s') d) as (d' & -> & Hds & Him); try done.
  - subst s'. cbn [BlockDevice.with_data data slice_bytes]. rewrite length_write_at; lia.
  - apply bytes_ok_write; [by apply (lo_bytes _ layout_of_ok)|]. rewrite Hb.
    apply bytes_ok_read, image_bytes_ok.
  - run_monad. eexists. split; [done|]. split_and!; try done.
    + unfold superblock. rewrite view_deref_ok by exact (fits_write _ _ _ Hf Hv).
      subst s'. cbn [superblock_buffer BlockDevice.with_data data slice_bytes].
      by rewrite (read_back (data buf) 0 sb' Hf Hv).
    + cbn [device]. rewrite Him. subst s'. cbn [BlockDevice.with_data data slice_bytes].
      rewrite Hb, (write_at_nested 1024 0 1024) by lia. done.
Qed.

(** The descriptors do not fit in the one block that is read. *)
Lemma mount_refused :
  bs < descriptor_count sb * size_of BlockGroupDescriptor.t → read d = Panic PanicAssert.
Proof.
  intros Hdesc. destruct mount_reads as (buf & blocks & -> & _ & _ & Hk).
  pose proof (di_capacity d sb bs Hd). pose proof (proj1 bs_ok). pose proof (di_groups d sb bs Hd).
  assert (zlen (slice_bytes (data blocks)) = bs) as Hkl.
  { pose proof (di_table d sb bs Hd). pose proof first_data_block_bounds. rewrite Hk, length_read_at; lia. }
  unfold BlockGroupDescriptorBlocks.new. change (size_of BlockGroupDescriptor.t) with 32 in *.
  rewrite umul_ok by lia. run_monad. rewrite Hkl.
  by destruct (Z.leb_spec (descriptor_count sb * 32) bs); [lia|].
Qed.
End ok.

(** mounting a well-formed image whose descriptors fit in one block returns a
    file system with the superblock of the image and its mount counter raised by
    one, with the descriptors of the image, and writes to the device nothing but
    that superblock. *)
Theorem mount_spec d sb bs :
  disk_ok d sb bs → descriptor_count sb * size_of BlockGroupDescriptor.t ≤ bs →
  Superblock.mount_count sb + 1 < 2 ^ 16 →
  let sb' := Superblock.set_mount_count (Superblock.mount_count sb + 1) sb in
  ∃ fs, read d = Ret (Some fs) ∧ superblock fs = Ret sb' ∧ block_size fs = bs ∧
    num_groups fs = descriptor_count sb ∧
    image (device fs) = write_at 1024 (lto (layout_of Superblock.t) sb') (image d) ∧
    (∀ i, 0 ≤ i < num_groups fs → group fs i = lof (layout_of BlockGroupDescriptor.t)
       (read_at ((Superblock.first_data_block sb + 1) * bs + i * size_of BlockGroupDescriptor.t)
          (size_of BlockGroupDescriptor.t) (image d))).
Proof.
  intros Hd Hdesc Hmc sb'. destruct (mount_ok d sb bs Hd Hdesc Hmc) as (fs & ? & ? & ? & Hn & ? & Hg).
  exists fs. split_and!; try done. intros i Hi. unfold group. rewrite Hg, read_at_read_at; [done|..].
  - pose proof (first_data_block_bounds d sb bs Hd). pose proof (proj1 (bs_ok d sb bs Hd)). nia.
  - change (size_of BlockGroupDescriptor.t) with 32. lia.
  - done.
  - rewrite Hn in Hi. change (size_of BlockGroupDescriptor.t) with 32 in *. lia.
Qed.

(** an image with more block groups than descriptors fit in one block (and at
    most as many as a block has bytes) cannot be mounted: the kernel divides the
    number of groups by the block size, without the size of a descriptor, reads
    one block, and panics. *)
Theorem mount_panics_many_groups d sb bs :
  disk_ok d sb bs → bs < descriptor_count sb * size_of BlockGroupDescriptor.t →
  read d = Panic PanicAssert.
Proof. apply mount_refused. Qed.

(** Without the magic number nothing is mounted. *)
Lemma mount_bad_magic d :
  2048 ≤ zlen (image d) < 2 ^ 48 → (device_block_size d | 1024) →
  Superblock.magic_valid (disk_superblock d) = false → read d = Ret None.
Proof.
  intros Hcap Hds Hm. destruct (read_blocks_ok d 1024 1 1) as (buf & Eb & Hb & _);
    [by apply block_size_1024|lia|lia|lia|lia|].
  assert (fits Superblock.t (data buf) 0) as Hf.
  { split_and!; [done| |apply Z.mod_1_r]. rewrite Hb, length_read_at; try lia. done. }
  assert (lof (layout_of Superblock.t) (read_at 0 (size_of Superblock.t) (slice_bytes (data buf)))
    = disk_superblock d) as Hsb
    by (unfold disk_superblock, sb_size; rewrite Hb, read_at_read_at by (lia || (vm_compute; done)); done).
  revert Hsb Hm. generalize (disk_superblock d). intros sb Hsb Hm.
  unfold read. change Superblock.SUPERBLOCK_BLOCK_SIZE with 1024.
  change Superblock.SUPERBLOCK_BLOCK_INDEX with 1. rewrite Eb. run_monad.
  rewrite view_new_ok by done. run_monad. rewrite view_deref_ok by done. run_monad.
  rewrite Hsb, Hm. done.
Qed.
End mount.

(** ** On the small disk *)
Section demo.
#[local] Existing Instances ram_driver ram_laws documented_zerocopy documented_zerocopy_laws
  documented_bitflags.

(** The same disk with 33 block groups. *)
Definition many_groups_superblock : Superblock.t :=
  Superblock.mk 16 16 0 7 13 1 0 0 1 8192 16 0 0 0 20 0xEF53 1 1 0 0 0 0 1 0 0 11 128 0 0 0 0
    (replicate 16 7) (padded 16 (str "demo")) (replicate 64 0) 0 0 0 0 (replicate 16 0) 0 0 0
    [0; 0; 0; 0] 0 [0; 0; 0] 0 0.

Definition many_groups_disk : RamDisk :=
  {| ram_bytes := write_at (1024 + 4) [33] (write_at 1024
       (lto (layout_of Superblock.t) many_groups_superblock) demo_image) |}.

Definition many_groups_mounted : Superblock.t := Eval vm_compute in disk_superblock many_groups_disk.

Lemma demo_disk_ok : disk_ok demo_disk demo_superblock 1024.
Proof. split; try (vm_compute; done). exists 2. reflexivity. Qed.

Lemma many_groups_disk_ok : disk_ok many_groups_disk many_groups_mounted 1024.
Proof. split; try (vm_compute; done). exists 2. reflexivity. Qed.

Lemma mount_spec_witness :
  ∃ fs, read demo_disk = Ret (Some fs) ∧ block_size fs = 1024 ∧ num_groups fs = 1.
Proof.
  destruct (mount_spec demo_disk demo_superblock 1024 demo_disk_ok ltac:(vm_compute; discriminate)
    ltac:(vm_compute; reflexivity)) as (fs & E & _ & Hbs & Hn & _).
  exists fs. exact (conj E (conj Hbs Hn)).
Defined.

Lemma mount_panics_many_groups_witness :
  disk_ok many_groups_disk many_groups_mounted 1024 ∧ read many_groups_disk = Panic PanicAssert.
Proof.
  exact (conj many_groups_disk_ok
    (mount_panics_many_groups _ _ _ many_groups_disk_ok ltac:(vm_compute; reflexivity))).
Defined.
End demo.
