(* ===== verification/Ext2DirThms.v ===== *)
(** * ext2: directory blocks

    A directory block is a chain of entries.  Scanning finds the chain, and
    inserting an entry splits the slack of one entry: the old entries keep their
    inode, type and name, and the new one reads back. *)
From S2P Require Import Prelude External Transmute Block Ext2 Ext2Dir Ext2Demo.
#[local] Open Scope Z_scope.

Abbreviation hdr := DirectoryEntryHeader.t.

(** ** Chains of entries *)
Definition header_at (bytes : list Z) (l : Z) : hdr :=
  lof (layout_of hdr) (read_at l (size_of hdr) bytes).

(** What a directory entry says: inode, type and name. *)
Definition dirent (bytes : list Z) (l : Z) : Z * Z * list Z :=
  let h := header_at bytes l in
  (DirectoryEntryHeader.inode h, DirectoryEntryHeader.raw_file_type h,
   read_at (l + size_of hdr) (DirectoryEntryHeader.name_len h) bytes).

(** An entry occupies [rec_len] bytes, enough for its header and name. *)
Definition entry_ok (bytes : list Z) (l stop : Z) : Prop :=
  let h := header_at bytes l in
  0 ≤ l ∧ l + size_of hdr ≤ zlen bytes ∧ stop ≤ zlen bytes ∧
  l + DirectoryEntryHeader.rec_len h = stop ∧
  DirectoryEntryHeader.required_space h ≤ DirectoryEntryHeader.rec_len h.

Inductive chain (bytes : list Z) : Z → list Z → Z → Prop :=
| chain_nil a : chain bytes a [] a
| chain_cons a ls m b : entry_ok bytes a m → chain bytes m ls b → chain bytes a (a :: ls) b.

(** [bs] and [bs'] agree on [[a, b)]. *)
Definition agree (a b : Z) (bs bs' : list Z) : Prop :=
  ∀ off n, a ≤ off → 0 ≤ n → off + n ≤ b → read_at off n bs = read_at off n bs'.

Lemma hdr_size : size_of hdr = 8.
Proof. reflexivity. Qed.

(** The header's fields have their widths. *)
Lemma hdr_widths (h : hdr) :
  lvalid (layout_of hdr) h →
  in_width 32 (DirectoryEntryHeader.inode h) ∧ in_width 16 (DirectoryEntryHeader.rec_len h) ∧
  in_width 8 (DirectoryEntryHeader.name_len h) ∧ in_width 8 (DirectoryEntryHeader.raw_file_type h).
Proof. destruct h. intros Hv. split_and!; apply Hv. Qed.

Lemma hdr_valid i r n f :
  in_width 32 i → in_width 16 r → in_width 8 n → in_width 8 f →
  lvalid (layout_of hdr) (DirectoryEntryHeader.mk i r n f).
Proof. done. Qed.

Lemma header_at_valid bytes l :
  bytes_ok bytes → 0 ≤ l → l + 8 ≤ zlen bytes → lvalid (layout_of hdr) (header_at bytes l).
Proof.
  intros Hb Hl Hlen. apply (lo_valid _ layout_of_ok); [|by apply bytes_ok_read].
  pose proof (length_read_at l (size_of hdr) bytes) as Hr. rewrite hdr_size in *. unfold zlen in *.
  change (lsize (layout_of hdr)) with 8%nat. lia.
Qed.

Lemma required_space_bounds (h : hdr) :
  in_width 8 (DirectoryEntryHeader.name_len h) →
  8 + DirectoryEntryHeader.name_len h ≤ DirectoryEntryHeader.required_space h ≤ 264.
Proof.
  intros [? Hn]. unfold DirectoryEntryHeader.required_space. rewrite hdr_size.
  change (2 ^ 8) with 256 in Hn.
  destruct (next_multiple_of_spec (8 + DirectoryEntryHeader.name_len h) 4); [lia|].
  assert (264 mod 4 = 0) by done. split; [lia|]. zdm.
Qed.

Lemma entry_bounds bytes l stop :
  bytes_ok bytes → entry_ok bytes l stop →
  let h := header_at bytes l in
  lvalid (layout_of hdr) h ∧
  8 + DirectoryEntryHeader.name_len h ≤ DirectoryEntryHeader.required_space h ≤ 264 ∧
  0 ≤ DirectoryEntryHeader.name_len h < 256 ∧ l + 8 ≤ stop.
Proof.
  intros Hb (Hl & Hl8 & Hstop & Hr & Hreq). rewrite hdr_size in Hl8.
  pose proof (header_at_valid bytes l Hb Hl Hl8) as Hv.
  destruct (hdr_widths _ Hv) as (_ & _ & Hn & _).
  pose proof (required_space_bounds _ Hn). destruct Hn as [? Hn]. change (2 ^ 8) with 256 in Hn.
  split_and!; try done; lia.
Qed.

Lemma chain_length bytes a ls b :
  bytes_ok bytes → chain bytes a ls b → a + 8 * zlen ls ≤ b.
Proof.
  intros Hb Hc. induction Hc as [a|a ls m b He Hc IH]; [unfold zlen; simpl; lia|].
  destruct (entry_bounds bytes a m Hb He) as (_ & _ & _ & ?). unfold zlen in *. cbn [length]. lia.
Qed.

Lemma chain_app bytes a ls1 ls2 b :
  chain bytes a (ls1 ++ ls2) b ↔ ∃ m, chain bytes a ls1 m ∧ chain bytes m ls2 b.
Proof.
  revert a. induction ls1 as [|l ls1 IH]; intros a; simpl.
  - split; [intros Hc; exists a; split; [constructor|done]|].
    intros (m & H1 & H2). by inversion H1; subst.
  - split.
    + intros Hc. inversion Hc as [|? ? m ? He Hc']; subst. apply IH in Hc' as (m' & H1 & H2).
      exists m'. split; [by econstructor|done].
    + intros (m & H1 & H2). inversion H1 as [|? ? m' ? He Hc']; subst.
      econstructor; [done|]. apply IH. by exists m.
Qed.

Lemma chain_singleton bytes a l b : chain bytes a [l] b ↔ a = l ∧ entry_ok bytes l b.
Proof.
  split.
  - intros Hc. inversion Hc as [|? ? m ? He Hc']; subst. by inversion Hc'; subst.
  - intros [-> He]. econstructor; [done|constructor].
Qed.

(** ** Frames *)
Lemma agree_header a b bs bs' l :
  agree a b bs bs' → a ≤ l → l + 8 ≤ b → header_at bs l = header_at bs' l.
Proof. intros Ha ? ?. unfold header_at. rewrite hdr_size. by rewrite (Ha l 8) by lia. Qed.

Lemma agree_entry a b bs bs' l stop :
  bytes_ok bs → agree a b bs bs' → zlen bs' = zlen bs → a ≤ l → stop ≤ b →
  entry_ok bs l stop → entry_ok bs' l stop ∧ dirent bs' l = dirent bs l.
Proof.
  intros Hb Ha Hlen Hl Hstop He. destruct (entry_bounds bs l stop Hb He) as (_ & Hreq & Hn & Hl8).
  unfold entry_ok, dirent. rewrite <-(agree_header a b bs bs' l) by (done || lia).
  destruct He as (? & ? & ? & ? & ?). rewrite Hlen. split; [done|].
  rewrite hdr_size in *. rewrite (Ha (l + 8)); [done|lia|lia|lia].
Qed.

Lemma agree_chain a b bs bs' l ls stop :
  bytes_ok bs → agree a b bs bs' → zlen bs' = zlen bs → a ≤ l → stop ≤ b →
  chain bs l ls stop → chain bs' l ls stop ∧ (∀ x, x ∈ ls → dirent bs' x = dirent bs x).
Proof.
  intros Hb Ha Hlen Hl Hstop Hc. revert Hl. induction Hc as [l|l ls m stop He Hc IH]; intros Hl.
  { split; [constructor|]. intros x Hx. by apply not_elem_of_nil in Hx. }
  pose proof (chain_length bs m ls stop Hb Hc) as Hmb.
  destruct (entry_bounds bs l m Hb He) as (_ & _ & _ & ?). unfold zlen in Hmb.
  destruct (agree_entry a b bs bs' l m) as [He' Hd]; try done; [unfold zlen in *; lia|].
  destruct IH as [Hc' Hds]; [done|unfold zlen in *; lia|].
  split; [by econstructor|]. intros x [->|Hx]%elem_of_cons; [done|by apply Hds].
Qed.

(** A write at [[off, off + n)] leaves the bytes before and after it. *)
Lemma agree_write_before off new bs b :
  0 ≤ off → off + zlen new ≤ zlen bs → b ≤ off → agree 0 b bs (write_at off new bs).
Proof. intros ? ? ? o n ? ? ?. by rewrite read_write_other by lia. Qed.

Lemma agree_write_after off new bs a :
  0 ≤ off → off + zlen new ≤ zlen bs → off + zlen new ≤ a → agree a (zlen bs) bs (write_at off new bs).
Proof. unfold zlen. intros ? ? ? o n ? ? ?. by rewrite read_write_other by (unfold zlen; lia). Qed.

Lemma agree_trans a b bs1 bs2 bs3 : agree a b bs1 bs2 → agree a b bs2 bs3 → agree a b bs1 bs3.
Proof. intros H1 H2 o n ? ? ?. by rewrite H1, H2. Qed.

Lemma agree_mono a b a' b' bs bs' : a ≤ a' → b' ≤ b → agree a b bs bs' → agree a' b' bs bs'.
Proof. intros ? ? Ha o n ? ? ?. apply Ha; lia. Qed.

(** ** Scanning *)
Section scan.
Context `{!Zerocopy, !ZerocopyLaws}.

Lemma slice_header s l :
  0 ≤ l → l + 8 ≤ zlen (slice_bytes s) →
  ∃ e, slice_from s l = Ret e ∧ DirectoryEntry.header e = Ret (header_at (slice_bytes s) l) ∧
    slice_bytes e = drop (Z.to_nat l) (slice_bytes s).
Proof.
  intros Hl Hlen.
  assert (fits hdr s l) as Hf by (split_and!; [done|by rewrite hdr_size|apply Z.mod_1_r]).
  unfold slice_from. rewrite (get_from_ok s l Hf). eexists. split_and!; [done| |done].
  unfold DirectoryEntry.header, DirectoryEntryHeader.header_of_bytes.
  pose proof (collection_get_ok s l Hf) as Hg. unfold Transmute.collection_get,
    Transmute.try_cast_bytes_ref_offset in Hg. rewrite (get_from_ok s l Hf) in Hg.
  cbn [mbind option_bind] in Hg. by rewrite Hg.
Qed.

Lemma scan_chain s a ls acc fuel :
  bytes_ok (slice_bytes s) → zlen (slice_bytes s) < 2 ^ 63 →
  chain (slice_bytes s) a ls (zlen (slice_bytes s)) → (length ls ≤ fuel)%nat →
  DirectoryBlock.scan_entries fuel s a acc = Ret (acc ++ ls).
Proof.
  intros Hb Hlen Hc. remember (zlen (slice_bytes s)) as stop eqn:Es.
  revert acc fuel. induction Hc as [a|a ls m b He Hc IH]; intros acc fuel Hf; subst.
  - rewrite app_nil_r. destruct fuel; simpl; by rewrite Z.ltb_irrefl.
  - destruct fuel as [|fuel]; simpl in Hf; [lia|].
    destruct (entry_bounds _ _ _ Hb He) as (_ & Hreq & Hn & Hl8).
    destruct He as (Ha & Ha8 & Hm & Hr & _). rewrite hdr_size in Ha8.
    destruct (slice_header s a Ha Ha8) as (e & Ee & Eh & _). cbn [DirectoryBlock.scan_entries].
    destruct (Z.ltb_spec a (zlen (slice_bytes s))); [|lia]. cbn [negb].
    rewrite Ee. run_monad. rewrite Eh. run_monad. rewrite uadd_ok by lia. run_monad.
    rewrite Hr, IH by (done || lia). by rewrite <-app_assoc.
Qed.
End scan.

(** ** Inserting an entry *)
Definition slack (bytes : list Z) (l : Z) : Z :=
  let h := header_at bytes l in
  DirectoryEntryHeader.rec_len h - DirectoryEntryHeader.required_space h.

(** The bytes after the surgery of [insert_entry] at the entry [l]. *)
Definition split_bytes (bytes : list Z) (l ino ty : Z) (name : list Z) : list Z :=
  let h := header_at bytes l in
  let q := DirectoryEntryHeader.required_space h in
  let bytes := write_at l (DirectoryBlock.header_bytes (DirectoryEntryHeader.set_rec_len q h)) bytes in
  let new := DirectoryEntryHeader.mk ino (DirectoryEntryHeader.rec_len h - q) (zlen name) ty in
  let bytes := write_at (l + q) (DirectoryBlock.header_bytes new) bytes in
  write_at (l + q + 8) name bytes.

Lemma header_bytes_length h : lvalid (layout_of hdr) h → zlen (DirectoryBlock.header_bytes h) = 8.
Proof. intros Hv. unfold DirectoryBlock.header_bytes. by rewrite (zlen_to_bytes h Hv). Qed.

Lemma header_at_write bytes l h :
  lvalid (layout_of hdr) h → 0 ≤ l → l + 8 ≤ zlen bytes →
  header_at (write_at l (DirectoryBlock.header_bytes h) bytes) l = h.
Proof.
  intros Hv Hl Hlen. unfold header_at. rewrite hdr_size, <-(header_bytes_length h Hv).
  rewrite read_write_same by (rewrite ?header_bytes_length by done; lia).
  by apply (lo_of_to _ layout_of_ok).
Qed.

Lemma set_rec_len_fields (h : hdr) x :
  let h' := DirectoryEntryHeader.set_rec_len x h in
  DirectoryEntryHeader.inode h' = DirectoryEntryHeader.inode h ∧
  DirectoryEntryHeader.rec_len h' = x ∧
  DirectoryEntryHeader.name_len h' = DirectoryEntryHeader.name_len h ∧
  DirectoryEntryHeader.raw_file_type h' = DirectoryEntryHeader.raw_file_type h ∧
  DirectoryEntryHeader.required_space h' = DirectoryEntryHeader.required_space h.
Proof. by destruct h. Qed.

Section split.
Context (bytes : list Z) (l stop ino ty : Z) (name : list Z).
Context (Hb : bytes_ok bytes) (He : entry_ok bytes l stop).
Context (Hino : in_width 32 ino) (Hty : in_width 8 ty).
Context (Hname : bytes_ok name) (Hnl : zlen name < 256).
#[local] Abbreviation h := (header_at bytes l).
#[local] Abbreviation q := (DirectoryEntryHeader.required_space h).
#[local] Abbreviation new := (DirectoryEntryHeader.mk ino (DirectoryEntryHeader.rec_len h - q) (zlen name) ty).
Context (Hslack : DirectoryEntryHeader.required_space new ≤ slack bytes l).

Lemma new_bounds :
  8 + zlen name ≤ DirectoryEntryHeader.required_space new ≤ 264 ∧
  0 ≤ DirectoryEntryHeader.rec_len h < 2 ^ 16 ∧ 8 ≤ q ≤ 264 ∧ 0 ≤ l ∧ stop ≤ zlen bytes ∧
  l + DirectoryEntryHeader.rec_len h = stop ∧ l + q + 8 + zlen name ≤ stop.
Proof.
  destruct (entry_bounds bytes l stop Hb He) as (Hv & Hq & Hn & _).
  destruct (hdr_widths _ Hv) as (_ & Hr & _ & _).
  assert (0 ≤ zlen name) by (unfold zlen; lia).
  assert (in_width 8 (DirectoryEntryHeader.name_len new)) as Hw
    by (split; cbn [DirectoryEntryHeader.name_len]; [lia|exact Hnl]).
  pose proof (required_space_bounds new Hw) as Hnew. destruct He as (? & ? & ? & ? & ?).
  unfold slack in Hslack. cbn [DirectoryEntryHeader.name_len] in Hnew. destruct Hr.
  split_and!; try lia.
Qed.

Lemma new_valid : lvalid (layout_of hdr) new.
Proof.
  destruct new_bounds as (? & ? & ? & ? & ? & ? & ?).
  assert (0 ≤ zlen name) by (unfold zlen; lia). unfold slack in Hslack.
  apply hdr_valid; [done| | |done]; split; lia.
Qed.

Lemma cut_valid : lvalid (layout_of hdr) (DirectoryEntryHeader.set_rec_len q h).
Proof.
  destruct (entry_bounds bytes l stop Hb He) as (Hv & _).
  destruct (hdr_widths _ Hv) as (? & ? & ? & ?). destruct new_bounds as (_ & _ & Hq & _).
  revert Hq. generalize q. intros q' Hq. destruct h. apply hdr_valid; try done.
  split; [lia|]. change (2 ^ 16) with 65536. lia.
Qed.

#[local] Abbreviation b1 :=
  (write_at l (DirectoryBlock.header_bytes (DirectoryEntryHeader.set_rec_len q h)) bytes).
#[local] Abbreviation b2 := (write_at (l + q) (DirectoryBlock.header_bytes new) b1).

Lemma split_lengths : zlen b1 = zlen bytes ∧ zlen b2 = zlen bytes ∧
  zlen (split_bytes bytes l ino ty name) = zlen bytes.
Proof.
  destruct new_bounds as (? & ? & ? & ? & ? & ? & ?). assert (0 ≤ zlen name) by (unfold zlen; lia).
  pose proof (header_bytes_length _ cut_valid). pose proof (header_bytes_length _ new_valid).
  assert (zlen b1 = zlen bytes) as L1 by (apply length_write_at; lia).
  assert (zlen b2 = zlen bytes) as L2 by (rewrite <-L1; apply length_write_at; lia).
  split_and!; [done|done|]. rewrite <-L2. apply length_write_at; lia.
Qed.

Lemma split_bytes_ok : bytes_ok (split_bytes bytes l ino ty name).
Proof.
  repeat apply bytes_ok_write; try done;
    apply (lo_bytes _ layout_of_ok); [apply new_valid|apply cut_valid].
Qed.

(** Nothing outside of [[l, stop)] changes. *)
Lemma split_agree :
  agree 0 l bytes (split_bytes bytes l ino ty name) ∧
  agree stop (zlen bytes) bytes (split_bytes bytes l ino ty name).
Proof.
  destruct new_bounds as (? & ? & ? & ? & ? & ? & ?). assert (0 ≤ zlen name) by (unfold zlen; lia).
  pose proof (header_bytes_length _ cut_valid). pose proof (header_bytes_length _ new_valid).
  destruct split_lengths as (L1 & L2 & _). split.
  - apply (agree_trans _ _ _ b1); [apply agree_write_before; lia|].
    apply (agree_trans _ _ _ b2); [apply (agree_write_before (l + q)); lia|].
    apply (agree_write_before (l + q + 8)); lia.
  - apply (agree_trans _ _ _ b1); [apply (agree_write_after l); lia|]. rewrite <-L1 at 1.
    apply (agree_trans _ _ _ b2); [apply (agree_write_after (l + q)); lia|]. rewrite L1, <-L2 at 1.
    apply (agree_write_after (l + q + 8)); lia.
Qed.

(** The two entries that the old one becomes. *)
Lemma split_entries :
  entry_ok (split_bytes bytes l ino ty name) l (l + q) ∧
  dirent (split_bytes bytes l ino ty name) l = dirent bytes l ∧
  entry_ok (split_bytes bytes l ino ty name) (l + q) stop ∧
  dirent (split_bytes bytes l ino ty name) (l + q) = (ino, ty, name).
Proof.
  destruct new_bounds as (Hn1 & ? & ? & ? & ? & ? & ?). assert (0 ≤ zlen name) by (unfold zlen; lia).
  pose proof (header_bytes_length _ cut_valid) as Lc. pose proof (header_bytes_length _ new_valid) as Ln.
  destruct split_lengths as (L1 & L2 & L3).
  destruct (entry_bounds bytes l stop Hb He) as (Hv & Hq & Hn & _).
  assert (header_at (split_bytes bytes l ino ty name) l = DirectoryEntryHeader.set_rec_len q h) as E1.
  { unfold split_bytes, header_at at 1. rewrite hdr_size.
    rewrite (read_write_other (l + q + 8)) by lia. rewrite (read_write_other (l + q)) by lia.
    rewrite <-hdr_size. apply header_at_write; [apply cut_valid|lia|lia]. }
  assert (header_at (split_bytes bytes l ino ty name) (l + q) = new) as E2.
  { unfold split_bytes, header_at at 1. rewrite hdr_size.
    rewrite (read_write_other (l + q + 8)) by lia. rewrite <-hdr_size.
    apply header_at_write; [apply new_valid|lia|lia]. }
  destruct (set_rec_len_fields h q) as (S1 & S2 & S3 & S4 & S5).
  unfold entry_ok, dirent. rewrite E1, E2, L3, hdr_size, S1, S2, S3, S4, S5.
  cbn [DirectoryEntryHeader.inode DirectoryEntryHeader.raw_file_type DirectoryEntryHeader.name_len
       DirectoryEntryHeader.rec_len]. unfold slack in Hslack.
  split_and!; try lia; f_equal; unfold split_bytes.
  - rewrite (read_write_other (l + q + 8)) by lia.
    rewrite (read_write_other (l + q)) by lia. by rewrite (read_write_other l) by lia.
  - by rewrite read_write_same by lia.
Qed.
End split.

Definition block_bytes (b : DirectoryBlock.t) : list Z := slice_bytes (data (DirectoryBlock.block b)).

(** A loaded directory block: its bytes are the chain [ls], and the locations
    are those of the chain, in some order. *)
Record dir_ok (b : DirectoryBlock.t) (ls : list Z) : Prop := {
  do_bytes : bytes_ok (block_bytes b);
  do_length : zlen (block_bytes b) < 2 ^ 16;
  do_chain : chain (block_bytes b) 0 ls (zlen (block_bytes b));
  do_locations : DirectoryBlock.entry_locations b ≡ₚ ls;
}.

Lemma chain_entry bytes a ls stop l :
  chain bytes a ls stop → l ∈ ls → ∃ m, entry_ok bytes l m.
Proof.
  induction 1 as [|a ls m b He Hc IH]; intros Hl; [by apply not_elem_of_nil in Hl|].
  apply elem_of_cons in Hl as [->|Hl]; [by exists m|by apply IH].
Qed.

Section insert.
Context `{!Zerocopy, !ZerocopyLaws}.

(** The scan of a freshly read block. *)
Lemma from_existing_block_ok buf ls :
  bytes_ok (slice_bytes (data buf)) → zlen (slice_bytes (data buf)) < 2 ^ 16 →
  chain (slice_bytes (data buf)) 0 ls (zlen (slice_bytes (data buf))) →
  DirectoryBlock.from_existing_block buf = Ret (DirectoryBlock.mk buf ls) ∧
  dir_ok (DirectoryBlock.mk buf ls) ls.
Proof.
  intros Hb Hlen Hc. unfold DirectoryBlock.from_existing_block.
  pose proof (chain_length _ _ _ _ Hb Hc). unfold zlen in *.
  rewrite (scan_chain (data buf) 0 ls); unfold zlen; try done || lia.
Qed.

Lemma find_space_ok b needed i rest :
  bytes_ok (block_bytes b) →
  (∀ l, l ∈ rest → ∃ m, entry_ok (block_bytes b) l m) →
  (∃ pre, DirectoryBlock.entry_locations b = pre ++ rest ∧ i = zlen pre) →
  ∃ r, DirectoryBlock.find_space b needed i rest = Ret r ∧
    match r with
    | None => ∀ l, l ∈ rest → slack (block_bytes b) l < needed
    | Some (k, l) => l ∈ rest ∧ needed ≤ slack (block_bytes b) l ∧
        ∃ pre post, DirectoryBlock.entry_locations b = pre ++ l :: post ∧ k = zlen pre
    end.
Proof.
  intros Hb. revert i. induction rest as [|l rest IH]; intros i Hok (pre & El & Ei).
  { exists None. split; [done|]. intros l Hl. by apply not_elem_of_nil in Hl. }
  destruct (Hok l) as [m He]; [by left|]. pose proof He as (Hl & Hl8 & Hm & Hr & Hreq).
  rewrite hdr_size in Hl8.
  destruct (slice_header (data (DirectoryBlock.block b)) l Hl Hl8) as (e & Ee & Eh & _).
  cbn [DirectoryBlock.find_space]. unfold DirectoryBlock.load_entry_from_location.
  rewrite Ee. run_monad. rewrite Eh. run_monad. fold (block_bytes b). rewrite usub_ok by done. run_monad.
  fold (slack (block_bytes b) l). destruct (Z.leb_spec needed (slack (block_bytes b) l)).
  - assert (index (DirectoryBlock.entry_locations b) i = Ret l) as ->.
    { apply index_ret_inv. rewrite El, Ei. unfold zlen. rewrite Nat2Z.id, lookup_app_r by lia.
      by rewrite Nat.sub_diag. }
    eexists. split; [done|]. split_and!; [by left|done|]. by exists pre, rest.
  - destruct (IH (i + 1)) as (r & E & Hpost).
    + intros x Hx. apply Hok. by right.
    + exists (pre ++ [l]). rewrite <-app_assoc. split; [done|]. unfold zlen in *.
      rewrite length_app. simpl. lia.
    + exists r. split; [done|]. destruct r as [[k x]|].
      * destruct Hpost as (Hx & Hs & Hpp). split_and!; [by right|done|done].
      * intros x [->|Hx]%elem_of_cons; [done|by apply Hpost].
Qed.

Lemma raw_header_ok s l :
  0 ≤ l → l + 8 ≤ zlen (slice_bytes s) →
  DirectoryBlock.raw_header s l = Ret (header_at (slice_bytes s) l).
Proof.
  intros Hl Hlen. destruct (slice_header s l Hl Hlen) as (e & Ee & _ & He).
  unfold DirectoryBlock.raw_header. rewrite Ee. run_monad. rewrite hdr_size, He.
  unfold zlen in *. rewrite length_drop.
  destruct (Z.leb_spec 8 (Z.of_nat (length (slice_bytes s) - Z.to_nat l))); [done|lia].
Qed.

Lemma raw_write_ok bytes l new :
  0 ≤ l → l + zlen new ≤ zlen bytes →
  DirectoryBlock.raw_write bytes l new = Ret (write_at l new bytes).
Proof.
  intros Hl Hlen. unfold DirectoryBlock.raw_write. assert (0 ≤ zlen new) by (unfold zlen; lia).
  destruct (Z.leb_spec l (zlen bytes)); [|lia].
  by destruct (Z.leb_spec (l + zlen new) (zlen bytes)); [|lia].
Qed.

(** The surgery, once a place is found. *)
Lemma insert_at b name ino ty k l stop pre post :
  bytes_ok (block_bytes b) → zlen (block_bytes b) < 2 ^ 16 → entry_ok (block_bytes b) l stop →
  bytes_ok name → zlen name < 256 → in_width 32 ino →
  DirectoryBlock.entry_locations b = pre ++ l :: post → k = zlen pre →
  let new := DirectoryEntryHeader.new ino name (DirectoryEntryFileType.to_u8 ty) in
  DirectoryEntryHeader.required_space new ≤ slack (block_bytes b) l →
  DirectoryBlock.find_space b (DirectoryEntryHeader.required_space new) 0
    (DirectoryBlock.entry_locations b) = Ret (Some (k, l)) →
  let nl := l + DirectoryEntryHeader.required_space (header_at (block_bytes b) l) in
  ∃ e b', DirectoryBlock.insert_entry b name ino ty = Ret (Some e, b') ∧
    block_bytes b' = split_bytes (block_bytes b) l ino (DirectoryEntryFileType.to_u8 ty) name ∧
    DirectoryBlock.entry_locations b' = pre ++ nl :: l :: post ∧
    device_start_block (DirectoryBlock.block b') = device_start_block (DirectoryBlock.block b).
Proof.
  intros Hb Hlen He Hname Hnl Hino El Ek new Hslack Hfind nl.
  assert (wrap 8 (zlen name) = zlen name) as Hw by (apply Z.mod_small; unfold zlen in *; lia).
  assert (in_width 8 (DirectoryEntryFileType.to_u8 ty)) as Hty by (by destruct ty).
  set (tyv := DirectoryEntryFileType.to_u8 ty) in *.
  pose proof He as (Hl & Hl8 & Hstop & _). rewrite hdr_size in Hl8.
  assert (DirectoryEntryHeader.required_space (DirectoryEntryHeader.mk ino
    (DirectoryEntryHeader.rec_len (header_at (block_bytes b) l) -
     DirectoryEntryHeader.required_space (header_at (block_bytes b) l)) (zlen name) tyv)
    ≤ slack (block_bytes b) l) as Hslack'.
  { revert Hslack. unfold new, DirectoryEntryHeader.new, DirectoryEntryHeader.required_space.
    cbn [DirectoryEntryHeader.name_len]. by rewrite Hw. }
  pose proof (new_bounds _ _ _ ino tyv name Hb He Hnl Hslack') as (Hn & Hr & Hq & _ & _ & _ & Hfit).
  destruct (split_lengths _ _ _ ino tyv name Hb He Hino Hty Hnl Hslack') as (L1 & L2 & L3).
  pose proof (header_bytes_length _ (cut_valid _ _ _ ino tyv name Hb He Hnl Hslack')) as Lc.
  pose proof (header_bytes_length _ (new_valid _ _ _ ino tyv name Hb He Hino Hty Hnl Hslack')) as Ln.
  destruct (set_rec_len_fields (header_at (block_bytes b) l)
    (DirectoryEntryHeader.required_space (header_at (block_bytes b) l))) as (_ & S2 & _).
  unfold DirectoryBlock.insert_entry. fold tyv new. rewrite Hfind. run_monad.
  rewrite raw_header_ok by done. run_monad. fold (block_bytes b). unfold wrap.
  assert (0 ≤ zlen name) by (unfold zlen; lia).
  rewrite (Z.mod_small (DirectoryEntryHeader.required_space (header_at (block_bytes b) l))) by lia.
  rewrite raw_write_ok by lia. run_monad. rewrite S2. rewrite uadd_ok by lia. run_monad.
  unfold slack in Hslack'. rewrite usub_ok by lia. run_monad.
  assert (∀ r, DirectoryEntryHeader.set_rec_len r new = DirectoryEntryHeader.mk ino r (zlen name) tyv)
    as -> by (intros r; unfold new, DirectoryEntryHeader.new; cbn; by rewrite Hw).
  rewrite raw_write_ok by lia. run_monad. rewrite hdr_size, raw_write_ok by lia. run_monad.
  set (b' := DirectoryBlock.mk _ _). fold nl.
  destruct (slice_header (data (DirectoryBlock.block b')) nl) as (e & Ee & _ & _);
    [unfold nl; lia|change (nl + 8 ≤ zlen (split_bytes (block_bytes b) l ino tyv name)); unfold nl; lia|].
  unfold DirectoryBlock.load_entry_from_location. rewrite Ee. run_monad.
  exists e, b'. split_and!; try done. simpl. rewrite El, Ek. unfold zlen.
  by rewrite Nat2Z.id, take_app_length, drop_app_length.
Qed.
End insert.

Section insert_spec.
Context `{!Zerocopy, !ZerocopyLaws}.

(** What the chain becomes. *)
Lemma split_chain bytes l ino ty name pre post stop :
  bytes_ok bytes → chain bytes 0 (pre ++ l :: post) (zlen bytes) → entry_ok bytes l stop →
  in_width 32 ino → in_width 8 ty → bytes_ok name → zlen name < 256 →
  let q := DirectoryEntryHeader.required_space (header_at bytes l) in
  let new := DirectoryEntryHeader.mk ino (DirectoryEntryHeader.rec_len (header_at bytes l) - q) (zlen name) ty in
  DirectoryEntryHeader.required_space new ≤ slack bytes l →
  let bytes' := split_bytes bytes l ino ty name in
  chain bytes' 0 (pre ++ l :: l + q :: post) (zlen bytes') ∧
  dirent bytes' (l + q) = (ino, ty, name) ∧
  (∀ x, x ∈ pre ++ l :: post → dirent bytes' x = dirent bytes x).
Proof.
  intros Hb Hc He Hino Hty Hname Hnl q new Hslack bytes'.
  destruct (split_lengths bytes l stop ino ty name) as (_ & _ & L3); try done.
  destruct (split_agree bytes l stop ino ty name) as [Ha1 Ha2]; try done.
  destruct (split_entries bytes l stop ino ty name) as (He1 & Hd1 & He2 & Hd2); try done.
  fold bytes' in L3, Ha1, Ha2, He1, Hd1, He2, Hd2. rewrite L3.
  apply chain_app in Hc as (m & Hc1 & Hc2). inversion Hc2 as [|? ? s ? He' Hc3]; subst.
  assert (s = stop) as -> by (destruct He as (_ & _ & _ & <- & _), He' as (_ & _ & _ & <- & _); done).
  destruct (agree_chain 0 l bytes bytes' 0 pre l) as [Hp Hpd]; try done || lia.
  destruct (agree_chain stop (zlen bytes) bytes bytes' stop post (zlen bytes)) as [Hq Hqd]; try done || lia.
  split_and!; [|done|].
  - apply chain_app. exists l. split; [done|]. by do 2 (econstructor; [done|]).
  - intros x [Hx|[->|Hx]%elem_of_cons]%elem_of_app; auto.
Qed.

End insert_spec.

(** ** On the small disk *)
Section demo_directory.
#[local] Existing Instances documented_zerocopy documented_zerocopy_laws.

Definition demo_dir : DirectoryBlock.t :=
  DirectoryBlock.mk (Build_BlockBuffer 14 2 (Slice 4096 demo_directory)) [0; 12; 24].

Lemma demo_chain : chain demo_directory 0 [0; 12; 24] 1024.
Proof.
  apply (chain_cons _ 0 _ 12); [vm_compute; split_and!; done|].
  apply (chain_cons _ 12 _ 24); [vm_compute; split_and!; done|].
  apply (chain_cons _ 24 _ 1024); [vm_compute; split_and!; done|]. constructor.
Qed.

Lemma demo_dir_ok : dir_ok demo_dir [0; 12; 24].
Proof.
  split; [by apply bytes_okb_ok|vm_compute; done|exact demo_chain|done].
Qed.


(** the in-memory list of locations puts a new entry in front of the entry
    whose slack it took, although it lies behind it in the block: after one
    insertion the locations are not in the order of the block. *)
Theorem insert_entry_order :
  ∃ e b' b'', DirectoryBlock.insert_entry demo_dir (str "foo") 4 DirectoryEntryFileType.RegularFile
                = Ret (Some e, b') ∧
    DirectoryBlock.from_existing_block (DirectoryBlock.block b') = Ret b'' ∧
    DirectoryBlock.entry_locations b' = [0; 12; 40; 24] ∧
    DirectoryBlock.entry_locations b'' = [0; 12; 24; 40].
Proof.
  destruct (DirectoryBlock.insert_entry demo_dir (str "foo") 4 DirectoryEntryFileType.RegularFile)
    as [[[e|] b']| |] eqn:E; vm_compute in E; try discriminate.
  exists e, b'. injection E as <- <-.
  eexists. split_and!; [reflexivity| |reflexivity|]; [vm_compute; reflexivity|reflexivity].
Qed.
End demo_directory.
