(* ===== verification/Ext2Vfs.v ===== *)
(** * ext2 behind the VFS interface ([kernel/src/fs/ext2/vfs.rs])

    [VFSFileSystem], [VFSInode] and [EXT2DirectoryEntry] all hold the same
    [Arc<Mutex<FileSystem>>]; an operation runs with the mutex held, so it is a
    function of the shared file system. *)
From S2P Require Import Prelude External Transmute Block Ext2 Ext2Dir Vfs Ext2Fs.
#[local] Open Scope Z_scope.

Record VFSInode : Type := { inode_number : Z; inode : Inode.t }.

Record EXT2DirectoryEntry : Type := {
  dir_inode_number : Z;
  dir_name : list Z;
  dir_entry_type : DirectoryEntryType;
}.

(** [&bytes[start..end]] *)
Definition slice_range (bytes : list Z) (start stop : Z) : outcome (list Z) :=
  if (start <=? stop) && (stop <=? zlen bytes) then Ret (read_at start (stop - start) bytes)
  else Panic PanicIndex.

(** [buffer[start..start + new.len()].copy_from_slice(new)] *)
Definition copy_range (buffer : list Z) (start : Z) (new : list Z) : outcome (list Z) :=
  if start + zlen new <=? zlen buffer then Ret (write_at start new buffer) else Panic PanicIndex.

Module Ext2Vfs.
Section ext2_vfs.
Context `{!Zerocopy, !Bitflags} {D : Type} `{!BlockDeviceDriver D}.
#[local] Abbreviation fs_t := (FileSystem.t D).

(** [VFSFileSystem::read] *)
Definition read (device : D) : outcome fs_t :=
  fs ← FileSystem.read device; expect fs.

(** The [InodeType] of an inode, in [read_root] and [get_inode]. *)
Definition inode_type_of (v : VFSInode) : outcome (inode_type VFSInode) :=
  if Inode.is_file (inode v) then mret (File v) else
  if Inode.is_dir (inode v) then mret (Directory v) else Panic PanicExplicit.

Definition read_root (fs : fs_t) : outcome (inode_type VFSInode) :=
  '(i, n) ← FileSystem.read_root fs;
  inode_type_of {| inode_number := n; inode := i |}.

(** One turn of the loop of [FileInode::read]; the state is the caller's buffer,
    the current offset and the number of bytes read. *)
Definition read_turn (fs : fs_t) (v : VFSInode) (block_size stop : Z) (block : Z)
  '((buffer, current_offset, bytes_read) : list Z * Z * Z) : outcome (list Z * Z * Z) :=
  block_buffer ← FileSystem.read_inode_block fs (inode v) block;
  slice_start ← urem current_offset block_size;
  left ← usub stop current_offset;
  let slice_end := Z.min block_size left in
  piece ← slice_range (slice_bytes (data block_buffer)) slice_start slice_end;
  buffer ← copy_range buffer bytes_read piece;
  bytes_read ← uadd 64 bytes_read (zlen piece);
  current_offset ← uadd 64 current_offset (zlen piece);
  mret (buffer, current_offset, bytes_read).

Definition read_file (fs : fs_t) (v : VFSInode) (buffer : list Z) (offset : Z)
  : outcome (FileInodeReadResult * list Z) :=
  _ ← assert_ (Inode.is_file (inode v));
  sb ← FileSystem.superblock fs;
  block_size ← Superblock.block_size sb;
  let file_size := Superblock.file_size sb (inode v) in
  limit ← uadd 64 offset (zlen buffer);
  let stop := Z.min file_size limit in
  start_block ← udiv offset block_size;
  end_block ← udiv_ceil stop block_size;
  '(buffer, _, bytes_read) ←
    foldM (read_turn fs v block_size stop) (range start_block end_block) (buffer, offset, 0);
  mret (if stop =? file_size then Done bytes_read else Success, buffer).

(** [for byte in block_data.iter_mut() { .. }] *)
Fixpoint fill_block (block : list Z) (data : list Z) (written_bytes : Z) : outcome (list Z * Z) :=
  match block with
  | [] => mret ([], written_bytes)
  | _ :: block =>
      if written_bytes <? zlen data then
        written_bytes ← uadd 64 written_bytes 1;
        byte ← index data (written_bytes - 1);
        '(rest, written_bytes) ← fill_block block data written_bytes;
        mret (byte :: rest, written_bytes)
      else
        '(rest, written_bytes) ← fill_block block data written_bytes;
        mret (0 :: rest, written_bytes)
  end.

(** The callback of [write]. *)
Definition write_callback (data : list Z) (_ : Z) (block_buf : BlockBuffer) (d : D) (written_bytes : Z)
  : outcome (bool * D * Z) :=
  if zlen data <=? written_bytes then mret (false, d, written_bytes) else
  '(bytes, written_bytes) ← fill_block (slice_bytes (Block.data block_buf)) data written_bytes;
  d ← BlockDevice.flush (BlockDevice.with_bytes block_buf bytes) d;
  mret (true, d, written_bytes).

Definition write_file (fs : fs_t) (v : VFSInode) (data : list Z) : outcome (bool * VFSInode * fs_t) :=
  _ ← assert_ (Inode.is_file (inode v));
  '(fs, written_bytes) ← FileSystem.iter_file_blocks fs (inode v) (write_callback data) 0;
  _ ← assert_ (written_bytes =? zlen data);
  let i := Inode.set_size_low (wrap 32 (zlen data)) (inode v) in
  fs ← FileSystem.write_inode fs i (inode_number v);
  mret (true, {| inode_number := inode_number v; inode := i |}, fs).

(** The body of the loop over the entries of a block in [subdirectories]. *)
Definition push_entry (b : DirectoryBlock.t) (location : Z) (entries : list EXT2DirectoryEntry)
  : outcome (list EXT2DirectoryEntry) :=
  entry ← DirectoryBlock.load_entry_from_location b location;
  is_file ← DirectoryEntry.is_file entry;
  entry_type ←
    (if is_file : bool then mret EntryFile else
     is_dir ← DirectoryEntry.is_dir entry;
     if is_dir : bool then mret EntryDirectory else Panic PanicExplicit);
  n ← DirectoryEntry.inode_number entry;
  name ← DirectoryEntry.name entry;
  mret (entries ++ [{| dir_inode_number := n; dir_name := name; dir_entry_type := entry_type |}]).

Definition subdirectories (fs : fs_t) (v : VFSInode) : outcome (list EXT2DirectoryEntry * fs_t) :=
  _ ← assert_ (Inode.is_dir (inode v));
  '(fs, entries) ← FileSystem.iter_directory_blocks fs (inode v) (λ block d entries,
     entries ← foldM (push_entry block) (DirectoryBlock.entry_locations block) entries;
     mret (true, d, entries)) [];
  mret (entries, fs).

Definition create_file (fs : fs_t) (v : VFSInode) (name : list Z) : outcome (option VFSInode * fs_t) :=
  _ ← assert_ (Inode.is_dir (inode v));
  '(r, fs) ← FileSystem.create_file fs (inode v) (inode_number v) name;
  mret (match r with
        | Some (i, n) => Some {| inode_number := n; inode := i |}
        | None => None
        end, fs).

(** [EXT2DirectoryEntry::get_inode] *)
Definition get_inode (fs : fs_t) (e : EXT2DirectoryEntry) : outcome (inode_type VFSInode) :=
  i ← FileSystem.read_inode fs (dir_inode_number e);
  match i with
  | Some i => inode_type_of {| inode_number := dir_inode_number e; inode := i |}
  | None => Panic PanicExplicit
  end.

#[global] Instance ext2_vfs : Vfs fs_t VFSInode EXT2DirectoryEntry := {|
  Vfs.read_root := read_root;
  Vfs.read_file := read_file;
  Vfs.write_file := write_file;
  Vfs.subdirectories := subdirectories;
  Vfs.create_file := create_file;
  entry_name := dir_name;
  entry_type := dir_entry_type;
  Vfs.get_inode := get_inode;
|}.
End ext2_vfs.
End Ext2Vfs.
