(* ===== verification/Ext2VfsThms.v ===== *)
(** * ext2: reading and writing files

    The iteration over the blocks of a file, the bytes [FileInode::write] leaves
    on the device, and that [FileInode::read] returns them. *)
From S2P Require Import Prelude External Transmute Block Ext2 Ext2Dir Vfs Ext2Fs Ext2Demo Ext2Thms Ext2Inodes Ext2Vfs.
#[local] Open Scope Z_scope.

(** ** Iterating over the blocks of a file *)
Section iterate.
Import InodeBlockIterator.

(** The iterator after [k] of the blocks [addrs]. *)
Definition iter_at (addrs rest : list Z) (bs : Z) (k : Z) : t :=
  mk (addrs ++ rest) bs (zlen addrs) k k.

Lemma next_loop_S fuel it :
  next_loop (S fuel) it =
  r ← next_turn it; match r with Next it' => next_loop fuel it' | Stop r => mret r end.
Proof. reflexivity. Qed.

Lemma next_some addrs rest bs k a :
  0 ≤ k → zlen addrs ≤ 12 → 0 ≤ bs < 2 ^ 16 → addrs !! Z.to_nat k = Some a → a ≠ 0 →
  next (iter_at addrs rest bs k) = Ret (Some (k * bs, a), iter_at addrs rest bs (k + 1)).
Proof.
  intros Hk Hlen Hbs Ha Hne. pose proof (lookup_lt_Some _ _ _ Ha) as Hlt. unfold zlen in Hlen.
  assert (next_turn (iter_at addrs rest bs k) =
    Ret (Stop (Some (k * bs, a), iter_at addrs rest bs (k + 1)))) as E.
  { unfold next_turn, iter_at. cbn [seen_blocks num_blocks index direct_blocks block_size].
    destruct (Z.ltb_spec k (zlen addrs)); [|unfold zlen in *; lia]. cbn [negb].
    destruct (Z.eqb_spec k 12); [lia|]. rewrite uadd_ok by lia. run_monad.
    cbn [seen_blocks num_blocks index direct_blocks block_size]. rewrite lookup_app_l, Ha by lia.
    destruct (Z.eqb_spec a 0); [done|]. by rewrite umul_ok by nia. }
  unfold next. rewrite next_loop_S, E. done.
Qed.

Lemma next_none addrs rest bs :
  next (iter_at addrs rest bs (zlen addrs)) = Ret (None, iter_at addrs rest bs (zlen addrs)).
Proof.
  unfold next. rewrite next_loop_S. unfold next_turn, iter_at. cbn [seen_blocks num_blocks].
  by rewrite Z.ltb_irrefl.
Qed.

(** The [for] loop visits the blocks in order. *)
Lemma for_each_blocks {St R} (body : Z → Z → St → outcome (flow St R)) rest bs addrs :
  zlen addrs ≤ 12 → 0 ≤ bs < 2 ^ 16 → Forall (λ a, a ≠ 0) addrs →
  ∀ k s, 0 ≤ k ≤ zlen addrs →
  for_each_loop (S (Z.to_nat (zlen addrs - k))) body (iter_at addrs rest bs k) s =
  loopM (λ '(i, a), body (i * bs) a) (zip (range k (zlen addrs)) (drop (Z.to_nat k) addrs)) s.
Proof.
  intros Hlen Hbs Hne k s Hk. remember (Z.to_nat (zlen addrs - k)) as n eqn:En.
  revert k s Hk En. induction n as [|n IH]; intros k s Hk En.
  - replace k with (zlen addrs) by lia. cbn [for_each_loop]. rewrite next_none. run_monad.
    by rewrite range_nil by lia.
  - destruct (lookup_lt_is_Some_2 addrs (Z.to_nat k)) as [a Ha]; [unfold zlen in *; lia|].
    assert (a ≠ 0) as Hane by (rewrite Forall_lookup in Hne; by apply (Hne (Z.to_nat k))).
    remember (S n) as m eqn:Em. cbn [for_each_loop]. rewrite (next_some _ _ _ _ a) by (done || lia).
    run_monad. rewrite range_cons by lia. rewrite (drop_S addrs a (Z.to_nat k)) by done.
    cbn [zip_with loopM]. destruct (body (k * bs) a s) as [[s'|r]| |]; try done. run_monad.
    rewrite IH by lia. do 3 f_equal. lia.
Qed.

(** Enough fuel is as good as exactly enough. *)
Lemma for_each_more_fuel {St R} (body : Z → Z → St → outcome (flow St R)) n it s :
  for_each_loop n body it s ≠ Diverge → ∀ m, (n ≤ m)%nat →
  for_each_loop m body it s = for_each_loop n body it s.
Proof.
  revert it s. induction n as [|n IH]; intros it s Hd m Hm; [done|].
  destruct m as [|m]; [lia|]. cbn [for_each_loop] in *.
  destruct (next it) as [[[[off a]|] it']| |]; try done. cbn [mbind outcome_bind] in *.
  destruct (body off a s) as [[s'|r]| |]; try done. cbn [mbind outcome_bind] in *.
  apply IH; [done|lia].
Qed.
End iterate.

(** ** Filling a block *)
Lemma fill_block_ok block data w :
  0 ≤ w ≤ zlen data → zlen data < 2 ^ 63 →
  Ext2Vfs.fill_block block data w = Ret
    (take (length block) (drop (Z.to_nat w) data) ++ replicate (length block - (length data - Z.to_nat w)) 0,
     Z.min (zlen data) (w + zlen block)).
Proof.
  intros Hw Hlen. revert w Hw. induction block as [|x block IH]; intros w Hw.
  - simpl. unfold zlen in *. simpl. do 2 f_equal. lia.
  - cbn [Ext2Vfs.fill_block]. unfold zlen in *. destruct (Z.ltb_spec w (Z.of_nat (length data))).
    + rewrite uadd_ok by lia. run_monad.
      destruct (lookup_lt_is_Some_2 data (Z.to_nat w)) as [b Hb]; [lia|].
      unfold index. replace (Z.to_nat (w + 1 - 1)) with (Z.to_nat w) by lia. rewrite Hb. run_monad.
      rewrite IH by lia. run_monad. rewrite (drop_S data b (Z.to_nat w) Hb).
      replace (S (Z.to_nat w)) with (Z.to_nat (w + 1)) by lia. cbn [length take app].
      do 2 f_equal; [|lia]. do 3 f_equal. lia.
    + assert (Z.to_nat w = length data) as Ew by lia. rewrite IH by lia. run_monad.
      rewrite Ew, drop_all, !take_nil, Nat.sub_diag, !Nat.sub_0_r. cbn [length app replicate].
      do 2 f_equal. lia.
Qed.

(** The bytes of block [k] of a file with contents [data]. *)
Definition chunk (bs : Z) (data : list Z) (k : Z) : list Z :=
  read_at (k * bs) bs data ++ replicate (Z.to_nat bs - (length data - Z.to_nat (k * bs))) 0.

Lemma chunk_length bs data k : 0 < bs → 0 ≤ k → zlen (chunk bs data k) = bs.
Proof.
  intros. unfold chunk, read_at, zlen. rewrite length_app, length_take, length_drop, length_replicate. lia.
Qed.

Lemma chunk_bytes_ok bs data k : bytes_ok data → bytes_ok (chunk bs data k).
Proof.
  intros Hd. apply Forall_app. split; [by apply bytes_ok_read|].
  apply Forall_replicate. by split.
Qed.

(** The part of a block that holds data. *)
Lemma read_chunk bs data k n :
  0 < bs → 0 ≤ k → 0 ≤ n ≤ bs → k * bs + n ≤ zlen data →
  read_at 0 n (chunk bs data k) = read_at (k * bs) n data.
Proof.
  intros. unfold chunk, read_at, zlen in *. change (Z.to_nat 0) with 0%nat. rewrite drop_0.
  rewrite take_app_le by (rewrite length_take, length_drop; nia).
  rewrite take_take. f_equal. lia.
Qed.

Section write_blocks.
Context `{!Zerocopy, !ZerocopyLaws, !Bitflags} {D : Type} `{!BlockDeviceDriver D}
  `{laws : !BlockDeviceLaws D}.

(** The loop body of [iter_file_blocks] with the callback of [write]. *)
Definition write_body (bs : Z) (data : list Z) (offset addr : Z) '((d, w) : D * Z)
  : outcome (flow (D * Z) (D * Z)) :=
  block_buf ← BlockDevice.read_blocks d bs addr 1;
  '(go_on, d, w) ← Ext2Vfs.write_callback data offset block_buf d w;
  mret (if go_on : bool then Next (d, w) else Stop (d, w)).

Lemma write_body_done bs data offset addr d w :
  block_size_ok d bs → zlen (image d) < 2 ^ 48 → 0 ≤ addr → (addr + 1) * bs ≤ zlen (image d) →
  zlen data ≤ w → write_body bs data offset addr (d, w) = Ret (Stop (d, w)).
Proof.
  intros Hbs Hcap Ha Hin Hw.
  destruct (read_blocks_ok d bs addr 1) as (buf & Eb & _); [done|done|lia|lia|lia|].
  unfold write_body. rewrite Eb. run_monad. unfold Ext2Vfs.write_callback.
  by destruct (Z.leb_spec (zlen data) w); [|lia].
Qed.

Lemma write_body_block bs data offset addr d k :
  block_size_ok d bs → zlen (image d) < 2 ^ 48 → 0 ≤ addr → (addr + 1) * bs ≤ zlen (image d) →
  bytes_ok data → 0 ≤ k → k * bs < zlen data < 2 ^ 48 →
  ∃ d', write_body bs data offset addr (d, k * bs) = Ret (Next (d', Z.min (zlen data) ((k + 1) * bs))) ∧
    device_block_size d' = device_block_size d ∧
    image d' = write_at (addr * bs) (chunk bs data k) (image d).
Proof.
  intros Hbs Hcap Ha Hin Hd Hk Hw. pose proof (proj1 Hbs) as Hb0.
  destruct (read_modify_flush d bs addr 1) as (buf & Eb & Hbuf & Hflush); [done|done|lia|lia|lia|].
  unfold write_body. rewrite Eb. run_monad. unfold Ext2Vfs.write_callback.
  destruct (Z.leb_spec (zlen data) (k * bs)); [lia|].
  assert (zlen (slice_bytes (Block.data buf)) = bs) as Hl by (rewrite Hbuf, length_read_at; nia).
  rewrite fill_block_ok by nia. run_monad.
  assert (length (slice_bytes (Block.data buf)) = Z.to_nat bs) as Hln by (unfold zlen in Hl; lia).
  rewrite Hl, Hln. fold (read_at (k * bs) bs data). fold (chunk bs data k).
  destruct (Hflush (BlockDevice.with_bytes buf (chunk bs data k)) d) as (d' & -> & Hds & Him); try done.
  - cbn [BlockDevice.with_bytes BlockDevice.with_data Block.data slice_bytes].
    rewrite chunk_length; lia.
  - by apply chunk_bytes_ok.
  - exists d'. run_monad. split_and!; [|done|done]. do 3 f_equal. f_equal. lia.
Qed.

(** What the whole loop leaves on the device. *)
Lemma write_loop bs data addrs :
  0 < bs < 2 ^ 16 → bytes_ok data → zlen data < 2 ^ 48 → NoDup addrs →
  ∀ k d, block_size_ok d bs → zlen (image d) < 2 ^ 48 → 0 ≤ k →
  (∀ a, a ∈ addrs → 0 ≤ a ∧ (a + 1) * bs ≤ zlen (image d)) →
  ∃ r d', loopM (λ '(i, a), write_body bs data (i * bs) a) (zip (range k (k + zlen addrs)) addrs)
            (d, Z.min (zlen data) (k * bs)) = Ret r ∧
    (let w' := Z.min (zlen data) ((k + zlen addrs) * bs) in r = Next (d', w') ∨ r = Stop (d', w')) ∧
    device_block_size d' = device_block_size d ∧ zlen (image d') = zlen (image d) ∧
    (∀ j a, addrs !! j = Some a → (k + Z.of_nat j) * bs < zlen data →
       read_at (a * bs) bs (image d') = chunk bs data (k + Z.of_nat j)) ∧
    (∀ off n, 0 ≤ off → 0 ≤ n → (∀ a, a ∈ addrs → off + n ≤ a * bs ∨ (a + 1) * bs ≤ off) →
       read_at off n (image d') = read_at off n (image d)).
Proof.
  intros Hbs Hd Hlen Hnd. induction Hnd as [|a addrs Ha Hnd IH]; intros k d Hok Hcap Hk Hin.
  - exists (Next (d, Z.min (zlen data) (k * bs))), d. change (zlen (@nil Z)) with 0.
    rewrite Z.add_0_r, range_nil by lia. split; [done|]. split; [by left|].
    by split_and!.
  - destruct (Hin a) as [Ha0 Hain]; [by left|]. pose proof (chunk_length bs data k ltac:(lia) Hk) as Hcl.
    assert (zlen (a :: addrs) = zlen addrs + 1) as Hz by (unfold zlen; cbn [length]; lia).
    assert (0 ≤ zlen addrs) by (unfold zlen; lia).
    rewrite Hz, range_cons by lia. cbn [zip_with loopM].
    replace (k + (zlen addrs + 1)) with (k + 1 + zlen addrs) by lia.
    destruct (decide (k * bs < zlen data)) as [Hw|Hw].
    + rewrite Z.min_r by lia.
      destruct (write_body_block bs data (k * bs) a d k) as (d1 & -> & Hds1 & Him1); try done.
      run_monad. assert (zlen (image d1) = zlen (image d)) as Hl1 by (rewrite Him1; apply length_write_at; nia).
      destruct (IH (k + 1) d1) as (r & d' & -> & Hr & Hds & Hl & Hblk & Hfr).
      * unfold block_size_ok. by rewrite Hds1.
      * by rewrite Hl1.
      * lia.
      * intros b Hb. rewrite Hl1. apply Hin. by right.
      * exists r, d'. split_and!; try done; try congruence.
        -- intros [|j] b Hj Hlt; simpl in Hj.
           ++ injection Hj as <-. rewrite Z.add_0_r in *. rewrite Hfr.
              ** rewrite Him1. rewrite <-Hcl at 2. apply read_write_same; nia.
              ** nia.
              ** lia.
              ** intros b Hb. assert (a ≠ b) by (by intros ->). assert (a + 1 ≤ b ∨ b + 1 ≤ a) by lia. nia.
           ++ replace (k + Z.of_nat (S j)) with (k + 1 + Z.of_nat j) in * by lia. by apply Hblk.
        -- intros off n Ho Hn Hdis. rewrite Hfr by (try done; intros b Hb; apply Hdis; by right).
           rewrite Him1. apply read_write_other; try nia. rewrite Hcl.
           destruct (Hdis a ltac:(by left)); nia.
    + rewrite (write_body_done bs data (k * bs) a d) by (done || lia). run_monad.
      exists (Stop (d, Z.min (zlen data) (k * bs))), d. split_and!; try done.
      * right. do 2 f_equal. nia.
      * intros j b _ Hlt. nia.
Qed.
End write_blocks.

(** ** Files *)
Section files.
Context `{!Zerocopy, !ZerocopyLaws, !Bitflags} {D : Type} `{!BlockDeviceDriver D}
  `{laws : !BlockDeviceLaws D}.
Implicit Types (fs : FileSystem.t D) (sb : Superblock.t).

(** A file whose blocks are all direct: [addrs], apart from the inode tables and
    the inode bitmaps. *)
Record file_ok fs sb (i : Inode.t) (addrs : list Z) : Prop := {
  fi_valid : lvalid (layout_of Inode.t) i;
  fi_direct : ∃ rest, Inode.direct_blocks i = addrs ++ rest;
  fi_count : zlen addrs ≤ 12;
  fi_blocks : div_ceil (Inode.blocks i * 512) (FileSystem.block_size fs) = zlen addrs;
  fi_nodup : NoDup addrs;
  fi_in a : a ∈ addrs → 0 < a ∧ (a + 1) * FileSystem.block_size fs ≤ zlen (fs_image fs);
  fi_apart a g : a ∈ addrs → 0 ≤ g < num_groups fs →
    let b := BlockGroupDescriptor.inode_bitmap (group fs g) in
    let t := BlockGroupDescriptor.inode_table (group fs g) in
    a ≠ b ∧ (a + 1 ≤ t ∨ t + table_blocks fs sb ≤ a);
}.

Lemma inode_blocks_width (i : Inode.t) : lvalid (layout_of Inode.t) i → in_width 32 (Inode.blocks i).
Proof. destruct i. intros Hv. apply Hv. Qed.

Lemma set_size_low_valid (i : Inode.t) n :
  lvalid (layout_of Inode.t) i → in_width 32 n → lvalid (layout_of Inode.t) (Inode.set_size_low n i).
Proof. destruct i. intros Hv Hn. cbn in *. tauto. Qed.

Lemma set_size_low_fields (i : Inode.t) n :
  let i' := Inode.set_size_low n i in
  Inode.mode i' = Inode.mode i ∧ Inode.size_low i' = n ∧ Inode.size_high i' = Inode.size_high i ∧
  Inode.direct_blocks i' = Inode.direct_blocks i.
Proof. by destruct i. Qed.

(** Different blocks do not overlap. *)
Lemma blocks_apart a b bs : 0 < bs → a ≠ b → b * bs + bs ≤ a * bs ∨ (a + 1) * bs ≤ b * bs.
Proof.
  intros Hbs Hne. destruct (decide (a < b)) as [Hx|Hx]; [right|left].
  - apply Z.mul_le_mono_nonneg_r; lia.
  - assert ((b + 1) * bs ≤ a * bs) by (apply Z.mul_le_mono_nonneg_r; lia). lia.
Qed.

(** The loop of [iter_file_blocks] over the blocks of the file. *)
Lemma iter_write fs sb i addrs data :
  fs_ok fs sb → file_ok fs sb i addrs → bytes_ok data → zlen data < 2 ^ 48 →
  ∃ d', FileSystem.iter_file_blocks fs i (Ext2Vfs.write_callback data) 0 =
      Ret (FileSystem.with_device fs d', Z.min (zlen data) (zlen addrs * FileSystem.block_size fs)) ∧
    device_block_size d' = device_block_size (FileSystem.device fs) ∧
    zlen (image d') = zlen (fs_image fs) ∧
    (∀ j a, addrs !! j = Some a → Z.of_nat j * FileSystem.block_size fs < zlen data →
       read_at (a * FileSystem.block_size fs) (FileSystem.block_size fs) (image d') =
       chunk (FileSystem.block_size fs) data (Z.of_nat j)) ∧
    (∀ off n, 0 ≤ off → 0 ≤ n →
       (∀ a, a ∈ addrs → off + n ≤ a * FileSystem.block_size fs ∨ (a + 1) * FileSystem.block_size fs ≤ off) →
       read_at off n (image d') = read_at off n (fs_image fs)).
Proof.
  intros Hfs [Hv [rest Hdir] Hcnt Hblk Hnd Hin _] Hd Hlen. pose proof (block_size_bounds fs sb Hfs) as Hbs.
  set (bs := FileSystem.block_size fs) in *.
  destruct (write_loop bs data addrs Hbs Hd Hlen Hnd 0 (FileSystem.device fs))
    as (r & d' & El & Hr & Hds & Hl & Hb & Hf);
    [apply (fo_device fs sb Hfs)|apply (fo_capacity fs sb Hfs)|lia|
     intros a Ha; destruct (Hin a Ha); split; [lia|done]|].
  exists d'. split_and!; try done. unfold FileSystem.iter_file_blocks.
  rewrite (superblock_ok fs sb Hfs). run_monad. unfold iter_inode_blocks.
  rewrite (fo_block_size fs sb Hfs). run_monad. fold bs.
  destruct (inode_blocks_width i Hv) as [? Hw]. rewrite umul_ok by lia. run_monad.
  unfold udiv_ceil. destruct (Z.eqb_spec bs 0); [lia|]. run_monad. rewrite Hblk, Hdir.
  change (InodeBlockIterator.mk (addrs ++ rest) bs (zlen addrs) 0 0) with (iter_at addrs rest bs 0).
  assert (Forall (λ a, a ≠ 0) addrs) as Hne.
  { apply Forall_forall. intros a Ha. destruct (Hin a Ha). lia. }
  pose proof (for_each_blocks (write_body bs data) rest bs addrs Hcnt ltac:(lia) Hne 0
    (FileSystem.device fs, 0) ltac:(unfold zlen; lia)) as Efe.
  rewrite Z.min_r in El by (unfold zlen; lia). rewrite Z.mul_0_l, Z.add_0_l in El.
  change (Z.to_nat 0) with 0%nat in Efe. rewrite drop_0, El in Efe.
  assert (InodeBlockIterator.for_each (write_body bs data) (iter_at addrs rest bs 0)
    (FileSystem.device fs, 0) = Ret r) as Efe'.
  { unfold InodeBlockIterator.for_each. rewrite (for_each_more_fuel _ (S (Z.to_nat (zlen addrs - 0)))).
    - exact Efe.
    - by rewrite Efe.
    - lia. }
  change (λ (offset block_addr : Z) '(d, s), block_buf ← BlockDevice.read_blocks d bs block_addr 1;
    '(go_on, d, s) ← Ext2Vfs.write_callback data offset block_buf d s;
    mret (if go_on : bool then Next (d, s) else Stop (d, s))) with (write_body (D:=D) bs data).
  rewrite Efe'. run_monad. by destruct Hr as [-> | ->].
Qed.

Lemma geometry_with_device fs sb d' :
  geometry_ok fs sb → geometry_ok (FileSystem.with_device fs d') sb.
Proof. by intros []. Qed.

(** The inode of a number in range lies in its table, apart from the file. *)
Lemma inode_apart fs sb i addrs n a :
  fs_ok fs sb → file_ok fs sb i addrs → inode_in fs sb n → a ∈ addrs →
  let x := inode_address fs sb (inode_group sb n) (inode_index sb n) in
  0 ≤ x ∧ x + size_of Inode.t ≤ zlen (fs_image fs) ∧
  ((a + 1) * FileSystem.block_size fs ≤ x ∨ x + size_of Inode.t ≤ a * FileSystem.block_size fs).
Proof.
  intros Hfs Hfi Hn Ha x. destruct (inode_location_in fs sb Hfs n Hn) as (_ & Hg & Hl).
  destruct (inode_address_bounds fs sb Hfs _ _ Hg Hl) as [Hlo Hhi]. fold x in Hlo, Hhi.
  destruct (fo_table fs sb Hfs _ Hg) as [Ht Hcap]. pose proof (block_size_bounds fs sb Hfs) as Hbs.
  destruct (fi_apart fs sb i addrs Hfi a _ Ha Hg) as [_ Hx]. cbn zeta in Hx.
  split_and!; [nia|lia|].
  destruct Hx as [Hx|Hx]; [left|right];
    apply (Z.mul_le_mono_nonneg_r _ _ (FileSystem.block_size fs)) in Hx; lia.
Qed.

Lemma write_file_ok fs sb v addrs data :
  fs_ok fs sb → geometry_ok fs sb → file_ok fs sb (inode v) addrs → inode_in fs sb (inode_number v) →
  Bitmap.is_used (inode_bitmap_bytes fs (inode_group sb (inode_number v)))
    (inode_index sb (inode_number v)) = Some true →
  Inode.is_file (inode v) = true → bytes_ok data → zlen data < 2 ^ 32 →
  zlen data ≤ zlen addrs * FileSystem.block_size fs →
  let i := Inode.set_size_low (zlen data) (inode v) in
  ∃ fs', Ext2Vfs.write_file fs v data =
      Ret (true, {| inode_number := inode_number v; inode := i |}, fs') ∧
    fs_ok fs' sb ∧ geometry_ok fs' sb ∧ FileSystem.block_size fs' = FileSystem.block_size fs ∧
    FileSystem.read_inode fs' (inode_number v) = Ret (Some i) ∧
    zlen (fs_image fs') = zlen (fs_image fs) ∧
    (∀ j a, addrs !! j = Some a → Z.of_nat j * FileSystem.block_size fs < zlen data →
       read_at (a * FileSystem.block_size fs) (FileSystem.block_size fs) (fs_image fs') =
       chunk (FileSystem.block_size fs) data (Z.of_nat j)).
Proof.
  intros Hfs Hge Hfi Hn Hu Hfile Hd Hlen Hfit i. set (n := inode_number v) in *.
  destruct (iter_write fs sb (inode v) addrs data) as (d1 & Ei & Hds1 & Hl1 & Hblk & Hfr); try done || lia.
  set (fs1 := FileSystem.with_device fs d1) in *.
  assert (fs_ok fs1 sb) as Hfs1 by (by apply with_device_ok).
  pose proof (geometry_with_device fs sb d1 Hge) as Hge1. fold fs1 in Hge1.
  destruct (inode_location_in fs sb Hfs n Hn) as (_ & Hg & _).
  assert (inode_bitmap_bytes fs1 (inode_group sb n) = inode_bitmap_bytes fs (inode_group sb n)) as Hbm.
  { pose proof (proj1 (block_size_bounds fs sb Hfs)). destruct (fo_bitmap fs sb Hfs _ Hg) as [Hb0 _].
    apply (Hfr (BlockGroupDescriptor.inode_bitmap (group fs (inode_group sb n)) * FileSystem.block_size fs));
      [nia|change (0 ≤ FileSystem.block_size fs); lia|]. intros a Ha. destruct (fi_apart fs sb _ addrs Hfi a _ Ha Hg) as [Hne _].
    cbn zeta in Hne. by apply blocks_apart. }
  assert (lvalid (layout_of Inode.t) i) as Hv.
  { apply set_size_low_valid; [apply (fi_valid fs sb _ addrs Hfi)|]. unfold zlen in *. split; lia. }
  destruct (write_inode_ok fs1 sb Hfs1 n i Hn Hv ltac:(by rewrite Hbm)) as (d2 & Ew & Hds2 & Him2).
  destruct (write_inode_frame fs1 sb n i d2) as (Hfs2 & Hge2 & Hbm2 & Hrd); try done.
  exists (FileSystem.with_device fs1 d2).
  split_and!; try done.
  - unfold Ext2Vfs.write_file. rewrite Hfile. run_monad. cbn [assert_]. run_monad. rewrite Ei. run_monad.
    rewrite Z.min_l by lia. rewrite Z.eqb_refl. cbn [assert_]. run_monad.
    assert (wrap 32 (zlen data) = zlen data) as -> by (apply Z.mod_small; unfold zlen in *; lia).
    fold i n. rewrite Ew. done.
  - rewrite (read_inode_ok (FileSystem.with_device fs1 d2) sb Hfs2 n Hn).
    rewrite Hbm2, Hbm, Hu by done. change (fs_image (FileSystem.with_device fs1 d2)) with (image d2).
    pose proof (Hrd n Hn) as Hr. rewrite decide_True in Hr by done. by rewrite <-Hr.
  - change (zlen (image d2) = zlen (fs_image fs)). rewrite Him2, length_write_at; [done|..];
      rewrite ?zlen_to_bytes by done; change (fs_image fs1) with (image d1) in *; rewrite ?Hl1;
      destruct (fo_table fs sb Hfs _ Hg); destruct (inode_location_in fs sb Hfs n Hn) as (_ & _ & Hl);
      destruct (inode_address_bounds fs sb Hfs _ _ Hg Hl); pose proof (block_size_bounds fs sb Hfs);
      change (inode_address fs1 sb) with (inode_address fs sb); nia.
  - intros j a Hj Hlt. rewrite <-(Hblk j a Hj Hlt).
    assert (a ∈ addrs) as Ha by (by apply list_elem_of_lookup_2 in Hj).
    change (fs_image (FileSystem.with_device fs1 d2)) with (image d2). rewrite Him2.
    destruct (inode_apart fs sb (inode v) addrs n a) as (Hx0 & Hx1 & Hx2); try done.
    destruct (fi_in fs sb _ addrs Hfi a Ha). pose proof (block_size_bounds fs sb Hfs).
    apply read_write_other; rewrite ?zlen_to_bytes by done;
      change (inode_address fs1 sb) with (inode_address fs sb);
      change (fs_image fs1) with (image d1); rewrite ?Hl1; try nia.
Qed.

(** Copying the next piece of [data] behind the part already copied. *)
Lemma write_at_extend data buffer p m :
  0 ≤ p → 0 ≤ m → p + m ≤ zlen data → zlen data ≤ zlen buffer →
  write_at p (read_at p m data) (write_at 0 (read_at 0 p data) buffer) =
  write_at 0 (read_at 0 (p + m) data) buffer.
Proof.
  intros Hp Hm Hd Hb. pose proof (length_read_at 0 p data ltac:(lia) Hp ltac:(lia)) as L1.
  pose proof (length_read_at p m data Hp Hm ltac:(lia)) as L2.
  pose proof (length_read_at 0 (p + m) data ltac:(lia) ltac:(lia) ltac:(lia)) as L3.
  apply list_eq. intros j. rewrite (write_at_lookup p) by (rewrite ?length_write_at; lia).
  rewrite !write_at_lookup by lia. unfold zlen in *.
  repeat case_decide; try lia; rewrite ?read_at_lookup by lia; try done; f_equal; lia.
Qed.

Lemma read_turn_ok fs v addrs rest data buffer k a :
  let bs := FileSystem.block_size fs in
  block_size_ok (FileSystem.device fs) bs → zlen (fs_image fs) < 2 ^ 48 →
  Inode.direct_blocks (inode v) = addrs ++ rest →
  0 ≤ k → addrs !! Z.to_nat k = Some a → 0 ≤ a → (a + 1) * bs ≤ zlen (fs_image fs) →
  read_at (a * bs) bs (fs_image fs) = chunk bs data k →
  k * bs < zlen data → zlen data ≤ zlen buffer → zlen buffer < 2 ^ 63 →
  Ext2Vfs.read_turn fs v bs (zlen data) k (write_at 0 (read_at 0 (k * bs) data) buffer, k * bs, k * bs) =
  let p := Z.min (zlen data) ((k + 1) * bs) in
  Ret (write_at 0 (read_at 0 p data) buffer, p, p).
Proof.
  intros bs Hbs Hcap Hdir Hk Ha Ha0 Hin Hch Hlt Hbuf Hbl. pose proof (proj1 Hbs) as Hb0.
  destruct (read_blocks_ok (FileSystem.device fs) bs a 1) as (b & Eb & Hbd & _); try done || lia.
  rewrite Z.mul_1_l in Hbd. fold (fs_image fs) in Hbd. rewrite Hch in Hbd.
  unfold Ext2Vfs.read_turn, FileSystem.read_inode_block. rewrite Hdir.
  rewrite lookup_app_l, Ha by (by eapply lookup_lt_Some). fold bs. rewrite Eb. run_monad.
  unfold urem. destruct (Z.eqb_spec bs 0); [lia|]. run_monad. rewrite Z.mod_mul by lia.
  rewrite usub_ok by lia. run_monad. set (m := Z.min bs (zlen data - k * bs)).
  unfold slice_range. rewrite Hbd, chunk_length, Z.sub_0_r by lia.
  destruct (Z.leb_spec 0 m); [|lia]. destruct (Z.leb_spec m bs); [|lia]. cbn [andb]. run_monad.
  rewrite read_chunk by lia. pose proof (length_read_at (k * bs) m data) as Hlm.
  pose proof (length_read_at 0 (k * bs) data) as Hl0.
  unfold copy_range. rewrite Hlm, length_write_at by lia.
  destruct (Z.leb_spec (k * bs + m) (zlen buffer)); [|lia]. run_monad.
  rewrite uadd_ok by lia. run_monad. rewrite write_at_extend by lia.
  replace (Z.min (zlen data) ((k + 1) * bs)) with (k * bs + m) by lia. done.
Qed.

Lemma read_file_ok fs sb v addrs rest data buffer :
  let bs := FileSystem.block_size fs in
  fs_ok fs sb → Inode.is_file (inode v) = true → Inode.direct_blocks (inode v) = addrs ++ rest →
  (∀ a, a ∈ addrs → 0 < a ∧ (a + 1) * bs ≤ zlen (fs_image fs)) →
  (∀ j a, addrs !! j = Some a → Z.of_nat j * bs < zlen data →
     read_at (a * bs) bs (fs_image fs) = chunk bs data (Z.of_nat j)) →
  Superblock.file_size sb (inode v) = zlen data → zlen data ≤ zlen addrs * bs →
  zlen data ≤ zlen buffer → zlen buffer < 2 ^ 63 →
  Ext2Vfs.read_file fs v buffer 0 = Ret (Done (zlen data), write_at 0 data buffer).
Proof.
  intros bs Hfs Hfile Hdir Hin Hch Hsz Hfit Hbuf Hbl. pose proof (block_size_bounds fs sb Hfs) as Hbs.
  fold bs in Hbs. assert (0 ≤ zlen data) as Hd0 by (unfold zlen; lia).
  unfold Ext2Vfs.read_file. rewrite Hfile. run_monad. cbn [assert_]. run_monad.
  rewrite (superblock_ok fs sb Hfs). run_monad. rewrite (fo_block_size fs sb Hfs). run_monad. fold bs.
  rewrite uadd_ok by lia. run_monad. rewrite Hsz, Z.min_l by lia.
  unfold udiv, udiv_ceil. destruct (Z.eqb_spec bs 0) as [|_]; [lia|]. run_monad. rewrite Z.div_0_l by lia.
  set (n := div_ceil (zlen data) bs). pose proof (div_ceil_spec (zlen data) bs ltac:(lia)) as Hn. fold n in Hn.
  destruct (foldM_inv (Ext2Vfs.read_turn fs v bs (zlen data))
    (λ done s, let p := Z.min (zlen data) (zlen done * bs) in
       s = (write_at 0 (read_at 0 p data) buffer, p, p)) (range 0 n) (buffer, 0, 0)) as (s & Es & Hs).
  - change (zlen (@nil Z)) with 0. rewrite Z.mul_0_l, Z.min_r by done.
    change (read_at 0 0 data) with (@nil Z). done.
  - intros done_ k todo s Hsplit Hs. apply range_split_at in Hsplit as (Ek & Hkn & -> & _).
    rewrite zlen_range, Z.sub_0_r, Z.min_r in Hs by nia.
    destruct (lookup_lt_is_Some_2 addrs (Z.to_nat k)) as [a Ha]; [unfold zlen in *; nia|].
    destruct (Hin a) as [Ha0 Hain]; [by eapply list_elem_of_lookup_2|].
    eexists. split; [rewrite Hs; apply (read_turn_ok fs v addrs rest data buffer k a); try done || lia|].
    + apply (fo_device fs sb Hfs).
    + apply (fo_capacity fs sb Hfs).
    + replace k with (Z.of_nat (Z.to_nat k)) by lia. apply Hch; [done|nia].
    + nia.
    + by rewrite zlen_app, zlen_range, Z.sub_0_r by lia.
  - rewrite Es, Hs. run_monad. rewrite Z.eqb_refl. rewrite zlen_range, Z.sub_0_r, Z.min_l by nia.
    by rewrite read_at_all.
Qed.

End files.

(** ** On the small disk *)
Section demo_files.
#[local] Existing Instances ram_driver ram_laws documented_zerocopy documented_zerocopy_laws
  documented_bitflags.

Definition demo_vfs_file : VFSInode := {| inode_number := 3; inode := demo_file |}.

Lemma demo_file_ok : file_ok demo_fs demo_mounted_superblock demo_file [8].
Proof.
  split.
  - apply lvalid_by_eval; vm_compute; reflexivity.
  - by eexists.
  - vm_compute. done.
  - vm_compute. reflexivity.
  - apply NoDup_singleton.
  - intros a ->%list_elem_of_singleton. vm_compute. done.
  - intros a g ->%list_elem_of_singleton ->%demo_groups. vm_compute. split; [done|by right].
Qed.


(** reading from an offset that is not a multiple of the block size is wrong:
    for the file [Hello], three bytes from offset 1 are reported as read although
    only two are copied, and three bytes from offset 3, or from an offset behind
    the end of the file, stop the kernel. *)
Theorem read_at_offset :
  Ext2Vfs.read_file demo_fs demo_vfs_file [0; 0; 0] 1 = Ret (Success, str "el" ++ [0]) ∧
  Ext2Vfs.read_file demo_fs demo_vfs_file [0; 0; 0] 3 = Panic PanicIndex ∧
  Ext2Vfs.read_file demo_fs demo_vfs_file [0; 0; 0] 6 = Panic PanicOverflow.
Proof. split_and!; vm_compute; reflexivity. Qed.

(** a new file can be given a block that is in use: block bitmap indices count
    from the first block of the group, but [create_file] takes the index for a
    block address, so on a disk of 1 KiB blocks it hands out the block of the file
    [hello]. *)
Theorem create_file_shares_block :
  match FileSystem.create_file demo_fs demo_root 2 (str "foo") with
  | Ret (Some (i, 4), _) => Inode.direct_blocks i = Inode.direct_blocks demo_file
  | _ => False
  end.
Proof. vm_compute. reflexivity. Qed.
End demo_files.
