(* ===== verification/VirtQueue.v ===== *)
(** * Virtqueues ([kernel/src/virtio/queue.rs], [kernel/src/registers.rs])

    The driver's side of a split virtqueue.  The three rings live in buffers of
    their own, so the arrays in them ([VolatileArrayRW]) are lists that the
    driver reads and writes by index and the device shares; [Device] holds the
    moves of the device that the specification allows.  Descriptor flags are the
    fields of their bitfield. *)
From S2P Require Import Prelude AllocSpec External Addr PhysMem.
#[local] Open Scope Z_scope.

(** ** [VolatileArrayRW] *)
Module VolatileArrayRW.
Section array.
Context {T : Type}.

Definition len (a : list T) : Z := zlen a.

Definition read (a : list T) (i : Z) : outcome T :=
  _ ← assert_ (i <? len a); index a i.

Definition write (a : list T) (i : Z) (val : T) : outcome (list T) :=
  _ ← assert_ (i <? len a); index_set a i val.

Definition modify_mut (a : list T) (i : Z) (f : T → T) : outcome (list T) :=
  val ← read a i; write a i (f val).
End array.
End VolatileArrayRW.

(** ** Indices *)
Module WrappingIndex.
Definition increment (self : Z) : Z := wrapping_add 16 self 1.

Definition to_elem_index (self queue_size : Z) : outcome Z :=
  _ ← assert_ (is_power_of_two queue_size);
  urem self queue_size.
End WrappingIndex.

(** ** Descriptors *)
Record VirtQueueDescriptorFlags : Type := {
  flag_next : bool;
  device_write : bool;
  indirect : bool;
}.

Definition flags_new : VirtQueueDescriptorFlags :=
  {| flag_next := false; device_write := false; indirect := false |}.
Definition with_device_write (b : bool) (f : VirtQueueDescriptorFlags) : VirtQueueDescriptorFlags :=
  {| flag_next := flag_next f; device_write := b; indirect := indirect f |}.
Definition set_next (b : bool) (f : VirtQueueDescriptorFlags) : VirtQueueDescriptorFlags :=
  {| flag_next := b; device_write := device_write f; indirect := indirect f |}.

Record ChainedVirtQueueDescriptorElem : Type := {
  addr : Z;
  elem_len : Z;
  flags : VirtQueueDescriptorFlags;
}.

Record RawVirtQueueDescriptor : Type := {
  raw_addr : Z;
  raw_len : Z;
  raw_flags : VirtQueueDescriptorFlags;
  raw_next : Z;
}.

Record VirtQueueUsedElem : Type := { id : Z; used_len : Z }.

(** [u16::try_from(self.id)] *)
Definition desc_index (e : VirtQueueUsedElem) : outcome Z :=
  if id e <? 2 ^ 16 then Ret (id e) else Panic PanicExplicit.

(** ** The descriptor table *)
Module VirtQueueDescriptorTable.
Record t : Type := mk {
  buffer : PageRange;
  raw_next_index : Z;
  descriptors : list RawVirtQueueDescriptor;
}.

Definition SIZE_OF_DESCRIPTOR : Z := 16.

(** The table of [n] descriptors in zeroed memory. *)
Definition zeroed (n : Z) : list RawVirtQueueDescriptor :=
  replicate (Z.to_nat n) {| raw_addr := 0; raw_len := 0; raw_flags := flags_new; raw_next := 0 |}.

Definition allocate {x86 : X86_64} {A} {CA : ContiguousAllocator A} (queue_size : Z)
  (st : store * option A) : outcome (result t AllocError * (store * option A)) :=
  _ ← assert_ (is_power_of_two queue_size);
  mem_size ← umul 64 SIZE_OF_DESCRIPTOR queue_size;
  spec_size ← umul 64 16 queue_size;
  _ ← assert_ (mem_size =? spec_size);
  '(r, st) ← PhysicalBuffer.allocate_zeroed mem_size st;
  match r with
  | Err e => mret (Err e, st)
  | Ok buffer => mret (Ok (mk buffer 0 (zeroed queue_size)), st)
  end.

(** [fetch_add(1)] *)
Definition next_index (self : t) : Z * t :=
  (raw_next_index self, mk (buffer self) (wrapping_add 16 (raw_next_index self) 1) (descriptors self)).

Definition with_descriptors (self : t) (ds : list RawVirtQueueDescriptor) : t :=
  mk (buffer self) (raw_next_index self) ds.

(** One turn of the loop of [add_descriptor]. *)
Definition add_one (self : t) (first_idx prev_idx : option Z) (desc : ChainedVirtQueueDescriptorElem)
  : outcome (t * option Z * option Z) :=
  let '(wi, self) := next_index self in
  idx ← WrappingIndex.to_elem_index wi (wrap 16 (VolatileArrayRW.len (descriptors self)));
  let first_idx := match first_idx with Some i => Some i | None => Some idx end in
  ds ← (match prev_idx with
        | Some prev_index =>
            VolatileArrayRW.modify_mut (descriptors self) prev_index (λ d,
              {| raw_addr := raw_addr d; raw_len := raw_len d;
                 raw_flags := set_next true (raw_flags d); raw_next := idx |})
        | None => mret (descriptors self)
        end);
  _ ← assert_ (negb (indirect (flags desc)));
  let descriptor := {| raw_addr := addr desc; raw_len := elem_len desc;
                       raw_flags := flags desc; raw_next := 0 |} in
  ds ← VolatileArrayRW.write ds idx descriptor;
  mret (with_descriptors self ds, first_idx, Some idx).

Fixpoint add_loop (self : t) (first_idx prev_idx : option Z) (descs : list ChainedVirtQueueDescriptorElem)
  : outcome (t * option Z) :=
  match descs with
  | [] => mret (self, first_idx)
  | desc :: descs =>
      '(self, first_idx, prev_idx) ← add_one self first_idx prev_idx desc;
      add_loop self first_idx prev_idx descs
  end.

Definition add_descriptor (self : t) (descs : list ChainedVirtQueueDescriptorElem) : outcome (Z * t) :=
  '(self, first_idx) ← add_loop self None None descs;
  i ← expect first_idx;
  mret (i, self).

Definition get_descriptor (self : t) (i : Z) : outcome RawVirtQueueDescriptor :=
  VolatileArrayRW.read (descriptors self) i.
End VirtQueueDescriptorTable.

(** ** The chain iterator

    Its state is the current index; it borrows the table. *)
Module ChainIterator.
Definition next (table : VirtQueueDescriptorTable.t) (current_index : option Z)
  : outcome (option ChainedVirtQueueDescriptorElem * option Z) :=
  match current_index with
  | None => mret (None, None)
  | Some i =>
      d ← VirtQueueDescriptorTable.get_descriptor table i;
      let current_index := if flag_next (raw_flags d) then Some (raw_next d) else None in
      mret (Some {| addr := raw_addr d; elem_len := raw_len d; flags := raw_flags d |}, current_index)
  end.

(** All of the elements; a cycle of descriptors has no end. *)
Fixpoint collect (fuel : nat) (table : VirtQueueDescriptorTable.t) (current_index : option Z)
  : outcome (list ChainedVirtQueueDescriptorElem) :=
  match fuel with
  | O => Diverge
  | S fuel =>
      '(e, current_index) ← next table current_index;
      match e with
      | None => mret []
      | Some e => es ← collect fuel table current_index; mret (e :: es)
      end
  end.
End ChainIterator.

(** ** The rings *)
Module VirtQueueAvailRing.
Record t : Type := mk { buffer : PageRange; idx : Z; ring : list Z }.

(** [idx_offset], [ring_offset], [used_event_offset], [struct_size] *)
Definition layout (queue_size : Z) : outcome (Z * Z * Z * Z) :=
  let idx_offset := 2 in
  ring_offset ← uadd 64 idx_offset 2;
  ring_len ← umul 64 queue_size 2;
  used_event_offset ← uadd 64 ring_offset ring_len;
  struct_size ← uadd 64 used_event_offset 2;
  mret (idx_offset, ring_offset, used_event_offset, struct_size).

Definition allocate {x86 : X86_64} {A} {CA : ContiguousAllocator A} (queue_size : Z)
  (st : store * option A) : outcome (result t AllocError * (store * option A)) :=
  '(idx_offset, ring_offset, used_event_offset, struct_size) ← layout queue_size;
  _ ← assert_ (struct_size =? 6 + 2 * queue_size);
  '(r, st) ← PhysicalBuffer.allocate_zeroed struct_size st;
  match r with
  | Err e => mret (Err e, st)
  | Ok buffer =>
      let a := start_addr (start buffer) in
      _ ← KernPhysAddr.add a 0;
      _ ← KernPhysAddr.add a idx_offset;
      _ ← KernPhysAddr.add a ring_offset;
      _ ← KernPhysAddr.add a used_event_offset;
      mret (Ok (mk buffer 0 (replicate (Z.to_nat queue_size) 0)), st)
  end.

Definition add_entry (self : t) (desc_index : Z) : outcome t :=
  i ← urem (idx self) (wrap 16 (VolatileArrayRW.len (ring self)));
  ring ← VolatileArrayRW.write (ring self) i desc_index;
  mret (mk (buffer self) (WrappingIndex.increment (idx self)) ring).
End VirtQueueAvailRing.

Module VirtQueueUsedRing.
Record t : Type := mk { buffer : PageRange; idx : Z; ring : list VirtQueueUsedElem }.

Definition layout (queue_size : Z) : outcome (Z * Z * Z * Z) :=
  let idx_offset := 2 in
  ring_offset ← uadd 64 idx_offset 2;
  ring_len ← umul 64 queue_size 8;
  avail_event_offset ← uadd 64 ring_offset ring_len;
  struct_size ← uadd 64 avail_event_offset 2;
  mret (idx_offset, ring_offset, avail_event_offset, struct_size).

Definition allocate {x86 : X86_64} {A} {CA : ContiguousAllocator A} (queue_size : Z)
  (st : store * option A) : outcome (result t AllocError * (store * option A)) :=
  '(idx_offset, ring_offset, avail_event_offset, struct_size) ← layout queue_size;
  _ ← assert_ (struct_size =? 6 + 8 * queue_size);
  '(r, st) ← PhysicalBuffer.allocate_zeroed struct_size st;
  match r with
  | Err e => mret (Err e, st)
  | Ok buffer =>
      let a := start_addr (start buffer) in
      _ ← KernPhysAddr.add a 0;
      _ ← KernPhysAddr.add a idx_offset;
      _ ← KernPhysAddr.add a ring_offset;
      _ ← KernPhysAddr.add a avail_event_offset;
      mret (Ok (mk buffer 0 (replicate (Z.to_nat queue_size) {| id := 0; used_len := 0 |})), st)
  end.

Definition get_used_elem (self : t) (i : Z) : outcome VirtQueueUsedElem :=
  elem_idx ← WrappingIndex.to_elem_index i (wrap 16 (VolatileArrayRW.len (ring self)));
  VolatileArrayRW.read (ring self) elem_idx.
End VirtQueueUsedRing.

(** ** The queue *)
Module VirtQueue.
Record t : Type := mk {
  queue_index : Z;
  notify_offset : Z;
  descriptors : VirtQueueDescriptorTable.t;
  avail_ring : VirtQueueAvailRing.t;
  used_ring : VirtQueueUsedRing.t;
  last_processed_used_index : Z;
}.

Definition new (index notify_offset : Z) (descriptors : VirtQueueDescriptorTable.t)
  (avail_ring : VirtQueueAvailRing.t) (used_ring : VirtQueueUsedRing.t) : t :=
  mk index notify_offset descriptors avail_ring used_ring 0.

(** The used element and the head of its chain. *)
Definition get_used_ring_entry (self : t) (i : Z) : outcome (VirtQueueUsedElem * option Z) :=
  used_elem ← VirtQueueUsedRing.get_used_elem (used_ring self) i;
  idx ← desc_index used_elem;
  mret (used_elem, Some idx).

Definition with_last_processed (self : t) (i : Z) : t :=
  mk (queue_index self) (notify_offset self) (descriptors self) (avail_ring self) (used_ring self) i.

(** [process_new_entries]; the callback threads a state of its own. *)
Definition process_new_entries {St} (self : t)
  (f : VirtQueueUsedElem → option Z → St → outcome St) (s : St) : outcome (t * St) :=
  let used_index := VirtQueueUsedRing.idx (used_ring self) in
  s ← foldM (λ i s, '(used_elem, chain) ← get_used_ring_entry self i; f used_elem chain s)
        (range (last_processed_used_index self) used_index) s;
  mret (with_last_processed self used_index, s).
End VirtQueue.

Module VirtQueueData.
Record t {D : Type} : Type := mk {
  data : list (option D);
  queue : VirtQueue.t;
}.
Arguments t D : clear implicits.
Arguments mk {D} _ _.

Section queue_data.
Context {D : Type}.

Definition new (queue : VirtQueue.t) : t D :=
  mk (replicate (length (VirtQueueDescriptorTable.descriptors (VirtQueue.descriptors queue))) None) queue.

Definition add_buffer (self : t D) (descs : list ChainedVirtQueueDescriptorElem) (d : D) : outcome (t D) :=
  let q := queue self in
  '(desc_index, table) ← VirtQueueDescriptorTable.add_descriptor (VirtQueue.descriptors q) descs;
  previous_data ← index (data self) desc_index;
  data ← index_set (data self) desc_index (Some d);
  _ ← assert_ (match previous_data with None => true | Some _ => false end);
  avail ← VirtQueueAvailRing.add_entry (VirtQueue.avail_ring q) desc_index;
  mret (mk data (VirtQueue.mk (VirtQueue.queue_index q) (VirtQueue.notify_offset q) table avail
                   (VirtQueue.used_ring q) (VirtQueue.last_processed_used_index q))).

(** The callback gets the used element, the chain and the data taken out of the
    slot. *)
Definition process_new_entries {St} (self : t D)
  (f : VirtQueueUsedElem → option Z → option D → St → outcome St) (s : St) : outcome (t D * St) :=
  '(q, (data, s)) ← VirtQueue.process_new_entries (queue self) (λ used_entry chain '(data, s),
      i ← desc_index used_entry;
      d ← index data i;
      data ← index_set data i None;
      s ← f used_entry chain d s;
      mret (data, s)) (data self, s);
  mret (mk data q, s).
End queue_data.
End VirtQueueData.

(** ** The device's side

    The device takes the next entry of the available ring and, when it is done
    with the chain, puts it into the used ring with the number of bytes it
    wrote.  [seen] counts the entries it has taken. *)
Module Device.
Definition consume {D} (self : VirtQueueData.t D) (seen len : Z) : outcome (VirtQueueData.t D) :=
  let q := VirtQueueData.queue self in
  let avail := VirtQueue.avail_ring q in
  let used := VirtQueue.used_ring q in
  head ← VolatileArrayRW.read (VirtQueueAvailRing.ring avail)
           (seen mod VolatileArrayRW.len (VirtQueueAvailRing.ring avail));
  ring ← VolatileArrayRW.write (VirtQueueUsedRing.ring used)
           (VirtQueueUsedRing.idx used mod VolatileArrayRW.len (VirtQueueUsedRing.ring used))
           {| id := head; used_len := len |};
  mret (VirtQueueData.mk (VirtQueueData.data self)
    (VirtQueue.mk (VirtQueue.queue_index q) (VirtQueue.notify_offset q) (VirtQueue.descriptors q) avail
       (VirtQueueUsedRing.mk (VirtQueueUsedRing.buffer used)
          (WrappingIndex.increment (VirtQueueUsedRing.idx used)) ring)
       (VirtQueue.last_processed_used_index q))).
End Device.
