(* ===== verification/VirtQueueThms.v ===== *)
(** * Virtqueues: what the driver and the device exchange

    [rep] relates a queue to the requests that are under way.  Adding a buffer,
    a completion by the device and the processing of the used ring refine a FIFO
    of requests as long as no more descriptors are in flight than the queue has,
    and as long as the used index does not wrap around while entries wait. *)
From S2P Require Import Prelude AllocSpec External Addr PhysMem VirtQueue.
#[local] Open Scope Z_scope.

Abbreviation elem := ChainedVirtQueueDescriptorElem.
Abbreviation raw := RawVirtQueueDescriptor.
Abbreviation table_of q := (VirtQueueDescriptorTable.descriptors (VirtQueue.descriptors q)).

(** ** Indices modulo the queue size *)
Definition queue_size_ok (N : Z) : Prop := ∃ k, 0 ≤ k < 16 ∧ N = 2 ^ k.

Lemma queue_size_bounds N : queue_size_ok N → 0 < N < 2 ^ 16 ∧ is_power_of_two N = true ∧ (N | 2 ^ 16).
Proof.
  intros (k & Hk & ->). split_and!.
  - apply Z.pow_pos_nonneg; lia.
  - apply Z.pow_lt_mono_r; lia.
  - apply is_power_of_two_pow. lia.
  - exists (2 ^ (16 - k)). rewrite <-Z.pow_add_r by lia. f_equal. lia.
Qed.

Lemma mod_window N x y : 0 < N → x < y < x + N → x mod N ≠ y mod N.
Proof.
  intros HN Hxy E. assert ((y - x) mod N = 0) as H0.
  { rewrite Zminus_mod, E, Z.sub_diag. by apply Z.mod_0_l; lia. }
  rewrite Z.mod_small in H0; lia.
Qed.

Lemma wrap_mod N x : queue_size_ok N → wrap 16 x mod N = x mod N.
Proof.
  intros HN. destruct (queue_size_bounds N HN) as (? & _ & [k Hk]). unfold wrap.
  rewrite Hk, (Z.mul_comm k N). rewrite Z.rem_mul_r by nia.
  rewrite (Z.mul_comm N ((x `div` N) mod k)), Z.mod_add, Z.mod_mod by lia. done.
Qed.

Lemma wrap_succ x : wrapping_add 16 (wrap 16 x) 1 = wrap 16 (x + 1).
Proof. unfold wrapping_add, wrap. by rewrite Zplus_mod_idemp_l. Qed.

Lemma to_elem_index_ok N x : queue_size_ok N → WrappingIndex.to_elem_index (wrap 16 x) N = Ret (x mod N).
Proof.
  intros HN. destruct (queue_size_bounds N HN) as (? & Hp & _). unfold WrappingIndex.to_elem_index.
  rewrite Hp. run_monad. cbn [assert_]. run_monad. unfold urem.
  destruct (Z.eqb_spec N 0); [lia|]. by rewrite wrap_mod.
Qed.

Lemma mod_to_nat N x : 0 < N → (Z.to_nat (x mod N) < Z.to_nat N)%nat.
Proof. intros. pose proof (Z.mod_pos_bound x N). lia. Qed.

Lemma mod_nat_ne N x y : 0 < N → x mod N ≠ y mod N → Z.to_nat (x mod N) ≠ Z.to_nat (y mod N).
Proof. intros. pose proof (Z.mod_pos_bound x N). pose proof (Z.mod_pos_bound y N). lia. Qed.

(** Reading and writing an array of [N] elements at an index modulo [N]. *)
Section arrays.
Context {T : Type} (N : Z) (HN : queue_size_ok N).

Definition at_mod (a : list T) (x : Z) : option T := a !! Z.to_nat (x mod N).

Lemma index_mod (a : list T) x v : at_mod a x = Some v → index a (x mod N) = Ret v.
Proof. intros. by apply index_ret_inv. Qed.

Lemma index_set_mod (a : list T) x v :
  zlen a = N → index_set a (x mod N) v = Ret (<[Z.to_nat (x mod N) := v]> a).
Proof.
  intros Ha. destruct (queue_size_bounds N HN) as (? & _). pose proof (Z.mod_pos_bound x N ltac:(lia)).
  apply index_set_ret_inv. split; [|done]. unfold zlen in Ha. lia.
Qed.

Lemma array_write_ok (a : list T) x v :
  zlen a = N → VolatileArrayRW.write a (x mod N) v = Ret (<[Z.to_nat (x mod N) := v]> a).
Proof.
  intros Ha. destruct (queue_size_bounds N HN) as (? & _). pose proof (Z.mod_pos_bound x N ltac:(lia)).
  unfold VolatileArrayRW.write, VolatileArrayRW.len. rewrite Ha.
  destruct (Z.ltb_spec (x mod N) N); [|lia]. cbn [assert_]. run_monad. by apply index_set_mod.
Qed.

Lemma array_read_ok (a : list T) x v : zlen a = N → at_mod a x = Some v → VolatileArrayRW.read a (x mod N) = Ret v.
Proof.
  intros Ha Hv. destruct (queue_size_bounds N HN) as (? & _). pose proof (Z.mod_pos_bound x N ltac:(lia)).
  unfold VolatileArrayRW.read, VolatileArrayRW.len. rewrite Ha.
  destruct (Z.ltb_spec (x mod N) N); [|lia]. cbn [assert_]. run_monad. by apply index_ret_inv.
Qed.

Lemma at_mod_insert (a : list T) x v : zlen a = N → at_mod (<[Z.to_nat (x mod N) := v]> a) x = Some v.
Proof.
  intros Ha. destruct (queue_size_bounds N HN) as (? & _). apply list_lookup_insert_eq.
  pose proof (mod_to_nat N x). unfold zlen in Ha. lia.
Qed.

Lemma at_mod_insert_ne (a : list T) x y v :
  x < y < x + N ∨ y < x < y + N → at_mod (<[Z.to_nat (x mod N) := v]> a) y = at_mod a y.
Proof.
  intros Hxy. destruct (queue_size_bounds N HN) as (? & _). apply list_lookup_insert_ne.
  apply mod_nat_ne; [lia|]. destruct Hxy; [by apply mod_window; lia|].
  intros E. symmetry in E. revert E. apply mod_window; lia.
Qed.

Lemma at_mod_some (a : list T) x : zlen a = N → is_Some (at_mod a x).
Proof.
  intros Ha. destruct (queue_size_bounds N HN) as (? & _). apply lookup_lt_is_Some.
  pose proof (mod_to_nat N x). unfold zlen in Ha. lia.
Qed.

Lemma at_mod_shift (a : list T) x : at_mod a (x + N) = at_mod a x.
Proof.
  destruct (queue_size_bounds N HN) as (? & _). unfold at_mod.
  by replace ((x + N) mod N) with (x mod N) by (rewrite <-(Z.mod_add x 1 N) by lia; f_equal; lia).
Qed.
End arrays.

(** ** Chains of descriptors *)
Definition last_desc (d : elem) : raw :=
  {| raw_addr := addr d; raw_len := elem_len d; raw_flags := flags d; raw_next := 0 |}.
Definition link_desc (d : elem) (n : Z) : raw :=
  {| raw_addr := addr d; raw_len := elem_len d; raw_flags := set_next true (flags d); raw_next := n |}.

Fixpoint chain_at (N : Z) (table : list raw) (s : Z) (descs : list elem) : Prop :=
  match descs with
  | [] => True
  | d :: rest =>
      at_mod N table s = Some (match rest with [] => last_desc d | _ => link_desc d ((s + 1) mod N) end) ∧
      chain_at N table (s + 1) rest
  end.

(** A descriptor the drivers build: neither chained nor indirect by itself. *)
Definition plain (d : elem) : Prop := flag_next (flags d) = false ∧ indirect (flags d) = false.

(** What the chain iterator returns for a chain. *)
Fixpoint chained (descs : list elem) : list elem :=
  match descs with
  | [] => []
  | d :: rest =>
      (match rest with
       | [] => d
       | _ => {| addr := addr d; elem_len := elem_len d; flags := set_next true (flags d) |}
       end) :: chained rest
  end.

Lemma chain_frame N table table' s descs :
  queue_size_ok N →
  (∀ x, s ≤ x < s + zlen descs → at_mod N table' x = at_mod N table x) →
  chain_at N table s descs → chain_at N table' s descs.
Proof.
  intros HN. revert s. induction descs as [|d rest IH]; intros s Hx; simpl; [done|].
  rewrite zlen_cons in Hx. pose proof (zlen_nonneg rest). intros [H1 H2]. split.
  - by rewrite Hx by lia.
  - apply IH; [|done]. intros x ?. apply Hx. lia.
Qed.

Lemma chain_collect N table s descs fuel :
  queue_size_ok N → zlen (VirtQueueDescriptorTable.descriptors table) = N → descs ≠ [] →
  Forall plain descs → chain_at N (VirtQueueDescriptorTable.descriptors table) s descs →
  (length descs < fuel)%nat →
  ChainIterator.collect fuel table (Some (s mod N)) = Ret (chained descs).
Proof.
  intros HN Hlen. revert s fuel. induction descs as [|d rest IH]; intros s fuel Hne Hpl Hc Hf; [done|].
  destruct fuel as [|fuel]; [simpl in Hf; lia|]. apply Forall_cons in Hpl as [[Hn _] Hpl].
  destruct Hc as [Hd Hc]. cbn [ChainIterator.collect ChainIterator.next].
  unfold VirtQueueDescriptorTable.get_descriptor. rewrite (array_read_ok N HN _ _ _ Hlen Hd). run_monad.
  destruct rest as [|d' rest'].
  - cbn [last_desc raw_flags raw_next raw_addr raw_len]. rewrite Hn.
    destruct fuel as [|fuel]; [simpl in Hf; lia|]. simpl. by destruct d.
  - cbn [link_desc raw_flags raw_next raw_addr raw_len set_next flag_next].
    rewrite (IH (s + 1) fuel) by (done || simpl in *; lia). done.
Qed.

(** ** Adding a chain *)
Section add.
Context (N : Z) (HN : queue_size_ok N).
Import VirtQueueDescriptorTable.

Lemma wrap_len {T} (a : list T) : zlen a = N → wrap 16 (VolatileArrayRW.len a) = N.
Proof.
  intros Ha. destruct (queue_size_bounds N HN) as (? & _). unfold VolatileArrayRW.len, wrap.
  rewrite Ha. apply Z.mod_small. lia.
Qed.

(** The first descriptor of a chain. *)
Lemma add_one_first self s d :
  zlen (descriptors self) = N → raw_next_index self = wrap 16 s → indirect (flags d) = false →
  add_one self None None d =
    Ret (mk (buffer self) (wrap 16 (s + 1)) (<[Z.to_nat (s mod N) := last_desc d]> (descriptors self)),
         Some (s mod N), Some (s mod N)).
Proof.
  intros Hl Hr Hi. unfold add_one, next_index. cbn [descriptors]. rewrite (wrap_len _ Hl), Hr.
  rewrite to_elem_index_ok by done. run_monad. rewrite Hi. cbn [negb assert_]. run_monad.
  fold (last_desc d). rewrite array_write_ok by done. run_monad. unfold with_descriptors.
  cbn [buffer raw_next_index]. by rewrite wrap_succ.
Qed.

(** The next one, linked from the one before. *)
Lemma add_one_next self s i p d :
  zlen (descriptors self) = N → raw_next_index self = wrap 16 (s + 1) → indirect (flags d) = false →
  at_mod N (descriptors self) s = Some (last_desc p) →
  add_one self (Some i) (Some (s mod N)) d =
    Ret (mk (buffer self) (wrap 16 (s + 1 + 1))
           (<[Z.to_nat ((s + 1) mod N) := last_desc d]>
              (<[Z.to_nat (s mod N) := link_desc p ((s + 1) mod N)]> (descriptors self))),
         Some i, Some ((s + 1) mod N)).
Proof.
  intros Hl Hr Hi Hp. unfold add_one, next_index. cbn [descriptors]. rewrite (wrap_len _ Hl), Hr.
  rewrite to_elem_index_ok by done. run_monad. unfold VolatileArrayRW.modify_mut.
  rewrite (array_read_ok N HN _ _ _ Hl Hp). run_monad.
  cbn [last_desc raw_addr raw_len raw_flags]. fold (link_desc p ((s + 1) mod N)).
  rewrite array_write_ok by done. run_monad. rewrite Hi. cbn [negb assert_]. run_monad.
  fold (last_desc d). rewrite array_write_ok by (done || by rewrite zlen_insert). run_monad.
  unfold with_descriptors. cbn [buffer raw_next_index]. by rewrite wrap_succ.
Qed.

(** The rest of a chain, after its descriptor [p] at slot [s]. *)
Lemma add_loop_ok descs : ∀ self s i p,
  zlen (descriptors self) = N → raw_next_index self = wrap 16 (s + 1) →
  Forall plain descs → zlen descs + 1 ≤ N →
  at_mod N (descriptors self) s = Some (last_desc p) →
  ∃ ds, add_loop self (Some i) (Some (s mod N)) descs =
          Ret (mk (buffer self) (wrap 16 (s + 1 + zlen descs)) ds, Some i) ∧
        zlen ds = N ∧ chain_at N ds s (p :: descs) ∧
        ∀ x, s + zlen descs < x < s + N → at_mod N ds x = at_mod N (descriptors self) x.
Proof.
  induction descs as [|d descs IH]; intros self s i p Hl Hr Hpl Hn Hp.
  { exists (descriptors self). simpl. rewrite zlen_nil, Z.add_0_r. destruct self; simpl in *. by subst. }
  apply Forall_cons in Hpl as [[_ Hi] Hpl]. rewrite zlen_cons in *. pose proof (zlen_nonneg descs).
  cbn [add_loop]. rewrite (add_one_next _ _ _ p) by done. run_monad.
  match goal with |- context [add_loop ?t _ _ _] => destruct (IH t (s + 1) i d) as (ds & E & El & Hc & Hx) end;
    cbn [descriptors]; rewrite ?zlen_insert; try done; [lia|apply at_mod_insert; by rewrite ?zlen_insert|].
  exists ds. cbn [buffer descriptors] in *. split_and!.
  - rewrite E. do 3 f_equal. f_equal. lia.
  - done.
  - split; [|done]. rewrite <-(at_mod_shift N HN ds), Hx by lia.
    rewrite at_mod_insert_ne by (done || lia). rewrite at_mod_shift by done. by apply at_mod_insert.
  - intros x Hx'. rewrite Hx by lia. by rewrite !at_mod_insert_ne by (done || lia).
Qed.

Lemma add_descriptor_ok self s descs :
  zlen (descriptors self) = N → raw_next_index self = wrap 16 s →
  descs ≠ [] → Forall plain descs → zlen descs ≤ N →
  ∃ ds, add_descriptor self descs = Ret (s mod N, mk (buffer self) (wrap 16 (s + zlen descs)) ds) ∧
        zlen ds = N ∧ chain_at N ds s descs ∧
        ∀ x, s + zlen descs ≤ x < s + N → at_mod N ds x = at_mod N (descriptors self) x.
Proof.
  intros Hl Hr Hne Hpl Hn. destruct descs as [|d descs]; [done|].
  apply Forall_cons in Hpl as [[_ Hi] Hpl]. rewrite zlen_cons in *. pose proof (zlen_nonneg descs).
  unfold add_descriptor. cbn [add_loop]. rewrite (add_one_first _ s) by done. run_monad.
  match goal with |- context [add_loop ?t _ _ _] =>
    destruct (add_loop_ok descs t s (s mod N) d) as (ds & E & El & Hc & Hx) end;
    cbn [descriptors]; rewrite ?zlen_insert; try done; [by apply at_mod_insert|].
  exists ds. cbn [buffer descriptors] in *. rewrite E. run_monad. cbn [expect]. run_monad. split_and!.
  - do 3 f_equal. f_equal. lia.
  - done.
  - done.
  - intros x Hx'. rewrite Hx by lia. by rewrite at_mod_insert_ne by (done || lia).
Qed.
End add.

(** ** The requests under way

    A request is a chain and the data kept for it.  [p] counts the requests
    processed so far, [s] is the slot counter of the first descriptor in use,
    [L] the requests added and not yet processed, and the device has completed
    as many of them as [u] is long, with the byte counts in [u].  All counters are unbounded: the code keeps them
    modulo 2^16 and uses them modulo [N]. *)
Section rep.
Context {D : Type} (N : Z) (HN : queue_size_ok N).
Abbreviation request := (list elem * D)%type.
Import VirtQueueData.

Definition total (L : list request) : Z := foldr (λ r n, zlen r.1 + n) 0 L.

Section view.
Context (table : list raw) (avail : list Z) (used : list VirtQueueUsedElem) (dat : list (option D)).

(** The request at position [i] of the rings whose chain starts at slot [s]. *)
Definition req_at (i s : Z) (completed : option Z) (r : request) : Prop :=
  r.1 ≠ [] ∧ Forall plain r.1 ∧ chain_at N table s r.1 ∧
  at_mod N dat s = Some (Some r.2) ∧
  (∀ x, s < x < s + zlen r.1 → at_mod N dat x = Some None) ∧
  match completed with
  | Some n => at_mod N used i = Some {| id := s mod N; used_len := n |}
  | None => at_mod N avail i = Some (s mod N)
  end.

Fixpoint under_way (i s : Z) (u : list Z) (L : list request) : Prop :=
  match L with
  | [] => True
  | r :: L => req_at i s (head u) r ∧ under_way (i + 1) (s + zlen r.1) (tail u) L
  end.
End view.

Record rep (q : t D) (p s : Z) (u : list Z) (L : list request) : Prop := {
  rep_table : zlen (table_of (queue q)) = N;
  rep_avail : zlen (VirtQueueAvailRing.ring (VirtQueue.avail_ring (queue q))) = N;
  rep_used : zlen (VirtQueueUsedRing.ring (VirtQueue.used_ring (queue q))) = N;
  rep_data : zlen (data q) = N;
  rep_avail_idx : VirtQueueAvailRing.idx (VirtQueue.avail_ring (queue q)) = wrap 16 (p + zlen L);
  rep_used_idx : VirtQueueUsedRing.idx (VirtQueue.used_ring (queue q)) = wrap 16 (p + zlen u);
  rep_last : VirtQueue.last_processed_used_index (queue q) = wrap 16 p;
  rep_next : VirtQueueDescriptorTable.raw_next_index (VirtQueue.descriptors (queue q)) = wrap 16 (s + total L);
  rep_completed : (length u ≤ length L)%nat;
  rep_fits : total L ≤ N;
  rep_free : ∀ x, s + total L ≤ x < s + N → at_mod N (data q) x = Some None;
  rep_requests : under_way (table_of (queue q)) (VirtQueueAvailRing.ring (VirtQueue.avail_ring (queue q)))
                   (VirtQueueUsedRing.ring (VirtQueue.used_ring (queue q))) (data q) p s u L;
}.

Lemma total_app L L' : total (L ++ L') = total L + total L'.
Proof. induction L as [|r L IH]; [done|]. cbn [total foldr app]. fold (total (L ++ L')) (total L). lia. Qed.

Lemma total_cons r L : total (r :: L) = zlen r.1 + total L.
Proof. done. Qed.

Lemma total_one r : total [r] = zlen r.1.
Proof. rewrite total_cons. unfold total. simpl. lia. Qed.

Lemma total_nonneg L : 0 ≤ total L.
Proof. induction L as [|r L IH]; [done|]. rewrite total_cons. pose proof (zlen_nonneg r.1). lia. Qed.

Lemma total_split c L : total L = total (take c L) + total (drop c L).
Proof. by rewrite <-total_app, take_drop. Qed.

Lemma zlen_head_tail (u : list Z) :
  (head u = None → zlen u = 0) ∧ (head u ≠ None → 0 < zlen u) ∧ zlen (tail u) = Z.max 0 (zlen u - 1).
Proof.
  destruct u as [|n u]; cbn [head tail]; rewrite ?zlen_cons, ?zlen_nil; [by split_and!|].
  pose proof (zlen_nonneg u). split_and!; [done| |]; lia.
Qed.

(** A request only depends on its own slots and ring entries. *)
Lemma req_frame table avail used dat table' avail' used' dat' i s b r :
  (∀ x, s ≤ x < s + zlen r.1 → at_mod N table' x = at_mod N table x) →
  (∀ x, s ≤ x < s + zlen r.1 → at_mod N dat' x = at_mod N dat x) →
  (b ≠ None → at_mod N used' i = at_mod N used i) →
  (b = None → at_mod N avail' i = at_mod N avail i) →
  req_at table avail used dat i s b r → req_at table' avail' used' dat' i s b r.
Proof.
  intros Ht Hd Hu Ha (Hne & Hpl & Hc & Hs & Hx & Hb).
  assert (1 ≤ zlen r.1) by (destruct r.1; [done|rewrite zlen_cons; pose proof (zlen_nonneg l); lia]).
  unfold req_at. split_and!; [done|done| | | |].
  - by eapply chain_frame.
  - rewrite Hd by lia. done.
  - intros x ?. rewrite Hd by lia. apply Hx. lia.
  - destruct b; [by rewrite Hu|by rewrite Ha].
Qed.

Lemma under_way_frame table avail used dat table' avail' used' dat' L : ∀ i s u,
  (∀ x, s ≤ x < s + total L → at_mod N table' x = at_mod N table x) →
  (∀ x, s ≤ x < s + total L → at_mod N dat' x = at_mod N dat x) →
  (∀ x, i ≤ x < i + zlen u → at_mod N used' x = at_mod N used x) →
  (∀ x, i + zlen u ≤ x < i + zlen L → at_mod N avail' x = at_mod N avail x) →
  under_way table avail used dat i s u L → under_way table' avail' used' dat' i s u L.
Proof.
  induction L as [|r L IH]; intros i s u Ht Hd Hu Ha; simpl; [done|].
  rewrite total_cons in *. rewrite zlen_cons in *.
  pose proof (total_nonneg L). pose proof (zlen_nonneg r.1). pose proof (zlen_nonneg L).
  destruct (zlen_head_tail u) as (Hu0 & Hu1 & Hut). intros [Hr HL]. split.
  - eapply req_frame; [..|exact Hr]; intros; [apply Ht|apply Hd|apply Hu|apply Ha]; try (specialize (Hu1 ltac:(done))); try (specialize (Hu0 ltac:(done))); lia.
  - eapply IH; [..|exact HL]; intros x ?; [apply Ht|apply Hd|apply Hu|apply Ha]; lia.
Qed.

Lemma under_way_app table avail used dat L L' : ∀ i s u,
  under_way table avail used dat i s u (L ++ L') ↔
  under_way table avail used dat i s u L ∧
  under_way table avail used dat (i + zlen L) (s + total L) (drop (length L) u) L'.
Proof.
  induction L as [|r L IH]; intros i s u.
  { simpl. rewrite zlen_nil, !Z.add_0_r, drop_0. tauto. }
  cbn [app under_way length]. rewrite IH, total_cons, zlen_cons.
  replace (i + 1 + zlen L) with (i + (zlen L + 1)) by lia.
  replace (s + zlen r.1 + total L) with (s + (zlen r.1 + total L)) by lia.
  replace (drop (length L) (tail u)) with (drop (S (length L)) u) by (destruct u; simpl; by rewrite ?drop_nil). tauto.
Qed.

Lemma under_way_len table avail used dat L : ∀ i s u,
  under_way table avail used dat i s u L → zlen L ≤ total L.
Proof.
  induction L as [|r L IH]; intros i s u; [done|]. intros [(Hne & _) HL]. apply IH in HL.
  rewrite total_cons, zlen_cons. destruct r.1 as [|d l]; [done|].
  rewrite zlen_cons. pose proof (zlen_nonneg l). lia.
Qed.

(** Completed requests stay as they are when more are completed. *)
Lemma under_way_done table avail used dat L v : ∀ i s u,
  (length L ≤ length u)%nat →
  under_way table avail used dat i s (u ++ v) L ↔ under_way table avail used dat i s u L.
Proof.
  induction L as [|r L IH]; intros i s u Hu; [done|]. destruct u as [|n u]; [simpl in Hu; lia|].
  cbn [app under_way head tail]. rewrite IH by (simpl in Hu; lia). done.
Qed.

(** ** Adding a buffer *)
Lemma add_entry_ok a i d :
  zlen (VirtQueueAvailRing.ring a) = N → VirtQueueAvailRing.idx a = wrap 16 i →
  VirtQueueAvailRing.add_entry a d =
    Ret (VirtQueueAvailRing.mk (VirtQueueAvailRing.buffer a) (wrap 16 (i + 1))
           (<[Z.to_nat (i mod N) := d]> (VirtQueueAvailRing.ring a))).
Proof.
  intros Hl Hi. destruct (queue_size_bounds N HN) as (? & _). unfold VirtQueueAvailRing.add_entry.
  rewrite Hi, (wrap_len N HN) by done. unfold urem. destruct (Z.eqb_spec N 0); [lia|]. run_monad.
  rewrite (wrap_mod N i HN), (array_write_ok N HN) by done. run_monad.
  unfold WrappingIndex.increment. by rewrite wrap_succ.
Qed.

Lemma add_buffer_ok q p s u L descs d :
  rep q p s u L → descs ≠ [] → Forall plain descs → total L + zlen descs ≤ N →
  ∃ q', add_buffer q descs d = Ret q' ∧ rep q' p s u (L ++ [(descs, d)]).
Proof.
  intros R Hne Hpl Hfit. pose proof (total_nonneg L). pose proof (under_way_len _ _ _ _ _ _ _ _ (rep_requests _ _ _ _ _ R)).
  assert (1 ≤ zlen descs) by (destruct descs as [|x l]; [done|rewrite zlen_cons; pose proof (zlen_nonneg l); lia]).
  destruct (add_descriptor_ok N HN (VirtQueue.descriptors (queue q)) (s + total L) descs)
    as (ds & E & El & Hc & Hx); [by apply R|by apply R|done|done|lia|].
  unfold add_buffer. rewrite E. run_monad.
  rewrite (index_mod N _ _ None) by (apply R; lia). run_monad.
  rewrite (index_set_mod N HN) by apply R. run_monad. cbn [assert_]. run_monad.
  rewrite (add_entry_ok _ (p + zlen L)) by apply R. run_monad. eexists. split; [reflexivity|].
  split; cbn [queue data VirtQueue.descriptors VirtQueue.avail_ring VirtQueue.used_ring VirtQueueDescriptorTable.descriptors VirtQueueDescriptorTable.raw_next_index VirtQueueAvailRing.ring VirtQueueAvailRing.idx VirtQueue.last_processed_used_index];
    rewrite ?zlen_insert, ?zlen_app, ?total_app, ?length_app; try (by apply R); try done.
  - by rewrite zlen_cons, zlen_nil, Z.add_assoc.
  - rewrite total_one. cbn [fst]. f_equal. lia.
  - pose proof (rep_completed _ _ _ _ _ R). lia.
  - rewrite total_one. done.
  - rewrite total_one. cbn [fst]. intros x ?. rewrite at_mod_insert_ne by (done || lia).
    apply R. lia.
  - apply under_way_app. split.
    + eapply under_way_frame; [..|apply R]; try done.
      * intros x ?. rewrite <-(at_mod_shift N HN ds), <-(at_mod_shift N HN (table_of _)). apply Hx. lia.
      * intros x ?. apply at_mod_insert_ne; [done|]. lia.
      * intros x ?. apply at_mod_insert_ne; [done|]. pose proof (zlen_nonneg u). lia.
    + rewrite drop_ge by apply R. split; [|done]. unfold req_at. cbn [fst snd head]. split_and!; try done.
      * apply at_mod_insert; [done|]. apply R.
      * intros x ?. rewrite at_mod_insert_ne by (done || lia). apply R. lia.
      * apply at_mod_insert; [done|]. apply R.
Qed.

(** ** A completion *)
Lemma split_pending (u : list Z) (L : list request) :
  (length u < length L)%nat → ∃ A r B, L = A ++ r :: B ∧ length A = length u.
Proof.
  intros [r Hr]%lookup_lt_is_Some. exists (take (length u) L), r, (drop (S (length u)) L).
  rewrite take_drop_middle by done. split; [done|]. apply length_take_le. apply lookup_lt_Some in Hr. lia.
Qed.

Lemma consume_ok q p s u L n :
  rep q p s u L → (length u < length L)%nat →
  ∃ q', Device.consume q (p + zlen u) n = Ret q' ∧ rep q' p s (u ++ [n]) L ∧
        table_of (queue q') = table_of (queue q).
Proof.
  intros R Hu. destruct (split_pending u L Hu) as (A & r & B & -> & HA).
  pose proof (under_way_len _ _ _ _ _ _ _ _ (rep_requests _ _ _ _ _ R)) as Hlen.
  pose proof (rep_requests _ _ _ _ _ R) as HL. apply under_way_app in HL as [HLA [Hr HLB]].
  rewrite HA, drop_all in Hr, HLB. cbn [head tail] in Hr, HLB.
  assert (zlen A = zlen u) as HA' by (unfold zlen; lia). rewrite HA' in *.
  pose proof Hr as (Hne & Hpl & Hch & Hd & Hdx & Ha). unfold Device.consume, VolatileArrayRW.len.
  rewrite (rep_avail _ _ _ _ _ R), (rep_used _ _ _ _ _ R), (rep_used_idx _ _ _ _ _ R), wrap_mod by done.
  rewrite (array_read_ok N HN _ _ _ (rep_avail _ _ _ _ _ R) Ha). run_monad.
  rewrite (array_write_ok N HN) by apply R. run_monad. eexists. split_and!; [reflexivity| |reflexivity].
  pose proof (rep_fits _ _ _ _ _ R) as Hf. rewrite zlen_app, zlen_cons, HA' in Hlen.
  pose proof (zlen_nonneg u). pose proof (zlen_nonneg B).
  split; cbn [queue data VirtQueue.descriptors VirtQueue.avail_ring VirtQueue.used_ring VirtQueueUsedRing.ring VirtQueueUsedRing.idx VirtQueue.last_processed_used_index];
    rewrite ?zlen_insert; try (by apply R).
  - unfold WrappingIndex.increment. rewrite wrap_succ, zlen_app, zlen_cons, zlen_nil. f_equal. lia.
  - rewrite !length_app. simpl. lia.
  - apply under_way_app. split.
    + apply under_way_done; [lia|]. eapply under_way_frame; [..|exact HLA]; try done.
      intros x ?. apply at_mod_insert_ne; [done|]. lia.
    + rewrite drop_app_length' by done. rewrite HA'. split.
      * unfold req_at. cbn [head]. split_and!; try done. by apply at_mod_insert; [|apply R].
      * cbn [tail]. eapply under_way_frame; [..|exact HLB]; try done. rewrite zlen_nil. lia.
Qed.

(** ** Processing the used ring *)

(** What the callback is called with for the completed requests, in order. *)
Fixpoint delivered (s : Z) (L : list request) (u : list Z) : list (VirtQueueUsedElem * option Z * option D) :=
  match L, u with
  | r :: L, n :: u =>
      ({| id := s mod N; used_len := n |}, Some (s mod N), Some r.2) :: delivered (s + zlen r.1) L u
  | _, _ => []
  end.

(** The data with the heads of the first [c] requests taken out. *)
Fixpoint take_data (dat : list (option D)) (s : Z) (L : list request) (c : nat) : list (option D) :=
  match L, c with
  | r :: L, S c => take_data (<[Z.to_nat (s mod N) := None]> dat) (s + zlen r.1) L c
  | _, _ => dat
  end.

Lemma zlen_take_data L : ∀ dat s c, zlen (take_data dat s L c) = zlen dat.
Proof. induction L as [|r L IH]; intros dat s [|c]; simpl; try done. by rewrite IH, zlen_insert. Qed.

Lemma desc_index_ok s n : desc_index {| id := s mod N; used_len := n |} = Ret (s mod N).
Proof.
  destruct (queue_size_bounds N HN) as (? & _). unfold desc_index. cbn [id].
  pose proof (Z.mod_pos_bound s N). destruct (Z.ltb_spec (s mod N) (2 ^ 16)); [done|lia].
Qed.

Lemma used_entry_ok q i s n :
  zlen (VirtQueueUsedRing.ring (VirtQueue.used_ring q)) = N → 0 ≤ i < 2 ^ 16 →
  at_mod N (VirtQueueUsedRing.ring (VirtQueue.used_ring q)) i = Some {| id := s mod N; used_len := n |} →
  VirtQueue.get_used_ring_entry q i = Ret ({| id := s mod N; used_len := n |}, Some (s mod N)).
Proof.
  intros Hl Hi He. destruct (queue_size_bounds N HN) as (? & _).
  unfold VirtQueue.get_used_ring_entry, VirtQueueUsedRing.get_used_elem.
  rewrite (wrap_len N HN) by done. replace i with (wrap 16 i) at 1 by (apply Z.mod_small; lia).
  rewrite to_elem_index_ok by done. run_monad. rewrite (array_read_ok N HN _ _ _ Hl He). run_monad.
  by rewrite desc_index_ok.
Qed.

Lemma process_fold {St} q (f : VirtQueueUsedElem → option Z → option D → St → outcome St) table avail L :
  zlen (VirtQueueUsedRing.ring (VirtQueue.used_ring q)) = N → ∀ u p0 p s dat st,
  zlen dat = N → 0 ≤ p0 → p0 mod N = p mod N → p0 + zlen u ≤ 2 ^ 16 → (length u ≤ length L)%nat → total L ≤ N →
  under_way table avail (VirtQueueUsedRing.ring (VirtQueue.used_ring q)) dat p s u L →
  foldM (λ i ds,
      '(used_entry, chain) ← VirtQueue.get_used_ring_entry q i;
      let '(dat, st) := ds in
      i ← desc_index used_entry;
      d ← index dat i;
      dat ← index_set dat i None;
      st ← f used_entry chain d st;
      mret (dat, st)) (range p0 (p0 + zlen u)) (dat, st) =
  (st ← foldM (λ '(e, h, d) st, f e h d st) (delivered s L u) st; mret (take_data dat s L (length u), st)).
Proof.
  intros Hl. destruct (queue_size_bounds N HN) as (? & _).
  induction L as [|r L IH]; intros u p0 p s dat st Hd Hp0 Hp Hc Hu Ht HL.
  { destruct u; [|simpl in Hu; lia]. rewrite zlen_nil, Z.add_0_r, range_nil by lia. simpl. by run_monad. }
  destruct u as [|n u]. { rewrite zlen_nil, Z.add_0_r, range_nil by lia. simpl. by run_monad. }
  rewrite zlen_cons in *. rewrite total_cons in Ht. pose proof (zlen_nonneg u). pose proof (total_nonneg L).
  destruct HL as [(Hne & Hpl & Hch & Hs & Hx & He) HL]. cbn [head tail] in *. rewrite range_cons by lia.
  cbn [foldM delivered length take_data].
  rewrite (used_entry_ok q p0 s n) by (done || lia || (unfold at_mod in *; by rewrite Hp)). run_monad.
  rewrite desc_index_ok. run_monad.
  rewrite (index_mod N _ _ _ Hs). run_monad. rewrite (index_set_mod N HN) by done. run_monad.
  destruct (f _ _ _ _) as [st'| |]; run_monad; [|done|done].
  rewrite <-(IH u (p0 + 1) (p + 1)).
  - by replace (p0 + 1 + zlen u) with (p0 + (zlen u + 1)) by lia.
  - by rewrite zlen_insert.
  - lia.
  - by rewrite Zplus_mod, Hp, <-Zplus_mod.
  - lia.
  - simpl in Hu. lia.
  - pose proof (zlen_nonneg r.1). lia.
  - eapply under_way_frame; [..|exact HL]; try done. intros x ?. apply at_mod_insert_ne; [done|].
    destruct r.1 as [|y l]; [done|]. rewrite zlen_cons in *. pose proof (zlen_nonneg l). lia.
Qed.

Lemma under_way_nonempty table avail used dat L : ∀ i s u,
  under_way table avail used dat i s u L → Forall (λ r, 1 ≤ zlen r.1) L.
Proof.
  induction L as [|r L IH]; intros i s u HL; constructor; destruct HL as [(Hne & _) HL]; [|by eapply IH].
  destruct r.1 as [|d l]; [done|]. rewrite zlen_cons. pose proof (zlen_nonneg l). lia.
Qed.

Lemma take_data_rest L : ∀ dat s c x,
  Forall (λ r, 1 ≤ zlen r.1) L → s + total (take c L) ≤ x < s + N →
  at_mod N (take_data dat s L c) x = at_mod N dat x.
Proof.
  induction L as [|r L IH]; intros dat s [|c] x HL Hx; try done. apply Forall_cons in HL as [Hr HL].
  cbn [take take_data] in *. rewrite total_cons in Hx. pose proof (total_nonneg (take c L)).
  rewrite IH by (done || lia). apply at_mod_insert_ne; [done|]. lia.
Qed.

Lemma take_data_none table avail used L : ∀ dat i s u x,
  zlen dat = N → total L ≤ N → (length u ≤ length L)%nat → under_way table avail used dat i s u L →
  s ≤ x < s + total (take (length u) L) → at_mod N (take_data dat s L (length u)) x = Some None.
Proof.
  induction L as [|r L IH]; intros dat i s u x Hd Ht Hu HL Hx.
  { rewrite take_nil in Hx. unfold total in Hx. simpl in Hx. lia. }
  destruct u as [|n u]; [unfold total in Hx; simpl in Hx; lia|].
  pose proof (under_way_nonempty _ _ _ _ _ _ _ _ HL) as [Hr1 Hr]%Forall_cons.
  destruct HL as [(_ & _ & _ & _ & Hrx & _) HL]. cbn [length take take_data tail] in *.
  rewrite total_cons in *. pose proof (total_nonneg (take (length u) L)).
  pose proof (total_split (length u) L). pose proof (total_nonneg (drop (length u) L)).
  destruct (decide (x < s + zlen r.1)).
  - rewrite <-(at_mod_shift N HN), take_data_rest, (at_mod_shift N HN) by (done || lia).
    destruct (decide (x = s)) as [->|]; [by apply at_mod_insert|].
    rewrite at_mod_insert_ne by (done || lia). apply Hrx. lia.
  - eapply IH; [by rewrite zlen_insert|lia|lia| |lia].
    eapply under_way_frame; [..|exact HL]; try done. intros y ?. apply at_mod_insert_ne; [done|]. lia.
Qed.

Lemma wrap_no_carry p c : 0 ≤ c → wrap 16 p + c < 2 ^ 16 → wrap 16 (p + c) = wrap 16 p + c.
Proof.
  intros. unfold wrap in *. rewrite <-Zplus_mod_idemp_l. apply Z.mod_small.
  pose proof (Z.mod_pos_bound p (2 ^ 16)). lia.
Qed.

Lemma process_ok {St} q p s u L (f : VirtQueueUsedElem → option Z → option D → St → outcome St) st :
  rep q p s u L → wrap 16 p + zlen u < 2 ^ 16 →
  ∃ q', process_new_entries q f st = (st ← foldM (λ '(e, h, d) st, f e h d st) (delivered s L u) st; mret (q', st)) ∧
        rep q' (p + zlen u) (s + total (take (length u) L)) [] (drop (length u) L) ∧
        table_of (queue q') = table_of (queue q).
Proof.
  intros R Hw. pose proof (zlen_nonneg u). pose proof (rep_requests _ _ _ _ _ R) as HL.
  pose proof (rep_completed _ _ _ _ _ R) as Hu. pose proof (rep_fits _ _ _ _ _ R) as Hfit.
  set (dat := take_data (data q) s L (length u)).
  exists (mk dat (VirtQueue.with_last_processed (queue q) (wrap 16 (p + zlen u)))).
  assert (Hw' := wrap_no_carry p (zlen u) ltac:(lia) Hw). split_and!; [| |done].
  - unfold process_new_entries, VirtQueue.process_new_entries.
    rewrite (rep_last _ _ _ _ _ R), (rep_used_idx _ _ _ _ _ R), Hw'.
    cbn beta.
    erewrite (process_fold (queue q) f _ _ L (rep_used _ _ _ _ _ R) u (wrap 16 p) p s); [..|exact HL]; try done.
    + by destruct (foldM _ _ _) as [st'| |]; run_monad.
    + apply R.
    + unfold wrap. by apply Z.mod_pos_bound.
    + by apply wrap_mod.
    + lia.
  - pose proof (under_way_nonempty _ _ _ _ _ _ _ _ HL) as Hne. pose proof (total_split (length u) L).
    pose proof (total_nonneg (take (length u) L)). pose proof (total_nonneg (drop (length u) L)).
    rewrite <-(take_drop (length u) L) in HL at 1. apply under_way_app in HL as [_ HL].
    rewrite length_take_le, drop_all in HL by done.
    assert (HzL : zlen (take (length u) L) = zlen u) by (unfold zlen; rewrite length_take_le; lia).
    split; cbn [queue data VirtQueue.with_last_processed VirtQueue.descriptors VirtQueue.avail_ring
                VirtQueue.used_ring VirtQueue.last_processed_used_index]; try (by apply R); try done.
    + unfold dat. rewrite zlen_take_data. apply R.
    + rewrite (rep_avail_idx _ _ _ _ _ R). f_equal. rewrite <-(take_drop (length u) L) at 1. rewrite zlen_app. lia.
    + rewrite zlen_nil, Z.add_0_r. apply R.
    + rewrite (rep_next _ _ _ _ _ R). f_equal. lia.
    + simpl. lia.
    + lia.
    + intros x Hx. destruct (decide (x < s + N)).
      * unfold dat. rewrite take_data_rest by (done || lia). apply R. lia.
      * rewrite <-(Z.sub_add N x), at_mod_shift by done. eapply take_data_none; [..|apply R|]; try done; [apply R|lia].
    + rewrite HzL in HL. eapply under_way_frame; [..|exact HL]; try done.
      intros x ?. apply take_data_rest; [done|]. lia.
Qed.

(** ** The queue as a FIFO *)
Inductive op : Type :=
  | AddBuffer (descs : list elem) (d : D)
  | Complete (n : Z)  (** the device completes the oldest request it has not completed *)
  | ProcessUsed.

(** What a driver sees of a request: its chain, the bytes written and its data. *)
Abbreviation completion := (list elem * Z * option D)%type.

Definition plainb (d : elem) : bool := negb (flag_next (flags d)) && negb (indirect (flags d)).

Definition completions (L : list request) (u : list Z) : list completion :=
  zip_with (λ r n, (chained r.1, n, Some r.2)) L u.

(** The promise: the requests [L] in the order they were added, of which the
    first ones are completed with the byte counts [u], after [p] others. *)
Definition spec_step (o : op) (st : Z * list Z * list request) : option (Z * list Z * list request * list completion) :=
  let '(p, u, L) := st in
  match o with
  | AddBuffer descs d =>
      if (0 <? zlen descs) && forallb plainb descs && (total L + zlen descs <=? N)
      then Some (p, u, L ++ [(descs, d)], []) else None
  | Complete n => if (length u <? length L)%nat then Some (p, u ++ [n], L, []) else None
  | ProcessUsed =>
      if wrap 16 p + zlen u <? 2 ^ 16
      then Some (p + zlen u, [], drop (length u) L, completions L u) else None
  end.

Fixpoint spec_run (ops : list op) (st : Z * list Z * list request)
  : option (Z * list Z * list request * list completion) :=
  match ops with
  | [] => Some (st, [])
  | o :: ops =>
      '(st, out) ← spec_step o st;
      '(st, outs) ← spec_run ops st;
      Some (st, out ++ outs)
  end.

(** The code, with a callback that walks the chain, and the device with its count
    of the entries it has taken. *)
Definition collecting (q : t D) (e : VirtQueueUsedElem) (chain : option Z) (d : option D) (out : list completion)
  : outcome (list completion) :=
  es ← ChainIterator.collect (S (Z.to_nat N)) (VirtQueue.descriptors (queue q)) chain;
  mret (out ++ [(es, used_len e, d)]).

Definition code_step (o : op) (st : t D * Z) : outcome (t D * Z * list completion) :=
  let '(q, seen) := st in
  match o with
  | AddBuffer descs d => q ← add_buffer q descs d; mret (q, seen, [])
  | Complete n => q ← Device.consume q seen n; mret (q, seen + 1, [])
  | ProcessUsed => '(q, out) ← process_new_entries q (collecting q) []; mret (q, seen, out)
  end.

Fixpoint code_run (ops : list op) (st : t D * Z) : outcome (t D * Z * list completion) :=
  match ops with
  | [] => mret (st, [])
  | o :: ops =>
      '(st, out) ← code_step o st;
      '(st, outs) ← code_run ops st;
      mret (st, out ++ outs)
  end.

(** A queue as [initialize] leaves it. *)
Definition fresh_queue (b1 b2 b3 : PageRange) (index notify : Z) : VirtQueue.t :=
  VirtQueue.new index notify
    (VirtQueueDescriptorTable.mk b1 0 (VirtQueueDescriptorTable.zeroed N))
    (VirtQueueAvailRing.mk b2 0 (replicate (Z.to_nat N) 0))
    (VirtQueueUsedRing.mk b3 0 (replicate (Z.to_nat N) {| id := 0; used_len := 0 |})).
Definition fresh (b1 b2 b3 : PageRange) (index notify : Z) : t D := new (fresh_queue b1 b2 b3 index notify).

Lemma fresh_rep b1 b2 b3 index notify : rep (fresh b1 b2 b3 index notify) 0 0 [] [].
Proof.
  destruct (queue_size_bounds N HN) as (? & _). unfold fresh, fresh_queue, new, VirtQueue.new, VirtQueueDescriptorTable.zeroed.
  split; cbn; try done; unfold zlen; rewrite ?length_replicate; try lia. intros x ?.
  unfold at_mod. apply lookup_replicate. split; [done|]. apply mod_to_nat. lia.
Qed.

Lemma plainb_ok descs : forallb plainb descs = true → Forall plain descs.
Proof.
  rewrite forallb_forall, Forall_forall. intros Hp d Hd. apply list_elem_of_In, Hp in Hd. unfold plainb, plain in *.
  by destruct (flag_next _), (indirect _).
Qed.

Lemma collecting_one q e s d descs out :
  zlen (table_of (queue q)) = N → descs ≠ [] → Forall plain descs → zlen descs ≤ N →
  chain_at N (table_of (queue q)) s descs →
  collecting q e (Some (s mod N)) d out = Ret (out ++ [(chained descs, used_len e, d)]).
Proof.
  intros. unfold collecting. rewrite (chain_collect N _ s descs) by (done || unfold zlen in *; lia). by run_monad.
Qed.

Lemma collecting_ok q avail used dat L : ∀ i s u out,
  zlen (table_of (queue q)) = N → total L ≤ N →
  under_way (table_of (queue q)) avail used dat i s u L →
  foldM (λ '(e, h, d) out, collecting q e h d out) (delivered s L u) out = Ret (out ++ completions L u).
Proof.
  induction L as [|r L IH]; intros i s u out Ht Hf HL; [by simpl; rewrite app_nil_r|].
  destruct u as [|n u]; [by simpl; rewrite app_nil_r|]. rewrite total_cons in Hf. pose proof (total_nonneg L).
  pose proof (zlen_nonneg r.1). destruct HL as [(Hne & Hpl & Hch & _) HL]. cbn [delivered foldM tail] in *.
  rewrite (collecting_one _ _ s _ r.1) by (done || lia). run_monad.
  rewrite (IH (i + 1)) by (done || lia). cbn [used_len]. by rewrite <-app_assoc.
Qed.

Lemma code_step_refines o q p s u L st' out :
  rep q p s u L → spec_step o (p, u, L) = Some (st', out) →
  ∃ q' s', code_step o (q, p + zlen u) = Ret (q', st'.1.1 + zlen st'.1.2, out) ∧ rep q' st'.1.1 s' st'.1.2 st'.2.
Proof.
  intros R. destruct o as [descs d|n|]; cbn [spec_step code_step].
  - destruct (Z.ltb_spec 0 (zlen descs)); [|done]. destruct (forallb plainb descs) eqn:Hpl; [|done].
    destruct (Z.leb_spec (total L + zlen descs) N); [|done]. cbn [andb]. intros [= <- <-].
    destruct (add_buffer_ok q p s u L descs d) as (q' & -> & R'); [done|by intros ->|by apply plainb_ok|done|].
    run_monad. by exists q', s.
  - destruct (Nat.ltb_spec (length u) (length L)); [|done]. intros [= <- <-].
    destruct (consume_ok q p s u L n) as (q' & -> & R' & _); [done|done|]. run_monad.
    exists q', s. cbn [fst snd]. by rewrite zlen_app, zlen_cons, zlen_nil, Z.add_assoc.
  - destruct (Z.ltb_spec (wrap 16 p + zlen u) (2 ^ 16)); [|done]. intros [= <- <-].
    destruct (process_ok q p s u L (collecting q) []) as (q' & -> & R' & _); [done|done|].
    erewrite collecting_ok; [|apply R..]. run_monad. cbn [fst snd app]. rewrite zlen_nil, Z.add_0_r. by eauto.
Qed.

Lemma code_run_refines ops : ∀ q p s u L st' outs,
  rep q p s u L → spec_run ops (p, u, L) = Some (st', outs) →
  ∃ q' s', code_run ops (q, p + zlen u) = Ret (q', st'.1.1 + zlen st'.1.2, outs) ∧ rep q' st'.1.1 s' st'.1.2 st'.2.
Proof.
  induction ops as [|o ops IH]; intros q p s u L st' outs R.
  { intros [= <- <-]. by exists q, s. }
  cbn [spec_run code_run]. intros Hs. destruct (spec_step o (p, u, L)) as [[[[p1 u1] L1] out]|] eqn:E1; [|done].
  cbn in Hs. destruct (spec_run ops (p1, u1, L1)) as [[st2 outs2]|] eqn:E2; [|done].
  cbn in Hs. injection Hs as <- <-.
  destruct (code_step_refines o q p s u L _ _ R E1) as (q1 & s1 & -> & R1). run_monad.
  destruct (IH q1 p1 s1 u1 L1 _ _ R1 E2) as (q2 & s2 & E & R2). cbn [fst snd] in *. rewrite E. run_monad.
  by exists q2, s2.
Qed.


(** When the used index has wrapped around, so that it is below the last
    processed one, [process_new_entries] calls the callback for no entry at all and
    still takes all of them for processed. *)
Theorem wrapped_completions_lost {St} q p s u L (f : VirtQueueUsedElem → option Z → option D → St → outcome St) st :
  rep q p s u L → 2 ^ 16 ≤ wrap 16 p + zlen u →
  process_new_entries q f st =
    Ret (mk (data q) (VirtQueue.with_last_processed (queue q) (wrap 16 (p + zlen u))), st).
Proof.
  intros R Hw. pose proof (under_way_len _ _ _ _ _ _ _ _ (rep_requests _ _ _ _ _ R)).
  pose proof (rep_fits _ _ _ _ _ R). pose proof (rep_completed _ _ _ _ _ R).
  destruct (queue_size_bounds N HN) as (? & _). pose proof (Z.mod_pos_bound p (2 ^ 16)) as Hp.
  unfold process_new_entries, VirtQueue.process_new_entries.
  rewrite (rep_last _ _ _ _ _ R), (rep_used_idx _ _ _ _ _ R), range_nil; [by cbn; destruct q|].
  unfold wrap in *. rewrite <-Zplus_mod_idemp_l.
  rewrite <-(Z.mod_add _ (-1)) by lia. rewrite Z.mod_small; unfold zlen in *; lia.
Qed.
End rep.

(** ** Layout of the rings *)

(** For every queue size the device can ask for, no computation of an offset
    overflows, the fields of both rings lie one after another in their buffers, each
    at the alignment of its type, and the last one ends within the buffer. *)
Theorem ring_layout_bounds N :
  0 < N < 2 ^ 16 →
  (∃ i r e z, VirtQueueAvailRing.layout N = Ret (i, r, e, z) ∧
     2 ≤ i ∧ i + 2 ≤ r ∧ r + 2 * N ≤ e ∧ e + 2 ≤ z < 2 ^ 20 ∧ i mod 2 = 0 ∧ r mod 2 = 0 ∧ e mod 2 = 0) ∧
  (∃ i r e z, VirtQueueUsedRing.layout N = Ret (i, r, e, z) ∧
     2 ≤ i ∧ i + 2 ≤ r ∧ r + 8 * N ≤ e ∧ e + 2 ≤ z < 2 ^ 20 ∧ i mod 2 = 0 ∧ r mod 4 = 0 ∧ e mod 2 = 0).
Proof.
  intros. unfold VirtQueueAvailRing.layout, VirtQueueUsedRing.layout. split.
  all: rewrite (uadd_ok 64 2 2) by lia; run_monad; rewrite umul_ok by lia; run_monad.
  all: rewrite (uadd_ok 64 (2 + 2)) by lia; run_monad; rewrite (uadd_ok 64) by lia; run_monad.
  all: do 4 eexists; split; [reflexivity|]; split_and!; zdm.
Qed.

Lemma ring_layout_bounds_witness : 0 < 256 < 2 ^ 16 ∧ ∃ l, VirtQueueAvailRing.layout 256 = Ret l.
Proof.
  split; [lia|]. destruct (ring_layout_bounds 256) as [(i & r & e & z & E & _) _]; [lia|]. by exists (i, r, e, z).
Defined.

(** A queue of four descriptors: two requests, the first completed and handed over. *)
Definition demo_elem (a : Z) : elem := {| addr := a; elem_len := 16; flags := flags_new |}.
Definition demo_range : PageRange :=
  {| start := {| start_addr := 0; size := Size4KiB |}; num_pages := 1 |}.

Lemma queue_size_four : queue_size_ok 4.
Proof. exists 2. lia. Qed.


(** A queue after 65535 requests: of the next two completions one is at index 65535
    and one at index 0. *)
Definition wrapped_queue : VirtQueueData.t Z :=
  VirtQueueData.mk [None; None; Some 6; Some 7]
    (VirtQueue.mk 0 0
       (VirtQueueDescriptorTable.mk demo_range 0
          [last_desc (demo_elem 0); last_desc (demo_elem 0); last_desc (demo_elem 0); last_desc (demo_elem 0)])
       (VirtQueueAvailRing.mk demo_range 1 [3; 0; 0; 2])
       (VirtQueueUsedRing.mk demo_range 1 [{| id := 3; used_len := 1 |}; {| id := 0; used_len := 0 |};
          {| id := 0; used_len := 0 |}; {| id := 2; used_len := 1 |}])
       65535).

Lemma wrapped_queue_rep :
  rep 4 wrapped_queue 65535 65534 [1; 1] [([demo_elem 0], 6); ([demo_elem 0], 7)].
Proof.
  split; [vm_compute; reflexivity..|cbn; lia|vm_compute; discriminate| |].
  - intros x Hx. change (total _) with 2 in Hx.
    assert (x = 65536 ∨ x = 65537) as [-> | ->] by lia; reflexivity.
  - cbn [under_way head tail]. unfold req_at. cbn [fst snd].
    change (zlen [demo_elem 0]) with 1. split_and!; try (vm_compute; reflexivity); try (by repeat constructor).
    all: try discriminate; intros x Hx; exfalso; lia.
Qed.

Lemma wrapped_completions_lost_witness :
  VirtQueueData.process_new_entries wrapped_queue (λ _ _ d out, Ret (d :: out)) [] =
    Ret (VirtQueueData.mk [None; None; Some 6; Some 7]
           (VirtQueue.with_last_processed (VirtQueueData.queue wrapped_queue) 1), []).
Proof.
  apply (wrapped_completions_lost 4 queue_size_four wrapped_queue _ _ _ _ _ _ wrapped_queue_rep).
  vm_compute. done.
Defined.
