(* ===== verification/Asm.v ===== *)
(** * The assembly of the kernel's tasks

    [switch_to_task] ([kernel/src/sched/schedcore.rs]), [syscall_handler]
    ([kernel/src/sched/syscall.rs]) and [jump_to_userspace]
    ([kernel/src/sched/userspace.rs]) as lists of instructions, run by an evaluator
    for the instructions they use, and the initial stack of a task from
    [kernel/src/sched/task.rs].  Memory is 64-bit words at virtual addresses: every
    access of these routines is to an aligned word. *)
From S2P Require Import Prelude External Addr PhysMem.
#[local] Open Scope Z_scope.

(** ** The machine *)
Inductive reg : Type :=
| RAX | RBX | RCX | RDX | RBP | RSI | RDI | R8 | R9 | R10 | R11 | R12 | R13 | R14 | R15 | RSP.

#[export] Instance reg_eq_dec : EqDecision reg.
Proof. solve_decision. Defined.

(** Per-CPU variables, reached through the [gs] segment. *)
Inductive gsvar : Type := TOP_OF_KERNEL_STACK | USER_STACK_SCRATCH.

#[export] Instance gsvar_eq_dec : EqDecision gsvar.
Proof. solve_decision. Defined.

Record machine : Type := mkMachine {
  regs : reg → Z;
  mem : store;
  cr3 : Z;
  rip : Z;
  rflags : Z;
  gs : gsvar → Z;
  gs_is_kernel : bool;  (** which of the two bases [swapgs] exchanges is active *)
  user_mode : bool;
}.

Definition upd {A} `{EqDecision A} (f : A → Z) (a : A) (v : Z) : A → Z :=
  λ x, if decide (x = a) then v else f x.

Definition set_reg (r : reg) (v : Z) (m : machine) : machine :=
  mkMachine (upd (regs m) r v) (mem m) (cr3 m) (rip m) (rflags m) (gs m) (gs_is_kernel m) (user_mode m).
Definition set_mem (a v : Z) (m : machine) : machine :=
  mkMachine (regs m) (store_set (mem m) a v) (cr3 m) (rip m) (rflags m) (gs m) (gs_is_kernel m) (user_mode m).
Definition set_cr3 (v : Z) (m : machine) : machine :=
  mkMachine (regs m) (mem m) v (rip m) (rflags m) (gs m) (gs_is_kernel m) (user_mode m).
Definition set_rip (v : Z) (m : machine) : machine :=
  mkMachine (regs m) (mem m) (cr3 m) v (rflags m) (gs m) (gs_is_kernel m) (user_mode m).
Definition set_gs (x : gsvar) (v : Z) (m : machine) : machine :=
  mkMachine (regs m) (mem m) (cr3 m) (rip m) (rflags m) (upd (gs m) x v) (gs_is_kernel m) (user_mode m).
Definition swap_gs (m : machine) : machine :=
  mkMachine (regs m) (mem m) (cr3 m) (rip m) (rflags m) (gs m) (negb (gs_is_kernel m)) (user_mode m).

(** ** Instructions *)
Inductive instr : Type :=
| Push (r : reg)
| PushImm (v : Z)
| PushGs (x : gsvar)
| Pop (r : reg)
| MovReg (dst src : reg)
| MovImm (dst : reg) (v : Z)
| MovStore (dst_ptr src : reg)     (** [mov [dst_ptr], src] *)
| MovCr3 (src : reg)
| MovFromGs (dst : reg) (x : gsvar)
| MovToGs (x : gsvar) (src : reg)
| AddRsp (n : Z)
| SwapGs
| Call (f : machine → machine)     (** a function with the C calling convention *)
| RetI
| Sysretq.

Definition push_word (v : Z) (m : machine) : machine :=
  let sp := wrap 64 (regs m RSP - 8) in
  set_reg RSP sp (set_mem sp v m).

Definition pop_word (m : machine) : Z * machine :=
  (mem m (regs m RSP), set_reg RSP (wrap 64 (regs m RSP + 8)) m).

Definition step (i : instr) (m : machine) : machine :=
  match i with
  | Push r => push_word (regs m r) m
  | PushImm v => push_word v m
  | PushGs x => push_word (gs m x) m
  | Pop r => let '(v, m) := pop_word m in set_reg r v m
  | MovReg d s => set_reg d (regs m s) m
  | MovImm d v => set_reg d v m
  | MovStore p s => set_mem (regs m p) (regs m s) m
  | MovCr3 s => set_cr3 (regs m s) m
  | MovFromGs d x => set_reg d (gs m x) m
  | MovToGs x s => set_gs x (regs m s) m
  | AddRsp n => set_reg RSP (wrap 64 (regs m RSP + n)) m
  | SwapGs => swap_gs m
  | Call f => f m
  | RetI => let '(v, m) := pop_word m in set_rip v m
  | Sysretq =>
      mkMachine (regs m) (mem m) (cr3 m) (regs m RCX) (regs m R11) (gs m) (gs_is_kernel m) true
  end.

Definition exec (code : list instr) (m : machine) : machine := foldl (λ m i, step i m) m code.

(** ** [switch_to_task] *)
Definition switch_to_task : list instr :=
  [ Push RAX; Push RBX; Push RCX; Push RDX; Push RBP; Push RSI; Push RDI;
    Push R8; Push R9; Push R10; Push R11; Push R12; Push R13; Push R14; Push R15;
    MovStore RDI RSP;
    MovReg RSP RSI;
    MovCr3 RDX;
    Pop R15; Pop R14; Pop R13; Pop R12; Pop R11; Pop R10; Pop R9; Pop R8;
    Pop RDI; Pop RSI; Pop RBP; Pop RDX; Pop RCX; Pop RBX; Pop RAX;
    RetI ].

(** The part of [Task::new] that prepares the stack: the words are written
    through [write]; the result is the initial stack pointer. *)
Definition initial_stack {R} (write : Z → Z → R → outcome R) (top task_setup start_fn arg : Z) (r : R)
  : outcome (Z * R) :=
  _ ← assert_ (top mod 8 =? 0);
  r ← write (top - 2 * 8) task_setup r;
  r ← write (top - 8 * 8) arg r;
  r ← write (top - 9 * 8) start_fn r;
  let num_general_purpose_registers := 15 in
  let stack_top_offset := num_general_purpose_registers + 2 in
  mret (top - stack_top_offset * 8, r).

(** ** [syscall_handler]

    [USER_DATA_SELECTOR] is entry 3 and [USER_CODE_SELECTOR] entry 4 of the GDT,
    both with privilege level 3. *)
Definition USER_DATA_SELECTOR : Z := Z.lor (Z.shiftl 3 3) 3.
Definition USER_CODE_SELECTOR : Z := Z.lor (Z.shiftl 4 3) 3.

Definition syscall_handler (syscall_handler_inner : machine → machine) : list instr :=
  [ SwapGs;
    MovToGs USER_STACK_SCRATCH RSP;
    MovFromGs RSP TOP_OF_KERNEL_STACK;
    PushImm USER_DATA_SELECTOR;
    PushGs USER_STACK_SCRATCH;
    Push R11;
    PushImm USER_CODE_SELECTOR;
    Push RCX;
    Push RDI;
    Push RDI; Push RSI; Push RDX; Push RCX; Push RAX; Push R8; Push R9; Push R10; Push R11;
    Push RBX; Push RBP; Push R12; Push R13; Push R14; Push R15;
    MovReg RDI RSP;
    Call syscall_handler_inner;
    Pop R15; Pop R14; Pop R13; Pop R12; Pop RBP; Pop RBX;
    Pop R11; Pop R10; Pop R9; Pop R8; Pop RAX; Pop RCX; Pop RDX; Pop RSI; Pop RDI;
    Pop RDI;
    Pop RCX;
    AddRsp 8;
    Pop R11;
    Pop RAX;
    AddRsp 8;
    MovToGs TOP_OF_KERNEL_STACK RSP;
    MovReg RSP RAX;
    SwapGs;
    Sysretq ].

(** The [syscall] instruction: the return address goes to [rcx], the flags to
    [r11]; [SFMASK] holds the interrupt flag. *)
Definition INTERRUPT_FLAG : Z := 0x200.
Definition syscall_instruction (handler next_rip : Z) (m : machine) : machine :=
  mkMachine (upd (upd (regs m) RCX next_rip) R11 (rflags m)) (mem m) (cr3 m) handler
    (Z.ldiff (rflags m) INTERRUPT_FLAG) (gs m) (gs_is_kernel m) false.

(** [TaskRegisters], in the order of its fields. *)
Record TaskRegisters : Type := mkTaskRegisters {
  tr_r15 : Z; tr_r14 : Z; tr_r13 : Z; tr_r12 : Z; tr_rbp : Z; tr_rbx : Z;
  tr_r11 : Z; tr_r10 : Z; tr_r9 : Z; tr_r8 : Z; tr_rax : Z; tr_rcx : Z; tr_rdx : Z; tr_rsi : Z; tr_rdi : Z;
  syscall_number_or_irq_or_error_code : Z;
  tr_rip : Z; tr_cs : Z; tr_rflags : Z; tr_rsp : Z; tr_ss : Z;
}.

Definition task_registers_default : TaskRegisters := mkTaskRegisters 0 0 0 0 0 0 0 0 0 0 0 0 0 0 0 0 0 0 0 0 0.

(** A [&TaskRegisters] at an address. *)
Definition read_task_registers (m : store) (a : Z) : TaskRegisters :=
  mkTaskRegisters (m a) (m (a + 8)) (m (a + 16)) (m (a + 24)) (m (a + 32)) (m (a + 40))
    (m (a + 48)) (m (a + 56)) (m (a + 64)) (m (a + 72)) (m (a + 80)) (m (a + 88)) (m (a + 96)) (m (a + 104))
    (m (a + 112)) (m (a + 120)) (m (a + 128)) (m (a + 136)) (m (a + 144)) (m (a + 152)) (m (a + 160)).

(** ** [jump_to_userspace] *)
Definition jump_to_userspace : list instr :=
  [ MovToGs TOP_OF_KERNEL_STACK RSP;
    MovReg RSP RSI;
    MovReg RCX RDI;
    MovImm R11 INTERRUPT_FLAG;
    SwapGs;
    Sysretq ].

(** ** Pushing and popping *)
Definition push_all (vs : list Z) (m : machine) : machine := foldl (λ m v, push_word v m) m vs.

(** [vs] is on the stack, from [sp] upwards. *)
Definition frame_at (m : store) (sp : Z) (vs : list Z) : Prop :=
  ∀ i v, vs !! i = Some v → m (sp + 8 * Z.of_nat i) = v.

(** Everything but the general purpose registers and memory. *)
Definition same_rest (m m' : machine) : Prop :=
  cr3 m' = cr3 m ∧ rip m' = rip m ∧ rflags m' = rflags m ∧ gs m' = gs m ∧
  gs_is_kernel m' = gs_is_kernel m ∧ user_mode m' = user_mode m.

Ltac machine_cbn := cbn [exec foldl step push_word pop_word set_reg set_mem set_cr3 set_rip set_gs swap_gs
  regs mem cr3 rip rflags gs gs_is_kernel user_mode].

Lemma wrap_id x : 0 ≤ x < 2 ^ 64 → wrap 64 x = x.
Proof. apply Z.mod_small. Qed.

Lemma upd_eq {A} `{EqDecision A} (f : A → Z) a v : upd f a v a = v.
Proof. unfold upd. by rewrite decide_True. Qed.
Lemma upd_ne {A} `{EqDecision A} (f : A → Z) a b v : b ≠ a → upd f a v b = f b.
Proof. intros. unfold upd. by rewrite decide_False. Qed.

Lemma push_all_ok vs : ∀ m, 8 * zlen vs ≤ regs m RSP < 2 ^ 64 →
  regs (push_all vs m) RSP = regs m RSP - 8 * zlen vs ∧
  (∀ r, r ≠ RSP → regs (push_all vs m) r = regs m r) ∧
  frame_at (mem (push_all vs m)) (regs m RSP - 8 * zlen vs) (reverse vs) ∧
  (∀ x, ¬ regs m RSP - 8 * zlen vs ≤ x < regs m RSP → mem (push_all vs m) x = mem m x) ∧
  same_rest m (push_all vs m).
Proof.
  induction vs as [|v vs IH]; intros m Hsp.
  { change (zlen (@nil Z)) with 0. rewrite Z.mul_0_r, Z.sub_0_r. unfold frame_at. by split_and!. }
  rewrite zlen_cons in *. pose proof (zlen_nonneg vs). cbn [push_all foldl]. fold (push_all vs (push_word v m)).
  assert (Esp : regs (push_word v m) RSP = regs m RSP - 8).
  { unfold push_word. cbn. rewrite upd_eq. apply wrap_id. lia. }
  destruct (IH (push_word v m)) as (E1 & E2 & E3 & E4 & E5); [rewrite Esp; lia|].
  rewrite Esp in *. split_and!.
  - rewrite E1. lia.
  - intros r Hr. rewrite E2 by done. by apply upd_ne.
  - intros i w. rewrite reverse_cons. intros [Hi|[Hi Hw]]%lookup_app_Some.
    + replace (regs m RSP - 8 * (zlen vs + 1)) with (regs m RSP - 8 - 8 * zlen vs) by lia. by apply E3.
    + rewrite length_reverse in Hi, Hw. apply list_lookup_singleton_Some in Hw as [Hw <-].
      rewrite E4 by (unfold zlen in *; lia). unfold push_word. cbn. rewrite wrap_id by lia.
      replace (regs m RSP - 8 * (zlen vs + 1) + 8 * Z.of_nat i) with (regs m RSP - 8) by (unfold zlen; lia).
      apply store_set_eq.
  - intros x Hx. rewrite E4 by lia. unfold push_word. cbn. rewrite wrap_id by lia. apply store_set_ne. lia.
  - done.
Qed.

(** The value an instruction pushes. *)
Definition push_value (m : machine) (i : instr) : option Z :=
  match i with
  | Push r => if decide (r = RSP) then None else Some (regs m r)
  | PushImm v => Some v
  | PushGs x => Some (gs m x)
  | _ => None
  end.

Lemma exec_push code : ∀ m vs, push_value m <$> code = Some <$> vs → exec code m = push_all vs m.
Proof.
  induction code as [|i code IH]; intros m [|v vs] E; try done.
  injection E as Ei E. cbn [exec push_all foldl].
  assert (step i m = push_word v m) as ->.
  { destruct i; cbn in Ei |- *; try done; [case_decide; [done|]|..]; by injection Ei as ->. }
  apply IH. transitivity (push_value m <$> code); [|exact E]. apply list_fmap_ext. intros k j _.
  destruct j; cbn; try done. case_decide; [done|]. by rewrite upd_ne.
Qed.

(** Popping into a register, or nowhere. *)
Definition pop_into (o : option reg) : instr := match o with Some r => Pop r | None => AddRsp 8 end.

Fixpoint load_all (rs : list (option reg)) (vs : list Z) (f : reg → Z) : reg → Z :=
  match rs, vs with
  | Some r :: rs, v :: vs => load_all rs vs (upd f r v)
  | None :: rs, _ :: vs => load_all rs vs f
  | _, _ => f
  end.

Lemma load_all_ext rs : ∀ vs f g r, (∀ x, x ≠ RSP → f x = g x) → r ≠ RSP →
  load_all rs vs f r = load_all rs vs g r.
Proof.
  induction rs as [|[q|] rs IH]; intros [|v vs] f g r Hfg Hr; cbn [load_all]; auto.
  apply IH; [|done]. intros x Hx. unfold upd. case_decide; auto.
Qed.

Lemma exec_pop rs : ∀ vs m,
  length rs = length vs → Some RSP ∉ rs → frame_at (mem m) (regs m RSP) vs →
  0 ≤ regs m RSP → regs m RSP + 8 * zlen vs < 2 ^ 64 →
  let m' := exec (pop_into <$> rs) m in
  regs m' RSP = regs m RSP + 8 * zlen vs ∧
  (∀ r, r ≠ RSP → regs m' r = load_all rs vs (regs m) r) ∧
  mem m' = mem m ∧ same_rest m m'.
Proof.
  induction rs as [|o rs IH]; intros vs m Hl Hsp Hf H0 H1; cbn zeta.
  { destruct vs; [|done]. change (zlen (@nil Z)) with 0. rewrite Z.mul_0_r, Z.add_0_r. by split_and!. }
  destruct vs as [|v vs]; [done|]. apply not_elem_of_cons in Hsp as [Ho Hsp]. rewrite zlen_cons in *.
  pose proof (zlen_nonneg vs). cbn [fmap list_fmap exec foldl].
  set (m1 := step (pop_into o) m). fold (exec (pop_into <$> rs) m1).
  assert (E0 : mem m (regs m RSP) = v) by (rewrite <-(Z.add_0_r (regs m RSP)); by apply (Hf 0%nat)).
  assert (Em : mem m1 = mem m) by (by destruct o).
  assert (Esp : regs m1 RSP = regs m RSP + 8).
  { destruct o as [r|]; cbn; [rewrite upd_ne by congruence|]; rewrite upd_eq; apply wrap_id; lia. }
  assert (Er : ∀ x, x ≠ RSP → regs m1 x = match o with Some r => upd (regs m) r v x | None => regs m x end).
  { intros x Hx. destruct o as [r|]; cbn; [rewrite E0; unfold upd; repeat case_decide; congruence|by apply upd_ne]. }
  destruct (IH vs m1) as (E1 & E2 & E3 & E4); [by injection Hl|done| |lia|lia|].
  { rewrite Em, Esp. intros i w Hi. rewrite <-(Hf (S i) w Hi). f_equal. lia. }
  split_and!; [rewrite E1; lia| |by rewrite E3|by destruct o].
  intros r Hr. rewrite E2 by done. destruct o as [q|]; cbn [load_all]; by apply load_all_ext.
Qed.

(** ** One switch *)
Definition saved_regs : list reg :=
  [RAX; RBX; RCX; RDX; RBP; RSI; RDI; R8; R9; R10; R11; R12; R13; R14; R15].

Definition saved_values (m : machine) : list Z := regs m <$> saved_regs.

(** The memory after the first half of a switch: the registers are on the stack
    and the stack pointer is at [[rdi]]. *)
Definition parked (m : machine) : store :=
  store_set (mem (push_all (saved_values m) m)) (regs m RDI) (regs m RSP - 120).

Lemma exec_app c1 c2 m : exec (c1 ++ c2) m = exec c2 (exec c1 m).
Proof. unfold exec. by rewrite foldl_app. Qed.

Lemma switch_to_task_split :
  switch_to_task = (Push <$> saved_regs) ++ [MovStore RDI RSP; MovReg RSP RSI; MovCr3 RDX]
    ++ (pop_into <$> (Some <$> reverse saved_regs)) ++ [RetI].
Proof. reflexivity. Qed.

Lemma switch_middle m :
  let m' := exec [MovStore RDI RSP; MovReg RSP RSI; MovCr3 RDX] m in
  mem m' = store_set (mem m) (regs m RDI) (regs m RSP) ∧ regs m' RSP = regs m RSI ∧
  (∀ r, r ≠ RSP → regs m' r = regs m r) ∧ cr3 m' = regs m RDX.
Proof. cbn zeta. machine_cbn. split_and!; [done|apply upd_eq|intros; by apply upd_ne|by apply upd_ne]. Qed.

Lemma switch_spec m vs ra :
  120 ≤ regs m RSP < 2 ^ 64 → 0 ≤ regs m RSI → regs m RSI + 128 < 2 ^ 64 → length vs = 15%nat →
  frame_at (parked m) (regs m RSI) (vs ++ [ra]) →
  let m' := exec switch_to_task m in
  (∀ r, r ≠ RSP → regs m' r = load_all (Some <$> reverse saved_regs) vs (regs m) r) ∧
  regs m' RSP = regs m RSI + 128 ∧ rip m' = ra ∧ cr3 m' = regs m RDX ∧ mem m' = parked m.
Proof.
  intros Hsp H0 H1 Hl Hf. cbn zeta. rewrite switch_to_task_split, !exec_app.
  rewrite (exec_push _ m (saved_values m)) by done.
  destruct (push_all_ok (saved_values m) m) as (E1 & E2 & _ & _ & _).
  { change (8 * zlen (saved_values m)) with 120. lia. }
  change (8 * zlen (saved_values m)) with 120 in *. unfold parked in *.
  generalize dependent (push_all (saved_values m) m). intros m1 Hf E1 E2.
  destruct (switch_middle m1) as (G1 & G2 & G3 & G4). rewrite E1, !E2 in * by done.
  generalize dependent (exec [MovStore RDI RSP; MovReg RSP RSI; MovCr3 RDX] m1). intros m2 G1 G2 G3 G4.
  destruct (exec_pop (Some <$> reverse saved_regs) vs m2) as (F1 & F2 & F3 & F4 & _).
  { by rewrite Hl. }
  { apply (bool_decide_unpack _). vm_compute. exact I. }
  { rewrite G1, G2. intros i v Hi. apply Hf. by apply lookup_app_l_Some. }
  { lia. }
  { rewrite G2. unfold zlen. rewrite Hl. lia. }
  assert (Hz : 8 * zlen vs = 120) by (unfold zlen; rewrite Hl; done). rewrite Hz, G2 in F1.
  generalize dependent (exec (pop_into <$> (Some <$> reverse saved_regs)) m2). intros m3 F1 F2 F3 F4.
  machine_cbn. split_and!.
  - intros r Hr. rewrite upd_ne by done. rewrite F2 by done. apply load_all_ext; [|done].
    intros x Hx. by rewrite G3, E2.
  - rewrite upd_eq, F1. rewrite wrap_id; lia.
  - rewrite F1, F3, G1. specialize (Hf 15%nat ra). rewrite lookup_app_r, Hl in Hf by lia.
    by rewrite <-(Hf eq_refl).
  - by rewrite F4, G4.
  - by rewrite F3, G1.
Qed.

(** Whatever the target's stack holds, the first half parks the caller. *)
Lemma switch_parks m :
  120 ≤ regs m RSP < 2 ^ 64 → 0 ≤ regs m RSI → regs m RSI + 128 < 2 ^ 64 →
  mem (exec switch_to_task m) = parked m.
Proof.
  intros H0 H1 H2. set (w := λ i, parked m (regs m RSI + 8 * Z.of_nat i)).
  destruct (switch_spec m (w <$> seq 0 15) (w 15%nat)) as (_ & _ & _ & _ & E); [done|done|done|done| |exact E].
  change ((w <$> seq 0 15) ++ [w 15%nat]) with (w <$> seq 0 16).
  intros i v. rewrite list_lookup_fmap. destruct (seq 0 16 !! i) as [j|] eqn:Ej; [|done].
  apply lookup_seq in Ej as [-> _]. by intros [= <-].
Qed.

Lemma parked_frame m x :
  120 ≤ regs m RSP < 2 ^ 64 → ¬ (regs m RSP - 120 ≤ x < regs m RSP) → x ≠ regs m RDI →
  parked m x = mem m x.
Proof.
  intros Hsp Hx Hd. unfold parked. rewrite store_set_ne by done.
  destruct (push_all_ok (saved_values m) m) as (_ & _ & _ & E & _);
    change (8 * zlen (saved_values m)) with 120 in *; [lia|]. by apply E.
Qed.

Lemma parked_saved m :
  120 ≤ regs m RSP < 2 ^ 64 → ¬ (regs m RSP - 120 ≤ regs m RDI < regs m RSP) →
  frame_at (parked m) (regs m RSP - 120) (reverse (saved_values m)).
Proof.
  intros Hsp Hd i v Hi. unfold parked. assert (Hi' := lookup_lt_Some _ _ _ Hi).
  change (length (reverse (saved_values m))) with 15%nat in Hi'. rewrite store_set_ne by lia.
  destruct (push_all_ok (saved_values m) m) as (_ & _ & E & _ & _);
    change (8 * zlen (saved_values m)) with 120 in *; [lia|]. by apply E.
Qed.

Lemma load_saved m f r : r ≠ RSP → load_all (Some <$> reverse saved_regs) (reverse (saved_values m)) f r = regs m r.
Proof. by destruct r. Qed.

(** C11: A task that is switched away from, and whose saved frame is left alone,
    continues as if [switch_to_task] were an ordinary call: when another task
    switches back to the stack pointer stored in its task, all of its general purpose
    registers, its return address and its stack pointer are as they were, on the page
    table given. *)
Theorem switch_round_trip m0 m2 :
  120 ≤ regs m0 RSP → regs m0 RSP + 8 < 2 ^ 64 →
  0 ≤ regs m0 RSI → regs m0 RSI + 128 < 2 ^ 64 →
  ¬ (regs m0 RSP - 120 ≤ regs m0 RDI < regs m0 RSP + 8) →
  120 ≤ regs m2 RSP < 2 ^ 64 →
  (∀ x, regs m0 RSP - 120 ≤ x < regs m0 RSP + 8 →
     mem m2 x = mem (exec switch_to_task m0) x ∧ x ≠ regs m2 RDI ∧ ¬ (regs m2 RSP - 120 ≤ x < regs m2 RSP)) →
  regs m2 RSI = mem (exec switch_to_task m0) (regs m0 RDI) →
  let m' := exec switch_to_task m2 in
  (∀ r, r ≠ RSP → regs m' r = regs m0 r) ∧ regs m' RSP = regs m0 RSP + 8 ∧
  rip m' = mem m0 (regs m0 RSP) ∧ cr3 m' = regs m2 RDX.
Proof.
  intros Hs Hs' H1 H1' Hd Hs2 Hx Hsi. rewrite (switch_parks m0) in * by (done || lia).
  assert (Esi : regs m2 RSI = regs m0 RSP - 120) by (rewrite Hsi; apply store_set_eq).
  destruct (switch_spec m2 (reverse (saved_values m0)) (mem m0 (regs m0 RSP))) as (E1 & E2 & E3 & E4 & _).
  { done. } { lia. } { lia. } { done. }
  - rewrite Esi. intros i v Hi. assert (Hi' := lookup_lt_Some _ _ _ Hi).
    change (length _) with 16%nat in Hi'.
    destruct (Hx (regs m0 RSP - 120 + 8 * Z.of_nat i)) as (Em & Hn1 & Hn2); [lia|].
    rewrite parked_frame by done. rewrite Em. apply lookup_app_Some in Hi as [Hi|[Hi1 Hi2]].
    + apply parked_saved; [lia|lia|done].
    + change (length (reverse _)) with 15%nat in Hi1, Hi2. apply list_lookup_singleton_Some in Hi2 as [Hi2 <-].
      replace (regs m0 RSP - 120 + 8 * Z.of_nat i) with (regs m0 RSP) by lia. apply parked_frame; lia.
  - cbn zeta. split_and!; [|lia|done|done]. intros r Hr. rewrite E1 by done. by apply load_saved.
Qed.

(** Two tasks on stacks of their own: the first parks itself at [0x5000] in the task
    at [0x100] and the second switches back. *)
Definition demo_machine (sp rdi rsi rbx : Z) (m : store) : machine :=
  mkMachine (upd (upd (upd (upd (λ _, 0) RSP sp) RDI rdi) RSI rsi) RBX rbx) m 0 0 0 (λ _, 0) true false.
Definition demo_first : machine := demo_machine 0x5000 0x100 0x7000 42 (λ x, x).
Definition demo_second : machine :=
  demo_machine 0x7100 0x108 (0x5000 - 120) 1 (mem (exec switch_to_task demo_first)).

Lemma mem_demo sp rdi rsi rbx m : mem (demo_machine sp rdi rsi rbx m) = m.
Proof. done. Qed.

Lemma switch_round_trip_witness :
  regs (exec switch_to_task demo_second) RBX = 42 ∧ rip (exec switch_to_task demo_second) = 0x5000.
Proof.
  assert (F1 : regs demo_first RSP = 0x5000) by reflexivity.
  assert (F2 : regs demo_first RDI = 0x100) by reflexivity.
  assert (F3 : regs demo_first RSI = 0x7000) by reflexivity.
  assert (F4 : regs demo_second RSP = 0x7100) by reflexivity.
  assert (F5 : regs demo_second RDI = 0x108) by reflexivity.
  assert (F6 : mem demo_second = mem (exec switch_to_task demo_first)) by apply mem_demo.
  assert (F7 : mem (exec switch_to_task demo_first) (regs demo_first RDI) = 0x5000 - 120).
  { rewrite switch_parks by (rewrite ?F1, ?F3; lia). unfold parked. by rewrite store_set_eq, F1. }
  assert (F8 : regs demo_second RSI = 0x5000 - 120) by reflexivity.
  destruct (switch_round_trip demo_first demo_second) as (E1 & _ & E3 & _);
    rewrite ?F7, ?F1, ?F2, ?F3, ?F4, ?F5, ?F8; try lia.
  - intros x Hx. split_and!; [by rewrite F6|lia|lia].
  - split; [rewrite E1 by discriminate; reflexivity|rewrite E3, F1; reflexivity].
Defined.

(** ** The first switch to a task *)
Lemma store_set_at m a v x : x = a → store_set m a v x = v.
Proof. intros ->. apply store_set_eq. Qed.

Definition flat_write (a v : Z) (m : store) : outcome store := Ret (store_set m a v).

Definition initial_frame (task_setup start_fn arg : Z) : list Z :=
  [0; 0; 0; 0; 0; 0; 0; 0; start_fn; arg; 0; 0; 0; 0; 0; task_setup; 0].

Lemma initial_stack_frame m top task_setup start_fn arg :
  top mod 8 = 0 → (∀ x, top - 136 ≤ x < top → m x = 0) →
  ∃ m', initial_stack flat_write top task_setup start_fn arg m = Ret (top - 136, m') ∧
        frame_at m' (top - 136) (initial_frame task_setup start_fn arg).
Proof.
  intros Ht Hz. unfold initial_stack, flat_write. rewrite Ht. cbn [Z.eqb assert_]. run_monad.
  eexists. split; [reflexivity|]. intros i v Hi. assert (Hi' := lookup_lt_Some _ _ _ Hi). cbn in Hi'.
  do 17 (destruct i as [|i]; [injection Hi as <-; repeat first [rewrite store_set_ne by lia | rewrite store_set_at by lia]; (reflexivity || (apply Hz; lia))|]).
  lia.
Qed.

Lemma load_initial task_setup start_fn arg f r : r ≠ RSP → r ≠ RDI → r ≠ RSI →
  load_all (Some <$> reverse saved_regs) (take 15 (initial_frame task_setup start_fn arg)) f r = 0.
Proof. by destruct r. Qed.

(** The first switch to a task starts [task_setup(start_fn, arg)] on the task's own
    stack: [rip], [rdi] and [rsi] are what [Task::new] put there, every other register
    is zero, and the word the stack pointer is left at, where a stack walk ends, is
    zero. *)
Theorem first_switch stack top task_setup start_fn arg :
  top mod 8 = 0 → 136 ≤ top < 2 ^ 64 → (∀ x, top - 136 ≤ x < top → stack x = 0) →
  ∃ sp stack', initial_stack flat_write top task_setup start_fn arg stack = Ret (sp, stack') ∧
    (∀ m, 120 ≤ regs m RSP < 2 ^ 64 →
     (∀ x, top - 136 ≤ x < top → mem m x = stack' x ∧ x ≠ regs m RDI ∧ ¬ (regs m RSP - 120 ≤ x < regs m RSP)) →
     regs m RSI = sp →
     let m' := exec switch_to_task m in
     rip m' = task_setup ∧ regs m' RDI = start_fn ∧ regs m' RSI = arg ∧
     (∀ r, r ≠ RSP → r ≠ RDI → r ≠ RSI → regs m' r = 0) ∧
     regs m' RSP = top - 8 ∧ mem m' (top - 8) = 0 ∧ cr3 m' = regs m RDX).
Proof.
  intros Ht Hb Hz. destruct (initial_stack_frame stack top task_setup start_fn arg Ht Hz) as (stack' & E & Hf).
  exists (top - 136), stack'. split; [done|]. intros m Hsp Hx Hsi. cbn zeta.
  assert (Hp : frame_at (parked m) (top - 136) (initial_frame task_setup start_fn arg)).
  { intros i v Hi. assert (Hi' := lookup_lt_Some _ _ _ Hi). change (length _) with 17%nat in Hi'.
    destruct (Hx (top - 136 + 8 * Z.of_nat i)) as (Em & Hn1 & Hn2); [lia|].
    rewrite parked_frame by done. rewrite Em. by apply Hf. }
  destruct (switch_spec m (take 15 (initial_frame task_setup start_fn arg)) task_setup) as (E1 & E2 & E3 & E4 & E5).
  { done. } { lia. } { lia. } { done. }
  { rewrite Hsi. intros i v Hi. apply Hp.
    change (initial_frame task_setup start_fn arg) with ((take 15 (initial_frame task_setup start_fn arg) ++ [task_setup]) ++ [0]).
    by apply lookup_app_l_Some. }
  split_and!; [done|by rewrite E1|by rewrite E1| |rewrite E2; lia| |done].
  - intros r H1 H2 H3. rewrite E1 by exact H1. by apply load_initial.
  - rewrite E5. specialize (Hp 16%nat 0 eq_refl). rewrite <-Hp. f_equal. lia.
Qed.

Lemma first_switch_witness :
  ∃ sp stack', initial_stack flat_write 0x9000 77 88 99 (λ _, 0) = Ret (sp, stack') ∧
    rip (exec switch_to_task (demo_machine 0x5000 0x100 sp 0 stack')) = 77.
Proof.
  destruct (first_switch (λ _, 0) 0x9000 77 88 99) as (sp & stack' & E & Hs); [reflexivity|lia|done|].
  exists sp, stack'. split; [exact E|].
  destruct (Hs (demo_machine 0x5000 0x100 sp 0 stack')) as [Hr _]; [| |reflexivity|exact Hr].
  - change (regs _ RSP) with 0x5000. lia.
  - intros x Hx. rewrite mem_demo. change (regs _ RSP) with 0x5000. change (regs _ RDI) with 0x100.
    split_and!; [reflexivity|lia|lia].
Defined.

(** ** System calls *)

(** The System V calling convention: callee-saved registers and the caller's part of
    the stack survive a call; so does the segment base. *)
Record c_call (f : machine → machine) : Prop := {
  cc_saved : ∀ m r, r ∈ [RBX; RBP; R12; R13; R14; R15; RSP] → regs (f m) r = regs m r;
  cc_stack : ∀ m x, regs m RSP ≤ x → mem (f m) x = mem m x;
  cc_gs : ∀ m, gs_is_kernel (f m) = gs_is_kernel m;
}.

Definition syscall_pushed (m : machine) : list Z :=
  [ USER_DATA_SELECTOR; regs m RSP; regs m R11; USER_CODE_SELECTOR; regs m RCX; regs m RDI;
    regs m RDI; regs m RSI; regs m RDX; regs m RCX; regs m RAX; regs m R8; regs m R9; regs m R10; regs m R11;
    regs m RBX; regs m RBP; regs m R12; regs m R13; regs m R14; regs m R15 ].

Definition syscall_popped : list (option reg) :=
  [ Some R15; Some R14; Some R13; Some R12; Some RBP; Some RBX;
    Some R11; Some R10; Some R9; Some R8; Some RAX; Some RCX; Some RDX; Some RSI; Some RDI;
    Some RDI; Some RCX; None; Some R11; Some RAX; None ].

(** What [syscall_handler_inner] finds behind its argument. *)
Definition syscall_registers (m : machine) : TaskRegisters :=
  {| tr_r15 := regs m R15; tr_r14 := regs m R14; tr_r13 := regs m R13; tr_r12 := regs m R12;
     tr_rbp := regs m RBP; tr_rbx := regs m RBX; tr_r11 := regs m R11; tr_r10 := regs m R10;
     tr_r9 := regs m R9; tr_r8 := regs m R8; tr_rax := regs m RAX; tr_rcx := regs m RCX;
     tr_rdx := regs m RDX; tr_rsi := regs m RSI; tr_rdi := regs m RDI;
     syscall_number_or_irq_or_error_code := regs m RDI;
     tr_rip := regs m RCX; tr_cs := USER_CODE_SELECTOR; tr_rflags := regs m R11;
     tr_rsp := regs m RSP; tr_ss := USER_DATA_SELECTOR |}.

Lemma syscall_handler_entry f :
  take 25 (syscall_handler f) = [SwapGs; MovToGs USER_STACK_SCRATCH RSP; MovFromGs RSP TOP_OF_KERNEL_STACK]
    ++ take 21 (drop 3 (syscall_handler f)) ++ [MovReg RDI RSP].
Proof. reflexivity. Qed.

Lemma syscall_handler_split f :
  syscall_handler f = take 25 (syscall_handler f) ++ [Call f] ++ (pop_into <$> syscall_popped)
    ++ [MovToGs TOP_OF_KERNEL_STACK RSP; MovReg RSP RAX; SwapGs; Sysretq].
Proof. reflexivity. Qed.

Lemma read_frame m a vs :
  frame_at m a vs → length vs = 21%nat →
  ∃ r, read_task_registers m a = r ∧
    vs = [tr_r15 r; tr_r14 r; tr_r13 r; tr_r12 r; tr_rbp r; tr_rbx r; tr_r11 r; tr_r10 r; tr_r9 r; tr_r8 r;
          tr_rax r; tr_rcx r; tr_rdx r; tr_rsi r; tr_rdi r; syscall_number_or_irq_or_error_code r;
          tr_rip r; tr_cs r; tr_rflags r; tr_rsp r; tr_ss r].
Proof.
  intros Hf Hl. eexists. split; [reflexivity|]. unfold read_task_registers. cbn.
  do 21 (destruct vs as [|? vs]; [done|]). destruct vs; [|done].
  rewrite <-(Z.add_0_r a) at 1.
  repeat f_equal; symmetry; [apply (Hf 0%nat)|apply (Hf 1%nat)|apply (Hf 2%nat)|apply (Hf 3%nat)|apply (Hf 4%nat)
    |apply (Hf 5%nat)|apply (Hf 6%nat)|apply (Hf 7%nat)|apply (Hf 8%nat)|apply (Hf 9%nat)|apply (Hf 10%nat)
    |apply (Hf 11%nat)|apply (Hf 12%nat)|apply (Hf 13%nat)|apply (Hf 14%nat)|apply (Hf 15%nat)|apply (Hf 16%nat)
    |apply (Hf 17%nat)|apply (Hf 18%nat)|apply (Hf 19%nat)|apply (Hf 20%nat)]; reflexivity.
Qed.

Lemma syscall_entry m f :
  168 ≤ gs m TOP_OF_KERNEL_STACK < 2 ^ 64 →
  let m3 := exec (take 25 (syscall_handler f)) m in
  regs m3 RSP = gs m TOP_OF_KERNEL_STACK - 168 ∧ regs m3 RDI = gs m TOP_OF_KERNEL_STACK - 168 ∧
  frame_at (mem m3) (gs m TOP_OF_KERNEL_STACK - 168) (reverse (syscall_pushed m)) ∧
  gs_is_kernel m3 = negb (gs_is_kernel m).
Proof.
  intros Hk. cbn zeta. rewrite syscall_handler_entry, !exec_app.
  set (m1 := exec [SwapGs; MovToGs USER_STACK_SCRATCH RSP; MovFromGs RSP TOP_OF_KERNEL_STACK] m).
  assert (E1 : regs m1 RSP = gs m TOP_OF_KERNEL_STACK) by reflexivity.
  assert (E2 : gs_is_kernel m1 = negb (gs_is_kernel m)) by reflexivity.
  rewrite (exec_push _ m1 (syscall_pushed m)) by reflexivity. clearbody m1.
  destruct (push_all_ok (syscall_pushed m) m1) as (F1 & F2 & F3 & _ & F5);
    change (8 * zlen (syscall_pushed m)) with 168 in *; [lia|].
  generalize dependent (push_all (syscall_pushed m) m1). intros m2 F1 F2 F3 F5.
  machine_cbn. rewrite upd_eq, upd_ne by done. rewrite F1, E1 in *. split_and!; [done|done|done|].
  destruct F5 as (_ & _ & _ & _ & -> & _). done.
Qed.

Lemma syscall_exit_path m f u :
  c_call f → 168 ≤ gs u TOP_OF_KERNEL_STACK < 2 ^ 64 →
  regs m RSP = gs u TOP_OF_KERNEL_STACK - 168 →
  frame_at (mem m) (gs u TOP_OF_KERNEL_STACK - 168) (reverse (syscall_pushed u)) →
  let m' := exec ((pop_into <$> syscall_popped) ++ [MovToGs TOP_OF_KERNEL_STACK RSP; MovReg RSP RAX; SwapGs; Sysretq])
              (f m) in
  (∀ r, r ≠ RAX → regs m' r = regs u r) ∧ regs m' RAX = regs u RSP ∧
  rip m' = regs u RCX ∧ rflags m' = regs u R11 ∧ user_mode m' = true ∧
  gs m' TOP_OF_KERNEL_STACK = gs u TOP_OF_KERNEL_STACK ∧ gs_is_kernel m' = negb (gs_is_kernel m).
Proof.
  intros Hf Hk Hsp Hfr. cbn zeta. rewrite exec_app.
  assert (E0 : regs (f m) RSP = gs u TOP_OF_KERNEL_STACK - 168) by (rewrite (cc_saved f Hf); [done|set_solver]).
  assert (Eg := cc_gs f Hf m).
  assert (Hfr' : frame_at (mem (f m)) (gs u TOP_OF_KERNEL_STACK - 168) (reverse (syscall_pushed u))).
  { intros i v Hi. rewrite (cc_stack f Hf) by lia. by apply Hfr. }
  generalize dependent (f m). intros m4 E0 Eg Hfr'.
  destruct (exec_pop syscall_popped (reverse (syscall_pushed u)) m4) as (F1 & F2 & _ & F4).
  { done. }
  { apply (bool_decide_unpack _). vm_compute. exact I. }
  { by rewrite E0. }
  { lia. }
  { rewrite E0. change (8 * zlen (reverse (syscall_pushed u))) with 168. lia. }
  change (8 * zlen (reverse (syscall_pushed u))) with 168 in F1.
  generalize dependent (exec (pop_into <$> syscall_popped) m4). intros m5 F1 F2 F4.
  destruct F4 as (_ & _ & _ & _ & F4 & _). machine_cbn. split_and!.
  - intros r Hr. destruct (decide (r = RSP)) as [->|Hr'].
    + by rewrite upd_eq, F2.
    + rewrite upd_ne, F2 by done. clear - Hr Hr'. by destruct r.
  - by rewrite upd_ne, F2.
  - by rewrite upd_ne, F2.
  - by rewrite upd_ne, F2.
  - done.
  - rewrite upd_eq. lia.
  - by rewrite F4, Eg.
Qed.

Lemma syscall_runs m f :
  c_call f → 168 ≤ gs m TOP_OF_KERNEL_STACK < 2 ^ 64 → gs_is_kernel m = false →
  (∃ m3, exec (take 25 (syscall_handler f)) m = m3 ∧
     read_task_registers (mem m3) (regs m3 RDI) = syscall_registers m ∧ gs_is_kernel m3 = true) ∧
  let m' := exec (syscall_handler f) m in
  (∀ r, r ≠ RAX → regs m' r = regs m r) ∧ regs m' RAX = regs m RSP ∧
  rip m' = regs m RCX ∧ rflags m' = regs m R11 ∧ user_mode m' = true ∧
  gs m' TOP_OF_KERNEL_STACK = gs m TOP_OF_KERNEL_STACK ∧ gs_is_kernel m' = false.
Proof.
  intros Hf Hk Hg. destruct (syscall_entry m f Hk) as (E1 & E2 & E3 & E4). cbn zeta in *.
  split.
  - eexists. split; [reflexivity|]. destruct (read_frame _ _ _ E3) as (r & Er & Hr); [reflexivity|].
    split; [|by rewrite E4, Hg]. rewrite E2, Er. destruct r. cbn in Hr.
    injection Hr as <- <- <- <- <- <- <- <- <- <- <- <- <- <- <- <- <- <- <- <- <-. reflexivity.
  - rewrite (syscall_handler_split f), exec_app.
    generalize dependent (exec (take 25 (syscall_handler f)) m). intros m3 E1 E2 E3 E4.
    rewrite exec_app. change (exec [Call f] m3) with (f m3).
    destruct (syscall_exit_path m3 f m Hf Hk E1 E3) as (G1 & G2 & G3 & G4 & G5 & G6 & G7).
    split_and!; try done. by rewrite G7, E4, Hg.
Qed.


Definition demo_syscall : machine :=
  mkMachine (upd (λ _, 5) RCX 0x400000) (λ _, 0) 0 0 0 (λ _, 0x8000) false false.


(** [jump_to_userspace] enters user mode at the given instruction with the given
    stack, interrupts enabled, on the user's segment base, and keeps the kernel stack
    pointer for the next system call. *)
Theorem jump_to_userspace_enters m :
  let m' := exec jump_to_userspace m in
  rip m' = regs m RDI ∧ regs m' RSP = regs m RSI ∧ rflags m' = INTERRUPT_FLAG ∧ user_mode m' = true ∧
  gs m' TOP_OF_KERNEL_STACK = regs m RSP ∧ gs_is_kernel m' = negb (gs_is_kernel m) ∧ cr3 m' = cr3 m ∧ mem m' = mem m.
Proof. by split_and!. Qed.
