(* ===== verification/Cells.v ===== *)
(** * Cells ([kernel/src/sync/once_cell.rs], [init_cell.rs], [atomic_int.rs])

    Cells that are written once, and atomics that hold the integer of an enum. *)
From S2P Require Import Prelude.
#[local] Open Scope Z_scope.

(** ** [OnceCell]

    [borrows] is the borrow count of the [RefCell] around the message. *)
Module OnceCell.
Section cell.
Context {T : Type}.

Record t : Type := mk {
  message : option T;
  ready : bool;
  borrows : Z;
}.

Definition new : t := mk None false 0.

(** [RefCell::replace] wants to be the only borrower. *)
Definition replace (self : t) (m : option T) : outcome (option T * t) :=
  if borrows self =? 0 then Ret (message self, mk m (ready self) (borrows self)) else Panic PanicExplicit.

(** [RefCell::borrow]: the count is an [isize]. *)
Definition borrow (self : t) : outcome (option T) :=
  if borrows self <? 2 ^ 63 - 1 then Ret (message self) else Panic PanicExplicit.

Definition set (self : t) (msg : T) : outcome t :=
  '(_, self) ← replace self (Some msg);
  let old := ready self in
  let self := mk (message self) true (borrows self) in
  _ ← assert_ (negb old);
  mret self.

Definition get_once (self : t) : outcome (option T * t) :=
  let was := ready self in
  let self := mk (message self) false (borrows self) in
  if was then replace self None else mret (None, self).

(** [Ref::leak]: the borrow is never given back. *)
Definition get_ref (self : t) : outcome (option T * t) :=
  if ready self
  then m ← borrow self; mret (m, mk (message self) (ready self) (borrows self + 1))
  else mret (None, self).

Definition get_clone (self : t) : outcome (option T) :=
  if ready self then borrow self else mret None.
End cell.
Arguments t T : clear implicits.
End OnceCell.

(** ** [InitCell] *)
Module InitCell.
Section cell.
Context {T : Type}.

Definition new : OnceCell.t T := OnceCell.new.
Definition init (self : OnceCell.t T) (value : T) : outcome (OnceCell.t T) := OnceCell.set self value.
Definition get (self : OnceCell.t T) : outcome (option T * OnceCell.t T) := OnceCell.get_ref self.
End cell.
End InitCell.

(** ** [AtomicInt] and [AtomicEnum]

    The conversions between the integer and the type it stands for. *)
Class IntoInt (I T : Type) : Type := { into_int : T → I }.
Class FromInt (I T : Type) : Type := { from_int : I → T }.
Class TryFromInt (I T : Type) : Type := { try_from_int : I → option T }.

Module AtomicInt.
Section int.
Context {I T : Type} `{!IntoInt I T, !FromInt I T}.

Record t : Type := mk { atom : I }.
Definition new (val : T) : t := mk (into_int val).
Definition load (self : t) : T := from_int (atom self).
Definition store (self : t) (val : T) : t := mk (into_int val).
Definition swap (self : t) (val : T) : T * t := (from_int (atom self), mk (into_int val)).
End int.
Arguments t I : clear implicits.
End AtomicInt.

Module AtomicEnum.
Section enum.
Context {I T : Type} `{!IntoInt I T, !TryFromInt I T}.

Definition t : Type := AtomicInt.t I.
Definition new (val : T) : t := AtomicInt.mk (into_int val).

Definition convert_from_integer (val : I) : outcome T :=
  match try_from_int val with Some e => Ret e | None => Panic PanicExplicit end.

Definition load (self : t) : outcome T := convert_from_integer (AtomicInt.atom self).

Definition swap (self : t) (val : T) : outcome (T * t) :=
  let old_val := AtomicInt.atom self in
  e ← convert_from_integer old_val;
  mret (e, AtomicInt.mk (into_int val)).
End enum.
Arguments t I : clear implicits.
End AtomicEnum.

(** The conversions of an enum are inverse to each other. *)
Class EnumLaws (I T : Type) `{!IntoInt I T, !TryFromInt I T} : Prop := {
  try_from_into : ∀ e : T, try_from_int (into_int e) = Some e;
}.

(** ** What the cells promise *)
Section facts.
Context {T : Type}.
Implicit Types (c : OnceCell.t T).

(** A cell that only its senders and receivers touch is unset, holds one value, or has
    been emptied by [get_once]. *)
Definition cell_ok c : Prop := 0 ≤ OnceCell.borrows c ∧ (OnceCell.ready c = true → is_Some (OnceCell.message c)).

Lemma set_ok c (v : T) : OnceCell.ready c = false → OnceCell.borrows c = 0 →
  OnceCell.set c v = Ret (OnceCell.mk (Some v) true 0).
Proof. destruct c as [m r b]. simpl. by intros -> ->. Qed.

Lemma get_once_set (v : T) : OnceCell.get_once (OnceCell.mk (Some v) true 0) = Ret (Some v, OnceCell.mk None false 0).
Proof. done. Qed.

Lemma get_once_unset c : OnceCell.ready c = false → OnceCell.get_once c = Ret (None, c).
Proof. destruct c as [m r b]. simpl. by intros ->. Qed.
End facts.

(** An initialised [InitCell] answers with the value it was given, every time for the
    next 2^63 - 1 readers, and initialising it again stops the kernel. *)
Theorem init_cell_get {T} (v w : T) n :
  0 ≤ n < 2 ^ 63 - 1 →
  ∃ c, InitCell.init InitCell.new v = Ret c ∧
    foldM (λ _ c, '(r, c) ← InitCell.get c; match r with Some _ => mret c | None => Panic PanicExpect end)
      (range 0 n) c = Ret (OnceCell.mk (Some v) true n) ∧
    InitCell.get (OnceCell.mk (Some v) true n) = Ret (Some v, OnceCell.mk (Some v) true (n + 1)) ∧
    is_ret (InitCell.init (OnceCell.mk (Some v) true n) w) = false.
Proof.
  intros Hn. exists (OnceCell.mk (Some v) true 0). split; [done|]. split; [|split].
  - assert (Hg : ∀ k a, 0 ≤ k → 0 ≤ a → a + k < 2 ^ 63 →
      foldM (λ _ c, '(r, c) ← InitCell.get c; match r with Some _ => mret c | None => Panic PanicExpect end)
        (range 0 k) (OnceCell.mk (Some v) true a) = Ret (OnceCell.mk (Some v) true (a + k))).
    { intros k a Hk. revert a. pattern k. apply natlike_ind; [|intros j Hj IH|done].
      - intros a _ _. rewrite range_nil, Z.add_0_r by lia. done.
      - intros a Ha Hb. rewrite range_snoc, foldM_app by lia. replace (Z.succ j - 1) with j by lia.
        rewrite IH by lia. cbn [mbind outcome_bind foldM]. unfold InitCell.get, OnceCell.get_ref, OnceCell.borrow. simpl.
        destruct (Z.ltb_spec (a + j) (2 ^ 63 - 1)); [|lia]. simpl. do 2 f_equal. lia. }
    by rewrite Hg by lia.
  - unfold InitCell.get, OnceCell.get_ref, OnceCell.borrow. simpl.
    by destruct (Z.ltb_spec n (2 ^ 63 - 1)); [|lia].
  - unfold InitCell.init, OnceCell.set, OnceCell.replace. simpl. by destruct (Z.eqb_spec n 0).
Qed.

Lemma init_cell_get_witness : ∃ c, InitCell.init InitCell.new 7 = Ret c ∧ is_ret (InitCell.get c) = true.
Proof.
  destruct (init_cell_get 7 8 0) as (c & E & E1 & E2 & _); [lia|]. exists c. split; [done|].
  injection E as <-. by rewrite E2.
Defined.
