(* ===== verification/Sched.v ===== *)
(** * Tasks and the scheduler ([kernel/src/sched/task.rs], [schedcore.rs], [preempt.rs])

    The state of the scheduler is the global [TASKS] and [RUN_QUEUE] and, for each
    CPU, its per-CPU variables.  An operation runs on one CPU and is given its number.
    [TASKS] is locked only around single accesses, so its lock is not part of the
    state; the lock of the run queue is, since it is held across a switch.  The memory
    behind kernel stacks and page tables is an interface, [TaskMemory]. *)
From stdpp Require Import sorting.
From S2P Require Import Prelude External Addr PhysMem Cells Asm.
#[local] Open Scope Z_scope.

(** ** Time ([kernel/src/hpet.rs]) *)
Module Milliseconds.
Definition saturating_sub (self other : Z) : Z := Prelude.saturating_sub self other.
Definition femtoseconds (self : Z) : outcome Z := umul 64 self 1000000000000.
Definition from_femtoseconds (femtoseconds : Z) : outcome Z := udiv femtoseconds 1000000000000.
Definition add (self rhs : Z) : outcome Z := uadd 64 self rhs.

(** [elapsed_milliseconds], from the HPET's clock period and counter *)
Definition elapsed (counter_clock_period main_counter_value : Z) : outcome Z :=
  fs ← umul 64 main_counter_value counter_clock_period;
  from_femtoseconds fs.
End Milliseconds.

(** ** Task states *)
Inductive DesiredTaskState : Type := ReadyToRun | Sleeping | Killed.

#[export] Instance desired_task_state_eq_dec : EqDecision DesiredTaskState.
Proof. solve_decision. Defined.

Definition state_to_u8 (s : DesiredTaskState) : Z :=
  match s with ReadyToRun => 0 | Sleeping => 1 | Killed => 2 end.

Definition state_try_from (value : Z) : option DesiredTaskState :=
  if value =? state_to_u8 ReadyToRun then Some ReadyToRun else
  if value =? state_to_u8 Sleeping then Some Sleeping else
  if value =? state_to_u8 Killed then Some Killed else None.

#[export] Instance state_into_int : IntoInt Z DesiredTaskState := {| into_int := state_to_u8 |}.
#[export] Instance state_try_from_int : TryFromInt Z DesiredTaskState := {| try_from_int := state_try_from |}.
#[export] Instance millis_into_int : IntoInt Z Z := {| into_int := id |}.
#[export] Instance millis_from_int : FromInt Z Z := {| from_int := id |}.

Inductive TaskExitCode : Type := ExitSuccess | ExitFailure (code : Z).

Definition exit_code_from (value : Z) : TaskExitCode :=
  if value =? 0 then ExitSuccess else ExitFailure value.

(** ** Tasks *)
Record Task : Type := mkTask {
  id : Z;
  name : string;
  registers : TaskRegisters;
  desired_state : AtomicEnum.t Z;
  page_table : Z;
  remaining_slice : AtomicInt.t Z;
  kernel_stack : Z;
}.

Definition with_state (t : Task) (s : AtomicEnum.t Z) : Task :=
  mkTask (id t) (name t) (registers t) s (page_table t) (remaining_slice t) (kernel_stack t).
Definition with_slice (t : Task) (s : AtomicInt.t Z) : Task :=
  mkTask (id t) (name t) (registers t) (desired_state t) (page_table t) s (kernel_stack t).
Definition with_rsp (t : Task) (rsp : Z) : Task :=
  mkTask (id t) (name t)
    (let r := registers t in
     mkTaskRegisters (tr_r15 r) (tr_r14 r) (tr_r13 r) (tr_r12 r) (tr_rbp r) (tr_rbx r) (tr_r11 r) (tr_r10 r)
       (tr_r9 r) (tr_r8 r) (tr_rax r) (tr_rcx r) (tr_rdx r) (tr_rsi r) (tr_rdi r)
       (syscall_number_or_irq_or_error_code r) (tr_rip r) (tr_cs r) (tr_rflags r) rsp (tr_ss r))
    (desired_state t) (page_table t) (remaining_slice t) (kernel_stack t).

(** A [WaitCell]: the value and the tasks waiting for it. *)
Record WaitCell (T : Type) : Type := mkWaitCell {
  wc_cell : OnceCell.t T;
  waiting_tasks : list Z;
}.
Arguments mkWaitCell {T} _ _.
Arguments wc_cell {T} _.
Arguments waiting_tasks {T} _.

(** What [Task::new] needs of the memory subsystem. *)
Class TaskMemory (R : Type) : Type := {
  allocate_stack : R → outcome (Z * R);          (** [stack::allocate_stack] *)
  stack_top : Z → outcome Z;                     (** [KernelStack::top_addr] *)
  write_word : Z → Z → R → outcome R;            (** a store through a kernel pointer *)
  clone_kernel_page_table : R → outcome (Z * R); (** its physical address *)
}.

(** ** Per-CPU variables *)
Record cpu : Type := mkCpu {
  CURRENT_TASK_ID : Z;
  IDLE_TASK_ID : Z;
  NEEDS_RESCHEDULE : Z;
  PREEMPT_COUNT : Z;
  interrupts : bool;
  KERNEL_STACK_TOP : Z;      (** [TOP_OF_KERNEL_STACK] *)
  tss_rsp0 : Z;
}.

Definition set_current (v : Z) (c : cpu) : cpu :=
  mkCpu v (IDLE_TASK_ID c) (NEEDS_RESCHEDULE c) (PREEMPT_COUNT c) (interrupts c) (KERNEL_STACK_TOP c) (tss_rsp0 c).
Definition set_idle (v : Z) (c : cpu) : cpu :=
  mkCpu (CURRENT_TASK_ID c) v (NEEDS_RESCHEDULE c) (PREEMPT_COUNT c) (interrupts c) (KERNEL_STACK_TOP c) (tss_rsp0 c).
Definition set_needs (v : Z) (c : cpu) : cpu :=
  mkCpu (CURRENT_TASK_ID c) (IDLE_TASK_ID c) v (PREEMPT_COUNT c) (interrupts c) (KERNEL_STACK_TOP c) (tss_rsp0 c).
Definition set_preempt_count (v : Z) (c : cpu) : cpu :=
  mkCpu (CURRENT_TASK_ID c) (IDLE_TASK_ID c) (NEEDS_RESCHEDULE c) v (interrupts c) (KERNEL_STACK_TOP c) (tss_rsp0 c).
Definition set_interrupts (v : bool) (c : cpu) : cpu :=
  mkCpu (CURRENT_TASK_ID c) (IDLE_TASK_ID c) (NEEDS_RESCHEDULE c) (PREEMPT_COUNT c) v (KERNEL_STACK_TOP c) (tss_rsp0 c).
Definition set_stack_tops (v : Z) (c : cpu) : cpu :=
  mkCpu (CURRENT_TASK_ID c) (IDLE_TASK_ID c) (NEEDS_RESCHEDULE c) (PREEMPT_COUNT c) (interrupts c) v v.

(** [inc] and [dec] on an [i64] wrap around. *)
Definition wrap_i64 (x : Z) : Z := (x + 2 ^ 63) mod 2 ^ 64 - 2 ^ 63.
Definition inc_preempt (c : cpu) : cpu := set_preempt_count (wrap_i64 (PREEMPT_COUNT c + 1)) c.
Definition dec_preempt (c : cpu) : cpu := set_preempt_count (wrap_i64 (PREEMPT_COUNT c - 1)) c.

(** What a task that is not running does when it is switched to: it is inside
    [run_scheduler], with the interrupt flag its guard saved, and, if [dying], inside
    [kill_current_task]. *)
Record suspension : Type := mkSuspension { saved_interrupts : bool; dying : bool }.

(** ** The state *)
Record state (R : Type) : Type := mkState {
  next_task_id : Z;
  tasks : gmap Z Task;
  exit_cells : gmap Z (WaitCell TaskExitCode);
      (** [exit_wait_cell] of every task; waiters keep the task's [Arc], so a cell
          outlives the deletion of its task *)
  pending_tasks : list Z;
  run_queue_locked : bool;
  suspended : gmap Z suspension;
  cpus : gmap Z cpu;
  timers : list (Z * Z);   (** expiration and the task its callback awakens *)
  memory : R;
}.
Arguments mkState {R} _ _ _ _ _ _ _ _ _.
Arguments next_task_id {R} _.
Arguments tasks {R} _.
Arguments exit_cells {R} _.
Arguments pending_tasks {R} _.
Arguments run_queue_locked {R} _.
Arguments suspended {R} _.
Arguments cpus {R} _.
Arguments timers {R} _.
Arguments memory {R} _.

Section update.
Context {R : Type}.
Implicit Types (st : state R).

Definition with_tasks st m : state R :=
  mkState (next_task_id st) m (exit_cells st) (pending_tasks st) (run_queue_locked st) (suspended st) (cpus st)
    (timers st) (memory st).
Definition with_exit_cells st m : state R :=
  mkState (next_task_id st) (tasks st) m (pending_tasks st) (run_queue_locked st) (suspended st) (cpus st)
    (timers st) (memory st).
Definition with_pending st l : state R :=
  mkState (next_task_id st) (tasks st) (exit_cells st) l (run_queue_locked st) (suspended st) (cpus st)
    (timers st) (memory st).
Definition with_locked st b : state R :=
  mkState (next_task_id st) (tasks st) (exit_cells st) (pending_tasks st) b (suspended st) (cpus st)
    (timers st) (memory st).
Definition with_suspended st m : state R :=
  mkState (next_task_id st) (tasks st) (exit_cells st) (pending_tasks st) (run_queue_locked st) m (cpus st)
    (timers st) (memory st).
Definition with_cpus st m : state R :=
  mkState (next_task_id st) (tasks st) (exit_cells st) (pending_tasks st) (run_queue_locked st) (suspended st) m
    (timers st) (memory st).
Definition with_timers st l : state R :=
  mkState (next_task_id st) (tasks st) (exit_cells st) (pending_tasks st) (run_queue_locked st) (suspended st)
    (cpus st) l (memory st).
End update.

(** ** [Tasks] *)
Module Tasks.
Section tasks.
Context {R : Type}.
Implicit Types (st : state R).

Definition get_task st (id : Z) : option Task := tasks st !! id.

Definition get_task_assert st (id : Z) : outcome Task :=
  match get_task st id with Some t => Ret t | None => Panic PanicExplicit end.

Definition task_ids st : list Z := merge_sort Z.le (elements (dom (tasks st))).

Definition delete_task st (id : Z) : outcome (state R) :=
  _ ← assert_ (bool_decide (is_Some (tasks st !! id)));
  mret (with_tasks st (delete id (tasks st))).

Context `{!TaskMemory R}.

(** [Task::new], with the addresses of [task_setup] and of the start function. *)
Definition task_new (task_setup : Z) (id : Z) (name : string) (start_fn arg : Z) (r : R) : outcome (Task * R) :=
  '(kernel_stack, r) ← allocate_stack r;
  top ← stack_top kernel_stack;
  '(stack_top, r) ← initial_stack write_word top task_setup start_fn arg r;
  '(page_table, r) ← clone_kernel_page_table r;
  let d := task_registers_default in
  let t := mkTask id name d (AtomicEnum.new ReadyToRun) page_table (AtomicInt.new 0) kernel_stack in
  mret (with_rsp t stack_top, r).

Definition new_task (task_setup : Z) (name : string) (start_fn arg : Z) st : outcome (Z * state R) :=
  let id := next_task_id st in
  next ← uadd 32 id 1;
  _ ← assert_ (negb (bool_decide (is_Some (tasks st !! id))));
  '(task, r) ← task_new task_setup id name start_fn arg (memory st);
  mret (id, mkState next (<[id := task]> (tasks st))
              (<[id := mkWaitCell OnceCell.new []]> (exit_cells st))
              (pending_tasks st) (run_queue_locked st) (suspended st) (cpus st) (timers st) r).
End tasks.
End Tasks.

(** ** The run queue *)
Module RunQueue.
Section queue.
Context {R : Type}.
Implicit Types (st : state R).

Definition remove_killed_pending_tasks st : outcome (state R) :=
  '(remaining, st) ← foldM (λ id '(remaining, st),
      task ← Tasks.get_task_assert st id;
      s ← AtomicEnum.load (T:=DesiredTaskState) (desired_state task);
      if decide (s = Killed)
      then st ← Tasks.delete_task st id; mret (remaining, st)
      else mret (remaining ++ [id], st)) (pending_tasks st) ([], st);
  mret (with_pending st remaining).

(** The loop of [pop_next_ready_pending_task]: the queue and the tasks passed over. *)
Fixpoint pop_loop st (pending non_ready : list Z) : outcome (option Z * list Z) :=
  match pending with
  | [] => mret (None, non_ready)
  | next_task_id :: pending =>
      next_task ← Tasks.get_task_assert st next_task_id;
      s ← AtomicEnum.load (T:=DesiredTaskState) (desired_state next_task);
      if decide (s = ReadyToRun) then mret (Some next_task_id, pending ++ non_ready)
      else pop_loop st pending (non_ready ++ [next_task_id])
  end.

Definition pop_next_ready_pending_task st : outcome (option Z * state R) :=
  '(r, pending) ← pop_loop st (pending_tasks st) [];
  mret (r, with_pending st pending).
End queue.
End RunQueue.

(** ** The scheduler *)
Module Sched.
Section sched.
Context {R : Type}.
Implicit Types (st : state R) (p : Z).

Definition this_cpu st p : outcome cpu := expect (cpus st !! p).
Definition on_cpu st p (f : cpu → cpu) : state R := with_cpus st (alter f p (cpus st)).

Definition DEFAULT_TIME_SLICE : Z := 100.

Definition current_task_id st p : outcome Z := c ← this_cpu st p; mret (CURRENT_TASK_ID c).
Definition current_task st p : outcome Task := i ← current_task_id st p; Tasks.get_task_assert st i.

(** [task.desired_state.swap(s)] and [task.remaining_slice.store(s)] on a shared task *)
Definition swap_state st (i : Z) (s : DesiredTaskState) : outcome (DesiredTaskState * state R) :=
  t ← Tasks.get_task_assert st i;
  '(old, a) ← AtomicEnum.swap (desired_state t) s;
  mret (old, with_tasks st (<[i := with_state t a]> (tasks st))).
Definition store_slice st (i : Z) (s : Z) : outcome (state R) :=
  t ← Tasks.get_task_assert st i;
  mret (with_tasks st (<[i := with_slice t (AtomicInt.store (remaining_slice t) s)]> (tasks st))).

(** [RUN_QUEUE.lock_disable_interrupts()]: the saved interrupt flag is in the guard. *)
Definition lock_run_queue st p : outcome (bool * state R) :=
  let st := on_cpu st p inc_preempt in
  c ← this_cpu st p;
  let saved_intpt_flag := interrupts c in
  let st := if saved_intpt_flag then on_cpu st p (set_interrupts false) else st in
  if run_queue_locked st then Diverge else mret (saved_intpt_flag, with_locked st true).

(** Dropping the guard: the lock, then the interrupts, then preemption. *)
Definition drop_run_queue_guard st p (needs_enabling : bool) : state R :=
  let st := with_locked st false in
  let st := if needs_enabling then on_cpu st p (set_interrupts true) else st in
  on_cpu st p dec_preempt.

Definition force_unlock_scheduler st p : state R :=
  let st := with_locked st false in
  let st := on_cpu st p (set_interrupts true) in
  on_cpu st p (set_preempt_count 0).

Definition check_current_task_needs_preemption st p : outcome bool :=
  c ← this_cpu st p;
  let preempt_count := PREEMPT_COUNT c in
  current_task ← current_task st p;
  _ ← assert_ (0 <=? preempt_count);
  if 0 <? preempt_count then mret false
  else
    let is_idle := id current_task =? IDLE_TASK_ID c in
    s ← AtomicEnum.load (desired_state current_task);
    let is_ready := bool_decide (s = ReadyToRun) in
    let is_expired := AtomicInt.load (remaining_slice current_task) =? 0 in
    mret (negb (negb is_idle && is_ready && negb is_expired)).

Context `{!TaskMemory R}.

(** The second half of [task_swap_parameters], when there is a next task: the task whose
    [rsp] is saved, the next stack pointer and the next page table. *)
Definition task_swap_to st p (prev_task_id idle_task_id next_task_id : Z)
  : outcome (option (Z * Z * Z) * state R) :=
  let st := on_cpu st p (set_current next_task_id) in
  let st := if negb (prev_task_id =? idle_task_id)
            then with_pending st (pending_tasks st ++ [prev_task_id]) else st in
  prev_task ← Tasks.get_task_assert st prev_task_id;
  next_task ← Tasks.get_task_assert st next_task_id;
  let next_stack_ptr := tr_rsp (registers next_task) in
  let next_page_table := page_table next_task in
  st ← store_slice st next_task_id DEFAULT_TIME_SLICE;
  if prev_task_id =? next_task_id then mret (None, st)
  else
    top ← stack_top (kernel_stack next_task);
    let st := on_cpu st p (set_stack_tops top) in
    mret (Some (prev_task_id, next_stack_ptr, next_page_table), st).

Definition task_swap_parameters st p : outcome (option (Z * Z * Z) * state R) :=
  c ← this_cpu st p;
  let idle_task_id := IDLE_TASK_ID c in
  st ← RunQueue.remove_killed_pending_tasks st;
  prev_task ← current_task st p;
  let prev_task_id := id prev_task in
  prev_task_state ← AtomicEnum.load (desired_state prev_task);
  '(popped, st) ← RunQueue.pop_next_ready_pending_task st;
  match popped with
  | Some next_task_id => task_swap_to st p prev_task_id idle_task_id next_task_id
  | None =>
      if (prev_task_id =? idle_task_id) || bool_decide (prev_task_state = ReadyToRun) then mret (None, st)
      else task_swap_to st p prev_task_id idle_task_id idle_task_id
  end.

(** What the CPU does after [switch_to_task] has switched to [next]: the rest of
    [run_scheduler] of that task, or [task_setup] if it has never run. *)
Definition resume st p (next : Z) : outcome (state R) :=
  match suspended st !! next with
  | Some s =>
      let st := drop_run_queue_guard (with_suspended st (delete next (suspended st))) p (saved_interrupts s) in
      if dying s then Panic PanicExplicit else mret st
  | None => mret (force_unlock_scheduler st p)
  end.

(** [switch_to_task]: the registers and [rsp] (its value at the call) are parked. *)
Definition switch st p (prev : Z) (rsp : Z) (s : suspension) : outcome (state R) :=
  t ← Tasks.get_task_assert st prev;
  let st := with_tasks st (<[prev := with_rsp t (rsp - 120)]> (tasks st)) in
  let st := with_suspended st (<[prev := s]> (suspended st)) in
  next ← current_task_id st p;
  resume st p next.

(** [run_scheduler], up to the point where the CPU runs a task again; answers whether
    the task that called it was switched away from. *)
Definition run_scheduler_for (dying : bool) st p (rsp : Z) : outcome (bool * state R) :=
  let st := on_cpu st p (set_needs 0) in
  b ← check_current_task_needs_preemption st p;
  if negb b then mret (false, st)
  else
    '(saved, st) ← lock_run_queue st p;
    '(o, st) ← task_swap_parameters st p;
    match o with
    | None => mret (false, drop_run_queue_guard st p saved)
    | Some (prev, _, _) => st ← switch st p prev rsp (mkSuspension saved dying); mret (true, st)
    end.
Definition run_scheduler st p rsp : outcome (bool * state R) := run_scheduler_for false st p rsp.

Definition run_scheduler_if_needed st p rsp : outcome (bool * state R) :=
  c ← this_cpu st p;
  if 0 <? NEEDS_RESCHEDULE c then run_scheduler st p rsp else mret (false, st).

Definition scheduler_tick (time_between_ticks : Z) st p : outcome (state R) :=
  current_task ← current_task st p;
  let slice := AtomicInt.load (remaining_slice current_task) in
  let slice := Milliseconds.saturating_sub slice time_between_ticks in
  st ← store_slice st (id current_task) slice;
  mret (if slice =? 0 then on_cpu st p (set_needs 1) else st).

Definition prepare_to_sleep st p : outcome (Z * state R) :=
  let st := on_cpu st p (set_needs 1) in
  current_task ← current_task st p;
  '(_, st) ← swap_state st (id current_task) Sleeping;
  mret (id current_task, st).

Definition awaken_task st p (task_id : Z) : outcome (state R) :=
  '(old_state, st) ← swap_state st task_id ReadyToRun;
  mret (if decide (old_state ≠ ReadyToRun) then on_cpu st p (set_needs 1) else st).

(** ** Creating tasks *)
Definition new_task (task_setup : Z) (name : string) (start_fn arg : Z) st : outcome (Z * state R) :=
  '(id, st) ← Tasks.new_task task_setup name start_fn arg st;
  mret (id, with_pending st (pending_tasks st ++ [id])).

(** The part of [per_cpu_init] that gives the CPU its idle task. *)
Definition per_cpu_init (task_setup idle_task_start : Z) (idle_name : string) st p : outcome (state R) :=
  '(idle_task_id, st) ← Tasks.new_task task_setup idle_name idle_task_start 0 st;
  let st := on_cpu st p (set_idle idle_task_id) in
  mret (on_cpu st p (set_current idle_task_id)).

(** [start_scheduler]: the CPU's boot code turns into its current task. *)
Definition start_scheduler st p : outcome (state R) :=
  current_task ← current_task st p;
  resume st p (id current_task).

(** ** Leaving and waiting *)

(** [WaitCell::send_all_consumers] on the exit cell of a task *)
Definition send_all_consumers st p (i : Z) (val : TaskExitCode) : outcome (state R) :=
  cell ← expect (exit_cells st !! i);
  c ← OnceCell.set (wc_cell cell) val;
  let st := with_exit_cells st (<[i := mkWaitCell c []]> (exit_cells st)) in
  foldM (λ task_id st, awaken_task st p task_id) (waiting_tasks cell) st.

Definition kill_current_task (exit_code : TaskExitCode) st p rsp : outcome (state R) :=
  current_task ← current_task st p;
  '(_, st) ← swap_state st (id current_task) Killed;
  st ← send_all_consumers st p (id current_task) exit_code;
  '(switched, st) ← run_scheduler_for true st p rsp;
  if (switched : bool) then mret st else Panic PanicExplicit.

(** One turn of the loop of [WaitCell::wait_sleep] on the exit cell of a task: the
    value, or the state in which the CPU has gone on with another task. *)
Definition wait_sleep_turn st p (i : Z) rsp : outcome (option TaskExitCode * state R) :=
  '(task_id, st) ← prepare_to_sleep st p;
  cell ← expect (exit_cells st !! i);
  let st := with_exit_cells st
              (<[i := mkWaitCell (wc_cell cell) (waiting_tasks cell ++ [task_id])]> (exit_cells st)) in
  message ← OnceCell.get_clone (wc_cell cell);
  match message with
  | Some m => st ← awaken_task st p task_id; mret (Some m, st)
  | None => '(_, st) ← run_scheduler st p rsp; mret (None, st)
  end.

(** [wait_on_task], up to its first sleep *)
Definition wait_on_task st p (target : Z) rsp : outcome (option (option TaskExitCode) * state R) :=
  match Tasks.get_task st target with
  | None => mret (None, st)
  | Some t => '(r, st) ← wait_sleep_turn st p (id t) rsp; mret (Some r, st)
  end.

(** ** Timers ([kernel/src/tick.rs]) *)
Definition TICK_HZ : Z := 20.
Definition TICK_MILLIS : Z := 1000 / TICK_HZ.

(** [add_relative_timer] with a callback that awakens [task_id] *)
Definition add_relative_timer (current_millis timeout task_id : Z) st : outcome (state R) :=
  expiration ← Milliseconds.add current_millis timeout;
  mret (with_timers st (timers st ++ [(expiration, task_id)])).

Definition sleep_timeout (current_millis timeout : Z) st p rsp : outcome (bool * state R) :=
  '(task_id, st) ← prepare_to_sleep st p;
  st ← add_relative_timer current_millis timeout task_id st;
  run_scheduler st p rsp.

Definition cpu_tick_handler st p : outcome (state R) := scheduler_tick TICK_MILLIS st p.
End sched.
End Sched.
