(* ===== verification/SchedThms.v ===== *)
(** * The scheduler keeps every task in exactly one place

    [sched_inv] holds between the operations of the scheduler on any number of CPUs:
    a task runs on at most one CPU, is queued at most once, and never both.  Under
    it [run_scheduler] does not panic and picks the first ready task of the queue,
    so that a ready task waits for no more switches than there are tasks before it. *)
From S2P Require Import Prelude External Addr PhysMem Cells Asm Sched.
#[local] Open Scope Z_scope.
Import Sched.

(** ** States of tasks *)
Definition task_state (t : Task) : option DesiredTaskState := try_from_int (AtomicInt.atom (desired_state t)).

Definition state_of {R} (st : state R) (i : Z) : option DesiredTaskState :=
  match tasks st !! i with Some t => task_state t | None => None end.

#[export] Instance state_laws : EnumLaws Z DesiredTaskState.
Proof. split. by intros []. Qed.

Lemma load_ok t s : task_state t = Some s → AtomicEnum.load (desired_state t) = Ret s.
Proof. unfold AtomicEnum.load, AtomicEnum.convert_from_integer, task_state. by intros ->. Qed.

Lemma load_state {R} (st : state R) i s :
  state_of st i = Some s → ∃ t, tasks st !! i = Some t ∧ task_state t = Some s.
Proof. unfold state_of. destruct (tasks st !! i) as [t|]; [|done]. eauto. Qed.

(** ** Picking a task *)
Fixpoint pick (ready : Z → bool) (l passed : list Z) : option Z * list Z :=
  match l with
  | [] => (None, passed)
  | i :: l => if ready i then (Some i, l ++ passed) else pick ready l (passed ++ [i])
  end.

Definition readyb {R} (st : state R) (i : Z) : bool := bool_decide (state_of st i = Some ReadyToRun).
Definition alive {R} (st : state R) (l : list Z) : list Z := filter (λ i, state_of st i ≠ Some Killed) l.

Lemma pick_ext r1 r2 l : ∀ passed, (∀ i, i ∈ l → r1 i = r2 i) → pick r1 l passed = pick r2 l passed.
Proof.
  induction l as [|i l IH]; intros passed E; [done|]. cbn [pick]. rewrite (E i) by set_solver.
  rewrite IH by set_solver. done.
Qed.

Lemma pick_spec ready l : ∀ passed,
  (∃ l1 i l2, l = l1 ++ i :: l2 ∧ ready i = true ∧ Forall (λ j, ready j = false) l1 ∧
     pick ready l passed = (Some i, l2 ++ passed ++ l1)) ∨
  (Forall (λ j, ready j = false) l ∧ pick ready l passed = (None, passed ++ l)).
Proof.
  induction l as [|i l IH]; intros passed; cbn [pick].
  { right. by rewrite app_nil_r. }
  destruct (ready i) eqn:Ei; [left; by exists [], i, l; rewrite app_nil_r|].
  destruct (IH (passed ++ [i])) as [(l1 & j & l2 & -> & Hj & Hl & ->)|[Hl ->]].
  - left. exists (i :: l1), j, l2. split_and!; [done|done|by constructor|]. by rewrite <-(assoc_L (++) passed).
  - right. split; [by constructor|]. by rewrite <-(assoc_L (++)).
Qed.

Section queue.
Context {R : Type}.
Implicit Types (st : state R).

Lemma get_task_ok st i t : tasks st !! i = Some t → Tasks.get_task_assert st i = Ret t.
Proof. unfold Tasks.get_task_assert, Tasks.get_task. by intros ->. Qed.

Lemma delete_task_ok st i t :
  tasks st !! i = Some t → Tasks.delete_task st i = Ret (with_tasks st (delete i (tasks st))).
Proof. unfold Tasks.delete_task. by intros ->. Qed.

Lemma pop_loop_ok st l : ∀ passed,
  Forall (λ i, is_Some (state_of st i)) l →
  RunQueue.pop_loop st l passed = Ret (pick (readyb st) l passed).
Proof.
  induction l as [|i l IH]; intros passed Hl; [done|].
  apply Forall_cons in Hl as [[s Hs] Hl]. cbn [RunQueue.pop_loop pick]. unfold readyb. rewrite Hs.
  destruct (load_state st i s Hs) as (t & Ht & Hts). rewrite (get_task_ok st i t Ht). run_monad. rewrite (load_ok t s Hts). run_monad.
  destruct (decide (s = ReadyToRun)) as [->|]; [done|]. rewrite bool_decide_false by congruence. by apply IH.
Qed.

(** The tasks without the killed ones of a list. *)
Definition drop_killed st (l : list Z) : gmap Z Task :=
  filter (λ x, ¬ (x.1 ∈ l ∧ task_state x.2 = Some Killed)) (tasks st).

Lemma drop_killed_lookup st l i :
  drop_killed st l !! i = if decide (i ∈ l ∧ state_of st i = Some Killed) then None else tasks st !! i.
Proof.
  unfold drop_killed, state_of. rewrite map_lookup_filter.
  destruct (tasks st !! i) as [t|]; simpl; [|by case_decide].
  case_guard as Hg; case_decide as Hd; simpl in *; tauto.
Qed.

Lemma state_of_with_tasks st m i : state_of (with_tasks st m) i = match m !! i with Some t => task_state t | None => None end.
Proof. done. Qed.

Lemma alive_ext st st' l : (∀ i, i ∈ l → state_of st' i = state_of st i) → alive st' l = alive st l.
Proof.
  unfold alive. induction l as [|i l IH]; intros E; [done|]. rewrite !filter_cons, IH by set_solver.
  by rewrite (E i) by set_solver.
Qed.

Lemma drop_killed_cons_alive st i l :
  state_of st i ≠ Some Killed → drop_killed st (i :: l) = drop_killed st l.
Proof.
  intros Hi. apply map_eq. intros j. rewrite !drop_killed_lookup. repeat case_decide; set_solver.
Qed.

Lemma drop_killed_cons_killed st i l :
  state_of st i = Some Killed → i ∉ l →
  drop_killed (with_tasks st (delete i (tasks st))) l = drop_killed st (i :: l).
Proof.
  intros Hi Hl. apply map_eq. intros j. rewrite !drop_killed_lookup. unfold state_of. cbn [tasks with_tasks].
  destruct (decide (j = i)) as [->|Hj].
  - rewrite lookup_delete_eq. unfold state_of in Hi. repeat case_decide; set_solver.
  - rewrite lookup_delete_ne by done. repeat case_decide; set_solver.
Qed.

Lemma remove_loop l : ∀ st rem,
  NoDup l → Forall (λ i, is_Some (state_of st i)) l →
  foldM (λ id '(remaining, st),
      task ← Tasks.get_task_assert st id;
      s ← AtomicEnum.load (T:=DesiredTaskState) (desired_state task);
      if decide (s = Killed)
      then st ← Tasks.delete_task st id; mret (remaining, st)
      else mret (remaining ++ [id], st)) l (rem, st)
  = Ret (rem ++ alive st l, with_tasks st (drop_killed st l)).
Proof.
  induction l as [|i l IH]; intros st rem Hnd Hl.
  { cbn. unfold drop_killed. rewrite app_nil_r, map_filter_id; [by destruct st|]. set_solver. }
  apply NoDup_cons in Hnd as [Hi Hnd]. apply Forall_cons in Hl as [[s Hs] Hl].
  destruct (load_state st i s Hs) as (t & Ht & Hts). cbn [foldM]. rewrite (get_task_ok st i t Ht). run_monad. rewrite (load_ok t s Hts). run_monad. unfold alive. rewrite filter_cons.
  destruct (decide (s = Killed)) as [->|Hk].
  - rewrite (delete_task_ok st i t Ht). run_monad. rewrite decide_False by (intros Hn; by apply Hn).
    assert (El : ∀ j, j ∈ l → state_of (with_tasks st (delete i (tasks st))) j = state_of st j).
    { intros j Hj. unfold state_of. cbn [tasks with_tasks]. rewrite lookup_delete_ne by set_solver. done. }
    rewrite IH; [|done|].
    + rewrite drop_killed_cons_killed by done. f_equal. f_equal. f_equal. by apply alive_ext.
    + apply Forall_forall. intros j Hj. rewrite El by done. by eapply Forall_forall in Hl.
  - rewrite decide_True by congruence. run_monad. rewrite IH by done. rewrite drop_killed_cons_alive by congruence.
    by rewrite <-(assoc_L (++)).
Qed.

Lemma remove_killed_ok st :
  NoDup (pending_tasks st) → Forall (λ i, is_Some (state_of st i)) (pending_tasks st) →
  RunQueue.remove_killed_pending_tasks st =
    Ret (with_pending (with_tasks st (drop_killed st (pending_tasks st))) (alive st (pending_tasks st))).
Proof. intros. unfold RunQueue.remove_killed_pending_tasks. rewrite remove_loop by done. done. Qed.
End queue.

(** ** The invariant *)
Section inv.
Context {R : Type} `{!TaskMemory R}.
Implicit Types (st : state R).

(** A task in the table under its own id, in a valid state, with a stack of its own. *)
Definition task_ok st (i : Z) (t : Task) : Prop :=
  id t = i ∧ i < next_task_id st ∧ is_Some (task_state t) ∧ ∃ top, stack_top (kernel_stack t) = Ret top.

Record sched_inv st : Prop := {
  inv_tasks : ∀ i t, tasks st !! i = Some t → task_ok st i t;
  inv_nodup : NoDup (pending_tasks st);
  inv_pending : ∀ i, i ∈ pending_tasks st → is_Some (tasks st !! i);
  inv_current : ∀ p c, cpus st !! p = Some c →
    is_Some (tasks st !! CURRENT_TASK_ID c) ∧ CURRENT_TASK_ID c ∉ pending_tasks st ∧
    suspended st !! CURRENT_TASK_ID c = None;
  inv_idle : ∀ p c, cpus st !! p = Some c →
    is_Some (tasks st !! IDLE_TASK_ID c) ∧ IDLE_TASK_ID c ∉ pending_tasks st ∧
    state_of st (IDLE_TASK_ID c) ≠ Some Killed;
  inv_cpus : ∀ p q c d, p ≠ q → cpus st !! p = Some c → cpus st !! q = Some d →
    CURRENT_TASK_ID c ≠ CURRENT_TASK_ID d ∧ IDLE_TASK_ID c ≠ IDLE_TASK_ID d ∧
    CURRENT_TASK_ID c ≠ IDLE_TASK_ID d;
  inv_preempt : ∀ p c, cpus st !! p = Some c → PREEMPT_COUNT c = 0;
  inv_unlocked : run_queue_locked st = false;
  inv_suspended : ∀ i s, suspended st !! i = Some s → i < next_task_id st;
  inv_dying : ∀ i s t, suspended st !! i = Some s → dying s = true → tasks st !! i = Some t →
    task_state t = Some Killed;
}.

(** The task the CPU goes on with, if another one than [prev], and the rest of the queue. *)
Definition choose st (prev idle : Z) : option Z * list Z :=
  match pick (readyb st) (alive st (pending_tasks st)) [] with
  | (Some n, rest) => (Some n, rest)
  | (None, rest) => (if (prev =? idle) || readyb st prev then None else Some idle, rest)
  end.

(** A task up to its saved stack pointer and its time slice. *)
Definition same_task (t t' : Task) : Prop :=
  id t' = id t ∧ desired_state t' = desired_state t ∧ kernel_stack t' = kernel_stack t.

Definition same_tasks (m m' : gmap Z Task) : Prop :=
  ∀ i, match m !! i, m' !! i with Some t, Some t' => same_task t t' | None, None => True | _, _ => False end.

(** [st'] is [st] after CPU [p] switched from [prev] to [n]. *)
Record switched st st' (p : Z) (c : cpu) (n : Z) (rest : list Z) (s : suspension) : Prop := {
  sw_next : next_task_id st' = next_task_id st;
  sw_tasks : same_tasks (drop_killed st (pending_tasks st)) (tasks st');
  sw_pending : pending_tasks st' =
    rest ++ (if CURRENT_TASK_ID c =? IDLE_TASK_ID c then [] else [CURRENT_TASK_ID c]);
  sw_this : ∃ c', cpus st' !! p = Some c' ∧ CURRENT_TASK_ID c' = n ∧ IDLE_TASK_ID c' = IDLE_TASK_ID c ∧
              PREEMPT_COUNT c' = 0;
  sw_others : ∀ q, q ≠ p → cpus st' !! q = cpus st !! q;
  sw_unlocked : run_queue_locked st' = false;
  sw_suspended : suspended st' = delete n (<[CURRENT_TASK_ID c := s]> (suspended st));
  sw_cells : exit_cells st' = exit_cells st;
  sw_slice : ∃ t, tasks st' !! n = Some t ∧ AtomicInt.load (remaining_slice t) = DEFAULT_TIME_SLICE;
}.

(** [st'] is [st] after CPU [p] found nothing better to do; the killed tasks are gone. *)
Record stayed st st' (p : Z) (rest : list Z) : Prop := {
  sy_next : next_task_id st' = next_task_id st;
  sy_tasks : tasks st' = drop_killed st (pending_tasks st);
  sy_pending : pending_tasks st' = rest;
  sy_cpus : ∀ q, match cpus st !! q, cpus st' !! q with
                 | Some c, Some c' => CURRENT_TASK_ID c' = CURRENT_TASK_ID c ∧ IDLE_TASK_ID c' = IDLE_TASK_ID c ∧
                                      PREEMPT_COUNT c' = PREEMPT_COUNT c
                 | None, None => True
                 | _, _ => False
                 end;
  sy_unlocked : run_queue_locked st' = false;
  sy_suspended : suspended st' = suspended st;
  sy_cells : exit_cells st' = exit_cells st;
}.

Lemma inv_state st i : sched_inv st → is_Some (tasks st !! i) → is_Some (state_of st i).
Proof.
  intros I [t Ht]. unfold state_of. rewrite Ht. by destruct (inv_tasks _ I _ _ Ht) as (_ & _ & ? & _).
Qed.

Lemma inv_pending_states st : sched_inv st → Forall (λ i, is_Some (state_of st i)) (pending_tasks st).
Proof. intros I. apply Forall_forall. intros i Hi. apply inv_state; [done|]. by apply (inv_pending _ I). Qed.

Lemma lookup_drop_killed st i :
  i ∉ pending_tasks st → drop_killed st (pending_tasks st) !! i = tasks st !! i.
Proof. intros Hi. rewrite drop_killed_lookup. case_decide; [set_solver|done]. Qed.

Lemma elem_of_alive st i : i ∈ alive st (pending_tasks st) ↔ i ∈ pending_tasks st ∧ state_of st i ≠ Some Killed.
Proof. unfold alive. rewrite list_elem_of_filter. tauto. Qed.

Lemma lookup_drop_alive st i :
  i ∈ alive st (pending_tasks st) → drop_killed st (pending_tasks st) !! i = tasks st !! i.
Proof. rewrite elem_of_alive. intros Hi. rewrite drop_killed_lookup. case_decide; [tauto|done]. Qed.

Lemma choose_some st p c n rest :
  sched_inv st → cpus st !! p = Some c → choose st (CURRENT_TASK_ID c) (IDLE_TASK_ID c) = (Some n, rest) →
  n ≠ CURRENT_TASK_ID c ∧ is_Some (drop_killed st (pending_tasks st) !! n) ∧
  state_of st n ≠ Some Killed ∧ n ∉ rest ∧
  (∀ i, i ∈ rest ↔ i ∈ alive st (pending_tasks st) ∧ i ≠ n) ∧ NoDup rest ∧
  (n ∈ pending_tasks st ∧ readyb st n = true ∨ n = IDLE_TASK_ID c ∧ CURRENT_TASK_ID c ≠ IDLE_TASK_ID c).
Proof.
  intros I Hc. destruct (inv_current _ I _ _ Hc) as (HC & HCp & _). destruct (inv_idle _ I _ _ Hc) as (HI & HIp & HIk).
  assert (Hnd : NoDup (alive st (pending_tasks st))) by apply NoDup_filter, (inv_nodup _ I).
  unfold choose. destruct (pick_spec (readyb st) (alive st (pending_tasks st)) [])
    as [(l1 & i & l2 & El & Hi & _ & ->)|[Hl ->]].
  - cbn [app]. intros [= <- <-].
    assert (Hin : i ∈ alive st (pending_tasks st)) by (rewrite El; set_solver).
    rewrite El in Hnd. apply NoDup_app in Hnd as (Hn1 & Hn2 & Hn3). apply NoDup_cons in Hn3 as [Hn3 Hn4].
    pose proof (proj1 (elem_of_alive st i) Hin) as [Hp Hk]. split_and!.
    + intros ->. done.
    + rewrite lookup_drop_alive by done. by apply (inv_pending _ I).
    + done.
    + set_solver.
    + intros j. rewrite El. set_solver.
    + apply NoDup_app. set_solver.
    + by left.
  - cbn [app]. case_match eqn:E; [done|]. intros [= <- <-]. apply orb_false_iff in E as [E1%Z.eqb_neq E2]. split_and!.
    + done.
    + by rewrite lookup_drop_killed.
    + done.
    + rewrite elem_of_alive. tauto.
    + intros j. split; [|tauto]. intros Hj. split; [done|]. intros ->. rewrite elem_of_alive in Hj. tauto.
    + done.
    + by right.
Qed.

Lemma choose_none st p c rest :
  sched_inv st → cpus st !! p = Some c → choose st (CURRENT_TASK_ID c) (IDLE_TASK_ID c) = (None, rest) →
  rest = alive st (pending_tasks st) ∧ (∀ i, i ∈ pending_tasks st → readyb st i = false) ∧
  (CURRENT_TASK_ID c = IDLE_TASK_ID c ∨ readyb st (CURRENT_TASK_ID c) = true).
Proof.
  intros I Hc. unfold choose. destruct (pick_spec (readyb st) (alive st (pending_tasks st)) [])
    as [(l1 & i & l2 & El & Hi & _ & ->)|[Hl ->]]; [done|].
  case_match eqn:E; [|done]. intros [= <-]. split_and!; [done| |].
  - intros i Hi. destruct (decide (state_of st i = Some Killed)) as [Hk|Hk].
    + unfold readyb. by rewrite Hk.
    + eapply Forall_forall in Hl; [exact Hl|]. by apply elem_of_alive.
  - by apply orb_true_iff in E as [E%Z.eqb_eq|E]; [left|right].
Qed.

Lemma choose_pick st prev idle :
  choose st prev idle =
    match pick (readyb st) (alive st (pending_tasks st)) [] with
    | (Some n, rest) => (Some n, rest)
    | (None, rest) => (if (prev =? idle) || readyb st prev then None else Some idle, rest)
    end.
Proof. done. Qed.

(** [st] is [st0] as far as [task_swap_parameters] looks at it. *)
Record looks_like st0 st (p : Z) (c0 c : cpu) : Prop := {
  ll_tasks : tasks st = tasks st0;
  ll_pending : pending_tasks st = pending_tasks st0;
  ll_cpu0 : cpus st0 !! p = Some c0;
  ll_cpu : cpus st !! p = Some c;
  ll_current : CURRENT_TASK_ID c = CURRENT_TASK_ID c0;
  ll_idle : IDLE_TASK_ID c = IDLE_TASK_ID c0;
}.

(** The state in which [task_swap_parameters] has found [n]. *)
Definition swapped st p (c : cpu) (n : Z) (rest : list Z) (tn : Task) (top : Z) : state R :=
  let st := with_pending (with_tasks st (drop_killed st (pending_tasks st))) rest in
  let st := on_cpu st p (set_current n) in
  let st := if negb (CURRENT_TASK_ID c =? IDLE_TASK_ID c)
            then with_pending st (pending_tasks st ++ [CURRENT_TASK_ID c]) else st in
  let st := with_tasks st (<[n := with_slice tn (AtomicInt.store (remaining_slice tn) DEFAULT_TIME_SLICE)]> (tasks st)) in
  on_cpu st p (set_stack_tops top).

Lemma swap_to_ok st p c n rest t tn top :
  let st1 := with_pending (with_tasks st (drop_killed st (pending_tasks st))) rest in
  tasks st1 !! CURRENT_TASK_ID c = Some t → tasks st1 !! n = Some tn → n ≠ CURRENT_TASK_ID c →
  stack_top (kernel_stack tn) = Ret top →
  task_swap_to st1 p (CURRENT_TASK_ID c) (IDLE_TASK_ID c) n =
    Ret (Some (CURRENT_TASK_ID c, tr_rsp (registers tn), page_table tn), swapped st p c n rest tn top).
Proof.
  intros st1 Ht Htn Hne Htop. unfold task_swap_to, swapped. fold st1. cbn zeta.
  set (st2 := if negb _ then _ else _).
  assert (E : tasks st2 = tasks st1) by (unfold st2; by destruct (negb _)).
  rewrite (get_task_ok st2 (CURRENT_TASK_ID c) t) by (by rewrite E). run_monad.
  rewrite (get_task_ok st2 n tn) by (by rewrite E). run_monad.
  unfold store_slice. rewrite (get_task_ok st2 n tn) by (by rewrite E). run_monad.
  destruct (Z.eqb_spec (CURRENT_TASK_ID c) n); [congruence|]. rewrite Htop. run_monad. done.
Qed.

Lemma swap_parameters_ok st0 st p c0 c :
  sched_inv st0 → looks_like st0 st p c0 c →
  match choose st0 (CURRENT_TASK_ID c0) (IDLE_TASK_ID c0) with
  | (None, rest) => task_swap_parameters st p =
      Ret (None, with_pending (with_tasks st (drop_killed st (pending_tasks st))) rest)
  | (Some n, rest) => ∃ tn top,
      drop_killed st0 (pending_tasks st0) !! n = Some tn ∧ stack_top (kernel_stack tn) = Ret top ∧
      task_swap_parameters st p =
        Ret (Some (CURRENT_TASK_ID c, tr_rsp (registers tn), page_table tn), swapped st p c n rest tn top)
  end.
Proof.
  intros I [Et Ep Hc0 Hc EC EI]. destruct (inv_current _ I _ _ Hc0) as ([t Ht] & HCp & _).
  destruct (inv_tasks _ I _ _ Ht) as (Hid & _ & [s Hs] & _). rewrite <-EC, <-EI.
  assert (Es : ∀ i, state_of st i = state_of st0 i) by (intros i; unfold state_of; by rewrite Et).
  assert (Edk : drop_killed st (pending_tasks st) = drop_killed st0 (pending_tasks st0))
    by (unfold drop_killed; by rewrite Et, Ep).
  assert (Eal : alive st (pending_tasks st) = alive st0 (pending_tasks st0))
    by (rewrite Ep; by apply alive_ext).
  assert (Hnd : NoDup (pending_tasks st)) by (rewrite Ep; apply I).
  assert (Hst : Forall (λ i, is_Some (state_of st i)) (pending_tasks st)).
  { rewrite Ep. eapply Forall_impl; [by apply inv_pending_states|]. intros i. by rewrite Es. }
  pose proof (choose_pick st0 (CURRENT_TASK_ID c) (IDLE_TASK_ID c)) as Hch.
  pose proof (choose_some st0 p c0) as Hsome. rewrite <-EC, <-EI in *.
  unfold task_swap_parameters, this_cpu. rewrite Hc. cbn [expect]. run_monad.
  rewrite remove_killed_ok by done. run_monad. unfold current_task, current_task_id, this_cpu. cbn [cpus with_pending with_tasks]. rewrite Hc.
  cbn [expect]. run_monad. rewrite (get_task_ok _ _ t) by (cbn [tasks with_pending with_tasks]; by rewrite Edk, lookup_drop_killed).
  run_monad. rewrite (load_ok t s Hs). run_monad. unfold RunQueue.pop_next_ready_pending_task.
  cbn [pending_tasks with_pending]. rewrite Eal.
  assert (Est1 : ∀ i, i ∈ alive st0 (pending_tasks st0) →
    state_of (with_pending (with_tasks st (drop_killed st (pending_tasks st))) (alive st0 (pending_tasks st0))) i
    = state_of st0 i).
  { intros i Hi. unfold state_of. cbn [tasks with_pending with_tasks]. by rewrite Edk, lookup_drop_alive. }
  rewrite pop_loop_ok; cycle 1.
  { apply Forall_forall. intros i Hi. rewrite Est1 by done. apply inv_state; [done|]. apply (inv_pending _ I).
    by apply elem_of_alive in Hi as [? _]. }
  rewrite (pick_ext _ (readyb st0)) by (intros i Hi; unfold readyb; by rewrite Est1). run_monad.
  destruct (pick (readyb st0) (alive st0 (pending_tasks st0)) []) as [o rest]. rewrite Hid.
  assert (Er : bool_decide (s = ReadyToRun) = readyb st0 (CURRENT_TASK_ID c)).
  { unfold readyb, state_of. rewrite Ht, Hs. by repeat case_bool_decide; congruence. }
  rewrite Er. run_monad.
  assert (Hgo : ∀ n, choose st0 (CURRENT_TASK_ID c) (IDLE_TASK_ID c) = (Some n, rest) → ∃ tn top,
    drop_killed st0 (pending_tasks st0) !! n = Some tn ∧ stack_top (kernel_stack tn) = Ret top ∧
    task_swap_to (with_pending (with_tasks st (drop_killed st (pending_tasks st))) rest) p
      (CURRENT_TASK_ID c) (IDLE_TASK_ID c) n =
      Ret (Some (CURRENT_TASK_ID c, tr_rsp (registers tn), page_table tn), swapped st p c n rest tn top)).
  { intros n Hn. destruct (Hsome n rest I Hc0 Hn) as (Hne & [tn Htn] & _). exists tn.
    assert (Htn0 : tasks st0 !! n = Some tn) by (rewrite drop_killed_lookup in Htn; by case_decide).
    destruct (inv_tasks _ I _ _ Htn0) as (_ & _ & _ & top & Htop). exists top. split_and!; [done|done|].
    apply (swap_to_ok _ _ _ _ _ t); [by cbn [tasks with_pending with_tasks]; rewrite Edk, lookup_drop_killed
      |by cbn [tasks with_pending with_tasks]; rewrite Edk|done|done]. }
  rewrite Hch in *. destruct o as [n|]; [by apply Hgo|].
  destruct ((CURRENT_TASK_ID c =? IDLE_TASK_ID c) || readyb st0 (CURRENT_TASK_ID c)); [done|by apply Hgo].
Qed.

Lemma cpu_on st p f : cpus (on_cpu st p f) !! p = f <$> cpus st !! p.
Proof. unfold on_cpu. cbn [cpus with_cpus]. apply lookup_alter_eq. Qed.

Lemma cpu_on_ne st p q f : q ≠ p → cpus (on_cpu st p f) !! q = cpus st !! q.
Proof. intros. unfold on_cpu. cbn [cpus with_cpus]. by apply lookup_alter_ne. Qed.

(** The state with the run queue locked, and its CPU. *)
Definition locked_cpu (c : cpu) : cpu :=
  let c := inc_preempt (set_needs 0 c) in if interrupts c then set_interrupts false c else c.
Definition locked_state st p (c : cpu) : state R :=
  let st := on_cpu (on_cpu st p (set_needs 0)) p inc_preempt in
  with_locked (if interrupts c then on_cpu st p (set_interrupts false) else st) true.

Lemma lock_run_queue_ok st p c :
  cpus st !! p = Some c → run_queue_locked st = false →
  lock_run_queue (on_cpu st p (set_needs 0)) p = Ret (interrupts c, locked_state st p c) ∧
  cpus (locked_state st p c) !! p = Some (locked_cpu c).
Proof.
  intros Hc Hl. unfold lock_run_queue, this_cpu. rewrite !cpu_on, Hc. cbn [fmap option_fmap option_map expect].
  run_monad. cbn [interrupts inc_preempt set_needs set_preempt_count]. unfold locked_state, locked_cpu.
  cbn [interrupts inc_preempt set_needs set_preempt_count].
  destruct (interrupts c) eqn:Ei; cbn [run_queue_locked on_cpu with_cpus]; rewrite Hl; (split; [done|]);
    cbn [cpus with_locked]; rewrite !cpu_on, Hc; done.
Qed.

Lemma locked_state_rest st p c :
  tasks (locked_state st p c) = tasks st ∧ pending_tasks (locked_state st p c) = pending_tasks st ∧
  next_task_id (locked_state st p c) = next_task_id st ∧ suspended (locked_state st p c) = suspended st ∧
  exit_cells (locked_state st p c) = exit_cells st ∧
  (∀ q, q ≠ p → cpus (locked_state st p c) !! q = cpus st !! q).
Proof.
  unfold locked_state. destruct (interrupts c); (split_and!; try done);
    intros q Hq; cbn [cpus with_locked]; by rewrite !cpu_on_ne.
Qed.

Lemma locked_cpu_ids c :
  CURRENT_TASK_ID (locked_cpu c) = CURRENT_TASK_ID c ∧ IDLE_TASK_ID (locked_cpu c) = IDLE_TASK_ID c ∧
  PREEMPT_COUNT (locked_cpu c) = wrap_i64 (PREEMPT_COUNT c + 1).
Proof. unfold locked_cpu. by case_match. Qed.

Lemma locked_looks st p c : cpus st !! p = Some c → run_queue_locked st = false →
  looks_like st (locked_state st p c) p c (locked_cpu c).
Proof.
  intros Hc Hl. destruct (lock_run_queue_ok st p c Hc Hl) as [_ E].
  destruct (locked_state_rest st p c) as (? & ? & _). destruct (locked_cpu_ids c) as (? & ? & _). by split.
Qed.

Lemma needs_preemption_ok st p c t s :
  sched_inv st → cpus st !! p = Some c → tasks st !! CURRENT_TASK_ID c = Some t → task_state t = Some s →
  check_current_task_needs_preemption (on_cpu st p (set_needs 0)) p =
    Ret ((CURRENT_TASK_ID c =? IDLE_TASK_ID c) || negb (bool_decide (s = ReadyToRun))
         || (AtomicInt.load (remaining_slice t) =? 0)).
Proof.
  intros I Hc Ht Hs. unfold check_current_task_needs_preemption, current_task, current_task_id, this_cpu.
  rewrite cpu_on, Hc. cbn [fmap option_fmap option_map expect set_needs CURRENT_TASK_ID IDLE_TASK_ID PREEMPT_COUNT].
  run_monad. rewrite (get_task_ok _ _ t) by done. run_monad.
  cbn [set_needs CURRENT_TASK_ID IDLE_TASK_ID PREEMPT_COUNT]. rewrite (inv_preempt _ I _ _ Hc).
  cbn [Z.leb Z.ltb Z.compare assert_]. run_monad.
  rewrite (load_ok t s Hs). run_monad. destruct (inv_tasks _ I _ _ Ht) as (-> & _).
  by destruct (_ =? _), (bool_decide _), (_ =? 0).
Qed.

Lemma drop_guard_stayed st p c rest :
  sched_inv st → cpus st !! p = Some c →
  let st2 := locked_state st p c in
  stayed st (drop_run_queue_guard (with_pending (with_tasks st2 (drop_killed st2 (pending_tasks st2))) rest) p
               (interrupts c)) p rest.
Proof.
  intros I Hc st2. destruct (locked_state_rest st p c) as (Et & Ep & En & Es & Ee & Eq).
  destruct (lock_run_queue_ok st p c Hc (inv_unlocked _ I)) as [_ Ec]. destruct (locked_cpu_ids c) as (E1 & E2 & E3).
  fold st2 in Et, Ep, En, Es, Ee, Eq, Ec. unfold drop_run_queue_guard.
  assert (Edk : drop_killed st2 (pending_tasks st2) = drop_killed st (pending_tasks st)) by (unfold drop_killed; by rewrite Et, Ep).
  destruct (interrupts c); split; cbn [next_task_id tasks pending_tasks run_queue_locked suspended exit_cells on_cpu with_cpus with_locked with_pending with_tasks]; try done.
  all: intros q; destruct (decide (q = p)) as [->|Hq];
    [rewrite Hc; rewrite !cpu_on; cbn [cpus with_locked with_pending with_tasks]; rewrite Ec; cbn;
     rewrite E1, E2, E3, (inv_preempt _ I _ _ Hc); by split_and!
    |rewrite !cpu_on_ne by done; cbn [cpus with_locked with_pending with_tasks]; rewrite Eq by done; by case_match].
Qed.

Lemma same_tasks_insert m i t t' : m !! i = Some t → same_task t t' → same_tasks m (<[i := t']> m).
Proof.
  intros Hi Ht j. destruct (decide (i = j)) as [->|].
  - rewrite lookup_insert_eq, Hi. done.
  - rewrite lookup_insert_ne by done. by destruct (m !! j).
Qed.

Lemma same_tasks_trans m1 m2 m3 : same_tasks m1 m2 → same_tasks m2 m3 → same_tasks m1 m3.
Proof.
  intros H12 H23 i. specialize (H12 i). specialize (H23 i). unfold same_task in *.
  destruct (m1 !! i), (m2 !! i), (m3 !! i); try done. intuition congruence.
Qed.

(** The second half of a switch, on the state that [task_swap_parameters] leaves. *)
Lemma switch_ok st p c n rest tn top t rsp d :
  sched_inv st → cpus st !! p = Some c → n ≠ CURRENT_TASK_ID c →
  drop_killed st (pending_tasks st) !! n = Some tn →
  drop_killed st (pending_tasks st) !! CURRENT_TASK_ID c = Some t →
  (∀ s, suspended st !! n = Some s → dying s = false) →
  let st2 := locked_state st p c in
  ∃ st', switch (swapped st2 p (locked_cpu c) n rest tn top) p (CURRENT_TASK_ID c) rsp
           (mkSuspension (interrupts c) d) = Ret st' ∧
         switched st st' p c n rest (mkSuspension (interrupts c) d).
Proof.
  intros I Hc Hn Htn Ht Hd st2. destruct (locked_state_rest st p c) as (Et & Ep & En & Es & Ee & Eq).
  destruct (lock_run_queue_ok st p c Hc (inv_unlocked _ I)) as [_ Ec]. destruct (locked_cpu_ids c) as (E1 & E2 & E3).
  fold st2 in Et, Ep, En, Es, Ee, Eq, Ec.
  assert (Edk : drop_killed st2 (pending_tasks st2) = drop_killed st (pending_tasks st)) by (unfold drop_killed; by rewrite Et, Ep).
  unfold switch, swapped. rewrite Edk, E1, E2. cbn zeta.
  set (st3 := on_cpu (with_tasks _ _) p (set_stack_tops top)).
  assert (Ft : tasks st3 = <[n := with_slice tn (AtomicInt.store (remaining_slice tn) DEFAULT_TIME_SLICE)]>
                 (drop_killed st (pending_tasks st))) by (unfold st3; by destruct (negb _)).
  assert (Fp : pending_tasks st3 = rest ++ (if CURRENT_TASK_ID c =? IDLE_TASK_ID c then [] else [CURRENT_TASK_ID c])).
  { unfold st3. destruct (CURRENT_TASK_ID c =? IDLE_TASK_ID c); cbn; [by rewrite app_nil_r|done]. }
  assert (Fc : cpus st3 !! p = Some (set_stack_tops top (set_current n (locked_cpu c)))).
  { unfold st3. rewrite cpu_on. destruct (negb _); cbn [cpus with_tasks with_pending]; rewrite cpu_on;
      cbn [cpus with_tasks with_pending]; by rewrite Ec. }
  assert (Fq : ∀ q, q ≠ p → cpus st3 !! q = cpus st !! q).
  { intros q Hq. unfold st3. rewrite cpu_on_ne by done. destruct (negb _); cbn [cpus with_tasks with_pending];
      rewrite cpu_on_ne by done; cbn [cpus with_tasks with_pending]; by apply Eq. }
  assert (Fr : next_task_id st3 = next_task_id st ∧ suspended st3 = suspended st ∧ exit_cells st3 = exit_cells st)
    by (unfold st3; by destruct (negb _)).
  clearbody st3. destruct Fr as (Fn & Fs & Fe).
  rewrite (get_task_ok st3 _ t) by (by rewrite Ft, lookup_insert_ne). run_monad.
  unfold current_task_id, this_cpu. cbn [cpus with_suspended with_tasks]. rewrite Fc. cbn [expect]. run_monad.
  cbn [CURRENT_TASK_ID set_stack_tops set_current]. unfold resume. cbn [suspended with_suspended with_tasks].
  assert (Hs3 : <[CURRENT_TASK_ID c := mkSuspension (interrupts c) d]> (suspended st3) !! n = suspended st !! n)
    by (rewrite lookup_insert_ne, Fs; done).
  rewrite Hs3.
  assert (Hst : same_tasks (drop_killed st (pending_tasks st)) (<[CURRENT_TASK_ID c := with_rsp t (rsp - 120)]> (tasks st3))).
  { apply (same_tasks_trans _ (tasks st3)); [rewrite Ft; by apply (same_tasks_insert _ n tn)|].
    apply (same_tasks_insert _ _ t); [by rewrite Ft, lookup_insert_ne|done]. }
  assert (Hsl : <[CURRENT_TASK_ID c := with_rsp t (rsp - 120)]> (tasks st3) !! n =
    Some (with_slice tn (AtomicInt.store (remaining_slice tn) DEFAULT_TIME_SLICE))).
  { by rewrite lookup_insert_ne, Ft, lookup_insert_eq. }
  destruct (suspended st !! n) as [sn|] eqn:Esn.
  - rewrite (Hd sn eq_refl). eexists. split; [reflexivity|]. unfold drop_run_queue_guard.
    destruct (saved_interrupts sn); split;
      cbn [next_task_id tasks pending_tasks run_queue_locked suspended exit_cells on_cpu with_cpus with_locked with_suspended with_tasks];
      try done; try (by rewrite Fs); try (by eexists).
    all: try (intros q Hq; rewrite ?cpu_on_ne by done; cbn [cpus with_locked with_suspended with_tasks]; rewrite ?cpu_on_ne by done; by apply Fq).
    all: rewrite !cpu_on; cbn [cpus with_locked with_suspended with_tasks]; rewrite ?Fc; cbn; eexists; split_and!; try done; cbn; by rewrite E3, (inv_preempt _ I _ _ Hc).
  - eexists. split; [reflexivity|]. unfold force_unlock_scheduler. split;
      cbn [next_task_id tasks pending_tasks run_queue_locked suspended exit_cells on_cpu with_cpus with_locked with_suspended with_tasks];
      try done.
    + rewrite !cpu_on. cbn [cpus with_locked with_suspended with_tasks]. rewrite Fc. cbn. by eexists.
    + intros q Hq. rewrite !cpu_on_ne by done. by apply Fq.
    + rewrite Fs. symmetry. apply delete_id. rewrite lookup_insert_ne; done.
    + by eexists.
Qed.

(** Whether the CPU looks for another task. *)
Definition preemptible (c : cpu) (t : Task) : bool :=
  (CURRENT_TASK_ID c =? IDLE_TASK_ID c) || negb (bool_decide (task_state t = Some ReadyToRun))
  || (AtomicInt.load (remaining_slice t) =? 0).

Lemma run_scheduler_cases d st p c t rsp :
  sched_inv st → cpus st !! p = Some c → tasks st !! CURRENT_TASK_ID c = Some t →
  if preemptible c t then
    match choose st (CURRENT_TASK_ID c) (IDLE_TASK_ID c) with
    | (None, rest) => ∃ st', run_scheduler_for d st p rsp = Ret (false, st') ∧ stayed st st' p rest
    | (Some n, rest) => ∃ st', run_scheduler_for d st p rsp = Ret (true, st') ∧
        switched st st' p c n rest (mkSuspension (interrupts c) d)
    end
  else run_scheduler_for d st p rsp = Ret (false, on_cpu st p (set_needs 0)).
Proof.
  intros I Hc Ht. destruct (inv_tasks _ I _ _ Ht) as (_ & _ & [s Hs] & _).
  assert (Ep : preemptible c t = (CURRENT_TASK_ID c =? IDLE_TASK_ID c) || negb (bool_decide (s = ReadyToRun))
         || (AtomicInt.load (remaining_slice t) =? 0)).
  { unfold preemptible. rewrite Hs. do 3 f_equal. apply bool_decide_ext. naive_solver. }
  unfold run_scheduler_for. rewrite (needs_preemption_ok st p c t s) by done. rewrite <-Ep. run_monad.
  destruct (preemptible c t); [|done]. cbn [negb].
  destruct (lock_run_queue_ok st p c Hc (inv_unlocked _ I)) as [-> Ec]. run_monad.
  pose proof (swap_parameters_ok st (locked_state st p c) p c (locked_cpu c) I
    (locked_looks st p c Hc (inv_unlocked _ I))) as Hsw.
  destruct (choose st (CURRENT_TASK_ID c) (IDLE_TASK_ID c)) as [[n|] rest] eqn:Ech.
  - destruct Hsw as (tn & top & Htn & Htop & ->). run_monad. destruct (locked_cpu_ids c) as (-> & _).
    destruct (choose_some st p c n rest I Hc Ech) as (Hne & _ & Hk & _).
    destruct (inv_current _ I _ _ Hc) as (_ & HCp & _).
    destruct (switch_ok st p c n rest tn top t rsp d) as (st' & -> & Hst'); [done|done|done|done| | |].
    + by rewrite lookup_drop_killed.
    + intros sn Hsn. destruct (dying sn) eqn:Hd; [|done]. exfalso. apply Hk. unfold state_of.
      assert (tasks st !! n = Some tn) as Htn0 by (rewrite drop_killed_lookup in Htn; by case_decide).
      rewrite Htn0. by apply (inv_dying _ I n sn tn).
    + run_monad. by exists st'.
  - rewrite Hsw. run_monad. eexists. split; [done|]. by apply drop_guard_stayed.
Qed.

(** ** The scheduler preserves the invariant *)
Lemma same_state st m' i : same_tasks (drop_killed st (pending_tasks st)) m' →
  match m' !! i with Some t => task_state t | None => None end =
  match drop_killed st (pending_tasks st) !! i with Some t => task_state t | None => None end.
Proof.
  intros H. specialize (H i). unfold task_state. destruct (drop_killed _ _ !! i), (m' !! i); try done.
  by destruct H as (_ & -> & _).
Qed.

Lemma drop_killed_some st i t : drop_killed st (pending_tasks st) !! i = Some t → tasks st !! i = Some t.
Proof. rewrite drop_killed_lookup. by case_decide. Qed.

Lemma same_tasks_some m m' i t' : same_tasks m m' → m' !! i = Some t' → ∃ t, m !! i = Some t ∧ same_task t t'.
Proof. intros H Ht. specialize (H i). rewrite Ht in H. destruct (m !! i) as [t|]; [|done]. eauto. Qed.

Lemma same_tasks_is_some m m' i : same_tasks m m' → is_Some (m !! i) → is_Some (m' !! i).
Proof. intros H [t Ht]. specialize (H i). rewrite Ht in H. by destruct (m' !! i). Qed.

Lemma stayed_inv st st' p c rest :
  sched_inv st → cpus st !! p = Some c → choose st (CURRENT_TASK_ID c) (IDLE_TASK_ID c) = (None, rest) →
  stayed st st' p rest → sched_inv st'.
Proof.
  intros I Hc Hch S. destruct (choose_none st p c rest I Hc Hch) as (-> & _ & _).
  destruct S as [Sn St Sp Sc Sl Ss _].
  assert (Hcpu : ∀ q c', cpus st' !! q = Some c' → ∃ c0, cpus st !! q = Some c0 ∧
    CURRENT_TASK_ID c' = CURRENT_TASK_ID c0 ∧ IDLE_TASK_ID c' = IDLE_TASK_ID c0 ∧ PREEMPT_COUNT c' = PREEMPT_COUNT c0).
  { intros q c' Hq. specialize (Sc q). rewrite Hq in Sc. destruct (cpus st !! q) as [c0|]; [|done]. by exists c0. }
  split.
  - intros i t Ht. rewrite St in Ht. apply drop_killed_some in Ht.
    destruct (inv_tasks _ I _ _ Ht) as (? & ? & ? & ?). unfold task_ok. by rewrite Sn.
  - rewrite Sp. apply NoDup_filter, I.
  - rewrite Sp, St. intros i Hi. rewrite lookup_drop_alive by done. apply elem_of_alive in Hi as [Hi _]. by apply I.
  - intros q c' Hq. destruct (Hcpu q c' Hq) as (c0 & Hq0 & -> & _ & _).
    destruct (inv_current _ I _ _ Hq0) as (H1 & H2 & H3). rewrite St, Sp, Ss, lookup_drop_killed by done.
    split_and!; [done|rewrite elem_of_alive; tauto|done].
  - intros q c' Hq. destruct (Hcpu q c' Hq) as (c0 & Hq0 & _ & -> & _).
    destruct (inv_idle _ I _ _ Hq0) as (H1 & H2 & H3). unfold state_of. rewrite St, Sp, lookup_drop_killed by done.
    split_and!; [done|rewrite elem_of_alive; tauto|done].
  - intros q1 q2 c1 c2 Hne H1 H2. destruct (Hcpu _ _ H1) as (d1 & G1 & -> & -> & _).
    destruct (Hcpu _ _ H2) as (d2 & G2 & -> & -> & _). by apply (inv_cpus _ I q1 q2).
  - intros q c' Hq. destruct (Hcpu q c' Hq) as (c0 & Hq0 & _ & _ & ->). by apply (inv_preempt _ I q).
  - done.
  - intros i s. rewrite Ss, Sn. apply I.
  - intros i s t Hs Hd Ht. rewrite Ss in Hs. rewrite St in Ht. apply drop_killed_some in Ht. by apply (inv_dying _ I i s).
Qed.

(** Facts about the chosen task and the other CPUs. *)
Lemma chosen_apart st p q c cq n rest :
  sched_inv st → cpus st !! p = Some c → cpus st !! q = Some cq → q ≠ p →
  choose st (CURRENT_TASK_ID c) (IDLE_TASK_ID c) = (Some n, rest) →
  n ≠ CURRENT_TASK_ID cq ∧ n ≠ IDLE_TASK_ID cq.
Proof.
  intros I Hc Hq Hne Hch. destruct (choose_some st p c n rest I Hc Hch) as (_ & _ & _ & _ & _ & _ & Hn).
  destruct (inv_current _ I _ _ Hq) as (_ & Hq1 & _). destruct (inv_idle _ I _ _ Hq) as (_ & Hq2 & _).
  destruct (inv_cpus _ I q p cq c Hne Hq Hc) as (_ & H2 & H3).
  destruct Hn as [[Hn _]|[-> _]]; split; intros E; [rewrite E in Hn; by apply Hq1|rewrite E in Hn; by apply Hq2|by apply H3|by apply H2].
Qed.

Lemma switched_inv st st' p c n rest s :
  sched_inv st → cpus st !! p = Some c → choose st (CURRENT_TASK_ID c) (IDLE_TASK_ID c) = (Some n, rest) →
  (dying s = true → state_of st (CURRENT_TASK_ID c) = Some Killed) →
  switched st st' p c n rest s → sched_inv st'.
Proof.
  intros I Hc Hch Hdy S. destruct (choose_some st p c n rest I Hc Hch) as (Hne & Hn & Hk & Hnr & Hrest & Hnd & Hnp).
  destruct S as [Sn St Sp (c' & Sc & Sc1 & Sc2 & Sc3) Sq Sl Ss _ _].
  destruct (inv_current _ I _ _ Hc) as (HC1 & HC2 & HC3). destruct (inv_idle _ I _ _ Hc) as (HI1 & HI2 & HI3).
  assert (Hrp : ∀ i, i ∈ rest → i ∈ pending_tasks st) by (intros i [Hi _]%Hrest; by apply elem_of_alive in Hi as [? _]).
  assert (Hpend : ∀ i, i ∈ pending_tasks st' → i ∈ rest ∨ i = CURRENT_TASK_ID c ∧ CURRENT_TASK_ID c ≠ IDLE_TASK_ID c).
  { rewrite Sp. intros i. destruct (Z.eqb_spec (CURRENT_TASK_ID c) (IDLE_TASK_ID c)); set_solver. }
  assert (Hkeep : ∀ i, i ∉ pending_tasks st → is_Some (tasks st !! i) → is_Some (tasks st' !! i)).
  { intros i Hi Hs. apply (same_tasks_is_some _ _ i St). by rewrite lookup_drop_killed. }
  assert (Hstate : ∀ i, i ∉ pending_tasks st → state_of st' i = state_of st i).
  { intros i Hi. unfold state_of. rewrite (same_state st _ i St), lookup_drop_killed; done. }
  assert (Hother : ∀ q cq, q ≠ p → cpus st' !! q = Some cq → cpus st !! q = Some cq).
  { intros q cq Hq Hcq. by rewrite Sq in Hcq. }
  split.
  - intros i t' Ht'. destruct (same_tasks_some _ _ _ _ St Ht') as (t & Ht & E1 & E2 & E3).
    destruct (inv_tasks _ I i t (drop_killed_some _ _ _ Ht)) as (H1 & H2 & H3 & H4).
    unfold task_ok, task_state. by rewrite E1, E2, E3, Sn.
  - rewrite Sp. apply NoDup_app. split_and!; [done| |].
    + intros i Hi Hi'. destruct (_ =? _); [set_solver|]. apply list_elem_of_singleton in Hi' as ->. by apply HC2, Hrp.
    + destruct (_ =? _); [constructor|apply NoDup_singleton].
  - intros i Hi. destruct (Hpend i Hi) as [Hr|[-> _]]; [|by apply Hkeep].
    apply (same_tasks_is_some _ _ i St). apply Hrest in Hr as [Hr _]. rewrite lookup_drop_alive by done.
    apply elem_of_alive in Hr as [Hr _]. by apply I.
  - intros q cq Hcq. rewrite Ss. destruct (decide (q = p)) as [->|Hq].
    + assert (cq = c') as -> by congruence. rewrite Sc1. split_and!; [by apply (same_tasks_is_some _ _ n St)| |apply lookup_delete_eq].
      intros Hi. destruct (Hpend n Hi) as [?|[? _]]; done.
    + apply Hother in Hcq; [|done]. destruct (inv_current _ I _ _ Hcq) as (H1 & H2 & H3).
      destruct (inv_cpus _ I q p cq c Hq Hcq Hc) as (H4 & _ & _). split_and!; [by apply Hkeep| |].
      * intros Hi. destruct (Hpend _ Hi) as [Hr|[? _]]; [by apply H2, Hrp|done].
      * rewrite lookup_delete_None, lookup_insert_ne by done. by right.
  - intros q cq Hcq. destruct (decide (q = p)) as [->|Hq].
    + assert (cq = c') as -> by congruence. rewrite Sc2. split_and!; [by apply Hkeep| |by rewrite Hstate].
      intros Hi. destruct (Hpend _ Hi) as [Hr|[? ?]]; [by apply HI2, Hrp|congruence].
    + apply Hother in Hcq; [|done]. destruct (inv_idle _ I _ _ Hcq) as (H1 & H2 & H3).
      destruct (inv_cpus _ I p q c cq (not_eq_sym Hq) Hc Hcq) as (_ & _ & H4). split_and!; [by apply Hkeep| |by rewrite Hstate].
      intros Hi. destruct (Hpend _ Hi) as [Hr|[? _]]; [by apply H2, Hrp|done].
  - intros q1 q2 c1 c2 Hq H1 H2. destruct (decide (q1 = p)) as [->|Hp1], (decide (q2 = p)) as [->|Hp2]; [done| | |].
    + assert (c1 = c') as -> by congruence. apply Hother in H2; [|done]. rewrite Sc1, Sc2.
      destruct (chosen_apart st p q2 c c2 n rest I Hc H2 Hp2 Hch) as [G1 G2].
      destruct (inv_cpus _ I p q2 c c2 Hq Hc H2) as (_ & G3 & _). done.
    + assert (c2 = c') as -> by congruence. apply Hother in H1; [|done]. rewrite Sc1, Sc2.
      destruct (chosen_apart st p q1 c c1 n rest I Hc H1 Hp1 Hch) as [G1 G2].
      destruct (inv_cpus _ I q1 p c1 c Hq H1 Hc) as (_ & G3 & G4). done.
    + apply (inv_cpus _ I q1 q2); auto.
  - intros q cq Hcq. destruct (decide (q = p)) as [->|Hq]; [congruence|]. apply (inv_preempt _ I q). by apply Hother.
  - done.
  - intros i si. rewrite Ss, Sn. intros [_ Hsi]%lookup_delete_Some. apply lookup_insert_Some in Hsi as [[<- _]|[_ Hsi]].
    + destruct HC1 as [t Ht]. by apply (inv_tasks _ I _ t).
    + by apply (inv_suspended _ I _ si).
  - intros i si t Hsi Hd Ht. rewrite Ss in Hsi. apply lookup_delete_Some in Hsi as [Hin Hsi].
    destruct (same_tasks_some _ _ _ _ St Ht) as (t0 & Ht0 & _ & E2 & _). apply drop_killed_some in Ht0.
    unfold task_state. rewrite E2. fold (task_state t0). apply lookup_insert_Some in Hsi as [[<- <-]|[_ Hsi]].
    + specialize (Hdy Hd). unfold state_of in Hdy. by rewrite Ht0 in Hdy.
    + by apply (inv_dying _ I i si).
Qed.

(** ** The other operations *)
Lemma needs_inv st p v : sched_inv st → sched_inv (on_cpu st p (set_needs v)).
Proof.
  intros I.
  assert (Hcpu : ∀ q c', cpus (on_cpu st p (set_needs v)) !! q = Some c' → ∃ c0, cpus st !! q = Some c0 ∧
    CURRENT_TASK_ID c' = CURRENT_TASK_ID c0 ∧ IDLE_TASK_ID c' = IDLE_TASK_ID c0 ∧ PREEMPT_COUNT c' = PREEMPT_COUNT c0).
  { intros q c'. destruct (decide (q = p)) as [->|Hq].
    - rewrite cpu_on. destruct (cpus st !! p) as [c0|]; [|done]. intros [= <-]. by exists c0.
    - rewrite cpu_on_ne by done. eauto. }
  split; try apply I.
  - intros q c' Hq. destruct (Hcpu q c' Hq) as (c0 & Hq0 & -> & _ & _). by apply (inv_current _ I q).
  - intros q c' Hq. destruct (Hcpu q c' Hq) as (c0 & Hq0 & _ & -> & _). by apply (inv_idle _ I q).
  - intros q1 q2 c1 c2 Hne H1 H2. destruct (Hcpu _ _ H1) as (d1 & G1 & -> & -> & _).
    destruct (Hcpu _ _ H2) as (d2 & G2 & -> & -> & _). by apply (inv_cpus _ I q1 q2).
  - intros q c' Hq. destruct (Hcpu q c' Hq) as (c0 & Hq0 & _ & _ & ->). by apply (inv_preempt _ I q).
Qed.

(** Changing the state or the slice of one task. *)
Lemma set_task_inv st i t t' :
  sched_inv st → tasks st !! i = Some t → id t' = id t → kernel_stack t' = kernel_stack t → is_Some (task_state t') →
  (task_state t' = Some Killed → ∀ p c, cpus st !! p = Some c → i ≠ IDLE_TASK_ID c) →
  (∀ s, suspended st !! i = Some s → dying s = true → task_state t' = Some Killed) →
  sched_inv (with_tasks st (<[i := t']> (tasks st))).
Proof.
  intros I Hi E1 E2 E3 Hk Hd.
  assert (Hs : ∀ j, is_Some (tasks st !! j) → is_Some (<[i := t']> (tasks st) !! j))
    by (intros j Hj; rewrite lookup_insert_is_Some; destruct (decide (i = j)); auto).
  split; cbn [tasks with_tasks]; try apply I.
  - intros j tj [[<- <-]|[_ Hj]]%lookup_insert_Some; [|by apply (inv_tasks _ I)].
    destruct (inv_tasks _ I _ _ Hi) as (? & ? & _ & ?). unfold task_ok. by rewrite E1, E2.
  - intros j Hj. by apply Hs, I.
  - intros p c Hc. destruct (inv_current _ I _ _ Hc) as (? & ? & ?). split_and!; auto.
  - intros p c Hc. destruct (inv_idle _ I _ _ Hc) as (? & ? & Hn). split_and!; auto.
    unfold state_of. cbn [tasks with_tasks]. destruct (decide (i = IDLE_TASK_ID c)) as [E|E].
    + rewrite <-E, lookup_insert_eq. intros Ek. by apply (Hk Ek p c Hc).
    + by rewrite lookup_insert_ne.
  - intros j s tj Hsj Hdj [[<- <-]|[_ Hj]]%lookup_insert_Some; [by apply (Hd s)|by apply (inv_dying _ I j s)].
Qed.

Lemma swap_state_ok st i t s :
  tasks st !! i = Some t → is_Some (task_state t) →
  ∃ old, task_state t = Some old ∧
    swap_state st i s = Ret (old, with_tasks st (<[i := with_state t (AtomicEnum.new s)]> (tasks st))).
Proof.
  intros Ht [old Ho]. exists old. split; [done|]. unfold swap_state. rewrite (get_task_ok st i t Ht). run_monad.
  unfold AtomicEnum.swap, AtomicEnum.convert_from_integer. unfold task_state in Ho. by rewrite Ho.
Qed.

Lemma task_state_with t s : task_state (with_state t (AtomicEnum.new s)) = Some s.
Proof. apply try_from_into. Qed.

(** [st'] has the same queue and the same running tasks as [st]. *)
Record quiet st st' : Prop := {
  qu_next : next_task_id st' = next_task_id st;
  qu_pending : pending_tasks st' = pending_tasks st;
  qu_cpus : ∀ q, match cpus st !! q, cpus st' !! q with
                 | Some c, Some c' => CURRENT_TASK_ID c' = CURRENT_TASK_ID c ∧ IDLE_TASK_ID c' = IDLE_TASK_ID c
                 | None, None => True
                 | _, _ => False
                 end;
}.

Lemma quiet_refl st : quiet st st.
Proof. split; [done|done|]. intros q. by destruct (cpus st !! q). Qed.

Lemma quiet_trans st1 st2 st3 : quiet st1 st2 → quiet st2 st3 → quiet st1 st3.
Proof.
  intros [H0 H1 H2] [H0' H3 H4]. split; [by rewrite H0'|by rewrite H3|]. intros q. specialize (H2 q). specialize (H4 q).
  destruct (cpus st1 !! q), (cpus st2 !! q), (cpus st3 !! q); try done. intuition congruence.
Qed.

Lemma quiet_needs st p v : quiet st (on_cpu st p (set_needs v)).
Proof.
  split; [done|done|]. intros q. destruct (decide (q = p)) as [->|Hq].
  - rewrite cpu_on. by destruct (cpus st !! p).
  - rewrite cpu_on_ne by done. by destruct (cpus st !! q).
Qed.

Lemma quiet_tasks st m : quiet st (with_tasks st m).
Proof. split; [done|done|]. intros q. cbn [cpus with_tasks]. by destruct (cpus st !! q). Qed.

Lemma quiet_cells st m : quiet st (with_exit_cells st m).
Proof. split; [done|done|]. intros q. cbn [cpus with_exit_cells]. by destruct (cpus st !! q). Qed.

Lemma quiet_cpu st st' p c : quiet st st' → cpus st !! p = Some c →
  ∃ c', cpus st' !! p = Some c' ∧ CURRENT_TASK_ID c' = CURRENT_TASK_ID c ∧ IDLE_TASK_ID c' = IDLE_TASK_ID c.
Proof. intros [_ _ H] Hc. specialize (H p). rewrite Hc in H. destruct (cpus st' !! p); [|done]. eauto. Qed.

Lemma cells_inv st m : sched_inv st → sched_inv (with_exit_cells st m).
Proof. intros I. split; apply I. Qed.

Lemma current_ok st p c : sched_inv st → cpus st !! p = Some c →
  ∃ t, tasks st !! CURRENT_TASK_ID c = Some t ∧ current_task st p = Ret t ∧ id t = CURRENT_TASK_ID c ∧
       is_Some (task_state t).
Proof.
  intros I Hc. destruct (inv_current _ I _ _ Hc) as ([t Ht] & _ & _). exists t.
  destruct (inv_tasks _ I _ _ Ht) as (Hid & _ & Hs & _). split_and!; [done| |done|done].
  unfold current_task, current_task_id, this_cpu. rewrite Hc. cbn [expect]. run_monad. by apply get_task_ok.
Qed.

(** The state of one task changes. *)
Lemma state_of_set st i t' j :
  state_of (with_tasks st (<[i := t']> (tasks st))) j = if decide (i = j) then task_state t' else state_of st j.
Proof.
  unfold state_of. cbn [tasks with_tasks]. case_decide as E; [subst; by rewrite lookup_insert_eq|by rewrite lookup_insert_ne].
Qed.

Lemma tick_ok st p c dt : sched_inv st → cpus st !! p = Some c →
  ∃ st', scheduler_tick dt st p = Ret st' ∧ sched_inv st' ∧ quiet st st' ∧ (∀ j, state_of st' j = state_of st j).
Proof.
  intros I Hc. destruct (current_ok st p c I Hc) as (t & Ht & E & Hid & Hs). unfold scheduler_tick. rewrite E. run_monad.
  rewrite Hid. unfold store_slice. rewrite (get_task_ok st _ t Ht). run_monad.
  set (t' := with_slice t _). set (st1 := with_tasks st _).
  assert (I1 : sched_inv st1).
  { apply (set_task_inv _ _ t); try done.
    - intros Hk q d Hd Hi. destruct (inv_idle _ I _ _ Hd) as (_ & _ & Hn). apply Hn. unfold state_of. by rewrite <-Hi, Ht.
    - intros s Hsu. destruct (inv_current _ I _ _ Hc) as (_ & _ & Hn). congruence. }
  assert (S1 : ∀ j, state_of st1 j = state_of st j).
  { intros j. unfold st1. rewrite state_of_set. case_decide as Ej; [|done]. subst j. unfold state_of. by rewrite Ht. }
  case_match; eexists; (split; [reflexivity|]); (split_and!; [by try apply needs_inv| |done]).
  - eapply quiet_trans; [apply quiet_tasks|apply quiet_needs].
  - apply quiet_tasks.
Qed.

Lemma sleep_ok st p c : sched_inv st → cpus st !! p = Some c →
  ∃ st', prepare_to_sleep st p = Ret (CURRENT_TASK_ID c, st') ∧ sched_inv st' ∧ quiet st st' ∧
    (∀ j, state_of st' j = if decide (CURRENT_TASK_ID c = j) then Some Sleeping else state_of st j).
Proof.
  intros I Hc. unfold prepare_to_sleep. pose proof (needs_inv st p 1 I) as I1.
  assert (Hc1 : cpus (on_cpu st p (set_needs 1)) !! p = Some (set_needs 1 c)) by (by rewrite cpu_on, Hc).
  destruct (current_ok _ p _ I1 Hc1) as (t & Ht & E & Hid & Hs). rewrite E. run_monad. rewrite Hid.
  destruct (swap_state_ok _ _ _ Sleeping Ht Hs) as (old & Ho & ->). run_monad.
  eexists. split; [reflexivity|]. cbn [CURRENT_TASK_ID set_needs] in *. split_and!.
  - apply (set_task_inv _ _ t); [done..|rewrite task_state_with; by eexists|rewrite task_state_with; discriminate|].
    intros s Hsu. destruct (inv_current _ I1 _ _ Hc1) as (_ & _ & Hn). cbn [CURRENT_TASK_ID set_needs] in Hn. congruence.
  - eapply quiet_trans; [apply quiet_needs|apply quiet_tasks].
  - intros j. rewrite state_of_set. case_decide; [apply task_state_with|done].
Qed.

Lemma awaken_ok st p i : sched_inv st → is_Some (tasks st !! i) → state_of st i ≠ Some Killed →
  ∃ st', awaken_task st p i = Ret st' ∧ sched_inv st' ∧ quiet st st' ∧
    (∀ j, state_of st' j = if decide (i = j) then Some ReadyToRun else state_of st j).
Proof.
  intros I [t Ht] Hk. destruct (inv_tasks _ I _ _ Ht) as (_ & _ & Hs & _). unfold awaken_task.
  destruct (swap_state_ok _ _ _ ReadyToRun Ht Hs) as (old & Ho & ->). run_monad.
  set (st1 := with_tasks st _).
  assert (I1 : sched_inv st1).
  { apply (set_task_inv _ _ t); [done..|rewrite task_state_with; by eexists|rewrite task_state_with; discriminate|].
    intros s Hsu Hd. exfalso. apply Hk. unfold state_of. rewrite Ht. by apply (inv_dying _ I i s t). }
  assert (S1 : ∀ j, state_of st1 j = if decide (i = j) then Some ReadyToRun else state_of st j).
  { intros j. unfold st1. rewrite state_of_set. case_decide; [apply task_state_with|done]. }
  case_decide; eexists; (split; [reflexivity|]); (split_and!; [by try apply needs_inv| |done]).
  - eapply quiet_trans; [apply quiet_tasks|apply quiet_needs].
  - apply quiet_tasks.
Qed.

Lemma state_task st i : is_Some (state_of st i) → is_Some (tasks st !! i).
Proof. unfold state_of. destruct (tasks st !! i); [done|]. by intros [? ?]. Qed.

Lemma awaken_all_ok l : ∀ st p, sched_inv st →
  (∀ w, w ∈ l → is_Some (state_of st w) ∧ state_of st w ≠ Some Killed) →
  ∃ st', foldM (λ task_id st, awaken_task st p task_id) l st = Ret st' ∧ sched_inv st' ∧ quiet st st' ∧
    (∀ j, state_of st' j = if decide (j ∈ l) then Some ReadyToRun else state_of st j).
Proof.
  induction l as [|w l IH]; intros st p I Hl.
  { exists st. split_and!; [done|done|apply quiet_refl|]. intros j. rewrite decide_False by set_solver. done. }
  destruct (Hl w) as [H1 H2]; [set_solver|].
  destruct (awaken_ok st p w I (state_task _ _ H1) H2) as (st1 & E1 & I1 & Q1 & S1). cbn [foldM]. rewrite E1. run_monad.
  destruct (IH st1 p I1) as (st2 & E2 & I2 & Q2 & S2).
  { intros x Hx. rewrite S1. case_decide; [split; [by eexists|done]|]. apply Hl. set_solver. }
  exists st2. split_and!; [done|done|by eapply quiet_trans|]. intros j. rewrite S2, S1.
  repeat case_decide; try done; set_solver.
Qed.

(** A task that leaves has an exit cell nobody has written, and its waiters are alive. *)
Definition may_exit st (i : Z) : Prop :=
  ∃ cell, exit_cells st !! i = Some cell ∧ OnceCell.ready (wc_cell cell) = false ∧ OnceCell.borrows (wc_cell cell) = 0 ∧
    ∀ w, w ∈ waiting_tasks cell → w ≠ i ∧ is_Some (state_of st w) ∧ state_of st w ≠ Some Killed.

Lemma kill_ok st p c code rsp :
  sched_inv st → cpus st !! p = Some c → CURRENT_TASK_ID c ≠ IDLE_TASK_ID c → may_exit st (CURRENT_TASK_ID c) →
  ∃ st1 c1 n rest st',
    sched_inv st1 ∧ quiet st st1 ∧ cpus st1 !! p = Some c1 ∧ CURRENT_TASK_ID c1 = CURRENT_TASK_ID c ∧
    state_of st1 (CURRENT_TASK_ID c) = Some Killed ∧
    (∀ j, j ≠ CURRENT_TASK_ID c → state_of st1 j = state_of st j ∨
       is_Some (state_of st j) ∧ state_of st j ≠ Some Killed ∧ state_of st1 j = Some ReadyToRun) ∧
    choose st1 (CURRENT_TASK_ID c1) (IDLE_TASK_ID c1) = (Some n, rest) ∧
    switched st1 st' p c1 n rest (mkSuspension (interrupts c1) true) ∧
    kill_current_task code st p rsp = Ret st' ∧ sched_inv st'.
Proof.
  intros I Hc Hni (cell & Hcell & Hr & Hb & Hw). destruct (current_ok st p c I Hc) as (t & Ht & E & Hid & Hs).
  unfold kill_current_task. rewrite E. run_monad. rewrite Hid.
  destruct (swap_state_ok _ _ _ Killed Ht Hs) as (old & Ho & ->). run_monad. set (sta := with_tasks st _).
  assert (Ia : sched_inv sta).
  { apply (set_task_inv _ _ t); [done..|rewrite task_state_with; by eexists| |].
    - intros _ q d Hd. destruct (decide (q = p)) as [->|Hq]; [congruence|]. by apply (inv_cpus _ I p q).
    - intros s Hsu. destruct (inv_current _ I _ _ Hc) as (_ & _ & Hn). congruence. }
  assert (Sa : ∀ j, state_of sta j = if decide (CURRENT_TASK_ID c = j) then Some Killed else state_of st j).
  { intros j. unfold sta. rewrite state_of_set. case_decide; [apply task_state_with|done]. }
  assert (Hcella : exit_cells sta !! CURRENT_TASK_ID c = Some cell) by done.
  unfold send_all_consumers. rewrite Hcella. cbn [expect]. run_monad. rewrite (set_ok _ code Hr Hb). run_monad.
  set (stb := with_exit_cells sta _).
  destruct (awaken_all_ok (waiting_tasks cell) stb p) as (st1 & E1 & I1 & Q1 & S1); [by apply cells_inv| |].
  { intros w Hwl. change (state_of stb w) with (state_of sta w). rewrite Sa. destruct (Hw w Hwl) as (H1 & H2 & H3).
    by rewrite decide_False. }
  rewrite E1. run_monad.
  assert (Q : quiet st st1).
  { eapply quiet_trans; [apply (quiet_tasks st)|]. eapply quiet_trans; [apply quiet_cells|exact Q1]. }
  assert (Hk : state_of st1 (CURRENT_TASK_ID c) = Some Killed).
  { rewrite S1, decide_False; [|intros Hi; by destruct (Hw _ Hi)]. change (state_of sta (CURRENT_TASK_ID c) = Some Killed).
    by rewrite Sa, decide_True. }
  destruct (quiet_cpu _ _ _ _ Q Hc) as (c1 & Hc1 & EC & EI).
  destruct (current_ok st1 p c1 I1 Hc1) as (t1 & Ht1 & _).
  assert (Hk1 : task_state t1 = Some Killed) by (rewrite EC in Ht1; unfold state_of in Hk; by rewrite Ht1 in Hk).
  pose proof (run_scheduler_cases true st1 p c1 t1 rsp I1 Hc1 Ht1) as Hrun.
  unfold preemptible in Hrun. rewrite Hk1, bool_decide_false, orb_true_r in Hrun by done. cbn [negb orb] in Hrun.
  destruct (choose st1 (CURRENT_TASK_ID c1) (IDLE_TASK_ID c1)) as [[n|] rest] eqn:Ech.
  - destruct Hrun as (st' & -> & Hsw). exists st1, c1, n, rest, st'. run_monad. split_and!; try done.
    + intros j Hj. rewrite S1. case_decide as Hin; [right; by destruct (Hw _ Hin) as (_ & ? & ?)|left]. change (state_of sta j = state_of st j).
      by rewrite Sa, decide_False.
    + eapply switched_inv; [exact I1|exact Hc1|exact Ech| |exact Hsw]. intros _. by rewrite EC.
  - exfalso. destruct (choose_none st1 p c1 rest I1 Hc1 Ech) as (_ & _ & [Hx|Hx]); [congruence|].
    unfold readyb in Hx. rewrite EC, Hk in Hx. done.
Qed.

(** ** New tasks and new CPUs *)
Lemma tasks_new_inv ts nm fn arg st i st' :
  Tasks.new_task ts nm fn arg st = Ret (i, st') →
  ∃ t r, i = next_task_id st ∧ tasks st !! i = None ∧ id t = i ∧ task_state t = Some ReadyToRun ∧
    (∃ top, stack_top (kernel_stack t) = Ret top) ∧
    st' = mkState (i + 1) (<[i := t]> (tasks st)) (<[i := mkWaitCell OnceCell.new []]> (exit_cells st))
            (pending_tasks st) (run_queue_locked st) (suspended st) (cpus st) (timers st) r.
Proof.
  unfold Tasks.new_task, Tasks.task_new. intros H. inv_ret.
  match goal with H : allocate_stack _ = Ret ?a |- _ => destruct a as [ks r0] end. inv_ret.
  match goal with H : initial_stack _ _ _ _ _ _ = Ret ?a |- _ => destruct a as [sp r1] end. inv_ret.
  match goal with H : clone_kernel_page_table _ = Ret ?a |- _ => destruct a as [pt r2] end. inv_ret.
  eexists _, _. split_and!; [done| | | | |done]; try done; [|by eexists].
  match goal with H : negb _ = true |- _ => apply negb_true_iff, bool_decide_eq_false in H end.
  destruct (tasks st !! next_task_id st); [|done]. exfalso. eauto.
Qed.

(** The task [i] is nowhere. *)
Definition idle_nowhere st (i : Z) : Prop :=
  i ∉ pending_tasks st ∧ suspended st !! i = None ∧
  ∀ p c, cpus st !! p = Some c → i ≠ CURRENT_TASK_ID c ∧ i ≠ IDLE_TASK_ID c.

Definition add_task st (i : Z) (t : Task) (r : R) : state R :=
  mkState (i + 1) (<[i := t]> (tasks st)) (<[i := mkWaitCell OnceCell.new []]> (exit_cells st))
    (pending_tasks st) (run_queue_locked st) (suspended st) (cpus st) (timers st) r.

Lemma add_task_ok st i t r :
  sched_inv st → i = next_task_id st → tasks st !! i = None → id t = i → task_state t = Some ReadyToRun →
  (∃ top, stack_top (kernel_stack t) = Ret top) →
  sched_inv (add_task st i t r) ∧ idle_nowhere (add_task st i t r) i ∧
  (∀ j, state_of (add_task st i t r) j = if decide (i = j) then Some ReadyToRun else state_of st j).
Proof.
  intros I Hi Hn Hid Hs Htop. unfold add_task.
  assert (Hold : ∀ j, is_Some (tasks st !! j) → i ≠ j) by (intros j [? ?] ->; congruence).
  assert (Hkeep : ∀ j, is_Some (tasks st !! j) → is_Some (<[i := t]> (tasks st) !! j))
    by (intros j Hj; rewrite lookup_insert_is_Some; destruct (decide (i = j)); auto).
  assert (Hst : ∀ j, match <[i := t]> (tasks st) !! j with Some t => task_state t | None => None end
    = if decide (i = j) then Some ReadyToRun else state_of st j).
  { intros j. case_decide as E; [subst j; by rewrite lookup_insert_eq|by rewrite lookup_insert_ne]. }
  split_and!.
  - split; cbn [tasks pending_tasks cpus suspended run_queue_locked next_task_id]; try apply I.
    + intros j tj [[<- <-]|[_ Hj]]%lookup_insert_Some.
      * unfold task_ok. cbn [next_task_id]. split_and!; [done|lia|by rewrite Hs; eexists|done].
      * destruct (inv_tasks _ I _ _ Hj) as (? & ? & ? & ?). unfold task_ok. cbn [next_task_id]. split_and!; [done|lia|done|done].
    + intros j Hj. by apply Hkeep, I.
    + intros p c Hc. destruct (inv_current _ I _ _ Hc) as (? & ? & ?). split_and!; auto.
    + intros p c Hc. destruct (inv_idle _ I _ _ Hc) as (H1 & ? & ?). split_and!; auto.
      unfold state_of. cbn [tasks]. rewrite Hst, decide_False by auto. done.
    + intros j s Hj. pose proof (inv_suspended _ I _ _ Hj). lia.
    + intros j s tj Hj Hd [[<- <-]|[_ Ht]]%lookup_insert_Some.
      * pose proof (inv_suspended _ I _ _ Hj). lia.
      * by apply (inv_dying _ I j s).
  - split_and!; cbn.
    + intros Hp. by apply (Hold i); [apply I|].
    + destruct (suspended st !! i) as [s|] eqn:E; [|done]. pose proof (inv_suspended _ I _ _ E). lia.
    + intros p c Hc. split; apply Hold; [by apply (inv_current _ I p)|by apply (inv_idle _ I p)].
  - intros j. unfold state_of at 1. cbn [tasks]. apply Hst.
Qed.

Lemma tasks_new_ok ts nm fn arg st i st' :
  sched_inv st → Tasks.new_task ts nm fn arg st = Ret (i, st') →
  sched_inv st' ∧ idle_nowhere st' i ∧ pending_tasks st' = pending_tasks st ∧ cpus st' = cpus st ∧
  i = next_task_id st ∧ next_task_id st' = i + 1 ∧
  (∀ j, state_of st' j = if decide (i = j) then Some ReadyToRun else state_of st j).
Proof.
  intros I H. destruct (tasks_new_inv _ _ _ _ _ _ _ H) as (t & r & Hi & Hn & Hid & Hs & Htop & ->).
  destruct (add_task_ok st i t r) as (? & ? & ?); done.
Qed.

Lemma push_inv st i :
  sched_inv st → is_Some (tasks st !! i) → idle_nowhere st i →
  sched_inv (with_pending st (pending_tasks st ++ [i])).
Proof.
  intros I Hi (Hp & Hs & Hc). split; cbn [pending_tasks with_pending]; try apply I.
  - apply NoDup_app. split_and!; [apply I|set_solver|apply NoDup_singleton].
  - intros j [Hj|Hj%list_elem_of_singleton]%elem_of_app; [by apply I|by subst].
  - intros p c Hpc. destruct (inv_current _ I _ _ Hpc) as (? & ? & ?). destruct (Hc p c Hpc). split_and!; set_solver.
  - intros p c Hpc. destruct (inv_idle _ I _ _ Hpc) as (? & ? & ?). destruct (Hc p c Hpc). split_and!; set_solver.
Qed.

Lemma new_task_ok ts nm fn arg st i st' :
  sched_inv st → new_task ts nm fn arg st = Ret (i, st') →
  sched_inv st' ∧ i = next_task_id st ∧ next_task_id st' = i + 1 ∧
  pending_tasks st' = pending_tasks st ++ [i] ∧ cpus st' = cpus st ∧
  (∀ j, state_of st' j = if decide (i = j) then Some ReadyToRun else state_of st j).
Proof.
  intros I H. unfold new_task in H. apply bind_ret_inv in H as ([i' st1] & H1 & H). cbn in H. injection H as <- <-.
  destruct (tasks_new_ok _ _ _ _ _ _ _ I H1) as (I1 & N1 & Ep & Ec & -> & En & S1). split_and!; try done.
  - apply push_inv; [done| |done]. apply state_task. rewrite S1, decide_True by done. by eexists.
  - cbn. by rewrite Ep.
Qed.

Lemma cpu_insert_inv st p c i :
  sched_inv st → idle_nowhere st i → state_of st i = Some ReadyToRun → cpus st !! p = None →
  CURRENT_TASK_ID c = i → IDLE_TASK_ID c = i → PREEMPT_COUNT c = 0 →
  sched_inv (with_cpus st (<[p := c]> (cpus st))).
Proof.
  intros I (N1 & N2 & N3) Hs Hp EC EI E0.
  assert (Hi : is_Some (tasks st !! i)) by (apply state_task; rewrite Hs; by eexists).
  split; cbn [cpus with_cpus]; try apply I.
  - intros q d [[<- <-]|[_ Hq]]%lookup_insert_Some; [by rewrite EC|by apply (inv_current _ I q)].
  - intros q d [[<- <-]|[_ Hq]]%lookup_insert_Some; [|by apply (inv_idle _ I q)]. rewrite EI.
    split_and!; [done|done|]. change (state_of st i ≠ Some Killed). by rewrite Hs.
  - intros q1 q2 c1 c2 Hq H1 H2.
    apply lookup_insert_Some in H1 as [[<- <-]|[_ H1]], H2 as [[<- <-]|[_ H2]]; [done| | |].
    + rewrite EC, EI. destruct (N3 q2 c2 H2). done.
    + rewrite EC, EI. destruct (N3 q1 c1 H1). split_and!; by apply not_eq_sym.
    + by apply (inv_cpus _ I q1 q2).
  - intros q d [[<- <-]|[_ Hq]]%lookup_insert_Some; [done|by apply (inv_preempt _ I q)].
Qed.

Lemma per_cpu_init_ok ts idle_fn nm st p c0 st' :
  sched_inv st → cpus st !! p = None → PREEMPT_COUNT c0 = 0 →
  per_cpu_init ts idle_fn nm (with_cpus st (<[p := c0]> (cpus st))) p = Ret st' →
  let i := next_task_id st in
  sched_inv st' ∧ next_task_id st' = i + 1 ∧ pending_tasks st' = pending_tasks st ∧
  cpus st' = <[p := set_current i (set_idle i c0)]> (cpus st) ∧
  (∀ j, state_of st' j = if decide (i = j) then Some ReadyToRun else state_of st j).
Proof.
  intros I Hp H0 H. unfold per_cpu_init in H. apply bind_ret_inv in H as ([i st1] & H1 & H). cbn zeta in H.
  injection H as <-. destruct (tasks_new_inv _ _ _ _ _ _ _ H1) as (t & r & Hi & Hn & Hid & Hs & Htop & ->).
  cbn [next_task_id tasks with_cpus exit_cells pending_tasks run_queue_locked suspended cpus timers] in *.
  destruct (add_task_ok st i t r I Hi Hn Hid Hs Htop) as (I1 & N1 & Sj).
  assert (S1 := Sj i). rewrite decide_True in S1 by done.
  pose proof (cpu_insert_inv (add_task st i t r) p (set_current i (set_idle i c0)) i I1 N1 S1 Hp eq_refl eq_refl H0) as I2.
  assert (E : alter (set_current i) p (alter (set_idle i) p (<[p := c0]> (cpus st)))
    = <[p := set_current i (set_idle i c0)]> (cpus st)).
  { apply map_eq. intros q. destruct (decide (q = p)) as [->|Hq].
    - by rewrite !lookup_alter_eq, !lookup_insert_eq.
    - by rewrite !lookup_alter_ne, !lookup_insert_ne. }
  unfold on_cpu. cbn [cpus with_cpus]. rewrite E. cbn zeta. rewrite <-Hi. split_and!; [exact I2|done|done|done|exact Sj].
Qed.
End inv.
