(* ===== verification/SchedProps.v ===== *)
(** * What the scheduler promises

    Reachable states of the scheduler: CPUs come up, tasks are made, sleep, are
    awakened and leave, and every CPU runs [run_scheduler], in any order. *)
From S2P Require Import Prelude External Addr PhysMem Cells Asm Sched SchedThms.
#[local] Open Scope Z_scope.
Import Sched.

Section props.
Context {R : Type} `{!TaskMemory R}.
Implicit Types (st : state R).

(** One operation on one CPU; the flag tells whether the CPU switched tasks.  Nobody
    wakes a task that has exited: [awaken_task] does not check that, and
    [awaken_resurrects_killed] below shows what happens then. *)
Inductive step : state R → state R → bool → Prop :=
| step_run st p rsp b st' :
    is_Some (cpus st !! p) → run_scheduler st p rsp = Ret (b, st') → step st st' b
| step_tick st p dt st' :
    is_Some (cpus st !! p) → scheduler_tick dt st p = Ret st' → step st st' false
| step_sleep st p i st' :
    is_Some (cpus st !! p) → prepare_to_sleep st p = Ret (i, st') → step st st' false
| step_awaken st p i st' :
    state_of st i ≠ Some Killed → awaken_task st p i = Ret st' → step st st' false
| step_kill st p c code rsp st' :
    cpus st !! p = Some c → CURRENT_TASK_ID c ≠ IDLE_TASK_ID c → may_exit st (CURRENT_TASK_ID c) →
    kill_current_task code st p rsp = Ret st' → step st st' true
| step_new st task_setup name start_fn arg i st' :
    new_task task_setup name start_fn arg st = Ret (i, st') → step st st' false
| step_cells st cells : step st (with_exit_cells st cells) false
| step_timers st ts : step st (with_timers st ts) false
| step_cpu st p c0 task_setup idle_fn name st' :
    cpus st !! p = None → PREEMPT_COUNT c0 = 0 →
    per_cpu_init task_setup idle_fn name (with_cpus st (<[p := c0]> (cpus st))) p = Ret st' →
    step st st' false.

(** [TASKS] and [RUN_QUEUE] as they are initialised, before any CPU is up. *)
Definition initial (r : R) : state R := mkState 1 ∅ ∅ [] false ∅ ∅ [] r.

Inductive reachable : state R → Prop :=
| reach_initial r : reachable (initial r)
| reach_step st st' b : reachable st → step st st' b → reachable st'.

Lemma awaken_ret_exists st p i st' : awaken_task st p i = Ret st' → is_Some (tasks st !! i).
Proof.
  unfold awaken_task, swap_state, Tasks.get_task_assert, Tasks.get_task. by destruct (tasks st !! i).
Qed.

Lemma run_scheduler_inv d st p c rsp b st' :
  sched_inv st → cpus st !! p = Some c → d = false → run_scheduler_for d st p rsp = Ret (b, st') → sched_inv st'.
Proof.
  intros I Hc -> Hr. destruct (current_ok st p c I Hc) as (t & Ht & _).
  pose proof (run_scheduler_cases false st p c t rsp I Hc Ht) as H. destruct (preemptible c t).
  - destruct (choose st (CURRENT_TASK_ID c) (IDLE_TASK_ID c)) as [[n|] rest] eqn:Ech; destruct H as (st2 & E & S);
      rewrite E in Hr; injection Hr as <- <-.
    + eapply switched_inv; [exact I|exact Hc|exact Ech| |exact S]. discriminate.
    + by apply (stayed_inv st _ p c rest I Hc Ech S).
  - rewrite H in Hr. injection Hr as <- <-. by apply needs_inv.
Qed.

Lemma step_inv st st' b : sched_inv st → step st st' b → sched_inv st'.
Proof.
  intros I. destruct 1 as [st p rsp b st' [c Hc] H|st p dt st' [c Hc] H|st p i st' [c Hc] H|st p i st' Hk H
    |st p c code rsp st' Hc Hi Hm H|st ts nm fn arg i st' H| | |st p c0 ts fn nm st' Hp H0 H].
  - by eapply run_scheduler_inv.
  - destruct (tick_ok st p c dt I Hc) as (st2 & E & I2 & _). congruence.
  - destruct (sleep_ok st p c I Hc) as (st2 & E & I2 & _). congruence.
  - destruct (awaken_ok st p i I (awaken_ret_exists _ _ _ _ H) Hk) as (st2 & E & I2 & _). congruence.
  - destruct (kill_ok st p c code rsp I Hc Hi Hm) as (st1 & c1 & n & rest & st2 & _ & _ & _ & _ & _ & _ & _ & _ & E & I2).
    congruence.
  - by eapply new_task_ok.
  - by apply cells_inv.
  - split; apply I.
  - by eapply per_cpu_init_ok.
Qed.

Lemma reachable_inv st : reachable st → sched_inv st.
Proof.
  induction 1 as [r|st st' b _ I S]; [|by eapply step_inv].
  split; cbn; try done; try (intros; simplify_map_eq); try constructor; set_solver.
Qed.

Definition running st (i : Z) : Prop := ∃ p c, cpus st !! p = Some c ∧ CURRENT_TASK_ID c = i.

(** How the state of a task that is not running can change. *)
Definition state_change st st' (j : Z) : Prop :=
  state_of st' j = state_of st j ∨
  is_Some (state_of st j) ∧ state_of st j ≠ Some Killed ∧ state_of st' j = Some ReadyToRun.

(** The three things a step can do. *)
Inductive effect st st' : bool → Prop :=
| eff_quiet l :
    pending_tasks st' = pending_tasks st ++ l →
    (∀ j, running st' j → running st j ∨ next_task_id st ≤ j) →
    (∀ j, ¬ running st j → j < next_task_id st → state_change st st' j) →
    next_task_id st ≤ next_task_id st' →
    effect st st' false
| eff_stayed p c rest :
    cpus st !! p = Some c → choose st (CURRENT_TASK_ID c) (IDLE_TASK_ID c) = (None, rest) → stayed st st' p rest →
    effect st st' false
| eff_switch st1 p c n rest s :
    sched_inv st1 → pending_tasks st1 = pending_tasks st → next_task_id st1 = next_task_id st →
    (∀ j, running st1 j → running st j) →
    (∀ j, ¬ running st j → state_change st st1 j) →
    cpus st1 !! p = Some c → choose st1 (CURRENT_TASK_ID c) (IDLE_TASK_ID c) = (Some n, rest) →
    switched st1 st' p c n rest s →
    effect st st' true.

Lemma quiet_running st st' j : quiet st st' → running st' j → running st j.
Proof.
  intros Q (p & c' & Hc & <-). pose proof (qu_cpus _ _ Q p) as Hp. rewrite Hc in Hp.
  destruct (cpus st !! p) as [c|] eqn:E; [|done]. exists p, c. by destruct Hp as [-> _].
Qed.

Lemma quiet_effect st st' :
  quiet st st' → (∀ j, ¬ running st j → state_change st st' j) → effect st st' false.
Proof.
  intros Q HS. apply (eff_quiet _ _ []); [by rewrite app_nil_r, (qu_pending _ _ Q)| |auto|by rewrite (qu_next _ _ Q)].
  intros j Hj. left. by eapply quiet_running.
Qed.

Lemma step_effect st st' b : sched_inv st → step st st' b → effect st st' b.
Proof.
  intros I. destruct 1 as [st p rsp b st' [c Hc] H|st p dt st' [c Hc] H|st p i st' [c Hc] H|st p i st' Hk H
    |st p c code rsp st' Hc Hi Hm H|st ts nm fn arg i st' H| | |st p c0 ts fn nm st' Hp H0 H].
  - destruct (current_ok st p c I Hc) as (t & Ht & _).
    pose proof (run_scheduler_cases false st p c t rsp I Hc Ht) as Hr. unfold run_scheduler in H. destruct (preemptible c t).
    + destruct (choose st (CURRENT_TASK_ID c) (IDLE_TASK_ID c)) as [[n|] rest] eqn:Ech; destruct Hr as (st2 & E & S);
        rewrite E in H; injection H as <- <-.
      * eapply (eff_switch _ _ st); try done. by left.
      * by eapply eff_stayed.
    + rewrite Hr in H. injection H as <- <-. apply quiet_effect; [apply quiet_needs|by left].
  - destruct (tick_ok st p c dt I Hc) as (st2 & E & _ & Q & S). rewrite E in H. injection H as <-.
    apply quiet_effect; [done|]. intros j _. left. apply S.
  - destruct (sleep_ok st p c I Hc) as (st2 & E & _ & Q & S). rewrite E in H. injection H as _ <-.
    apply quiet_effect; [done|]. intros j Hj. left. rewrite S, decide_False; [done|]. intros <-. apply Hj. by exists p, c.
  - destruct (awaken_ok st p i I (awaken_ret_exists _ _ _ _ H) Hk) as (st2 & E & _ & Q & S). rewrite E in H. injection H as <-.
    apply quiet_effect; [done|]. intros j _. unfold state_change. rewrite S. case_decide as Ej; [subst; right|by left].
    split_and!; [|done|done]. apply inv_state; [done|]. by eapply awaken_ret_exists.
  - destruct (kill_ok st p c code rsp I Hc Hi Hm)
      as (st1 & c1 & n & rest & st2 & I1 & Q & Hc1 & EC & Hk & S & Hch & Hsw & E & _).
    rewrite E in H. injection H as <-. eapply (eff_switch _ _ st1); try done; [apply Q|apply Q| |].
    + intros j. by apply quiet_running.
    + intros j Hj. assert (Hjc : j ≠ CURRENT_TASK_ID c) by (intros ->; apply Hj; by exists p, c).
      exact (S j Hjc).
  - destruct (new_task_ok _ _ _ _ _ _ _ I H) as (_ & -> & En & Ep & Ec & S). apply (eff_quiet _ _ [next_task_id st]); [done| | |lia].
    + intros j (p & c & Hc & <-). left. rewrite Ec in Hc. by exists p, c.
    + intros j _ Hj. left. rewrite S, decide_False by lia. done.
  - apply quiet_effect; [apply quiet_cells|by left].
  - apply quiet_effect; [|by left]. split; [done|done|]. intros q. cbn. by destruct (cpus st !! q).
  - destruct (per_cpu_init_ok _ _ _ _ _ _ _ I Hp H0 H) as (_ & En & Ep & Ec & S).
    apply (eff_quiet _ _ []); [by rewrite app_nil_r| | |lia].
    + intros j (q & c & Hc & <-). rewrite Ec in Hc. apply lookup_insert_Some in Hc as [[<- <-]|[_ Hc]].
      * right. cbn. lia.
      * left. by exists q, c.
    + intros j _ Hj. left. rewrite S, decide_False by lia. done.
Qed.

(** ** Waiting for a turn *)
Lemma alive_app st l1 l2 : alive st (l1 ++ l2) = alive st l1 ++ alive st l2.
Proof. apply filter_app. Qed.

Lemma alive_length st l : (length (alive st l) ≤ length l)%nat.
Proof. apply length_filter. Qed.

(** A switch brings every ready task in the queue nearer to its turn. *)
Lemma switch_progress st st' p c n rest s i l1 l2 :
  choose st (CURRENT_TASK_ID c) (IDLE_TASK_ID c) = (Some n, rest) → switched st st' p c n rest s →
  pending_tasks st = l1 ++ i :: l2 → readyb st i = true →
  n = i ∨ ∃ l1' l2', pending_tasks st' = l1' ++ i :: l2' ∧ (length l1' < length l1)%nat.
Proof.
  intros Hch Hsw Hp Hi. unfold choose in Hch.
  assert (Hal : alive st (pending_tasks st) = alive st l1 ++ i :: alive st l2).
  { rewrite Hp, alive_app. unfold alive. rewrite filter_cons, decide_True; [done|]. unfold readyb in Hi.
    apply bool_decide_eq_true in Hi. congruence. }
  destruct (pick_spec (readyb st) (alive st (pending_tasks st)) []) as [(m1 & k & m2 & El & Hk & Hm & Epk)|[Hl _]].
  2: { exfalso. rewrite Hal in Hl. apply Forall_app in Hl as [_ Hl]. apply Forall_cons in Hl as [Hl _]. congruence. }
  rewrite Epk in Hch. injection Hch as <- <-. rewrite El in Hal.
  destruct (decide (k = i)) as [->|Hki]; [by left|right].
  assert (Hx : ∃ x y, m2 = x ++ i :: y ∧ alive st l1 = m1 ++ k :: x).
  { apply app_eq_inv in Hal as [(x & E1 & E2)|(x & E1 & E2)].
    - destruct x as [|z x]; [injection E2 as ->; done|]. injection E2 as <- E2. exfalso. rewrite E1 in Hm.
      apply Forall_app in Hm as [_ Hm]. apply Forall_cons in Hm as [Hm _]. congruence.
    - destruct x as [|z x]; [injection E2 as ->; done|]. injection E2 as <- E2. exists x, (alive st l2). by rewrite E2, E1. }
  destruct Hx as (x & y & -> & Ex). rewrite (sw_pending _ _ _ _ _ _ _ Hsw).
  exists x. eexists. rewrite <-!app_assoc. cbn [app]. split; [reflexivity|].
  pose proof (alive_length st l1) as Hlen. rewrite Ex, length_app in Hlen. simpl in Hlen. lia.
Qed.
(** [n] switches, on any CPUs and among any other steps, during which [i] never runs. *)
Inductive run_without (i : Z) : nat → state R → state R → Prop :=
| rw_nil st : ¬ running st i → run_without i 0 st st
| rw_step st st' st'' b n :
    ¬ running st i → step st st' b → run_without i n st' st'' →
    run_without i (if b then S n else n) st st''.

Lemma run_without_start i n st st' : run_without i n st st' → ¬ running st i.
Proof. by destruct 1. Qed.

Lemma ready_change st st' i : state_of st i = Some ReadyToRun → state_change st st' i → state_of st' i = Some ReadyToRun.
Proof. intros E [E'|(_ & _ & E')]; congruence. Qed.

Lemma switched_state st st' p c n rest s i :
  switched st st' p c n rest s → state_of st i ≠ Some Killed → state_of st' i = state_of st i.
Proof.
  intros S Hk. unfold state_of at 1. rewrite (same_state st _ i (sw_tasks _ _ _ _ _ _ _ S)), drop_killed_lookup.
  case_decide; [tauto|done].
Qed.

Lemma waiting_bound i n st st' : run_without i n st st' → ∀ l1 l2,
  sched_inv st → pending_tasks st = l1 ++ i :: l2 → state_of st i = Some ReadyToRun → (n ≤ length l1)%nat.
Proof.
  induction 1 as [st Hn|st st' st'' b n Hn Hs Hr IH]; intros l1 l2 I Hp Hi; [lia|].
  assert (I' := step_inv _ _ _ I Hs). assert (Hn' := run_without_start _ _ _ _ Hr).
  assert (Hlt : i < next_task_id st).
  { destruct (inv_pending _ I i) as [t Ht]; [rewrite Hp; set_solver|]. by apply (inv_tasks _ I _ t). }
  destruct (step_effect _ _ _ I Hs) as [l Ep _ HS _|p c rest Hc Hch _|st1 p c n' rest s I1 Ep1 _ _ HS Hc Hch Hsw].
  - apply (IH l1 (l2 ++ l)); [done|by rewrite Ep, Hp, <-app_assoc|]. by apply (ready_change st); auto.
  - exfalso. destruct (choose_none st p c rest I Hc Hch) as (_ & Hno & _). specialize (Hno i).
    unfold readyb in Hno. rewrite Hi in Hno. rewrite Hp in Hno. discriminate Hno. set_solver.
  - assert (Hi1 : state_of st1 i = Some ReadyToRun) by (apply (ready_change st); auto).
    destruct (switch_progress st1 st' p c n' rest s i l1 l2 Hch Hsw) as [->|(l1' & l2' & Ep' & Hl)].
    + by rewrite Ep1.
    + unfold readyb. by rewrite Hi1.
    + exfalso. apply Hn'. destruct (sw_this _ _ _ _ _ _ _ Hsw) as (c' & Hc' & EC & _). by exists p, c'.
    + assert (n ≤ length l1')%nat; [|lia]. apply (IH l1' l2'); [done|done|].
      rewrite (switched_state _ _ _ _ _ _ _ i Hsw) by congruence. done.
Qed.

(** C9: A task that is ready to run and queued behind [length l1] others runs before the
    CPUs have switched tasks more than [length l1] times: whatever the other tasks do, in
    any interleaving, no run of more switches goes past it. *)
Theorem ready_task_waits_its_turn i n st st' l1 l2 :
  reachable st → pending_tasks st = l1 ++ i :: l2 → state_of st i = Some ReadyToRun →
  run_without i n st st' → (n ≤ length l1)%nat.
Proof. intros Hr Hp Hi Hw. by apply (waiting_bound i n st st' Hw l1 l2 (reachable_inv _ Hr)). Qed.

(** C3: In every reachable state each task is in one place: no task runs on two CPUs, is
    queued twice, or is queued while it runs, and all of them exist. *)
Theorem every_task_in_one_place st :
  reachable st →
  NoDup (((λ x, CURRENT_TASK_ID x.2) <$> map_to_list (cpus st)) ++ pending_tasks st) ∧
  ∀ i, i ∈ ((λ x, CURRENT_TASK_ID x.2) <$> map_to_list (cpus st)) ++ pending_tasks st → is_Some (tasks st !! i).
Proof.
  intros I%reachable_inv. split.
  - apply NoDup_app. split_and!; [| |apply I].
    + apply NoDup_fmap_2_strong; [|apply NoDup_map_to_list]. intros [p c] [q d] Hp%elem_of_map_to_list Hq%elem_of_map_to_list.
      simpl. intros E. destruct (decide (p = q)) as [->|Hne]; [congruence|]. by destruct (inv_cpus _ I p q c d Hne Hp Hq).
    + intros i Hi%list_elem_of_fmap. destruct Hi as ([p c] & -> & Hp%elem_of_map_to_list). by apply (inv_current _ I p).
  - intros i [Hi%list_elem_of_fmap|Hi]%elem_of_app; [|by apply I].
    destruct Hi as ([p c] & -> & Hp%elem_of_map_to_list). by apply (inv_current _ I p).
Qed.

(** ** Choosing a task *)


(** ** Leaving *)
Definition gone st (i : Z) : Prop :=
  i < next_task_id st ∧ ¬ running st i ∧ (state_of st i = Some Killed ∨ state_of st i = None).

Lemma gone_change st st' i : (state_of st i = Some Killed ∨ state_of st i = None) → state_change st st' i →
  state_of st' i = Some Killed ∨ state_of st' i = None.
Proof. intros E [E'|([? Es] & Hk & _)]; [by rewrite E'|]. destruct E; congruence. Qed.

Lemma dropped_state st m i :
  (state_of st i = Some Killed ∨ state_of st i = None) → same_tasks (drop_killed st (pending_tasks st)) m →
  let s := match m !! i with Some t => task_state t | None => None end in s = Some Killed ∨ s = None.
Proof.
  intros E S. cbn zeta. rewrite (same_state st m i S), drop_killed_lookup. case_decide; [by right|]. exact E.
Qed.

Lemma same_tasks_refl m : same_tasks m m.
Proof. intros i. by destruct (m !! i). Qed.

Lemma switched_gone st st' p c n rest s i :
  sched_inv st → cpus st !! p = Some c → choose st (CURRENT_TASK_ID c) (IDLE_TASK_ID c) = (Some n, rest) →
  switched st st' p c n rest s → i < next_task_id st → (i = CURRENT_TASK_ID c ∨ ¬ running st i) →
  state_of st i = Some Killed ∨ state_of st i = None → gone st' i.
Proof.
  intros I Hc Hch S Hi Hrun Hs. destruct (choose_some st p c n rest I Hc Hch) as (Hne & [tn Hn] & Hk & _).
  assert (Hin : i ≠ n).
  { intros ->. destruct Hs as [Hs|Hs]; [done|]. unfold state_of in Hs. rewrite (drop_killed_some _ _ _ Hn) in Hs.
    destruct (inv_tasks _ I _ _ (drop_killed_some _ _ _ Hn)) as (_ & _ & [? ?] & _). congruence. }
  split_and!.
  - by rewrite (sw_next _ _ _ _ _ _ _ S).
  - intros (q & d & Hd & <-). destruct (sw_this _ _ _ _ _ _ _ S) as (c' & Hc' & EC & _).
    destruct (decide (q = p)) as [->|Hq]; [congruence|]. rewrite (sw_others _ _ _ _ _ _ _ S q Hq) in Hd.
    destruct Hrun as [E|Hn']; [|apply Hn'; by exists q, d]. by destruct (inv_cpus _ I q p d c Hq Hd Hc).
  - apply (dropped_state st (tasks st') i Hs (sw_tasks _ _ _ _ _ _ _ S)).
Qed.

Lemma step_gone st st' b i : sched_inv st → step st st' b → gone st i → gone st' i.
Proof.
  intros I Hs (Hi & Hn & Hg).
  destruct (step_effect _ _ _ I Hs) as [l _ Hr HS Hnx|p c rest Hc Hch S|st1 p c n' rest s I1 _ En Hr HS Hc Hch Hsw].
  - split_and!; [lia| |by apply (gone_change st); auto]. intros Hj. by destruct (Hr i Hj); [|lia].
  - split_and!; [by rewrite (sy_next _ _ _ _ S)| |].
    + intros (q & d & Hd & <-). apply Hn. pose proof (sy_cpus _ _ _ _ S q) as Hq. rewrite Hd in Hq.
      destruct (cpus st !! q) as [d0|] eqn:E; [|done]. exists q, d0. by destruct Hq as [-> _].
    + unfold state_of. rewrite (sy_tasks _ _ _ _ S). apply (dropped_state st _ i Hg), same_tasks_refl.
  - eapply switched_gone; [exact I1|exact Hc|exact Hch|exact Hsw|by rewrite En|right; auto|]. by apply (gone_change st); auto.
Qed.

(** [kill_current_task] does not return to the task it kills: it hands the CPU to
    another task, and whatever happens later, on any CPU, the killed task never runs
    again (as long as no [awaken_task] is issued for it after its exit). *)
Theorem exit_is_final st p c code rsp :
  reachable st → cpus st !! p = Some c → CURRENT_TASK_ID c ≠ IDLE_TASK_ID c → may_exit st (CURRENT_TASK_ID c) →
  ∃ st', kill_current_task code st p rsp = Ret st' ∧
    ∀ st'', rtc (λ s s', ∃ b, step s s' b) st' st'' → ¬ running st'' (CURRENT_TASK_ID c).
Proof.
  intros I%reachable_inv Hc Hi Hm. destruct (kill_ok st p c code rsp I Hc Hi Hm)
    as (st1 & c1 & n & rest & st' & I1 & Q & Hc1 & EC & Hk & _ & Hch & Hsw & E & I').
  exists st'. split; [done|].
  assert (G : gone st' (CURRENT_TASK_ID c)).
  { eapply switched_gone; [exact I1|exact Hc1|exact Hch|exact Hsw| |by left|by left].
    destruct (load_state st1 _ _ Hk) as (t & Ht & _). by apply (inv_tasks _ I1 _ t). }
  clear - I' G. intros st'' Hr. induction Hr as [st'|st1 st2 st3 [b Hs] _ IH]; [by destruct G as (_ & ? & _)|].
  apply IH; [by eapply step_inv|by eapply step_gone].
Qed.
End props.

Lemma inv_cpu_exists {R} `{!TaskMemory R} (st : state R) : sched_inv st → ∀ p, is_Some (cpus st !! p) →
  ∃ c t, cpus st !! p = Some c ∧ tasks st !! CURRENT_TASK_ID c = Some t.
Proof. intros I p [c Hc]. destruct (inv_current _ I _ _ Hc) as ([t Ht] & _). by exists c, t. Qed.

(** ** A small system

    One CPU with its idle task 1, and the tasks 2 and 3; stacks are numbers. *)
Definition demo_memory : TaskMemory Z := {|
  allocate_stack := λ r, Ret (r, r + 0x10000);
  stack_top := λ s, Ret (s + 0x10000);
  write_word := λ _ _ r, Ret r;
  clone_kernel_page_table := λ r, Ret (0, r);
|}.
#[local] Existing Instance demo_memory.

Definition ret_or {A} (d : A) (m : outcome A) : A := match m with Ret a => a | _ => d end.

Lemma ret_or_ok {A} (d : A) m : is_ret m = true → m = Ret (ret_or d m).
Proof. by destruct m. Qed.

Definition demo_cpu : cpu := mkCpu 0 0 0 0 true 0 0.
Definition demo0 : state Z := initial 0.
Definition demo_boot : state Z := with_cpus demo0 (<[0 := demo_cpu]> (cpus demo0)).
Definition demo1 : state Z := ret_or demo0 (per_cpu_init 77 78 "idle" demo_boot 0).
Definition demo2 : state Z := (ret_or (0, demo0) (new_task 77 "a" 80 0 demo1)).2.
Definition demo3 : state Z := (ret_or (0, demo0) (new_task 77 "b" 81 0 demo2)).2.
Definition demo4 : state Z := (ret_or (false, demo0) (run_scheduler demo3 0 0x5000)).2.

Lemma ret_or_pair {A B} (d : A * B) m : is_ret m = true → m = Ret ((ret_or d m).1, (ret_or d m).2).
Proof. destruct m as [[a b]| |]; done. Qed.

Lemma ret_or_flag {A B} (d : A * B) m a : is_ret m = true → (ret_or d m).1 = a → m = Ret (a, (ret_or d m).2).
Proof. destruct m as [[x b]| |]; [|done|done]. by intros _ <-. Qed.

Lemma demo4_run : run_scheduler demo3 0 0x5000 = Ret (true, demo4).
Proof. apply (ret_or_flag (false, demo0)); vm_compute; reflexivity. Qed.

Lemma demo_reachable : reachable demo3 ∧ reachable demo4.
Proof.
  assert (R1 : reachable demo1).
  { eapply reach_step; [apply (reach_initial 0)|]. eapply (step_cpu _ 0 demo_cpu 77 78 "idle"); [done|done|].
    apply ret_or_ok. vm_compute. reflexivity. }
  assert (R2 : reachable demo2).
  { eapply reach_step; [exact R1|]. eapply (step_new _ 77 "a" 80 0). apply (ret_or_pair (0, demo0)). vm_compute. reflexivity. }
  assert (R3 : reachable demo3).
  { eapply reach_step; [exact R2|]. eapply (step_new _ 77 "b" 81 0). apply (ret_or_pair (0, demo0)). vm_compute. reflexivity. }
  split; [exact R3|]. eapply reach_step; [exact R3|]. eapply (step_run _ 0 0x5000); [eexists; vm_compute; reflexivity|].
  apply (ret_or_pair (false, demo0)). vm_compute. reflexivity.
Qed.

Lemma every_task_in_one_place_witness :
  reachable demo4 ∧ NoDup (((λ x, CURRENT_TASK_ID x.2) <$> map_to_list (cpus demo4)) ++ pending_tasks demo4).
Proof. split; [apply demo_reachable|]. apply every_task_in_one_place, demo_reachable. Defined.

Lemma demo_not_running i st c : cpus st = {[ 0 := c ]} → CURRENT_TASK_ID c ≠ i → ¬ running (R:=Z) st i.
Proof. intros E Hi (p & d & Hd & Hc). rewrite E in Hd. apply lookup_singleton_Some in Hd as [_ <-]. done. Qed.

(** In [demo3] task 3 waits behind task 2; the first switch goes to task 2. *)
Lemma ready_task_waits_its_turn_witness :
  pending_tasks demo3 = [2] ++ 3 :: [] ∧ state_of demo3 3 = Some ReadyToRun ∧
  ∃ n, run_without 3 n demo3 demo4 ∧ (n ≤ length [2%Z])%nat.
Proof.
  assert (Hp : pending_tasks demo3 = [2] ++ 3 :: []) by (vm_compute; reflexivity).
  assert (Hs : state_of demo3 3 = Some ReadyToRun) by (vm_compute; reflexivity).
  assert (Hrun : run_without 3 1 demo3 demo4).
  { apply (rw_step 3 demo3 demo4 demo4 true 0).
    - eapply demo_not_running; [vm_compute; reflexivity|vm_compute; discriminate].
    - eapply (step_run _ 0 0x5000); [eexists; vm_compute; reflexivity|exact demo4_run].
    - apply rw_nil. eapply demo_not_running; [vm_compute; reflexivity|vm_compute; discriminate]. }
  split_and!; [exact Hp|exact Hs|]. exists 1%nat. split; [exact Hrun|].
  exact (ready_task_waits_its_turn 3 1 demo3 demo4 [2] [] (proj1 demo_reachable) Hp Hs Hrun).
Defined.


(** In [demo4] task 2 runs. *)
Lemma demo4_may_exit : may_exit demo4 2.
Proof.
  eexists. split; [vm_compute; reflexivity|]. split_and!; [reflexivity|reflexivity|].
  intros w Hw. cbn in Hw. by apply not_elem_of_nil in Hw.
Qed.

Lemma exit_is_final_witness :
  ∃ c st', cpus demo4 !! 0 = Some c ∧ CURRENT_TASK_ID c = 2 ∧
    kill_current_task ExitSuccess demo4 0 0x6000 = Ret st' ∧ ¬ running st' 2.
Proof.
  assert (Hc : ∃ c, cpus demo4 !! 0 = Some c ∧ CURRENT_TASK_ID c = 2 ∧ IDLE_TASK_ID c = 1).
  { eexists. split_and!; vm_compute; reflexivity. }
  destruct Hc as (c & Hc & EC & EI). pose proof demo4_may_exit as Hm. rewrite <-EC in Hm.
  destruct (exit_is_final demo4 0 c ExitSuccess 0x6000 (proj2 demo_reachable) Hc) as (st' & E & Hf); [lia|exact Hm|].
  exists c, st'. split_and!; [exact Hc|exact EC|exact E|]. rewrite EC in Hf. by apply Hf, rtc_refl.
Defined.

(** ** A killed task that is awakened

    Task 2 leaves; before the scheduler has collected it, another task awakens it; the
    next time task 3 gives up the CPU, task 2 is ready. *)
Definition killed2 : state Z := ret_or demo0 (kill_current_task ExitSuccess demo4 0 0x6000).
Definition awakened2 : state Z := ret_or demo0 (awaken_task killed2 0 2).
Definition sleeping3 : state Z := (ret_or (0, demo0) (prepare_to_sleep awakened2 0)).2.

(** [awaken_task] makes a task that has called [kill_current_task] ready again, and
    the scheduler then switches back into [kill_current_task], which panics. *)
Theorem awaken_resurrects_killed :
  state_of killed2 2 = Some Killed ∧ state_of awakened2 2 = Some ReadyToRun ∧
  run_scheduler sleeping3 0 0x7000 = Panic PanicExplicit.
Proof. split_and!; vm_compute; reflexivity. Qed.

(** The HPET's counter times its period is computed in 64 bits: a period of 10 ns, as
    QEMU's, overflows them, and stops the kernel, once the counter has reached
    2^64 / 10^7, in a little more than five hours. *)
Theorem elapsed_overflows period counter :
  0 < period → 2 ^ 64 / period < counter → Milliseconds.elapsed period counter = Panic PanicOverflow.
Proof.
  intros Hp Hc. unfold Milliseconds.elapsed, umul.
  destruct (Z.ltb_spec (counter * period) (2 ^ 64)); [|done]. exfalso.
  assert (2 ^ 64 < counter * period) by (Z.div_mod_to_equations; nia). lia.
Qed.

Lemma elapsed_overflows_witness : Milliseconds.elapsed 10000000 1844674407371 = Panic PanicOverflow.
Proof. apply elapsed_overflows; vm_compute; reflexivity. Defined.
