(* ===== verification/TaskMem.v ===== *)
(** * The memory behind tasks, and system calls

    [TaskMemory] over the kernel's own stacks and page tables, and the handlers of
    [kernel/src/sched/syscall.rs]. *)
From S2P Require Import Prelude AllocSpec BitmapAlloc External Addr PhysMem PageTable Mapping KStack Ext2Dir.
From S2P Require Import Cells Asm Sched.
#[local] Open Scope Z_scope.

Section memory.
Context {x86 : X86_64} {bf : Bitflags} {A : Type} {CA : ContiguousAllocator A}.
Context {B : Type} {CB : ContiguousAllocator B}.

(** A store through a virtual address of the kernel's page table; an unmapped address
    is a page fault. *)
Definition write_virtual (a v : Z) (s : kmem A * option B) : outcome (kmem A * option B) :=
  let '(k, lock) := s in
  table ← expect (k_table k);
  r ← PageTable.translate_address (k_words k) table a;
  match r with
  | PageTable.TranslateMapped page _ offset =>
      mret (mkKmem (store_set (k_words k) (start_addr page + offset) v) (k_frames k) (k_flushed k) (k_table k)
              (k_heap k), lock)
  | _ => Panic Undefined
  end.

#[export] Instance kernel_task_memory : TaskMemory (kmem A * option B) := {|
  allocate_stack := λ '(k, lock), '(s, k, lock) ← KStack.allocate_stack k lock; mret (s, (k, lock));
  stack_top := KStack.top_addr;
  write_word := write_virtual;
  clone_kernel_page_table := λ '(k, lock),
    '(t, k) ← Mapping.clone_kernel_page_table k;
    a ← PageTable.physical_address t;
    mret (a, (k, lock));
|}.
End memory.

(** ** System calls *)
Module Syscall.
Section syscall.
Context {R : Type} `{!TaskMemory R}.
Implicit Types (st : state R).

(** The effects a handler has besides the scheduler's: the log. *)
Definition log_line : Type := list Z.

(** [slice::from_raw_parts(data_ptr, data_len)] of the calling task, by [read]. *)
Definition syscall_print (read : Z → Z → list Z) (data_ptr data_len : Z) : outcome log_line :=
  let s := read data_ptr data_len in
  match Utf8.from_utf8 s with Some s => mret s | None => Panic PanicExpect end.

Definition syscall_exit (exit_code : Z) st p rsp : outcome (state R) :=
  Sched.kill_current_task (exit_code_from exit_code) st p rsp.

(** [syscall_handler_inner], until the CPU runs a task again: the entries of
    [SYSCALL_HANDLERS], the log, and whether the caller was switched away from. *)
Definition syscall_handler_inner (read : Z → Z → list Z) (registers : TaskRegisters) st p rsp
  : outcome (list log_line * bool * state R) :=
  let syscall_num := syscall_number_or_irq_or_error_code registers in
  let arg1 := tr_rsi registers in
  let arg2 := tr_rdx registers in
  if syscall_num =? 0 then
    st ← syscall_exit arg1 st p rsp;
    mret ([], true, st)
  else if syscall_num =? 1 then
    line ← syscall_print read arg1 arg2;
    '(b, st) ← Sched.run_scheduler st p rsp;
    mret ([line], b, st)
  else
    '(b, st) ← Sched.run_scheduler st p rsp;
    mret ([], b, st).
End syscall.
End Syscall.

(** A user program stops the kernel by asking it to print bytes that are not UTF-8. *)
Theorem syscall_print_panics {R} `{!TaskMemory R} (st : state R) read registers p rsp :
  syscall_number_or_irq_or_error_code registers = 1 →
  Utf8.valid (read (tr_rsi registers) (tr_rdx registers)) = false →
  Syscall.syscall_handler_inner read registers st p rsp = Panic PanicExpect.
Proof.
  intros E Hv. unfold Syscall.syscall_handler_inner, Syscall.syscall_print, Utf8.from_utf8. by rewrite E, Hv.
Qed.

Definition print_registers : TaskRegisters := mkTaskRegisters 0 0 0 0 0 0 0 0 0 0 0 0 1 0x1000 1 1 0 0 0 0 0.

Definition no_memory : TaskMemory unit := {|
  allocate_stack := λ r, Ret (0, r); stack_top := λ s, Ret s; write_word := λ _ _ r, Ret r;
  clone_kernel_page_table := λ r, Ret (0, r) |}.

Lemma syscall_print_panics_witness :
  ∀ st : state unit, Syscall.syscall_handler_inner (TaskMemory0 := no_memory) (λ _ _, [0xff]) print_registers st 0 0 = Panic PanicExpect.
Proof. intros st. apply syscall_print_panics; reflexivity. Defined.
