(* ===== verification/Sync.v ===== *)
(** * Locks and channels ([kernel/src/sync/once_channel.rs], [mutex.rs], [spin_lock.rs])

    What tasks do to each other through a channel or a mutex is a matter of
    interleaving, so each is a transition system: the shared data, and for every task
    the place in the code it has reached.  A step is one of the calls the code makes
    ([prepare_to_sleep], [get_once], [awaken_task], ...).  [run_scheduler] returns to a
    task only when the task is [ReadyToRun]. *)
From S2P Require Import Prelude External Addr PhysMem Cells Asm Sched SchedThms.
#[local] Open Scope Z_scope.

(** ** [SpinLock]

    On the per-CPU state: the guard remembers what it has to restore. *)
Module SpinLock.
Record t : Type := mk { mutex_locked : bool }.
Record guard : Type := mkGuard { needs_enabling : bool; has_preempt_guard : bool }.

(** [SpinMutex::lock] spins while the lock is held. *)
Definition acquire (self : t) : outcome t := if mutex_locked self then Diverge else Ret (mk true).

Definition lock (self : t) (c : cpu) : outcome (guard * t * cpu) :=
  let c := inc_preempt c in
  self ← acquire self;
  mret (mkGuard false true, self, c).

Definition try_lock_allow_preempt (self : t) : option (guard * t) :=
  if mutex_locked self then None else Some (mkGuard false false, mk true).

Definition lock_disable_interrupts (self : t) (c : cpu) : outcome (guard * t * cpu) :=
  let c := inc_preempt c in
  let saved_intpt_flag := interrupts c in
  let c := if saved_intpt_flag then set_interrupts false c else c in
  self ← acquire self;
  mret (mkGuard saved_intpt_flag true, self, c).

(** Dropping a guard drops its fields in order. *)
Definition drop (g : guard) (self : t) (c : cpu) : t * cpu :=
  let self := mk false in
  let c := if needs_enabling g then set_interrupts true c else c in
  let c := if has_preempt_guard g then dec_preempt c else c in
  (self, c).

Definition force_unlock (self : t) : t := mk false.
End SpinLock.

(** ** A channel for one message *)
Module OnceChannel.
Section channel.
Context {T : Type}.

(** Where the receiver is in [wait_sleep]. *)
Inductive receiver_at : Type :=
| RPrepare            (** the top of the loop *)
| RCheck              (** after [prepare_to_sleep] *)
| RAwaken (m : T)     (** the cell gave the message *)
| RSchedule           (** it did not: in [run_scheduler] *)
| RReturned (m : T).

(** Where the sender is in [send]. *)
Inductive sender_at : Type := SSet (m : T) | SAwaken | SReturned.

Record t : Type := mk {
  cell : OnceCell.t T;
  receiver_state : DesiredTaskState;
  receiver : receiver_at;
  sender : sender_at;
}.

(** [once_channel], with the sender about to send [m] *)
Definition new (m : T) : t := mk OnceCell.new ReadyToRun RPrepare (SSet m).

Inductive step : t → t → Prop :=
| r_prepare c s k : step (mk c s RPrepare k) (mk c Sleeping RCheck k)
| r_some c c' s m k :
    OnceCell.get_once c = Ret (Some m, c') → step (mk c s RCheck k) (mk c' s (RAwaken m) k)
| r_none c c' s k :
    OnceCell.get_once c = Ret (None, c') → step (mk c s RCheck k) (mk c' s RSchedule k)
| r_awaken c s m k : step (mk c s (RAwaken m) k) (mk c ReadyToRun (RReturned m) k)
| r_schedule c k : step (mk c ReadyToRun RSchedule k) (mk c ReadyToRun RPrepare k)
| s_set c c' s r m : OnceCell.set c m = Ret c' → step (mk c s r (SSet m)) (mk c' s r SAwaken)
| s_awaken c s r : step (mk c s r SAwaken) (mk c ReadyToRun r SReturned).

(** ** The message arrives *)

(** What is true at every point, for a message [m]. *)
Definition inv (m : T) (x : t) : Prop :=
  match sender x, receiver x with
  | SSet m', RPrepare => m' = m ∧ cell x = OnceCell.new
  | SSet m', (RCheck | RSchedule) => m' = m ∧ cell x = OnceCell.new ∧ receiver_state x = Sleeping
  | SSet _, _ => False
  | SAwaken, RSchedule => cell x = OnceCell.mk (Some m) true 0 ∧ receiver_state x = Sleeping
  | SReturned, RSchedule => cell x = OnceCell.mk (Some m) true 0 ∧ receiver_state x = ReadyToRun
  | _, (RPrepare | RCheck) => cell x = OnceCell.mk (Some m) true 0
  | _, (RAwaken m' | RReturned m') => m' = m
  end.

Lemma inv_step m x y : inv m x → step x y → inv m y.
Proof.
  intros I. destruct 1 as [c s k|c c' s m' k E|c c' s k E|c s m' k|c k|c c' s r m' E|c s r]; unfold inv in *; cbn in *.
  - destruct k; naive_solver.
  - destruct k; [destruct I as (_ & -> & _); discriminate E|subst c; by injection E as <- <-..].
  - destruct k; [destruct I as (-> & -> & ->); by injection E as <-|subst c; discriminate E..].
  - by destruct k.
  - destruct k; naive_solver.
  - destruct r; try done; [destruct I as [-> ->]|destruct I as (-> & -> & ?)..]; cbn in E; by injection E as <-.
  - destruct r; naive_solver.
Qed.

(** Every run is short. *)
Definition work (x : t) : nat :=
  match sender x with
  | SSet _ => 20 + match receiver x with RPrepare => 2 | RCheck => 1 | _ => 0 end
  | SAwaken => 10 + match receiver x with RSchedule => 4 | RPrepare => 3 | RCheck => 2 | RAwaken _ => 1 | _ => 0 end
  | SReturned => match receiver x with RSchedule => 4 | RPrepare => 3 | RCheck => 2 | RAwaken _ => 1 | _ => 0 end
  end.

Lemma work_step m x y : inv m x → step x y → (work y < work x)%nat.
Proof.
  intros I. destruct 1 as [c s k|c c' s m' k E|c c' s k E|c s m' k|c k|c c' s r m' E|c s r]; unfold inv, work in *; cbn in *.
  - destruct k; lia.
  - destruct k; [destruct I as (_ & -> & _); discriminate E|lia..].
  - destruct k; [lia|subst c; discriminate E..].
  - destruct k; [done|lia..].
  - destruct k; [naive_solver|naive_solver|lia].
  - destruct r; try done; lia.
  - destruct r; lia.
Qed.

Lemma progress m x : inv m x → (∃ y, step x y) ∨ receiver x = RReturned m.
Proof.
  destruct x as [c s r k]. unfold inv. cbn. destruct k as [m'| |].
  - intros I. left. eexists (mk _ s r SAwaken). apply s_set. destruct r; try done; destruct I as (-> & -> & _) || destruct I as (-> & ->); done.
  - intros _. left. eexists. apply s_awaken.
  - destruct r as [| |m'| |m'].
    + intros _. left. eexists. apply r_prepare.
    + intros ->. left. eexists. by apply r_some.
    + intros _. left. eexists. apply r_awaken.
    + intros [-> ->]. left. eexists. apply r_schedule.
    + intros ->. by right.
Qed.

Lemma inv_nsteps m n x : nsteps step n (new m) x → inv m x ∧ (n + work x ≤ 22)%nat.
Proof.
  intros H. assert (G : ∀ n a b, nsteps step n a b → inv m a → inv m b ∧ (n + work b ≤ work a)%nat).
  { clear. intros n a b H. induction H as [a|n a b c Hs _ IH]; [split; [done|lia]|]. intros I.
    destruct (IH (inv_step _ _ _ I Hs)) as [I' Hw]. pose proof (work_step _ _ _ I Hs). split; [done|lia]. }
  destruct (G n _ _ H) as [I Hw]; [done|]. split; [done|]. cbn in Hw. lia.
Qed.

End channel.
Arguments t T : clear implicits.

End OnceChannel.

(** ** [Mutex] *)
Module Mutex.

(** Where a task is in [lock], in the critical section, or in [MutexGuard::drop]. *)
Inductive place : Type :=
| Outside
| MPrepare     (** the top of the loop of [lock] *)
| MPush        (** after [prepare_to_sleep] *)
| MTry         (** after [waiting_tasks.push_back] *)
| MAwaken      (** [try_lock_allow_preempt] gave the guard *)
| MSchedule    (** it did not: in [run_scheduler] *)
| MHolds
| MWake        (** in [wake_tasks], holding the lock of [waiting_tasks] *)
| MRelease.    (** the fields of the guard are dropped *)

#[global] Instance place_eq_dec : EqDecision place.
Proof. solve_decision. Defined.

Record t : Type := mk {
  inner : SpinLock.t;
  waiting : list Z;
  waiting_locked : bool;
  task_states : Z → DesiredTaskState;
  at_place : Z → place;
}.

Definition put {A} (f : Z → A) (i : Z) (a : A) : Z → A := λ j, if decide (j = i) then a else f j.

Definition new : t := mk (SpinLock.mk false) [] false (λ _, ReadyToRun) (λ _, Outside).

Inductive step : t → t → Prop :=
| m_call x i : at_place x i = Outside →
    step x (mk (inner x) (waiting x) (waiting_locked x) (task_states x) (put (at_place x) i MPrepare))
| m_prepare x i : at_place x i = MPrepare →
    step x (mk (inner x) (waiting x) (waiting_locked x) (put (task_states x) i Sleeping) (put (at_place x) i MPush))
| m_push x i : at_place x i = MPush → waiting_locked x = false →
    step x (mk (inner x) (waiting x ++ [i]) false (task_states x) (put (at_place x) i MTry))
| m_try x i g l : at_place x i = MTry → SpinLock.try_lock_allow_preempt (inner x) = Some (g, l) →
    step x (mk l (waiting x) (waiting_locked x) (task_states x) (put (at_place x) i MAwaken))
| m_try_fails x i : at_place x i = MTry → SpinLock.try_lock_allow_preempt (inner x) = None →
    step x (mk (inner x) (waiting x) (waiting_locked x) (task_states x) (put (at_place x) i MSchedule))
| m_awaken x i : at_place x i = MAwaken →
    step x (mk (inner x) (waiting x) (waiting_locked x) (put (task_states x) i ReadyToRun) (put (at_place x) i MHolds))
| m_schedule x i : at_place x i = MSchedule → task_states x i = ReadyToRun →
    step x (mk (inner x) (waiting x) (waiting_locked x) (task_states x) (put (at_place x) i MPrepare))
| m_drop x i : at_place x i = MHolds → waiting_locked x = false →
    step x (mk (inner x) (waiting x) true (task_states x) (put (at_place x) i MWake))
| m_wake x i w ws : at_place x i = MWake → waiting x = w :: ws →
    step x (mk (inner x) ws (waiting_locked x) (put (task_states x) w ReadyToRun) (at_place x))
| m_woken x i : at_place x i = MWake → waiting x = [] →
    step x (mk (inner x) [] false (task_states x) (put (at_place x) i MRelease))
| m_release x i : at_place x i = MRelease →
    step x (mk (SpinLock.force_unlock (inner x)) (waiting x) (waiting_locked x) (task_states x) (put (at_place x) i Outside)).

(** ** Mutual exclusion *)
Definition holds (p : place) : bool :=
  match p with MAwaken | MHolds | MWake | MRelease => true | _ => false end.

Definition excl (x : t) : Prop :=
  (∀ i, holds (at_place x i) = true → SpinLock.mutex_locked (inner x) = true) ∧
  (∀ i j, holds (at_place x i) = true → holds (at_place x j) = true → i = j).

Lemma excl_move x i p l ws b ss :
  excl x → holds p = holds (at_place x i) → l = inner x → excl (mk l ws b ss (put (at_place x) i p)).
Proof.
  intros [H1 H2] Hp ->. unfold excl, put. cbn. split.
  - intros j. case_decide as E; [subst; rewrite Hp; apply H1|apply H1].
  - intros j k. repeat case_decide; subst; rewrite ?Hp; auto.
Qed.

Lemma excl_step x y : excl x → step x y → excl y.
Proof.
  intros I. destruct 1 as [x i E|x i E|x i E|x i g l E El|x i E|x i E|x i E|x i E|x i w ws E|x i E|x i E];
    try (apply excl_move; [done|by rewrite E|done]).
  - unfold SpinLock.try_lock_allow_preempt in El. destruct (SpinLock.mutex_locked (inner x)) eqn:Hl; [done|].
    injection El as _ <-. destruct I as [I1 I2].
    assert (Hno : ∀ j, holds (at_place x j) = false).
    { intros j. destruct (holds (at_place x j)) eqn:Ej; [|done]. specialize (I1 j Ej). congruence. }
    split; cbn; [done|]. intros j k. unfold put. repeat case_decide; rewrite ?Hno; congruence.
  - done.
  - destruct I as [I1 I2]. assert (Hi : holds (at_place x i) = true) by (by rewrite E).
    assert (Hno : ∀ j, j ≠ i → holds (at_place x j) = false).
    { intros j Hj. destruct (holds (at_place x j)) eqn:Ej; [|done]. by destruct Hj; apply I2. }
    split; cbn; unfold put.
    + intros j. case_decide; [done|]. by rewrite Hno.
    + intros j k. repeat case_decide; rewrite ?Hno by done; done.
Qed.

Lemma excl_reachable x : rtc step new x → excl x.
Proof.
  assert (G : ∀ a b, rtc step a b → excl a → excl b).
  { intros a b H. induction H as [a|a b c Hs _ IH]; [done|]. intros I. by apply IH, (excl_step a). }
  intros H. apply (G _ _ H). split; intros; done.
Qed.

(** C13: At most one task at a time has the mutex, from the moment [try_lock_allow_preempt]
    succeeds until the spin lock in the guard is released, and the lock is taken all that
    while. *)
Theorem mutual_exclusion x i j :
  rtc step new x → holds (at_place x i) = true → holds (at_place x j) = true →
  i = j ∧ SpinLock.mutex_locked (inner x) = true.
Proof.
  intros Hr Hi Hj. destruct (excl_reachable x Hr) as [I1 I2]. split; [by apply I2|by apply (I1 i)].
Qed.

Definition take (i : Z) (x : t) : t :=
  mk (SpinLock.mk true) (waiting x ++ [i]) false (put (put (task_states x) i Sleeping) i ReadyToRun)
    (put (put (put (put (put (at_place x) i MPrepare) i MPush) i MTry) i MAwaken) i MHolds).

(** A free mutex is taken without waiting. *)
Lemma take_steps i x :
  at_place x i = Outside → waiting_locked x = false → inner x = SpinLock.mk false → rtc step x (take i x).
Proof.
  intros E Hw Hl.
  assert (Hp : ∀ {A} (f : Z → A) a, put f i a i = a) by (intros; unfold put; by rewrite decide_True).
  eapply rtc_l; [by apply (m_call x i)|]. eapply rtc_l; [apply (m_prepare _ i), Hp|].
  eapply rtc_l; [apply (m_push _ i); [apply Hp|done]|].
  eapply rtc_l; [apply (m_try _ i (SpinLock.mkGuard false false) (SpinLock.mk true)); [apply Hp|cbn; by rewrite Hl]|].
  eapply rtc_l; [apply (m_awaken _ i), Hp|]. apply rtc_refl.
Qed.

Lemma mutual_exclusion_witness :
  holds (at_place (take 1 new) 1) = true ∧ SpinLock.mutex_locked (inner (take 1 new)) = true.
Proof.
  split; [reflexivity|].
  apply (mutual_exclusion (take 1 new) 1 1); [by apply take_steps|reflexivity|reflexivity].
Defined.

(** ** A lost wake-up *)
Definition nobody (x : t) (i : Z) : Prop := ∀ j, j ≠ i → at_place x j = Outside.

Lemma stuck x y : nobody x 2 → at_place x 2 = MSchedule → task_states x 2 = Sleeping → step x y →
  ∃ j, j ≠ 2 ∧ at_place y j = MPrepare.
Proof.
  intros Hn H2 Hs Hst.
  assert (Hi : ∀ i, at_place x i = Outside ∧ i ≠ 2 ∨ at_place x i = MSchedule ∧ i = 2).
  { intros i. destruct (decide (i = 2)) as [->|]; [by right|left; split; [by apply Hn|done]]. }
  destruct Hst as [x i E|x i E|x i E|x i g l E|x i E|x i E|x i E Er|x i E|x i w ws E|x i E|x i E];
    destruct (Hi i) as [[E' Hne]|[E' ->]]; try congruence.
  exists i. split; [done|]. cbn. unfold put. by rewrite decide_True.
Qed.

(** [MutexGuard::drop] wakes the waiting tasks before the lock is released, and a task
    that queues itself in between is never awakened: it can be left asleep in [lock],
    with the mutex free and nobody else using it. *)
Theorem mutex_lost_wakeup :
  ∃ x, rtc step new x ∧ SpinLock.mutex_locked (inner x) = false ∧
    at_place x 2 = MSchedule ∧ task_states x 2 = Sleeping ∧ nobody x 2 ∧ ∀ y, step x y → ∃ j, j ≠ 2 ∧ at_place y j = MPrepare.
Proof.
  assert (Hp : ∀ {A} (f : Z → A) i a, put f i a i = a) by (intros; unfold put; by rewrite decide_True).
  eexists. split.
  { etrans; [by apply (take_steps 1 new)|].
    eapply rtc_l; [apply (m_drop _ 1); reflexivity|]. eapply rtc_l; [apply (m_wake _ 1 1 []); reflexivity|].
    eapply rtc_l; [apply (m_woken _ 1); reflexivity|].
    eapply rtc_l; [apply (m_call _ 2); reflexivity|]. eapply rtc_l; [apply (m_prepare _ 2), Hp|].
    eapply rtc_l; [apply (m_push _ 2); [apply Hp|reflexivity]|].
    eapply rtc_l; [apply (m_try_fails _ 2); [apply Hp|reflexivity]|].
    eapply rtc_l; [apply (m_release _ 1); reflexivity|]. apply rtc_refl. }
  assert (Hn : ∀ x, nobody x 2 → at_place x 2 = MSchedule → task_states x 2 = Sleeping →
    SpinLock.mutex_locked (inner x) = false →
    SpinLock.mutex_locked (inner x) = false ∧ at_place x 2 = MSchedule ∧ task_states x 2 = Sleeping ∧ nobody x 2 ∧
    ∀ y, step x y → ∃ j, j ≠ 2 ∧ at_place y j = MPrepare).
  { intros. split_and!; try done. intros y. by apply stuck. }
  apply Hn; [|reflexivity..]. intros j Hj. cbn. unfold put. by repeat case_decide.
Qed.
End Mutex.

(** Taking a spin lock with [lock_disable_interrupts] and dropping the guard leaves the
    CPU as it was: the interrupt flag and the preemption count come back to what they
    were before, whatever they were, and in between preemption and interrupts are off. *)
Theorem spin_lock_restores l c g l' c' :
  - 2 ^ 63 ≤ PREEMPT_COUNT c < 2 ^ 63 - 1 →
  SpinLock.lock_disable_interrupts l c = Ret (g, l', c') →
  SpinLock.mutex_locked l = false ∧ SpinLock.mutex_locked l' = true ∧
  interrupts c' = false ∧ PREEMPT_COUNT c' = PREEMPT_COUNT c + 1 ∧
  SpinLock.drop g l' c' = (SpinLock.mk false, c).
Proof.
  intros Hp. unfold SpinLock.lock_disable_interrupts, SpinLock.acquire.
  destruct (SpinLock.mutex_locked l); [done|]. cbn [mbind outcome_bind]. intros [= <- <- <-].
  assert (E1 : wrap_i64 (PREEMPT_COUNT c + 1) = PREEMPT_COUNT c + 1) by (unfold wrap_i64; rewrite Z.mod_small; lia).
  assert (E2 : wrap_i64 (PREEMPT_COUNT c + 1 - 1) = PREEMPT_COUNT c) by (unfold wrap_i64; rewrite Z.mod_small; lia).
  destruct c as [a b n q i k r]. cbn in E1, E2.
  destruct i; cbn; unfold SpinLock.drop, dec_preempt, set_preempt_count; cbn; rewrite !E1, E2; by split_and!.
Qed.

Lemma spin_lock_restores_witness :
  ∃ g l c, SpinLock.lock_disable_interrupts (SpinLock.mk false) (mkCpu 1 1 0 0 true 0 0) = Ret (g, l, c) ∧
    SpinLock.drop g l c = (SpinLock.mk false, mkCpu 1 1 0 0 true 0 0).
Proof.
  do 3 eexists. split; [reflexivity|].
  apply (spin_lock_restores (SpinLock.mk false) (mkCpu 1 1 0 0 true 0 0)); [cbn; lia|reflexivity].
Defined.
