(* ===== verification/VirtioBlock.v ===== *)
(** * The virtio block device ([kernel/src/virtio/block.rs], [kernel/src/block.rs])

    Requests are written to a physical buffer and put into the device's virtqueue;
    the interrupt handler takes completed requests out of the queue and answers
    through a channel.  Memory is seen byte by byte here, and the cells that senders
    and receivers share are a map.  The device itself is hardware: [VirtioBlk] is what
    it does with a chain of descriptors, [VirtioBlkLaws] what the VIRTIO specification
    (section 5.2.6) says about it. *)
From S2P Require Import Prelude AllocSpec External Addr PhysMem Transmute Ext2Dir VirtQueue Cells.
#[local] Open Scope Z_scope.

(** ** Bytes of memory *)
Definition mem_read (m : store) (a n : Z) : list Z := (λ i, m (a + i)) <$> range 0 n.
Definition mem_write (m : store) (a : Z) (bs : list Z) : store :=
  λ x, if (a <=? x) && (x <? a + zlen bs) then default 0 (bs !! Z.to_nat (x - a)) else m x.

(** [strings::c_str_from_pointer]; [n] is what is left of [max_size]. *)
Fixpoint c_str_len (m : store) (ptr : Z) (n : nat) (len : Z) : Z :=
  match n with
  | O => len
  | S n => if m (ptr + len) =? 0 then len else c_str_len m ptr n (len + 1)
  end.

Definition c_str_from_pointer (m : store) (ptr max_size : Z) : list Z :=
  let len := c_str_len m ptr (Z.to_nat max_size) 0 in
  default (str "<invalid utf8>") (Utf8.from_utf8 (mem_read m ptr len)).

Definition VIRTIO_BLOCK_SECTOR_SIZE_BYTES : Z := 512.

(** ** Requests *)
Module BlockRequestType.
Inductive t : Type := In | Out | Flush | GetID | GetLifetime | Discard | WriteZeroes | SecureErase.

#[global] Instance eq_dec : EqDecision t.
Proof. solve_decision. Defined.

Definition as_u32 (self : t) : Z :=
  match self with
  | In => 0 | Out => 1 | Flush => 4 | GetID => 8 | GetLifetime => 10 | Discard => 11
  | WriteZeroes => 13 | SecureErase => 14
  end.

Definition from_u32 (value : Z) : option t :=
  if value =? as_u32 In then Some In
  else if value =? as_u32 Out then Some Out
  else if value =? as_u32 Flush then Some Flush
  else if value =? as_u32 GetID then Some GetID
  else if value =? as_u32 GetLifetime then Some GetLifetime
  else if value =? as_u32 Discard then Some Discard
  else if value =? as_u32 WriteZeroes then Some WriteZeroes
  else if value =? as_u32 SecureErase then Some SecureErase
  else None.
End BlockRequestType.

Module BlockRequestStatus.
Inductive t : Type := Ok | IoErr | Unsupported | Unset.

#[global] Instance eq_dec : EqDecision t.
Proof. solve_decision. Defined.

Definition as_u8 (self : t) : Z := match self with Ok => 0 | IoErr => 1 | Unsupported => 2 | Unset => 7 end.

Definition from_u8 (value : Z) : option t :=
  if value =? 0 then Some Ok
  else if value =? 1 then Some IoErr
  else if value =? 2 then Some Unsupported
  else if value =? 7 then Some Unset
  else None.
End BlockRequestStatus.

(** A [u8] as a type with a layout. *)
#[global] Instance byte_from_bytes : FromBytes Z.
Proof. refine {| layout_of := u8; align_of := 1 |}; [apply uint_ok|lia]. Defined.

Module RawBlockRequestHeader.
Record t : Type := mk { request_type : Z; reserved : Z; sector : Z }.

Definition fields := (u32 ⊕ u32 ⊕ u64)%layout.
Definition of_fields : _ → t := λ '(a0, (a1, a2)), mk a0 a1 a2.
Definition to_fields (v : t) := (request_type v, (reserved v, sector v)).

(** [repr(C)]: no padding, aligned like its [u64] *)
#[global] Instance block_header_from_bytes : FromBytes t.
Proof. refine {| layout_of := iso of_fields to_fields fields; align_of := 8 |}; [solve_layout|lia]. Defined.
End RawBlockRequestHeader.

Module RawBlockRequest.
Record t : Type := mk {
  request_type : BlockRequestType.t;
  sector : Z;
  data_len : Z;
  status : BlockRequestStatus.t;
}.

Definition new (request_type : BlockRequestType.t) (sector data_len : Z) : t :=
  mk request_type sector data_len BlockRequestStatus.Unset.

Section chain.
Context {x86 : X86_64} `{!Zerocopy} {A : Type} {CA : ContiguousAllocator A}.

(** [header_offset], [status_offset] and [total_size] *)
Definition offsets (self : t) : outcome (Z * Z * Z) :=
  r ← urem (data_len self) (align_of RawBlockRequestHeader.t);
  header_offset ← uadd 32 (data_len self) r;
  status_raw_offset ← uadd 32 header_offset (size_of RawBlockRequestHeader.t);
  r ← urem status_raw_offset (align_of Z);
  status_offset ← uadd 32 status_raw_offset r;
  total_size ← uadd 32 status_offset (size_of Z);
  mret (header_offset, status_offset, total_size).

(** [for (i, byte) in request_data.iter().enumerate() { buffer_bytes[i] = *byte; }] *)
Fixpoint copy_bytes (i : Z) (data bytes : list Z) : outcome (list Z) :=
  match data with
  | [] => mret bytes
  | byte :: data => bytes ← index_set bytes i byte; copy_bytes (i + 1) data bytes
  end.

Definition copy_request_data (self : t) (request_data : option (list Z)) (bytes : slice) : outcome slice :=
  match request_data with
  | None => mret bytes
  | Some request_data =>
      _ ← assert_ (zlen request_data <=? data_len self);
      bs ← copy_bytes 0 request_data (slice_bytes bytes);
      mret (Slice (slice_ptr bytes) bs)
  end.

(** The three descriptors and the buffer behind them. *)
Definition to_descriptor_chain (self : t) (request_data : option (list Z)) (st : store * option A)
  : outcome (list ChainedVirtQueueDescriptorElem * PageRange * (store * option A)) :=
  '(header_offset, status_offset, total_size) ← offsets self;
  '(r, st) ← PhysicalBuffer.allocate_zeroed total_size st;
  buffer ← match r with Ok b => mret b | Err _ => Panic PanicExpect end;
  let '(m, lock) := st in
  let buffer_address := start_addr (start buffer) in
  len ← PhysicalBuffer.slice_len buffer;
  bytes ← copy_request_data self request_data (Slice buffer_address (mem_read m buffer_address len));
  bytes ← expect (Transmute.try_write_bytes_offset bytes header_offset
    (RawBlockRequestHeader.mk (BlockRequestType.as_u32 (request_type self)) 0 (sector self)));
  header_addr ← KernPhysAddr.add buffer_address header_offset;
  header_phys ← KernPhysAddr.to_phys_addr header_addr;
  let header_desc := {| addr := header_phys; elem_len := size_of RawBlockRequestHeader.t;
                        flags := with_device_write false flags_new |} in
  let writeable := negb (bool_decide (request_type self = BlockRequestType.Out)) in
  buffer_phys ← KernPhysAddr.to_phys_addr buffer_address;
  let buffer_desc := {| addr := buffer_phys; elem_len := data_len self;
                        flags := with_device_write writeable flags_new |} in
  bytes ← expect (Transmute.try_write_bytes_offset bytes status_offset (BlockRequestStatus.as_u8 (status self)));
  status_addr ← KernPhysAddr.add buffer_address status_offset;
  status_phys ← KernPhysAddr.to_phys_addr status_addr;
  let status_desc := {| addr := status_phys; elem_len := size_of Z;
                        flags := with_device_write true flags_new |} in
  mret ([header_desc; buffer_desc; status_desc], buffer, (mem_write m buffer_address (slice_bytes bytes), lock)).

(** The chain iterator is a table and the current index; a [read_volatile] through a
    misaligned pointer is undefined. *)
Definition from_descriptor_chain (m : store) (table : VirtQueueDescriptorTable.t) (chain : option Z) : outcome t :=
  '(header_desc, chain) ← ChainIterator.next table chain;
  header_desc ← expect header_desc;
  '(buffer_desc, chain) ← ChainIterator.next table chain;
  buffer_desc ← expect buffer_desc;
  '(status_desc, chain) ← ChainIterator.next table chain;
  status_desc ← expect status_desc;
  '(fourth, chain) ← ChainIterator.next table chain;
  _ ← assert_ (match fourth with None => true | Some _ => false end);
  _ ← assert_ (elem_len header_desc =? size_of RawBlockRequestHeader.t);
  header_addr ← KernPhysAddr.from_phys_addr (addr header_desc);
  header ← (if header_addr mod align_of RawBlockRequestHeader.t =? 0
            then mret (lof (layout_of RawBlockRequestHeader.t)
                         (mem_read m header_addr (size_of RawBlockRequestHeader.t)))
            else Panic Undefined);
  request_type ← expect (BlockRequestType.from_u32 (RawBlockRequestHeader.request_type header));
  _ ← assert_ (elem_len status_desc =? 1);
  status_addr ← KernPhysAddr.from_phys_addr (addr status_desc);
  status ← expect (BlockRequestStatus.from_u8 (m status_addr));
  mret (mk request_type (RawBlockRequestHeader.sector header) (elem_len buffer_desc) status).
End chain.
End RawBlockRequest.

Module BlockRequest.
Inductive t : Type :=
| Read (sector num_sectors : Z)
| Write (sector data_len : Z)
| GetID.

Definition GET_ID_DATA_LEN : Z := 20.

Definition to_raw (self : t) : outcome RawBlockRequest.t :=
  match self with
  | Read sector num_sectors =>
      data_len ← umul 32 num_sectors VIRTIO_BLOCK_SECTOR_SIZE_BYTES;
      mret (RawBlockRequest.new BlockRequestType.In sector data_len)
  | Write sector data_len => mret (RawBlockRequest.new BlockRequestType.Out sector data_len)
  | GetID => mret (RawBlockRequest.new BlockRequestType.GetID 0 GET_ID_DATA_LEN)
  end.

Definition from_raw (raw : RawBlockRequest.t) : outcome t :=
  match RawBlockRequest.request_type raw with
  | BlockRequestType.In =>
      r ← urem (RawBlockRequest.data_len raw) VIRTIO_BLOCK_SECTOR_SIZE_BYTES;
      _ ← assert_ (r =? 0);
      num_sectors ← udiv (RawBlockRequest.data_len raw) VIRTIO_BLOCK_SECTOR_SIZE_BYTES;
      mret (Read (RawBlockRequest.sector raw) num_sectors)
  | BlockRequestType.Out =>
      r ← urem (RawBlockRequest.data_len raw) VIRTIO_BLOCK_SECTOR_SIZE_BYTES;
      _ ← assert_ (r =? 0);
      mret (Write (RawBlockRequest.sector raw) (RawBlockRequest.data_len raw))
  | BlockRequestType.GetID => mret GetID
  | _ => Panic PanicExplicit
  end.
End BlockRequest.

(** ** The driver *)

(** A sender is the cell it shares with the receiver and the task to wake. *)
Record OnceSender : Type := mkSender { sender_cell : Z; receiver_task_id : Z }.
Record OnceReceiver : Type := mkReceiver { receiver_cell : Z }.

Record BlockDeviceDescData : Type := mkDescData { buffer : PageRange; sender : OnceSender }.

Record VirtIOBlockReadResponse : Type := mkReadResponse { response_buffer : PageRange; response_data_len : Z }.

Inductive VirtIOBlockResponse : Type :=
| ReadResponse (response : VirtIOBlockReadResponse)
| WriteResponse
| GetIDResponse (id : list Z).

Record VirtIOBlockDevice : Type := mkBlockDevice { virtqueue : VirtQueueData.t BlockDeviceDescData }.

(** What the operations of the driver touch: the devices, memory, the physical allocator,
    the cells of the channels, the tasks woken and the notifications sent so far. *)
Record world (A : Type) : Type := mkWorld {
  VIRTIO_BLOCK : list VirtIOBlockDevice;
  bytes : store;
  frames : option A;
  cells : gmap Z (OnceCell.t VirtIOBlockResponse);
  next_cell : Z;
  running_task : Z;
  woken : list Z;
  notified : list (Z * Z);
}.
Arguments mkWorld {A} _ _ _ _ _ _ _ _.
Arguments VIRTIO_BLOCK {A} _.
Arguments bytes {A} _.
Arguments frames {A} _.
Arguments cells {A} _.
Arguments next_cell {A} _.
Arguments running_task {A} _.
Arguments woken {A} _.
Arguments notified {A} _.

Module VirtioBlock.
Section driver.
Context {x86 : X86_64} `{!Zerocopy} {A : Type} {CA : ContiguousAllocator A}.
Implicit Types (w : world A).

Definition with_devices w ds : world A :=
  mkWorld ds (bytes w) (frames w) (cells w) (next_cell w) (running_task w) (woken w) (notified w).
Definition with_memory w (st : store * option A) : world A :=
  mkWorld (VIRTIO_BLOCK w) st.1 st.2 (cells w) (next_cell w) (running_task w) (woken w) (notified w).
Definition with_cells w cs : world A :=
  mkWorld (VIRTIO_BLOCK w) (bytes w) (frames w) cs (next_cell w) (running_task w) (woken w) (notified w).

(** [once_channel] *)
Definition once_channel w : OnceSender * OnceReceiver * world A :=
  let c := next_cell w in
  (mkSender c (running_task w), mkReceiver c,
   mkWorld (VIRTIO_BLOCK w) (bytes w) (frames w) (<[c := OnceCell.new]> (cells w)) (c + 1) (running_task w) (woken w)
     (notified w)).

Definition get_cell w (c : Z) : outcome (OnceCell.t VirtIOBlockResponse) :=
  match cells w !! c with Some x => Ret x | None => Panic Undefined end.

(** [OnceSender::send] *)
Definition send (s : OnceSender) (message : VirtIOBlockResponse) w : outcome (world A) :=
  cell ← get_cell w (sender_cell s);
  cell ← OnceCell.set cell message;
  mret (mkWorld (VIRTIO_BLOCK w) (bytes w) (frames w) (<[sender_cell s := cell]> (cells w)) (next_cell w) (running_task w)
          (woken w ++ [receiver_task_id s]) (notified w)).

(** [VirtIOBlockDevice::add_request] on the device [self] of the list *)
Definition add_request (device_index : Z) (request : BlockRequest.t) (request_data : option (list Z)) w
  : outcome (OnceReceiver * world A) :=
  self ← expect (VIRTIO_BLOCK w !! Z.to_nat device_index);
  raw_request ← BlockRequest.to_raw request;
  '(desc_chain, buffer, st) ← RawBlockRequest.to_descriptor_chain raw_request request_data (bytes w, frames w);
  let w := with_memory w st in
  let '(sender, receiver, w) := once_channel w in
  vq ← VirtQueueData.add_buffer (virtqueue self) desc_chain (mkDescData buffer sender);
  let w := with_devices w (<[Z.to_nat device_index := mkBlockDevice vq]> (VIRTIO_BLOCK w)) in
  let q := VirtQueueData.queue vq in
  mret (receiver, mkWorld (VIRTIO_BLOCK w) (bytes w) (frames w) (cells w) (next_cell w) (running_task w) (woken w)
                    (notified w ++ [(VirtQueue.notify_offset q, VirtQueue.queue_index q)])).

Definition virtio_block_get_id (device_index : Z) w : outcome (OnceReceiver * world A) :=
  add_request device_index BlockRequest.GetID None w.

Definition virtio_block_read (device_index sector num_sectors : Z) w : outcome (OnceReceiver * world A) :=
  add_request device_index (BlockRequest.Read sector num_sectors) None w.

Definition virtio_block_write (device_index sector : Z) (data : list Z) w : outcome (OnceReceiver * world A) :=
  let data_len := wrap 32 (zlen data) in
  r ← urem data_len VIRTIO_BLOCK_SECTOR_SIZE_BYTES;
  data_len ← (if r =? 0 then mret data_len else uadd 32 data_len (VIRTIO_BLOCK_SECTOR_SIZE_BYTES - r));
  add_request device_index (BlockRequest.Write sector data_len) (Some data) w.

Definition drop_buffer (buffer : PageRange) w : outcome (world A) :=
  st ← PhysicalBuffer.drop buffer (bytes w, frames w);
  mret (with_memory w st).

(** The closure of [virtio_block_interrupt]. *)
Definition on_completion (table : VirtQueueDescriptorTable.t) (used_entry : VirtQueueUsedElem)
  (descriptor_chain : option Z) (data : option BlockDeviceDescData) w : outcome (world A) :=
  match data with
  | None => mret w
  | Some data =>
      let buffer := buffer data in
      raw_request ← RawBlockRequest.from_descriptor_chain (bytes w) table descriptor_chain;
      _ ← assert_ (bool_decide (RawBlockRequest.status raw_request = BlockRequestStatus.Ok));
      request ← BlockRequest.from_raw raw_request;
      match request with
      | BlockRequest.Read _ _ =>
          send (sender data) (ReadResponse (mkReadResponse buffer (RawBlockRequest.data_len raw_request))) w
      | BlockRequest.Write _ _ =>
          w ← send (sender data) WriteResponse w;
          drop_buffer buffer w
      | BlockRequest.GetID =>
          let s := c_str_from_pointer (bytes w) (start_addr (start buffer)) (RawBlockRequest.data_len raw_request) in
          w ← send (sender data) (GetIDResponse s) w;
          drop_buffer buffer w
      end
  end.

Definition virtio_block_interrupt (handler_id : Z) w : outcome (world A) :=
  device ← expect (VIRTIO_BLOCK w !! Z.to_nat handler_id);
  let table := VirtQueue.descriptors (VirtQueueData.queue (virtqueue device)) in
  '(vq, w) ← VirtQueueData.process_new_entries (virtqueue device) (on_completion table) w;
  mret (with_devices w (<[Z.to_nat handler_id := mkBlockDevice vq]> (VIRTIO_BLOCK w))).

(** [VirtIOBlockReadResponse::data] *)
Definition response_data (r : VirtIOBlockReadResponse) w : outcome (list Z) :=
  len ← PhysicalBuffer.slice_len (response_buffer r);
  if response_data_len r <=? len
  then mret (mem_read (bytes w) (start_addr (start (response_buffer r))) (response_data_len r))
  else Panic PanicIndex.
End driver.
End VirtioBlock.

(** ** The device *)
Definition dma (a : Z) : Z := a + KERNEL_PHYSICAL_MAPPING_START.

(** The new state of the device and of memory, and the number of bytes written. *)
Class VirtioBlk (K : Type) : Type := {
  blk_serve : K → store → list ChainedVirtQueueDescriptorElem → K * store * Z;
}.

(** A chain is the header, the data and the status byte. *)
Definition request_chain (m : store) (chain : list ChainedVirtQueueDescriptorElem) (ty : BlockRequestType.t)
  (sector : Z) (writeable : bool) (data : Z) (len : Z) (status : Z) : Prop :=
  ∃ h b s, chain = [h; b; s] ∧ elem_len h = 16 ∧ elem_len s = 1 ∧
    device_write (flags h) = false ∧ device_write (flags b) = writeable ∧ device_write (flags s) = true ∧
    mem_read m (dma (addr h)) 16 =
      lto (layout_of RawBlockRequestHeader.t) (RawBlockRequestHeader.mk (BlockRequestType.as_u32 ty) 0 sector) ∧
    data = dma (addr b) ∧ len = elem_len b ∧ status = dma (addr s).

Class VirtioBlkLaws (K : Type) `{!VirtioBlk K} : Type := {
  (** the contents and the ID string of the device *)
  blk_image : K → list Z;
  blk_id : K → list Z;
  blk_image_bytes k : bytes_ok (blk_image k);
  blk_id_bytes k : bytes_ok (blk_id k) ∧ zlen (blk_id k) = 20;
  blk_serve_in k m chain sector data len status :
    request_chain m chain BlockRequestType.In sector true data len status → len mod 512 = 0 →
    0 ≤ sector < 2 ^ 64 → sector * 512 + len ≤ zlen (blk_image k) →
    ∃ k' m' n, blk_serve k m chain = (k', m', n) ∧ blk_image k' = blk_image k ∧ blk_id k' = blk_id k ∧
      ∀ x, m' x = mem_write (mem_write m data (read_at (sector * 512) len (blk_image k))) status [0] x;
  blk_serve_out k m chain sector data len status :
    request_chain m chain BlockRequestType.Out sector false data len status → len mod 512 = 0 →
    0 ≤ sector < 2 ^ 64 → sector * 512 + len ≤ zlen (blk_image k) → bytes_ok (mem_read m data len) →
    ∃ k' m' n, blk_serve k m chain = (k', m', n) ∧
      blk_image k' = write_at (sector * 512) (mem_read m data len) (blk_image k) ∧ blk_id k' = blk_id k ∧
      ∀ x, m' x = mem_write m status [0] x;
  blk_serve_get_id k m chain data status :
    request_chain m chain BlockRequestType.GetID 0 true data 20 status →
    ∃ k' m' n, blk_serve k m chain = (k', m', n) ∧ blk_image k' = blk_image k ∧ blk_id k' = blk_id k ∧
      ∀ x, m' x = mem_write (mem_write m data (blk_id k)) status [0] x;
}.

(** ** [BlockDeviceDriver for VirtioBlockDevice] *)
Module VirtioDriver.
Section system.
Context {x86 : X86_64} `{!Zerocopy} {A : Type} {CA : ContiguousAllocator A} {K : Type} `{!VirtioBlk K}.

(** The kernel with the device of index [device]; [seen] counts the entries of the
    available ring the device has taken. *)
Record system : Type := mkSystem { kernel : world A; disk : K; seen : Z }.

(** While the task sleeps, the device serves the next request and interrupts. *)
Definition serve_next (device : Z) (sys : system) : outcome system :=
  let w := kernel sys in
  d ← expect (VIRTIO_BLOCK w !! Z.to_nat device);
  let vq := virtqueue d in
  let q := VirtQueueData.queue vq in
  let ring := VirtQueueAvailRing.ring (VirtQueue.avail_ring q) in
  head ← VolatileArrayRW.read ring (seen sys mod VolatileArrayRW.len ring);
  chain ← ChainIterator.collect (S (length ring)) (VirtQueue.descriptors q) (Some head);
  let '(k, m, n) := blk_serve (disk sys) (bytes w) chain in
  vq ← Device.consume vq (seen sys) n;
  let w := VirtioBlock.with_memory w (m, frames w) in
  let w := VirtioBlock.with_devices w (<[Z.to_nat device := mkBlockDevice vq]> (VIRTIO_BLOCK w)) in
  w ← VirtioBlock.virtio_block_interrupt device w;
  mret (mkSystem w k (seen sys + 1)).

(** [OnceReceiver::wait_sleep]: each turn of the loop that finds no message sleeps until
    the next interrupt. *)
Fixpoint wait_sleep (fuel : nat) (device : Z) (receiver : OnceReceiver) (sys : system)
  : outcome (VirtIOBlockResponse * system) :=
  match fuel with
  | O => Diverge
  | S fuel =>
      cell ← VirtioBlock.get_cell (kernel sys) (receiver_cell receiver);
      '(message, cell) ← OnceCell.get_once cell;
      let w := kernel sys in
      let sys := mkSystem (VirtioBlock.with_cells w (<[receiver_cell receiver := cell]> (cells w))) (disk sys) (seen sys) in
      match message with
      | Some message => mret (message, sys)
      | None => sys ← serve_next device sys; wait_sleep fuel device receiver sys
      end
  end.

Definition device_block_size : Z := wrap 16 VIRTIO_BLOCK_SECTOR_SIZE_BYTES.

Definition read_device_blocks (fuel : nat) (device_id start_block num_blocks : Z) (sys : system)
  : outcome (list Z * system) :=
  '(rx, w) ← VirtioBlock.virtio_block_read device_id start_block (wrap 32 num_blocks) (kernel sys);
  '(response, sys) ← wait_sleep fuel device_id rx (mkSystem w (disk sys) (seen sys));
  match response with
  | ReadResponse r =>
      data ← VirtioBlock.response_data r (kernel sys);
      w ← VirtioBlock.drop_buffer (response_buffer r) (kernel sys);
      mret (data, mkSystem w (disk sys) (seen sys))
  | _ => Panic PanicExplicit
  end.

Definition write_device_blocks (fuel : nat) (device_id start_block : Z) (data : list Z) (sys : system)
  : outcome system :=
  '(rx, w) ← VirtioBlock.virtio_block_write device_id start_block data (kernel sys);
  '(response, sys) ← wait_sleep fuel device_id rx (mkSystem w (disk sys) (seen sys));
  match response with
  | WriteResponse => mret sys
  | _ => Panic PanicExplicit
  end.

(** [virtio_block_get_id(..).wait_sleep()], as the shell prints it *)
Definition get_id (fuel : nat) (device_id : Z) (sys : system) : outcome (VirtIOBlockResponse * system) :=
  '(rx, w) ← VirtioBlock.virtio_block_get_id device_id (kernel sys);
  wait_sleep fuel device_id rx (mkSystem w (disk sys) (seen sys)).
End system.
Arguments system A K : clear implicits.
End VirtioDriver.
