(* ===== verification/VirtioBlockThms.v ===== *)
(** * The virtio block driver is a disk

    Requests are laid out in their buffer and read back from their descriptor chain;
    with a device that behaves as specified, a request, its service and the interrupt
    together read and write the contents of the device, and give back the buffer. *)
From S2P Require Import Prelude AllocSpec BitmapAlloc External Addr PhysMem Transmute Ext2Dir VirtQueue VirtQueueThms Cells VirtioBlock.
#[local] Open Scope Z_scope.

(** ** Bytes of memory *)
Lemma lookup_mem_read m a n i : (i < Z.to_nat n)%nat → mem_read m a n !! i = Some (m (a + Z.of_nat i)).
Proof.
  intros Hi. unfold mem_read. rewrite list_lookup_fmap. destruct (range 0 n !! i) as [x|] eqn:E.
  - apply lookup_range in E as [-> _]. simpl. do 3 f_equal.
  - apply lookup_ge_None in E. rewrite length_range in E. lia.
Qed.

Lemma length_mem_read m a n : length (mem_read m a n) = Z.to_nat n.
Proof. unfold mem_read. rewrite length_fmap, length_range. lia. Qed.

Lemma zlen_mem_read m a n : 0 ≤ n → zlen (mem_read m a n) = n.
Proof. intros. unfold zlen. rewrite length_mem_read. lia. Qed.

Lemma mem_read_ext m m' a n : (∀ x, a ≤ x < a + n → m' x = m x) → mem_read m' a n = mem_read m a n.
Proof.
  intros Hx. apply list_eq. intros i. destruct (decide (i < Z.to_nat n)%nat).
  - rewrite !lookup_mem_read by done. f_equal. apply Hx. lia.
  - rewrite !lookup_ge_None_2; [done|rewrite length_mem_read; lia..].
Qed.

Lemma mem_write_out m a bs x : x < a ∨ a + zlen bs ≤ x → mem_write m a bs x = m x.
Proof. intros. unfold mem_write. by replace ((a <=? x) && (x <? a + zlen bs)) with false by lia. Qed.

Lemma mem_write_in m a bs i b : bs !! i = Some b → mem_write m a bs (a + Z.of_nat i) = b.
Proof.
  intros Hb. pose proof (lookup_lt_Some _ _ _ Hb). unfold mem_write, zlen.
  replace ((a <=? a + Z.of_nat i) && (a + Z.of_nat i <? a + Z.of_nat (length bs))) with true by lia.
  by replace (Z.to_nat (a + Z.of_nat i - a)) with i by lia; rewrite Hb.
Qed.

Lemma mem_read_write m a bs off n :
  0 ≤ off → 0 ≤ n → off + n ≤ zlen bs → mem_read (mem_write m a bs) (a + off) n = read_at off n bs.
Proof.
  intros Ho Hn Hl. apply list_eq. intros i. unfold zlen in Hl. destruct (decide (i < Z.to_nat n)%nat) as [Hi|Hi].
  - rewrite lookup_mem_read, read_at_lookup by done.
    destruct (lookup_lt_is_Some_2 bs (Z.to_nat off + i)) as [b Hb]; [lia|]. rewrite Hb. f_equal.
    replace (a + off + Z.of_nat i) with (a + Z.of_nat (Z.to_nat off + i)) by lia. by apply mem_write_in.
  - rewrite !lookup_ge_None_2; [done| |rewrite length_mem_read; lia].
    unfold read_at. rewrite length_take, length_drop. lia.
Qed.

Lemma mem_read_write_start m a bs n :
  0 ≤ n ≤ zlen bs → mem_read (mem_write m a bs) a n = read_at 0 n bs.
Proof. intros. rewrite <-(mem_read_write m a) by lia. by rewrite Z.add_0_r. Qed.

Lemma mem_read_write_out m a bs a' n :
  a' + n ≤ a ∨ a + zlen bs ≤ a' → mem_read (mem_write m a bs) a' n = mem_read m a' n.
Proof. intros. apply mem_read_ext. intros x ?. apply mem_write_out. lia. Qed.

Lemma mem_write_nil m a x : mem_write m a [] x = m x.
Proof. apply mem_write_out. unfold zlen. simpl. lia. Qed.

Lemma mem_write_ext m m' a bs x : (∀ x, m' x = m x) → mem_write m' a bs x = mem_write m a bs x.
Proof. intros H. unfold mem_write. by rewrite H. Qed.

Lemma mem_read_zeroed m a n : mem_read (store_zero m a n) a n = replicate (Z.to_nat n) 0.
Proof.
  apply list_eq. intros i. destruct (decide (i < Z.to_nat n)%nat).
  - rewrite lookup_mem_read by done. rewrite lookup_replicate_2 by done. f_equal. apply store_zero_in. lia.
  - rewrite !lookup_ge_None_2; [done|rewrite ?length_mem_read, ?length_replicate; lia..].
Qed.

Lemma zlen_zeroes n : zlen (replicate n 0) = Z.of_nat n.
Proof. unfold zlen. by rewrite length_replicate. Qed.

Lemma bytes_ok_replicate n : bytes_ok (replicate n 0).
Proof. apply Forall_replicate. unfold in_width. lia. Qed.

(** ** Laying out a request *)
Section layout.
Context {x86 : X86_64} {x86_laws : X86_64Laws} `{!Zerocopy, !ZerocopyLaws}.
Context {A : Type} {CA : ContiguousAllocator A} {CAL : ContiguousAllocatorLaws A}.
Import RawBlockRequest.

Lemma index_set_write_at (bs : list Z) i b :
  0 ≤ i < zlen bs → index_set bs i b = Ret (write_at i [b] bs).
Proof.
  intros Hi. unfold zlen in Hi. unfold index_set. destruct (lookup_lt_is_Some_2 bs (Z.to_nat i)) as [x E]; [lia|].
  rewrite E. f_equal. rewrite insert_take_drop by lia. unfold write_at. simpl. by rewrite Nat.add_1_r.
Qed.

Lemma write_at_write_at off a b (bs : list Z) :
  0 ≤ off → off + zlen a + zlen b ≤ zlen bs →
  write_at (off + zlen a) b (write_at off a bs) = write_at off (a ++ b) bs.
Proof.
  intros Ho Hl. apply list_eq. intros i. pose proof (zlen_nonneg a). pose proof (zlen_nonneg b).
  rewrite !write_at_lookup by (rewrite ?length_write_at by lia; rewrite ?zlen_app; lia).
  unfold zlen in *. rewrite length_app. repeat case_decide; try lia; try done.
  - rewrite lookup_app_r by lia. f_equal. lia.
  - by rewrite lookup_app_l by lia.
Qed.

Lemma copy_bytes_ok data : ∀ i bs,
  0 ≤ i → i + zlen data ≤ zlen bs → copy_bytes i data bs = Ret (write_at i data bs).
Proof.
  induction data as [|b data IH]; intros i bs Hi Hl.
  - cbn. unfold write_at. simpl. by rewrite Nat.add_0_r, take_drop.
  - rewrite zlen_cons in Hl. pose proof (zlen_nonneg data). cbn [copy_bytes].
    rewrite index_set_write_at by lia. run_monad.
    assert (zlen [b] = 1) as E1 by done.
    rewrite IH by (rewrite ?length_write_at; lia). f_equal.
    rewrite <-E1. rewrite write_at_write_at by lia. done.
Qed.

(** Where the header and the status byte are put. *)
Definition header_at (len : Z) : Z := len + len mod 8.

Lemma header_at_bounds len : 0 ≤ len → len mod 4 = 0 → len ≤ header_at len ≤ len + 4 ∧ header_at len mod 8 = 0.
Proof. intros. unfold header_at. zdm. Qed.

Lemma size_of_header : size_of RawBlockRequestHeader.t = 16.
Proof. reflexivity. Qed.
Lemma size_of_byte : size_of Z = 1.
Proof. reflexivity. Qed.
Lemma align_of_header : align_of RawBlockRequestHeader.t = 8.
Proof. reflexivity. Qed.

Lemma offsets_ok self :
  0 ≤ data_len self → data_len self mod 4 = 0 → data_len self + 21 < 2 ^ 32 →
  offsets self = Ret (header_at (data_len self), header_at (data_len self) + 16, header_at (data_len self) + 17).
Proof.
  intros Hge H4 Hb. pose proof (header_at_bounds _ Hge H4). unfold offsets, urem.
  change (align_of RawBlockRequestHeader.t) with 8. change (align_of Z) with 1.
  rewrite size_of_header, size_of_byte. change (8 =? 0) with false. change (1 =? 0) with false. cbn iota. run_monad.
  rewrite uadd_ok by (unfold header_at in *; lia). run_monad. fold (header_at (data_len self)).
  rewrite uadd_ok by lia. run_monad. rewrite Z.mod_1_r, uadd_ok by lia. run_monad.
  rewrite Z.add_0_r, uadd_ok by lia. run_monad. do 2 f_equal. lia.
Qed.

(** Addresses inside a buffer of [n] frames. *)
Lemma in_buffer a f n off :
  frames_ok a → 0 ≤ f → f + n ≤ ca_capacity a → 0 ≤ off ≤ PAGE_SIZE * n →
  KernPhysAddr.add (frame_addr f) off = Ret (frame_addr f + off) ∧
  KernPhysAddr.to_phys_addr (frame_addr f + off) = Ret (PAGE_SIZE * f + off) ∧
  KernPhysAddr.from_phys_addr (PAGE_SIZE * f + off) = Ret (frame_addr f + off).
Proof.
  intros Hok Hf Hn Hoff. pose proof (fo_capacity a Hok) as Hc.
  assert (Hm : KernPhysAddr.in_mapping (frame_addr f + off) = true).
  { apply in_mapping_spec. unfold frame_addr, PAGE_SIZE in *. lia. }
  pose proof (proj1 (in_mapping_spec _) Hm) as Hb. split_and!.
  - unfold KernPhysAddr.add. rewrite (uadd_ok 64) by
      (unfold frame_addr, KERNEL_PHYSICAL_MAPPING_START, KERNEL_PHYSICAL_MAPPING_END, HIGHER_HALF_START, PAGE_SIZE in *; lia).
    run_monad. by rewrite kern_new_ok.
  - rewrite to_phys_addr_ok by done. f_equal. unfold frame_addr. lia.
  - rewrite from_phys_addr_ok; [f_equal; unfold frame_addr; lia|unfold PAGE_SIZE; lia|].
    unfold frame_addr in Hb. lia.
Qed.

Lemma num_bytes_ok a f n :
  frames_ok a → 0 < f → 0 ≤ n → f + n ≤ ca_capacity a → num_bytes (mkPageRange (frame_page f) n) = Ret (n * 4096).
Proof.
  intros Hok Hf Hn Hc. apply umul_ok. pose proof (fo_capacity a Hok). cbn.
  unfold frame_addr, KERNEL_PHYSICAL_MAPPING_START, KERNEL_PHYSICAL_MAPPING_END, HIGHER_HALF_START, PAGE_SIZE in *. lia.
Qed.

Lemma try_write_ok {T} `{!FromBytes T} s off (v : T) :
  fits T s off → lvalid (layout_of T) v →
  Transmute.try_write_bytes_offset s off v =
    Some (Slice (slice_ptr s) (write_at off (lto (layout_of T) v) (slice_bytes s))).
Proof. apply collection_write_ok. Qed.

Lemma read_padded (d : list Z) len L :
  zlen d ≤ len ≤ Z.of_nat L →
  read_at 0 len (write_at 0 d (replicate L 0)) = d ++ replicate (Z.to_nat (len - zlen d)) 0.
Proof.
  unfold zlen. intros Hl. unfold read_at, write_at. change (Z.to_nat 0) with 0%nat. simpl.
  rewrite drop_0, take_app, drop_replicate, take_replicate, take_ge by lia. do 2 f_equal. lia.
Qed.

Definition chain_of (f len : Z) (writeable : bool) : list ChainedVirtQueueDescriptorElem :=
  [ {| addr := PAGE_SIZE * f + header_at len; elem_len := 16; flags := with_device_write false flags_new |};
    {| addr := PAGE_SIZE * f; elem_len := len; flags := with_device_write writeable flags_new |};
    {| addr := PAGE_SIZE * f + (header_at len + 16); elem_len := 1; flags := with_device_write true flags_new |} ].

Definition pages_for (len : Z) : Z := div_ceil (header_at len + 17) PAGE_SIZE.

(** The allocator can serve a request with [len] bytes of data. *)
Definition room (a : A) (len : Z) : Prop := ∃ s, 0 ≤ s ∧ free_run (ca_used a) s (pages_for len).

(** A request the driver makes. *)
Record raw_ok (self : t) : Prop := {
  raw_len_pos : 0 ≤ data_len self;
  raw_len_mod : data_len self mod 4 = 0;
  raw_len_bound : data_len self + 21 < 2 ^ 32;
  raw_sector : 0 ≤ sector self < 2 ^ 64;
}.

Definition header_of (self : t) : RawBlockRequestHeader.t :=
  RawBlockRequestHeader.mk (BlockRequestType.as_u32 (request_type self)) 0 (sector self).

Lemma header_valid self : raw_ok self → lvalid (layout_of RawBlockRequestHeader.t) (header_of self).
Proof.
  intros [_ _ _ Hs]. cbn. split_and!; [|unfold in_width; lia|unfold in_width; lia].
  unfold in_width. by destruct (request_type self); cbn; lia.
Qed.

Lemma pages_for_spec len : 0 ≤ header_at len → 0 < pages_for len ∧ header_at len + 17 ≤ PAGE_SIZE * pages_for len.
Proof.
  intros. unfold pages_for. pose proof (div_ceil_spec (header_at len + 17) PAGE_SIZE ltac:(reflexivity)).
  unfold PAGE_SIZE in *. lia.
Qed.

Lemma copy_request_data_ok self rd base L :
  zlen (default [] rd) ≤ data_len self ≤ Z.of_nat L →
  copy_request_data self rd (Slice base (replicate L 0)) = Ret (Slice base (write_at 0 (default [] rd) (replicate L 0))).
Proof.
  intros Hl. destruct rd as [d|]; cbn [copy_request_data from_option slice_bytes slice_ptr] in *; unfold Datatypes.id in *.
  - destruct (Z.leb_spec (zlen d) (data_len self)); [|lia]. run_monad.
    rewrite copy_bytes_ok; [by run_monad|done|]. rewrite zlen_zeroes. lia.
  - unfold write_at. simpl. by rewrite drop_0.
Qed.

Lemma fill_ok self rd base L :
  raw_ok self → zlen (default [] rd) ≤ data_len self → base mod 8 = 0 → header_at (data_len self) + 17 ≤ Z.of_nat L →
  ∃ b1 b2 b3, copy_request_data self rd (Slice base (replicate L 0)) = Ret (Slice base b1) ∧
    Transmute.try_write_bytes_offset (Slice base b1) (header_at (data_len self)) (header_of self) = Some (Slice base b2) ∧
    Transmute.try_write_bytes_offset (Slice base b2) (header_at (data_len self) + 16)
      (BlockRequestStatus.as_u8 (status self)) = Some (Slice base b3) ∧
    zlen b3 = Z.of_nat L ∧
    read_at (header_at (data_len self)) 16 b3 = lto (layout_of RawBlockRequestHeader.t) (header_of self) ∧
    read_at 0 (data_len self) b3 =
      default [] rd ++ replicate (Z.to_nat (data_len self - zlen (default [] rd))) 0.
Proof.
  intros Hr Hd Hbase HL. pose proof Hr as [Hp Hm Hb Hs]. destruct (header_at_bounds _ Hp Hm) as [Hh Hh8].
  pose proof (header_valid self Hr) as Hv. pose proof (zlen_to_bytes _ Hv) as Hlv. rewrite size_of_header in Hlv.
  set (ho := header_at (data_len self)) in *. set (d := default [] rd) in *. pose proof (zlen_nonneg d).
  set (b1 := write_at 0 d (replicate L 0)).
  assert (HL1 : zlen b1 = Z.of_nat L).
  { unfold b1. rewrite length_write_at; rewrite ?zlen_zeroes; lia. }
  set (b2 := write_at ho (lto (layout_of RawBlockRequestHeader.t) (header_of self)) b1).
  assert (HL2 : zlen b2 = Z.of_nat L) by (unfold b2; rewrite length_write_at; lia).
  assert (Hv3 : lvalid (layout_of Z) (BlockRequestStatus.as_u8 (status self))).
  { cbn. unfold in_width. by destruct (status self); cbn; lia. }
  pose proof (zlen_to_bytes _ Hv3) as Hl3. rewrite size_of_byte in Hl3.
  set (b3 := write_at (ho + 16) (lto (layout_of Z) (BlockRequestStatus.as_u8 (status self))) b2).
  exists b1, b2, b3. split_and!.
  - apply copy_request_data_ok. fold d. lia.
  - apply try_write_ok; [|done]. unfold fits. rewrite size_of_header, align_of_header. cbn [slice_bytes slice_ptr].
    split_and!; [lia|lia|]. by rewrite Zplus_mod, Hbase, Hh8.
  - apply try_write_ok; [|done]. unfold fits. rewrite size_of_byte. cbn [slice_bytes slice_ptr].
    split_and!; [lia|lia|]. change (align_of Z) with 1. apply Z.mod_1_r.
  - unfold b3. rewrite length_write_at; lia.
  - unfold b3. rewrite read_write_other by lia. rewrite <-Hlv. apply read_write_same; lia.
  - unfold b3. rewrite read_write_other by lia. unfold b2. rewrite read_write_other by lia.
    apply read_padded. lia.
Qed.

(** What is true of the buffer of a request in memory [m]. *)
Record laid_out (self : t) (rd : option (list Z)) (f : Z) (m : store) : Prop := {
  lo_header : mem_read m (frame_addr f + header_at (data_len self)) 16 =
    lto (layout_of RawBlockRequestHeader.t) (header_of self);
  lo_data : mem_read m (frame_addr f) (data_len self) =
    default [] rd ++ replicate (Z.to_nat (data_len self - zlen (default [] rd))) 0;
}.

Definition device_writes (ty : BlockRequestType.t) : bool := negb (bool_decide (ty = BlockRequestType.Out)).

Lemma to_descriptor_chain_ok self rd m a :
  raw_ok self → zlen (default [] rd) ≤ data_len self → frames_ok a → room a (data_len self) →
  ∃ f m' a', to_descriptor_chain self rd (m, Some a) =
      Ret (chain_of f (data_len self) (device_writes (request_type self)),
           mkPageRange (frame_page f) (pages_for (data_len self)), (m', Some a')) ∧
    frames_ok a' ∧ ca_capacity a' = ca_capacity a ∧ 0 < f ∧ f + pages_for (data_len self) ≤ ca_capacity a ∧
    free_run (ca_used a) f (pages_for (data_len self)) ∧
    marks_block (ca_used a) (ca_used a') f (pages_for (data_len self)) ∧ laid_out self rd f m'.
Proof.
  intros Hr Hd Hok (s0 & Hs0 & Hrun). pose proof Hr as [Hp Hm Hb _].
  destruct (header_at_bounds _ Hp Hm) as [Hh Hh8].
  destruct (pages_for_spec (data_len self)) as [Hpos Hfit]; [lia|].
  unfold to_descriptor_chain. rewrite offsets_ok by done. run_monad.
  unfold PhysicalBuffer.allocate_zeroed, udiv_ceil, PhysicalBuffer.allocate_zeroed_pages, with_lock.
  change (PAGE_SIZE =? 0) with false. cbn iota. cbn [expect]. run_monad. fold (pages_for (data_len self)).
  destruct (allocate_pages_ok a _ Hok Hpos) as (r & a' & _ & Hok' & Hcap & Hff & Hpg).
  destruct r as [f|]; [|by destruct (Hff s0 Hs0 Hrun)]. destruct Hpg as (-> & Hf & Hfc & Hmk). run_monad.
  set (n := pages_for (data_len self)) in *.
  pose proof (num_bytes_ok a f n Hok Hf ltac:(lia) Hfc) as Hnb.
  rewrite Hnb. run_monad. unfold PhysicalBuffer.slice_len. rewrite Hnb. run_monad.
  cbn [start_addr start frame_page]. rewrite mem_read_zeroed.
  destruct (fill_ok self rd (frame_addr f) (Z.to_nat (n * 4096))) as (b1 & b2 & b3 & E1 & E2 & E3 & EL & Eh & Ed);
    [done|done|pose proof (frame_addr_aligned f); zdm|unfold PAGE_SIZE in Hfit; lia|].
  rewrite E1. run_monad. unfold header_of in E2. rewrite E2. cbn [expect]. run_monad.
  set (ho := header_at (data_len self)) in *.
  destruct (in_buffer a f n ho) as (-> & Eph & _); [done|lia|lia|unfold PAGE_SIZE in *; lia|]. run_monad. rewrite Eph. run_monad.
  destruct (in_buffer a f n 0) as (_ & Epb & _); [done|lia|lia|unfold PAGE_SIZE in *; lia|].
  rewrite !Z.add_0_r in Epb. rewrite Epb. run_monad. rewrite E3. cbn [expect]. run_monad.
  destruct (in_buffer a f n (ho + 16)) as (-> & Eps & _); [done|lia|lia|unfold PAGE_SIZE in *; lia|]. run_monad.
  rewrite Eps. run_monad. exists f. do 2 eexists. split; [reflexivity|].
  destruct Hff as (_ & Hfr & _). split_and!; try done.
  unfold PAGE_SIZE in Hfit. split; cbn [slice_bytes].
  - fold ho. rewrite mem_read_write by lia. exact Eh.
  - rewrite mem_read_write_start by lia. exact Ed.
Qed.

Lemma chain_next N table s d rest :
  queue_size_ok N → zlen (VirtQueueDescriptorTable.descriptors table) = N → plain d →
  chain_at N (VirtQueueDescriptorTable.descriptors table) s (d :: rest) →
  ChainIterator.next table (Some (s mod N)) =
    Ret (head (chained (d :: rest)), match rest with [] => None | _ => Some ((s + 1) mod N) end).
Proof.
  intros HN Hl [Hn _] [Hd _]. cbn [ChainIterator.next]. unfold VirtQueueDescriptorTable.get_descriptor.
  rewrite (array_read_ok N HN _ _ _ Hl Hd). run_monad. destruct rest; cbn; [|done]. rewrite Hn. by destruct d.
Qed.

Lemma request_type_roundtrip ty : BlockRequestType.from_u32 (BlockRequestType.as_u32 ty) = Some ty.
Proof. by destruct ty. Qed.

Lemma status_roundtrip st : BlockRequestStatus.from_u8 (BlockRequestStatus.as_u8 st) = Some st.
Proof. by destruct st. Qed.

Lemma chain_of_plain f len wr : Forall plain (chain_of f len wr).
Proof. by repeat constructor. Qed.

(** The chain of a request is read back as the request, with the status the device has
    written. *)
Lemma from_descriptor_chain_ok N table s self f n wr m st (a : A) :
  queue_size_ok N → zlen (VirtQueueDescriptorTable.descriptors table) = N →
  chain_at N (VirtQueueDescriptorTable.descriptors table) s (chain_of f (data_len self) wr) →
  raw_ok self → frames_ok a → 0 < f → f + n ≤ ca_capacity a → header_at (data_len self) + 17 ≤ PAGE_SIZE * n →
  mem_read m (frame_addr f + header_at (data_len self)) 16 = lto (layout_of RawBlockRequestHeader.t) (header_of self) →
  m (frame_addr f + (header_at (data_len self) + 16)) = BlockRequestStatus.as_u8 st →
  from_descriptor_chain m table (Some (s mod N)) = Ret (mk (request_type self) (sector self) (data_len self) st).
Proof.
  intros HN Hl Hc Hr Hok Hf Hfc Hfit Eh Es. pose proof Hr as [Hp Hm _ _].
  destruct (header_at_bounds _ Hp Hm) as [Hh Hh8]. unfold from_descriptor_chain.
  pose proof (chain_of_plain f (data_len self) wr) as Hpl. unfold chain_of in Hc, Hpl.
  rewrite (chain_next N table s _ _ HN Hl (Forall_inv Hpl) Hc). run_monad. cbn [chained head expect]. run_monad.
  destruct Hc as [_ Hc]. apply Forall_inv_tail in Hpl.
  rewrite (chain_next N table (s + 1) _ _ HN Hl (Forall_inv Hpl) Hc). run_monad. cbn [chained head expect]. run_monad.
  destruct Hc as [_ Hc]. apply Forall_inv_tail in Hpl.
  rewrite (chain_next N table (s + 1 + 1) _ _ HN Hl (Forall_inv Hpl) Hc). run_monad. cbn [chained head expect]. run_monad.
  cbn [ChainIterator.next]. run_monad. cbn [assert_]. run_monad. cbn [elem_len addr].
  rewrite size_of_header, Z.eqb_refl, align_of_header. cbn [assert_]. run_monad.
  destruct (in_buffer a f n (header_at (data_len self))) as (_ & _ & ->); [done|lia|lia|lia|]. run_monad.
  replace ((frame_addr f + header_at (data_len self)) mod 8) with 0
    by (pose proof (frame_addr_aligned f); rewrite Zplus_mod, Hh8; zdm).
  change (0 =? 0) with true. cbn iota. run_monad. rewrite Eh, (lo_of_to _ layout_of_ok) by by apply header_valid.
  cbn [RawBlockRequestHeader.request_type RawBlockRequestHeader.sector header_of].
  rewrite request_type_roundtrip. cbn [expect]. run_monad. rewrite Z.eqb_refl. cbn [assert_]. run_monad.
  destruct (in_buffer a f n (header_at (data_len self) + 16)) as (_ & _ & ->); [done|lia|lia|lia|]. run_monad.
  rewrite Es, status_roundtrip. cbn [expect]. by run_monad.
Qed.
End layout.

(** ** One request *)
Section transaction.
Context {x86 : X86_64} {x86_laws : X86_64Laws} `{!Zerocopy, !ZerocopyLaws}.
Context {A : Type} {CA : ContiguousAllocator A} {CAL : ContiguousAllocatorLaws A}.
Context {K : Type} `{!VirtioBlk K, !VirtioBlkLaws K}.
Context (N : Z) (HN : queue_size_ok N) (HN3 : 3 ≤ N) (device : Z).
Import RawBlockRequest VirtioBlock VirtioDriver.
Implicit Types (w : world A) (sys : system A K).

(** A request [from_raw] accepts. *)
Record request_ok (raw : t) : Prop := {
  rk_raw : raw_ok raw;
  rk_type : match request_type raw with
            | BlockRequestType.In | BlockRequestType.Out => data_len raw mod 512 = 0
            | BlockRequestType.GetID => True
            | _ => False
            end;
  rk_status : status raw = BlockRequestStatus.Unset;
}.

Definition buffer_of (f len : Z) : PageRange := mkPageRange (frame_page f) (pages_for len).
Definition desc_data (f len c t : Z) : BlockDeviceDescData := mkDescData (buffer_of f len) (mkSender c t).
Definition request_of (raw : RawBlockRequest.t) (f c t : Z) : list ChainedVirtQueueDescriptorElem * BlockDeviceDescData :=
  (chain_of f (data_len raw) (device_writes (request_type raw)), desc_data f (data_len raw) c t).

(** The queue of the device. *)
Definition queue_is w (p s : Z) (u : list Z) L : Prop :=
  ∃ vq, VIRTIO_BLOCK w !! Z.to_nat device = Some (mkBlockDevice vq) ∧ rep N vq p s u L.

(** Between requests. *)
Record idle sys (a : A) (p s : Z) : Prop := {
  id_queue : queue_is (kernel sys) p s [] [];
  id_seen : seen sys = p;
  id_frames : frames (kernel sys) = Some a;
  id_ok : frames_ok a;
}.

(** The frames of a buffer, taken from [a]. *)
Record taken (a a' : A) (f n : Z) : Prop := {
  tk_ok : frames_ok a';
  tk_pos : 0 < f ∧ 0 < n;
  tk_capacity : f + n ≤ ca_capacity a ∧ ca_capacity a' = ca_capacity a;
  tk_free : free_run (ca_used a) f n;
  tk_marks : marks_block (ca_used a) (ca_used a') f n;
}.

(** While the device works on a request. *)
Record requested w (raw : t) (rd : option (list Z)) (a : A) (f p s c t : Z) : Prop := {
  rq_queue : queue_is w p s [] [request_of raw f c t];
  rq_frames : ∃ a', frames w = Some a' ∧ taken a a' f (pages_for (data_len raw));
  rq_memory : laid_out raw rd f (bytes w);
  rq_cell : cells w !! c = Some OnceCell.new;
}.

Lemma add_request_ok sys a p s request raw rd :
  idle sys a p s → BlockRequest.to_raw request = Ret raw → request_ok raw →
  zlen (default [] rd) ≤ data_len raw → room a (data_len raw) →
  ∃ f w, add_request device request rd (kernel sys) = Ret (mkReceiver (next_cell (kernel sys)), w) ∧
    requested w raw rd a f p s (next_cell (kernel sys)) (running_task (kernel sys)).
Proof.
  intros [(vq & Hdev & R) Hseen Hfr Hok] Eraw Hq Hd Hroom. unfold add_request. rewrite Hdev. cbn [expect]. run_monad.
  rewrite Eraw. run_monad. rewrite Hfr.
  destruct (to_descriptor_chain_ok raw rd (bytes (kernel sys)) a (rk_raw _ Hq) Hd Hok Hroom)
    as (f & m' & a' & -> & Hok' & Hcap & Hf & Hfc & Hfree & Hmk & Hlo). run_monad.
  unfold once_channel. cbn [virtqueue].
  destruct (add_buffer_ok N HN vq p s [] [] (chain_of f (data_len raw) (device_writes (request_type raw)))
    (desc_data f (data_len raw) (next_cell (kernel sys)) (running_task (kernel sys)))) as (vq' & E & R');
    [done|done|apply chain_of_plain|unfold total; cbn; unfold zlen; cbn; lia|].
  unfold desc_data, buffer_of in E. cbn [with_memory next_cell running_task]. rewrite E. run_monad.
  exists f. eexists. split; [reflexivity|]. split; cbn.
  - exists vq'. split; [|exact R']. apply list_lookup_insert_eq. by eapply lookup_lt_Some.
  - exists a'. split; [done|]. destruct (pages_for_spec (data_len raw)) as [? _].
    { destruct (rk_raw _ Hq) as [Hp Hm _ _]. destruct (header_at_bounds _ Hp Hm). lia. }
    by split.
  - done.
  - apply lookup_insert_eq.
Qed.

(** What the receiver is answered. *)
Definition response_of (raw : t) (f : Z) (m : store) : VirtIOBlockResponse :=
  match request_type raw with
  | BlockRequestType.In => ReadResponse (mkReadResponse (buffer_of f (data_len raw)) (data_len raw))
  | BlockRequestType.Out => WriteResponse
  | _ => GetIDResponse (c_str_from_pointer m (frame_addr f) (data_len raw))
  end.

(** The world after an answer. *)
Definition answered w (fr : option A) (message : VirtIOBlockResponse) (c t : Z) : world A :=
  mkWorld (VIRTIO_BLOCK w) (bytes w) fr (<[c := OnceCell.mk (Some message) true 0]> (cells w)) (next_cell w)
    (running_task w) (woken w ++ [t]) (notified w).

Lemma send_ok w c t message :
  cells w !! c = Some OnceCell.new → send (mkSender c t) message w = Ret (answered w (frames w) message c t).
Proof. intros Hc. unfold send, get_cell. cbn [sender_cell receiver_task_id]. by rewrite Hc. Qed.

(** Freeing the buffer of a request gives back what it took. *)
Definition same_frames (a a' : A) : Prop :=
  frames_ok a' ∧ ca_capacity a' = ca_capacity a ∧ ∀ p, 0 ≤ p → ca_used a' p = ca_used a p.

Lemma drop_taken w a a' f len :
  frames w = Some a' → taken a a' f (pages_for len) →
  ∃ a2, drop_buffer (buffer_of f len) w = Ret (with_memory w (bytes w, Some a2)) ∧ same_frames a a2.
Proof.
  intros Hfr [Hok (Hf & Hn) (Hfc & Hcap) Hfree Hmk].
  destruct (free_pages_ok a' f (pages_for len) Hok Hf Hn) as (a2 & E & Hok2 & Hcap2 & Hcl); [lia| |].
  { intros p Hp. rewrite (Hmk p) by lia. rewrite (proj2 (in_block_spec f (pages_for len) p)) by lia. apply orb_true_r. }
  exists a2. unfold drop_buffer, PhysicalBuffer.drop, with_lock, buffer_of. rewrite Hfr. cbn [expect]. run_monad.
  rewrite E. run_monad. split; [done|]. split_and!; [done|lia|].
  intros p Hp. rewrite (Hcl p Hp), (Hmk p Hp). destruct (in_block f (pages_for len) p) eqn:Hin; cbn.
  - apply in_block_spec in Hin. by rewrite (Hfree p Hin).
  - by rewrite orb_false_r, andb_true_r.
Qed.

(** The frames after the answer: the buffer of a read is still in use. *)
Definition frames_after (raw : t) (a a' a2 : A) : Prop :=
  match request_type raw with BlockRequestType.In => a2 = a' | _ => same_frames a a2 end.

Lemma on_completion_ok w table e s raw f c t a a' :
  request_ok raw → zlen (VirtQueueDescriptorTable.descriptors table) = N →
  chain_at N (VirtQueueDescriptorTable.descriptors table) s
    (chain_of f (data_len raw) (device_writes (request_type raw))) →
  frames w = Some a' → taken a a' f (pages_for (data_len raw)) → cells w !! c = Some OnceCell.new →
  mem_read (bytes w) (frame_addr f + header_at (data_len raw)) 16 =
    lto (layout_of RawBlockRequestHeader.t) (header_of raw) →
  bytes w (frame_addr f + (header_at (data_len raw) + 16)) = 0 →
  ∃ a2, on_completion table e (Some (s mod N)) (Some (desc_data f (data_len raw) c t)) w =
      Ret (answered w (Some a2) (response_of raw f (bytes w)) c t) ∧ frames_after raw a a' a2.
Proof.
  intros [Hraw Hty Hst] Hl Hc Hfr Htk Hcell Eh Es. pose proof Htk as [Hok (Hf & _) (Hfc & Hcap) _ _].
  destruct (header_at_bounds _ (raw_len_pos _ Hraw) (raw_len_mod _ Hraw)) as [Hh _].
  destruct (pages_for_spec (data_len raw)) as [_ Hfit]; [pose proof (raw_len_pos _ Hraw); lia|].
  unfold on_completion, desc_data. cbn [buffer sender].
  rewrite (from_descriptor_chain_ok N table s raw f (pages_for (data_len raw))
    (device_writes (request_type raw)) (bytes w) BlockRequestStatus.Ok a') by (done || lia).
  run_monad. rewrite bool_decide_true by done. cbn [assert_]. run_monad.
  unfold BlockRequest.from_raw, response_of, frames_after. cbn [RawBlockRequest.request_type RawBlockRequest.data_len].
  destruct (drop_taken (answered w (frames w) (response_of raw f (bytes w)) c t) a a' f (data_len raw) Hfr Htk)
    as (a2 & Ed & Hs). revert Ed. unfold response_of.
  destruct (request_type raw) eqn:Et; try done; unfold urem, udiv, VIRTIO_BLOCK_SECTOR_SIZE_BYTES; intros Ed;
    try (change (512 =? 0) with false; cbn iota; run_monad; rewrite Hty; cbn [Z.eqb assert_]; run_monad).
  - exists a'. rewrite send_ok by done. rewrite Hfr. done.
  - exists a2. rewrite send_ok by done. run_monad. rewrite Ed. done.
  - exists a2. run_monad. change (start_addr (start (buffer_of f (data_len raw)))) with (frame_addr f).
    rewrite send_ok by done. run_monad. rewrite Ed. done.
Qed.

Definition payload (raw : t) (rd : option (list Z)) : list Z :=
  default [] rd ++ replicate (Z.to_nat (data_len raw - zlen (default [] rd))) 0.

(** The device in state [k] answers the request with [out] in the data buffer. *)
Definition serves (k : K) (raw : t) (rd : option (list Z)) (out : list Z) (Post : K → Prop) : Prop :=
  ∀ m chain data st,
    request_chain m chain (request_type raw) (sector raw) (device_writes (request_type raw)) data (data_len raw) st →
    mem_read m data (data_len raw) = payload raw rd →
    ∃ k' m' n, blk_serve k m chain = (k', m', n) ∧ Post k' ∧
      ∀ x, m' x = mem_write (mem_write m data out) st [0] x.

Lemma dma_frame f off : dma (PAGE_SIZE * f + off) = frame_addr f + off.
Proof. unfold dma, frame_addr. lia. Qed.

Lemma laid_out_chain raw rd f m :
  laid_out raw rd f m →
  request_chain m (chained (chain_of f (data_len raw) (device_writes (request_type raw)))) (request_type raw)
    (sector raw) (device_writes (request_type raw)) (frame_addr f) (data_len raw)
    (frame_addr f + (header_at (data_len raw) + 16)).
Proof.
  intros [Eh _]. cbn [chained chain_of]. do 3 eexists. split; [reflexivity|]. split_and!; try done; cbn [addr flags].
  - by rewrite dma_frame.
  - by rewrite <-(Z.add_0_r (PAGE_SIZE * f)), dma_frame, Z.add_0_r.
  - by rewrite dma_frame.
Qed.

(** What the device leaves in memory. *)
Lemma served_memory raw rd f m m' out :
  request_ok raw → laid_out raw rd f m → zlen out ≤ data_len raw →
  (∀ x, m' x = mem_write (mem_write m (frame_addr f) out) (frame_addr f + (header_at (data_len raw) + 16)) [0] x) →
  mem_read m' (frame_addr f + header_at (data_len raw)) 16 = lto (layout_of RawBlockRequestHeader.t) (header_of raw) ∧
  m' (frame_addr f + (header_at (data_len raw) + 16)) = 0 ∧ mem_read m' (frame_addr f) (zlen out) = out.
Proof.
  intros [[Hp Hm _ _] _ _] [Eh _] Hout Hm'. destruct (header_at_bounds _ Hp Hm) as [Hh _].
  pose proof (zlen_nonneg out). split_and!.
  - erewrite mem_read_ext; [|intros x _; apply Hm']. rewrite !mem_read_write_out by lia. exact Eh.
  - rewrite Hm'. pose proof (mem_write_in (mem_write m (frame_addr f) out)
      (frame_addr f + (header_at (data_len raw) + 16)) [0] 0 0 eq_refl) as E. by rewrite Z.add_0_r in E.
  - erewrite mem_read_ext; [|intros x _; apply Hm']. rewrite mem_read_write_out by lia.
    rewrite mem_read_write_start by lia. apply read_at_all.
Qed.

Lemma interrupt_ok w vq p s n raw f c t a a' :
  VIRTIO_BLOCK w !! Z.to_nat device = Some (mkBlockDevice vq) → rep N vq p s [n] [request_of raw f c t] →
  p mod 2 ^ 16 + 1 < 2 ^ 16 → request_ok raw → frames w = Some a' → taken a a' f (pages_for (data_len raw)) →
  cells w !! c = Some OnceCell.new →
  mem_read (bytes w) (frame_addr f + header_at (data_len raw)) 16 =
    lto (layout_of RawBlockRequestHeader.t) (header_of raw) →
  bytes w (frame_addr f + (header_at (data_len raw) + 16)) = 0 →
  ∃ w' a2, virtio_block_interrupt device w = Ret w' ∧ queue_is w' (p + 1) (s + 3) [] [] ∧
    frames_after raw a a' a2 ∧ frames w' = Some a2 ∧ bytes w' = bytes w ∧
    cells w' !! c = Some (OnceCell.mk (Some (response_of raw f (bytes w))) true 0).
Proof.
  intros Hdev R Hp Hq Hfr Htk Hcell Eh Es. unfold virtio_block_interrupt. rewrite Hdev. cbn [expect]. run_monad.
  cbn [virtqueue]. pose proof (rep_requests _ _ _ _ _ _ R) as [(_ & _ & Hch & _) _].
  destruct (process_ok N HN vq p s [n] [request_of raw f c t]
    (on_completion (VirtQueue.descriptors (VirtQueueData.queue vq))) w R Hp) as (vq' & -> & R' & _).
  cbn [delivered request_of snd foldM].
  destruct (on_completion_ok w (VirtQueue.descriptors (VirtQueueData.queue vq)) {| id := s mod N; used_len := n |} s raw f c t a a')
    as (a2 & -> & Hfa); try done; [apply (rep_table _ _ _ _ _ _ R)|].
  run_monad. do 2 eexists. split; [reflexivity|]. split_and!; [|exact Hfa|done|done|].
  - exists vq'. split; [apply list_lookup_insert_eq; cbn; by eapply lookup_lt_Some|]. exact R'.
  - cbn. apply lookup_insert_eq.
Qed.

Lemma serve_next_ok w k raw rd a f p s c t out Post :
  requested w raw rd a f p s c t → request_ok raw → p mod 2 ^ 16 + 1 < 2 ^ 16 →
  serves k raw rd out Post → zlen out ≤ data_len raw →
  ∃ w' k' a' a2, serve_next device (mkSystem w k p) = Ret (mkSystem w' k' (p + 1)) ∧ Post k' ∧
    queue_is w' (p + 1) (s + 3) [] [] ∧ taken a a' f (pages_for (data_len raw)) ∧ frames_after raw a a' a2 ∧
    frames w' = Some a2 ∧ mem_read (bytes w') (frame_addr f) (zlen out) = out ∧
    cells w' !! c = Some (OnceCell.mk (Some (response_of raw f (bytes w'))) true 0).
Proof.
  intros [(vq & Hdev & R) (a' & Hfr & Htk) Hlo Hcell] Hq Hp Hserves Hout.
  pose proof (rep_requests _ _ _ _ _ _ R) as [(_ & _ & Hch & _ & _ & Hav) _]. cbn [head] in Hav.
  unfold serve_next. cbn [kernel seen disk]. rewrite Hdev. cbn [expect]. run_monad. cbn [virtqueue].
  unfold VolatileArrayRW.len. rewrite (rep_avail _ _ _ _ _ _ R).
  rewrite (array_read_ok N HN _ _ _ (rep_avail _ _ _ _ _ _ R) Hav). run_monad.
  pose proof (rep_avail _ _ _ _ _ _ R) as Hlen. unfold zlen in Hlen.
  rewrite (chain_collect N _ s (chain_of f (data_len raw) (device_writes (request_type raw))))
    by (done || apply chain_of_plain || apply (rep_table _ _ _ _ _ _ R) || (cbn; lia)).
  run_monad. destruct (Hserves (bytes w) _ _ _ (laid_out_chain raw rd f _ Hlo) (lo_data _ _ _ _ Hlo))
    as (k' & m' & n & -> & HPost & Hm').
  destruct (consume_ok N HN vq p s [] [request_of raw f c t] n R) as (vq' & E & R' & _); [cbn; lia|].
  rewrite Z.add_0_r in E. rewrite E. run_monad.
  destruct (served_memory raw rd f (bytes w) m' out Hq Hlo Hout Hm') as (Eh & Es & Eo).
  destruct (interrupt_ok (with_devices (with_memory w (m', frames w)) (<[Z.to_nat device := mkBlockDevice vq']> (VIRTIO_BLOCK w)))
    vq' p s n raw f c t a a') as (w' & a2 & Ei & Hqi & Hfa & Hf2 & Hb & Hc2); try done.
  { cbn. apply list_lookup_insert_eq. by eapply lookup_lt_Some. }
  cbn [with_memory VIRTIO_BLOCK] in *. rewrite Ei. run_monad. exists w', k', a', a2.
  split; [done|]. rewrite Hb. by split_and!.
Qed.

Lemma get_once_new {T} : OnceCell.get_once (T:=T) OnceCell.new = Ret (None, OnceCell.new).
Proof. done. Qed.
Lemma get_once_full {T} (m : T) : OnceCell.get_once (OnceCell.mk (Some m) true 0) = Ret (Some m, OnceCell.mk None false 0).
Proof. done. Qed.

Lemma wait_sleep_ok fuel w k raw rd a f p s c t out Post :
  requested w raw rd a f p s c t → request_ok raw → p mod 2 ^ 16 + 1 < 2 ^ 16 →
  serves k raw rd out Post → zlen out ≤ data_len raw →
  ∃ w' k' a' a2, wait_sleep (S (S fuel)) device (mkReceiver c) (mkSystem w k p) =
      Ret (response_of raw f (bytes w'), mkSystem w' k' (p + 1)) ∧ Post k' ∧
    queue_is w' (p + 1) (s + 3) [] [] ∧ taken a a' f (pages_for (data_len raw)) ∧ frames_after raw a a' a2 ∧
    frames w' = Some a2 ∧ mem_read (bytes w') (frame_addr f) (zlen out) = out.
Proof.
  intros Hr Hq Hp Hserves Hout.
  assert (Eg : get_cell w c = Ret OnceCell.new) by (unfold get_cell; by rewrite (rq_cell _ _ _ _ _ _ _ _ _ Hr)).
  cbn [wait_sleep receiver_cell kernel]. rewrite Eg. run_monad. rewrite get_once_new. run_monad.
  destruct (serve_next_ok (with_cells w (<[c := OnceCell.new]> (cells w))) k raw rd a f p s c t out Post)
    as (w' & k' & a' & a2 & E & HPost & Hqu & Htk & Hfa & Hfr & Hm & Hc); try done.
  { destruct Hr as [Hqu Hfr Hlo Hc]. split; cbn; try done. apply lookup_insert_eq. }
  cbn [disk seen]. rewrite E. run_monad.
  assert (Eg' : get_cell w' c = Ret (OnceCell.mk (Some (response_of raw f (bytes w'))) true 0))
    by (unfold get_cell; by rewrite Hc).
  cbn [kernel]. rewrite Eg'. run_monad. rewrite get_once_full. run_monad.
  exists (with_cells w' (<[c := OnceCell.mk None false 0]> (cells w'))), k', a', a2. by split_and!.
Qed.

Lemma serves_in k raw :
  request_type raw = BlockRequestType.In → data_len raw mod 512 = 0 → 0 ≤ sector raw < 2 ^ 64 →
  sector raw * 512 + data_len raw ≤ zlen (blk_image k) →
  serves k raw None (read_at (sector raw * 512) (data_len raw) (blk_image k))
    (λ k', blk_image k' = blk_image k ∧ blk_id k' = blk_id k).
Proof.
  intros Et Hm Hs Hl m chain data st Hc _. rewrite Et in Hc.
  destruct (blk_serve_in k m chain _ _ _ _ Hc Hm Hs Hl) as (k' & m' & n & E & Hi & Hid & Hm'). exists k', m', n. by split_and!.
Qed.

Lemma serves_out k raw rd :
  request_type raw = BlockRequestType.Out → data_len raw mod 512 = 0 → 0 ≤ sector raw < 2 ^ 64 →
  sector raw * 512 + data_len raw ≤ zlen (blk_image k) → bytes_ok (default [] rd) →
  serves k raw rd []
    (λ k', blk_image k' = write_at (sector raw * 512) (payload raw rd) (blk_image k) ∧ blk_id k' = blk_id k).
Proof.
  intros Et Hm Hs Hl Hb m chain data st Hc Hd. rewrite Et in Hc.
  destruct (blk_serve_out k m chain _ _ _ _ Hc Hm Hs Hl) as (k' & m' & n & E & Hi & Hid & Hm').
  { rewrite Hd. apply Forall_app. split; [done|apply bytes_ok_replicate]. }
  exists k', m', n. rewrite Hd in Hi. split_and!; try done. intros x. rewrite Hm'. symmetry. apply mem_write_ext.
  intros y. apply mem_write_nil.
Qed.

Lemma serves_get_id k raw :
  request_type raw = BlockRequestType.GetID → data_len raw = 20 → sector raw = 0 →
  serves k raw None (blk_id k) (λ k', blk_image k' = blk_image k ∧ blk_id k' = blk_id k).
Proof.
  intros Et Hlen Hs m chain data st Hc _. rewrite Et, Hlen, Hs in Hc.
  destruct (blk_serve_get_id k m chain _ _ Hc) as (k' & m' & n & E & Hi & Hid & Hm'). exists k', m', n. by split_and!.
Qed.

(** ** Reading and writing *)
Lemma read_device_blocks_ok fuel sys a p s start n :
  idle sys a p s → p mod 2 ^ 16 + 1 < 2 ^ 16 → 0 ≤ start < 2 ^ 64 → 0 ≤ n → n * 512 + 21 < 2 ^ 32 →
  (start + n) * 512 ≤ zlen (blk_image (disk sys)) → room a (n * 512) →
  ∃ sys' a', read_device_blocks (S (S fuel)) device start n sys =
      Ret (read_at (start * 512) (n * 512) (blk_image (disk sys)), sys') ∧
    idle sys' a' (p + 1) (s + 3) ∧ same_frames a a' ∧
    blk_image (disk sys') = blk_image (disk sys) ∧ blk_id (disk sys') = blk_id (disk sys).
Proof.
  intros Hi Hp Hst Hn Hb Hl Hroom. set (raw := RawBlockRequest.new BlockRequestType.In start (n * 512)).
  assert (H4 : n * 512 mod 4 = 0) by (replace (n * 512) with (n * 128 * 4) by lia; apply Z_mod_mult).
  assert (Hq : request_ok raw) by (split; [split|apply Z_mod_mult|done]; unfold raw; cbn; done || lia).
  assert (Er : BlockRequest.to_raw (BlockRequest.Read start n) = Ret raw).
  { cbn. unfold VIRTIO_BLOCK_SECTOR_SIZE_BYTES. rewrite umul_ok by lia. by run_monad. }
  destruct (add_request_ok sys a p s _ raw None Hi Er Hq) as (f & w & E & Hr); [unfold zlen; cbn; lia|done|].
  unfold read_device_blocks, virtio_block_read. replace (wrap 32 n) with n by (unfold wrap; rewrite Z.mod_small; lia).
  rewrite E. run_monad. rewrite (id_seen _ _ _ _ Hi).
  assert (Hlr : zlen (read_at (start * 512) (n * 512) (blk_image (disk sys))) = n * 512) by (apply length_read_at; lia).
  destruct (wait_sleep_ok fuel w (disk sys) raw None a f p s _ _ _ _ Hr Hq Hp
    (serves_in (disk sys) raw eq_refl (rk_type _ Hq) ltac:(cbn; lia) ltac:(cbn; lia)))
    as (w' & k' & a' & a2 & -> & (Hk & Hid) & Hqu & Htk & Hfa & Hfr & Hm); [cbn; rewrite Hlr; lia|].
  run_monad. change (response_of raw f (bytes w')) with (ReadResponse (mkReadResponse (buffer_of f (n * 512)) (n * 512))).
  unfold frames_after in Hfa. cbn in Hfa. subst a2. change (data_len raw) with (n * 512) in *.
  pose proof Htk as [Hok (Hf & Hpos) (Hfc & Hcap) _ _]. cbn in Hm. rewrite Hlr in Hm.
  unfold response_data, PhysicalBuffer.slice_len, buffer_of. cbn [response_buffer response_data_len kernel].
  rewrite (num_bytes_ok a' f) by (done || lia). run_monad.
  destruct (pages_for_spec (n * 512)) as [_ Hfit]; [unfold header_at; zdm|].
  destruct (header_at_bounds (n * 512)) as [Hh _]; [lia|done|].
  destruct (Z.leb_spec (n * 512) (pages_for (n * 512) * 4096)); [|unfold PAGE_SIZE in *; lia]. run_monad.
  cbn [start_addr Addr.start frame_page]. rewrite Hm.
  destruct (drop_taken w' a a' f (n * 512) Hfr Htk) as (a2 & Ed & Hs2). unfold buffer_of in Ed. rewrite Ed. run_monad.
  do 2 eexists. split; [reflexivity|]. split_and!; [|exact Hs2|done|done].
  destruct Hs2 as (? & _). by split.
Qed.

Lemma write_device_blocks_ok fuel sys a p s start data :
  idle sys a p s → p mod 2 ^ 16 + 1 < 2 ^ 16 → 0 ≤ start < 2 ^ 64 → bytes_ok data →
  next_multiple_of (zlen data) 512 + 21 < 2 ^ 32 →
  start * 512 + next_multiple_of (zlen data) 512 ≤ zlen (blk_image (disk sys)) →
  room a (next_multiple_of (zlen data) 512) →
  ∃ sys' a', write_device_blocks (S (S fuel)) device start data sys = Ret sys' ∧
    idle sys' a' (p + 1) (s + 3) ∧ same_frames a a' ∧
    blk_image (disk sys') = write_at (start * 512)
      (data ++ replicate (Z.to_nat (next_multiple_of (zlen data) 512 - zlen data)) 0) (blk_image (disk sys)) ∧
    blk_id (disk sys') = blk_id (disk sys).
Proof.
  intros Hi Hp Hst Hbs Hb Hl Hroom. set (len := next_multiple_of (zlen data) 512) in *.
  destruct (next_multiple_of_spec (zlen data) 512) as [Hm Hge]; [lia|]. fold len in Hm, Hge.
  pose proof (zlen_nonneg data).
  assert (H4 : len mod 4 = 0) by (rewrite (Z.div_mod len 512), Hm by lia; zdm).
  set (raw := RawBlockRequest.new BlockRequestType.Out start len).
  assert (Hq : request_ok raw) by (split; [split|done|done]; unfold raw; cbn; done || lia).
  destruct (add_request_ok sys a p s (BlockRequest.Write start len) raw (Some data) Hi eq_refl Hq)
    as (f & w & E & Hr); [cbn; lia|done|].
  unfold write_device_blocks, virtio_block_write, VIRTIO_BLOCK_SECTOR_SIZE_BYTES, urem.
  replace (wrap 32 (zlen data)) with (zlen data) by (unfold wrap; rewrite Z.mod_small; lia).
  change (512 =? 0) with false. cbn iota. run_monad.
  assert (El : (if zlen data mod 512 =? 0 then mret (zlen data) else uadd 32 (zlen data) (512 - zlen data mod 512)) = Ret len).
  { unfold len, next_multiple_of in *. destruct (zlen data mod 512 =? 0); [done|]. apply uadd_ok. lia. }
  rewrite El. run_monad. rewrite E. run_monad. rewrite (id_seen _ _ _ _ Hi).
  destruct (wait_sleep_ok fuel w (disk sys) raw (Some data) a f p s _ _ _ _ Hr Hq Hp
    (serves_out (disk sys) raw (Some data) eq_refl Hm ltac:(cbn; lia) ltac:(cbn; lia) Hbs))
    as (w' & k' & a' & a2 & -> & (Hk & Hid) & Hqu & Htk & Hfa & Hfr & _); [unfold zlen; cbn; lia|].
  run_monad. do 2 eexists. split; [reflexivity|]. split_and!; [|exact Hfa|exact Hk|exact Hid].
  destruct Hfa as (? & _). by split.
Qed.

(** Up to the first NUL. *)
Fixpoint until_nul (bs : list Z) : list Z :=
  match bs with [] => [] | b :: bs => if b =? 0 then [] else b :: until_nul bs end.

Definition c_string (bs : list Z) : list Z := default (str "<invalid utf8>") (Utf8.from_utf8 (until_nul bs)).

Lemma mem_read_nil m a : mem_read m a 0 = [].
Proof. unfold mem_read. by rewrite range_nil. Qed.

Lemma mem_read_cons m a n : mem_read m a (Z.of_nat (S n)) = m a :: mem_read m (a + 1) (Z.of_nat n).
Proof.
  apply list_eq. intros [|i].
  - rewrite lookup_mem_read by lia. simpl. by rewrite Z.add_0_r.
  - simpl. destruct (decide (i < n)%nat).
    + rewrite !lookup_mem_read by lia. do 2 f_equal. lia.
    + rewrite !lookup_ge_None_2; [done|rewrite length_mem_read; lia..].
Qed.

Lemma c_str_len_ok m n : ∀ ptr len,
  c_str_len m ptr n len = len + zlen (until_nul (mem_read m (ptr + len) (Z.of_nat n))).
Proof.
  induction n as [|n IH]; intros ptr len.
  { change (Z.of_nat 0) with 0. rewrite mem_read_nil. cbn. unfold zlen. simpl. lia. }
  rewrite mem_read_cons. cbn [c_str_len until_nul]. destruct (m (ptr + len) =? 0).
  - unfold zlen. simpl. lia.
  - rewrite IH, zlen_cons. replace (ptr + (len + 1)) with (ptr + len + 1) by lia. lia.
Qed.

Lemma mem_read_until_nul m n : ∀ a,
  mem_read m a (zlen (until_nul (mem_read m a (Z.of_nat n)))) = until_nul (mem_read m a (Z.of_nat n)).
Proof.
  induction n as [|n IH]; intros a; [by change (Z.of_nat 0) with 0; rewrite !mem_read_nil|]. rewrite mem_read_cons. cbn [until_nul]. destruct (m a =? 0) eqn:E; [apply mem_read_nil|].
  unfold zlen. cbn [length]. rewrite mem_read_cons. f_equal. apply IH.
Qed.

Lemma c_str_from_pointer_ok m ptr n bs : mem_read m ptr n = bs → 0 ≤ n → c_str_from_pointer m ptr n = c_string bs.
Proof.
  intros <- Hn. unfold c_str_from_pointer, c_string. rewrite c_str_len_ok, Z.add_0_r, Z.add_0_l.
  by rewrite mem_read_until_nul, Z2Nat.id.
Qed.

Lemma get_id_ok fuel sys a p s :
  idle sys a p s → p mod 2 ^ 16 + 1 < 2 ^ 16 → room a 20 →
  ∃ sys' a', get_id (S (S fuel)) device sys = Ret (GetIDResponse (c_string (blk_id (disk sys))), sys') ∧
    idle sys' a' (p + 1) (s + 3) ∧ same_frames a a' ∧
    blk_image (disk sys') = blk_image (disk sys) ∧ blk_id (disk sys') = blk_id (disk sys).
Proof.
  intros Hi Hp Hroom. set (raw := RawBlockRequest.new BlockRequestType.GetID 0 20).
  assert (Hq : request_ok raw) by (by split; [split|..]).
  destruct (add_request_ok sys a p s BlockRequest.GetID raw None Hi eq_refl Hq) as (f & w & E & Hr); [done|done|].
  unfold get_id, virtio_block_get_id. rewrite E. run_monad. rewrite (id_seen _ _ _ _ Hi).
  destruct (blk_id_bytes (disk sys)) as [_ Hlen].
  destruct (wait_sleep_ok fuel w (disk sys) raw None a f p s _ _ _ _ Hr Hq Hp (serves_get_id (disk sys) raw eq_refl eq_refl eq_refl))
    as (w' & k' & a' & a2 & -> & (Hk & Hid) & Hqu & Htk & Hfa & Hfr & Hm); [rewrite Hlen; cbn; lia|].
  rewrite Hlen in Hm. do 2 eexists. split.
  { unfold response_of. cbn. by rewrite (c_str_from_pointer_ok _ _ _ _ Hm) by lia. }
  split_and!; [|exact Hfa|exact Hk|exact Hid]. destruct Hfa as (? & _). by split.
Qed.

(** ** The driver as a disk *)
Inductive disk_op : Type :=
| ReadBlocks (start n : Z)
| WriteBlocks (start : Z) (data : list Z)
| ReadID.

Inductive disk_output : Type := OutData (data : list Z) | OutDone | OutID (s : list Z).

(** How many bytes of data the request of an operation has. *)
Definition op_len (o : disk_op) : Z :=
  match o with
  | ReadBlocks _ n => n * 512
  | WriteBlocks _ data => next_multiple_of (zlen data) 512
  | ReadID => 20
  end.

(** The promise: an array of bytes, read and written in sectors of 512 bytes; what a
    write leaves of its last sector is zeroed. *)
Definition disk_step (ident : list Z) (o : disk_op) (image : list Z) : option (list Z * disk_output) :=
  match o with
  | ReadBlocks start n =>
      if (0 <=? start) && (start <? 2 ^ 64) && (0 <=? n) && (op_len o + 21 <? 2 ^ 32) && ((start + n) * 512 <=? zlen image)
      then Some (image, OutData (read_at (start * 512) (n * 512) image)) else None
  | WriteBlocks start data =>
      if (0 <=? start) && (start <? 2 ^ 64) && bytes_okb data && (op_len o + 21 <? 2 ^ 32)
         && (start * 512 + op_len o <=? zlen image)
      then Some (write_at (start * 512) (data ++ replicate (Z.to_nat (op_len o - zlen data)) 0) image, OutDone) else None
  | ReadID => Some (image, OutID (c_string ident))
  end.

Fixpoint disk_run (ident : list Z) (ops : list disk_op) (image : list Z) : option (list Z * list disk_output) :=
  match ops with
  | [] => Some (image, [])
  | o :: ops =>
      '(image, out) ← disk_step ident o image;
      '(image, outs) ← disk_run ident ops image;
      Some (image, out :: outs)
  end.

Definition driver_step (fuel : nat) (o : disk_op) sys : outcome (disk_output * system A K) :=
  match o with
  | ReadBlocks start n => '(d, sys) ← read_device_blocks fuel device start n sys; mret (OutData d, sys)
  | WriteBlocks start data => sys ← write_device_blocks fuel device start data sys; mret (OutDone, sys)
  | ReadID =>
      '(r, sys) ← get_id fuel device sys;
      match r with GetIDResponse s => mret (OutID s, sys) | _ => Panic PanicExplicit end
  end.

Fixpoint driver_run (fuel : nat) (ops : list disk_op) sys : outcome (list disk_output * system A K) :=
  match ops with
  | [] => mret ([], sys)
  | o :: ops =>
      '(out, sys) ← driver_step fuel o sys;
      '(outs, sys) ← driver_run fuel ops sys;
      mret (out :: outs, sys)
  end.

Lemma driver_step_ok fuel o sys a p s image' out :
  idle sys a p s → p mod 2 ^ 16 + 1 < 2 ^ 16 → room a (op_len o) →
  disk_step (blk_id (disk sys)) o (blk_image (disk sys)) = Some (image', out) →
  ∃ sys' a', driver_step (S (S fuel)) o sys = Ret (out, sys') ∧ idle sys' a' (p + 1) (s + 3) ∧ same_frames a a' ∧
    blk_image (disk sys') = image' ∧ blk_id (disk sys') = blk_id (disk sys).
Proof.
  intros Hi Hp Hroom. destruct o as [start n|start data|]; cbn [disk_step driver_step op_len] in *.
  - destruct (_ && _) eqn:Hg; [|done]. rewrite !andb_true_iff, !Z.leb_le, !Z.ltb_lt in Hg. intros [= <- <-].
    destruct (read_device_blocks_ok fuel sys a p s start n) as (sys' & a' & -> & ?); try (done || lia). run_monad. eauto.
  - destruct (_ && _) eqn:Hg; [|done]. rewrite !andb_true_iff, !Z.leb_le, !Z.ltb_lt in Hg. intros [= <- <-].
    destruct (write_device_blocks_ok fuel sys a p s start data) as (sys' & a' & -> & ?);
      try (done || lia || apply bytes_okb_ok, Hg). run_monad. eauto.
  - intros [= <- <-]. destruct (get_id_ok fuel sys a p s) as (sys' & a' & -> & ?); try done. run_monad. eauto.
Qed.

Lemma room_same (a a' : A) len : same_frames a a' → room a len → room a' len.
Proof. intros (_ & _ & Hu) (x & Hx & Hr). exists x. split; [done|]. intros q Hq. rewrite Hu by lia. by apply Hr. Qed.

Lemma driver_run_ok fuel ops : ∀ sys a p s image' outs,
  idle sys a p s → p mod 2 ^ 16 + zlen ops < 2 ^ 16 → Forall (λ o, room a (op_len o)) ops →
  disk_run (blk_id (disk sys)) ops (blk_image (disk sys)) = Some (image', outs) →
  ∃ sys' a' s', driver_run (S (S fuel)) ops sys = Ret (outs, sys') ∧ idle sys' a' (p + zlen ops) s' ∧ same_frames a a' ∧
    blk_image (disk sys') = image' ∧ blk_id (disk sys') = blk_id (disk sys).
Proof.
  induction ops as [|o ops IH]; intros sys a p s image' outs Hi Hp Hroom Hs.
  { injection Hs as <- <-. exists sys, a, s. rewrite zlen_nil, Z.add_0_r. pose proof (id_ok _ _ _ _ Hi). by split_and!. }
  rewrite zlen_cons in *. pose proof (zlen_nonneg ops). apply Forall_cons in Hroom as [Hr1 Hr]. cbn [disk_run driver_run] in *.
  destruct (disk_step _ o _) as [[im1 out1]|] eqn:E1; [|done]. cbn in Hs.
  destruct (disk_run _ ops im1) as [[im2 outs2]|] eqn:E2; [|done]. cbn in Hs. injection Hs as <- <-.
  destruct (driver_step_ok fuel o sys a p s im1 out1 Hi) as (sys1 & a1 & -> & Hi1 & Hs1 & Him & Hid); [lia|done|done|].
  run_monad. destruct (IH sys1 a1 (p + 1) (s + 3) im2 outs2 Hi1) as (sys2 & a2 & s2 & -> & Hi2 & Hs2 & Him2 & Hid2).
  - rewrite <-Zplus_mod_idemp_l, Z.mod_small; pose proof (Z.mod_pos_bound p (2 ^ 16)); lia.
  - eapply Forall_impl; [exact Hr|]. intros o'. by apply room_same.
  - by rewrite Hid, Him.
  - run_monad. exists sys2, a2, s2. split; [done|]. replace (p + (zlen ops + 1)) with (p + 1 + zlen ops) by lia.
    split_and!; [done| |done|by rewrite Hid2]. destruct Hs1 as (? & Hc1 & Hu1), Hs2 as (? & Hc2 & Hu2).
    split_and!; [done|congruence|]. intros q Hq. by rewrite Hu2, Hu1.
Qed.

End transaction.

(** ** A device in memory *)
Record MemoryBlk : Type := { mb_image : list Z; mb_id : list Z }.

Definition mb_bytes (bs : list Z) : list Z := (λ b, b mod 256) <$> bs.
Definition mb_id20 (k : MemoryBlk) : list Z := take 20 (mb_bytes (mb_id k) ++ replicate 20 0).

#[local] Instance memory_blk : VirtioBlk MemoryBlk := {|
  blk_serve k m chain :=
    match chain with
    | [h; b; s] =>
        let hdr := lof (layout_of RawBlockRequestHeader.t) (mem_read m (dma (addr h)) 16) in
        let sector := RawBlockRequestHeader.sector hdr in
        match BlockRequestType.from_u32 (RawBlockRequestHeader.request_type hdr) with
        | Some BlockRequestType.In =>
            (k, mem_write (mem_write m (dma (addr b)) (read_at (sector * 512) (elem_len b) (mb_bytes (mb_image k))))
                  (dma (addr s)) [0], elem_len b + 1)
        | Some BlockRequestType.Out =>
            ({| mb_image := write_at (sector * 512) (mem_read m (dma (addr b)) (elem_len b)) (mb_image k);
                mb_id := mb_id k |}, mem_write m (dma (addr s)) [0], 1)
        | Some BlockRequestType.GetID =>
            (k, mem_write (mem_write m (dma (addr b)) (mb_id20 k)) (dma (addr s)) [0], 21)
        | _ => (k, mem_write m (dma (addr s)) [2], 1)
        end
    | _ => (k, m, 0)
    end;
|}.

Lemma mb_bytes_ok bs : bytes_ok (mb_bytes bs).
Proof. unfold mb_bytes, bytes_ok. rewrite Forall_fmap. apply Forall_true. intros b. apply Z.mod_pos_bound. lia. Qed.

Lemma mb_bytes_id bs : bytes_ok bs → mb_bytes bs = bs.
Proof. induction 1 as [|b bs Hb _ IH]; [done|]. unfold mb_bytes in *. rewrite fmap_cons, IH. f_equal. by apply Z.mod_small. Qed.

Lemma header_decoded m chain ty sector wr data len st :
  request_chain m chain ty sector wr data len st → 0 ≤ sector < 2 ^ 64 →
  ∃ h b s, chain = [h; b; s] ∧ data = dma (addr b) ∧ len = elem_len b ∧ st = dma (addr s) ∧
    lof (layout_of RawBlockRequestHeader.t) (mem_read m (dma (addr h)) 16) =
      RawBlockRequestHeader.mk (BlockRequestType.as_u32 ty) 0 sector.
Proof.
  intros (h & b & s & -> & _ & _ & _ & _ & _ & Eh & -> & -> & ->) Hs. exists h, b, s. split_and!; try done.
  rewrite Eh. apply (lo_of_to _ layout_of_ok). cbn. unfold in_width. split_and!; try lia; destruct ty; cbn; lia.
Qed.

#[local] Instance memory_blk_laws : VirtioBlkLaws MemoryBlk.
Proof.
  refine {| blk_image k := mb_bytes (mb_image k); blk_id := mb_id20 |}.
  - intros k. apply mb_bytes_ok.
  - intros k. unfold mb_id20. split.
    + apply Forall_take, Forall_app. split; [apply mb_bytes_ok|apply bytes_ok_replicate].
    + unfold zlen. rewrite length_take, length_app, length_replicate. lia.
  - intros k m chain sector data len st Hc _ Hs _. destruct (header_decoded _ _ _ _ _ _ _ _ Hc Hs) as (h & b & s & -> & -> & -> & -> & E).
    cbn [blk_serve memory_blk]. rewrite E. do 3 eexists. by split_and!.
  - intros k m chain sector data len st Hc _ Hs _ Hb.
    destruct (header_decoded _ _ _ _ _ _ _ _ Hc Hs) as (h & b & s & -> & -> & -> & -> & E).
    cbn [blk_serve memory_blk]. rewrite E. do 3 eexists. split; [reflexivity|]. split_and!; try done. cbn.
    unfold mb_bytes, write_at. rewrite !fmap_app, fmap_take, fmap_drop. fold (mb_bytes (mem_read m (dma (addr b)) (elem_len b))).
    by rewrite (mb_bytes_id _ Hb).
  - intros k m chain data st Hc. destruct (header_decoded _ _ _ _ _ _ _ _ Hc ltac:(lia)) as (h & b & s & -> & -> & _ & -> & E).
    cbn [blk_serve memory_blk]. rewrite E. do 3 eexists. by split_and!.
Defined.

Definition demo_blk : MemoryBlk := {| mb_image := replicate 1024 1; mb_id := str "disk0" |}.

Definition demo_world : world BitmapAllocator.t :=
  mkWorld [mkBlockDevice (fresh 4 demo_range demo_range demo_range 0 0)] (λ x, x)
    (Some (BitmapAllocator.mk [1] None)) ∅ 0 7 [] [].

#[local] Existing Instances documented_x86_64 documented_x86_64_laws documented_zerocopy documented_zerocopy_laws.

Lemma demo_room n : pages_for n = 1 → room (BitmapAllocator.mk [1] None) n.
Proof. intros E. exists 1. split; [lia|]. intros p Hp. rewrite E in Hp. by replace p with 1 by lia. Qed.

