(* ===== verification/Text.v ===== *)
(** * Text of the standard library: decimal numbers and words

    Strings are their UTF-8 bytes.  [decimal] is what [{}] prints for an unsigned
    integer, [from_str_uint] is [str::parse] to one, [split_whitespace] and [split_byte] are
    the methods of [str] of these names. *)
From S2P Require Import Prelude Ext2Dir.
#[local] Open Scope Z_scope.

(** ** Decimal numbers *)
Fixpoint digits (fuel : nat) (n : Z) : list Z :=
  match fuel with
  | O => []
  | S fuel => if n <? 10 then [48 + n] else digits fuel (n / 10) ++ [48 + n mod 10]
  end.

(** Every digit takes more than one bit, so the bits of the number are fuel enough. *)
Definition decimal (n : Z) : list Z := digits (S (Z.to_nat (Z.log2 n))) n.

Definition is_digit (c : Z) : bool := (48 <=? c) && (c <=? 57).

Definition value (ds : list Z) : Z := foldl (λ acc c, acc * 10 + (c - 48)) 0 ds.

(** [core::num::IntErrorKind] *)
Inductive int_error : Type := IntEmpty | InvalidDigit | PosOverflow.

Fixpoint accumulate (w acc : Z) (ds : list Z) : result Z int_error :=
  match ds with
  | [] => Ok acc
  | c :: ds =>
      if negb (is_digit c) then Err InvalidDigit
      else if acc * 10 + (c - 48) <? 2 ^ w then accumulate w (acc * 10 + (c - 48)) ds
      else Err PosOverflow
  end.

(** [FromStr] of an unsigned integer of [w] bits *)
Definition from_str_uint (w : Z) (s : list Z) : result Z int_error :=
  match s with
  | [] => Err IntEmpty
  | [43] | [45] => Err InvalidDigit
  | 43 :: ds => accumulate w 0 ds
  | ds => accumulate w 0 ds
  end.

(** ** Words *)
(** How many bytes the white-space character at the head of the string has: the characters
    with the property [White_Space] in UTF-8. *)
Definition white_space (s : list Z) : nat :=
  match s with
  | c :: s =>
      if ((9 <=? c) && (c <=? 13)) || (c =? 32) then 1%nat else
      match s with
      | c1 :: s =>
          if (c =? 0xc2) && ((c1 =? 0x85) || (c1 =? 0xa0)) then 2%nat else
          match s with
          | c2 :: _ =>
              if ((c =? 0xe1) && (c1 =? 0x9a) && (c2 =? 0x80))
                 || ((c =? 0xe2) && (c1 =? 0x80)
                     && (((0x80 <=? c2) && (c2 <=? 0x8a)) || (c2 =? 0xa8) || (c2 =? 0xa9) || (c2 =? 0xaf)))
                 || ((c =? 0xe2) && (c1 =? 0x81) && (c2 =? 0x9f))
                 || ((c =? 0xe3) && (c1 =? 0x80) && (c2 =? 0x80))
              then 3%nat else 0%nat
          | [] => 0%nat
          end
      | [] => 0%nat
      end
  | [] => 0%nat
  end.

Definition flush_word (w : list Z) : list (list Z) := match w with [] => [] | _ => [w] end.

(** [skip] bytes of a white-space character are still to come; [w] is the word so far. *)
Fixpoint words_from (skip : nat) (w s : list Z) : list (list Z) :=
  match s with
  | [] => flush_word w
  | c :: rest =>
      match skip with
      | S skip => words_from skip w rest
      | O => match white_space s with
             | O => words_from 0 (w ++ [c]) rest
             | S n => flush_word w ++ words_from n [] rest
             end
      end
  end.

Definition split_whitespace (s : list Z) : list (list Z) := words_from 0 [] s.

(** [s.split(c)] for an ASCII character *)
Fixpoint split_byte (sep : Z) (w s : list Z) : list (list Z) :=
  match s with
  | [] => [w]
  | c :: s => if c =? sep then w :: split_byte sep [] s else split_byte sep (w ++ [c]) s
  end.

(** [words.join(" ")] *)
Fixpoint join_words (ws : list (list Z)) : list Z :=
  match ws with
  | [] => []
  | w :: ws => match ws with [] => w | _ => w ++ 32 :: join_words ws end
  end.

(** ** Lemmas *)
Lemma digits_spec fuel n :
  0 ≤ n → n < 2 ^ Z.of_nat fuel →
  value (digits fuel n) = n ∧ Forall (λ c, is_digit c = true) (digits fuel n) ∧ (0 < fuel → digits fuel n ≠ [])%nat.
Proof.
  revert n. induction fuel as [|fuel IH]; intros n Hn Hf; cbn [digits].
  { cbn in Hf. repeat split; [cbn; lia|constructor|lia]. }
  rewrite Nat2Z.inj_succ, Z.pow_succ_r in Hf by lia.
  destruct (Z.ltb_spec n 10).
  - repeat split; [unfold value; cbn; lia| |done]. repeat constructor. unfold is_digit. lia.
  - destruct (IH (n / 10)) as (V & F & _); [zdm|zdm|]. repeat split.
    + unfold value in *. rewrite foldl_app, V. cbn [foldl]. zdm.
    + apply Forall_app. split; [done|]. repeat constructor. unfold is_digit. zdm.
    + intros _ E. by apply app_nil in E as [_ ?].
Qed.

Lemma decimal_spec n :
  0 ≤ n → value (decimal n) = n ∧ Forall (λ c, is_digit c = true) (decimal n) ∧ decimal n ≠ [].
Proof.
  intros Hn. unfold decimal. destruct (digits_spec (S (Z.to_nat (Z.log2 n))) n Hn) as (V & F & E).
  { rewrite Nat2Z.inj_succ, Z2Nat.id by apply Z.log2_nonneg. destruct (Z.eq_dec n 0) as [->|]; [cbn; lia|].
    apply Z.log2_spec. lia. }
  repeat split; [done..|]. apply E. lia.
Qed.

Lemma accumulate_value w acc ds :
  Forall (λ c, is_digit c = true) ds → 0 ≤ acc →
  foldl (λ acc c, acc * 10 + (c - 48)) acc ds < 2 ^ w →
  accumulate w acc ds = Ok (foldl (λ acc c, acc * 10 + (c - 48)) acc ds).
Proof.
  intros Hds. revert acc. induction Hds as [|c ds Hc Hds IH]; intros acc Ha Hw; cbn [accumulate foldl] in *; [done|].
  rewrite Hc. cbn [negb]. assert (48 ≤ c ≤ 57) by (unfold is_digit in Hc; lia).
  assert (∀ l a, Forall (λ c, is_digit c = true) l → 0 ≤ a → a ≤ foldl (λ acc c, acc * 10 + (c - 48)) a l) as Hmono.
  { clear. intros l a Hl. revert a. induction Hl as [|c l Hc Hl IH]; intros a Ha; cbn [foldl]; [lia|].
    unfold is_digit in Hc. specialize (IH (a * 10 + (c - 48))). lia. }
  pose proof (Hmono ds (acc * 10 + (c - 48)) Hds). destruct (Z.ltb_spec (acc * 10 + (c - 48)) (2 ^ w)); [|lia].
  apply IH; [lia|done].
Qed.

Lemma from_str_digits w ds :
  Forall (λ c, is_digit c = true) ds → ds ≠ [] → value ds < 2 ^ w → from_str_uint w ds = Ok (value ds).
Proof.
  intros Hds Hne Hv. destruct ds as [|c ds]; [done|]. unfold value in *.
  pose proof (accumulate_value w 0 (c :: ds) Hds ltac:(lia) Hv) as A.
  apply Forall_cons in Hds as [Hc _]. unfold is_digit in Hc. unfold from_str_uint.
  assert (c ≠ 43 ∧ c ≠ 45) as [? ?] by lia.
  repeat (case_match; try lia; try done).
Qed.

Lemma from_str_decimal w n : in_width w n → from_str_uint w (decimal n) = Ok n.
Proof.
  intros [H1 H2]. destruct (decimal_spec n H1) as (V & F & E).
  rewrite from_str_digits by (rewrite ?V; done). by rewrite V.
Qed.

Lemma accumulate_range w acc ds n : 0 ≤ acc < 2 ^ w → accumulate w acc ds = Ok n → in_width w n.
Proof.
  revert acc. induction ds as [|c ds IH]; intros acc Ha; cbn [accumulate].
  - intros [= <-]. done.
  - destruct (is_digit c) eqn:Hc; cbn [negb]; [|done]. unfold is_digit in Hc.
    destruct (Z.ltb_spec (acc * 10 + (c - 48)) (2 ^ w)); [|done]. apply IH. lia.
Qed.

Lemma from_str_range w s n : 0 < w → from_str_uint w s = Ok n → in_width w n.
Proof.
  intros Hw. assert (0 < 2 ^ w) by (apply Z.pow_pos_nonneg; lia). unfold from_str_uint.
  repeat (case_match; try done); apply accumulate_range; lia.
Qed.

(** Bytes that are no part of a white-space character *)
Definition word_byte (c : Z) : Prop := 33 ≤ c ≤ 126.

Lemma white_space_word c s : word_byte c → white_space (c :: s) = 0%nat.
Proof.
  unfold word_byte. intros Hc. unfold white_space.
  repeat match goal with |- context [if ?b then _ else _] => replace b with false by lia | _ => case_match end; done.
Qed.

Lemma words_from_word w u s : Forall word_byte u → words_from 0 w (u ++ s) = words_from 0 (w ++ u) s.
Proof.
  intros Hu. revert w. induction Hu as [|c u Hc Hu IH]; intros w; cbn [app]; [by rewrite app_nil_r|].
  cbn [words_from]. rewrite white_space_word by done. rewrite IH. by rewrite <-app_assoc.
Qed.

Lemma split_word_space w s : w ≠ [] → Forall word_byte w → split_whitespace (w ++ 32 :: s) = w :: split_whitespace s.
Proof.
  intros Hne Hw. unfold split_whitespace. rewrite words_from_word by done. cbn [app words_from].
  change (white_space (32 :: s)) with 1%nat. cbn. by destruct w.
Qed.

Lemma split_word w : w ≠ [] → Forall word_byte w → split_whitespace w = [w].
Proof.
  intros Hne Hw. rewrite <-(app_nil_r w). unfold split_whitespace. rewrite words_from_word by done.
  rewrite app_nil_r. cbn. by destruct w.
Qed.

Lemma split_join_words ws :
  Forall (λ w, w ≠ [] ∧ Forall word_byte w) ws → split_whitespace (join_words ws) = ws.
Proof.
  induction 1 as [|w ws [Hne Hw] Hws IH]; [done|]. cbn [join_words]. destruct ws as [|w' ws].
  - by apply split_word.
  - rewrite split_word_space by done. by rewrite IH.
Qed.

Lemma decimal_word n : 0 ≤ n → decimal n ≠ [] ∧ Forall word_byte (decimal n).
Proof.
  intros Hn. destruct (decimal_spec n Hn) as (_ & F & E). split; [done|].
  eapply Forall_impl; [done|]. unfold is_digit, word_byte. intros; cbn in *. lia.
Qed.
