(* ===== verification/Sysfs.v ===== *)
(** * The file system of kernel state ([kernel/src/fs/sysfs.rs])

    [/tasks] has a directory per task, named by its number, with a file [info].  The
    state of the file system is the state of the scheduler. *)
From S2P Require Import Prelude External Addr PhysMem Ext2Dir Vfs Cells Asm Sched.
From stdpp Require Import pretty sorting.
#[local] Open Scope Z_scope.

Inductive SysfsInode : Type :=
| VFSRootInode
| VFSTasksDirectory
| VFSTaskDirectory (task_id : Z)
| VFSTaskInfoFile (task_id : Z).

(** The root is not an entry of a directory. *)
Inductive SysfsEntry : Type :=
| TasksEntry
| TaskEntry (task_id : Z)
| TaskInfoEntry (task_id : Z).

(** [format!("{}", n)] for an unsigned number *)
Definition format_u32 (n : Z) : list Z := str (pretty (Z.to_N n)).

Definition sysfs_read_file (file_content buffer : list Z) (offset : Z) : outcome (FileInodeReadResult * list Z) :=
  let data := file_content in
  let start := offset `min` zlen data in
  e ← uadd 64 offset (zlen buffer);
  let end_ := e `min` zlen data in
  copy_data ← (if start <=? end_ then mret (take (Z.to_nat (end_ - start)) (drop (Z.to_nat start) data))
               else Panic PanicIndex);
  buffer ← (if zlen copy_data <=? zlen buffer then mret (copy_data ++ drop (length copy_data) buffer)
            else Panic PanicIndex);
  mret (if end_ =? zlen data then Done (zlen file_content) else Success, buffer).

Module Sysfs.
Section sysfs.
(** [format!("{:#X?}", task)] *)
Context {R : Type} (debug_task : Task → list Z).
Implicit Types (st : state R).

Definition task_info st (task_id : Z) : list Z :=
  match Tasks.get_task st task_id with
  | None => str "task not found..."
  | Some task => debug_task task
  end.

Definition subdirectories st (i : SysfsInode) : outcome (list SysfsEntry * state R) :=
  match i with
  | VFSRootInode => mret ([TasksEntry], st)
  | VFSTasksDirectory => mret (TaskEntry <$> Tasks.task_ids st, st)
  | VFSTaskDirectory task_id => mret ([TaskInfoEntry task_id], st)
  | VFSTaskInfoFile _ => Panic Undefined
  end.

Definition entry_name (e : SysfsEntry) : list Z :=
  match e with
  | TasksEntry => str "tasks"
  | TaskEntry task_id => format_u32 task_id
  | TaskInfoEntry _ => str "info"
  end.

Definition entry_type (e : SysfsEntry) : DirectoryEntryType :=
  match e with TasksEntry | TaskEntry _ => EntryDirectory | TaskInfoEntry _ => EntryFile end.

Definition get_inode st (e : SysfsEntry) : outcome (inode_type SysfsInode) :=
  mret (match e with
        | TasksEntry => Directory VFSTasksDirectory
        | TaskEntry task_id => Directory (VFSTaskDirectory task_id)
        | TaskInfoEntry task_id => File (VFSTaskInfoFile task_id)
        end).

Definition read_file st (i : SysfsInode) (buffer : list Z) (offset : Z) : outcome (FileInodeReadResult * list Z) :=
  match i with
  | VFSTaskInfoFile task_id => sysfs_read_file (task_info st task_id) buffer offset
  | _ => Panic Undefined
  end.

Definition sysfs : Vfs (state R) SysfsInode SysfsEntry := {|
  Vfs.read_root := λ _, mret (Directory VFSRootInode);
  Vfs.read_file := read_file;
  Vfs.write_file := default_write;
  Vfs.subdirectories := subdirectories;
  Vfs.create_file := default_create_file;
  Vfs.entry_name := entry_name;
  Vfs.entry_type := entry_type;
  Vfs.get_inode := get_inode;
|}.
End sysfs.
End Sysfs.

(** ** Reading a file *)
Section read.
Context {R : Type} (debug_task : Task → list Z).
Implicit Types (st : state R).
#[local] Instance sysfs_here : Vfs (state R) SysfsInode SysfsEntry := Sysfs.sysfs debug_task.

Lemma sysfs_read_chunk (content buffer : list Z) offset :
  0 ≤ offset → offset + zlen buffer < 2 ^ 64 → offset + zlen buffer < zlen content →
  sysfs_read_file content buffer offset = Ret (Success, take (length buffer) (drop (Z.to_nat offset) content)).
Proof.
  unfold zlen. intros Ho Hb Hl. unfold sysfs_read_file, zlen. rewrite uadd_ok by lia. run_monad.
  rewrite !Z.min_l by lia. destruct (Z.leb_spec offset (offset + Z.of_nat (length buffer))); [|lia]. run_monad.
  replace (Z.to_nat (offset + Z.of_nat (length buffer) - offset)) with (length buffer) by lia.
  rewrite length_take_le by (rewrite length_drop; lia). destruct (Z.leb_spec (Z.of_nat (length buffer)) (Z.of_nat (length buffer))); [|lia].
  run_monad. rewrite drop_all, app_nil_r. destruct (Z.eqb_spec (offset + Z.of_nat (length buffer)) (Z.of_nat (length content))); [lia|done].
Qed.

Lemma sysfs_read_end (content buffer : list Z) offset :
  0 ≤ offset ≤ zlen content → offset + zlen buffer < 2 ^ 64 → zlen content ≤ offset + zlen buffer →
  sysfs_read_file content buffer offset =
    Ret (Done (zlen content), drop (Z.to_nat offset) content ++ drop (length content - Z.to_nat offset) buffer).
Proof.
  unfold zlen. intros Ho Hb Hl. unfold sysfs_read_file, zlen. rewrite uadd_ok by lia. run_monad.
  rewrite (Z.min_l offset), (Z.min_r (offset + _)) by lia. destruct (Z.leb_spec offset (Z.of_nat (length content))); [|lia]. run_monad.
  rewrite take_ge by (rewrite length_drop; lia). rewrite length_drop.
  destruct (Z.leb_spec (Z.of_nat (length content - Z.to_nat offset)) (Z.of_nat (length buffer))); [|lia].
  run_monad. by rewrite Z.eqb_refl.
Qed.

Lemma read_all_loop_ok st id fuel : ∀ offset,
  let content := Sysfs.task_info debug_task st id in
  zlen content + 4096 < 2 ^ 64 → offset = 0 ∨ 4096 ≤ offset < zlen content → zlen content < offset + 4096 * Z.of_nat fuel →
  VfsOps.read_all_loop fuel st (VFSTaskInfoFile id) (take (Z.to_nat offset) content) offset =
    if zlen content <=? 4096 then Ret content else Panic PanicIndex.
Proof.
  induction fuel as [|fuel IH]; intros offset content Hb Ho Hf; [pose proof (zlen_nonneg content); lia|].
  cbn [VfsOps.read_all_loop]. cbn [Vfs.read_file sysfs_here Sysfs.sysfs]. unfold Sysfs.read_file. fold content.
  set (rb := replicate (Z.to_nat VfsOps.READ_BUFFER_SIZE) 0).
  assert (Hrb : length rb = 4096%nat) by (unfold rb; by rewrite length_replicate).
  assert (Hzb : zlen rb = 4096) by (unfold zlen; by rewrite Hrb).
  pose proof (zlen_nonneg content). destruct (Z.lt_ge_cases (offset + 4096) (zlen content)) as [Hlt|Hge].
  - rewrite sysfs_read_chunk by lia. rewrite Hrb. run_monad.
    assert (Hl : zlen (take 4096 (drop (Z.to_nat offset) content)) = 4096).
    { unfold zlen in *. rewrite length_take_le; [lia|]. rewrite length_drop. lia. }
    rewrite Hl, uadd_ok by lia. run_monad.
    assert (take (Z.to_nat offset) content ++ take 4096 (drop (Z.to_nat offset) content) = take (Z.to_nat (offset + 4096)) content) as ->.
    { rewrite take_take_drop. f_equal. lia. }
    specialize (IH (offset + 4096)). cbv zeta in IH. fold content in IH. apply IH; lia.
  - rewrite sysfs_read_end by lia. run_monad.
    assert (Hl : zlen (drop (Z.to_nat offset) content ++ drop (length content - Z.to_nat offset) rb) = 4096).
    { unfold zlen in *. rewrite length_app, !length_drop. lia. }
    rewrite Hl. destruct (Z.leb_spec (zlen content) 4096); [|done].
    assert (offset = 0) as -> by lia. change (Z.to_nat 0) with 0%nat. rewrite take_0, drop_0. cbn [app].
    unfold zlen. by rewrite Nat2Z.id, take_app_length.
Qed.

(** C40: Reading all of a task's [info] always ends: it gives the text when that fits into one
    buffer of 4096 bytes, and panics when it does not, because the last piece reports the
    length of the whole text as the number of bytes read. *)
Theorem sysfs_read_all st id fuel :
  zlen (Sysfs.task_info debug_task st id) + 4096 < 2 ^ 64 →
  zlen (Sysfs.task_info debug_task st id) < 4096 * Z.of_nat fuel →
  VfsOps.read_all fuel st (VFSTaskInfoFile id) =
    if zlen (Sysfs.task_info debug_task st id) <=? 4096 then Ret (Sysfs.task_info debug_task st id) else Panic PanicIndex.
Proof. intros Hb Hf. apply (read_all_loop_ok st id fuel 0); [done|by left|lia]. Qed.

(** ** Finding a file *)
Lemma str_inj s1 s2 : str s1 = str s2 → s1 = s2.
Proof.
  revert s2. induction s1 as [|c s1 IH]; intros [|c2 s2]; try done. unfold str. cbn [String.list_ascii_of_string].
  rewrite !fmap_cons. intros [= E1 E2]. f_equal; [|by apply IH].
  rewrite <-(Ascii.ascii_nat_embedding c), <-(Ascii.ascii_nat_embedding c2). f_equal. lia.
Qed.

Lemma format_u32_inj a b : 0 ≤ a → 0 ≤ b → format_u32 a = format_u32 b → a = b.
Proof. intros Ha Hb E%str_inj%(inj pretty). lia. Qed.

Lemma elem_of_task_ids st id : id ∈ Tasks.task_ids st ↔ is_Some (tasks st !! id).
Proof.
  unfold Tasks.task_ids. rewrite merge_sort_Permutation, elem_of_elements. apply elem_of_dom.
Qed.

Lemma find_task_entry (l : list Z) id :
  Forall (λ i, 0 ≤ i) l → 0 ≤ id →
  VfsOps.find_entry (TaskEntry <$> l) (format_u32 id) = if bool_decide (id ∈ l) then Some (TaskEntry id) else None.
Proof.
  unfold VfsOps.find_entry. intros Hl Hid. induction Hl as [|i l Hi Hl IH]; [done|].
  rewrite fmap_cons. cbn [list_find]. change (Vfs.entry_name (TaskEntry i)) with (format_u32 i).
  destruct (decide (format_u32 i = format_u32 id)) as [E|E].
  - apply format_u32_inj in E as ->; [|done..]. by rewrite bool_decide_true by left.
  - assert (Hne : i ≠ id) by congruence. rewrite (bool_decide_ext _ (id ∈ l)) by (rewrite elem_of_cons; naive_solver).
    rewrite <-IH. by destruct (list_find _ _) as [[? ?]|].
Qed.

(** Looking up [/tasks/<id>/info] finds the file of the task exactly when there is a task
    with that number. *)
Theorem sysfs_lookup st id :
  (∀ i, is_Some (tasks st !! i) → 0 ≤ i) → 0 ≤ id →
  VfsOps.get_path_inode (Some st) (FilePath.mk true [str "tasks"; format_u32 id; str "info"]) =
    Ret (if bool_decide (is_Some (tasks st !! id)) then Ok (File (VFSTaskInfoFile id)) else Err VfsOps.NotFound, Some st).
Proof.
  intros Hk Hid. unfold VfsOps.get_path_inode, VfsOps.traverse_path. cbn [FilePath.absolute FilePath.components negb].
  assert (E : VfsOps.traverse st (Directory VFSRootInode) [str "tasks"; format_u32 id; str "info"] =
    Ret (if bool_decide (is_Some (tasks st !! id)) then Some (File (VFSTaskInfoFile id)) else None, st)).
  { cbn [VfsOps.traverse Vfs.subdirectories sysfs_here Sysfs.sysfs Sysfs.subdirectories]. run_monad.
    change (VfsOps.find_entry [TasksEntry] (str "tasks")) with (Some TasksEntry).
    cbn [Vfs.get_inode sysfs_here Sysfs.sysfs].
    change (Sysfs.get_inode st TasksEntry) with (Ret (Directory VFSTasksDirectory)). run_monad.
    change (Sysfs.subdirectories st VFSTasksDirectory) with (Ret (TaskEntry <$> Tasks.task_ids st, st)). run_monad.
    rewrite find_task_entry; [|apply Forall_forall; intros i Hi; apply Hk; by apply elem_of_task_ids|done].
    rewrite (bool_decide_ext _ (is_Some (tasks st !! id))) by apply elem_of_task_ids.
    case_bool_decide; [|by run_monad]. run_monad. done. }
  cbn [Vfs.read_root sysfs_here Sysfs.sysfs]. run_monad. rewrite E. run_monad. by case_bool_decide.
Qed.
End read.

(** A task table with the task 3; its text is a line, or longer than a buffer. *)
Definition demo_task : Task :=
  mkTask 3 "demo" task_registers_default (AtomicEnum.new ReadyToRun) 0 (AtomicInt.new 0) 0.
Definition demo_tasks : state unit := mkState 4 {[3 := demo_task]} ∅ [] false ∅ ∅ [] tt.

Lemma sysfs_lookup_witness :
  VfsOps.get_path_inode (Vfs0 := Sysfs.sysfs (λ _, str "Task")) (Some demo_tasks)
    (FilePath.mk true [str "tasks"; str "3"; str "info"]) = Ret (Ok (File (VFSTaskInfoFile 3)), Some demo_tasks).
Proof.
  change (str "3") with (format_u32 3). etrans; [apply (sysfs_lookup (λ _, str "Task") demo_tasks 3); [|lia]|reflexivity].
  intros i [t Ht]. cbn in Ht. apply lookup_singleton_Some in Ht as [<- _]. lia.
Defined.

Lemma sysfs_read_all_witness :
  VfsOps.read_all (Vfs0 := Sysfs.sysfs (λ _, replicate 5000 65)) 2 demo_tasks (VFSTaskInfoFile 3) = Panic PanicIndex.
Proof. etrans; [by apply (sysfs_read_all (λ _, replicate 5000 65) demo_tasks 3 2)|reflexivity]. Defined.
