(* ===== verification/Registers.v ===== *)
(** * Device registers ([kernel/src/registers.rs])

    Registers are memory that a device answers for.  [Bus] is reading and writing them:
    both can change the state of the devices.  The bit fields of a register are declared
    with the [bitfield_struct] crate: a declaration is its list of fields from the lowest
    bit up, and [BitfieldCrate] is what the crate generates for a field. *)
From S2P Require Import Prelude External Addr.
#[local] Open Scope Z_scope.

(** ** The [bitfield_struct] crate *)
Definition bitfield : Type := list (string * Z).

(** Where a field is: its lowest bit and its width. *)
Fixpoint field_from (offset : Z) (b : bitfield) (name : string) : option (Z * Z) :=
  match b with
  | [] => None
  | (n, w) :: b => if decide (n = name) then Some (offset, w) else field_from (offset + w) b name
  end.

Class BitfieldCrate : Type := {
  field_get : Z → Z → Z → Z;           (** of an offset, a width and the raw value *)
  field_with : Z → Z → Z → Z → outcome Z;  (** and the new value of the field *)
}.

Definition replace_bits (offset width raw v : Z) : Z :=
  Z.lor (Z.ldiff raw (Z.shiftl (Z.ones width) offset)) (Z.shiftl v offset).

Class BitfieldCrateLaws `{!BitfieldCrate} : Prop := {
  field_get_ok o w raw : 0 ≤ o → 0 ≤ w → field_get o w raw = Z.land (Z.shiftr raw o) (Z.ones w);
  (** a value that fits its field *)
  field_with_ok o w raw v : 0 ≤ o → 0 ≤ w → 0 ≤ v < 2 ^ w → field_with o w raw v = Ret (replace_bits o w raw v);
}.

#[local] Instance documented_bitfield : BitfieldCrate := {|
  field_get o w raw := Z.land (Z.shiftr raw o) (Z.ones w);
  field_with o w raw v := if (0 <=? v) && (v <? 2 ^ w) then Ret (replace_bits o w raw v) else Panic PanicAssert;
|}.

#[local] Instance documented_bitfield_laws : BitfieldCrateLaws.
Proof.
  split; [done|]. intros o w raw v _ _ Hv. cbn.
  by replace ((0 <=? v) && (v <? 2 ^ w)) with true by (symmetry; apply andb_true_iff; lia).
Qed.

Section fields.
Context {bc : BitfieldCrate}.

(** [raw.name()] and [raw.with_name(v)]; [raw.set_name(v)] assigns the latter *)
Definition get (b : bitfield) (name : string) (raw : Z) : Z :=
  match field_from 0 b name with Some (o, w) => field_get o w raw | None => 0 end.
Definition with_ (b : bitfield) (name : string) (v raw : Z) : outcome Z :=
  match field_from 0 b name with Some (o, w) => field_with o w raw v | None => Panic Undefined end.

(** The value that [with_name] returns when [v] fits the field. *)
Definition fits (b : bitfield) (name : string) (v : Z) : bool :=
  match field_from 0 b name with Some (o, w) => (0 <=? v) && (v <? 2 ^ w) | None => false end.
Definition set_ (b : bitfield) (name : string) (v raw : Z) : Z :=
  match field_from 0 b name with Some (o, w) => replace_bits o w raw v | None => raw end.
Definition widths_ok (b : bitfield) : bool := forallb (λ f, 0 <=? f.2) b.

Definition get_bool (b : bitfield) (name : string) (raw : Z) : bool := negb (get b name raw =? 0).
Definition with_bool (b : bitfield) (name : string) (v : bool) (raw : Z) : outcome Z := with_ b name (Z.b2z v) raw.
End fields.

(** ** The bus *)
Class Bus (D : Type) : Type := {
  bus_read : Z → Z → D → Z * D;      (** of a number of bytes and an address *)
  bus_write : Z → Z → Z → D → D;
}.

(** The registers of a [register_struct!] are at offsets from its address. *)
Definition register (address offset : Z) : outcome Z := KernPhysAddr.add address offset.

Module RegisterRW.
Section rw.
Context {D : Type} `{!Bus D}.
Implicit Types (d : D).

Definition read (bytes address : Z) d : outcome (Z * D) := mret (bus_read bytes address d).
Definition write (bytes address val : Z) d : outcome D := mret (bus_write bytes address val d).
Definition modify_mut (bytes address : Z) (f : Z → outcome Z) d : outcome D :=
  '(val, d) ← read bytes address d;
  val ← f val;
  write bytes address val d.
End rw.
End RegisterRW.

Section access.
Context {D : Type} `{!Bus D}.
Implicit Types (d : D).

(** [self.registers.name().read()], [.write(v)], [.modify_mut(f)] *)
Definition read_at_reg (bytes address offset : Z) d : outcome (Z * D) :=
  a ← register address offset; RegisterRW.read bytes a d.
Definition write_at_reg (bytes address offset val : Z) d : outcome D :=
  a ← register address offset; RegisterRW.write bytes a val d.
Definition modify_at_reg (bytes address offset : Z) (f : Z → outcome Z) d : outcome D :=
  a ← register address offset; RegisterRW.modify_mut bytes a f d.

Lemma register_ok address offset : 0 ≤ address → 0 ≤ offset →
  KERNEL_PHYSICAL_MAPPING_START ≤ address → address + offset ≤ KERNEL_PHYSICAL_MAPPING_END →
  register address offset = Ret (address + offset).
Proof.
  intros H1 H2 H3 H4. unfold register, KernPhysAddr.add. rewrite uadd_ok by (unfold KERNEL_PHYSICAL_MAPPING_END in H4; lia).
  run_monad. apply kern_new_ok, in_mapping_spec. lia.
Qed.
End access.

(** ** Fields after an update *)
Section laws.
Context {bc : BitfieldCrate} {bcl : BitfieldCrateLaws}.

Lemma testbit_field o w raw i : 0 ≤ o → 0 ≤ w → 0 ≤ i →
  Z.testbit (Z.land (Z.shiftr raw o) (Z.ones w)) i = (i <? w) && Z.testbit raw (i + o).
Proof.
  intros. rewrite Z.land_spec, Z.shiftr_spec, Z.testbit_ones by lia.
  replace (0 <=? i) with true by lia. apply andb_comm.
Qed.

Lemma testbit_replace o w raw v i : 0 ≤ o → 0 ≤ w → 0 ≤ v < 2 ^ w → 0 ≤ i →
  Z.testbit (replace_bits o w raw v) i = if (o <=? i) && (i <? o + w) then Z.testbit v (i - o) else Z.testbit raw i.
Proof.
  intros Ho Hw Hv Hi. unfold replace_bits. rewrite Z.lor_spec, Z.ldiff_spec, !Z.shiftl_spec by lia.
  destruct (Z.leb_spec o i); cbn [andb].
  - rewrite Z.testbit_ones by lia. replace (0 <=? i - o) with true by lia. cbn [andb].
    destruct (Z.ltb_spec (i - o) w), (Z.ltb_spec i (o + w)); try lia; cbn [negb].
    by rewrite andb_true_r, (testbit_high w v), orb_false_r by (done || lia).
  - rewrite !(Z.testbit_neg_r _ (i - o)) by lia. cbn [negb]. by rewrite andb_true_r, orb_false_r.
Qed.

Lemma field_replaced o w raw v o' w' : 0 ≤ o → 0 ≤ w → 0 ≤ v < 2 ^ w → 0 ≤ o' → 0 ≤ w' →
  (o' = o ∧ w' = w) ∨ o + w ≤ o' ∨ o' + w' ≤ o →
  field_get o' w' (replace_bits o w raw v) = if (o' =? o) && (w' =? w) then v else field_get o' w' raw.
Proof.
  intros Ho Hw Hv Ho' Hw' Hd. rewrite !field_get_ok by done. apply Z.bits_inj'. intros i Hi.
  rewrite testbit_field, testbit_replace by lia. destruct ((o' =? o) && (w' =? w)) eqn:E.
  - assert (o' = o ∧ w' = w) as [-> ->] by lia. replace (i + o - o) with i by lia.
    destruct (Z.ltb_spec i w); cbn [andb].
    + by replace ((o <=? i + o) && (i + o <? o + w)) with true by lia.
    + symmetry. apply (testbit_high w); [done|lia].
  - rewrite testbit_field by lia. destruct (Z.ltb_spec i w'); [|done]. cbn [andb].
    destruct ((o <=? i + o') && (i + o' <? o + w)) eqn:E2; [|done]. exfalso. lia.
Qed.

Lemma field_zero o w : 0 ≤ o → 0 ≤ w → field_get o w 0 = 0.
Proof. intros. by rewrite field_get_ok, Z.shiftr_0_l, Z.land_0_l. Qed.

Lemma replaced_width n o w raw v : 0 ≤ o → 0 ≤ w → o + w ≤ n → 0 ≤ v < 2 ^ w → in_width n raw →
  in_width n (replace_bits o w raw v).
Proof.
  intros Ho Hw Hn Hv Hr. apply in_width_testbit; [lia| |].
  - unfold replace_bits. apply Z.lor_nonneg. split; [apply Z.ldiff_nonneg; left; apply Hr|apply Z.shiftl_nonneg; lia].
  - intros i Hi. rewrite testbit_replace by lia. replace ((o <=? i) && (i <? o + w)) with false by lia.
    apply (testbit_high n); [done|lia].
Qed.
Lemma field_from_bounds n o b x w : widths_ok b = true → field_from o b n = Some (x, w) →
  o ≤ x ∧ 0 ≤ w ∧ x + w ≤ o + foldr (λ f acc, f.2 + acc) 0 b ∧ 0 ≤ foldr (λ f acc, f.2 + acc) 0 b.
Proof.
  revert o. induction b as [|[m k] b IH]; intros o; cbn; [done|]. rewrite andb_true_iff. intros [Hk Hb].
  assert (0 ≤ foldr (λ f acc, f.2 + acc) 0 b).
  { clear IH. induction b as [|[m' k'] b IHb]; cbn in *; [done|]. apply andb_true_iff in Hb as [? Hb]. specialize (IHb Hb). lia. }
  case_decide; [intros [= <- <-]; lia|]. intros Hf. apply IH in Hf; [|done]. lia.
Qed.

Lemma field_from_disjoint n n' o b x w x' w' : widths_ok b = true → n ≠ n' →
  field_from o b n = Some (x, w) → field_from o b n' = Some (x', w') → x + w ≤ x' ∨ x' + w' ≤ x.
Proof.
  intros Hb Hn. revert o Hb. induction b as [|[m k] b IH]; intros o; cbn [field_from]; [done|].
  unfold widths_ok. cbn [forallb snd]. rewrite andb_true_iff. intros [Hk Hb].
  destruct (decide (m = n)), (decide (m = n')); subst; try done.
  - intros [= <- <-] H2. apply field_from_bounds in H2; [lia|done].
  - intros H2 [= <- <-]. apply field_from_bounds in H2; [lia|done].
  - by apply IH.
Qed.

Lemma fits_ok b n o w v : field_from 0 b n = Some (o, w) → 0 ≤ v < 2 ^ w → fits b n v = true.
Proof. intros E Hv. unfold fits. rewrite E. lia. Qed.

Lemma with_fits b n v raw : widths_ok b = true → fits b n v = true → with_ b n v raw = Ret (set_ b n v raw).
Proof.
  unfold fits, with_, set_. intros Hb. destruct (field_from 0 b n) as [[o w]|] eqn:E; [|done]. intros Hv.
  apply field_from_bounds in E; [|done]. apply field_with_ok; lia.
Qed.

(** A field that was set is read back, and the other fields keep their values. *)
Lemma get_set b n n' v raw : widths_ok b = true → fits b n v = true →
  get b n' (set_ b n v raw) = if decide (n' = n) then v else get b n' raw.
Proof.
  unfold fits, get, set_. intros Hb. destruct (field_from 0 b n) as [[o w]|] eqn:E; [|done]. intros Hv.
  pose proof (field_from_bounds _ _ _ _ _ Hb E). destruct (decide (n' = n)) as [->|Hn].
  - rewrite E, field_replaced by lia. by rewrite !Z.eqb_refl.
  - destruct (field_from 0 b n') as [[o' w']|] eqn:E'; [|done]. pose proof (field_from_bounds _ _ _ _ _ Hb E').
    pose proof (field_from_disjoint _ _ _ _ _ _ _ _ Hb Hn E' E).
    destruct (decide (o' = o ∧ w' = w)) as [[-> ->]|Hne].
    + assert (w = 0) as -> by lia. rewrite !field_get_ok by lia. change (Z.ones 0) with 0. by rewrite !Z.land_0_r.
    + rewrite field_replaced by lia. by replace ((o' =? o) && (w' =? w)) with false by lia.
Qed.

Lemma set_width m b n v raw : widths_ok b = true → fits b n v = true → foldr (λ f acc, f.2 + acc) 0 b ≤ m →
  in_width m raw → in_width m (set_ b n v raw).
Proof.
  unfold fits, set_. intros Hb. destruct (field_from 0 b n) as [[o w]|] eqn:E; [|done]. intros Hv Hm Hr.
  apply field_from_bounds in E; [|done]. apply replaced_width; [lia..|done].
Qed.

Lemma get_zero b n : widths_ok b = true → get b n 0 = 0.
Proof.
  unfold get. intros Hb. destruct (field_from 0 b n) as [[o w]|] eqn:E; [|done].
  apply field_from_bounds in E; [|done]. apply field_zero; lia.
Qed.

(** A field depends on its bits only. *)
Lemma get_ext b n o w raw raw' : field_from 0 b n = Some (o, w) → 0 ≤ o → 0 ≤ w →
  (∀ i, o ≤ i < o + w → Z.testbit raw i = Z.testbit raw' i) → get b n raw = get b n raw'.
Proof.
  intros E Ho Hw Hi. unfold get. rewrite E, !field_get_ok by done. apply Z.bits_inj'. intros i H0. rewrite !testbit_field by lia.
  destruct (Z.ltb_spec i w); [|done]. cbn [andb]. apply Hi. lia.
Qed.

Lemma get_bound b n o w raw : field_from 0 b n = Some (o, w) → 0 ≤ o → 0 ≤ w → 0 ≤ get b n raw < 2 ^ w.
Proof. intros E Ho Hw. unfold get. rewrite E, field_get_ok, Z.land_ones by done. by apply Z.mod_pos_bound, Z.pow_pos_nonneg. Qed.

Lemma get_1 b n o raw : field_from 0 b n = Some (o, 1) → 0 ≤ o → get_bool b n raw = Z.testbit raw o.
Proof.
  intros E Ho. unfold get_bool, get. rewrite E, field_get_ok by lia. change (Z.ones 1) with (Z.ones (Z.succ 0)).
  rewrite Z.land_ones by lia. change (2 ^ Z.succ 0) with 2. rewrite <-Z.bit0_mod, Z.shiftr_spec, Z.add_0_l by lia.
  by destruct (Z.testbit raw o).
Qed.
End laws.

(** [with_fields] runs the updates of the fields of a register; [get_fields] reads the
    fields of the result. *)
Ltac fits := first [reflexivity | eapply fits_ok; [reflexivity|try lia]].
Ltac with_fields := unfold with_bool; repeat (rewrite with_fits; [run_monad|reflexivity|fits]).
Ltac get_fields := unfold get_bool; repeat (rewrite get_set; [|reflexivity|fits]; cbn -[get]); rewrite ?get_zero by reflexivity.
