(* ===== verification/Interrupts.v ===== *)
(** * Interrupts ([kernel/src/interrupts.rs], [kernel/src/apic.rs])

    The interrupt descriptor table, the table of handlers for external interrupts, and
    the local APIC.  A handler works on the scheduler and on the devices; which handler
    belongs to which vector is in a table of its own. *)
From S2P Require Import Prelude AllocSpec External Addr PhysMem Cells Asm Sched KStack Registers.
#[local] Open Scope Z_scope.

Definition FIRST_EXTERNAL_INTERRUPT_VECTOR : Z := 32.
Definition NUM_INTERRUPT_VECTORS : Z := 256.
Definition MASTER_PIC_OFFSET : Z := FIRST_EXTERNAL_INTERRUPT_VECTOR.
Definition SLAVE_PIC_OFFSET : Z := MASTER_PIC_OFFSET + 8.
Definition APIC_INTERRUPT_START_OFFSET : Z := SLAVE_PIC_OFFSET + 8.
Definition SPURIOUS_INTERRUPT_VECTOR_INDEX : Z := 0xff.

Inductive ReservedInterruptVector : Type := CPUTick | LastReserved.
Definition reserved_as_u8 (v : ReservedInterruptVector) : Z :=
  match v with CPUTick => APIC_INTERRUPT_START_OFFSET | LastReserved => APIC_INTERRUPT_START_OFFSET + 1 end.

(** ** The local APIC ([apic.rs]) *)
Definition SpuriousInterruptVector : bitfield :=
  [("vector", 8); ("apic_enabled", 1); ("focus_processor_checking", 1); ("__reserved", 2);
   ("eoi_broadcast_suppression", 1); ("__reserved2", 19)]%string.
Definition APICIdRegister : bitfield := [("__reserved", 24); ("id", 8)]%string.
Definition InterruptCommandLowBits : bitfield :=
  [("vector", 8); ("delivery_mode", 3); ("destination_mode", 1); ("delivery_status", 1); ("__reserved", 1);
   ("level", 1); ("trigger_mode", 1); ("__reserved2", 2); ("destination_shorthand", 2); ("__reserved3", 12)]%string.

Inductive InterruptCommandDeliveryMode : Type :=
| Fixed | LowestPriority1 | SMI | Reserved1 | NMI | INIT | StartUp | Reserved2.
Definition delivery_mode_as_u32 (m : InterruptCommandDeliveryMode) : Z :=
  match m with
  | Fixed => 0 | LowestPriority1 => 1 | SMI => 2 | Reserved1 => 3 | NMI => 4 | INIT => 5 | StartUp => 6 | Reserved2 => 7
  end.
Definition delivery_mode_from (value : Z) : outcome InterruptCommandDeliveryMode :=
  match value with
  | 0 => mret Fixed | 1 => mret LowestPriority1 | 2 => mret SMI | 3 => mret Reserved1 | 4 => mret NMI
  | 5 => mret INIT | 6 => mret StartUp | 7 => mret Reserved2 | _ => Panic PanicExplicit
  end.
Inductive InterruptCommandDestinationMode : Type := Physical | Logical.
Definition destination_mode_as_u32 (m : InterruptCommandDestinationMode) : Z :=
  match m with Physical => 0 | Logical => 1 end.
Inductive InterruptCommandLevel : Type := DeAssert | Assert.
Definition level_as_u32 (l : InterruptCommandLevel) : Z := match l with DeAssert => 0 | Assert => 1 end.
Inductive InterruptCommandDestinationShorthand : Type := NoShorthand | DestSelf | AllIncludingSelf | AllExcludingSelf.
Definition shorthand_as_u32 (s : InterruptCommandDestinationShorthand) : Z :=
  match s with NoShorthand => 0 | DestSelf => 1 | AllIncludingSelf => 2 | AllExcludingSelf => 3 end.

(** [LOCAL_APIC]: the address of its registers, once known *)
Module LocalAPIC.
Section apic.
Context {D : Type} `{!Bus D} {bc : BitfieldCrate}.
Implicit Types (apic : option Z) (d : D).

Definition enable (registers : Z) d : outcome D :=
  modify_at_reg 4 registers 0xf0 (λ vec,
    vec ← with_ SpuriousInterruptVector "vector" SPURIOUS_INTERRUPT_VECTOR_INDEX vec;
    with_bool SpuriousInterruptVector "apic_enabled" true vec) d.

Definition per_cpu_init apic d : outcome D := registers ← expect apic; enable registers d.

Definition end_of_interrupt apic d : outcome D :=
  registers ← expect apic;
  write_at_reg 4 registers 0xb0 0 d.

Definition lapic_id apic d : outcome (Z * D) :=
  registers ← expect apic;
  '(v, d) ← read_at_reg 4 registers 0x20 d;
  mret (get APICIdRegister "id" v, d).

Definition send_ipi_all_cpus apic (vector : Z) d : outcome D :=
  registers ← expect apic;
  v ← with_ InterruptCommandLowBits "delivery_mode" (delivery_mode_as_u32 Fixed) 0;
  v ← with_ InterruptCommandLowBits "destination_mode" (destination_mode_as_u32 Logical) v;
  v ← with_ InterruptCommandLowBits "destination_shorthand" (shorthand_as_u32 AllIncludingSelf) v;
  v ← with_ InterruptCommandLowBits "level" (level_as_u32 Assert) v;
  v ← with_ InterruptCommandLowBits "vector" vector v;
  write_at_reg 4 registers 0x300 v d.
End apic.
End LocalAPIC.

(** ** [interrupts.rs] *)
Inductive exception : Type :=
| DivideError | DebugException | NonMaskableInterrupt | Breakpoint | Overflow | BoundRangeExceeded | InvalidOpcode
| DeviceNotAvailable | DoubleFault | InvalidTss | SegmentNotPresent | StackSegmentFault | GeneralProtectionFault
| PageFault | X87FloatingPoint | AlignmentCheck | MachineCheck | SimdFloatingPoint | Virtualization
| VmmCommunication | SecurityException.

(** An entry of the IDT: the handler, its stack in the TSS if it has one, and whether
    user mode may raise it. *)
Inductive gate : Type :=
| GateMissing
| GateException (e : exception) (stack_index : option Z) (ring3 : bool)
| GateStub (vector : Z).

#[export] Instance exception_eq_dec : EqDecision exception.
Proof. solve_decision. Defined.
#[export] Instance gate_eq_dec : EqDecision gate.
Proof. solve_decision. Defined.

(** [gdt.rs] *)
Definition DOUBLE_FAULT_IST_INDEX : Z := 0.
Definition PAGE_FAULT_IST_INDEX : Z := 1.

Module Interrupts.

(** The fields of the [InterruptDescriptorTable] that [init_idt] sets, at their vectors. *)
Definition exception_gates : list (nat * gate) :=
  [(0, GateException DivideError None false); (1, GateException DebugException None false);
   (2, GateException NonMaskableInterrupt None false); (3, GateException Breakpoint None true);
   (4, GateException Overflow None false); (5, GateException BoundRangeExceeded None false);
   (6, GateException InvalidOpcode None false); (7, GateException DeviceNotAvailable None false);
   (8, GateException DoubleFault (Some DOUBLE_FAULT_IST_INDEX) false); (10, GateException InvalidTss None false);
   (11, GateException SegmentNotPresent None false); (12, GateException StackSegmentFault None false);
   (13, GateException GeneralProtectionFault None false); (14, GateException PageFault (Some PAGE_FAULT_IST_INDEX) false);
   (16, GateException X87FloatingPoint None false); (17, GateException AlignmentCheck None false);
   (18, GateException MachineCheck None false); (19, GateException SimdFloatingPoint None false);
   (20, GateException Virtualization None false); (29, GateException VmmCommunication None false);
   (30, GateException SecurityException None false)]%nat.

(** [seq!(N in 32..255 { external_stub_interrupt_handler!(idt N); })] *)
Definition stub_gates : list (nat * gate) := (λ n, (n, GateStub (Z.of_nat n))) <$> seq 32 (255 - 32).

Definition init_idt : list gate :=
  foldl (λ idt '(i, g), <[i := g]> idt) (replicate 256 GateMissing) (exception_gates ++ stub_gates).

Section interrupts.
Context {R D : Type} `{!TaskMemory R, !Bus D} {bc : BitfieldCrate} {x86 : X86_64}.

Record kernel : Type := mkKernel { k_sched : state R; k_devices : D }.

(** [InterruptHandler]: of the vector and the handler's id *)
Definition handler : Type := Z → Z → kernel → outcome kernel.

Definition default_external_interrupt_handler : handler := λ _ _ _, Panic PanicExplicit.

(** [EXTERNAL_INTERRUPT_HANDLERS] and [NEXT_OPEN_INTERRUPT_INDEX] *)
Record table : Type := mkTable { handlers : list (Z * handler); next_open : Z }.

Definition initial_table : table :=
  mkTable (replicate (Z.to_nat NUM_INTERRUPT_VECTORS) (0, default_external_interrupt_handler)) (reserved_as_u8 LastReserved).

Definition install_interrupt (interrupt_vector : option Z) (interrupt_id : Z) (h : handler) (t : table)
  : outcome (Z * table) :=
  let '(v, t) := match interrupt_vector with
                 | Some v => (v, t)
                 | None => (next_open t, mkTable (handlers t) (wrap 8 (next_open t + 1)))
                 end in
  _ ← assert_ (v <? SPURIOUS_INTERRUPT_VECTOR_INDEX);
  hs ← (if v <? zlen (handlers t) then mret (<[Z.to_nat v := (interrupt_id, h)]> (handlers t)) else Panic PanicIndex);
  mret (v, mkTable hs (next_open t)).

Definition install_interrupt_next_vector (interrupt_id : Z) (h : handler) (t : table) : outcome (Z * table) :=
  install_interrupt None interrupt_id h t.

Definition install_interrupt_reserved_vector (interrupt_vector : ReservedInterruptVector) (interrupt_id : Z) (h : handler)
    (t : table) : outcome table :=
  '(_, t) ← install_interrupt (Some (reserved_as_u8 interrupt_vector)) interrupt_id h t;
  mret t.

(** *** The GS base

    [swapgs] exchanges the base in use with the one in [KernelGsBase]. *)
Record gs_bases : Type := mkGs { gs_base : Z; kernel_gs_base : Z }.
Definition swapgs (g : gs_bases) : gs_bases := mkGs (kernel_gs_base g) (gs_base g).

Definition gsbase_is_kernel (g : gs_bases) : bool := HIGHER_HALF_START <=? gs_base g.

(** The closure answers whether it switched to another task: then what comes after it
    runs when this task is resumed. *)
Definition with_swapgs_accounting (f : gs_bases → kernel → outcome (bool * kernel)) (g : gs_bases) (k : kernel)
  : outcome (bool * gs_bases * kernel) :=
  let came_from_kernel := gsbase_is_kernel g in
  let g := if came_from_kernel then g else swapgs g in
  '(switched, k) ← f g k;
  let g := if came_from_kernel || (switched : bool) then g else swapgs g in
  mret (switched, g, k).

Definition common_external_interrupt_handler (t : table) (apic : option Z) (vector p rsp : Z) (g : gs_bases) (k : kernel)
  : outcome (bool * gs_bases * kernel) :=
  with_swapgs_accounting (λ _ k,
    '(interrupt_id, h) ← expect (handlers t !! Z.to_nat vector);
    k ← h vector interrupt_id k;
    d ← LocalAPIC.end_of_interrupt apic (k_devices k);
    '(switched, st) ← Sched.run_scheduler_if_needed (k_sched k) p rsp;
    mret (switched, mkKernel st d)) g k.

(** The handlers of exceptions; [cr2] is the address of a page fault. *)
Definition exception_handler (e : exception) (cr2 : Z) (g : gs_bases) (k : kernel) : outcome (bool * gs_bases * kernel) :=
  match e with
  | Breakpoint => with_swapgs_accounting (λ _ k, mret (false, k)) g k
  | PageFault => with_swapgs_accounting (λ _ _, _ ← KStack.is_kernel_guard_page cr2; Panic PanicExplicit) g k
  | _ => with_swapgs_accounting (λ _ _, Panic PanicExplicit) g k
  end.

(** The CPU takes an interrupt: a vector without a gate is a general protection fault. *)
Definition deliver (idt : list gate) (t : table) (apic : option Z) (cr2 vector p rsp : Z) (g : gs_bases) (k : kernel)
  : outcome (bool * gs_bases * kernel) :=
  match idt !! Z.to_nat vector with
  | Some (GateStub n) => common_external_interrupt_handler t apic n p rsp g k
  | Some (GateException e _ _) => exception_handler e cr2 g k
  | _ => exception_handler GeneralProtectionFault cr2 g k
  end.
End interrupts.
End Interrupts.

(** ** Vectors and handlers *)
Section theorems.
Context {R D : Type} `{!TaskMemory R, !Bus D} {bc : BitfieldCrate} {x86 : X86_64}.
Import Interrupts.
Implicit Types (t : @table R D).

Lemma idt_length : length init_idt = 256%nat.
Proof. reflexivity. Qed.

Lemma stub_gate v : 32 ≤ v < 255 → init_idt !! Z.to_nat v = Some (GateStub v).
Proof.
  intros Hv. rewrite <-(Z2Nat.id v) at 2 by lia. assert (Hn : Z.to_nat v ∈ seq 32 223) by (apply elem_of_seq; lia).
  revert Hn. generalize (Z.to_nat v). apply Forall_forall.
  assert (Hall : forallb (λ n, bool_decide (init_idt !! n = Some (GateStub (Z.of_nat n)))) (seq 32 223) = true)
    by (vm_compute; reflexivity).
  apply Forall_forall. intros n Hn. rewrite forallb_forall in Hall. specialize (Hall n (proj1 (list_elem_of_In _ _) Hn)).
  by apply bool_decide_eq_true_1 in Hall.
Qed.

(** Handlers that are installed one after the other. *)
Fixpoint install_all (reqs : list (Z * handler)) t : outcome (list Z * table) :=
  match reqs with
  | [] => mret ([], t)
  | (interrupt_id, h) :: reqs =>
      '(v, t) ← install_interrupt_next_vector interrupt_id h t;
      '(vs, t) ← install_all reqs t;
      mret (v :: vs, t)
  end.

Lemma install_next i h t : length (handlers t) = 256%nat → 0 ≤ next_open t < 256 →
  install_interrupt_next_vector i h t =
    if next_open t <? 255
    then Ret (next_open t, mkTable (<[Z.to_nat (next_open t) := (i, h)]> (handlers t)) (next_open t + 1))
    else Panic PanicAssert.
Proof.
  intros Hl Hn. unfold install_interrupt_next_vector, install_interrupt, SPURIOUS_INTERRUPT_VECTOR_INDEX, wrap.
  destruct (Z.ltb_spec (next_open t) 255); [|done]. run_monad. cbn [handlers].
  replace (next_open t <? zlen (handlers t)) with true by (unfold zlen; rewrite Hl; lia). run_monad.
  cbn [next_open]. by rewrite Z.mod_small by lia.
Qed.

Lemma install_all_ok reqs : ∀ t, length (handlers t) = 256%nat → 0 ≤ next_open t →
  next_open t + zlen reqs ≤ 255 →
  install_all reqs t = Ret ((λ i, next_open t + Z.of_nat i) <$> seq 0 (length reqs),
    mkTable (take (Z.to_nat (next_open t)) (handlers t) ++ reqs ++ drop (Z.to_nat (next_open t) + length reqs) (handlers t))
      (next_open t + zlen reqs)).
Proof.
  induction reqs as [|[i h] reqs IH]; intros [hs n] Hl Hn Hb; cbn [install_all handlers next_open] in *.
  { rewrite zlen_nil, Z.add_0_r, Nat.add_0_r. cbn. by rewrite take_drop. }
  rewrite zlen_cons in Hb. pose proof (zlen_nonneg reqs). rewrite install_next by (cbn; done || lia). cbn [handlers next_open].
  replace (n <? 255) with true by lia. run_monad.
  rewrite IH by (cbn; rewrite ?length_insert; done || lia). run_monad. cbn [handlers next_open].
  do 2 f_equal.
  - cbn [length seq fmap list_fmap]. f_equal; [lia|]. rewrite <-fmap_S_seq, <-list_fmap_compose.
    apply list_fmap_ext. intros j x _. cbn. lia.
  - rewrite zlen_cons. f_equal; [|lia]. replace (Z.to_nat (n + 1)) with (S (Z.to_nat n)) by lia.
    rewrite insert_take_drop by lia. rewrite take_app_ge by (rewrite length_take_le; lia). rewrite length_take_le by lia.
    replace (S (Z.to_nat n) - Z.to_nat n)%nat with 1%nat by lia. cbn [take]. rewrite <-app_assoc, take_0. f_equal. cbn [app].
    f_equal. f_equal. rewrite drop_app_ge by (rewrite length_take_le; lia). rewrite length_take_le by lia.
    replace (S (Z.to_nat n) + length reqs - Z.to_nat n)%nat with (S (length reqs)) by lia. cbn [drop].
    rewrite drop_drop. f_equal. cbn. lia.
Qed.

Lemma install_all_fails reqs : ∀ t, length (handlers t) = 256%nat → 0 ≤ next_open t ≤ 255 →
  255 < next_open t + zlen reqs → install_all reqs t = Panic PanicAssert.
Proof.
  induction reqs as [|[i h] reqs IH]; intros [hs n] Hl Hn Hb; cbn [install_all handlers next_open] in *.
  { rewrite zlen_nil in Hb. lia. }
  rewrite zlen_cons in Hb. rewrite install_next by (cbn; done || lia). cbn [handlers next_open].
  destruct (Z.ltb_spec n 255); [|done]. run_monad. rewrite IH; [done|cbn; by rewrite length_insert|cbn; lia|cbn; lia].
Qed.

(** What a stub does for the entry [(interrupt_id, h)] of its vector. *)
Definition dispatch (apic : option Z) (vector interrupt_id : Z) (h : handler) (p rsp : Z) (g : gs_bases) (k : kernel)
  : outcome (bool * gs_bases * kernel) :=
  with_swapgs_accounting (λ _ k,
    k ← h vector interrupt_id k;
    d ← LocalAPIC.end_of_interrupt apic (k_devices k);
    '(switched, st) ← Sched.run_scheduler_if_needed (k_sched k) p rsp;
    mret (switched, mkKernel st d)) g k.

Lemma deliver_stub t apic cr2 v p rsp g k i (h : handler) : 32 ≤ v < 255 → handlers t !! Z.to_nat v = Some (i, h) →
  deliver init_idt t apic cr2 v p rsp g k = dispatch apic v i h p rsp g k.
Proof.
  intros Hv Hh. unfold deliver. rewrite stub_gate by done. unfold common_external_interrupt_handler, dispatch, with_swapgs_accounting.
  unfold handler in *. by rewrite Hh.
Qed.

(** C18: external interrupts reach their handlers.  Handlers that are installed one after
    the other, up to 206 of them, get the vectors from 49 on, all different and none of
    them reserved; when the CPU takes the vector of a handler, that handler runs with
    its vector and its id, then the end of the interrupt is signalled and the scheduler
    runs if needed.  A vector that has no handler stops the kernel, and so does
    installing a 207th handler. *)
Theorem interrupt_dispatch (reqs : list (Z * @handler R D)) :
  if zlen reqs <=? 206 then
    ∃ t, install_all reqs initial_table = Ret ((λ i, 49 + Z.of_nat i) <$> seq 0 (length reqs), t) ∧
      (∀ i interrupt_id h, reqs !! i = Some (interrupt_id, h) → ∀ apic cr2 p rsp g k,
         deliver init_idt t apic cr2 (49 + Z.of_nat i) p rsp g k
         = dispatch apic (49 + Z.of_nat i) interrupt_id h p rsp g k) ∧
      ∀ v, 32 ≤ v < 49 ∨ 49 + zlen reqs ≤ v < 255 → ∀ apic cr2 p rsp g k,
        deliver init_idt t apic cr2 v p rsp g k = Panic PanicExplicit
  else install_all reqs initial_table = Panic PanicAssert.
Proof.
  assert (Hl : length (handlers (R:=R) (D:=D) initial_table) = 256%nat) by reflexivity.
  pose proof (zlen_nonneg reqs). destruct (Z.leb_spec (zlen reqs) 206); [|apply install_all_fails; [done|change (next_open initial_table) with 49; lia..]].
  eexists. split; [apply install_all_ok; [done|change (next_open initial_table) with 49; lia..]|].
  change (next_open initial_table) with 49. change (Z.to_nat 49) with 49%nat. unfold zlen in *. split.
  - intros i id h Hi apic cr2 p rsp g k. assert (i < length reqs)%nat by (apply lookup_lt_is_Some_1; eauto). apply deliver_stub; [lia|]. cbn [handlers].
    rewrite lookup_app_r by (rewrite length_take_le; lia). rewrite length_take_le by lia.
    replace (Z.to_nat (49 + Z.of_nat i) - 49)%nat with i by lia. by apply lookup_app_l_Some.
  - intros v Hv apic cr2 p rsp g k. assert (Hh : 32 ≤ v < 255) by lia.
    rewrite (deliver_stub _ _ _ _ _ _ _ _ 0 default_external_interrupt_handler); [|done|].
    { unfold dispatch, with_swapgs_accounting. done. }
    cbn [handlers]. destruct (Z.lt_ge_cases v 49).
    + rewrite lookup_app_l by (rewrite length_take_le; lia). rewrite lookup_take_lt by lia.
      apply lookup_replicate. split; [done|]. change (Z.to_nat NUM_INTERRUPT_VECTORS) with 256%nat. lia.
    + rewrite lookup_app_r by (rewrite length_take_le; lia). rewrite length_take_le by lia.
      rewrite lookup_app_r by lia. rewrite lookup_drop. apply lookup_replicate. split; [done|].
      change (Z.to_nat NUM_INTERRUPT_VECTORS) with 256%nat. lia.
Qed.

(** Interrupts run with the kernel's GS base and give back the base they found, unless
    they switch to another task, which goes on with the kernel's. *)
Theorem gs_base_accounting (f : kernel → outcome (bool * @kernel R D)) g k :
  gsbase_is_kernel g = true ∨ gsbase_is_kernel (swapgs g) = true →
  with_swapgs_accounting (λ g k, _ ← assert_ (gsbase_is_kernel g); f k) g k =
    '(switched, k') ← f k;
    mret (switched, if (switched : bool) then (if gsbase_is_kernel g then g else swapgs g) else g, k').
Proof.
  intros Hg. unfold with_swapgs_accounting. destruct (gsbase_is_kernel g) eqn:E; cbn [orb].
  - rewrite E. run_monad. destruct (f k) as [[[] k']| |]; done.
  - destruct Hg as [?|Hg]; [done|]. rewrite Hg. run_monad. destruct (f k) as [[[] k']| |]; try done. by destruct g.
Qed.

(** The stub handlers end at 254: the vector that the APIC is told to use for spurious
    interrupts has no gate, and a spurious interrupt stops the kernel. *)
Lemma spurious_interrupt_panics t apic cr2 p rsp g k :
  deliver init_idt t apic cr2 SPURIOUS_INTERRUPT_VECTOR_INDEX p rsp g k = Panic PanicExplicit.
Proof. unfold deliver. change (init_idt !! Z.to_nat SPURIOUS_INTERRUPT_VECTOR_INDEX) with (Some GateMissing). done. Qed.
End theorems.
