(* ===== verification/RegisterMaps.v ===== *)
(** * Register layouts ([kernel/src/registers.rs] and its uses)

    The structures that [register_struct!] declares, as tables of offset, name, kind of
    register and size; the accessors and the [Debug] output that the macro generates; and the
    enums of the interrupt command register. *)
From S2P Require Import Prelude External Addr Registers Interrupts.
#[local] Open Scope string_scope.
#[local] Open Scope Z_scope.

(** [RegisterRW], [RegisterRO], [RegisterROSideEffect], [RegisterWO] *)
Inductive access : Type := RW | RO | ROSideEffect | WO.

Record register_decl : Type := reg { r_offset : Z; r_name : string; r_access : access; r_bytes : Z }.

Abbreviation register_struct := (list register_decl).

Definition LocalAPICRegisters : register_struct :=
  [ reg 0x20 "local_apic_id" RW 4; reg 0x30 "local_apic_version" RO 4;
    reg 0x80 "task_priority" RW 4; reg 0x90 "arbitration_priority" RO 4;
    reg 0xa0 "processor_priority" RO 4; reg 0xb0 "end_of_interrupt" WO 4;
    reg 0xc0 "remote_read" RO 4; reg 0xd0 "logical_destination" RW 4;
    reg 0xe0 "destination_format" RW 4; reg 0xf0 "spurious_interrupt_vector" RW 4;
    reg 0x100 "in_service_0" RO 4; reg 0x110 "in_service_1" RO 4;
    reg 0x120 "in_service_2" RO 4; reg 0x130 "in_service_3" RO 4;
    reg 0x140 "in_service_4" RO 4; reg 0x150 "in_service_5" RO 4;
    reg 0x160 "in_service_6" RO 4; reg 0x170 "in_service_7" RO 4;
    reg 0x180 "trigger_mode_0" RO 4; reg 0x190 "trigger_mode_1" RO 4;
    reg 0x1a0 "trigger_mode_2" RO 4; reg 0x1b0 "trigger_mode_3" RO 4;
    reg 0x1c0 "trigger_mode_4" RO 4; reg 0x1d0 "trigger_mode_5" RO 4;
    reg 0x1e0 "trigger_mode_6" RO 4; reg 0x1f0 "trigger_mode_7" RO 4;
    reg 0x200 "interrupt_request_0" RO 4; reg 0x210 "interrupt_request_1" RO 4;
    reg 0x220 "interrupt_request_2" RO 4; reg 0x230 "interrupt_request_3" RO 4;
    reg 0x240 "interrupt_request_4" RO 4; reg 0x250 "interrupt_request_5" RO 4;
    reg 0x260 "interrupt_request_6" RO 4; reg 0x270 "interrupt_request_7" RO 4;
    reg 0x280 "error_status" RO 4; reg 0x2f0 "lvt_corrected_machine_check_interrupt" RW 4;
    reg 0x300 "interrupt_command_low_bits" RW 4; reg 0x310 "interrupt_command_high_bits" RW 4;
    reg 0x320 "lvt_timer" RW 4; reg 0x330 "lvt_thermal_sensor" RW 4;
    reg 0x340 "lvt_performance_monitoring_counters" RW 4; reg 0x350 "lvt_lint0" RW 4;
    reg 0x360 "lvt_lint1" RW 4; reg 0x370 "lvt_error" RW 4;
    reg 0x380 "initial_count" RW 4; reg 0x398 "current_count" RO 4;
    reg 0x3e0 "divide_configuration" RW 4 ].

Definition BlockConfigRegisters : register_struct :=
  [ reg 0x00 "capacity" RO 8; reg 0x08 "size_max" RO 4;
    reg 0x0c "seg_max" RO 4; reg 0x10 "geometry" RO 4;
    reg 0x14 "blk_size" RO 4; reg 0x18 "topology" RO 8;
    reg 0x20 "writeback" RO 1; reg 0x22 "num_queues" RO 2;
    reg 0x24 "max_discard_sectors" RO 4; reg 0x28 "max_discard_seg" RO 4;
    reg 0x2c "discard_sector_alignment" RO 4; reg 0x30 "max_write_zeroes_sectors" RO 4;
    reg 0x34 "max_write_zeroes_seg" RO 4; reg 0x38 "write_zeroes_may_unmap" RO 1;
    reg 0x3c "max_secure_erase_sectors" RO 4; reg 0x40 "max_secure_erase_seg" RO 4;
    reg 0x44 "secure_erase_sector_alignment" RO 4 ].

Definition VirtIOPCICapabilityHeaderRegisters : register_struct :=
  [ reg 0x00 "cap_vndr" RO 1; reg 0x01 "cap_next" RO 1;
    reg 0x02 "cap_len" RO 1; reg 0x03 "cfg_type" RO 1;
    reg 0x04 "bar" RO 1; reg 0x05 "id" RO 1;
    reg 0x08 "offset" RO 4; reg 0x0C "length" RO 4 ].

Definition VirtIOPCICommonConfigRegisters : register_struct :=
  [ reg 0x00 "device_feature_select" RW 4; reg 0x04 "device_feature" RO 4;
    reg 0x08 "driver_feature_select" RW 4; reg 0x0C "driver_feature" RW 4;
    reg 0x10 "config_msix_vector" RW 2; reg 0x12 "num_queues" RO 2;
    reg 0x14 "device_status" RW 1; reg 0x15 "config_generation" RO 1;
    reg 0x16 "queue_select" RW 2; reg 0x18 "queue_size" RW 2;
    reg 0x1A "queue_msix_vector" RW 2; reg 0x1C "queue_enable" RW 2;
    reg 0x1E "queue_notify_off" RO 2; reg 0x20 "queue_desc" RW 8;
    reg 0x28 "queue_driver" RW 8; reg 0x30 "queue_device" RW 8;
    reg 0x38 "queue_notify_data" RO 2; reg 0x3A "queue_reset" RW 2 ].

Definition VirtIOPCIISRRegisters : register_struct :=
  [ reg 0x00 "isr" ROSideEffect 4 ].

Definition IOAPICRegisters : register_struct :=
  [ reg 0x00 "io_register_select" RW 1; reg 0x10 "io_window" RW 4 ].

Definition HpetRegisters : register_struct :=
  [ reg 0x00 "general_capabilities_and_id" RO 8; reg 0x10 "general_configuration" RW 8;
    reg 0x20 "general_interrupt_status" RW 8; reg 0xF0 "main_counter_value" RW 8 ].

Definition TimerRegisters : register_struct :=
  [ reg 0x00 "config_and_cap" RW 8; reg 0x08 "comparator_value" RW 8;
    reg 0x10 "fsb_interrupt_route" RW 8 ].

Definition PCIConfigDeviceIDRegisters : register_struct :=
  [ reg 0x00 "vendor_id" RO 2; reg 0x02 "device_id" RO 2;
    reg 0x08 "revision_id" RO 1; reg 0x09 "prog_if" RO 1;
    reg 0x0A "subclass" RO 1; reg 0x0B "class" RO 1 ].

Definition PCIDeviceCapabilityHeaderRegisters : register_struct :=
  [ reg 0x0 "id" RO 1; reg 0x1 "next" RO 1 ].

Definition MSIXCapabilityRegisters : register_struct :=
  [ reg 0x0 "capability_id" RO 1; reg 0x1 "next_capability" RO 1;
    reg 0x2 "message_control" RW 2; reg 0x4 "table_offset" RW 4;
    reg 0x8 "pending_bit_array_offset" RW 4 ].

Definition RawMSIXTableEntry : register_struct :=
  [ reg 0x0 "message_address" RW 4; reg 0x4 "message_upper_address" RW 4;
    reg 0x8 "message_data" RW 4; reg 0xc "vector_control" RW 4 ].

Definition PCIDeviceCommonConfigRegisters : register_struct :=
  [ reg 0x04 "command" RW 2; reg 0x06 "status" RW 2;
    reg 0x0C "cache_line_size" RW 1; reg 0x0D "latency_timer" RW 1;
    reg 0x0E "header_type" RO 1; reg 0x0F "bist" RW 1;
    reg 0x34 "capabilities_pointer" RO 1; reg 0x3C "interrupt_line" RW 1;
    reg 0x3D "interrupt_pin" RO 1 ].

Definition PCIDeviceConfigType0Registers : register_struct :=
  [ reg 0x10 "raw_bar0" RW 4; reg 0x14 "raw_bar1" RW 4;
    reg 0x18 "raw_bar2" RW 4; reg 0x1C "raw_bar3" RW 4;
    reg 0x20 "raw_bar4" RW 4; reg 0x24 "raw_bar5" RW 4;
    reg 0x28 "cardbus_cis_pointer" RW 4; reg 0x2C "subsystem_vendor_id" RW 2;
    reg 0x2E "subsystem_id" RW 2; reg 0x30 "expansion_rom_base_address" RW 4;
    reg 0x3E "min_grant" RW 1; reg 0x3F "max_latency" RW 1 ].

Definition all_structs : list register_struct :=
  [ LocalAPICRegisters; BlockConfigRegisters; VirtIOPCICapabilityHeaderRegisters; VirtIOPCICommonConfigRegisters;
    VirtIOPCIISRRegisters; IOAPICRegisters; HpetRegisters; TimerRegisters; PCIConfigDeviceIDRegisters;
    PCIDeviceCapabilityHeaderRegisters; MSIXCapabilityRegisters; RawMSIXTableEntry; PCIDeviceCommonConfigRegisters;
    PCIDeviceConfigType0Registers ].

(** ** What the macro generates *)
Inductive val_or_str : Type := Val (v : Z) | Str (s : string).

Section generated.
Context {D : Type} `{!Bus D}.
Implicit Types (d : D).

(** The accessor of a register: [register_method] *)
Definition accessor (address : Z) (r : register_decl) : outcome Z := register address (r_offset r).

(** The methods that the kind of a register has *)
Definition read_register (r : register_decl) (a : Z) d : option (outcome (Z * D)) :=
  match r_access r with RW | RO | ROSideEffect => Some (RegisterRW.read (r_bytes r) a d) | WO => None end.
Definition write_register (r : register_decl) (a val : Z) d : option (outcome D) :=
  match r_access r with RW | WO => Some (RegisterRW.write (r_bytes r) a val d) | RO | ROSideEffect => None end.

(** [Debug::fmt] of the kinds of register: a read-only register with side effects and a write-only one are not read. *)
Definition debug_value (r : register_decl) (a : Z) d : outcome (val_or_str * D) :=
  match r_access r with
  | RW | RO => '(v, d) ← RegisterRW.read (r_bytes r) a d; mret (Val v, d)
  | ROSideEffect => mret (Str "(read-only side effect)", d)
  | WO => mret (Str "UNKNOWN (write-only)", d)
  end.

(** [Debug::fmt] of the structure: the name, the value and the address of each register *)
Fixpoint debug_fmt (address : Z) (s : register_struct) d : outcome (list (string * val_or_str * Z) * D) :=
  match s with
  | [] => mret ([], d)
  | r :: s =>
      a ← accessor address r;
      '(v, d) ← debug_value r a d;
      '(out, d) ← debug_fmt address s d;
      mret ((r_name r, v, a) :: out, d)
  end.
End generated.

(** ** Layout *)
Definition naturally_aligned (r : register_decl) : bool := (r_offset r mod r_bytes r =? 0) && (0 <? r_bytes r) && (0 <=? r_offset r).

Fixpoint in_order (from : Z) (s : register_struct) : bool :=
  match s with [] => true | r :: s => (from <=? r_offset r) && (0 <? r_bytes r) && in_order (r_offset r + r_bytes r) s end.

Definition extent (s : register_struct) : Z := foldr (λ r e, Z.max (r_offset r + r_bytes r) e) 0 s.

(** Every structure is laid out in order, without overlaps, with aligned registers; all fit a page. *)
Definition well_laid (s : register_struct) : bool := in_order 0 s && forallb naturally_aligned s && (extent s <=? 4096).

(** ** The interrupt command register *)
Definition APICVersion : bitfield :=
  [("version", 8); ("__reserved", 8); ("max_lvt_entry", 8); ("support_suppress_eoi_broadcast", 1); ("__reserved2", 7)].
Definition InterruptCommandHighBits : bitfield := [("__reserved", 24); ("destination", 8)].

Inductive InterruptCommandDeliveryStatus : Type := Idle | Pending.
Definition delivery_status_as_u32 (s : InterruptCommandDeliveryStatus) : Z := match s with Idle => 0 | Pending => 1 end.
Inductive InterruptCommandTriggerMode : Type := Edge | Level.
Definition trigger_mode_as_u32 (m : InterruptCommandTriggerMode) : Z := match m with Edge => 0 | Level => 1 end.

Definition destination_mode_from (value : Z) : outcome InterruptCommandDestinationMode :=
  if value =? destination_mode_as_u32 Physical then mret Physical
  else if value =? destination_mode_as_u32 Logical then mret Logical else Panic PanicExplicit.
Definition delivery_status_from (value : Z) : outcome InterruptCommandDeliveryStatus :=
  if value =? delivery_status_as_u32 Idle then mret Idle
  else if value =? delivery_status_as_u32 Pending then mret Pending else Panic PanicExplicit.
Definition level_from (value : Z) : outcome InterruptCommandLevel :=
  if value =? level_as_u32 DeAssert then mret DeAssert
  else if value =? level_as_u32 Assert then mret Assert else Panic PanicExplicit.
Definition trigger_mode_from (value : Z) : outcome InterruptCommandTriggerMode :=
  if value =? trigger_mode_as_u32 Edge then mret Edge
  else if value =? trigger_mode_as_u32 Level then mret Level else Panic PanicExplicit.
Definition shorthand_from (value : Z) : outcome InterruptCommandDestinationShorthand :=
  if value =? shorthand_as_u32 NoShorthand then mret NoShorthand
  else if value =? shorthand_as_u32 DestSelf then mret DestSelf
  else if value =? shorthand_as_u32 AllIncludingSelf then mret AllIncludingSelf
  else if value =? shorthand_as_u32 AllExcludingSelf then mret AllExcludingSelf else Panic PanicExplicit.

(** The getters of [InterruptCommandLowBits], as [Debug::fmt] calls them *)
Record command : Type := mkCommand {
  c_vector : Z;
  c_delivery_mode : InterruptCommandDeliveryMode;
  c_destination_mode : InterruptCommandDestinationMode;
  c_delivery_status : InterruptCommandDeliveryStatus;
  c_level : InterruptCommandLevel;
  c_trigger_mode : InterruptCommandTriggerMode;
  c_shorthand : InterruptCommandDestinationShorthand;
}.

Section command.
Context {bc : BitfieldCrate}.

Definition decode_command (raw : Z) : outcome command :=
  let field n := get InterruptCommandLowBits n raw in
  delivery ← delivery_mode_from (field "delivery_mode");
  destination ← destination_mode_from (field "destination_mode");
  status ← delivery_status_from (field "delivery_status");
  level ← level_from (field "level");
  trigger ← trigger_mode_from (field "trigger_mode");
  shorthand ← shorthand_from (field "destination_shorthand");
  mret (mkCommand (field "vector") delivery destination status level trigger shorthand).
End command.

(** ** Theorems *)
Lemma layouts : forallb well_laid all_structs = true.
Proof. by vm_compute. Qed.

Lemma in_order_from s : ∀ from i r, in_order from s = true → s !! i = Some r → from ≤ r_offset r ∧ 0 < r_bytes r.
Proof.
  induction s as [|x s IH]; intros from i r H Hi; [done|]. cbn [in_order] in H. apply andb_true_iff in H as [[H1 H2]%andb_true_iff H].
  destruct i as [|i]; [injection Hi as <-; lia|]. destruct (IH _ _ _ H Hi). lia.
Qed.

Lemma in_order_apart s : ∀ from i j ri rj, in_order from s = true → (i < j)%nat → s !! i = Some ri → s !! j = Some rj →
  r_offset ri + r_bytes ri ≤ r_offset rj.
Proof.
  induction s as [|x s IH]; intros from i j ri rj H Hij Hi Hj; [done|]. cbn [in_order] in H. apply andb_true_iff in H as [_ H].
  destruct j as [|j]; [lia|]. destruct i as [|i].
  - injection Hi as <-. by destruct (in_order_from _ _ _ _ H Hj).
  - apply (IH _ i j _ _ H); [lia|done|done].
Qed.

Lemma extent_bound s i r : s !! i = Some r → r_offset r + r_bytes r ≤ extent s.
Proof.
  revert i. induction s as [|x s IH]; intros i Hi; [done|]. change (extent (x :: s)) with (Z.max (r_offset x + r_bytes x) (extent s)).
  destruct i as [|i]; [injection Hi as <-; lia|]. specialize (IH _ Hi). lia.
Qed.

Lemma well_laid_ok s i r : s ∈ all_structs → s !! i = Some r →
  0 ≤ r_offset r ∧ 0 < r_bytes r ∧ r_offset r mod r_bytes r = 0 ∧ r_offset r + r_bytes r ≤ 4096 ∧ in_order 0 s = true.
Proof.
  intros Hs Hi. pose proof layouts as L. rewrite forallb_forall in L. apply list_elem_of_In in Hs. specialize (L _ Hs).
  apply andb_true_iff in L as [[L1 L2]%andb_true_iff L3]. destruct (in_order_from _ _ _ _ L1 Hi). pose proof (extent_bound _ _ _ Hi).
  rewrite forallb_forall in L2. specialize (L2 r (proj1 (list_elem_of_In _ _) (list_elem_of_lookup_2 _ _ _ Hi))). unfold naturally_aligned in L2.
  split_and!; [done|done|lia|lia|done].
Qed.

(** A page of the kernel's mapping *)
Definition page_at (base : Z) : Prop := KERNEL_PHYSICAL_MAPPING_START ≤ base ∧ base + 4096 ≤ KERNEL_PHYSICAL_MAPPING_END.

Lemma accessor_ok s i r base : s ∈ all_structs → s !! i = Some r → page_at base → accessor base r = Ret (base + r_offset r).
Proof.
  intros Hs Hi [H1 H2]. destruct (well_laid_ok _ _ _ Hs Hi) as (? & ? & _ & ? & _). apply register_ok; [|lia|lia|lia].
  unfold KERNEL_PHYSICAL_MAPPING_START, HIGHER_HALF_START in H1. lia.
Qed.



(** The registers of a local APIC are 16 bytes apart; the table has one that is not. *)
Lemma apic_spacing : filter (λ r, r_offset r mod 16 ≠ 0) LocalAPICRegisters = [reg 0x398 "current_count" RO 4].
Proof. by vm_compute. Qed.

(** *** What [Debug] touches *)
Inductive bus_event : Type := ReadOf (bytes address : Z) | WriteOf (bytes address v : Z).

(** A bus that keeps a log *)
#[local] Instance logged {D} `{!Bus D} : Bus (list bus_event * D) := {|
  bus_read bytes a '(l, d) := let '(v, d) := bus_read bytes a d in (v, ((l ++ [ReadOf bytes a])%list, d));
  bus_write bytes a v '(l, d) := ((l ++ [WriteOf bytes a v])%list, bus_write bytes a v d);
|}.

Definition readable (r : register_decl) : bool := match r_access r with RW | RO => true | ROSideEffect | WO => false end.

Definition debug_log (base : Z) (s : register_struct) : list bus_event :=
  (λ r, ReadOf (r_bytes r) (base + r_offset r)) <$> filter (λ r, readable r = true) s.

Section debug.
Context {D : Type} `{!Bus D}.

Lemma debug_log_cons base r s :
  debug_log base (r :: s) = ((if readable r then [ReadOf (r_bytes r) (base + r_offset r)] else []) ++ debug_log base s)%list.
Proof. unfold debug_log. rewrite filter_cons. by destruct (readable r). Qed.

Lemma debug_fmt_log base s : (∀ r, r ∈ s → accessor base r = Ret (base + r_offset r)) → ∀ l (d : D),
  ∃ out d', debug_fmt base s (l, d) = Ret (out, ((l ++ debug_log base s)%list, d')) ∧ (λ x, x.1.1) <$> out = r_name <$> s.
Proof.
  induction s as [|r s IH]; intros Ha l d; [exists [], d; cbn; by rewrite app_nil_r|].
  assert (Hs : ∀ x, x ∈ s → accessor base x = Ret (base + r_offset x)) by (intros x Hx; apply Ha; by right).
  rewrite debug_log_cons. cbn [debug_fmt]. rewrite Ha by left. run_monad. unfold debug_value, readable. destruct (r_access r).
  1,2: unfold RegisterRW.read; cbn [bus_read logged]; destruct (bus_read _ _ d) as [v d1]; run_monad;
    destruct (IH Hs (l ++ [ReadOf (r_bytes r) (base + r_offset r)])%list d1) as (out & d2 & E & Ho);
    rewrite E; run_monad; do 2 eexists; split; [by rewrite <-app_assoc|by cbn; rewrite Ho].
  all: run_monad; destruct (IH Hs l d) as (out & d2 & E & Ho); rewrite E; run_monad; do 2 eexists; split; [done|by cbn; rewrite Ho].
Qed.

(** printing a structure of registers for debugging reads each of its readable registers once,
    in the order of the structure, and touches nothing else: no write-only register, no register
    whose reading has side effects, and nothing is written. *)
Theorem debug_reads_only base s (d : D) : s ∈ all_structs → page_at base →
  ∃ out d', debug_fmt base s ([], d) = Ret (out, (debug_log base s, d')) ∧ (λ x, x.1.1) <$> out = r_name <$> s.
Proof.
  intros Hs Hb. apply (debug_fmt_log base s). intros r Hr. apply list_elem_of_lookup in Hr as [i Hi]. by eapply accessor_ok.
Qed.
End debug.

(** A bus that answers 7 *)
Definition seven : Bus unit := {| bus_read _ _ _ := (7, tt); bus_write _ _ _ _ := tt |}.

Lemma debug_reads_only_witness : ∃ out d',
  debug_fmt (Bus0 := logged (Bus0 := seven)) KERNEL_PHYSICAL_MAPPING_START VirtIOPCIISRRegisters ([], tt) = Ret (out, ([], d')).
Proof.
  destruct (debug_reads_only (Bus0 := seven) KERNEL_PHYSICAL_MAPPING_START VirtIOPCIISRRegisters tt) as (out & d' & E & _);
    [do 4 right; left|by split; vm_compute|]. by exists out, d'.
Defined.

(** *** Commands *)
Lemma delivery_mode_ok v : 0 ≤ v < 2 ^ 3 → ∃ e, delivery_mode_from v = Ret e ∧ delivery_mode_as_u32 e = v.
Proof. intros H. assert (C : v = 0 ∨ v = 1 ∨ v = 2 ∨ v = 3 ∨ v = 4 ∨ v = 5 ∨ v = 6 ∨ v = 7) by lia. by repeat (destruct C as [->|C]; [by eexists|]); rewrite C; eexists. Qed.

Lemma destination_mode_ok v : 0 ≤ v < 2 ^ 1 → ∃ e, destination_mode_from v = Ret e ∧ destination_mode_as_u32 e = v.
Proof. intros H. assert (C : v = 0 ∨ v = 1) by lia. by repeat (destruct C as [->|C]; [by eexists|]); rewrite C; eexists. Qed.

Lemma delivery_status_ok v : 0 ≤ v < 2 ^ 1 → ∃ e, delivery_status_from v = Ret e ∧ delivery_status_as_u32 e = v.
Proof. intros H. assert (C : v = 0 ∨ v = 1) by lia. by repeat (destruct C as [->|C]; [by eexists|]); rewrite C; eexists. Qed.

Lemma level_ok v : 0 ≤ v < 2 ^ 1 → ∃ e, level_from v = Ret e ∧ level_as_u32 e = v.
Proof. intros H. assert (C : v = 0 ∨ v = 1) by lia. by repeat (destruct C as [->|C]; [by eexists|]); rewrite C; eexists. Qed.

Lemma trigger_mode_ok v : 0 ≤ v < 2 ^ 1 → ∃ e, trigger_mode_from v = Ret e ∧ trigger_mode_as_u32 e = v.
Proof. intros H. assert (C : v = 0 ∨ v = 1) by lia. by repeat (destruct C as [->|C]; [by eexists|]); rewrite C; eexists. Qed.

Lemma shorthand_ok v : 0 ≤ v < 2 ^ 2 → ∃ e, shorthand_from v = Ret e ∧ shorthand_as_u32 e = v.
Proof. intros H. assert (C : v = 0 ∨ v = 1 ∨ v = 2 ∨ v = 3) by lia. by repeat (destruct C as [->|C]; [by eexists|]); rewrite C; eexists. Qed.

Section decode.
Context {bc : BitfieldCrate} {bcl : BitfieldCrateLaws}.

(** Every value of the interrupt command register can be shown; the values of the enums are the
    fields. *)
Lemma command_decodes raw : ∃ c, decode_command raw = Ret c ∧
  delivery_mode_as_u32 (c_delivery_mode c) = get InterruptCommandLowBits "delivery_mode" raw ∧
  destination_mode_as_u32 (c_destination_mode c) = get InterruptCommandLowBits "destination_mode" raw ∧
  delivery_status_as_u32 (c_delivery_status c) = get InterruptCommandLowBits "delivery_status" raw ∧
  level_as_u32 (c_level c) = get InterruptCommandLowBits "level" raw ∧
  trigger_mode_as_u32 (c_trigger_mode c) = get InterruptCommandLowBits "trigger_mode" raw ∧
  shorthand_as_u32 (c_shorthand c) = get InterruptCommandLowBits "destination_shorthand" raw.
Proof.
  assert (F : ∀ n o w, field_from 0 InterruptCommandLowBits n = Some (o, w) → 0 ≤ o → 0 ≤ w → 0 ≤ get InterruptCommandLowBits n raw < 2 ^ w)
    by (intros; by eapply get_bound).
  unfold decode_command. cbv zeta.
  destruct (delivery_mode_ok _ (F "delivery_mode" _ _ eq_refl ltac:(lia) ltac:(lia))) as (e1 & -> & E1). run_monad.
  destruct (destination_mode_ok _ (F "destination_mode" _ _ eq_refl ltac:(lia) ltac:(lia))) as (e2 & -> & E2). run_monad.
  destruct (delivery_status_ok _ (F "delivery_status" _ _ eq_refl ltac:(lia) ltac:(lia))) as (e3 & -> & E3). run_monad.
  destruct (level_ok _ (F "level" _ _ eq_refl ltac:(lia) ltac:(lia))) as (e4 & -> & E4). run_monad.
  destruct (trigger_mode_ok _ (F "trigger_mode" _ _ eq_refl ltac:(lia) ltac:(lia))) as (e5 & -> & E5). run_monad.
  destruct (shorthand_ok _ (F "destination_shorthand" _ _ eq_refl ltac:(lia) ltac:(lia))) as (e6 & -> & E6). run_monad.
  eexists. split; [done|]. by split_and!.
Qed.
End decode.
