(* ===== verification/Tick.v ===== *)
(** * The timer interrupt ([kernel/src/ioapic.rs], [kernel/src/hpet.rs], [kernel/src/tick.rs])

    The I/O APIC routes the interrupt of the event timer (HPET) to a vector; the
    handler of that vector fires the timers that expired and sends a tick to every CPU.
    The two chips are parameters, with the behaviour of their data sheets as the laws of
    [TimerChips]. *)
From S2P Require Import Prelude AllocSpec External Addr PhysMem Cells Asm Sched KStack Registers Interrupts.
#[local] Open Scope Z_scope.

(** ** [ioapic.rs] *)
Inductive IOAPICIRQNumber : Type := IRQReserved | IRQKeyboard | IRQTick.
Definition irq_as_u8 (n : IOAPICIRQNumber) : Z := match n with IRQReserved => 0 | IRQKeyboard => 1 | IRQTick => 9 end.

Definition IOAPICID : bitfield := [("__reserved", 24); ("id", 4); ("__reserved2", 4)]%string.
Definition IOAPICRedirectionTableRegister : bitfield :=
  [("interrupt_vector", 8); ("delivery_mode", 3); ("destination_mode", 1); ("delivery_status", 1);
   ("interrupt_input_pin_polarity", 1); ("remote_irr", 1); ("trigger_mode", 1); ("interrupt_mask", 1);
   ("__reserved", 39); ("destination_field", 8)]%string.

Definition IOAPIC_ID_REGISTER_OFFSET : Z := 0x00.
Definition IOAPIC_REDIRECTION_TABLE_REGISTER_OFFSET : Z := 0x10.

Module IOAPIC.
Section ioapic.
Context {D : Type} `{!Bus D} {bc : BitfieldCrate}.
Implicit Types (registers reg value entry : Z) (ioapic : option Z) (d : D).

Definition read_32_bit_register registers reg d : outcome (Z * D) :=
  d ← write_at_reg 1 registers 0x00 reg d;
  read_at_reg 4 registers 0x10 d.

Definition read_64_bit_register registers reg d : outcome (Z * D) :=
  '(low, d) ← read_32_bit_register registers reg d;
  reg ← uadd 8 reg 1;
  '(high, d) ← read_32_bit_register registers reg d;
  mret (Z.lor (Z.shiftl high 32) low, d).

Definition write_32_bit_register registers reg value d : outcome D :=
  d ← write_at_reg 1 registers 0x00 reg d;
  write_at_reg 4 registers 0x10 value d.

Definition write_64_bit_register registers reg value d : outcome D :=
  let low := wrap 32 value in
  let high := wrap 32 (Z.shiftr value 32) in
  d ← write_32_bit_register registers reg low d;
  reg ← uadd 8 reg 1;
  write_32_bit_register registers reg high d.

Definition ioapic_id registers d : outcome (Z * D) := read_32_bit_register registers IOAPIC_ID_REGISTER_OFFSET d.

Definition read_ioredtbl registers entry d : outcome (Z * D) :=
  _ ← assert_ (entry <? 24);
  e ← umul 8 entry 2;
  offset ← uadd 8 IOAPIC_REDIRECTION_TABLE_REGISTER_OFFSET e;
  read_64_bit_register registers offset d.

Definition write_ioredtbl registers entry value d : outcome D :=
  _ ← assert_ (entry <? 24);
  e ← umul 8 entry 2;
  offset ← uadd 8 IOAPIC_REDIRECTION_TABLE_REGISTER_OFFSET e;
  write_64_bit_register registers offset value d.

(** [IOAPIC] holds the address of the registers, once it is known. *)
Definition install_irq ioapic (interrupt_vector : Z) (irq_entry : IOAPICIRQNumber) d : outcome D :=
  registers ← expect ioapic;
  v ← with_ IOAPICRedirectionTableRegister "interrupt_vector" interrupt_vector 0;
  v ← with_bool IOAPICRedirectionTableRegister "interrupt_mask" false v;
  v ← with_ IOAPICRedirectionTableRegister "delivery_mode" 0 v;
  v ← with_bool IOAPICRedirectionTableRegister "destination_mode" false v;
  v ← with_bool IOAPICRedirectionTableRegister "delivery_status" false v;
  '(id, d) ← ioapic_id registers d;
  v ← with_ IOAPICRedirectionTableRegister "destination_field" (get IOAPICID "id" id) v;
  write_ioredtbl registers (irq_as_u8 irq_entry) v d.
End ioapic.
End IOAPIC.

(** ** [hpet.rs] *)
Inductive HPETTimerNumber : Type := TimerTick.
Definition timer_number_as (n : HPETTimerNumber) : Z := match n with TimerTick => 0 end.

Definition GeneralCapabilitiesAndID : bitfield :=
  [("revision_id", 8); ("number_of_timers", 5); ("counter_width", 1); ("__reserved", 1);
   ("legacy_replacement_route", 1); ("vendor_id", 16); ("counter_clock_period", 32)]%string.
Definition GeneralConfiguration : bitfield := [("enabled", 1); ("legacy_replacement_enabled", 1); ("__reserved", 62)]%string.
Definition TimerConfigAndCapabilities : bitfield :=
  [("__reserved", 1); ("is_level_triggered", 1); ("interrupt_enabled", 1); ("is_periodic", 1);
   ("periodic_interrupt_capable", 1); ("is_64_bits", 1); ("timer_value_set", 1); ("__reserved2", 1);
   ("set_32_bit_mode", 1); ("interrupt_route", 5); ("fsb_interrupt_enable", 1); ("fsb_interrupt_delivery", 1);
   ("__reserved3", 16); ("interrupt_routing_capability", 32)]%string.

Module HPET.
Section hpet.
Context {D : Type} `{!Bus D} {bc : BitfieldCrate}.
Implicit Types (registers : Z) (hpet : option Z) (d : D).

Definition elapsed_milliseconds hpet d : outcome (Z * D) :=
  registers ← expect hpet;
  '(caps, d) ← read_at_reg 8 registers 0x00 d;
  let interval_femtoseconds := get GeneralCapabilitiesAndID "counter_clock_period" caps in
  '(tick, d) ← read_at_reg 8 registers 0xF0 d;
  ms ← Milliseconds.elapsed interval_femtoseconds tick;
  mret (ms, d).

Definition timer_registers registers (timer_number : HPETTimerNumber) : outcome Z :=
  n ← umul 64 (timer_number_as timer_number) 0x20;
  offset ← uadd 64 0x100 n;
  KernPhysAddr.add registers offset.

Definition enable_periodic_timer registers (timer_number : HPETTimerNumber) (irq : IOAPICIRQNumber)
    (interval_femtoseconds : Z) d : outcome D :=
  '(hpet_caps, d) ← read_at_reg 8 registers 0x00 d;
  _ ← assert_ (timer_number_as timer_number <? get GeneralCapabilitiesAndID "number_of_timers" hpet_caps);
  d ← modify_at_reg 8 registers 0x10 (with_bool GeneralConfiguration "enabled" true) d;
  timer ← timer_registers registers timer_number;
  d ← modify_at_reg 8 timer 0x00 (λ conf,
    _ ← assert_ (get_bool TimerConfigAndCapabilities "periodic_interrupt_capable" conf);
    conf ← with_bool TimerConfigAndCapabilities "is_periodic" true conf;
    conf ← with_bool TimerConfigAndCapabilities "interrupt_enabled" true conf;
    with_ TimerConfigAndCapabilities "interrupt_route" (irq_as_u8 irq) conf) d;
  comparator_value ← udiv interval_femtoseconds (get GeneralCapabilitiesAndID "counter_clock_period" hpet_caps);
  write_at_reg 8 timer 0x08 comparator_value d.

Definition enable_periodic_timer_handler {R} ioapic hpet (handler_id : Z) (h : @Interrupts.handler R D)
    (irq : IOAPICIRQNumber) (timer_number : HPETTimerNumber) (interval : Z) (t : Interrupts.table) d
  : outcome (Interrupts.table * D) :=
  '(interrupt_vector, t) ← Interrupts.install_interrupt_next_vector handler_id h t;
  d ← IOAPIC.install_irq ioapic interrupt_vector irq d;
  registers ← expect hpet;
  interval_femtoseconds ← Milliseconds.femtoseconds interval;
  d ← enable_periodic_timer registers timer_number irq interval_femtoseconds d;
  mret (t, d).
End hpet.
End HPET.

(** ** [tick.rs] *)
Module Tick.
Section tick.
Context {R D : Type} `{!TaskMemory R, !Bus D} {bc : BitfieldCrate} {x86 : X86_64}.
Context (apic ioapic hpet : option Z) (p : Z).
Import Interrupts.
Implicit Types (k : @kernel R D).

(** [TIMERS.lock().retain_mut(..)]: every timer reads the clock again. *)
Fixpoint fire_expired (ts : list (Z * Z)) k : outcome (list (Z * Z) * kernel) :=
  match ts with
  | [] => mret ([], k)
  | (expiration, task_id) :: ts =>
      '(now, d) ← HPET.elapsed_milliseconds hpet (k_devices k);
      if expiration <=? now then
        st ← Sched.awaken_task (k_sched k) p task_id;
        fire_expired ts (mkKernel st d)
      else
        '(ts, k) ← fire_expired ts (mkKernel (k_sched k) d);
        mret ((expiration, task_id) :: ts, k)
  end.

Definition tick_broadcast : handler := λ _ _ k,
  '(ts, k) ← fire_expired (timers (k_sched k)) k;
  d ← LocalAPIC.send_ipi_all_cpus apic (reserved_as_u8 CPUTick) (k_devices k);
  mret (mkKernel (with_timers (k_sched k) ts) d).

Definition cpu_tick : handler := λ _ _ k,
  st ← Sched.cpu_tick_handler (k_sched k) p;
  mret (mkKernel st (k_devices k)).

Definition global_init (t : @table R D) (d : D) : outcome (table * D) :=
  _ ← assert_ (1000 mod Sched.TICK_HZ =? 0);
  HPET.enable_periodic_timer_handler ioapic hpet 0 tick_broadcast IRQTick TimerTick Sched.TICK_MILLIS t d.

Definition per_cpu_init (t : @table R D) : outcome table := install_interrupt_reserved_vector CPUTick 0 cpu_tick t.
End tick.
End Tick.

(** ** The chips

    [chip_sel] and [chip_reg] are the index register of the I/O APIC and the registers
    behind its window; [timer_reg] are the registers of the event timer by offset, the
    comparator's being the interval that was written to it. *)
Definition register_at (base offset : Z) : Prop :=
  KERNEL_PHYSICAL_MAPPING_START ≤ base ∧ base + offset ≤ KERNEL_PHYSICAL_MAPPING_END.

(** The bits of a redirection entry that software cannot write: the delivery status, the
    remote IRR and the reserved ones. *)
Definition entry_read_only (i : Z) : bool := (i =? 12) || (i =? 14) || ((17 <=? i) && (i <? 56)).

(** The writable bits of the event timer's configuration registers, the route apart; the
    comparator, at 0x108, may have 32 bits only. *)
Definition timer_writable (offset i : Z) : bool :=
  if offset =? 0x10 then (i =? 0) || (i =? 1)
  else if offset =? 0x100 then (i =? 1) || (i =? 2) || (i =? 3) || (i =? 8) || (i =? 14)
  else (offset =? 0x108) && (i <? 32).

Class TimerChips (D : Type) `{!Bus D} (ioapic hpet : Z) : Type := {
  chip_sel : D → Z;
  chip_reg : D → Z → Z;
  timer_reg : D → Z → Z;
}.

Definition chip_entry `{TimerChips D ioapic hpet} (d : D) (n : Z) : Z :=
  Z.lor (Z.shiftl (chip_reg d (0x11 + 2 * n)) 32) (chip_reg d (0x10 + 2 * n)).

Class TimerChipsLaws (D : Type) `{TimerChips D ioapic hpet} {bc : BitfieldCrate} : Prop := {
  chip_width d r : in_width 32 (chip_reg d r);
  chip_select v d : let d' := bus_write 1 ioapic v d in
    chip_sel d' = v ∧ (∀ r, chip_reg d' r = chip_reg d r) ∧ (∀ o, timer_reg d' o = timer_reg d o);
  chip_read d : bus_read 4 (ioapic + 0x10) d = (chip_reg d (chip_sel d), d);
  (** a write to the window, of half a redirection entry *)
  chip_write v d n half : 0 ≤ n < 24 → half = 0 ∨ half = 1 → in_width 32 v → chip_sel d = 0x10 + 2 * n + half →
    let d' := bus_write 4 (ioapic + 0x10) v d in
    chip_sel d' = chip_sel d ∧ (∀ r, r ≠ chip_sel d → chip_reg d' r = chip_reg d r) ∧
    (∀ i, 0 ≤ i < 32 → entry_read_only (i + 32 * half) = false → Z.testbit (chip_reg d' (chip_sel d)) i = Z.testbit v i) ∧
    (∀ o, timer_reg d' o = timer_reg d o);
  timer_read o d : o ∈ [0x00; 0x10; 0x100] → bus_read 8 (hpet + o) d = (timer_reg d o, d);
  timer_write o v d : o ∈ [0x10; 0x100; 0x108] → in_width 64 v →
    let d' := bus_write 8 (hpet + o) v d in
    (∀ o', o' ≠ o → timer_reg d' o' = timer_reg d o') ∧
    (∀ i, 0 ≤ i < 64 → timer_writable o i = true → Z.testbit (timer_reg d' o) i = Z.testbit v i) ∧
    (∀ r, chip_reg d' r = chip_reg d r);
  (** a timer takes a route that it is capable of *)
  timer_route v d : in_width 64 v →
    let route := get TimerConfigAndCapabilities "interrupt_route" v in
    Z.testbit (get TimerConfigAndCapabilities "interrupt_routing_capability" (timer_reg d 0x100)) route = true →
    get TimerConfigAndCapabilities "interrupt_route" (timer_reg (bus_write 8 (hpet + 0x100) v d) 0x100) = route;
  timer_width d o : in_width 64 (timer_reg d o);
}.

(** The fields of the redirection entry of an interrupt: it goes to [vector], fixed,
    physical, active high, edge triggered, unmasked. *)
Definition routed `{TimerChips D ioapic hpet} {bc : BitfieldCrate} (d : D) (n vector destination : Z) : Prop :=
  let e := chip_entry d n in
  get IOAPICRedirectionTableRegister "interrupt_vector" e = vector ∧
  get IOAPICRedirectionTableRegister "delivery_mode" e = 0 ∧
  get_bool IOAPICRedirectionTableRegister "destination_mode" e = false ∧
  get_bool IOAPICRedirectionTableRegister "interrupt_input_pin_polarity" e = false ∧
  get_bool IOAPICRedirectionTableRegister "trigger_mode" e = false ∧
  get_bool IOAPICRedirectionTableRegister "interrupt_mask" e = false ∧
  get IOAPICRedirectionTableRegister "destination_field" e = destination.

Section programming.
Context {D : Type} {bus : Bus D} {ioapic hpet : Z} {tc : TimerChips D ioapic hpet} {bc : BitfieldCrate} {bcl : BitfieldCrateLaws}
  {tcl : TimerChipsLaws D}.
Context (Hio : register_at ioapic 0x10) (Hhp : register_at hpet 0x200).
Implicit Types (d : D).

Lemma low_high_bit lo hi i : in_width 32 lo → 0 ≤ i →
  Z.testbit (Z.lor (Z.shiftl hi 32) lo) i = if i <? 32 then Z.testbit lo i else Z.testbit hi (i - 32).
Proof.
  intros Hlo Hi. rewrite Z.lor_spec, Z.shiftl_spec by done. destruct (Z.ltb_spec i 32).
  - by rewrite Z.testbit_neg_r by lia.
  - by rewrite (testbit_high 32 lo), orb_false_r by (done || lia).
Qed.

Lemma write_half n half v d : 0 ≤ n < 24 → half = 0 ∨ half = 1 → in_width 32 v →
  ∃ d', IOAPIC.write_32_bit_register ioapic (0x10 + 2 * n + half) v d = Ret d' ∧
    (∀ r, r ≠ 0x10 + 2 * n + half → chip_reg d' r = chip_reg d r) ∧
    (∀ i, 0 ≤ i < 32 → entry_read_only (i + 32 * half) = false → Z.testbit (chip_reg d' (0x10 + 2 * n + half)) i = Z.testbit v i) ∧
    (∀ o, timer_reg d' o = timer_reg d o).
Proof.
  intros Hn Hh Hv. destruct Hio as [H1 H2]. unfold IOAPIC.write_32_bit_register, write_at_reg, RegisterRW.write.
  rewrite !register_ok by (done || (unfold KERNEL_PHYSICAL_MAPPING_START, HIGHER_HALF_START in H1; lia)).
  run_monad. rewrite Z.add_0_r. set (d1 := bus_write 1 ioapic _ d).
  destruct (chip_select (0x10 + 2 * n + half) d) as (Hs & Hr & Ht). fold d1 in Hs, Hr, Ht.
  destruct (chip_write v d1 n half Hn Hh Hv Hs) as (_ & Hr2 & Hb & Ht2). eexists. split; [done|].
  rewrite Hs in *. split_and!; intros; [by rewrite Hr2, Hr|by apply Hb|by rewrite Ht2].
Qed.

Lemma write_entry n v d : 0 ≤ n < 24 → in_width 64 v →
  ∃ d', IOAPIC.write_ioredtbl ioapic n v d = Ret d' ∧
    (∀ i, 0 ≤ i < 64 → entry_read_only i = false → Z.testbit (chip_entry d' n) i = Z.testbit v i) ∧
    (∀ n', n' ≠ n → chip_entry d' n' = chip_entry d n') ∧
    (∀ o, timer_reg d' o = timer_reg d o).
Proof.
  intros Hn Hv. unfold IOAPIC.write_ioredtbl, IOAPIC.write_64_bit_register, IOAPIC_REDIRECTION_TABLE_REGISTER_OFFSET.
  replace (n <? 24) with true by lia. run_monad. rewrite (umul_ok 8) by lia. run_monad. rewrite (uadd_ok 8) by lia. run_monad.
  assert (Hl : in_width 32 (wrap 32 v)) by (apply Z.mod_pos_bound; lia).
  assert (Hh : in_width 32 (wrap 32 (Z.shiftr v 32))) by (apply Z.mod_pos_bound; lia).
  destruct (write_half n 0 _ d Hn (or_introl eq_refl) Hl) as (d1 & E1 & Hr1 & Hb1 & Ht1).
  destruct (write_half n 1 _ d1 Hn (or_intror eq_refl) Hh) as (d2 & E2 & Hr2 & Hb2 & Ht2).
  replace (16 + n * 2) with (0x10 + 2 * n + 0) by lia. rewrite E1. run_monad. rewrite (uadd_ok 8) by lia. run_monad.
  replace (0x10 + 2 * n + 0 + 1) with (0x10 + 2 * n + 1) by lia. eexists. split; [exact E2|]. unfold chip_entry.
  replace (17 + 2 * n) with (16 + 2 * n + 1) by lia. rewrite Z.add_0_r in *. split_and!.
  - intros i Hi Hro. rewrite low_high_bit by (apply chip_width || lia). destruct (Z.ltb_spec i 32).
    + rewrite Hr2 by lia. rewrite Hb1 by (rewrite ?Z.mul_0_r, ?Z.add_0_r; done || lia). unfold wrap. by rewrite Z.mod_pow2_bits_low by lia.
    + rewrite Hb2 by (try lia; by replace (i - 32 + 32 * 1) with i by lia). unfold wrap.
      rewrite Z.mod_pow2_bits_low, Z.shiftr_spec by lia. f_equal. lia.
  - intros n' Hne. by rewrite !Hr2, !Hr1 by lia.
  - intros o. by rewrite Ht2, Ht1.
Qed.

Lemma read_id d : ∃ d', IOAPIC.ioapic_id ioapic d = Ret (chip_reg d 0, d') ∧
  (∀ r, chip_reg d' r = chip_reg d r) ∧ (∀ o, timer_reg d' o = timer_reg d o).
Proof.
  destruct Hio as [H1 H2]. unfold IOAPIC.ioapic_id, IOAPIC.read_32_bit_register, write_at_reg, read_at_reg, RegisterRW.write, RegisterRW.read.
  rewrite !register_ok by (done || (unfold KERNEL_PHYSICAL_MAPPING_START, HIGHER_HALF_START in H1; lia)).
  run_monad. rewrite Z.add_0_r. destruct (chip_select IOAPIC_ID_REGISTER_OFFSET d) as (Hs & Hr & Ht).
  rewrite chip_read, Hs, Hr. by eexists.
Qed.

Lemma entry_field name o w e v : (∀ i, 0 ≤ i < 64 → entry_read_only i = false → Z.testbit e i = Z.testbit v i) →
  field_from 0 IOAPICRedirectionTableRegister name = Some (o, w) → 0 ≤ o → 0 ≤ w → o + w ≤ 64 →
  (∀ i, o ≤ i < o + w → entry_read_only i = false) →
  get IOAPICRedirectionTableRegister name e = get IOAPICRedirectionTableRegister name v.
Proof. intros Hb E Ho Hw Hs Hro. apply (get_ext _ _ o w); [done..|]. intros i Hi. apply Hb; [lia|by apply Hro]. Qed.

Lemma irq_bound irq : 0 ≤ irq_as_u8 irq < 24.
Proof. by destruct irq. Qed.

Lemma install_irq_ok vector irq d : 0 ≤ vector < 256 →
  ∃ d', IOAPIC.install_irq (Some ioapic) vector irq d = Ret d' ∧
    routed d' (irq_as_u8 irq) vector (get IOAPICID "id" (chip_reg d 0)) ∧
    (∀ n, n ≠ irq_as_u8 irq → chip_entry d' n = chip_entry d n) ∧
    (∀ o, timer_reg d' o = timer_reg d o).
Proof.
  intros Hv. pose proof (get_bound IOAPICID "id" 24 4 (chip_reg d 0) eq_refl ltac:(lia) ltac:(lia)) as Hid.
  unfold IOAPIC.install_irq. run_monad. with_fields. destruct (read_id d) as (d1 & E1 & Hr1 & Ht1). rewrite E1. run_monad. with_fields.
  edestruct (write_entry (irq_as_u8 irq)) as (d2 & E2 & Hb & Hn & Ht2); [apply irq_bound| |eexists; split; [exact E2|]].
  { repeat (apply set_width; [reflexivity|fits|vm_compute; done|]). done. }
  split; [|split; [intros n Hne; rewrite Hn by done; unfold chip_entry; by rewrite !Hr1|intros o; by rewrite Ht2]].
  unfold routed, get_bool. split_and!;
    (erewrite (entry_field _ _ _ _ _ Hb); [|reflexivity|lia..|unfold entry_read_only; intros i Hi; lia]; get_fields; reflexivity).
Qed.

(** The event timer's first timer interrupts every [interval] femtoseconds, at input [n]
    of the I/O APIC. *)
Definition timer_armed d (n interval : Z) : Prop :=
  get_bool GeneralConfiguration "enabled" (timer_reg d 0x10) = true ∧
  get_bool TimerConfigAndCapabilities "is_periodic" (timer_reg d 0x100) = true ∧
  get_bool TimerConfigAndCapabilities "interrupt_enabled" (timer_reg d 0x100) = true ∧
  get TimerConfigAndCapabilities "interrupt_route" (timer_reg d 0x100) = n ∧
  timer_reg d 0x108 mod 2 ^ 32 =
    (interval / get GeneralCapabilitiesAndID "counter_clock_period" (timer_reg d 0x00)) mod 2 ^ 32.

(** What the code needs of the event timer. *)
Definition timer_capable d (n : Z) : Prop :=
  0 < get GeneralCapabilitiesAndID "number_of_timers" (timer_reg d 0x00) ∧
  0 < get GeneralCapabilitiesAndID "counter_clock_period" (timer_reg d 0x00) ∧
  get_bool TimerConfigAndCapabilities "periodic_interrupt_capable" (timer_reg d 0x100) = true ∧
  Z.testbit (get TimerConfigAndCapabilities "interrupt_routing_capability" (timer_reg d 0x100)) n = true.

Lemma timer_registers_ok : HPET.timer_registers hpet TimerTick = Ret (hpet + 0x100).
Proof.
  destruct Hhp as [H1 H2]. unfold HPET.timer_registers. cbn [timer_number_as]. rewrite (umul_ok 64) by lia. run_monad.
  rewrite (uadd_ok 64) by lia. run_monad. apply register_ok; [unfold KERNEL_PHYSICAL_MAPPING_START, HIGHER_HALF_START in H1; lia|lia..].
Qed.

Lemma same_bit b n o v raw : field_from 0 b n = Some (o, 1) → 0 ≤ o → Z.testbit raw o = Z.testbit v o →
  get_bool b n raw = get_bool b n v.
Proof. intros E Ho Hb. by rewrite !(get_1 _ _ _ _ E Ho). Qed.

Lemma hpet_nonneg : 0 ≤ hpet.
Proof. destruct Hhp as [H1 _]. unfold KERNEL_PHYSICAL_MAPPING_START, HIGHER_HALF_START in H1. lia. Qed.

Lemma read_caps d : read_at_reg 8 hpet 0x00 d = Ret (timer_reg d 0x00, d).
Proof.
  pose proof hpet_nonneg. destruct Hhp as [H1 H2]. unfold read_at_reg, RegisterRW.read. rewrite register_ok by lia. run_monad.
  by rewrite timer_read by set_solver.
Qed.

Lemma modify_timer base o f d : o ∈ [0; 0x10] → base + o ∈ [0x10; 0x100] → 0 ≤ base →
  modify_at_reg 8 (hpet + base) o f d = v ← f (timer_reg d (base + o)); mret (bus_write 8 (hpet + (base + o)) v d).
Proof.
  intros Ho Hb H0. pose proof hpet_nonneg. destruct Hhp as [H1 H2].
  assert (0 ≤ o ∧ base + o ≤ 0x200) as [? ?] by (rewrite !elem_of_cons, elem_of_nil in *; lia).
  unfold modify_at_reg, RegisterRW.modify_mut, RegisterRW.read, RegisterRW.write. rewrite register_ok by lia. run_monad.
  rewrite <-Z.add_assoc. by rewrite timer_read by set_solver.
Qed.

Lemma modify_config f d : modify_at_reg 8 hpet 0x10 f d = v ← f (timer_reg d 0x10); mret (bus_write 8 (hpet + 0x10) v d).
Proof. pose proof (modify_timer 0 0x10 f d) as E. rewrite Z.add_0_r in E. apply E; [set_solver..|done]. Qed.

Lemma write_comparator v d : write_at_reg 8 (hpet + 0x100) 0x08 v d = Ret (bus_write 8 (hpet + 0x108) v d).
Proof.
  pose proof hpet_nonneg. destruct Hhp as [H1 H2]. unfold write_at_reg, RegisterRW.write. rewrite register_ok by lia. run_monad.
  by rewrite <-Z.add_assoc.
Qed.

Lemma enable_periodic_timer_ok irq interval d : in_width 64 interval → timer_capable d (irq_as_u8 irq) →
  ∃ d', HPET.enable_periodic_timer hpet TimerTick irq interval d = Ret d' ∧ timer_armed d' (irq_as_u8 irq) interval ∧
    timer_reg d' 0x00 = timer_reg d 0x00 ∧ (∀ r, chip_reg d' r = chip_reg d r).
Proof.
  intros Hi (Hnum & Hper & Hcap & Hroute). assert (Hirq : 0 ≤ irq_as_u8 irq < 2 ^ 5) by (by destruct irq).
  unfold HPET.enable_periodic_timer. rewrite read_caps. run_monad. cbn [timer_number_as].
  rewrite (proj2 (Z.ltb_lt _ _) Hnum). run_monad. rewrite modify_config.
  with_fields. set (gc := set_ GeneralConfiguration _ _ _). assert (Hgc : in_width 64 gc).
  { apply set_width; [reflexivity|fits|vm_compute; done|apply timer_width]. }
  destruct (timer_write 0x10 gc d ltac:(set_solver) Hgc) as (Ho1 & Hb1 & Hr1). set (d1 := bus_write 8 (hpet + 16) gc d) in *.
  rewrite timer_registers_ok. run_monad. rewrite modify_timer by (done || set_solver). rewrite Z.add_0_r, Ho1, Hcap by done. run_monad.
  with_fields. set (tcv := set_ _ "interrupt_route" _ _). assert (Htc : in_width 64 tcv).
  { repeat (apply set_width; [reflexivity|fits|vm_compute; done|]). apply timer_width. }
  destruct (timer_write 0x100 tcv d1 ltac:(set_solver) Htc) as (Ho2 & Hb2 & Hr2). set (d2 := bus_write 8 (hpet + 256) tcv d1) in *.
  unfold udiv. rewrite (proj2 (Z.eqb_neq _ _)) by lia. change (assert_ true) with (Ret ()). run_monad. rewrite write_comparator.
  set (cv := interval / _). assert (Hcv : in_width 64 cv).
  { destruct Hi as [Hi0 Hi1]. split; [by apply Z.div_pos|]. eapply Z.le_lt_trans; [|exact Hi1]. apply Z.div_le_upper_bound; [done|].
    nia. }
  destruct (timer_write 0x108 cv d2 ltac:(set_solver) Hcv) as (Ho3 & Hb3 & Hr3).
  eexists. split; [done|]. unfold timer_armed. fold d2. cbn zeta in Ho3, Hb3, Hr3. rewrite !(Ho3 0x100), !(Ho3 0x10), !(Ho3 0), !(Ho2 0x10), !(Ho2 0), !(Ho1 0) by done.
  split_and!; [..|done|intros r; by rewrite Hr3, Hr2, Hr1].
  - rewrite (same_bit _ _ 0 gc) by (done || by apply Hb1). unfold gc. get_fields. done.
  - rewrite (same_bit _ _ 3 tcv) by (done || by apply Hb2). unfold tcv. get_fields. done.
  - rewrite (same_bit _ _ 2 tcv) by (done || by apply Hb2). unfold tcv. get_fields. done.
  - assert (Hrt : get TimerConfigAndCapabilities "interrupt_route" tcv = irq_as_u8 irq) by (unfold tcv; by get_fields).
    rewrite <-Hrt. apply timer_route; [done|]. by rewrite Hrt, Ho1.
  - apply Z.bits_inj'. intros i H0. destruct (Z.lt_ge_cases i 32); [|by rewrite !Z.mod_pow2_bits_high by lia].
    rewrite !Z.mod_pow2_bits_low by lia. apply Hb3; [lia|]. unfold timer_writable. cbn. lia.
Qed.
End programming.
