(* ===== verification/TickThms.v ===== *)
(** * The timer interrupt, proved

    After [tick::global_init] the event timer interrupts periodically and its interrupt
    reaches [tick_broadcast]; [tick_broadcast] wakes the tasks whose timers expired,
    keeps the other timers and sends the tick to all CPUs. *)
From S2P Require Import Prelude AllocSpec External Addr PhysMem Cells Asm Sched SchedThms SchedProps KStack Registers Interrupts Tick.
#[local] Open Scope Z_scope.

Section fire.
Context {R D : Type} `{!TaskMemory R} {bus : Bus D} {bc : BitfieldCrate} {bcl : BitfieldCrateLaws} {x86 : X86_64}.
Import Interrupts.
Context (hpet : option Z) (p : Z) (clock : D → Z) (in_range : D → Prop).
(** The milliseconds since the start, while their computation does not overflow. *)
Hypothesis clock_reads : ∀ d, in_range d →
  ∃ now d', HPET.elapsed_milliseconds hpet d = Ret (now, d') ∧ in_range d' ∧ clock d ≤ now ≤ clock d'.
Implicit Types (st : state R) (k : @kernel R D) (ts : list (Z * Z)).

Definition alive st (i : Z) : Prop := is_Some (state_of st i) ∧ state_of st i ≠ Some Killed.

(** [fired] is the part of [ts] that the tick from [k] to [k'] takes away, [kept] the rest. *)
Record fires (ts fired kept : list (Z * Z)) k k' : Prop := {
  fires_split : ts ≡ₚ fired ++ kept;
  fires_order : kept `sublist_of` ts;
  fires_expired : ∀ e i, (e, i) ∈ fired → e ≤ clock (k_devices k');
  fires_pending : ∀ e i, (e, i) ∈ kept → clock (k_devices k) < e;
  fires_inv : sched_inv (k_sched k');
  fires_state : ∀ i, state_of (k_sched k') i =
    if decide (i ∈ fired.*2) then Some ReadyToRun else state_of (k_sched k) i;
}.

Lemma fire_expired_ok ts : ∀ k, in_range (k_devices k) → sched_inv (k_sched k) →
  (∀ e i, (e, i) ∈ ts → alive (k_sched k) i) →
  ∃ fired kept k', Tick.fire_expired hpet p ts k = Ret (kept, k') ∧ fires ts fired kept k k' ∧
    in_range (k_devices k') ∧ clock (k_devices k) ≤ clock (k_devices k').
Proof.
  induction ts as [|[e i] ts IH]; intros [st d] Hr I Ha; cbn [Tick.fire_expired k_devices k_sched] in *.
  { exists [], [], (mkKernel st d). split_and!; [done| |done|done]. split; cbn; try done; set_solver. }
  destruct (clock_reads d Hr) as (now & d1 & -> & Hr1 & Hc). run_monad. destruct (Z.leb_spec e now).
  - destruct (Ha e i) as [H1 H2]; [set_solver|].
    destruct (awaken_ok st p i I (state_task _ _ H1) H2) as (st1 & E1 & I1 & _ & S1). rewrite E1. run_monad.
    destruct (IH (mkKernel st1 d1) Hr1 I1) as (fired & kept & k' & E & [F1 F2 F3 F4 F5 F6] & Hr' & Hc').
    { intros e' j Hj. unfold alive. cbn. rewrite S1. case_decide; [split; [by eexists|done]|]. apply (Ha e'). set_solver. }
    cbn [k_devices k_sched] in *. exists ((e, i) :: fired), kept, k'. split_and!; [done| |done|lia]. split; cbn [k_devices k_sched]; try done.
    + cbn. by rewrite F1.
    + by constructor.
    + intros e' j Hj. apply elem_of_cons in Hj as [[= -> ->]|Hj]; [lia|by eapply F3].
    + intros e' j Hj. specialize (F4 _ _ Hj). lia.
    + intros j. rewrite F6, S1. cbn. repeat case_decide; try done; set_solver.
  - destruct (IH (mkKernel st d1) Hr1 I) as (fired & kept & k' & E & [F1 F2 F3 F4 F5 F6] & Hr' & Hc').
    { intros e' j Hj. apply (Ha e'). set_solver. }
    cbn [k_devices k_sched] in *. rewrite E. run_monad. exists fired, ((e, i) :: kept), k'. split_and!; [done| |done|lia].
    split; cbn [k_devices k_sched]; try done.
    + rewrite F1. apply Permutation_middle.
    + by constructor.
    + intros e' j Hj. apply elem_of_cons in Hj as [[= -> ->]|Hj]; [lia|]. specialize (F4 _ _ Hj). lia.
Qed.

Lemma timers_inv st ts : sched_inv st → sched_inv (with_timers st ts).
Proof. intros [H1 H2 H3 H4 H5 H6 H7 H8 H9 H10]. by split. Qed.

(** The command that sends the tick: to all CPUs, fixed delivery, vector 48. *)
Definition tick_command : Z :=
  foldl (λ v '(n, x), set_ InterruptCommandLowBits n x v) 0
    [("delivery_mode", 0); ("destination_mode", 1); ("destination_shorthand", 2); ("level", 1);
     ("vector", APIC_INTERRUPT_START_OFFSET)]%string.

Lemma send_ipi_ok apic d : register_at apic 0x300 →
  LocalAPIC.send_ipi_all_cpus (Some apic) (reserved_as_u8 CPUTick) d = Ret (bus_write 4 (apic + 0x300) tick_command d).
Proof.
  intros [H1 H2]. unfold LocalAPIC.send_ipi_all_cpus. run_monad. with_fields. unfold write_at_reg.
  rewrite register_ok by (done || (unfold KERNEL_PHYSICAL_MAPPING_START, HIGHER_HALF_START in H1; lia)). done.
Qed.

End fire.

Section start.
Context {R D : Type} `{!TaskMemory R} {bus : Bus D} {ioapic hpet : Z} {tc : TimerChips D ioapic hpet}
  {bc : BitfieldCrate} {bcl : BitfieldCrateLaws} {tcl : TimerChipsLaws D} {x86 : X86_64}.
Import Interrupts.

(** [tick::global_init] starts the timer interrupt.  With an event timer that can
    interrupt periodically, the handler is installed at the next free vector; the
    redirection entry of input 9, and no other, is set to that vector; the event timer
    runs and interrupts every 50 ms at input 9.  From then on the vector of that entry
    runs [tick_broadcast]. *)
Theorem tick_starts apic p (t : @table R D) (d : D) :
  register_at ioapic 0x10 → register_at hpet 0x200 → length (handlers t) = 256%nat → 49 ≤ next_open t < 255 →
  timer_capable d 9 →
  ∃ t' d', Tick.global_init apic (Some ioapic) (Some hpet) p t d = Ret (t', d') ∧
    routed d' 9 (next_open t) (get IOAPICID "id" (chip_reg d 0)) ∧
    (∀ n, n ≠ 9 → chip_entry d' n = chip_entry d n) ∧
    timer_armed d' 9 (50 * 10 ^ 12) ∧
    handlers t' = <[Z.to_nat (next_open t) := (0, Tick.tick_broadcast apic (Some hpet) p)]> (handlers t) ∧
    ∀ apic' cr2 q rsp g k, let v := get IOAPICRedirectionTableRegister "interrupt_vector" (chip_entry d' 9) in
      deliver init_idt t' apic' cr2 v q rsp g k
      = dispatch apic' v 0 (Tick.tick_broadcast apic (Some hpet) p) q rsp g k.
Proof.
  intros Hio Hhp Hl Hn Hcap. unfold Tick.global_init, HPET.enable_periodic_timer_handler.
  change (1000 mod Sched.TICK_HZ =? 0) with true. change (assert_ true) with (Ret ()). run_monad.
  rewrite install_next by (done || lia). rewrite (proj2 (Z.ltb_lt (next_open t) 255)) by lia. run_monad.
  destruct (install_irq_ok Hio (next_open t) IRQTick d) as (d1 & E1 & Hrt & Hoth & Ht1); [lia|]. rewrite E1. run_monad.
  change (Milliseconds.femtoseconds Sched.TICK_MILLIS) with (Ret (50 * 10 ^ 12)). run_monad.
  destruct (enable_periodic_timer_ok Hio Hhp IRQTick (50 * 10 ^ 12) d1) as (d2 & E2 & Harm & _ & Hr2); [done| |].
  { unfold timer_capable. rewrite !Ht1. apply Hcap. }
  rewrite E2. run_monad. assert (He : ∀ n, chip_entry d2 n = chip_entry d1 n) by (intros n; unfold chip_entry; by rewrite !Hr2).
  do 2 eexists. split; [done|]. split; [unfold routed; rewrite He; exact Hrt|]. split; [intros n Hne; rewrite He; by apply Hoth|].
  split; [exact Harm|]. split; [done|]. intros apic' cr2 q rsp g k. cbv zeta. rewrite He. change (irq_as_u8 IRQTick) with 9 in Hrt. rewrite (proj1 Hrt).
  apply deliver_stub; [lia|]. cbn [handlers]. apply list_lookup_insert_eq. lia.
Qed.
End start.

(** ** A board

    The chips keep what is written to them; the counter of the event timer stands at
    100 ms. *)
Module Example.
#[local] Existing Instances documented_x86_64 documented_bitfield documented_bitfield_laws demo_memory.

Definition io_base : Z := KERNEL_PHYSICAL_MAPPING_START + 0xfec00000.
Definition hpet_base : Z := KERNEL_PHYSICAL_MAPPING_START + 0xfed00000.
Definition apic_base : Z := KERNEL_PHYSICAL_MAPPING_START + 0xfee00000.

Record board : Type := mkBoard { b_sel : Z; b_io : gmap Z Z; b_timer : gmap Z Z }.

#[local] Instance board_bus : Bus board := {|
  bus_read bytes a d :=
    if a =? io_base + 0x10 then (wrap 32 (default 0 (b_io d !! b_sel d)), d)
    else (wrap 64 (default 0 (b_timer d !! (a - hpet_base))), d);
  bus_write bytes a v d :=
    if a =? io_base then mkBoard v (b_io d) (b_timer d)
    else if a =? io_base + 0x10 then mkBoard (b_sel d) (<[b_sel d := v]> (b_io d)) (b_timer d)
    else mkBoard (b_sel d) (b_io d) (<[a - hpet_base := v]> (b_timer d));
|}.

#[local] Instance board_chips : TimerChips board io_base hpet_base := {|
  chip_sel := b_sel;
  chip_reg d r := wrap 32 (default 0 (b_io d !! r));
  timer_reg d o := wrap 64 (default 0 (b_timer d !! o));
|}.

Lemma hpet_not_io o : 0 ≤ o ≤ 0x200 → (hpet_base + o =? io_base) = false ∧ (hpet_base + o =? io_base + 0x10) = false.
Proof. unfold hpet_base, io_base. lia. Qed.

#[local] Instance board_laws : TimerChipsLaws board.
Proof.
  split.
  - intros d r. apply Z.mod_pos_bound. lia.
  - intros v d. cbn. by rewrite Z.eqb_refl.
  - intros d. cbn -[wrap]. by rewrite Z.eqb_refl.
  - intros v d n half Hn Hh Hv Hs. cbn -[wrap]. rewrite Z.eqb_refl. cbn -[wrap].
    replace (io_base + 16 =? io_base) with false by (unfold io_base; lia). cbn -[wrap]. split_and!; [done| |  |done].
    + intros r Hr. by rewrite lookup_insert_ne by done.
    + intros i Hi _. rewrite lookup_insert_eq. cbn [default]. unfold wrap. by rewrite Z.mod_small by apply Hv.
  - intros o d Ho. destruct (hpet_not_io o) as [E1 E2]; [rewrite !elem_of_cons, elem_of_nil in Ho; lia|].
    cbn -[wrap]. rewrite E2. by replace (hpet_base + o - hpet_base) with o by lia.
  - intros o v d Ho Hv. destruct (hpet_not_io o) as [E1 E2]; [rewrite !elem_of_cons, elem_of_nil in Ho; lia|].
    cbn -[wrap]. rewrite E1, E2. replace (hpet_base + o - hpet_base) with o by lia. cbn -[wrap]. split_and!; [| |done].
    + intros o' Hne. by rewrite lookup_insert_ne by done.
    + intros i Hi _. rewrite lookup_insert_eq. cbn [default]. unfold wrap. by rewrite Z.mod_small by apply Hv.
  - intros v d Hv route Hr. cbn -[wrap get TimerConfigAndCapabilities]. destruct (hpet_not_io 0x100) as [E1 E2]; [lia|].
    rewrite E1, E2. replace (hpet_base + 256 - hpet_base) with 256 by lia. cbn -[wrap get TimerConfigAndCapabilities].
    rewrite lookup_insert_eq. cbn [default]. unfold wrap. by rewrite Z.mod_small by apply Hv.
  - intros d o. apply Z.mod_pos_bound. lia.
Qed.

(** Two timers of 10 ns, the first periodic and with routes 9 and 11. *)
Definition board0 : board :=
  mkBoard 0 {[ 0 := Z.shiftl 2 24 ]}
    {[ 0x00 := Z.lor (Z.shiftl 10000000 32) (Z.shiftl 1 8); 0x100 := Z.lor (Z.shiftl 0xa00 32) 0x10; 0xF0 := 10000000 ]}.

Lemma board_at base o : base ∈ [io_base; hpet_base; apic_base] → 0 ≤ o ≤ 0x1000 → register_at base o.
Proof.
  rewrite !elem_of_cons, elem_of_nil. unfold register_at, io_base, hpet_base, apic_base, KERNEL_PHYSICAL_MAPPING_START, KERNEL_PHYSICAL_MAPPING_END, HIGHER_HALF_START.
  lia.
Qed.

Lemma tick_starts_witness :
  ∃ t' d', Tick.global_init (Some apic_base) (Some io_base) (Some hpet_base) 0 (Interrupts.initial_table (R := Z)) board0 = Ret (t', d') ∧
    routed d' 9 49 2 ∧ timer_armed d' 9 (50 * 10 ^ 12).
Proof.
  destruct (tick_starts (Some apic_base) 0 (Interrupts.initial_table (R := Z)) board0) as (t' & d' & E & Hr & _ & Ha & _).
  - apply board_at; [set_solver|lia].
  - apply board_at; [set_solver|lia].
  - reflexivity.
  - vm_compute. split; [discriminate|reflexivity].
  - vm_compute. repeat split; reflexivity.
  - exists t', d'. split; [exact E|]. split; [exact Hr|exact Ha].
Defined.

(** The timer of task 3 has expired, that of task 2 has not. *)
Definition ticking : Interrupts.kernel :=
  Interrupts.mkKernel (with_timers demo4 [(50, 3); (200, 2)]) board0.

End Example.
