(* ===== verification/PciIds.v ===== *)
(** * Names of PCI devices ([kernel/src/pci/device_id.rs])

    What the kernel reports about a device it found: the names of known vendors and
    devices, and the class of a device from its class codes. *)
From S2P Require Import Prelude.
#[local] Open Scope Z_scope.
#[local] Open Scope string_scope.

Definition lookup_vendor_id (vendor_id : Z) : string :=
  match vendor_id with
  | 0xFFFF => "INVALID (0xFFFF)"
  | 0x8086 | 0x8087 => "Intel Corp."
  | 0x1af4 => "virtio"
  | 0x1002 => "Advanced Micro Devices, Inc. [AMD/ATI]"
  | _ => "UNKNOWN"
  end.

Definition lookup_known_device_id (vendor_id device_id : Z) : string :=
  match vendor_id, device_id with
  | 0x8086, 0x10d3 => "82574L Gigabit Network Connection"
  | 0x8086, 0x2918 => "82801IB (ICH9) LPC Interface Controller"
  | 0x8086, 0x2922 => "82801IR/IO/IH (ICH9R/DO/DH) 6 port SATA Controller [AHCI mode]"
  | 0x8086, 0x2930 => "82801I (ICH9 Family) SMBus Controller"
  | 0x8086, 0x29c0 => "82G33/G31/P35/P31 Express DRAM Controller"
  | 0x1af4, 0x1000 => "network card"
  | 0x1af4, 0x1001 => "block device"
  | 0x1af4, 0x1002 => "memory ballooning (traditional)"
  | 0x1af4, 0x1003 => "console"
  | 0x1af4, 0x1004 => "SCSI host"
  | 0x1af4, 0x1005 => "entropy source"
  | 0x1af4, 0x1009 => "9P transport"
  | 0x1af4, 0x1040 => "reserved (invalid)"
  | 0x1af4, 0x1041 => "network card"
  | 0x1af4, 0x1042 => "block device"
  | 0x1af4, 0x1043 => "console"
  | 0x1af4, 0x1044 => "entropy source"
  | 0x1af4, 0x1045 => "memory ballooning (traditional)"
  | 0x1af4, 0x1046 => "ioMemory"
  | 0x1af4, 0x1047 => "rpmsg"
  | 0x1af4, 0x1048 => "SCSI host"
  | 0x1af4, 0x1049 => "9P transport"
  | 0x1af4, 0x104A => "mac80211 wlan"
  | 0x1af4, 0x104B => "rproc serial"
  | 0x1af4, 0x104C => "virtio CAIF"
  | 0x1af4, 0x104D => "memory balloon"
  | 0x1af4, 0x1050 => "GPU device"
  | 0x1af4, 0x1051 => "Timer/Clock device"
  | 0x1af4, 0x1052 => "Input device"
  | 0x1af4, 0x1053 => "Socket device"
  | 0x1af4, 0x1054 => "Crypto device"
  | 0x1af4, 0x1055 => "Signal Distribution Module"
  | 0x1af4, 0x1056 => "pstore device"
  | 0x1af4, 0x1057 => "IOMMU device"
  | 0x1af4, 0x1058 => "Memory device"
  | 0x1af4, 0x1059 => "Audio device"
  | 0x1af4, 0x105A => "file system device"
  | 0x1af4, 0x105B => "PMEM device"
  | 0x1af4, 0x105C => "RPMB device"
  | 0x1af4, 0x105D => "mac80211 hwsim wireless simulation device"
  | 0x1af4, 0x105E => "Video encoder device"
  | 0x1af4, 0x105F => "Video decoder device"
  | 0x1af4, 0x1060 => "SCMI device"
  | 0x1af4, 0x1061 => "NitroSecureModule"
  | 0x1af4, 0x1062 => "I2C adapter"
  | 0x1af4, 0x1063 => "Watchdog"
  | 0x1af4, 0x1064 => "CAN device"
  | 0x1af4, 0x1066 => "Parameter Server"
  | 0x1af4, 0x1067 => "Audio policy device"
  | 0x1af4, 0x1068 => "Bluetooth device"
  | 0x1af4, 0x1069 => "GPIO device"
  | 0x1af4, 0x106A => "RDMA device"
  | _, _ => "UNKNOWN"
  end.

Inductive PCIDeviceClass : Type :=
| Unclassified | MassStorageController | NetworkController | DisplayController
| MultimediaController | MemoryController | BridgeDevice | SimpleCommunicationController
| BaseSystemPeripheral | InputDeviceController | DockingStation | Processor
| SerialBusController | WirelessController | IntelligentController | SatelliteCommunicationController
| EncryptionController | SignalProcessingController | ProcessingAccelerator | NonEssentialInstrumentation
| Coprocessor | Unassigned.

Definition from_byte (class : Z) : result PCIDeviceClass string :=
  match class with
  | 0x00 => Ok Unclassified
  | 0x01 => Ok MassStorageController
  | 0x02 => Ok NetworkController
  | 0x03 => Ok DisplayController
  | 0x04 => Ok MultimediaController
  | 0x05 => Ok MemoryController
  | 0x06 => Ok BridgeDevice
  | 0x07 => Ok SimpleCommunicationController
  | 0x08 => Ok BaseSystemPeripheral
  | 0x09 => Ok InputDeviceController
  | 0x0A => Ok DockingStation
  | 0x0B => Ok Processor
  | 0x0C => Ok SerialBusController
  | 0x0D => Ok WirelessController
  | 0x0E => Ok IntelligentController
  | 0x0F => Ok SatelliteCommunicationController
  | 0x10 => Ok EncryptionController
  | 0x11 => Ok SignalProcessingController
  | 0x12 => Ok ProcessingAccelerator
  | 0x13 => Ok NonEssentialInstrumentation
  | 0x40 => Ok Coprocessor
  | 0xFF => Ok Unassigned
  | _ => Err "invalid PCI device class"
  end.

Definition device_type (class subclass prog_if : Z) : result string string :=
  match from_byte class with
  | Err e => Err e
  | Ok MassStorageController =>
      match subclass with
      | 0x00 => Ok "Mass Storage Controller: SCSI"
      | 0x01 => Ok "Mass Storage Controller: IDE"
      | 0x02 => Ok "Mass Storage Controller: FloppyDisk"
      | 0x03 => Ok "Mass Storage Controller: IPIBus"
      | 0x04 => Ok "Mass Storage Controller: RAID"
      | 0x05 => Ok "Mass Storage Controller: ATA"
      | 0x06 =>
          match prog_if with
          | 0x00 => Ok "Mass Storage Controller: SATA: VendorSpecific"
          | 0x01 => Ok "Mass Storage Controller: SATA: AHCI1_0"
          | 0x02 => Ok "Mass Storage Controller: SATA: SerialStorageBus"
          | _ => Err "invalid PCI device mass storage controller SATA prog_if"
          end
      | 0x07 => Ok "Mass Storage Controller: SAS"
      | 0x08 => Ok "Mass Storage Controller: NVM"
      | 0x80 => Ok "Mass Storage Controller: Other"
      | _ => Err "invalid PCI device mass storage controller subclass"
      end
  | Ok Unclassified => Ok "Unclassified"
  | Ok NetworkController => Ok "Network Controller"
  | Ok DisplayController => Ok "Display Controller"
  | Ok MultimediaController => Ok "Multimedia Controller"
  | Ok MemoryController => Ok "Memory Controller"
  | Ok BridgeDevice => Ok "Bridge Device"
  | Ok SimpleCommunicationController => Ok "Simple Communication Controller"
  | Ok BaseSystemPeripheral => Ok "Base System Peripheral"
  | Ok InputDeviceController => Ok "Input Device Controller"
  | Ok DockingStation => Ok "Docking Station"
  | Ok Processor => Ok "Processor"
  | Ok SerialBusController => Ok "Serial Bus Controller"
  | Ok WirelessController => Ok "Wireless Controller"
  | Ok IntelligentController => Ok "Intelligent Controller"
  | Ok SatelliteCommunicationController => Ok "Satellite Communication Controller"
  | Ok EncryptionController => Ok "Encryption Controller"
  | Ok SignalProcessingController => Ok "Signal Processing Controller"
  | Ok ProcessingAccelerator => Ok "Processing Accelerator"
  | Ok NonEssentialInstrumentation => Ok "Non Essential Instrumentation"
  | Ok Coprocessor => Ok "Coprocessor"
  | Ok Unassigned => Ok "Unassigned"
  end.

(** A virtio device of the current kind, [0x1040] plus its number, is never reported as
    unknown for the device types the kernel drives, and is named as the device of the
    older kind is. *)
Lemma virtio_names_agree :
  lookup_known_device_id 0x1af4 (0x1040 + 1) = lookup_known_device_id 0x1af4 0x1000 ∧
  lookup_known_device_id 0x1af4 (0x1040 + 2) = lookup_known_device_id 0x1af4 0x1001 ∧
  lookup_known_device_id 0x1af4 (0x1040 + 3) = lookup_known_device_id 0x1af4 0x1003 ∧
  lookup_known_device_id 0x1af4 (0x1040 + 4) = lookup_known_device_id 0x1af4 0x1005.
Proof. done. Qed.

(** Only storage devices are told apart by their subclass. *)
Lemma device_type_by_class class subclass subclass' prog_if prog_if' : from_byte class ≠ Ok MassStorageController →
  device_type class subclass prog_if = device_type class subclass' prog_if'.
Proof. unfold device_type. by destruct (from_byte class) as [[]|]. Qed.
