(* ===== verification/Pci.v ===== *)
(** * The PCI bus ([kernel/src/pci])

    Devices are found in the configuration space, one block of registers per function of
    every device of every bus; a block tells where the device's own registers are (its
    BARs) and has a linked list of capabilities, one of which describes how the device
    sends interrupts (MSI-X).  The registers of a device are mapped before they are used:
    [DeviceMapping] is that part of the memory manager. *)
From S2P Require Import Prelude AllocSpec External Addr PhysMem PageTable Mapping Registers.
Import PageTable.
#[local] Open Scope Z_scope.

(** ** [location.rs] *)
Record PCIDeviceLocation : Type := mkLocation {
  ecam_base_address : Z; bus_number : Z; device_number : Z; function_number : Z;
}.

Definition device_base_address (self : PCIDeviceLocation) : outcome Z :=
  KernPhysAddr.add (ecam_base_address self)
    (Z.lor (Z.lor (Z.shiftl (bus_number self) 20) (Z.shiftl (device_number self) 15)) (Z.shiftl (function_number self) 12)).

Definition MAX_PCI_BUS : Z := 255.
Definition MAX_PCI_BUS_DEVICE : Z := 31.
Definition MAX_PCI_BUS_DEVICE_FUNCTION : Z := 7.

(** The addresses of the registers in the block of a device. *)
Record PCIDeviceConfig : Type := mkConfig { location : PCIDeviceLocation; device_id : Z; common_registers : Z }.

Definition PCIDeviceConfigStatus : bitfield :=
  [("immediate_readiness", 1); ("__1", 2); ("interrupt_status", 1); ("capabilities_list", 1); ("mhz_66_capable", 1);
   ("__2", 1); ("fast_back_to_back_transactions_capable", 1); ("master_data_parity_error", 1); ("devsel_timing", 2);
   ("signaled_target_abort", 1); ("received_target_abort", 1); ("received_master_abort", 1);
   ("signaled_system_error", 1); ("detected_parity_error", 1)]%string.

Inductive PCIDeviceConfigHeaderLayout : Type := GeneralDevice | PCIToPCIBridge.
Definition layout (header_type : Z) : result PCIDeviceConfigHeaderLayout string :=
  match Z.land header_type 0x7 with
  | 0x00 => Ok GeneralDevice
  | 0x01 => Ok PCIToPCIBridge
  | _ => Err "invalid PCI device header type"%string
  end.

(** ** BARs *)
Inductive BARAddress : Type :=
| Mem32Bit (address : Z) (prefetchable : bool)
| Mem64Bit (address : Z) (prefetchable : bool)
| IO (address : Z).

Fixpoint interpreted_loop (fuel : nat) (bars : list Z) (i : Z) (addresses : list (option BARAddress))
  : outcome (list (option BARAddress)) :=
  match fuel with
  | O => Diverge
  | S fuel =>
      match bars !! Z.to_nat i with
      | None => mret addresses
      | Some bar =>
          if bar =? 0 then interpreted_loop fuel bars (i + 1) addresses
          else
            let next_bar := bars !! Z.to_nat (i + 1) in
            let bit_0 := Z.land bar 1 in
            let bit_1_2 := Z.land (Z.shiftr bar 1) 3 in
            let bit_3 := Z.land (Z.shiftr bar 3) 1 in
            match bit_0, bit_1_2 with
            | 0, 0 =>
                let address := Z.land bar 0xfffffff0 in
                interpreted_loop fuel bars (i + 1) (<[Z.to_nat i := Some (Mem32Bit address (bit_3 =? 1))]> addresses)
            | 0, 2 =>
                next_bar ← expect next_bar;
                let address := Z.lor (Z.shiftl next_bar 32) (Z.land bar 0xfffffff0) in
                interpreted_loop fuel bars (i + 2)
                  (<[Z.to_nat (i + 1) := None]> (<[Z.to_nat i := Some (Mem64Bit address (bit_3 =? 1))]> addresses))
            | 1, _ =>
                let addr := Z.land bar 0xfffffffc in
                interpreted_loop fuel bars (i + 1) (<[Z.to_nat i := Some (IO addr)]> addresses)
            | _, _ => Panic PanicExplicit
            end
      end
  end.

Definition interpreted (bars : list Z) : outcome (list (option BARAddress)) :=
  interpreted_loop (S (length bars)) bars 0 (replicate (length bars) None).

(** ** Capabilities ([capabilities.rs]) *)
Record PCIDeviceCapabilityHeader : Type := mkHeader { config_base_address : Z; header_registers : Z }.

Inductive PCIDeviceCapability : Type :=
| MSIX (registers : Z)
| VendorSpecific (header : PCIDeviceCapabilityHeader)
| OtherCapability (header : PCIDeviceCapabilityHeader).

Definition MSIX_CAPABILITY_ID : Z := 0x11.
Definition VENDOR_SPECIFIC_CAPABILITY_ID : Z := 0x09.

Module Header.
Section header.
Context {D : Type} `{!Bus D}.
Implicit Types (self : PCIDeviceCapabilityHeader) (d : D).

Definition new (config_base_address offset : Z) : outcome (option PCIDeviceCapabilityHeader) :=
  if offset =? 0 then mret None
  else
    address ← KernPhysAddr.add config_base_address offset;
    mret (Some (mkHeader config_base_address address)).

Definition msix_from_capability self d : outcome (option Z * D) :=
  '(id, d) ← read_at_reg 1 (header_registers self) 0x0 d;
  mret (if id =? MSIX_CAPABILITY_ID then Some (header_registers self) else None, d).

Definition capability self d : outcome (PCIDeviceCapability * D) :=
  '(id, d) ← read_at_reg 1 (header_registers self) 0x0 d;
  if id =? MSIX_CAPABILITY_ID then
    '(c, d) ← msix_from_capability self d;
    c ← expect c;
    mret (MSIX c, d)
  else if id =? VENDOR_SPECIFIC_CAPABILITY_ID then mret (VendorSpecific self, d)
  else mret (OtherCapability self, d).

Definition next_capability self d : outcome (option PCIDeviceCapabilityHeader * D) :=
  '(next, d) ← read_at_reg 1 (header_registers self) 0x1 d;
  h ← new (config_base_address self) next;
  mret (h, d).

(** [PCIDeviceCapabilityIterator::next]: the item, and the iterator *)
Definition next (ptr : option PCIDeviceCapabilityHeader) d
  : outcome (option PCIDeviceCapabilityHeader * option PCIDeviceCapabilityHeader * D) :=
  match ptr with
  | None => mret (None, None, d)
  | Some h => '(ptr, d) ← next_capability h d; mret (Some h, ptr, d)
  end.

(** [for cap in iter { .. }] with a body that may return *)
Fixpoint for_capabilities {S R} (fuel : nat) (body : PCIDeviceCapabilityHeader → S → D → outcome (flow S R * D))
    (ptr : option PCIDeviceCapabilityHeader) (s : S) d : outcome (flow S R * D) :=
  match fuel with
  | O => Diverge
  | Datatypes.S fuel =>
      '(item, ptr, d) ← next ptr d;
      match item with
      | None => mret (Next s, d)
      | Some h =>
          '(r, d) ← body h s d;
          match r with
          | Next s => for_capabilities fuel body ptr s d
          | Stop r => mret (Stop r, d)
          end
      end
  end.
End header.
End Header.

(** ** MSI-X *)
Definition MSIXMessageControl : bitfield := [("table_size", 11); ("__reserved", 3); ("function_mask", 1); ("enable", 1)]%string.
Definition bar_indicator_register (offset : Z) : Z := Z.land offset 7.
Definition table_offset (offset : Z) : Z := Z.land offset 0xfffffff8.

Definition RawMSIXMessageAddress : bitfield :=
  [("__reserved", 2); ("destination_mode", 1); ("redirection_hint", 1); ("__reserved2", 8); ("destination_id", 8);
   ("intel_prefix", 12)]%string.
Definition MSIXMessageData : bitfield :=
  [("vector", 8); ("delivery_mode", 3); ("__reserved", 3); ("level", 1); ("trigger_mode", 1); ("__reserved2", 16)]%string.
Definition MSIXVectorControl : bitfield := [("mask_bit", 1); ("__reserved", 15); ("st_lower", 8); ("st_upper", 8)]%string.
Definition INTEL_PREFIX : Z := 0x0fee.

(** [MSIXTable] and [MSIXPBA]: an address and a number of entries *)
Record MSIXTable : Type := mkMsixTable { table_address : Z; table_size : Z }.
Record MSIXConfig : Type := mkMsix { msix_registers : Z; msix_table : MSIXTable; msix_pba : MSIXTable }.

Section msix.
Context {D : Type} `{!Bus D} {bc : BitfieldCrate}.
Implicit Types (d : D).

(** [MSIXTable::entry]: the address of the entry's registers *)
Definition msix_entry (self : MSIXTable) (index : Z) : outcome Z :=
  _ ← assert_ (index <? table_size self);
  o ← umul 64 index 16;
  KernPhysAddr.add (table_address self) o.

(** [MSIXPBA::entry] *)
Definition pba_entry (self : MSIXTable) (index : Z) d : outcome (option Z * D) :=
  if table_size self <=? index then mret (None, d)
  else
    o ← umul 64 index 16;
    a ← KernPhysAddr.add (table_address self) o;
    '(v, d) ← RegisterRW.read 8 a d;
    mret (Some v, d).

(** [MSIXMessageAddress::new] *)
Definition message_address (processor_id : Z) : outcome Z :=
  v ← with_ RawMSIXMessageAddress "intel_prefix" INTEL_PREFIX 0;
  v ← with_ RawMSIXMessageAddress "destination_id" processor_id v;
  v ← with_bool RawMSIXMessageAddress "redirection_hint" false v;
  with_bool RawMSIXMessageAddress "destination_mode" false v.

Definition set_interrupt_vector (entry processor_id vector : Z) d : outcome D :=
  a ← message_address processor_id;
  d ← write_at_reg 4 entry 0x0 a d;
  v ← with_ MSIXMessageData "vector" vector 0;
  d ← write_at_reg 4 entry 0x8 v d;
  modify_at_reg 4 entry 0xc (with_bool MSIXVectorControl "mask_bit" false) d.

Definition msix_enable (self : MSIXConfig) d : outcome D :=
  modify_at_reg 2 (msix_registers self) 0x2 (with_bool MSIXMessageControl "enable" true) d.
End msix.

(** ** Devices ([device.rs]) *)

(** Mapping pages of device memory for the kernel, present and writable. *)
Class DeviceMapping (K : Type) : Type := { map_device_pages : list Page → K → outcome K }.

Section kernel_mapping.
Context {x86 : X86_64} {bf : Bitflags} {A : Type} {CA : ContiguousAllocator A}.

#[export] Instance kernel_device_mapping : DeviceMapping (kmem A) := {|
  map_device_pages pages k :=
    '(r, k) ← with_kernel_page_table_lock (λ table k,
      identity_map_physical_pages table pages (flags_or PRESENT WRITABLE) k) k;
    match r with Ok _ => mret k | Err _ => Panic PanicExpect end
|}.
End kernel_mapping.

(** [PCIDeviceConfigType0]: the address of its registers comes from the location again *)
Record PCIDeviceConfigType0 : Type := mkType0 { common_config : PCIDeviceConfig; type0_registers : Z }.
Inductive PCIDeviceConfigTypes : Type := TGeneralDevice (c : PCIDeviceConfigType0) | TPCIToPCIBridge.

Section device.
Context {x86 : X86_64} {D K : Type} `{!Bus D, !DeviceMapping K} {bc : BitfieldCrate}.
Implicit Types (self : PCIDeviceConfig) (d : D) (k : K).

Definition config_new (l : PCIDeviceLocation) d : outcome (option PCIDeviceConfig * D) :=
  id ← device_base_address l;
  '(vendor_id, d) ← read_at_reg 2 id 0x00 d;
  if vendor_id =? 0xFFFF then mret (None, d)
  else
    c ← device_base_address l;
    mret (Some (mkConfig l id c), d).

(** The closure works on the devices and on what it captures. *)
Definition for_pci_devices_brute_force {X} (base_addr : Z) (f : PCIDeviceConfig → D * X → outcome (D * X))
  : D * X → outcome (D * X) :=
  foldM (λ bus, foldM (λ slot, foldM (λ function '(d, x),
    '(config, d) ← config_new (mkLocation base_addr bus slot function) d;
    match config with
    | None => mret (d, x)
    | Some config => f config (d, x)
    end) (range 0 (MAX_PCI_BUS_DEVICE_FUNCTION + 1))) (range 0 (MAX_PCI_BUS_DEVICE + 1))) (range 0 (MAX_PCI_BUS + 1)).

Definition from_common_config (c : PCIDeviceConfig) : outcome PCIDeviceConfigType0 :=
  address ← device_base_address (location c);
  mret (mkType0 c address).

Definition config_type self d : outcome (result PCIDeviceConfigTypes string * D) :=
  '(header_type, d) ← read_at_reg 1 (common_registers self) 0x0E d;
  match layout header_type with
  | Err e => mret (Err e, d)
  | Ok GeneralDevice => t0 ← from_common_config self; mret (Ok (TGeneralDevice t0), d)
  | Ok PCIToPCIBridge => mret (Ok TPCIToPCIBridge, d)
  end.

Definition iter_capabilities self d : outcome (option PCIDeviceCapabilityHeader * D) :=
  '(status, d) ← read_at_reg 2 (common_registers self) 0x06 d;
  if negb (get_bool PCIDeviceConfigStatus "capabilities_list" status) then mret (None, d)
  else
    '(offset, d) ← read_at_reg 1 (common_registers self) 0x34 d;
    h ← Header.new (common_registers self) offset;
    mret (h, d).

Definition bar_addresses (t0 : PCIDeviceConfigType0) d : outcome (list Z * D) :=
  '(bar0, d) ← read_at_reg 4 (type0_registers t0) 0x10 d;
  '(bar1, d) ← read_at_reg 4 (type0_registers t0) 0x14 d;
  '(bar2, d) ← read_at_reg 4 (type0_registers t0) 0x18 d;
  '(bar3, d) ← read_at_reg 4 (type0_registers t0) 0x1C d;
  '(bar4, d) ← read_at_reg 4 (type0_registers t0) 0x20 d;
  '(bar5, d) ← read_at_reg 4 (type0_registers t0) 0x24 d;
  mret ([bar0; bar1; bar2; bar3; bar4; bar5], d).

Definition bar (t0 : PCIDeviceConfigType0) (bar_idx : Z) d : outcome (BARAddress * D) :=
  '(bars, d) ← bar_addresses t0 d;
  addresses ← interpreted bars;
  a ← expect (addresses !! Z.to_nat bar_idx);
  match a with Some a => mret (a, d) | None => Panic PanicExplicit end.

Definition bar_region_physical_address (t0 : PCIDeviceConfigType0) (bar_idx physical_offset region_size : Z) d k : outcome (Z * D * K) :=
  '(b, d) ← bar t0 bar_idx d;
  bar_phys_addr ← match b with
                  | Mem32Bit address _ | Mem64Bit address _ => PhysAddr_new address
                  | IO _ => Panic PanicExplicit
                  end;
  bar_phys_addr ← KernPhysAddr.from_phys_addr bar_phys_addr;
  config_start_addr ← KernPhysAddr.add bar_phys_addr physical_offset;
  start_page ← containing_address config_start_addr Size4KiB;
  pages ← from_num_bytes start_page region_size;
  pages ← PageRange_iter (addr := AddressKernPhys) pages;
  k ← map_device_pages pages k;
  mret (config_start_addr, d, k).

Definition msix_new (t0 : PCIDeviceConfigType0) (registers : Z) d k : outcome (MSIXConfig * D * K) :=
  '(control, d) ← read_at_reg 2 registers 0x2 d;
  table_size ← uadd 16 (get MSIXMessageControl "table_size" control) 1;
  '(bits, d) ← read_at_reg 4 registers 0x4 d;
  table_region_size ← umul 64 table_size 16;
  '(table_address, d, k) ← bar_region_physical_address t0 (bar_indicator_register bits) (table_offset bits) table_region_size d k;
  '(bits, d) ← read_at_reg 4 registers 0x8 d;
  pba_region_size ← umul 64 table_size 8;
  '(pba_address, d, k) ← bar_region_physical_address t0 (bar_indicator_register bits) (table_offset bits) pba_region_size d k;
  mret (mkMsix registers (mkMsixTable table_address table_size) (mkMsixTable pba_address table_size), d, k).

Definition msix_config (fuel : nat) (t0 : PCIDeviceConfigType0) d k : outcome (option MSIXConfig * D * K) :=
  '(caps, d) ← iter_capabilities (common_config t0) d;
  '(r, d) ← Header.for_capabilities fuel (λ cap k d,
      '(c, d) ← Header.capability cap d;
      match c with
      | MSIX registers => '(m, d, k) ← msix_new t0 registers d k; mret (Stop (m, k), d)
      | _ => mret (Next k, d)
      end) caps k d;
  match r with
  | Stop (m, k) => mret (Some m, d, k)
  | Next k => mret (None, d, k)
  end.
End device.
