(* ===== verification/PciThms.v ===== *)
(** * The PCI bus, proved

    The BARs that a device declares are the ones the kernel reads; the list of
    capabilities is visited in order, and the walk ends exactly when the list does; the
    scan calls its closure for the functions that are there, each at its own address. *)
From S2P Require Import Prelude AllocSpec External Addr PhysMem PageTable Mapping Registers Tick Pci.
#[local] Open Scope Z_scope.

(** ** BARs

    What a device declares, and how it is laid out in the BAR registers. *)
Inductive bar_decl : Type :=
| NoBar
| DeclMem32 (address : Z) (prefetchable : bool)
| DeclMem64 (address : Z) (prefetchable : bool)
| DeclIO (address : Z).

Definition bar_valid (b : bar_decl) : Prop :=
  match b with
  | NoBar => True
  | DeclMem32 a _ => 0 < a < 2 ^ 32 ∧ a mod 16 = 0
  | DeclMem64 a _ => 0 ≤ a < 2 ^ 64 ∧ a mod 16 = 0
  | DeclIO a => 0 ≤ a < 2 ^ 32 ∧ a mod 4 = 0
  end.

Definition bar_registers (b : bar_decl) : list Z :=
  match b with
  | NoBar => [0]
  | DeclMem32 a pf => [a + 8 * Z.b2z pf]
  | DeclMem64 a pf => [a mod 2 ^ 32 + 8 * Z.b2z pf + 4; a / 2 ^ 32]
  | DeclIO a => [a + 1]
  end.

Definition bar_meaning (b : bar_decl) : list (option BARAddress) :=
  match b with
  | NoBar => [None]
  | DeclMem32 a pf => [Some (Mem32Bit a pf)]
  | DeclMem64 a pf => [Some (Mem64Bit a pf); None]
  | DeclIO a => [Some (IO a)]
  end.

Lemma land_high n x : 0 ≤ n ≤ 32 → 0 ≤ x < 2 ^ 32 → Z.land x (Z.shiftl (Z.ones (32 - n)) n) = x - x mod 2 ^ n.
Proof.
  intros Hn Hx. replace (x - x mod 2 ^ n) with (Z.shiftl (Z.shiftr x n) n).
  2:{ rewrite Z.shiftl_mul_pow2, Z.shiftr_div_pow2 by lia. pose proof (Z.div_mod x (2 ^ n)). lia. }
  apply Z.bits_inj'. intros i Hi. rewrite Z.land_spec, !Z.shiftl_spec by lia. destruct (Z.lt_ge_cases i n).
  - rewrite !(Z.testbit_neg_r _ (i - n)) by lia. by rewrite andb_false_r.
  - rewrite Z.shiftr_spec, Z.testbit_ones by lia. replace (i - n + n) with i by lia. replace (0 <=? i - n) with true by lia. cbn [andb].
    destruct (Z.ltb_spec (i - n) (32 - n)); [by rewrite andb_true_r|]. rewrite (testbit_high 32 x) by (done || lia). done.
Qed.

Lemma land_align16 x : 0 ≤ x < 2 ^ 32 → Z.land x 0xfffffff0 = x - x mod 16.
Proof. apply (land_high 4). lia. Qed.
Lemma land_align4 x : 0 ≤ x < 2 ^ 32 → Z.land x 0xfffffffc = x - x mod 4.
Proof. apply (land_high 2). lia. Qed.

Lemma bar_bits x : Z.land x 1 = x mod 2 ∧ Z.land (Z.shiftr x 1) 3 = x / 2 mod 4 ∧ Z.land (Z.shiftr x 3) 1 = x / 8 mod 2.
Proof.
  split_and!; [exact (Z.land_ones x 1 ltac:(lia))| |].
  - rewrite Z.shiftr_div_pow2 by lia. exact (Z.land_ones (x / 2) 2 ltac:(lia)).
  - rewrite Z.shiftr_div_pow2 by lia. exact (Z.land_ones (x / 8) 1 ltac:(lia)).
Qed.

Lemma lookup_middle {A} (pre rest : list A) x : (pre ++ x :: rest) !! Z.to_nat (zlen pre) = Some x.
Proof. unfold zlen. rewrite Nat2Z.id. by apply list_lookup_middle. Qed.

Lemma insert_middle {A} (out rest : list A) x y n : n = length out → <[n := y]> (out ++ x :: rest) = (out ++ [y]) ++ rest.
Proof. intros ->. rewrite insert_app_r_alt, Nat.sub_diag by lia. by rewrite <-app_assoc. Qed.

Lemma b2z_flag b x : x = Z.b2z b → (x =? 1) = b.
Proof. intros ->. by destruct b. Qed.

Lemma lor_shift n hi lo : 0 ≤ n → in_width n lo → 0 ≤ hi → Z.lor (Z.shiftl hi n) lo = hi * 2 ^ n + lo.
Proof.
  intros Hn Hlo Hhi. rewrite Z.add_nocarry_lxor.
  - rewrite Z.shiftl_mul_pow2 by lia. apply Z.bits_inj'. intros i Hi. rewrite Z.lor_spec, Z.lxor_spec.
    destruct (Z.lt_ge_cases i n); [rewrite Z.mul_pow2_bits_low by lia|rewrite (testbit_high n lo) by (done || lia)]; cbn.
    + by destruct (Z.testbit lo i).
    + by rewrite orb_false_r, xorb_false_r.
  - apply Z.bits_inj'. intros i Hi. rewrite Z.land_spec, Z.bits_0.
    destruct (Z.lt_ge_cases i n); [by rewrite Z.mul_pow2_bits_low by lia|]. by rewrite (testbit_high n lo), andb_false_r by (done || lia).
Qed.

(** The bits that tell the kinds of BARs apart. *)
Lemma mem_bits a k pf : 0 ≤ a < 2 ^ 32 → a mod 16 = 0 → k = 0 ∨ k = 4 → let r := a + 8 * Z.b2z pf + k in
  Z.land r 1 = 0 ∧ Z.land (Z.shiftr r 1) 3 = k / 2 ∧ (Z.land (Z.shiftr r 3) 1 =? 1) = pf ∧ Z.land r 0xfffffff0 = a ∧ 0 ≤ r < 2 ^ 32.
Proof.
  intros Ha Hm Hk r. destruct (bar_bits r) as (-> & -> & ->).
  assert (0 ≤ Z.b2z pf ≤ 1) by (by destruct pf). assert (Hr : 0 ≤ r < 2 ^ 32) by (unfold r; zdm).
  rewrite land_align16 by done. split_and!; [..|apply Hr|apply Hr].
  - unfold r. destruct Hk as [-> | ->]; zdm.
  - unfold r. destruct Hk as [-> | ->]; zdm.
  - apply b2z_flag. unfold r. destruct Hk as [-> | ->]; zdm.
  - unfold r. destruct Hk as [-> | ->]; zdm.
Qed.

Lemma io_bits a : 0 ≤ a < 2 ^ 32 → a mod 4 = 0 → Z.land (a + 1) 1 = 1 ∧ Z.land (a + 1) 0xfffffffc = a ∧ a + 1 ≠ 0.
Proof. intros Ha Hm. destruct (bar_bits (a + 1)) as (-> & _). rewrite land_align4 by zdm. zdm. Qed.

Lemma interpreted_loop_ok l : ∀ fuel pre out, Forall bar_valid l → length pre = length out →
  (length (l ≫= bar_registers) < fuel)%nat →
  interpreted_loop fuel (pre ++ (l ≫= bar_registers)) (zlen pre) (out ++ replicate (length (l ≫= bar_registers)) None)
  = Ret (out ++ (l ≫= bar_meaning)).
Proof.
  induction l as [|b l IH]; intros [|fuel] pre out Hv Hl Hf; try lia.
  { cbn. rewrite !app_nil_r. unfold zlen. by rewrite Nat2Z.id, lookup_ge_None_2 by lia. }
  apply Forall_cons in Hv as [Hb Hv]. cbn [mbind list_bind] in *. rewrite length_app in Hf.
  assert (Hstep : ∀ fuel', (length (l ≫= bar_registers) < fuel')%nat →
    interpreted_loop fuel' (pre ++ bar_registers b ++ (l ≫= bar_registers)) (zlen pre + zlen (bar_registers b))
      ((out ++ bar_meaning b) ++ replicate (length (l ≫= bar_registers)) None) =
    Ret (out ++ bar_meaning b ++ (l ≫= bar_meaning))).
  { intros fuel' Hf'. rewrite !app_assoc, <-zlen_app. apply IH; [done| |done]. rewrite !length_app, Hl. by destruct b. }
  assert (Hi : Z.to_nat (zlen pre) = length out) by (unfold zlen; lia).
  destruct b as [|a pf|a pf|a]; cbn [bar_registers bar_meaning app length replicate interpreted_loop] in *; rewrite lookup_middle.
  - rewrite <-(Hstep fuel) by lia. cbn. by rewrite <-app_assoc.
  - destruct Hb as [Ha Hm]. destruct (mem_bits a 0 pf) as (B0 & B1 & B3 & Bm & Br); [lia|done|by left|].
    rewrite Z.add_0_r in *. replace (a + 8 * Z.b2z pf =? 0) with false by (destruct pf; cbn; lia).
    rewrite B0, B1, B3, Bm. change (0 / 2) with 0. cbv iota. rewrite insert_middle by done. apply Hstep. lia.
  - destruct Hb as [Ha Hm]. destruct (mem_bits (a mod 2 ^ 32) 4 pf) as (B0 & B1 & B3 & Bm & Br); [zdm|zdm|by right|].
    replace (_ =? 0) with false by (destruct pf; cbn; zdm). rewrite B0, B1, B3, Bm. change (4 / 2) with 2. cbv iota.
    replace (Z.to_nat (zlen pre + 1)) with (Z.to_nat (zlen (pre ++ [a mod 2 ^ 32 + 8 * Z.b2z pf + 4]))) by (by rewrite zlen_app).
    rewrite (cons_middle _ pre), app_assoc, lookup_middle. run_monad. rewrite (insert_middle out) by done.
    rewrite (lor_shift 32) by (try apply Z.mod_pos_bound; zdm). replace (a / 2 ^ 32 * 2 ^ 32 + a mod 2 ^ 32) with a by zdm.
    rewrite insert_middle by (rewrite length_app; unfold zlen; rewrite length_app; cbn; lia). rewrite <-(Hstep fuel) by lia. by rewrite <-!app_assoc.
  - destruct Hb as [Ha Hm]. destruct (io_bits a Ha Hm) as (B0 & Bm & Bz). rewrite (proj2 (Z.eqb_neq _ _) Bz), B0, Bm. cbv iota.
    rewrite insert_middle by done. apply Hstep. lia.
Qed.

(** the BARs of a device are read as it declares them.  Whatever mix of absent,
    32-bit, 64-bit and I/O BARs a device has, [interpreted] returns the address and the
    prefetchable flag of each in its place; the second register of a 64-bit BAR is never
    taken for a BAR of its own. *)
Theorem bars_roundtrip l : Forall bar_valid l → interpreted (l ≫= bar_registers) = Ret (l ≫= bar_meaning).
Proof. intros Hv. unfold interpreted. apply (interpreted_loop_ok l _ [] []); [done..|lia]. Qed.

Lemma bars_roundtrip_witness :
  let l := [DeclMem64 0xfe00000000 true; NoBar; DeclMem32 0xfebf1000 false; DeclIO 0xc040; NoBar] in
  interpreted (l ≫= bar_registers) = Ret (l ≫= bar_meaning).
Proof. apply bars_roundtrip. repeat (apply Forall_cons_2; [first [exact I|split; [lia|reflexivity]]|]). apply Forall_nil_2. Defined.

(** A 64-bit BAR in the last register has no second half. *)
Lemma interpreted_last_64 : interpreted [0; 0; 0; 0; 0; 0xfe000004] = Panic PanicExpect.
Proof. reflexivity. Qed.

(** ** Capabilities

    [chain cfg off l]: the list of capabilities that starts at [off], by the next pointers
    in the configuration space [cfg], is at the offsets [l] and ends. *)
Inductive chain (cfg : Z → Z) : Z → list Z → Prop :=
| chain_end : chain cfg 0 []
| chain_step off l : 0 < off < 256 → chain cfg (cfg (off + 1)) l → chain cfg off (off :: l).

Lemma chain_unique cfg off l l' : chain cfg off l → chain cfg off l' → l = l'.
Proof.
  intros H. revert l'. induction H as [|off l Hoff H IH]; intros l' H'; inversion H'; subst; try lia; [done|].
  f_equal. by apply IH.
Qed.

Lemma chain_suffix cfg off l x : chain cfg off l → x ∈ l → ∃ l', chain cfg x l' ∧ (length l' ≤ length l)%nat.
Proof.
  induction 1 as [|off l Hoff H IH]; intros Hx; [set_solver|]. apply elem_of_cons in Hx as [->|Hx].
  - exists (off :: l). split; [by constructor|done].
  - destruct (IH Hx) as (l' & ? & ?). exists l'. split; [done|cbn; lia].
Qed.

Lemma chain_nodup cfg off l : chain cfg off l → NoDup l.
Proof.
  induction 1 as [|off l Hoff H IH]; constructor; [|done]. intros Hin.
  destruct (chain_suffix _ _ _ _ H Hin) as (l' & Hl' & Hlen).
  pose proof (chain_unique _ _ _ _ Hl' (chain_step _ _ _ Hoff H)) as ->. cbn in Hlen. lia.
Qed.

Lemma chain_offsets cfg off l : chain cfg off l → ∀ x, x ∈ l → 0 < x < 256.
Proof. induction 1; set_solver. Qed.

(** A list that ends has at most one capability for each offset. *)
Lemma capability_chain_length cfg off l : chain cfg off l → (length l ≤ 255)%nat.
Proof.
  intros H. assert (Hs : l ⊆+ range 1 256).
  { apply NoDup_submseteq; [by eapply chain_nodup|]. intros x Hx. apply elem_of_range.
    pose proof (chain_offsets _ _ _ H x Hx). lia. }
  apply submseteq_length in Hs. done.
Qed.

(** The loop over a list of capabilities. *)
Fixpoint visit {S R D} (body : PCIDeviceCapabilityHeader → S → D → outcome (flow S R * D)) (l : list PCIDeviceCapabilityHeader)
    (s : S) (d : D) : outcome (flow S R * D) :=
  match l with
  | [] => mret (Next s, d)
  | h :: l =>
      '(r, d) ← body h s d;
      match r with Next s => visit body l s d | Stop r => mret (Stop r, d) end
  end.

Section capabilities.
Context {D : Type} {bus : Bus D}.
Context (base : Z) (cfg : Z → Z) (I : D → Prop).
Context (Hbase : register_at base 0x1000).
(** The first 256 bytes of the device's configuration, as long as [I] holds *)
Hypothesis cfg_read : ∀ d off, I d → 0 ≤ off ≤ 256 → bus_read 1 (base + off) d = (cfg off, d).

Definition header_at (off : Z) : PCIDeviceCapabilityHeader := mkHeader base (base + off).

Lemma base_register off : 0 ≤ off ≤ 0x1000 → register base off = Ret (base + off).
Proof.
  intros Ho. destruct Hbase as [H1 H2]. apply register_ok; [unfold KERNEL_PHYSICAL_MAPPING_START, HIGHER_HALF_START in H1; lia|lia..].
Qed.

Lemma read_cfg d off o : I d → 0 ≤ off → 0 ≤ o → off + o ≤ 256 → read_at_reg 1 (base + off) o d = Ret (cfg (off + o), d).
Proof.
  intros Hd Hoff Ho Hs. unfold read_at_reg, RegisterRW.read. destruct Hbase as [H1 H2].
  rewrite register_ok; [|unfold KERNEL_PHYSICAL_MAPPING_START, HIGHER_HALF_START in H1; lia|lia|lia|lia]. run_monad.
  rewrite <-Z.add_assoc, cfg_read by (done || lia). done.
Qed.

Lemma header_new off : 0 ≤ off < 256 → Header.new base off = Ret (if off =? 0 then None else Some (header_at off)).
Proof.
  intros Ho. unfold Header.new. destruct (off =? 0); [done|]. pose proof (base_register off ltac:(lia)) as E. unfold register in E.
  by rewrite E.
Qed.

Lemma next_ok d off : I d → 0 < off < 256 → 0 ≤ cfg (off + 1) < 256 →
  Header.next (Some (header_at off)) d
  = Ret (Some (header_at off), if cfg (off + 1) =? 0 then None else Some (header_at (cfg (off + 1))), d).
Proof.
  intros Hd Ho Hn. unfold Header.next, Header.next_capability. cbn [header_registers header_at config_base_address].
  rewrite read_cfg by (done || lia). run_monad. by rewrite header_new.
Qed.

Lemma chain_head off l : chain cfg off l → 0 ≤ off < 256.
Proof. destruct 1; lia. Qed.

Lemma for_capabilities_ok {S R} (body : PCIDeviceCapabilityHeader → S → D → outcome (flow S R * D)) :
  (∀ h s d r d', I d → body h s d = Ret (r, d') → I d') →
  ∀ off l, chain cfg off l → ∀ fuel s d, I d → (length l < fuel)%nat →
  Header.for_capabilities fuel body (if off =? 0 then None else Some (header_at off)) s d = visit body (header_at <$> l) s d.
Proof.
  intros Hb off l H. induction H as [|off l Hoff H IH]; intros [|fuel] s d Hd Hf; cbn in Hf; try lia; [done|].
  replace (off =? 0) with false by lia. cbn [Header.for_capabilities]. pose proof (chain_head _ _ H).
  rewrite next_ok by done. run_monad. cbn [fmap list_fmap visit].
  destruct (body (header_at off) s d) as [[[s'|r] d']| |] eqn:E; run_monad; [|done..]. apply IH; [by eapply Hb|lia].
Qed.

Lemma walk_capabilities {bc : BitfieldCrate} {S R} (body : PCIDeviceCapabilityHeader → S → D → outcome (flow S R * D)) status l s d c :
  common_registers c = base → I d → bus_read 2 (base + 0x06) d = (status, d) → chain cfg (cfg 0x34) l →
  (∀ h s d r d', I d → body h s d = Ret (r, d') → I d') →
  ('(caps, d) ← iter_capabilities c d; Header.for_capabilities 256 body caps s d) =
    if get_bool PCIDeviceConfigStatus "capabilities_list" status then visit body (header_at <$> l) s d else Ret (Next s, d).
Proof.
  intros Hc Hd Hst Hl Hb. unfold iter_capabilities. rewrite Hc.
  assert (E0 : read_at_reg 2 base 0x06 d = Ret (status, d)).
  { unfold read_at_reg, RegisterRW.read. rewrite base_register by lia. run_monad. by rewrite Hst. }
  rewrite E0. run_monad. destruct (get_bool _ _ status); cbn [negb]; [|by run_monad].
  pose proof (read_cfg d 0 0x34 Hd ltac:(lia) ltac:(lia) ltac:(lia)) as E. rewrite !Z.add_0_r in E. rewrite E. run_monad.
  rewrite header_new by (by eapply chain_head). run_monad. apply for_capabilities_ok; [done..|]. pose proof (capability_chain_length _ _ _ Hl). lia.
Qed.


(** A list of capabilities that points back to itself keeps the kernel busy for ever. *)
Theorem cyclic_capabilities_diverge off d (fuel : nat) : I d → 0 < off < 256 → cfg (off + 1) = off →
  Header.for_capabilities fuel (λ _ (s : unit) d, Ret (Next (R := unit) s, d)) (Some (header_at off)) () d = Diverge.
Proof.
  intros Hd Ho Hc. induction fuel as [|fuel IH]; [done|]. cbn [Header.for_capabilities]. rewrite next_ok by (done || lia). run_monad.
  rewrite Hc. replace (off =? 0) with false by lia. exact IH.
Qed.
End capabilities.

(** ** The scan *)
Definition all_locations (base : Z) : list PCIDeviceLocation :=
  b ← range 0 256; s ← range 0 32; f ← range 0 8; [mkLocation base b s f].

Definition location_ok (l : PCIDeviceLocation) : Prop :=
  0 ≤ bus_number l < 256 ∧ 0 ≤ device_number l < 32 ∧ 0 ≤ function_number l < 8.

(** The blocks of the functions of a base address follow each other, of 4 KiB each. *)
Definition function_address (l : PCIDeviceLocation) : Z :=
  ecam_base_address l + 4096 * (8 * (32 * bus_number l + device_number l) + function_number l).

Lemma function_address_inj l l' : location_ok l → location_ok l' → ecam_base_address l = ecam_base_address l' →
  function_address l = function_address l' → l = l'.
Proof.
  destruct l as [e b s f], l' as [e' b' s' f']. unfold location_ok, function_address. cbn. intros H1 H2 -> E.
  assert (b = b' ∧ s = s' ∧ f = f') as (-> & -> & ->) by lia. done.
Qed.

Lemma device_base_address_ok l : location_ok l → register_at (ecam_base_address l) (2 ^ 28) →
  device_base_address l = Ret (function_address l).
Proof.
  intros (Hb & Hs & Hf) [H1 H2]. unfold device_base_address. rewrite (Z.shiftl_mul_pow2 (device_number l)) by lia.
  rewrite (lor_shift 20) by (try split; lia).
  replace (bus_number l * 2 ^ 20 + device_number l * 2 ^ 15) with (Z.shiftl (bus_number l * 32 + device_number l) 15)
    by (rewrite Z.shiftl_mul_pow2; lia).
  rewrite (Z.shiftl_mul_pow2 (function_number l)) by lia. rewrite (lor_shift 15) by (try split; lia).
  unfold function_address. replace (4096 * (8 * (32 * bus_number l + device_number l) + function_number l))
    with ((bus_number l * 32 + device_number l) * 2 ^ 15 + function_number l * 2 ^ 12) by lia.
  apply register_ok; [unfold KERNEL_PHYSICAL_MAPPING_START, HIGHER_HALF_START in H1; lia|lia|lia|lia].
Qed.

Lemma all_locations_ok base l : l ∈ all_locations base → location_ok l ∧ ecam_base_address l = base.
Proof.
  unfold all_locations. rewrite list_elem_of_bind. intros (b & Hl & Hb). apply list_elem_of_bind in Hl as (s & Hl & Hs).
  apply list_elem_of_bind in Hl as (f & Hl & Hf). apply list_elem_of_singleton in Hl as ->.
  apply elem_of_range in Hb, Hs, Hf. done.
Qed.

Lemma all_locations_nodup base : NoDup (all_locations base).
Proof.
  unfold all_locations. apply NoDup_bind; [| |apply NoDup_range].
  { intros b b' l _ _ H H'. apply list_elem_of_bind in H as (s & H & _), H' as (s' & H' & _).
    apply list_elem_of_bind in H as (f & H & _), H' as (f' & H' & _). set_solver. }
  intros b _. apply NoDup_bind; [| |apply NoDup_range].
  { intros s s' l _ _ H H'. apply list_elem_of_bind in H as (f & H & _), H' as (f' & H' & _). set_solver. }
  intros s _. apply NoDup_bind; [set_solver| |apply NoDup_range]. intros f _. apply NoDup_singleton.
Qed.

Section scan.
Context {x86 : X86_64} {D X : Type} {bus : Bus D}.
Context (base : Z) (vendor : PCIDeviceLocation → Z) (I : D → Prop) (Hbase : register_at base (2 ^ 28)).
(** The vendor in the first register of every function's block; all ones if there is none *)
Hypothesis vendor_read : ∀ l d, I d → location_ok l → ecam_base_address l = base →
  bus_read 2 (function_address l) d = (vendor l, d).

Definition config_at (l : PCIDeviceLocation) : PCIDeviceConfig := mkConfig l (function_address l) (function_address l).

Lemma config_new_ok l d : I d → location_ok l → ecam_base_address l = base →
  config_new l d = Ret (if vendor l =? 0xFFFF then None else Some (config_at l), d).
Proof.
  intros Hd Hl Hb. unfold config_new. rewrite device_base_address_ok by (by rewrite ?Hb). run_monad.
  unfold read_at_reg, RegisterRW.read. destruct Hbase as [H1 H2], Hl as (L1 & L2 & L3).
  rewrite register_ok; [|unfold function_address, KERNEL_PHYSICAL_MAPPING_START, HIGHER_HALF_START in *; lia..]. run_monad.
  rewrite Z.add_0_r, vendor_read by done. run_monad. by destruct (_ =? _).
Qed.

Lemma scan_list (f : PCIDeviceConfig → D * X → outcome (D * X)) l : (∀ x, x ∈ l → location_ok x ∧ ecam_base_address x = base) →
  (∀ c d x d' x', I d → f c (d, x) = Ret (d', x') → I d') → ∀ d x, I d →
  foldM (λ loc '(d, x), '(config, d) ← config_new loc d;
    match config with None => mret (d, x) | Some config => f config (d, x) end) l (d, x)
  = foldM f (config_at <$> filter (λ loc, vendor loc ≠ 0xFFFF) l) (d, x).
Proof.
  intros Hl Hf. induction l as [|loc l IH]; intros d x Hd; cbn [foldM]; [done|]. destruct (Hl loc) as [H1 H2]; [by apply elem_of_cons; left|].
  rewrite config_new_ok by done. run_monad. destruct (Z.eqb_spec (vendor loc) 0xFFFF).
  - rewrite filter_cons_False by tauto. run_monad. apply IH; [|done]. intros y Hy. by apply Hl, elem_of_cons; right.
  - rewrite filter_cons_True by done. cbn [fmap list_fmap foldM]. destruct (f (config_at loc) (d, x)) as [[d' x']| |] eqn:E; run_monad; [|done..].
    apply IH; [|by eapply Hf]. intros y Hy. by apply Hl, elem_of_cons; right.
Qed.

(** C30: the scan of the bus finds every device.  [for_pci_devices_brute_force] calls its
    closure once for each of the 65536 functions whose vendor is not all ones, in the
    order of the buses, the devices and the functions, with the address of that
    function's block; no two functions share a block. *)
Theorem pci_scan_complete (f : PCIDeviceConfig → D * X → outcome (D * X)) d x :
  (∀ c d x d' x', I d → f c (d, x) = Ret (d', x') → I d') → I d →
  for_pci_devices_brute_force base f (d, x)
    = foldM f (config_at <$> filter (λ l, vendor l ≠ 0xFFFF) (all_locations base)) (d, x) ∧
  NoDup (function_address <$> all_locations base).
Proof.
  intros Hf Hd. split.
  - rewrite <-scan_list; [|apply all_locations_ok|done|done]. unfold for_pci_devices_brute_force, all_locations.
    rewrite foldM_bind. change (MAX_PCI_BUS + 1) with 256. apply foldM_ext. intros b s _.
    rewrite foldM_bind. change (MAX_PCI_BUS_DEVICE + 1) with 32. apply foldM_ext. intros sl s' _.
    rewrite foldM_bind. change (MAX_PCI_BUS_DEVICE_FUNCTION + 1) with 8. apply foldM_ext. intros fn [d' x'] _.
    cbn [foldM]. by destruct (_ ≫= _).
  - apply NoDup_fmap_2_strong; [|apply all_locations_nodup]. intros l l' Hl Hl'.
    apply all_locations_ok in Hl as [? El], Hl' as [? El']. apply function_address_inj; [done..|by rewrite El].
Qed.
End scan.

(** ** Message signalled interrupts *)
Section msix.
Context {bc : BitfieldCrate} {bcl : BitfieldCrateLaws}.

(** The message of a processor's interrupt goes to that processor's address. *)
Lemma message_address_ok processor_id : 0 ≤ processor_id < 256 →
  message_address processor_id = Ret (0xfee00000 + 4096 * processor_id).
Proof.
  intros Hp. unfold message_address. with_fields. f_equal. apply Z.bits_inj'. intros i Hi. unfold set_.
  change (field_from 0 RawMSIXMessageAddress "intel_prefix") with (Some (20, 12)).
  change (field_from 0 RawMSIXMessageAddress "destination_id") with (Some (12, 8)).
  change (field_from 0 RawMSIXMessageAddress "redirection_hint") with (Some (3, 1)).
  change (field_from 0 RawMSIXMessageAddress "destination_mode") with (Some (2, 1)). cbv iota beta.
  replace (0xfee00000 + 4096 * processor_id) with (Z.lor (Z.shiftl (Z.lor (Z.shiftl 0xfee 8) processor_id) 12) 0).
  2:{ rewrite (lor_shift 8) by (try split; lia). rewrite (lor_shift 12) by (try split; lia). lia. }
  change (Z.b2z false) with 0. change INTEL_PREFIX with 0xfee. rewrite !testbit_replace by lia. rewrite Z.lor_0_r, Z.shiftl_spec by done.
  destruct ((2 <=? i) && (i <? 2 + 1)) eqn:E1; [rewrite Z.testbit_0_l, Z.testbit_neg_r by lia; done|].
  destruct ((3 <=? i) && (i <? 3 + 1)) eqn:E2; [rewrite Z.testbit_0_l, Z.testbit_neg_r by lia; done|].
  rewrite Z.testbit_0_l. destruct (Z.lt_ge_cases i 12).
  { rewrite !(Z.testbit_neg_r _ (i - 12)) by lia. replace ((12 <=? i) && (i <? 12 + 8)) with false by lia. by replace ((20 <=? i) && (i <? 20 + 12)) with false by lia. }
  rewrite Z.lor_spec, Z.shiftl_spec by lia. destruct ((12 <=? i) && (i <? 12 + 8)) eqn:E3.
  - by rewrite (Z.testbit_neg_r _ (i - 12 - 8)) by lia.
  - rewrite (testbit_high 8 processor_id), orb_false_r by (done || lia). replace (i - 12 - 8) with (i - 20) by lia.
    destruct ((20 <=? i) && (i <? 20 + 12)) eqn:E4; [done|]. symmetry. apply (testbit_high 12); [done|lia].
Qed.
End msix.

(** ** A machine with one device

    A block device at bus 0, device 3, function 0, with two capabilities. *)
Module Example.
#[local] Existing Instances documented_x86_64 documented_bitfield documented_bitfield_laws.

Definition ecam : Z := KERNEL_PHYSICAL_MAPPING_START + 0xb0000000.
Definition block_at : Z := ecam + 4096 * 24.

Definition block_byte (off : Z) : Z :=
  if off =? 0x34 then 0x98 else if off =? 0x98 then 0x11 else if off =? 0x99 then 0x84
  else if off =? 0x84 then 0x09 else 0.

#[local] Instance one_device : Bus unit := {|
  bus_read bytes a d :=
    (if bytes =? 1 then block_byte (a - block_at)
     else if a =? block_at then 0x1af4 else if a =? block_at + 6 then 0x10 else 0xFFFF, d);
  bus_write bytes a v d := d;
|}.

Lemma ecam_at n : 0 ≤ n ≤ 2 ^ 29 → register_at ecam n.
Proof. unfold register_at, ecam, KERNEL_PHYSICAL_MAPPING_START, KERNEL_PHYSICAL_MAPPING_END, HIGHER_HALF_START. lia. Qed.

Lemma block_chain : chain block_byte (block_byte 0x34) [0x98; 0x84].
Proof. change (block_byte 0x34) with 0x98. apply chain_step; [lia|]. change (block_byte (0x98 + 1)) with 0x84. apply chain_step; [lia|]. apply chain_end. Qed.


Lemma pci_scan_complete_witness :
  for_pci_devices_brute_force ecam (λ c '(d, found), mret (d, found ++ [c])) ((), [])
  = foldM (λ c '(d, found), mret (d, found ++ [c]))
      (config_at <$> filter (λ l, (if function_address l =? block_at then 0x1af4 else 0xFFFF) ≠ 0xFFFF) (all_locations ecam)) ((), []).
Proof.
  refine (proj1 (pci_scan_complete ecam (λ l, if function_address l =? block_at then 0x1af4 else 0xFFFF) (λ _, True) _ _ _ () [] _ _)).
  - apply ecam_at. lia.
  - intros l d _ Hl He. cbn. destruct (Z.eqb_spec (function_address l) block_at) as [|Hne]; [done|].
    replace (function_address l =? block_at + 6) with false; [done|]. symmetry. apply Z.eqb_neq.
    unfold function_address, block_at in *. lia.
  - done.
  - exact I.
Defined.
End Example.
