(* ===== verification/Userspace.v ===== *)
(** * User programs ([kernel/src/elf.rs], [kernel/src/sched/userspace.rs])

    Loading an ELF executable into the page table of the current task and preparing its
    stack.  The [elf] crate is the class [ElfCrate].  Memory is written through the page
    table byte by byte. *)
From S2P Require Import Prelude AllocSpec External Addr PhysMem PageTable Mapping Transmute Vfs.
#[local] Open Scope Z_scope.
Import PageTable.

(** ** The [elf] crate *)
Record ProgramHeader : Type := mkProgramHeader {
  p_type : Z;
  p_offset : Z;
  p_vaddr : Z;
  p_paddr : Z;
  p_filesz : Z;
  p_memsz : Z;
  p_flags : Z;
  p_align : Z;
}.

Class ElfCrate : Type := {
  ElfBytes : Type;
  minimal_parse : list Z → option ElfBytes;
  e_type : ElfBytes → Z;
  e_machine : ElfBytes → Z;
  e_entry : ElfBytes → Z;
  elf_segments : ElfBytes → option (list ProgramHeader);
  segment_data : ElfBytes → ProgramHeader → option (list Z);
  (** [bitflags]: [from_bits] of a type whose flags are the bits of the first argument *)
  from_bits : Z → Z → option Z;
}.

(** [elf::abi] *)
Definition ET_EXEC : Z := 2.
Definition EM_X86_64 : Z := 62.
Definition PT_LOAD : Z := 1.

(** ** [elf.rs] *)
Module LoadableSegmentFlags.
Definition EXECUTABLE : Z := 1.
Definition WRITABLE : Z := 2.
Definition READABLE : Z := 4.
Definition all : Z := 7.

Definition page_table_entry_flags {bf : Bitflags} (self : Z) : Z :=
  let flags := 0 in
  let flags := if negb (contains self EXECUTABLE) then flags_or flags PageTable.NO_EXECUTE else flags in
  let flags := if contains self WRITABLE then flags_or flags PageTable.WRITABLE else flags in
  if contains self READABLE then flags_or flags PageTable.PRESENT else flags.
End LoadableSegmentFlags.

Record LoadableSegment : Type := mkLoadableSegment {
  raw_header : ProgramHeader;
  file_offset : Z;
  vaddr : Z;
  mem_size : Z;
  segment_flags : Z;
  alignment : Z;
}.

Inductive ElfExecutableHeaderError : Type :=
| ParseError
| NotExecutable (e_type : Z)
| WrongMachine (e_machine : Z)
| NoSegments
| InvalidAddr (h : ProgramHeader)
| InvalidFlags (h : ProgramHeader).

Module Elf.
Section elf.
Context {x86 : X86_64} {elf : ElfCrate}.

Record ElfExecutableHeader : Type := mkHeader {
  parsed : ElfBytes;
  entrypoint : Z;
  loadable_segments : list LoadableSegment;
}.

(** The loop over the program headers. *)
Fixpoint collect_segments (hs : list ProgramHeader) (acc : list LoadableSegment)
  : outcome (result (list LoadableSegment) ElfExecutableHeaderError) :=
  match hs with
  | [] => mret (Ok acc)
  | h :: hs =>
      if negb (p_type h =? PT_LOAD) then collect_segments hs acc
      else if (0 <? p_paddr h) && negb (p_paddr h =? p_vaddr h) then mret (Err (InvalidAddr h))
      else
        vaddr ← VirtAddr_new (p_vaddr h);
        match from_bits LoadableSegmentFlags.all (p_flags h) with
        | None => mret (Err (InvalidFlags h))
        | Some flags =>
            collect_segments hs (acc ++ [mkLoadableSegment h (p_offset h) vaddr (p_memsz h) flags (p_align h)])
        end
  end.

Definition parse (bytes : list Z) : outcome (result ElfExecutableHeader ElfExecutableHeaderError) :=
  match minimal_parse bytes with
  | None => mret (Err ParseError)
  | Some parsed =>
      if negb (e_type parsed =? ET_EXEC) then mret (Err (NotExecutable (e_type parsed)))
      else if negb (e_machine parsed =? EM_X86_64) then mret (Err (WrongMachine (e_machine parsed)))
      else
        entrypoint ← VirtAddr_new (e_entry parsed);
        match elf_segments parsed with
        | None => mret (Err NoSegments)
        | Some segments =>
            r ← collect_segments segments [];
            mret (match r with
                  | Ok loadable_segments => Ok (mkHeader parsed entrypoint loadable_segments)
                  | Err e => Err e
                  end)
        end
  end.
End elf.
End Elf.

(** ** Bytes of the word store *)
Definition byte_at (m : store) (a : Z) : Z :=
  Z.land (Z.shiftr (m (8 * (a / 8))) (8 * (a mod 8))) 255.

Definition set_byte (m : store) (a b : Z) : store :=
  let w := 8 * (a / 8) in
  let sh := 8 * (a mod 8) in
  store_set m w (Z.lor (Z.ldiff (m w) (Z.shiftl 255 sh)) (Z.shiftl b sh)).

(** ** Memory seen through a page table

    What a running task does to its own memory: writing one byte. *)
Class VirtualMemory (S : Type) : Type := { vm_write : Z → Z → S → outcome S }.

Section virtual.
Context {S : Type} `{!VirtualMemory S}.

(** [copy_from_slice], [copy_from_nonoverlapping] *)
Fixpoint vm_write_bytes (a : Z) (bs : list Z) (s : S) : outcome S :=
  match bs with
  | [] => mret s
  | b :: bs => s ← vm_write a b s; vm_write_bytes (a + 1) bs s
  end.

(** [ptr.write(v)] for a [usize] *)
Definition vm_write_usize (a v : Z) (s : S) : outcome S := vm_write_bytes a (le_split 8 v) s.
End virtual.

(** Through the page table [table]; an access to an address that is not mapped writable
    faults. *)
Definition paged_memory {x86 : X86_64} {bf : Bitflags} {A : Type} (table : Z) : VirtualMemory (kmem A) := {|
  vm_write va b k :=
    r ← translate_address (k_words k) table va;
    match r with
    | TranslateMapped page flags offset =>
        if contains flags PageTable.WRITABLE then
          mret (mkKmem (set_byte (k_words k) (start_addr page + offset) b) (k_frames k) (k_flushed k) (k_table k) (k_heap k))
        else Panic Undefined
    | _ => Panic Undefined
    end;
|}.

(** ** [userspace.rs] *)
Module Userspace.

(** The arguments on the stack. *)
Section stack.
Context {S : Type} `{!VirtualMemory S}.

(** One argument, as a NUL-terminated string: the new stack pointer is where it starts. *)
Definition push_arg (arg : list Z) (stack_ptr : Z) (s : S) : outcome (Z * S) :=
  let arg_ptr := wrap 64 (stack_ptr - (zlen arg + 1)) in
  s ← vm_write_bytes arg_ptr arg s;
  s ← vm_write (arg_ptr + zlen arg) 0 s;
  mret (arg_ptr, s).

Fixpoint push_args (args : list (list Z)) (stack_ptr : Z) (s : S) : outcome (list Z * Z * S) :=
  match args with
  | [] => mret ([], stack_ptr, s)
  | arg :: args =>
      '(arg_ptr, s) ← push_arg arg stack_ptr s;
      '(locations, stack_ptr, s) ← push_args args arg_ptr s;
      mret (arg_ptr :: locations, stack_ptr, s)
  end.

(** [stack_ptr.sub(8).add(stack_ptr.align_offset(8))] *)
Definition align_offset (p : Z) : Z := (8 - p mod 8) mod 8.
Definition align_stack (stack_ptr : Z) : Z := stack_ptr - 8 + align_offset stack_ptr.

Fixpoint push_words (ws : list Z) (stack_ptr : Z) (s : S) : outcome (Z * S) :=
  match ws with
  | [] => mret (stack_ptr, s)
  | w :: ws =>
      let stack_ptr := stack_ptr - 8 in
      s ← vm_write_usize stack_ptr w s;
      push_words ws stack_ptr s
  end.

Definition init_stack (all_args : list (list Z)) (stack_top : Z) (s : S) : outcome (Z * S) :=
  '(arg_locations, stack_ptr, s) ← push_args all_args stack_top s;
  let stack_ptr := align_stack stack_ptr in
  _ ← assert_ (stack_ptr mod 8 =? 0);
  '(stack_ptr, s) ← push_words (reverse arg_locations) stack_ptr s;
  push_words [zlen arg_locations] stack_ptr s.
End stack.

Record ExecParams : Type := mkExecParams { path : FilePath.t; args : list (list Z) }.

Section load.
Context {x86 : X86_64} {bf : Bitflags} {elf : ElfCrate} {A : Type} {CA : ContiguousAllocator A}.
Implicit Types (k : kmem A).

Definition initial_flags : Z := flags_or (flags_or PageTable.PRESENT PageTable.WRITABLE) PageTable.USER_ACCESSIBLE.

Definition map_pages (table : Z) (pages : PageRange) (flags : Z) k : outcome (kmem A) :=
  ps ← PageRange_iter (addr:=AddressVirt) pages;
  '(r, k) ← allocate_and_map_pages table ps flags k;
  match r with Ok _ => mret k | Err _ => Panic PanicExpect end.

Definition load_segment (table : Z) (parsed : ElfBytes) (segment : LoadableSegment) k : outcome (kmem A) :=
  _ ← assert_ (alignment segment =? size_bytes Size4KiB);
  segment_data ← expect (segment_data parsed (raw_header segment));
  start_page ← from_start_addr (vaddr segment) Size4KiB;
  user_pages ← from_num_bytes start_page (mem_size segment);
  k ← map_pages table user_pages initial_flags k;
  len ← num_bytes user_pages;
  k ← (if zlen segment_data <=? len
       then vm_write_bytes (VirtualMemory0 := paged_memory table) (vaddr segment) segment_data k
       else Panic PanicIndex);
  let user_flags := flags_or (LoadableSegmentFlags.page_table_entry_flags (segment_flags segment)) PageTable.USER_ACCESSIBLE in
  ps ← PageRange_iter (addr:=AddressVirt) user_pages;
  '(r, k) ← with_allocator (set_page_flags table ps user_flags) k;
  match r with Ok _ => mret k | Err _ => Panic PanicExpect end.

Definition USER_STACK_START : Z := 0x210000000.

Definition first_arg (params : ExecParams) : list Z := default [] (last (FilePath.components (path params))).

(** [set_up_elf_segments] in the page table [table] of the current task *)
Definition set_up_elf_segments (table : Z) (elf_exe : Elf.ElfExecutableHeader) (params : ExecParams) k
  : outcome (Z * kmem A) :=
  k ← foldM (load_segment table (Elf.parsed elf_exe)) (Elf.loadable_segments elf_exe) k;
  stack_start ← VirtAddr_new USER_STACK_START;
  stack_page ← from_start_addr stack_start Size4KiB;
  let stack_pages := mkPageRange stack_page 4 in
  k ← map_pages table stack_pages initial_flags k;
  len ← num_bytes stack_pages;
  stack_top ← VirtAddr_add stack_start len;
  '(stack_ptr, k) ← init_stack (VirtualMemory0 := paged_memory table) (first_arg params :: args params) stack_top k;
  stack_ptr ← VirtAddr_new stack_ptr;
  mret (stack_ptr, k).

(** [task_userspace_setup] up to the jump: the instruction and stack pointers, or nothing
    when the program cannot be started. *)
Definition task_userspace_setup {FS I E} `{!Vfs FS I E} (fuel : nat) (root : option FS) (table : Z) (params : ExecParams) k
  : outcome (option (Z * Z) * option FS * kmem A) :=
  '(inode, root) ← VfsOps.get_path_inode root (path params);
  match inode, root with
  | Ok (File file), Some fs =>
      bytes ← VfsOps.read_all fuel fs file;
      exe ← Elf.parse bytes;
      match exe with
      | Err _ => mret (None, root, k)
      | Ok elf_exe =>
          let instruction_ptr := Elf.entrypoint elf_exe in
          '(stack_ptr, k) ← set_up_elf_segments table elf_exe params k;
          mret (Some (instruction_ptr, stack_ptr), root, k)
      end
  | _, _ => mret (None, root, k)
  end.
End load.
End Userspace.
