(* ===== verification/UserspaceThms.v ===== *)
(** * Loading a program: what ends up in its memory

    The stack that a program starts with is proved against an interface of virtual
    memory, which the page tables then discharge. *)
From S2P Require Import Prelude AllocSpec BitmapAlloc External Addr PhysMem PageTable PageTableFacts PageTableThms.
From S2P Require Import Mapping MappingThms PageTableProps KStack KStackThms Transmute Vfs Userspace.
#[local] Open Scope Z_scope.
Import PageTable.

(** ** Bytes of a word *)
Lemma testbit_255 n : Z.testbit 255 n = (0 <=? n) && (n <? 8).
Proof.
  change 255 with (Z.ones 8). destruct (Z.ltb_spec n 0); [rewrite Z.testbit_neg_r by lia; lia|].
  rewrite Z.testbit_ones by lia. done.
Qed.

Lemma testbit_small b n : 0 ≤ b < 256 → 8 ≤ n → Z.testbit b n = false.
Proof.
  intros Hb Hn. destruct (Z.eq_dec b 0) as [->|]; [apply Z.testbit_0_l|].
  apply Z.bits_above_log2; [lia|]. assert (Z.log2 b < 8); [|lia]. apply Z.log2_lt_pow2; lia.
Qed.

Lemma replaced_byte w b sh sh' :
  0 ≤ b < 256 → 0 ≤ sh → 0 ≤ sh' → sh = sh' ∨ sh + 8 ≤ sh' ∨ sh' + 8 ≤ sh →
  Z.land (Z.shiftr (Z.lor (Z.ldiff w (Z.shiftl 255 sh)) (Z.shiftl b sh)) sh') 255 =
    if sh' =? sh then b else Z.land (Z.shiftr w sh') 255.
Proof.
  intros Hb Hsh Hsh' Hd. apply Z.bits_inj'. intros n Hn.
  rewrite Z.land_spec, Z.shiftr_spec, Z.lor_spec, Z.ldiff_spec, !Z.shiftl_spec, !testbit_255 by lia.
  destruct (Z.eqb_spec sh' sh) as [->|Hne].
  - replace (n + sh - sh) with n by lia. destruct (Z.ltb_spec n 8).
    + replace (0 <=? n) with true by lia. cbn. by rewrite !andb_false_r, andb_true_r.
    + rewrite (testbit_small b n) by lia. by rewrite !andb_false_r.
  - rewrite Z.land_spec, Z.shiftr_spec, testbit_255 by lia.
    destruct (Z.ltb_spec n 8); [|by rewrite !andb_false_r]. replace (0 <=? n) with true by lia. cbn [andb].
    replace ((0 <=? n + sh' - sh) && (n + sh' - sh <? 8)) with false by lia. cbn. rewrite !andb_true_r.
    destruct (Z.lt_ge_cases (n + sh' - sh) 0).
    + by rewrite (Z.testbit_neg_r b), orb_false_r by lia.
    + by rewrite (testbit_small b), orb_false_r by lia.
Qed.

Lemma byte_at_set m a b a' :
  0 ≤ b < 256 → byte_at (set_byte m a b) a' = if a' =? a then b else byte_at m a'.
Proof.
  intros Hb. unfold byte_at, set_byte. pose proof (Z.div_mod a 8). pose proof (Z.div_mod a' 8).
  pose proof (Z.mod_pos_bound a 8). pose proof (Z.mod_pos_bound a' 8).
  destruct (Z.eq_dec (a' / 8) (a / 8)) as [E|E].
  - rewrite E, store_set_eq, replaced_byte by lia. by destruct (Z.eqb_spec (8 * (a' mod 8)) (8 * (a mod 8))), (Z.eqb_spec a' a); try lia.
  - rewrite store_set_ne by lia. by destruct (Z.eqb_spec a' a); [congruence|].
Qed.

(** ** Virtual memory as an interface *)
Class VirtualMemoryLaws (S : Type) `{!VirtualMemory S} : Type := {
  (** [n] bytes from [lo] can be written, and no two of them are the same memory *)
  vm_region : S → Z → Z → Prop;
  vm_byte : S → Z → Z;
  (** what a write leaves alone *)
  vm_frame : S → S → Prop;
  vm_frame_preorder :: PreOrder vm_frame;
  vm_write_ok s lo n a b : vm_region s lo n → lo ≤ a < lo + n → 0 ≤ b < 256 →
    ∃ s', vm_write a b s = Ret s' ∧ vm_region s' lo n ∧ vm_frame s s' ∧
      ∀ x, lo ≤ x < lo + n → vm_byte s' x = if x =? a then b else vm_byte s x;
}.

(** ** What memory holds

    [byte] is the memory that the program sees: the bytes [bs] are at [a]. *)
Definition holds (byte : Z → Z) (a : Z) (bs : list Z) : Prop := ∀ i b, bs !! i = Some b → byte (a + Z.of_nat i) = b.

(** The stack a program finds when it starts: the count of its arguments at the stack
    pointer, then a pointer to each, in order, all in the region. *)
Record argument_block (byte : Z → Z) (args : list (list Z)) (sp top : Z) : Prop := {
  ab_aligned : sp mod 8 = 0;
  ab_argc : holds byte sp (le_split 8 (zlen args));
  ab_argv i arg : args !! i = Some arg →
    ∃ loc, holds byte (sp + 8 * (Z.of_nat i + 1)) (le_split 8 loc) ∧
      holds byte loc (arg ++ [0]) ∧ sp + 8 * (zlen args + 1) ≤ loc ∧ loc + zlen arg + 1 ≤ top;
}.

Section stack.
Context {S : Type} `{!VirtualMemory S, !VirtualMemoryLaws S} (lo n : Z).
Implicit Types (s : S).
Import Userspace.

(** A step that writes in the region from [a] to [b] only. *)
Record writes s s' (a b : Z) : Prop := {
  wr_region : vm_region s' lo n;
  wr_frame : vm_frame s s';
  wr_rest : ∀ x, lo ≤ x < lo + n → x < a ∨ b ≤ x → vm_byte s' x = vm_byte s x;
}.

Lemma holds_kept s s' a b p bs :
  writes s s' a b → holds (vm_byte s) p bs → lo ≤ p → p + zlen bs ≤ lo + n → p + zlen bs ≤ a ∨ b ≤ p → holds (vm_byte s') p bs.
Proof.
  intros W H Hlo Hhi Hd i c Hc. pose proof (lookup_lt_Some _ _ _ Hc). unfold zlen in *.
  rewrite (wr_rest _ _ _ _ W) by lia. by apply H.
Qed.

Lemma writes_nop s a b : vm_region s lo n → writes s s a b.
Proof. by split. Qed.

Lemma writes_trans s1 s2 s3 a b c d :
  writes s1 s2 a b → writes s2 s3 c d → writes s1 s3 (Z.min a c) (Z.max b d).
Proof.
  intros W1 W2. split; [apply W2|etrans; [apply W1|apply W2]|]. intros x Hx Hd.
  rewrite (wr_rest _ _ _ _ W2), (wr_rest _ _ _ _ W1) by lia. done.
Qed.

Lemma writes_weaken s s' a b a' b' : writes s s' a b → a' ≤ a → b ≤ b' → writes s s' a' b'.
Proof. intros [R F H] ??. split; [done|done|]. intros x ??. apply H; lia. Qed.

Lemma write_bytes_ok bs : ∀ s a,
  vm_region s lo n → lo ≤ a → a + zlen bs ≤ lo + n → bytes_ok bs →
  ∃ s', vm_write_bytes a bs s = Ret s' ∧ writes s s' a (a + zlen bs) ∧ holds (vm_byte s') a bs.
Proof.
  induction bs as [|b bs IH]; intros s a Hr Hlo Hhi Hok; cbn [vm_write_bytes].
  { exists s. split_and!; [done|by apply writes_nop|by intros i c Hc]. }
  apply Forall_cons in Hok as [Hb Hok]. rewrite zlen_cons in *. pose proof (zlen_nonneg bs).
  destruct (vm_write_ok s lo n a b) as (s1 & -> & Hr1 & Hf1 & H1); [done|lia|exact Hb|]. run_monad.
  destruct (IH s1 (a + 1)) as (s' & -> & W & Hh); [done|lia|lia|done|]. exists s'. split; [done|]. split.
  - split; [apply W|etrans; [done|apply W]|]. intros x Hx Hd. rewrite (wr_rest _ _ _ _ W), H1 by lia.
    by destruct (Z.eqb_spec x a); [lia|].
  - intros [|i] c Hc; simpl in Hc.
    + injection Hc as <-. rewrite Z.add_0_r, (wr_rest _ _ _ _ W), H1 by lia. by rewrite Z.eqb_refl.
    + rewrite <-(Hh i c Hc). f_equal. lia.
Qed.

Lemma write_usize_ok s a v :
  vm_region s lo n → lo ≤ a → a + 8 ≤ lo + n →
  ∃ s', vm_write_usize a v s = Ret s' ∧ writes s s' a (a + 8) ∧ holds (vm_byte s') a (le_split 8 v).
Proof. intros. unfold vm_write_usize. apply write_bytes_ok; [done|done|done|apply bytes_ok_le_split]. Qed.

Context (lo_pos : 0 ≤ lo) (hi_bound : lo + n < 2 ^ 64).

Lemma push_arg_ok arg sp s :
  vm_region s lo n → lo ≤ sp - (zlen arg + 1) → sp ≤ lo + n → bytes_ok arg →
  ∃ s', push_arg arg sp s = Ret (sp - (zlen arg + 1), s') ∧ writes s s' (sp - (zlen arg + 1)) sp ∧
    holds (vm_byte s') (sp - (zlen arg + 1)) (arg ++ [0]).
Proof.
  intros Hr Hlo Hhi Hok. pose proof (zlen_nonneg arg). unfold push_arg.
  replace (wrap 64 (sp - (zlen arg + 1))) with (sp - (zlen arg + 1)) by (unfold wrap; rewrite Z.mod_small; lia).
  set (p := sp - (zlen arg + 1)) in *.
  destruct (write_bytes_ok arg s p) as (s1 & -> & W1 & H1); [done|done|lia|done|]. run_monad.
  destruct (vm_write_ok s1 lo n (p + zlen arg) 0) as (s2 & -> & R2 & F2 & H2); [apply W1|lia|done|]. run_monad.
  assert (W2 : writes s1 s2 (p + zlen arg) sp).
  { split; [done|done|]. intros x Hx Hd. rewrite H2 by done. by destruct (Z.eqb_spec x (p + zlen arg)); [lia|]. }
  exists s2. split; [done|]. split.
  - eapply writes_weaken; [eapply writes_trans; [exact W1|exact W2]|lia|lia].
  - intros i b Hb. apply lookup_app_Some in Hb as [Hb|[Hge Hb]].
    + pose proof (lookup_lt_Some _ _ _ Hb). unfold zlen in *. rewrite (wr_rest _ _ _ _ W2) by lia. by apply H1.
    + pose proof (lookup_lt_Some _ _ _ Hb) as Hl. cbn in Hl. replace (i - length arg)%nat with 0%nat in Hb by lia. simpl in Hb.
      injection Hb as <-. rewrite H2 by (unfold zlen in *; lia). by destruct (Z.eqb_spec (p + Z.of_nat i) (p + zlen arg)); [|unfold zlen in *; lia].
Qed.

(** The space the strings of the arguments take. *)
Definition args_space (args : list (list Z)) : Z := foldr (λ a t, zlen a + 1 + t) 0 args.

Lemma args_space_cons a args : args_space (a :: args) = zlen a + 1 + args_space args.
Proof. done. Qed.
Lemma args_space_nonneg args : 0 ≤ args_space args.
Proof. induction args as [|a args IH]; [done|]. rewrite args_space_cons. pose proof (zlen_nonneg a). lia. Qed.

Lemma push_args_ok args : ∀ sp s,
  vm_region s lo n → lo ≤ sp - args_space args → sp ≤ lo + n → Forall bytes_ok args →
  ∃ locs s', push_args args sp s = Ret (locs, sp - args_space args, s') ∧ writes s s' (sp - args_space args) sp ∧
    Forall2 (λ arg loc, sp - args_space args ≤ loc ∧ loc + zlen arg + 1 ≤ sp ∧ holds (vm_byte s') loc (arg ++ [0])) args locs.
Proof.
  induction args as [|arg args IH]; intros sp s Hr Hlo Hhi Hok; cbn [push_args].
  { exists [], s. unfold args_space in *. simpl in *. rewrite Z.sub_0_r in *. split_and!; [done|by apply writes_nop|constructor]. }
  rewrite args_space_cons in *. pose proof (zlen_nonneg arg). pose proof (args_space_nonneg args).
  apply Forall_cons in Hok as [Ha Hok].
  destruct (push_arg_ok arg sp s) as (s1 & -> & W1 & H1); [done|lia|done|done|]. run_monad.
  set (p := sp - (zlen arg + 1)) in *.
  destruct (IH p s1) as (locs & s2 & -> & W2 & H2); [apply W1|lia|lia|done|]. run_monad.
  exists (p :: locs), s2. split; [do 3 f_equal; lia|]. split.
  - eapply writes_weaken; [eapply writes_trans; [exact W1|exact W2]|lia|lia].
  - constructor.
    + split; [lia|]. split; [lia|]. eapply holds_kept; [exact W2|exact H1|lia|rewrite zlen_app; unfold zlen; simpl; unfold zlen in *; lia|lia].
    + eapply Forall2_impl; [exact H2|]. intros a l (? & ? & ?). split_and!; [lia|lia|done].
Qed.

Lemma push_words_ok ws : ∀ sp s,
  vm_region s lo n → lo ≤ sp - 8 * zlen ws → sp ≤ lo + n →
  ∃ s', push_words ws sp s = Ret (sp - 8 * zlen ws, s') ∧ writes s s' (sp - 8 * zlen ws) sp ∧
    ∀ i w, ws !! i = Some w → holds (vm_byte s') (sp - 8 * (Z.of_nat i + 1)) (le_split 8 w).
Proof.
  induction ws as [|w ws IH]; intros sp s Hr Hlo Hhi; cbn [push_words].
  { exists s. replace (sp - 8 * zlen (@nil Z)) with sp by (rewrite (zlen_nil (A:=Z)); lia). split_and!; [done|by apply writes_nop|done]. }
  rewrite zlen_cons in *. pose proof (zlen_nonneg ws).
  destruct (write_usize_ok s (sp - 8) w) as (s1 & -> & W1 & H1); [done|lia|lia|]. run_monad.
  destruct (IH (sp - 8) s1) as (s2 & -> & W2 & H2); [apply W1|lia|lia|]. exists s2. split; [do 2 f_equal; lia|]. split.
  - eapply writes_weaken; [eapply writes_trans; [exact W1|exact W2]|lia|lia].
  - intros [|i] w' Hw; simpl in Hw.
    + injection Hw as <-. eapply holds_kept; [exact W2|exact H1|..];
        unfold zlen; rewrite ?length_le_split; unfold zlen in *; lia.
    + replace (sp - 8 * (Z.of_nat (Datatypes.S i) + 1)) with (sp - 8 - 8 * (Z.of_nat i + 1)) by lia. by apply H2.
Qed.

Lemma align_stack_spec p : 8 ≤ p → align_stack p mod 8 = 0 ∧ p - 8 ≤ align_stack p ≤ p.
Proof. intros Hp. unfold align_stack, align_offset. zdm. Qed.

Lemma init_stack_ok args top s :
  vm_region s lo n → lo ≤ top - args_space args - 8 * (zlen args + 2) → top ≤ lo + n → Forall bytes_ok args →
  ∃ sp s', init_stack args top s = Ret (sp, s') ∧ top - args_space args - 8 * (zlen args + 2) ≤ sp < top ∧
    writes s s' sp top ∧ argument_block (vm_byte s') args sp top.
Proof.
  intros Hr Hlo Hhi Hok. pose proof (zlen_nonneg args). pose proof (args_space_nonneg args). unfold init_stack.
  destruct (push_args_ok args top s) as (locs & s1 & -> & W1 & H1); [done|lia|done|done|]. run_monad.
  set (p := top - args_space args) in *. destruct (align_stack_spec p) as [Ha Hb]; [lia|].
  rewrite Ha, Z.eqb_refl. run_monad. set (q := align_stack p) in *.
  assert (Hl : zlen locs = zlen args) by (unfold zlen; by rewrite (Forall2_length _ _ _ H1)).
  assert (Hr' : zlen (reverse locs) = zlen locs) by (unfold zlen; by rewrite length_reverse).
  destruct (push_words_ok (reverse locs) q s1) as (s2 & -> & W2 & H2); rewrite ?Hr', ?Hl in *; [apply W1|lia|lia|].
  run_monad. destruct (push_words_ok [zlen args] (q - 8 * zlen args) s2) as (s3 & -> & W3 & H3);
    rewrite ?zlen_cons, ?(zlen_nil (A:=Z)) in *; [apply W2|lia|lia|].
  set (sp := q - 8 * zlen args - 8 * (1 + 0)) in *. exists sp, s3. split; [done|]. split; [lia|]. split.
  { eapply writes_weaken; [eapply writes_trans; [exact W1|eapply writes_trans; [exact W2|exact W3]]|lia|lia]. }
  split; [subst sp; zdm|by apply (H3 0%nat)|]. intros i arg Harg.
  destruct (Forall2_lookup_l _ _ _ _ _ H1 Harg) as (loc & Hloc & Hloc1 & Hloc2 & Hloc3).
  pose proof (lookup_lt_Some _ _ _ Harg). exists loc. split_and!; [| |unfold zlen in *; lia|done].
  - assert (Hrev : reverse locs !! (length locs - Datatypes.S i)%nat = Some loc).
    { rewrite reverse_lookup by (unfold zlen in *; lia). rewrite <-Hloc. f_equal. unfold zlen in *. lia. }
    specialize (H2 _ _ Hrev). eapply holds_kept; [exact W3|..];
      [replace (sp + _) with (q - 8 * (Z.of_nat (length locs - Datatypes.S i) + 1)) by (unfold zlen in *; lia); exact H2|..];
      unfold zlen in *; rewrite ?length_le_split; lia.
  - assert (zlen (arg ++ [0]) = zlen arg + 1) as Hz by (by rewrite zlen_app).
    eapply holds_kept; [exact W3| |lia|lia|lia]. eapply holds_kept; [exact W2|exact Hloc3|lia|lia|lia].
Qed.
End stack.
