(* ===== verification/UserspaceProps.v ===== *)
(** * Loading a program into an address space

    The laws of virtual memory hold of memory seen through a well-formed page table, and
    with them what [set_up_elf_segments] leaves in the address space of a new program. *)
From S2P Require Import Prelude AllocSpec BitmapAlloc External Addr PhysMem PageTable PageTableFacts PageTableThms.
From S2P Require Import Mapping MappingThms PageTableProps KStack KStackThms Transmute Vfs Userspace UserspaceThms.
#[local] Open Scope Z_scope.
Import PageTable Userspace.

Section space.
Context {x86 : X86_64} {x86_laws : X86_64Laws} {bf : Bitflags} {bf_laws : BitflagsLaws}.
Context {A : Type} {CA : ContiguousAllocator A} {CAL : ContiguousAllocatorLaws A}.
Implicit Types (st : machine A) (T : table_map) (k : kmem A).

(** The page table at [root] is well formed, with the frame allocator in state [a]. *)
Record space T (root : Z) k (a : A) : Prop := {
  sp_frames : k.(k_frames) = Some a;
  sp_labelled : labelled T (machine_of k a);
  sp_root : T root = Some (Level4, 0);
}.

(** The [n] pages from [base] are mapped with [fl] to the frames [fr], all different, in
    use and none of them a page table. *)
Record region T (root : Z) k (a : A) (base n fl : Z) (fr : Z → Z) : Prop := {
  rg_pages x : 0 ≤ x < n * 4096 → translate_address k.(k_words) root (base + x)
    = Ret (TranslateMapped (frame_page (fr (x / 4096))) fl (x mod 4096));
  rg_inj i j : 0 ≤ i < n → 0 ≤ j < n → fr i = fr j → i = j;
  rg_frames i : 0 ≤ i < n → 0 < fr i ∧ ca_used a (fr i) = true ∧ T (frame_addr (fr i)) = None;
}.

(** The byte that the program sees at [x]. *)
Definition user_byte (root : Z) k (x : Z) : Z :=
  match translate_address k.(k_words) root x with
  | Ret (TranslateMapped page _ offset) => byte_at k.(k_words) (start_addr page + offset)
  | _ => 0
  end.

Lemma region_byte T root k a base n fl fr x : region T root k a base n fl fr → 0 ≤ x < n * 4096 →
  user_byte root k (base + x) = byte_at (k_words k) (frame_addr (fr (x / 4096)) + x mod 4096).
Proof. intros R Hx. unfold user_byte. by rewrite (rg_pages _ _ _ _ _ _ _ _ R x Hx). Qed.

Lemma byte_word f y : 0 ≤ y < 4096 → 8 * ((frame_addr f + y) / 8) = frame_addr f + 8 * (y / 8) ∧ 0 ≤ 8 * (y / 8) < 4096.
Proof.
  intros Hy. pose proof (frame_addr_aligned f). pose proof (Z.div_mod (frame_addr f) 4096).
  replace (frame_addr f + y) with (y + 512 * (frame_addr f / 4096) * 8) by lia. rewrite Z.div_add by lia. zdm.
Qed.

Lemma frame_byte_addr f f' y y' : 0 ≤ y < 4096 → 0 ≤ y' < 4096 →
  frame_addr f + y = frame_addr f' + y' → f = f' ∧ y = y'.
Proof. unfold frame_addr, PAGE_SIZE. lia. Qed.

(** A write to a frame that is not a table. *)
Definition with_byte k (x b : Z) : kmem A :=
  mkKmem (set_byte (k_words k) x b) (k_frames k) (k_flushed k) (k_table k) (k_heap k).

Lemma with_byte_space T root k a f y b : space T root k a → T (frame_addr f) = None → 0 ≤ y < 4096 →
  space T root (with_byte k (frame_addr f + y) b) a ∧
  ∀ x, translate_address (k_words (with_byte k (frame_addr f + y) b)) root x = translate_address (k_words k) root x.
Proof.
  intros [Hf Hl Hr] Hn Hy. destruct (byte_word f y Hy) as [Hw Hb].
  assert (Hsame : ∀ t l p i, T t = Some (l, p) → 0 ≤ i < 512 →
    k_words (with_byte k (frame_addr f + y) b) (t + 8 * i) = words (machine_of k a) (t + 8 * i)).
  { intros t l p i Ht Hi. simpl. unfold set_byte. rewrite Hw. apply store_set_ne, not_eq_sym. by eapply entry_not_data. }
  split; [split; [done|exact (labelled_ext T _ _ Hl Hsame)|done]|].
  intros x. apply (lookup_same T (machine_of k a) _ x Level4 root Hl); [by rewrite vpn_root|done].
Qed.

(** ** The laws of virtual memory *)
Section paged.
Context (T : table_map) (root : Z) (a : A) (P : Z → Prop).

(** A region outside the frames [P]. *)
Definition writable k (lo n : Z) : Prop := space T root k a ∧ ∃ m fl fr,
  region T root k a lo m fl fr ∧ n = m * 4096 ∧ contains fl WRITABLE = true ∧ ∀ i, 0 ≤ i < m → ¬ P (fr i).

(** What a write to the program's memory leaves alone: all translations and the frames [P]. *)
Record untouched k k' : Prop := {
  ut_translate x : translate_address (k_words k') root x = translate_address (k_words k) root x;
  ut_frames : k_frames k' = k_frames k;
  ut_space : space T root k a → space T root k' a;
  ut_data f y : P f → 0 ≤ y < 4096 → k_words k' (frame_addr f + y) = k_words k (frame_addr f + y);
}.

#[local] Instance untouched_preorder : PreOrder untouched.
Proof. split; [done|]. intros k1 k2 k3 [? ? ? H1] [? ? ? H2].
  split; [congruence|congruence|auto|]. intros f y ??. by rewrite H2, H1.
Qed.

Lemma writable_write k lo n x b : writable k lo n → lo ≤ x < lo + n → 0 ≤ b < 256 →
  ∃ k', vm_write (VirtualMemory := paged_memory root) x b k = Ret k' ∧ writable k' lo n ∧ untouched k k' ∧
    ∀ z, lo ≤ z < lo + n → user_byte root k' z = if z =? x then b else user_byte root k z.
Proof.
  intros [Hs (m & fl & fr & R & -> & Hw & Hp)] Hx Hb. set (y := x - lo).
  assert (Hpg : ∀ y, 0 ≤ y < m * 4096 → 0 ≤ y / 4096 < m ∧ 0 ≤ y mod 4096 < 4096) by (intros ? ?; zdm).
  destruct (Hpg y ltac:(lia)) as [Hj Hy]. destruct (rg_frames _ _ _ _ _ _ _ _ R _ Hj) as (_ & _ & Hn).
  pose proof (rg_pages _ _ _ _ _ _ _ _ R y ltac:(lia)) as Htr. replace (lo + y) with x in Htr by lia.
  destruct (with_byte_space T root k a _ _ b Hs Hn Hy) as [Hs' Htr'].
  set (k' := with_byte k _ b) in *. exists k'. cbn [vm_write paged_memory]. rewrite Htr. run_monad. rewrite Hw.
  assert (R' : region T root k' a lo m fl fr).
  { split; [|apply R|apply R]. intros z Hz. rewrite Htr'. by apply R. }
  split; [done|]. split; [split; [done|by exists m, fl, fr]|]. split.
  { split; [done|done|done|]. intros f z Hf Hz. unfold k', with_byte. cbn [k_words]. unfold set_byte.
    destruct (byte_word (fr (y / 4096)) _ Hy) as [-> Hb']. apply store_set_ne. intros E.
    apply frame_byte_addr in E as [-> _]; [by apply (Hp _ Hj)|done|done]. }
  intros z Hz. replace z with (lo + (z - lo)) by lia. rewrite (region_byte _ _ _ _ _ _ _ _ _ R'), (region_byte _ _ _ _ _ _ _ _ _ R) by lia.
  destruct (Hpg (z - lo) ltac:(lia)) as [Hj' Hy']. unfold k', with_byte. cbn [k_words]. rewrite byte_at_set by done.
  destruct (Z.eqb_spec (lo + (z - lo)) x), (Z.eqb_spec (frame_addr (fr ((z - lo) / 4096)) + (z - lo) mod 4096)
    (frame_addr (fr (y / 4096)) + y mod 4096)) as [E|E]; try done.
  - destruct E. by replace (z - lo) with y by lia.
  - apply frame_byte_addr in E as [E ?]; [|done|done]. apply (rg_inj _ _ _ _ _ _ _ _ R) in E; [|done|done]. zdm.
Qed.

Definition paged_laws : VirtualMemoryLaws (kmem A) (VirtualMemory0 := paged_memory root) := {|
  vm_region := writable;
  vm_byte := user_byte root;
  vm_frame := untouched;
  vm_write_ok := writable_write;
|}.
End paged.

(** ** Changing the flags of a region *)
Lemma page_of x m : (x / 4096 = m → x < (m + 1) * 4096) ∧ (x / 4096 ≠ m → m * 4096 ≤ x → (m + 1) * 4096 ≤ x).
Proof. zdm. Qed.

Lemma set_region_flags T root base n fl fl0 fr : base mod 4096 = 0 → 0 ≤ n → base mod 2 ^ 48 + n * 4096 ≤ 2 ^ 48 →
  0 ≤ fl → Z.land fl ALL_FLAGS = fl → Z.land fl PRESENT = PRESENT → Z.land fl HUGE_PAGE = 0 →
  ∀ m st, 0 ≤ m → labelled T st → T root = Some (Level4, 0) →
  (∀ x, 0 ≤ x < n * 4096 → translate_address (words st) root (base + x)
     = Ret (TranslateMapped (frame_page (fr (x / 4096))) (if x <? m * 4096 then fl else fl0) (x mod 4096))) →
  ∃ st', set_page_flags root (nth_page (mkPageRange (mkPage base Size4KiB) n) <$> range m n) fl st = Ret (Ok tt, st') ∧
    labelled T st' ∧ frames st' = frames st ∧ keeps_data T st st' ∧
    (∀ x, 0 ≤ x < n * 4096 → translate_address (words st') root (base + x)
       = Ret (TranslateMapped (frame_page (fr (x / 4096))) fl (x mod 4096))) ∧
    ∀ y, ¬ in_region base n y → translate_address (words st') root y = translate_address (words st) root y.
Proof.
  intros Ha Hn Hb Hfl0 Hall Hpr Hhg m st Hm. remember (Z.to_nat (n - m)) as d eqn:Hd. revert m st Hm Hd.
  induction d as [|d IH]; intros m st Hm Hd Hl Hr Htr.
  { rewrite range_nil by lia. exists st. split_and!; [done|done|done|done| |done]. intros x Hx. rewrite Htr by done.
    by destruct (Z.ltb_spec x (m * 4096)); [|lia]. }
  rewrite range_cons by lia. cbn [fmap list_fmap set_page_flags].
  change (nth_page _ m) with (mkPage (base + m * 4096) Size4KiB).
  destruct (set_flags_ok T st root (base + m * 4096) Size4KiB fl Hl Hr Hfl0 Hall Hpr) as (r & st1 & -> & Hl1 & Hf1 & Hd1 & Hr1).
  { intros tp f0 off. rewrite Htr by lia. by intros [= <- _ _]. }
  run_monad. destruct r as [u|e]; [|destruct Hr1 as [_ Hr1]; rewrite Htr in Hr1 by lia; discriminate].
  destruct Hr1 as (tp & f0 & Htp & _ & Hafter). rewrite Htr in Htp by lia.
  injection Htp as <- _ _. cbn [size frame_page] in Hafter. change (size_bytes Size4KiB) with 4096 in Hafter.
  rewrite Z.div_mul in Hafter by lia.
  assert (Hsp : ∀ x, 0 ≤ x < n * 4096 → same_block Size4KiB (base + x) (base + m * 4096) ↔ x / 4096 = m).
  { intros x Hx. etrans; [apply (region_same_page base x (m * 4096)); lia|]. by rewrite Z.div_mul. }
  destruct (IH (m + 1) st1 ltac:(lia) ltac:(lia) Hl1 Hr) as (st' & E & Hl' & Hf' & Hd' & Htr' & Hoth).
  - intros x Hx. rewrite Hafter. pose proof (Hsp x Hx). destruct (page_of x m). case_decide as Hc.
    + replace (x / 4096) with m by (symmetry; tauto). replace ((base + x) mod 4096) with (x mod 4096)
        by (rewrite Zplus_mod, Ha, Z.add_0_l; symmetry; by apply Z.mod_mod).
      destruct (Z.ltb_spec x ((m + 1) * 4096)); [done|]. assert (x < (m + 1) * 4096) by tauto. lia.
    + rewrite Htr by done. destruct (Z.ltb_spec x ((m + 1) * 4096)), (Z.ltb_spec x (m * 4096)); try done; exfalso;
        assert (x / 4096 ≠ m) by tauto; lia.
  - exists st'. rewrite E. split_and!; [done|done|congruence| |done|].
    + intros f y Hf Hu Hn' Hy. rewrite Hd' by (by rewrite ?Hf1). by apply Hd1.
    + intros y Hy. rewrite Hoth, Hafter by done. case_decide as Hc; [|done]. destruct Hy.
      apply (region_page_of base m); [done|lia|done|exact Hc].
Qed.

(** ** Adding a region to an address space *)

(** A range of pages in the lower half. *)
Record user_range (base n : Z) : Prop := {
  ur_aligned : base mod 4096 = 0;
  ur_start : 0 ≤ base < 2 ^ 47;
  ur_pages : 0 ≤ n;
  ur_end : base + n * 4096 ≤ 2 ^ 47;
}.

Lemma user_in_region base n x : user_range base n → 0 ≤ x < 2 ^ 48 → in_region base n x ↔ base ≤ x < base + n * 4096.
Proof. intros [? ? ? ?] Hx. unfold in_region. rewrite !Z.mod_small by lia. done. Qed.

Definition in_use T (a : A) (f : Z) : Prop := 0 ≤ f ∧ ca_used a f = true ∧ T (frame_addr f) = None.

(** From one address space to one with [n] pages in addition, at the addresses [D]. *)
Record grown T T' root k k' (a a' : A) (D : Z → Prop) (n : Z) : Prop := {
  gr_space : space T' root k' a';
  gr_in_use f : in_use T a f → in_use T' a' f;
  gr_data f y : in_use T a f → 0 ≤ y < 4096 → k_words k' (frame_addr f + y) = k_words k (frame_addr f + y);
  gr_rest y : ¬ D y → translate_address (k_words k') root y = translate_address (k_words k) root y;
  gr_free : Z.of_nat (free_frames a) ≤ 4 * n + Z.of_nat (free_frames a');
}.

Lemma byte_at_same (m m' : store) f y : (∀ y, 0 ≤ y < 4096 → m' (frame_addr f + y) = m (frame_addr f + y)) →
  0 ≤ y < 4096 → byte_at m' (frame_addr f + y) = byte_at m (frame_addr f + y).
Proof. intros Hm Hy. unfold byte_at. destruct (byte_word f y Hy) as [-> Hb]. by rewrite Hm. Qed.

(** Regions elsewhere are kept, with their contents. *)
Lemma grown_region T T' root k k' a a' D n b m fl fr :
  grown T T' root k k' a a' D n → region T root k a b m fl fr →
  (∀ x, 0 ≤ x < m * 4096 → ¬ D (b + x)) →
  region T' root k' a' b m fl fr ∧
  ∀ x, 0 ≤ x < m * 4096 → user_byte root k' (b + x) = user_byte root k (b + x).
Proof.
  intros G R Hd. assert (R' : region T' root k' a' b m fl fr).
  { split; [|apply R|].
    - intros x Hx. rewrite (gr_rest _ _ _ _ _ _ _ _ _ G) by auto. by apply R.
    - intros i Hi. destruct (rg_frames _ _ _ _ _ _ _ _ R i Hi) as (H0 & Hu & Hn). split; [done|].
      apply (gr_in_use _ _ _ _ _ _ _ _ _ G). split_and!; [lia|done|done]. }
  split; [done|]. intros x Hx. rewrite (region_byte _ _ _ _ _ _ _ _ _ R'), (region_byte _ _ _ _ _ _ _ _ _ R) by done.
  assert (0 ≤ x / 4096 < m ∧ 0 ≤ x mod 4096 < 4096) as [Hj Hy] by zdm.
  apply byte_at_same; [|done]. intros y Hy'. destruct (rg_frames _ _ _ _ _ _ _ _ R _ Hj) as (H0 & Hu & Hn).
  apply (gr_data _ _ _ _ _ _ _ _ _ G); [split_and!; [lia|done|done]|done].
Qed.

(** New pages, none of them a frame that was in use. *)
Definition fresh_region T (a : A) T' root k' (a' : A) base n fl fr : Prop :=
  region T' root k' a' base n fl fr ∧ ∀ i, 0 ≤ i < n → ¬ in_use T a (fr i).

Definition user_rw : Z := Z.lor (Z.lor PRESENT WRITABLE) USER_ACCESSIBLE.

Lemma initial_flags_ok : initial_flags = user_rw ∧ leaf_flags_ok user_rw ∧ contains user_rw WRITABLE = true.
Proof.
  unfold initial_flags. rewrite !flags_or_ok. split_and!; [done|split_and!; vm_compute; congruence|].
  by apply contains_bit.
Qed.

Lemma user_pages_iter base n : user_range base n →
  PageRange_iter (addr:=AddressVirt) (mkPageRange (mkPage base Size4KiB) n)
  = Ret (nth_page (mkPageRange (mkPage base Size4KiB) n) <$> range 0 n).
Proof.
  intros [Ha H0 Hn He]. apply PageRange_iter_virt; cbn [num_pages start start_addr size size_bytes];
    [lia|lia|unfold canonical; lia|intros; unfold canonical; lia].
Qed.

Lemma map_pages_ok T root k a base n : space T root k a → user_range base n →
  (∀ x, 0 ≤ x < n * 4096 → translate_address (k_words k) root (base + x) = Ret TranslateUnmapped) →
  4 * n < Z.of_nat (free_frames a) →
  ∃ k' T' a' fr, map_pages root (mkPageRange (mkPage base Size4KiB) n) initial_flags k = Ret k' ∧
    grown T T' root k k' a a' (in_region base n) n ∧ fresh_region T a T' root k' a' base n user_rw fr.
Proof.
  intros [Hf Hl Hr] Hur Hun Hfree. pose proof Hur as [Ha H0 Hn He]. destruct initial_flags_ok as (-> & Hfl & _).
  unfold map_pages. rewrite user_pages_iter by done. run_monad. unfold allocate_and_map_pages, with_allocator.
  rewrite Hf. run_monad. fold (machine_of k a).
  destruct (map_region_ok T (machine_of k a) root base n user_rw Hl Hr Hfl Ha Hn)
    as (r & st' & T' & -> & Hl' & Hex & Hcap & Hus & Hnt & Hda & Hfrs & Hoth & Hmap); [rewrite Z.mod_small by lia; lia|exact Hun|].
  run_monad. cbn [machine_of frames] in Hfrs. destruct r as [[]|e]; [|destruct Hmap; lia]. destruct Hmap as (fr & Hinj & Hfr & Hmap).
  eexists _, T', (frames st'), fr. split; [reflexivity|]. split; [|split].
  - split; [split; [done|by destruct st'|by apply Hex]| | |exact Hoth|exact Hfrs].
    + intros f (Hf0 & Hu & HT). split_and!; [done|by apply Hus|by apply Hnt].
    + intros f y (Hf0 & Hu & HT) Hy. by apply Hda.
  - split; [exact Hmap|exact Hinj|]. intros i Hi. destruct (Hfr i Hi) as (? & _ & ? & ?). split_and!; [lia|done|done].
  - intros i Hi (_ & Hu & _). destruct (Hfr i Hi) as (_ & Hu' & _). simpl in Hu'. congruence.
Qed.

(** Writing to the new pages. *)
Lemma grown_write T T' root k k1 k2 a a' base n fl fr :
  grown T T' root k k1 a a' (in_region base n) n → fresh_region T a T' root k1 a' base n fl fr →
  untouched T' root a' (in_use T a) k1 k2 →
  grown T T' root k k2 a a' (in_region base n) n ∧ fresh_region T a T' root k2 a' base n fl fr.
Proof.
  intros G [R Hnew] [Htr Hf Hs Hd]. split; [split|split; [split|done]].
  - apply Hs, G.
  - apply G.
  - intros f y Hu Hy. rewrite Hd by done. by apply G.
  - intros y Hy. rewrite Htr. by apply G.
  - apply G.
  - intros x Hx. rewrite Htr. by apply R.
  - apply R.
  - apply R.
Qed.

(** Giving the new pages other flags. *)
Lemma grown_flags T T' root k k1 a a' base n fl fl' fr : user_range base n →
  grown T T' root k k1 a a' (in_region base n) n → fresh_region T a T' root k1 a' base n fl fr →
  0 ≤ fl' → Z.land fl' ALL_FLAGS = fl' → Z.land fl' PRESENT = PRESENT → Z.land fl' HUGE_PAGE = 0 →
  ∃ k2, with_allocator (set_page_flags root (nth_page (mkPageRange (mkPage base Size4KiB) n) <$> range 0 n) fl') k1
      = Ret (Ok tt, k2) ∧
    grown T T' root k k2 a a' (in_region base n) n ∧ fresh_region T a T' root k2 a' base n fl' fr ∧
    ∀ x, 0 ≤ x < n * 4096 → user_byte root k2 (base + x) = user_byte root k1 (base + x).
Proof.
  intros [Ha H0 Hn He] G [R Hnew] Hfl Hall Hpr Hhg. pose proof (gr_space _ _ _ _ _ _ _ _ _ G) as [Hf Hl Hr].
  unfold with_allocator. rewrite Hf. run_monad. fold (machine_of k1 a').
  destruct (set_region_flags T' root base n fl' fl fr Ha Hn ltac:(rewrite Z.mod_small; lia) Hfl Hall Hpr Hhg
    0 (machine_of k1 a') ltac:(lia) Hl Hr) as (st' & -> & Hl' & Hfs & Hda & Htr & Hoth).
  { intros x Hx. destruct (Z.ltb_spec x (0 * 4096)); [lia|]. by apply R. }
  run_monad. eexists. split; [done|].
  assert (R2 : region T' root (mkKmem (words st') (Some (frames st')) (flushed st') (k_table k1) (k_heap k1)) a' base n fl' fr)
    by (split; [exact Htr|apply R|apply R]).
  split_and!.
  - split; [split; [by rewrite Hfs|by destruct st'; simpl in *; subst|done]|apply G| | |apply G].
    + intros f y Hu Hy. rewrite <-(gr_data _ _ _ _ _ _ _ _ _ G f y Hu Hy).
      apply (gr_in_use _ _ _ _ _ _ _ _ _ G) in Hu as (? & ? & ?). by apply Hda.
    + intros y Hy. cbn [k_words]. rewrite Hoth by done. by apply G.
  - by split.
  - intros x Hx. rewrite (region_byte _ _ _ _ _ _ _ _ _ R2), (region_byte _ _ _ _ _ _ _ _ _ R) by done.
    assert (0 ≤ x / 4096 < n ∧ 0 ≤ x mod 4096 < 4096) as [Hj Hy] by zdm.
    apply byte_at_same; [|done]. intros y Hy'. destruct (rg_frames _ _ _ _ _ _ _ _ R _ Hj) as (Hp & ? & ?).
    apply Hda; [lia|done|done|done].
Qed.

(** ** A segment *)
Context {elf : ElfCrate}.

Definition segment_pages (segment : LoadableSegment) : Z := div_ceil (mem_size segment) 4096.

Definition segment_page_flags (segment : LoadableSegment) : Z :=
  flags_or (LoadableSegmentFlags.page_table_entry_flags (segment_flags segment)) USER_ACCESSIBLE.

(** A readable segment of whole pages with [data] in the file. *)
Record segment_ok (parsed : ElfBytes) (segment : LoadableSegment) (data : list Z) : Prop := {
  so_alignment : alignment segment = 4096;
  so_data : segment_data parsed (raw_header segment) = Some data;
  so_bytes : bytes_ok data;
  so_range : user_range (vaddr segment) (segment_pages segment);
  so_length : zlen data ≤ segment_pages segment * 4096;
  so_readable : contains (segment_flags segment) LoadableSegmentFlags.READABLE = true;
}.

Lemma segment_flags_ok segment : contains (segment_flags segment) LoadableSegmentFlags.READABLE = true →
  let fl := segment_page_flags segment in
  0 ≤ fl ∧ Z.land fl ALL_FLAGS = fl ∧ Z.land fl PRESENT = PRESENT ∧ Z.land fl HUGE_PAGE = 0.
Proof.
  intros Hr fl. unfold fl, segment_page_flags, LoadableSegmentFlags.page_table_entry_flags. rewrite Hr.
  destruct (contains _ LoadableSegmentFlags.EXECUTABLE), (contains _ LoadableSegmentFlags.WRITABLE); cbn [negb];
    rewrite !flags_or_ok; vm_compute; by split_and!.
Qed.

(** The segment is in memory: its pages have its flags, its data is at its address. *)
Definition segment_loaded T root k (a : A) (segment : LoadableSegment) (data : list Z) : Prop :=
  (∃ fr, region T root k a (vaddr segment) (segment_pages segment) (segment_page_flags segment) fr) ∧
  holds (user_byte root k) (vaddr segment) data.

Lemma load_segment_ok T root k a parsed segment data : space T root k a → segment_ok parsed segment data →
  (∀ x, 0 ≤ x < segment_pages segment * 4096 →
     translate_address (k_words k) root (vaddr segment + x) = Ret TranslateUnmapped) →
  4 * segment_pages segment < Z.of_nat (free_frames a) →
  ∃ k' T' a', load_segment root parsed segment k = Ret k' ∧
    grown T T' root k k' a a' (in_region (vaddr segment) (segment_pages segment)) (segment_pages segment) ∧ segment_loaded T' root k' a' segment data.
Proof.
  intros Hs [Hal Hda Hby Hur Hlen Hrd] Hun Hfree. pose proof Hur as [Ha H0 Hn He]. unfold load_segment.
  rewrite Hal, Hda. run_monad. change (4096 =? size_bytes Size4KiB) with true. run_monad.
  rewrite from_start_addr_ok by (change (size_bytes Size4KiB) with 4096; lia || done). run_monad.
  unfold from_num_bytes, udiv_ceil. cbn [size size_bytes Z.eqb]. run_monad. fold (segment_pages segment).
  set (n := segment_pages segment) in *. set (base := vaddr segment) in *.
  destruct (map_pages_ok T root k a base n Hs Hur Hun Hfree) as (k1 & T' & a' & fr & -> & G1 & R1). run_monad.
  unfold num_bytes. cbn [num_pages start size size_bytes]. rewrite (umul_ok 64) by lia. run_monad.
  destruct (Z.leb_spec (zlen data) (n * 4096)); [|lia].
  pose (VL := paged_laws T' root a' (in_use T a)).
  destruct (write_bytes_ok (VirtualMemoryLaws0 := VL) base (n * 4096) data k1 base) as (k2 & E2 & [_ W2 _] & Hh2);
    [|lia|lia|done|].
  { split; [apply G1|]. destruct R1 as [R1 Hnew]. exists n, user_rw, fr. split_and!; [done|done|apply initial_flags_ok|done]. }
  rewrite E2. run_monad. destruct (grown_write _ _ _ _ _ _ _ _ _ _ _ _ G1 R1 W2) as [G2 R2].
  rewrite user_pages_iter by done. run_monad. destruct (segment_flags_ok segment Hrd) as (F1 & F2 & F3 & F4).
  destruct (grown_flags _ _ _ _ _ _ _ _ _ _ _ _ Hur G2 R2 F1 F2 F3 F4) as (k3 & E3 & G3 & [R3 _] & Hb).
  unfold segment_page_flags in E3. rewrite E3. run_monad. exists k3, T', a'. do 2 (split; [done|]). split; [by exists fr|].
  intros i b Hi. pose proof (lookup_lt_Some _ _ _ Hi). rewrite Hb by (unfold zlen in *; lia). by apply Hh2.
Qed.

Lemma grown_trans T T1 T2 root k k1 k2 a a1 a2 D1 D2 n1 n2 :
  grown T T1 root k k1 a a1 D1 n1 → grown T1 T2 root k1 k2 a1 a2 D2 n2 →
  grown T T2 root k k2 a a2 (λ y, D1 y ∨ D2 y) (n1 + n2).
Proof.
  intros [S1 U1 M1 R1 F1] [S2 U2 M2 R2 F2]. split; [done|auto| | |lia].
  - intros f y Hu Hy. rewrite M2 by auto. by apply M1.
  - intros y Hy. rewrite R2 by tauto. apply R1. tauto.
Qed.

(** ** All segments *)
Definition apart (b n b' n' : Z) : Prop := b + n * 4096 ≤ b' ∨ b' + n' * 4096 ≤ b.

Definition apart_segments (s s' : LoadableSegment) : Prop :=
  apart (vaddr s) (segment_pages s) (vaddr s') (segment_pages s').

Definition unmapped root k (base n : Z) : Prop := ∀ x, 0 ≤ x < n * 4096 →
  translate_address (k_words k) root (base + x) = Ret TranslateUnmapped.

Definition pages_of (segments : list LoadableSegment) : Z := foldr (λ s t, segment_pages s + t) 0 segments.

Definition in_segments (segments : list LoadableSegment) (y : Z) : Prop :=
  Exists (λ s, in_region (vaddr s) (segment_pages s) y) segments.

Lemma apart_not_in b n b' n' x : user_range b n → user_range b' n' → apart b n b' n' →
  0 ≤ x < n * 4096 → ¬ in_region b' n' (b + x).
Proof.
  intros Hu Hu' Hap Hx. pose proof (ur_start _ _ Hu). pose proof (ur_end _ _ Hu).
  rewrite user_in_region by (done || lia). unfold apart in Hap. lia.
Qed.

Lemma segment_kept T T' root k k' a a' D n segment data :
  grown T T' root k k' a a' D n → zlen data ≤ segment_pages segment * 4096 →
  (∀ x, 0 ≤ x < segment_pages segment * 4096 → ¬ D (vaddr segment + x)) →
  segment_loaded T root k a segment data → segment_loaded T' root k' a' segment data.
Proof.
  intros G Hlen Hd [[fr R] Hh]. destruct (grown_region _ _ _ _ _ _ _ _ _ _ _ _ _ G R Hd) as [R' Hb].
  split; [by exists fr|]. intros i b Hi. pose proof (lookup_lt_Some _ _ _ Hi). rewrite Hb by (unfold zlen in *; lia). by apply Hh.
Qed.

Lemma unmapped_kept T T' root k k' a a' D n base m : grown T T' root k k' a a' D n →
  (∀ x, 0 ≤ x < m * 4096 → ¬ D (base + x)) → unmapped root k base m → unmapped root k' base m.
Proof. intros G Hd Hu x Hx. rewrite (gr_rest _ _ _ _ _ _ _ _ _ G) by auto. by apply Hu. Qed.

Lemma segments_range parsed segments datas : Forall2 (segment_ok parsed) segments datas →
  Forall (λ s, user_range (vaddr s) (segment_pages s)) segments ∧ 0 ≤ pages_of segments.
Proof.
  induction 1 as [|s d segments datas Hs _ [IH1 IH2]]; [done|]. pose proof (so_range _ _ _ Hs) as Hr.
  split; [by constructor|]. pose proof (ur_pages _ _ Hr).
  change (pages_of (s :: segments)) with (segment_pages s + pages_of segments). lia.
Qed.

Lemma apart_not_in_segments b n segments x : user_range b n →
  Forall (λ s, user_range (vaddr s) (segment_pages s)) segments →
  Forall (λ s, apart b n (vaddr s) (segment_pages s)) segments → 0 ≤ x < n * 4096 → ¬ in_segments segments (b + x).
Proof.
  intros Hu Hur Hap Hx [s [Hs Hin]]%Exists_exists. rewrite Forall_forall in Hur, Hap.
  by apply (apart_not_in b n (vaddr s) (segment_pages s) x) in Hin; auto.
Qed.

Lemma apart_sym b n b' n' : apart b n b' n' → apart b' n' b n.
Proof. unfold apart. tauto. Qed.

Lemma load_segments_ok parsed root segments datas : Forall2 (segment_ok parsed) segments datas →
  ForallOrdPairs apart_segments segments → ∀ T k a, space T root k a →
  Forall (λ s, unmapped root k (vaddr s) (segment_pages s)) segments →
  4 * pages_of segments < Z.of_nat (free_frames a) →
  ∃ k' T' a', foldM (load_segment root parsed) segments k = Ret k' ∧
    grown T T' root k k' a a' (in_segments segments) (pages_of segments) ∧
    Forall2 (segment_loaded T' root k' a') segments datas.
Proof.
  intros Hok. induction Hok as [|s d segments datas Hs Hok IH]; intros Hap T k a Hsp Hun Hfree.
  { exists k, T, a. split_and!; [done| |constructor]. split; auto; simpl; lia. }
  inversion_clear Hap as [|? ? Hap1 Hap2]. apply Forall_cons in Hun as [Hun1 Hun2].
  change (pages_of (s :: segments)) with (segment_pages s + pages_of segments) in *.
  destruct (segments_range parsed segments datas Hok) as [Hur Hnn]. pose proof (so_range _ _ _ Hs) as Hr.
  destruct (load_segment_ok T root k a parsed s d Hsp Hs Hun1) as (k1 & T1 & a1 & E1 & G1 & L1); [lia|].
  destruct (IH Hap2 T1 k1 a1) as (k2 & T2 & a2 & E2 & G2 & L2); [apply G1| |pose proof (gr_free _ _ _ _ _ _ _ _ _ G1); lia|].
  { rewrite Forall_forall in Hap1, Hur, Hun2 |- *. intros s' Hin. eapply unmapped_kept; [exact G1| |by apply Hun2].
    intros x Hx. apply apart_not_in with (n := segment_pages s'); [by apply Hur|done|by apply apart_sym, Hap1|done]. }
  exists k2, T2, a2. cbn [foldM]. rewrite E1. run_monad. split; [exact E2|]. split.
  - destruct (grown_trans _ _ _ _ _ _ _ _ _ _ _ _ _ _ G1 G2) as [? ? ? Hrest ?]. split; auto.
    intros y Hy. apply Hrest. unfold in_segments in *. rewrite Exists_cons in Hy. tauto.
  - constructor; [|done]. eapply segment_kept; [exact G2|apply Hs| |exact L1].
    intros x Hx. by apply apart_not_in_segments with (n := segment_pages s).
Qed.

Lemma segments_kept parsed T T' root k k' a a' b n segments datas :
  grown T T' root k k' a a' (in_region b n) n → user_range b n → Forall2 (segment_ok parsed) segments datas →
  Forall (λ s, apart b n (vaddr s) (segment_pages s)) segments →
  Forall2 (segment_loaded T root k a) segments datas → Forall2 (segment_loaded T' root k' a') segments datas.
Proof.
  intros G Hr Hok. induction Hok as [|s d segments datas Hs Hok IH]; intros Hap HL; [constructor|].
  apply Forall_cons in Hap as [Ha Hap]. apply Forall2_cons in HL as [L HL]. constructor; [|by apply IH].
  eapply segment_kept; [exact G|apply Hs| |exact L]. intros x Hx.
  apply apart_not_in with (n := segment_pages s); [apply Hs|done|by apply apart_sym|done].
Qed.

(** ** The stack *)
Lemma stack_range : user_range USER_STACK_START 4.
Proof. split; vm_compute; by split || congruence. Qed.

Lemma map_stack T root k a args :
  space T root k a → unmapped root k USER_STACK_START 4 → 16 < Z.of_nat (free_frames a) →
  Forall bytes_ok args → args_space args + 8 * (zlen args + 2) ≤ 4 * 4096 →
  let top := USER_STACK_START + 4 * 4096 in
  ∃ sp k1 k2 T' a' fr,
    map_pages root (mkPageRange (mkPage USER_STACK_START Size4KiB) 4) initial_flags k = Ret k1 ∧
    init_stack (VirtualMemory0 := paged_memory root) args top k1 = Ret (sp, k2) ∧
    grown T T' root k k2 a a' (in_region USER_STACK_START 4) 4 ∧ region T' root k2 a' USER_STACK_START 4 user_rw fr ∧
    argument_block (user_byte root k2) args sp top ∧ USER_STACK_START ≤ sp < top.
Proof.
  intros Hsp Hun Hfree Hargs Hspace top.
  destruct (map_pages_ok T root k a USER_STACK_START 4 Hsp stack_range Hun) as (k1 & T' & a' & fr & E1 & G1 & R1); [lia|].
  pose (VL := paged_laws T' root a' (in_use T a)). pose proof (zlen_nonneg args). pose proof (args_space_nonneg args).
  destruct (init_stack_ok (VirtualMemoryLaws0 := VL) USER_STACK_START (4 * 4096) ltac:(by vm_compute) ltac:(by vm_compute)
    args top k1) as (sp & k2 & E2 & Hsp2 & [_ W _] & Hab); [|lia|lia|done|].
  { split; [apply G1|]. destruct R1 as [R1 Hnew]. exists 4, user_rw, fr. split_and!; [done|done|apply initial_flags_ok|done]. }
  destruct (grown_write _ _ _ _ _ _ _ _ _ _ _ _ G1 R1 W) as [G2 [R2 _]].
  exists sp, k1, k2, T', a', fr. split_and!; [done|done|done|done|exact Hab|lia|lia].
Qed.

End space.

(** ** A small program *)
Module Example.
#[local] Existing Instances documented_x86_64 documented_x86_64_laws documented_bitflags documented_bitflags_laws.

Definition header : ProgramHeader := mkProgramHeader PT_LOAD 0 0x400000 0x400000 3 4096 5 4096.

(** A parsed file with one segment, of the bytes 1, 2 and 3. *)
#[local] Instance one_segment : ElfCrate := {|
  ElfBytes := unit;
  minimal_parse _ := Some tt;
  e_type _ := ET_EXEC;
  e_machine _ := EM_X86_64;
  e_entry _ := 0x400000;
  elf_segments _ := Some [header];
  segment_data _ _ := Some [1; 2; 3];
  from_bits all bits := if Z.land bits all =? bits then Some bits else None;
|}.

Definition segment : LoadableSegment := mkLoadableSegment header 0 0x400000 4096 5 4096.
Definition exe : Elf.ElfExecutableHeader := Elf.mkHeader tt 0x400000 [segment].
Definition params : ExecParams := mkExecParams (FilePath.mk true [[98; 105; 110]; [115; 104]]) [[45; 99]].

Lemma exe_parsed : Elf.parse [] = Ret (Ok exe).
Proof. vm_compute. reflexivity. Qed.

Lemma boot_unmapped base n : unmapped small_root boot_kmem base n.
Proof.
  intros x _. change (lookup (λ _, 0) Level4 small_root (base + x) = Ret TranslateUnmapped).
  rewrite lookup_unfold. by rewrite target_not_present by apply not_present_zero.
Qed.


(** The rest of the last page is not cleared: it holds what the frame held before. *)
Definition dirty_kmem : kmem BitmapAllocator.t :=
  mkKmem (store_set (λ _, 0) (frame_addr 5) 0x0707070707070707)
    (Some (BitmapAllocator.mk [3; 0] None)) [] (Some small_root) None.

Lemma bss_not_cleared : ∃ k', load_segment small_root (Elf.parsed exe) segment dirty_kmem = Ret k' ∧
  holds (user_byte small_root k') 0x400000 [1; 2; 3; 7; 7; 7; 7; 7].
Proof.
  assert (E : match load_segment small_root (Elf.parsed exe) segment dirty_kmem with
              | Ret k' => Some (user_byte small_root k' <$> [0x400000; 0x400001; 0x400002; 0x400003; 0x400004; 0x400005; 0x400006; 0x400007])
              | _ => None end = Some [1; 2; 3; 7; 7; 7; 7; 7]) by (vm_compute; reflexivity).
  destruct (load_segment small_root (Elf.parsed exe) segment dirty_kmem) as [k'| |]; [|discriminate E..]. exists k'. split; [done|].
  injection E as E0 E1 E2 E3 E4 E5 E6 E7. intros i b Hi. do 8 (destruct i as [|i]; [by injection Hi as <-|]). discriminate Hi.
Qed.
End Example.
