(* ===== verification/VirtioInit.v ===== *)
(** * Setting up virtio devices ([kernel/src/virtio/{config,features,device,rng}.rs])

    A virtio device is found on the PCI bus; its vendor capabilities say where its
    configuration registers are.  The driver resets it, negotiates the features, gives
    it its queues and starts it, and connects the interrupts of a queue to a handler. *)
From S2P Require Import Prelude AllocSpec External Addr PhysMem PageTable Mapping Registers Sched Interrupts Pci VirtQueue.
#[local] Open Scope Z_scope.

(** ** [config.rs] *)
Record VirtIONotifyConfig : Type := mkNotify { config_addr : Z; notify_off_multiplier : Z }.

Record VirtIODeviceConfig : Type := mkVirtio {
  pci_config : PCIDeviceConfig;
  pci_type0_config : PCIDeviceConfigType0;
  common_virtio_config : Z;
  isr : Z;
  notify_config : VirtIONotifyConfig;
  device_config_phys_addr : Z;
}.

Inductive VirtIOPCIConfigType : Type := CfgCommon | CfgNotify | CfgISR | CfgDevice | CfgPCI | CfgSharedMemory | CfgVendor.
#[export] Instance VirtIOPCIConfigType_eq_dec : EqDecision VirtIOPCIConfigType.
Proof. solve_decision. Defined.
Definition from_cfg_type (cfg_type : Z) : option VirtIOPCIConfigType :=
  match cfg_type with
  | 1 => Some CfgCommon | 2 => Some CfgNotify | 3 => Some CfgISR | 4 => Some CfgDevice | 5 => Some CfgPCI
  | 8 => Some CfgSharedMemory | 9 => Some CfgVendor | _ => None
  end.

Inductive VirtIOConfig : Type :=
| Common (registers : Z) | Notify (c : VirtIONotifyConfig) | ISR (registers : Z) | Device (address : Z)
| PCI | SharedMemory | Vendor.

Definition VIRTIO_CAPABILITY_HEADER_SIZE : Z := 16.

Definition VirtIOConfigStatus : bitfield :=
  [("acknowledge", 1); ("driver", 1); ("driver_ok", 1); ("features_ok", 1); ("__reserved", 1); ("__reserved2", 1);
   ("device_needs_reset", 1); ("failed", 1)]%string.

(** What the scan of the capabilities has found so far. *)
Record found : Type := mkFound {
  found_common : option Z; found_isr : option Z; found_notify : option VirtIONotifyConfig; found_device : option Z;
}.

Definition get_or_insert {A} (o : option A) (a : A) : option A := match o with Some x => Some x | None => Some a end.

Module VirtIODeviceConfig.
Section config.
Context {x86 : X86_64} {D K : Type} `{!Bus D, !DeviceMapping K} {bc : BitfieldCrate}.
Implicit Types (registers : Z) (d : D) (k : K).

(** [VirtIOPCICapabilityHeader]: the address of its registers, if it is one *)
Definition from_pci_capability (header : PCIDeviceCapabilityHeader) d : outcome (option Z * D) :=
  '(c, d) ← Header.capability header d;
  match c with
  | VendorSpecific _ => mret (Some (header_registers header), d)
  | _ => mret (None, d)
  end.

Definition config_type registers d : outcome (VirtIOPCIConfigType * D) :=
  '(cfg_type, d) ← read_at_reg 1 registers 0x03 d;
  t ← expect (from_cfg_type cfg_type);
  mret (t, d).

Definition compute_and_map_config_address (body : PCIDeviceConfigType0) registers d k : outcome (Z * D * K) :=
  '(bar_idx, d) ← read_at_reg 1 registers 0x04 d;
  '(physical_offset, d) ← read_at_reg 4 registers 0x08 d;
  '(region_size, d) ← read_at_reg 1 registers 0x02 d;
  bar_region_physical_address body bar_idx physical_offset region_size d k.

Definition config (body : PCIDeviceConfigType0) registers d k : outcome (VirtIOConfig * D * K) :=
  '(t, d) ← config_type registers d;
  match t with
  | CfgCommon => '(a, d, k) ← compute_and_map_config_address body registers d k; mret (Common a, d, k)
  | CfgNotify =>
      '(a, d, k) ← compute_and_map_config_address body registers d k;
      notify_off_ptr ← KernPhysAddr.add registers VIRTIO_CAPABILITY_HEADER_SIZE;
      '(m, d) ← RegisterRW.read 4 notify_off_ptr d;
      mret (Notify (mkNotify a m), d, k)
  | CfgISR => '(a, d, k) ← compute_and_map_config_address body registers d k; mret (ISR a, d, k)
  | CfgDevice => '(a, d, k) ← compute_and_map_config_address body registers d k; mret (Device a, d, k)
  | CfgPCI => mret (PCI, d, k)
  | CfgSharedMemory => mret (SharedMemory, d, k)
  | CfgVendor => mret (Vendor, d, k)
  end.

(** The body of the loop over the capabilities *)
Definition scan_capability (body : PCIDeviceConfigType0) (header : PCIDeviceCapabilityHeader) (s : found * K) d
  : outcome (flow (found * K) Empty_set * D) :=
  let '(f, k) := s in
  '(c, d) ← from_pci_capability header d;
  match c with
  | None => mret (Next (f, k), d)
  | Some registers =>
      '(t, d) ← config_type registers d;
      match t with
      | CfgPCI => mret (Next (f, k), d)
      | _ =>
          '(cfg, d, k) ← config body registers d k;
          let f := match cfg with
                   | Common a => mkFound (get_or_insert (found_common f) a) (found_isr f) (found_notify f) (found_device f)
                   | Notify n => mkFound (found_common f) (found_isr f) (get_or_insert (found_notify f) n) (found_device f)
                   | ISR a => mkFound (found_common f) (get_or_insert (found_isr f) a) (found_notify f) (found_device f)
                   | Device a => mkFound (found_common f) (found_isr f) (found_notify f) (get_or_insert (found_device f) a)
                   | PCI | SharedMemory | Vendor => f
                   end in
          mret (Next (f, k), d)
      end
  end.

Definition from_pci_config (fuel : nat) (pci_config : PCIDeviceConfig) d k : outcome (option VirtIODeviceConfig * D * K) :=
  '(vendor_id, d) ← read_at_reg 2 (device_id pci_config) 0x00 d;
  if negb (vendor_id =? 0x1af4) then mret (None, d, k)
  else
    '(t, d) ← Pci.config_type pci_config d;
    match t with
    | Err _ => Panic PanicExpect
    | Ok TPCIToPCIBridge => Panic PanicExplicit
    | Ok (TGeneralDevice body) =>
        '(caps, d) ← iter_capabilities pci_config d;
        '(r, d) ← Header.for_capabilities fuel (scan_capability body) caps (mkFound None None None None, k) d;
        match r with
        | Stop e => Empty_set_rect _ e
        | Next (f, k) =>
            common ← expect (found_common f);
            isr ← expect (found_isr f);
            notify ← expect (found_notify f);
            device ← expect (found_device f);
            mret (Some (mkVirtio pci_config body common isr notify device), d, k)
        end
    end.

(** [config] is the address of the common configuration registers. *)
Definition get_device_features (config : Z) d : outcome (Z * D) :=
  foldM (λ i '(features, d),
    d ← write_at_reg 4 config 0x00 i d;
    '(word, d) ← read_at_reg 4 config 0x04 d;
    mret (Z.lor features (Z.shiftl word (i * 32)), d)) (range 0 4) (0, d).

Definition set_driver_features (config bits : Z) d : outcome D :=
  foldM (λ i d,
    d ← write_at_reg 4 config 0x08 i d;
    write_at_reg 4 config 0x0C (wrap 32 (Z.shiftr bits (i * 32))) d) (range 0 4) d.

Definition queue_notify_address (self : VirtIONotifyConfig) (queue_notify_offset : Z) : outcome Z :=
  offset ← umul 64 queue_notify_offset (notify_off_multiplier self);
  KernPhysAddr.add (config_addr self) offset.

Definition notify_device (self : VirtIONotifyConfig) (queue_notify_offset queue_index : Z) d : outcome D :=
  a ← queue_notify_address self queue_notify_offset;
  RegisterRW.write 2 a queue_index d.
End config.
End VirtIODeviceConfig.

(** ** [features.rs] *)
Definition EVENT_IDX : Z := Z.shiftl 1 29.
Definition NOTIFICATION_DATA : Z := Z.shiftl 1 38.
Definition NOTIF_CONFIG_DATA : Z := Z.shiftl 1 39.

(** ** [device.rs] *)
Module VirtIOInitializedDevice.
Section device.
Context {x86 : X86_64} {bf : Bitflags} {D : Type} `{!Bus D} {bc : BitfieldCrate} {A : Type} {CA : ContiguousAllocator A}.
Implicit Types (d : D) (st : store * option A).

Definition physical_address (buffer : PageRange) : outcome Z := KernPhysAddr.to_phys_addr (start_addr (start buffer)).

Definition allocated {T} (r : result T AllocError) : outcome T := match r with Ok t => mret t | Err _ => Panic PanicExpect end.

(** The body of the loop over the queues *)
Definition setup_queue (config i : Z) d st : outcome (VirtQueue.t * D * (store * option A)) :=
  d ← write_at_reg 2 config 0x16 i d;
  '(queue_size, d) ← read_at_reg 2 config 0x18 d;
  _ ← assert_ (0 <? queue_size);
  '(r, st) ← VirtQueueDescriptorTable.allocate queue_size st;
  descriptors ← allocated r;
  a ← physical_address (VirtQueueDescriptorTable.buffer descriptors);
  d ← write_at_reg 8 config 0x20 a d;
  '(r, st) ← VirtQueueAvailRing.allocate queue_size st;
  avail_ring ← allocated r;
  a ← physical_address (VirtQueueAvailRing.buffer avail_ring);
  d ← write_at_reg 8 config 0x28 a d;
  '(r, st) ← VirtQueueUsedRing.allocate queue_size st;
  used_ring ← allocated r;
  a ← physical_address (VirtQueueUsedRing.buffer used_ring);
  d ← write_at_reg 8 config 0x30 a d;
  d ← write_at_reg 2 config 0x1C 1 d;
  '(notify_off, d) ← read_at_reg 2 config 0x1E d;
  mret (VirtQueue.new i notify_off descriptors avail_ring used_ring, d, st).

Definition setup_queues (config num_queues : Z) d st : outcome (list VirtQueue.t * D * (store * option A)) :=
  foldM (λ i '(virtqueues, d, st),
    '(q, d, st) ← setup_queue config i d st;
    mret (virtqueues ++ [q], d, st)) (range 0 num_queues) ([], d, st).

(** The features that the device offers without those the driver does not use *)
Definition negotiate (negotiate_device_bits : Z → Z) (features : Z) : Z :=
  let bits := flags_remove features EVENT_IDX in
  let bits := flags_remove bits NOTIFICATION_DATA in
  let bits := flags_remove bits NOTIF_CONFIG_DATA in
  negotiate_device_bits bits.

Definition new (config : Z) (negotiate_device_bits : Z → Z) (max_virtqueues : Z) d st
  : outcome (Z * list VirtQueue.t * D * (store * option A)) :=
  let status := 0 in
  d ← write_at_reg 1 config 0x14 status d;
  status ← with_bool VirtIOConfigStatus "acknowledge" true status;
  d ← write_at_reg 1 config 0x14 status d;
  status ← with_bool VirtIOConfigStatus "driver" true status;
  d ← write_at_reg 1 config 0x14 status d;
  '(features, d) ← VirtIODeviceConfig.get_device_features config d;
  let features := negotiate negotiate_device_bits features in
  d ← VirtIODeviceConfig.set_driver_features config features d;
  status ← with_bool VirtIOConfigStatus "features_ok" true status;
  d ← write_at_reg 1 config 0x14 status d;
  '(status, d) ← read_at_reg 1 config 0x14 d;
  _ ← assert_ (get_bool VirtIOConfigStatus "features_ok" status);
  '(num_queues, d) ← read_at_reg 2 config 0x12 d;
  _ ← assert_ (0 <? num_queues);
  let num_queues := Z.min num_queues max_virtqueues in
  '(virtqueues, d, st) ← setup_queues config num_queues d st;
  status ← with_bool VirtIOConfigStatus "driver_ok" true status;
  d ← write_at_reg 1 config 0x14 status d;
  mret (features, virtqueues, d, st).
End device.

Section msix.
Context {x86 : X86_64} {R D K : Type} `{!Bus D, !DeviceMapping K} {bc : BitfieldCrate}.

Definition install_virtqueue_msix_handler (fuel : nat) (self : VirtIODeviceConfig) (virtqueue_index msix_table_index processor_id
    handler_id : Z) (h : @Interrupts.handler R D) (t : Interrupts.table) (d : D) (k : K) : outcome (Interrupts.table * D * K) :=
  let common_config := common_virtio_config self in
  d ← write_at_reg 2 common_config 0x16 virtqueue_index d;
  d ← write_at_reg 2 common_config 0x1A msix_table_index d;
  '(v, d) ← read_at_reg 2 common_config 0x1A d;
  _ ← assert_ (v =? msix_table_index);
  '(msix, d, k) ← msix_config fuel (pci_type0_config self) d k;
  msix ← expect msix;
  '(interrupt_vector, t) ← Interrupts.install_interrupt_next_vector handler_id h t;
  table_entry ← msix_entry (msix_table msix) msix_table_index;
  d ← set_interrupt_vector table_entry processor_id interrupt_vector d;
  d ← msix_enable msix d;
  mret (t, d, k).
End msix.
End VirtIOInitializedDevice.
