(* ===== verification/VirtioInitThms.v ===== *)
(** * Setting up virtio devices, proved

    [vdev] is the common configuration structure of a virtio device as the standard
    describes it; [VirtioDevice] says that the registers behave like it.  The driver
    negotiates exactly the features it means to, gives the device the queues it keeps
    for itself, and only then sets DRIVER_OK. *)
From S2P Require Import Prelude AllocSpec BitmapAlloc External Addr PhysMem PageTable Mapping Registers Tick Pci PciThms VirtQueue VirtQueueThms VirtioBlockThms VirtioInit.
#[local] Open Scope Z_scope.

(** ** The device *)
Record vqueue : Type := mkVqueue {
  vq_size : Z; vq_notify_off : Z; vq_desc : Z; vq_driver : Z; vq_device : Z; vq_enable : Z; vq_msix : Z;
}.

Record vdev : Type := mkVdev {
  v_offered : Z;        (* the features the device offers *)
  v_status : Z;
  v_offered_select : Z;
  v_accepted : Z;       (* the features the driver wrote *)
  v_accepted_select : Z;
  v_queue_select : Z;
  v_queues : list vqueue;
}.

Definition on_queue (f : vqueue → vqueue) (v : vdev) : vdev :=
  mkVdev (v_offered v) (v_status v) (v_offered_select v) (v_accepted v) (v_accepted_select v) (v_queue_select v)
    (alter f (Z.to_nat (v_queue_select v)) (v_queues v)).

Definition reset_queue (q : vqueue) : vqueue := mkVqueue (vq_size q) (vq_notify_off q) 0 0 0 0 0xffff.

(** A write to a register; [accepts] is whether the device works with a set of features. *)
Definition vwrite (accepts : Z → bool) (off val : Z) (v : vdev) : vdev :=
  match off with
  | 0x00 => mkVdev (v_offered v) (v_status v) val (v_accepted v) (v_accepted_select v) (v_queue_select v) (v_queues v)
  | 0x08 => mkVdev (v_offered v) (v_status v) (v_offered_select v) (v_accepted v) val (v_queue_select v) (v_queues v)
  | 0x0C => mkVdev (v_offered v) (v_status v) (v_offered_select v)
              (if v_accepted_select v <? 4 then replace_bits (v_accepted_select v * 32) 32 (v_accepted v) val else v_accepted v)
              (v_accepted_select v) (v_queue_select v) (v_queues v)
  | 0x14 =>
      if val =? 0 then mkVdev (v_offered v) 0 0 0 0 0 (reset_queue <$> v_queues v)
      else mkVdev (v_offered v) (if Z.testbit val 3 && negb (accepts (v_accepted v)) then Z.clearbit val 3 else val)
             (v_offered_select v) (v_accepted v) (v_accepted_select v) (v_queue_select v) (v_queues v)
  | 0x16 => mkVdev (v_offered v) (v_status v) (v_offered_select v) (v_accepted v) (v_accepted_select v) val (v_queues v)
  | 0x1A => on_queue (λ q, mkVqueue (vq_size q) (vq_notify_off q) (vq_desc q) (vq_driver q) (vq_device q) (vq_enable q) val) v
  | 0x1C => on_queue (λ q, mkVqueue (vq_size q) (vq_notify_off q) (vq_desc q) (vq_driver q) (vq_device q) val (vq_msix q)) v
  | 0x20 => on_queue (λ q, mkVqueue (vq_size q) (vq_notify_off q) val (vq_driver q) (vq_device q) (vq_enable q) (vq_msix q)) v
  | 0x28 => on_queue (λ q, mkVqueue (vq_size q) (vq_notify_off q) (vq_desc q) val (vq_device q) (vq_enable q) (vq_msix q)) v
  | 0x30 => on_queue (λ q, mkVqueue (vq_size q) (vq_notify_off q) (vq_desc q) (vq_driver q) val (vq_enable q) (vq_msix q)) v
  | _ => v
  end.

Definition vread (off : Z) (v : vdev) : Z :=
  let q f := match v_queues v !! Z.to_nat (v_queue_select v) with Some q => f q | None => 0 end in
  match off with
  | 0x04 => Z.land (Z.shiftr (v_offered v) (v_offered_select v * 32)) (Z.ones 32)
  | 0x12 => zlen (v_queues v)
  | 0x14 => v_status v
  | 0x18 => q vq_size
  | 0x1A => q vq_msix
  | 0x1E => q vq_notify_off
  | _ => 0
  end.

Class VirtioDevice (D : Type) `{!Bus D} (common : Z) : Type := { v_view : D → vdev; v_accepts : Z → bool }.

Class VirtioDeviceLaws (D : Type) `{VirtioDevice D common} : Prop := {
  virtio_write bytes off val d :
    (off, bytes) ∈ [(0x00, 4); (0x08, 4); (0x0C, 4); (0x14, 1); (0x16, 2); (0x1A, 2); (0x1C, 2); (0x20, 8); (0x28, 8); (0x30, 8)] →
    v_view (bus_write bytes (common + off) val d) = vwrite v_accepts off val (v_view d);
  virtio_read bytes off d : (off, bytes) ∈ [(0x04, 4); (0x12, 2); (0x14, 1); (0x18, 2); (0x1A, 2); (0x1E, 2)] →
    bus_read bytes (common + off) d = (vread off (v_view d), d);
}.

(** ** Features *)
Lemma words_join f : in_width 128 f →
  foldl (λ acc i, Z.lor acc (Z.shiftl (Z.land (Z.shiftr f (i * 32)) (Z.ones 32)) (i * 32))) 0 [0; 1; 2; 3] = f.
Proof.
  intros Hf. cbn [foldl]. apply Z.bits_inj'. intros i Hi. rewrite !Z.lor_spec, Z.bits_0, !Z.shiftl_spec by done. cbn [orb].
  assert (Hw : ∀ j, 0 ≤ j → Z.testbit (Z.land (Z.shiftr f (j * 32)) (Z.ones 32)) (i - j * 32)
    = (j * 32 <=? i) && (i <? j * 32 + 32) && Z.testbit f i).
  { intros j Hj. destruct (Z.leb_spec (j * 32) i); [|by rewrite Z.testbit_neg_r by lia].
    rewrite testbit_field by lia. replace (i - j * 32 + j * 32) with i by lia. cbn [andb].
    f_equal. lia. }
  rewrite !Hw by lia. destruct (Z.lt_ge_cases i 128); [|rewrite (testbit_high 128 f) by (done || lia); by rewrite !andb_false_r].
  destruct (Z.testbit f i); [|by rewrite !andb_false_r]. rewrite !andb_true_r. lia.
Qed.

Lemma words_split bits acc : in_width 128 bits → in_width 128 acc →
  foldl (λ acc i, replace_bits (i * 32) 32 acc (wrap 32 (Z.shiftr bits (i * 32)))) acc [0; 1; 2; 3] = bits.
Proof.
  intros Hb Ha. cbn [foldl]. apply Z.bits_inj'. intros i Hi.
  assert (Hw : ∀ j, 0 ≤ wrap 32 (Z.shiftr bits (j * 32)) < 2 ^ 32) by (intros j; apply Z.mod_pos_bound; lia).
  rewrite !testbit_replace by (done || lia).
  assert (Hj : ∀ j, 0 ≤ j → (j * 32 <=? i) && (i <? j * 32 + 32) = true →
    Z.testbit (wrap 32 (Z.shiftr bits (j * 32))) (i - j * 32) = Z.testbit bits i).
  { intros j Hj Hr. unfold wrap. rewrite Z.mod_pow2_bits_low, Z.shiftr_spec by lia. f_equal. lia. }
  destruct ((3 * 32 <=? i) && _) eqn:E3; [by apply Hj|]. destruct ((2 * 32 <=? i) && _) eqn:E2; [by apply Hj|].
  destruct ((1 * 32 <=? i) && _) eqn:E1; [by apply Hj|]. destruct ((0 * 32 <=? i) && _) eqn:E0; [by apply Hj|].
  rewrite !(testbit_high 128) by (done || lia). done.
Qed.

(** ** Memory for the queues *)
Section buffers.
Context {x86 : X86_64} {x86_laws : X86_64Laws} {A : Type} {CA : ContiguousAllocator A} {CAL : ContiguousAllocatorLaws A}.
Implicit Types (a : A) (m : store).

(** Frames in use stay in use. *)
Definition grows a a' : Prop :=
  ca_capacity a' = ca_capacity a ∧ ∀ f, 0 ≤ f → ca_used a f = true → ca_used a' f = true.

Lemma grows_refl a : grows a a.
Proof. by split. Qed.
Lemma grows_trans a1 a2 a3 : grows a1 a2 → grows a2 a3 → grows a1 a3.
Proof. intros [C1 H1] [C2 H2]. split; [congruence|]. auto. Qed.

(** No [k] frames in a row are left, with [k] at most 128. *)
Definition exhausted a : Prop := ∃ a' k, frames_ok a' ∧ grows a a' ∧ 0 < k ≤ 128 ∧ first_fit (ca_used a') k None.

Lemma exhausted_grows a a' : grows a a' → exhausted a' → exhausted a.
Proof. intros Hg (a1 & k & H1 & H2 & H3). exists a1, k. split; [done|]. split; [by eapply grows_trans|done]. Qed.

(** A buffer of [n] bytes: its first frame. *)
Definition buffer_at (f n : Z) : PageRange := mkPageRange (frame_page f) (div_ceil n PAGE_SIZE).

Lemma zeroed_ok n m a : frames_ok a → 0 < n ≤ 128 * PAGE_SIZE →
  (∃ f m' a', PhysicalBuffer.allocate_zeroed n (m, Some a) = Ret (Ok (buffer_at f n), (m', Some a')) ∧
     frames_ok a' ∧ grows a a' ∧ 0 < f ∧ f + div_ceil n PAGE_SIZE ≤ ca_capacity a ∧ n ≤ PAGE_SIZE * div_ceil n PAGE_SIZE) ∨
  (∃ e a', PhysicalBuffer.allocate_zeroed n (m, Some a) = Ret (Err e, (m, Some a')) ∧ exhausted a).
Proof.
  intros Hok Hn. pose proof (div_ceil_spec n PAGE_SIZE ltac:(reflexivity)) as Hd.
  assert (Hk : 0 < div_ceil n PAGE_SIZE ≤ 128) by (unfold PAGE_SIZE in *; lia).
  unfold PhysicalBuffer.allocate_zeroed, udiv_ceil, PhysicalBuffer.allocate_zeroed_pages, with_lock.
  change (PAGE_SIZE =? 0) with false. cbn iota. cbn [expect]. run_monad.
  destruct (allocate_pages_ok a _ Hok (proj1 Hk)) as (r & a' & _ & Hok' & Hcap & Hff & Hr). destruct r as [f|].
  - destruct Hr as (-> & Hf & Hfc & Hmk). run_monad. rewrite (num_bytes_ok a f) by (done || lia). run_monad.
    left. exists f, (store_zero m (frame_addr f) (div_ceil n PAGE_SIZE * 4096)), a'. split_and!; try done; [|unfold PAGE_SIZE in *; lia].
    split; [done|]. intros p Hp Hu. rewrite (Hmk p Hp), Hu. done.
  - destruct Hr as [-> Hr]. run_monad. right. do 2 eexists. split; [done|]. exists a, (div_ceil n PAGE_SIZE).
    split_and!; try done; lia.
Qed.

Lemma buffer_phys a f n : frames_ok a → 0 < n → 0 < f → f + div_ceil n PAGE_SIZE ≤ ca_capacity a →
  VirtIOInitializedDevice.physical_address (buffer_at f n) = Ret (PAGE_SIZE * f).
Proof.
  intros Hok Hn Hf Hc. pose proof (div_ceil_nonneg n PAGE_SIZE ltac:(done) ltac:(lia)).
  destruct (in_buffer a f (div_ceil n PAGE_SIZE) 0) as (_ & E & _); [done|lia|done|unfold PAGE_SIZE in *; lia|].
  rewrite !Z.add_0_r in E. exact E.
Qed.

Lemma queue_size_max N : queue_size_ok N → N ≤ 2 ^ 15.
Proof. intros (k & Hk & ->). apply Z.pow_le_mono_r; lia. Qed.

(** The three parts of a queue. *)
Lemma descriptors_ok N m a : queue_size_ok N → frames_ok a →
  (∃ f m' a', VirtQueueDescriptorTable.allocate N (m, Some a)
      = Ret (Ok (VirtQueueDescriptorTable.mk (buffer_at f (16 * N)) 0 (VirtQueueDescriptorTable.zeroed N)), (m', Some a')) ∧
     frames_ok a' ∧ grows a a' ∧ VirtIOInitializedDevice.physical_address (buffer_at f (16 * N)) = Ret (PAGE_SIZE * f)) ∨
  (∃ e st', VirtQueueDescriptorTable.allocate N (m, Some a) = Ret (Err e, st') ∧ exhausted a).
Proof.
  intros HN Hok. destruct (queue_size_bounds N HN) as (Hb & Hp & _). assert (N ≤ 2 ^ 15) by (apply queue_size_max; done).
  unfold VirtQueueDescriptorTable.allocate, VirtQueueDescriptorTable.SIZE_OF_DESCRIPTOR. rewrite Hp. run_monad.
  rewrite !(umul_ok 64) by lia. run_monad. rewrite Z.eqb_refl. run_monad.
  destruct (zeroed_ok (16 * N) m a Hok) as [(f & m' & a' & E & Hok' & Hg & Hf & Hc & _)|(e & a' & E & Hex)];
    [unfold PAGE_SIZE; lia|left|right]; rewrite E; run_monad.
  - exists f, m', a'. split_and!; try done. apply (buffer_phys a); (done || lia).
  - by do 2 eexists.
Qed.

Lemma avail_ring_ok N m a : queue_size_ok N → frames_ok a →
  (∃ f m' a', VirtQueueAvailRing.allocate N (m, Some a)
      = Ret (Ok (VirtQueueAvailRing.mk (buffer_at f (6 + 2 * N)) 0 (replicate (Z.to_nat N) 0)), (m', Some a')) ∧
     frames_ok a' ∧ grows a a' ∧ VirtIOInitializedDevice.physical_address (buffer_at f (6 + 2 * N)) = Ret (PAGE_SIZE * f)) ∨
  (∃ e st', VirtQueueAvailRing.allocate N (m, Some a) = Ret (Err e, st') ∧ exhausted a).
Proof.
  intros HN Hok. destruct (queue_size_bounds N HN) as (Hb & _ & _). pose proof (queue_size_max N HN).
  unfold VirtQueueAvailRing.allocate, VirtQueueAvailRing.layout. repeat (first [rewrite (uadd_ok 64) by lia|rewrite (umul_ok 64) by lia]; run_monad).
  match goal with |- context [assert_ (?x =? _)] => replace x with (6 + 2 * N) by lia end. rewrite Z.eqb_refl. run_monad.
  destruct (zeroed_ok (6 + 2 * N) m a Hok) as [(f & m' & a' & E & Hok' & Hg & Hf & Hc & Hs)|(e & a' & E & Hex)];
    [unfold PAGE_SIZE; lia|left|right]; rewrite E; run_monad.
  - cbn [start_addr start buffer_at frame_page]. assert (Hadd : ∀ off, 0 ≤ off ≤ 6 + 2 * N → KernPhysAddr.add (frame_addr f) off = Ret (frame_addr f + off)).
    { intros off Ho. apply (in_buffer a f (div_ceil (6 + 2 * N) PAGE_SIZE)); (done || lia). }
    rewrite !Hadd by lia. run_monad. exists f, m', a'. split_and!; try done. apply (buffer_phys a); (done || lia).
  - by do 2 eexists.
Qed.

Lemma used_ring_ok N m a : queue_size_ok N → frames_ok a →
  (∃ f m' a', VirtQueueUsedRing.allocate N (m, Some a)
      = Ret (Ok (VirtQueueUsedRing.mk (buffer_at f (6 + 8 * N)) 0 (replicate (Z.to_nat N) {| id := 0; used_len := 0 |})), (m', Some a')) ∧
     frames_ok a' ∧ grows a a' ∧ VirtIOInitializedDevice.physical_address (buffer_at f (6 + 8 * N)) = Ret (PAGE_SIZE * f)) ∨
  (∃ e st', VirtQueueUsedRing.allocate N (m, Some a) = Ret (Err e, st') ∧ exhausted a).
Proof.
  intros HN Hok. destruct (queue_size_bounds N HN) as (Hb & _ & _). pose proof (queue_size_max N HN).
  unfold VirtQueueUsedRing.allocate, VirtQueueUsedRing.layout. repeat (first [rewrite (uadd_ok 64) by lia|rewrite (umul_ok 64) by lia]; run_monad).
  match goal with |- context [assert_ (?x =? _)] => replace x with (6 + 8 * N) by lia end. rewrite Z.eqb_refl. run_monad.
  destruct (zeroed_ok (6 + 8 * N) m a Hok) as [(f & m' & a' & E & Hok' & Hg & Hf & Hc & Hs)|(e & a' & E & Hex)];
    [unfold PAGE_SIZE; lia|left|right]; rewrite E; run_monad.
  - cbn [start_addr start buffer_at frame_page]. assert (Hadd : ∀ off, 0 ≤ off ≤ 6 + 8 * N → KernPhysAddr.add (frame_addr f) off = Ret (frame_addr f + off)).
    { intros off Ho. apply (in_buffer a f (div_ceil (6 + 8 * N) PAGE_SIZE)); (done || lia). }
    rewrite !Hadd by lia. run_monad. exists f, m', a'. split_and!; try done. apply (buffer_phys a); (done || lia).
  - by do 2 eexists.
Qed.
End buffers.

(** ** The registers *)
Section setup.
Context {x86 : X86_64} {x86_laws : X86_64Laws} {bf : Bitflags} {bfl : BitflagsLaws} {bc : BitfieldCrate} {bcl : BitfieldCrateLaws}.
Context {A : Type} {CA : ContiguousAllocator A} {CAL : ContiguousAllocatorLaws A}.
Context {D : Type} {bus : Bus D} {common : Z} {vd : VirtioDevice D common} {vdl : VirtioDeviceLaws D}.
Context (Hcommon : register_at common 0x40).
Implicit Types (d : D) (v : vdev) (a : A) (m : store).
Import VirtIODeviceConfig VirtIOInitializedDevice.

Lemma common_reg off : 0 ≤ off ≤ 0x40 → register common off = Ret (common + off).
Proof.
  intros Ho. destruct Hcommon as [H1 H2]. apply register_ok; [unfold KERNEL_PHYSICAL_MAPPING_START, HIGHER_HALF_START in H1; lia|lia..].
Qed.

Lemma wr bytes off val d :
  (off, bytes) ∈ [(0x00, 4); (0x08, 4); (0x0C, 4); (0x14, 1); (0x16, 2); (0x1A, 2); (0x1C, 2); (0x20, 8); (0x28, 8); (0x30, 8)] →
  ∃ d', write_at_reg bytes common off val d = Ret d' ∧ v_view d' = vwrite v_accepts off val (v_view d).
Proof.
  intros Ho. unfold write_at_reg, RegisterRW.write. rewrite common_reg.
  - run_monad. eexists. split; [done|]. by apply virtio_write.
  - rewrite !elem_of_cons, elem_of_nil in Ho. naive_solver lia.
Qed.

Lemma rd bytes off d : (off, bytes) ∈ [(0x04, 4); (0x12, 2); (0x14, 1); (0x18, 2); (0x1A, 2); (0x1E, 2)] →
  read_at_reg bytes common off d = Ret (vread off (v_view d), d).
Proof.
  intros Ho. unfold read_at_reg, RegisterRW.read. rewrite common_reg.
  - run_monad. by rewrite virtio_read.
  - rewrite !elem_of_cons, elem_of_nil in Ho. naive_solver lia.
Qed.

Lemma range_4 : range 0 4 = [0; 1; 2; 3].
Proof. rewrite !range_cons by lia. by rewrite range_nil by lia. Qed.

Lemma get_features_ok d : in_width 128 (v_offered (v_view d)) →
  ∃ d', get_device_features common d = Ret (v_offered (v_view d), d') ∧
    v_view d' = vwrite v_accepts 0x00 3 (v_view d).
Proof.
  intros Hw. unfold get_device_features. rewrite range_4. cbn [foldM].
  destruct (wr 4 0x00 0 d) as (d0 & -> & V0); [set_solver|]. run_monad. rewrite rd by set_solver. run_monad.
  destruct (wr 4 0x00 1 d0) as (d1 & -> & V1); [set_solver|]. run_monad. rewrite rd by set_solver. run_monad.
  destruct (wr 4 0x00 2 d1) as (d2 & -> & V2); [set_solver|]. run_monad. rewrite rd by set_solver. run_monad.
  destruct (wr 4 0x00 3 d2) as (d3 & -> & V3); [set_solver|]. run_monad. rewrite rd by set_solver. run_monad.
  exists d3. rewrite V3, V2, V1, V0. split; [|done]. do 2 f_equal. by apply words_join.
Qed.

Lemma set_features_ok bits d : in_width 128 bits → in_width 128 (v_accepted (v_view d)) →
  ∃ d', set_driver_features common bits d = Ret d' ∧
    v_view d' = mkVdev (v_offered (v_view d)) (v_status (v_view d)) (v_offered_select (v_view d)) bits 3
      (v_queue_select (v_view d)) (v_queues (v_view d)).
Proof.
  intros Hb Ha. unfold set_driver_features. rewrite range_4. cbn [foldM].
  destruct (wr 4 0x08 0 d) as (d0 & -> & V0); [set_solver|]. run_monad. destruct (wr 4 0x0C (wrap 32 (Z.shiftr bits (0 * 32))) d0) as (e0 & -> & W0); [set_solver|]. run_monad.
  destruct (wr 4 0x08 1 e0) as (d1 & -> & V1); [set_solver|]. run_monad. destruct (wr 4 0x0C (wrap 32 (Z.shiftr bits (1 * 32))) d1) as (e1 & -> & W1); [set_solver|]. run_monad.
  destruct (wr 4 0x08 2 e1) as (d2 & -> & V2); [set_solver|]. run_monad. destruct (wr 4 0x0C (wrap 32 (Z.shiftr bits (2 * 32))) d2) as (e2 & -> & W2); [set_solver|]. run_monad.
  destruct (wr 4 0x08 3 e2) as (d3 & -> & V3); [set_solver|]. run_monad. destruct (wr 4 0x0C (wrap 32 (Z.shiftr bits (3 * 32))) d3) as (e3 & -> & W3); [set_solver|]. run_monad.
  exists e3. split; [done|]. rewrite W3, V3, W2, V2, W1, V1, W0, V0. cbn -[replace_bits wrap]. f_equal.
  exact (words_split bits _ Hb Ha).
Qed.

(** The device uses the memory of queue [q] as its queue [i], and it is enabled. *)
Record queue_ready (i : Z) (vq : vqueue) (q : VirtQueue.t) : Prop := {
  qr_enable : vq_enable vq = 1;
  qr_desc : physical_address (VirtQueueDescriptorTable.buffer (VirtQueue.descriptors q)) = Ret (vq_desc vq);
  qr_driver : physical_address (VirtQueueAvailRing.buffer (VirtQueue.avail_ring q)) = Ret (vq_driver vq);
  qr_device : physical_address (VirtQueueUsedRing.buffer (VirtQueue.used_ring q)) = Ret (vq_device vq);
  qr_size : queue_size_ok (vq_size vq);
  qr_fresh : ∃ b1 b2 b3, q = fresh_queue (vq_size vq) b1 b2 b3 i (vq_notify_off vq);
}.

(** What setting up the queues leaves alone. *)
Definition same_config v v' : Prop :=
  v_offered v' = v_offered v ∧ v_status v' = v_status v ∧ v_accepted v' = v_accepted v.

Lemma queue_writes v i q (a1 a2 a3 : Z) : v_queues v !! Z.to_nat i = Some q →
  let w := vwrite v_accepts in
  let v' := w 0x1C 1 (w 0x30 a3 (w 0x28 a2 (w 0x20 a1 (w 0x16 i v)))) in
  v_queues v' = <[Z.to_nat i := mkVqueue (vq_size q) (vq_notify_off q) a1 a2 a3 1 (vq_msix q)]> (v_queues v) ∧
  same_config v v' ∧ v_queue_select v' = i.
Proof.
  intros Hq w v'. split_and!; [|done..]. cbn. apply list_eq. intros j. destruct (decide (Z.to_nat i = j)) as [<-|].
  - rewrite list_lookup_insert_eq by (by eapply lookup_lt_Some). by rewrite !list_lookup_alter_eq, Hq.
  - by rewrite list_lookup_insert_ne, !list_lookup_alter_ne by done.
Qed.

Lemma setup_queue_ok i vq d m a :
  0 ≤ i → v_queues (v_view d) !! Z.to_nat i = Some vq → queue_size_ok (vq_size vq) → frames_ok a →
  (∃ q vq' d' m' a', setup_queue common i d (m, Some a) = Ret (q, d', (m', Some a')) ∧ queue_ready i vq' q ∧
     v_queues (v_view d') = <[Z.to_nat i := vq']> (v_queues (v_view d)) ∧ same_config (v_view d) (v_view d') ∧
     frames_ok a' ∧ grows a a') ∨
  (setup_queue common i d (m, Some a) = Panic PanicExpect ∧ exhausted a).
Proof.
  intros Hi Hq HN Hok. destruct (queue_size_bounds _ HN) as (Hb & _ & _). set (N := vq_size vq) in *. unfold setup_queue.
  destruct (wr 2 0x16 i d) as (d1 & -> & V1); [set_solver|]. run_monad. rewrite rd by set_solver. run_monad.
  assert (E1 : vread 0x18 (v_view d1) = N) by (rewrite V1; cbn; by rewrite Hq). rewrite E1.
  rewrite (proj2 (Z.ltb_lt 0 N)) by lia. change (assert_ true) with (Ret ()). run_monad.
  destruct (descriptors_ok N m a HN Hok) as [(f1 & m1 & a1 & EA1 & Hok1 & Hg1 & P1)|(e & st & EA1 & Hex)]; rewrite EA1; run_monad;
    [|right; split; [done|exact Hex]]. cbn [allocated]. run_monad. cbn [VirtQueueDescriptorTable.buffer]. rewrite P1. run_monad.
  destruct (wr 8 0x20 (PAGE_SIZE * f1) d1) as (d2 & -> & V2); [set_solver|]. run_monad.
  destruct (avail_ring_ok N m1 a1 HN Hok1) as [(f2 & m2 & a2 & EA2 & Hok2 & Hg2 & P2)|(e & st & EA2 & Hex)]; rewrite EA2; run_monad;
    [|right; split; [done|by eapply exhausted_grows]]. cbn [allocated]. run_monad. cbn [VirtQueueAvailRing.buffer]. rewrite P2. run_monad.
  destruct (wr 8 0x28 (PAGE_SIZE * f2) d2) as (d3 & -> & V3); [set_solver|]. run_monad.
  destruct (used_ring_ok N m2 a2 HN Hok2) as [(f3 & m3 & a3 & EA3 & Hok3 & Hg3 & P3)|(e & st & EA3 & Hex)]; rewrite EA3; run_monad;
    [|right; split; [done|eapply exhausted_grows; [exact Hg1|by eapply exhausted_grows]]]. cbn [allocated]. run_monad. cbn [VirtQueueUsedRing.buffer]. rewrite P3. run_monad.
  destruct (wr 8 0x30 (PAGE_SIZE * f3) d3) as (d4 & -> & V4); [set_solver|]. run_monad.
  destruct (wr 2 0x1C 1 d4) as (d5 & -> & V5); [set_solver|]. run_monad. rewrite rd by set_solver. run_monad.
  left. destruct (queue_writes (v_view d) i vq (PAGE_SIZE * f1) (PAGE_SIZE * f2) (PAGE_SIZE * f3) Hq) as (Q1 & Q2 & Q3).
  cbv zeta in Q1, Q2, Q3. rewrite <-V1, <-V2, <-V3, <-V4, <-V5 in Q1, Q2, Q3. do 2 eexists. exists d5, m3, a3. split; [done|].
  split; [|split; [exact Q1|split; [exact Q2|split; [done|eapply grows_trans; [exact Hg1|by eapply grows_trans]]]]].
  split; try done. cbn [vq_size vq_notify_off]. exists (buffer_at f1 (16 * N)), (buffer_at f2 (6 + 2 * N)), (buffer_at f3 (6 + 8 * N)).
  unfold fresh_queue. f_equal. unfold vread. rewrite Q1, Q3, list_lookup_insert_eq by (by eapply lookup_lt_Some). done.
Qed.

Definition all_ready (qs : list VirtQueue.t) v : Prop :=
  ∀ j q, qs !! j = Some q → ∃ vq, v_queues v !! j = Some vq ∧ queue_ready (Z.of_nat j) vq q.

Lemma all_ready_snoc qs q vq v v' : all_ready qs v → (length qs < length (v_queues v))%nat →
  v_queues v' = <[length qs := vq]> (v_queues v) → queue_ready (zlen qs) vq q → all_ready (qs ++ [q]) v'.
Proof.
  intros Hr Hl Hv Hq j q' Hj. apply lookup_app_Some in Hj as [Hj|[Hj1 Hj2]].
  - destruct (Hr j q' Hj) as (vq' & E & R'). exists vq'. pose proof (lookup_lt_Some _ _ _ Hj).
    by rewrite Hv, list_lookup_insert_ne by lia.
  - apply list_lookup_singleton_Some in Hj2 as [Hj2 <-]. assert (j = length qs) as -> by lia. exists vq.
    by rewrite Hv, list_lookup_insert_eq.
Qed.

Lemma setup_loop_ok n k : ∀ acc d m a, zlen acc + Z.of_nat k = n → n ≤ zlen (v_queues (v_view d)) →
  (∀ j vq, (length acc ≤ j)%nat → v_queues (v_view d) !! j = Some vq → queue_size_ok (vq_size vq)) →
  all_ready acc (v_view d) → frames_ok a →
  let run := foldM (λ i '(virtqueues, d, st), '(q, d, st) ← setup_queue common i d st; mret (virtqueues ++ [q], d, st))
    (range (zlen acc) n) (acc, d, (m, Some a)) in
  (∃ qs d' m' a', run = Ret (qs, d', (m', Some a')) ∧ zlen qs = n ∧ all_ready qs (v_view d') ∧
     same_config (v_view d) (v_view d') ∧ frames_ok a' ∧ grows a a') ∨
  (run = Panic PanicExpect ∧ exhausted a).
Proof.
  induction k as [|k IH]; intros acc d m a Hk Hn Hs Hr Hok run; subst run.
  { rewrite range_nil by lia. left. exists acc, d, m, a. split_and!; try done; lia. }
  rewrite range_cons by lia. cbn [foldM]. destruct (lookup_lt_is_Some_2 (v_queues (v_view d)) (length acc)) as [vq Hvq].
  { unfold zlen in *. lia. }
  assert (Hz : Z.to_nat (zlen acc) = length acc) by (unfold zlen; lia).
  destruct (setup_queue_ok (zlen acc) vq d m a) as [(q & vq' & d1 & m1 & a1 & E & Hq & Hv & Hc & Hok1 & Hg)|[E Hex]];
    [apply zlen_nonneg|by rewrite Hz|by apply (Hs (length acc))|done| |right; rewrite E; by run_monad].
  rewrite E. run_monad. rewrite Hz in Hv. replace (zlen acc + 1) with (zlen (acc ++ [q])) by (by rewrite zlen_app).
  destruct (IH (acc ++ [q]) d1 m1 a1) as [(qs & d' & m' & a' & E' & Hl & Hr' & Hc' & Hok' & Hg')|[E' Hex]].
  - rewrite zlen_app. change (zlen [q]) with 1. lia.
  - unfold zlen in *. by rewrite Hv, length_insert.
  - intros j vq0 Hj. rewrite length_app in Hj. cbn in Hj. rewrite Hv, list_lookup_insert_ne by lia. apply Hs. lia.
  - eapply all_ready_snoc; [exact Hr| |exact Hv|exact Hq]. by eapply lookup_lt_Some.
  - done.
  - left. exists qs, d', m', a'. split_and!; try done; [|by eapply grows_trans]. unfold same_config in *. intuition congruence.
  - right. split; [exact E'|by eapply exhausted_grows].
Qed.

Lemma status_values : with_bool VirtIOConfigStatus "acknowledge" true 0 = Ret 1 ∧
  with_bool VirtIOConfigStatus "driver" true 1 = Ret 3 ∧ with_bool VirtIOConfigStatus "features_ok" true 3 = Ret 11 ∧
  with_bool VirtIOConfigStatus "driver_ok" true 11 = Ret 15.
Proof. unfold with_bool. split_and!; by rewrite with_fits by reflexivity. Qed.

(** The features left of those offered: without EVENT_IDX, NOTIFICATION_DATA and
    NOTIF_CONFIG_DATA. *)
Lemma negotiate_bits features i : 0 ≤ i →
  Z.testbit (negotiate (λ x, x) features) i = Z.testbit features i && negb ((i =? 29) || (i =? 38) || (i =? 39)).
Proof.
  intros Hi. unfold negotiate. rewrite !flags_remove_ok, !Z.ldiff_spec. unfold EVENT_IDX, NOTIFICATION_DATA, NOTIF_CONFIG_DATA.
  rewrite !Z.shiftl_1_l, !Z.pow2_bits_eqb by lia. rewrite (Z.eqb_sym 29), (Z.eqb_sym 38), (Z.eqb_sym 39).
  by destruct (Z.testbit features i), (i =? 29), (i =? 38), (i =? 39).
Qed.

(** a virtio device is set up as the standard asks.  The features the driver accepts
    are those the device offers without the three the driver cannot use, as narrowed by
    the driver of the device; if the device does not work with them, the driver stops
    and DRIVER_OK is never set.  Otherwise the device ends with the status ACKNOWLEDGE,
    DRIVER, FEATURES_OK and DRIVER_OK, and each of its queues, up to the number the
    driver uses, is enabled with the physical addresses of the memory of the queue that
    the driver keeps, which are empty.  Only running out of contiguous memory stops it. *)
Theorem virtio_device_initialized (narrow : Z → Z) max_virtqueues d m a :
  let v := v_view d in
  let features := negotiate narrow (v_offered v) in
  in_width 128 (v_offered v) → in_width 128 features → 0 < zlen (v_queues v) → 0 ≤ max_virtqueues →
  (∀ vq, vq ∈ v_queues v → queue_size_ok (vq_size vq)) → frames_ok a →
  if v_accepts features then
    (∃ qs d' m' a', new common narrow max_virtqueues d (m, Some a) = Ret (features, qs, d', (m', Some a')) ∧
       v_status (v_view d') = 15 ∧ v_accepted (v_view d') = features ∧
       zlen qs = Z.min (zlen (v_queues v)) max_virtqueues ∧ all_ready qs (v_view d') ∧ frames_ok a' ∧ grows a a') ∨
    (new common narrow max_virtqueues d (m, Some a) = Panic PanicExpect ∧ exhausted a)
  else new common narrow max_virtqueues d (m, Some a) = Panic PanicAssert.
Proof.
  intros v features Hw Hwf Hn Hmax Hs Hok. destruct status_values as (S1 & S2 & S3 & S4). unfold new.
  destruct (wr 1 0x14 0 d) as (d1 & -> & V1); [set_solver|]. run_monad. rewrite S1. run_monad.
  destruct (wr 1 0x14 1 d1) as (d2 & -> & V2); [set_solver|]. run_monad. rewrite S2. run_monad.
  destruct (wr 1 0x14 3 d2) as (d3 & -> & V3); [set_solver|]. run_monad.
  rewrite V2, V1 in V3. change (vwrite v_accepts 20 0 (v_view d)) with (mkVdev (v_offered v) 0 0 0 0 0 (reset_queue <$> v_queues v)) in V3.
  cbn in V3. destruct (get_features_ok d3) as (d4 & -> & V4); [by rewrite V3|]. run_monad. rewrite V3. cbn [v_offered]. fold v. fold features.
  destruct (set_features_ok features d4) as (d5 & -> & V5); [done|rewrite V4, V3; done|]. run_monad. rewrite S3. run_monad.
  destruct (wr 1 0x14 11 d5) as (d6 & -> & V6); [set_solver|]. run_monad. 
  assert (W : v_view d6 = mkVdev (v_offered v) (if v_accepts features then 11 else 3) 3 features 3 0 (reset_queue <$> v_queues v)).
  { rewrite V6, V5, V4, V3. unfold vwrite. cbn [v_accepted]. by destruct (v_accepts features). }
  assert (Hz : zlen (reset_queue <$> v_queues v) = zlen (v_queues v)) by (unfold zlen; by rewrite length_fmap).
  rewrite rd by set_solver. run_monad. rewrite W. cbn [vread v_status]. rewrite (get_1 _ _ 3) by (done || lia).
  destruct (v_accepts features) eqn:Hacc; [|done]. change (Z.testbit 11 3) with true. change (assert_ true) with (Ret ()). run_monad.
  rewrite rd by set_solver. run_monad. rewrite W. cbn [vread v_queues]. rewrite Hz, (proj2 (Z.ltb_lt _ _) Hn).
  change (assert_ true) with (Ret ()). run_monad. unfold setup_queues.
  set (n := Z.min (zlen (v_queues v)) max_virtqueues).
  destruct (setup_loop_ok n (Z.to_nat n) [] d6 m a) as [(qs & d7 & m7 & a7 & E & Hl & Hr & Hc & Hok7 & Hg)|[E Hex]];
    [rewrite zlen_nil; unfold n; lia|rewrite W; cbn [v_queues]; rewrite Hz; unfold n; lia| |by intros j q ?|done|left|right].
  { intros j vq _. rewrite W. cbn [v_queues]. rewrite list_lookup_fmap, fmap_Some. intros (vq0 & Hj & ->). cbn.
    apply Hs. by eapply list_elem_of_lookup_2. }
  - change (zlen []) with 0 in E. rewrite E. run_monad. rewrite S4. run_monad.
    destruct (wr 1 0x14 15 d7) as (d8 & -> & V8); [set_solver|]. destruct Hc as (C1 & C2 & C3). rewrite W in C1, C2, C3.
    cbn in C1, C2, C3. exists qs, d8, m7, a7. rewrite V8. unfold vwrite. cbn [v_status v_accepted]. rewrite C3, Hacc. split_and!; try done.
  - change (zlen []) with 0 in E. rewrite E. split; [by run_monad|done].
Qed.
End setup.

(** ** A device

    It offers VERSION_1, EVENT_IDX and INDIRECT_DESC, insists on VERSION_1 and has two
    queues. *)
Module Example.
#[local] Existing Instances documented_x86_64 documented_x86_64_laws documented_bitflags documented_bitflags_laws.
#[local] Existing Instances documented_bitfield documented_bitfield_laws.

Definition common_at : Z := KERNEL_PHYSICAL_MAPPING_START + 0xfe000000.
Definition version_1 (features : Z) : bool := Z.testbit features 32.

#[local] Instance vdev_bus : Bus vdev := {|
  bus_read bytes a d := (vread (a - common_at) d, d);
  bus_write bytes a v d := vwrite version_1 (a - common_at) v d;
|}.
#[local] Instance vdev_device : VirtioDevice vdev common_at := {| v_view d := d; v_accepts := version_1 |}.
#[local] Instance vdev_laws : VirtioDeviceLaws vdev.
Proof.
  split; intros; cbn -[vwrite vread].
  - by replace (common_at + off - common_at) with off by lia.
  - by replace (common_at + off - common_at) with off by lia.
Qed.

Definition vdev0 : vdev :=
  mkVdev (2 ^ 32 + 2 ^ 29 + 2 ^ 28) 0 0 0 0 0 [mkVqueue 16 0 0 0 0 0 0xffff; mkVqueue 8 1 0 0 0 0 0xffff].

Lemma virtio_device_initialized_witness :
  ∃ qs d' m' a', VirtIOInitializedDevice.new common_at (λ x, x) 1 vdev0 (λ _, 0, Some (BitmapAllocator.mk [1] None))
      = Ret (2 ^ 32 + 2 ^ 28, qs, d', (m', Some a')) ∧
    v_status d' = 15 ∧ zlen qs = 1 ∧ all_ready qs d'.
Proof.
  pose proof (virtio_device_initialized (common := common_at) ltac:(unfold register_at, common_at, KERNEL_PHYSICAL_MAPPING_START,
    KERNEL_PHYSICAL_MAPPING_END, HIGHER_HALF_START; lia) (λ x, x) 1 vdev0 (λ _, 0) (BitmapAllocator.mk [1] None)) as H.
  cbv zeta in H. change (VirtIOInitializedDevice.negotiate (λ x, x) (v_offered (v_view vdev0))) with (2 ^ 32 + 2 ^ 28) in H.
  change (v_accepts (2 ^ 32 + 2 ^ 28)) with true in H. cbv iota in H.
  destruct H as [(qs & d' & m' & a' & E & Hst & _ & Hl & Hr & _)|[E _]].
  - vm_compute. split; [discriminate|reflexivity].
  - vm_compute. split; [discriminate|reflexivity].
  - vm_compute. reflexivity.
  - lia.
  - intros vq Hq. cbn in Hq. rewrite !elem_of_cons, elem_of_nil in Hq.
    destruct Hq as [->|[->|[]]]; [exists 4|exists 3]; (split; [lia|reflexivity]).
  - split; [|reflexivity|vm_compute; discriminate].
    split; [repeat constructor; simpl; lia|vm_compute; reflexivity|discriminate].
  - exists qs, d', m', a'. split; [exact E|]. split; [exact Hst|]. split; [exact Hl|exact Hr].
  - pose proof (f_equal is_ret E) as E'. vm_compute in E'. discriminate E'.
Defined.
End Example.
