(* ===== verification/VirtioRng.v ===== *)
(** * The entropy device ([kernel/src/virtio/rng.rs])

    A request for random bytes is one buffer that the device writes; the interrupt
    handler sends what the device wrote to the task that asked. *)
From S2P Require Import Prelude AllocSpec BitmapAlloc External Addr PhysMem Transmute Cells VirtQueue VirtQueueThms VirtioBlock VirtioBlockThms VirtioInitThms.
#[local] Open Scope Z_scope.

Record VirtIORNGRequest : Type := mkRngRequest { descriptor_buffer : PageRange; rng_sender : OnceSender }.

(** What the driver touches: the queue of the device, memory, the physical allocator,
    the cells of the channels, the tasks woken and the notifications sent. *)
Record rng_world (A : Type) : Type := mkRngWorld {
  VIRTIO_RNG : option (VirtQueueData.t VirtIORNGRequest);
  rng_bytes : store;
  rng_frames : option A;
  rng_cells : gmap Z (OnceCell.t (list Z));
  rng_next_cell : Z;
  rng_task : Z;
  rng_woken : list Z;
  rng_notified : list (Z * Z);
}.
Arguments mkRngWorld {A} _ _ _ _ _ _ _ _.
Arguments VIRTIO_RNG {A} _.
Arguments rng_bytes {A} _.
Arguments rng_frames {A} _.
Arguments rng_cells {A} _.
Arguments rng_next_cell {A} _.
Arguments rng_task {A} _.
Arguments rng_woken {A} _.
Arguments rng_notified {A} _.

Module VirtIORNG.
Section rng.
Context {x86 : X86_64} {A : Type} {CA : ContiguousAllocator A}.
Implicit Types (w : rng_world A).

Definition with_queue w (q : VirtQueueData.t VirtIORNGRequest) : rng_world A :=
  mkRngWorld (Some q) (rng_bytes w) (rng_frames w) (rng_cells w) (rng_next_cell w) (rng_task w) (rng_woken w) (rng_notified w).

Definition request_random_numbers (num_bytes : Z) w : outcome (OnceReceiver * rng_world A) :=
  q ← expect (VIRTIO_RNG w);
  _ ← assert_ (0 <? num_bytes);
  '(r, (m, lock)) ← PhysicalBuffer.allocate_zeroed num_bytes (rng_bytes w, rng_frames w);
  match r with
  | Err _ => Panic PanicExpect
  | Ok buffer =>
      addr ← KernPhysAddr.to_phys_addr (start_addr (start buffer));
      let desc := {| addr := addr; elem_len := num_bytes; flags := with_device_write true flags_new |} in
      let c := rng_next_cell w in
      let request := mkRngRequest buffer (mkSender c (rng_task w)) in
      q ← VirtQueueData.add_buffer q [desc] request;
      mret (mkReceiver c,
        mkRngWorld (Some q) m lock (<[c := OnceCell.new]> (rng_cells w)) (c + 1) (rng_task w) (rng_woken w)
          (rng_notified w ++ [(VirtQueue.notify_offset (VirtQueueData.queue q), VirtQueue.queue_index (VirtQueueData.queue q))]))
  end.

(** The closure of [virtio_rng_interrupt]; the request's buffer is dropped at its end. *)
Definition on_completion (table : VirtQueueDescriptorTable.t) (used_entry : VirtQueueUsedElem) (descriptor_chain : option Z)
    (request : option VirtIORNGRequest) w : outcome (rng_world A) :=
  match request with
  | None => mret w
  | Some request =>
      '(descriptor, chain) ← ChainIterator.next table descriptor_chain;
      descriptor ← expect descriptor;
      '(second, _) ← ChainIterator.next table chain;
      _ ← assert_ (match second with None => true | Some _ => false end);
      addr ← KernPhysAddr.from_phys_addr (addr descriptor);
      let buffer := mem_read (rng_bytes w) addr (used_len used_entry) in
      let s := rng_sender request in
      cell ← (match rng_cells w !! sender_cell s with Some x => Ret x | None => Panic Undefined end);
      cell ← OnceCell.set cell buffer;
      '(m, lock) ← PhysicalBuffer.drop (descriptor_buffer request) (rng_bytes w, rng_frames w);
      mret (mkRngWorld (VIRTIO_RNG w) m lock (<[sender_cell s := cell]> (rng_cells w)) (rng_next_cell w) (rng_task w)
              (rng_woken w ++ [receiver_task_id s]) (rng_notified w))
  end.

Definition virtio_rng_interrupt w : outcome (rng_world A) :=
  q ← expect (VIRTIO_RNG w);
  let table := VirtQueue.descriptors (VirtQueueData.queue q) in
  '(q, w) ← VirtQueueData.process_new_entries q (on_completion table) w;
  mret (with_queue w q).

(** The device: it takes the next request and writes random bytes into its buffer. *)
Definition fill (seen : Z) (random : list Z) w : outcome (rng_world A) :=
  q ← expect (VIRTIO_RNG w);
  let ring := VirtQueueAvailRing.ring (VirtQueue.avail_ring (VirtQueueData.queue q)) in
  head ← VolatileArrayRW.read ring (seen mod VolatileArrayRW.len ring);
  '(descriptor, _) ← ChainIterator.next (VirtQueue.descriptors (VirtQueueData.queue q)) (Some head);
  descriptor ← expect descriptor;
  q ← Device.consume q seen (zlen random);
  mret (mkRngWorld (Some q) (mem_write (rng_bytes w) (dma (addr descriptor)) random) (rng_frames w) (rng_cells w)
          (rng_next_cell w) (rng_task w) (rng_woken w) (rng_notified w)).
End rng.
End VirtIORNG.

(** ** A request and its answer *)
Section answer.
Context {x86 : X86_64} {x86_laws : X86_64Laws} {A : Type} {CA : ContiguousAllocator A} {CAL : ContiguousAllocatorLaws A}.
Context (N : Z) (HN : queue_size_ok N).
Import VirtIORNG.

Definition rng_desc (f n : Z) : ChainedVirtQueueDescriptorElem :=
  {| addr := PAGE_SIZE * f; elem_len := n; flags := with_device_write true flags_new |}.

Lemma rng_desc_plain f n : Forall plain [rng_desc f n].
Proof. repeat constructor. Qed.

Lemma request_ok q p s m a cells c task woken notified n :
  rep N q p s [] [] → frames_ok a → 0 < n → (∃ x, 0 ≤ x ∧ free_run (ca_used a) x (div_ceil n PAGE_SIZE)) →
  ∃ f m' a' q', request_random_numbers n (mkRngWorld (Some q) m (Some a) cells c task woken notified) =
      Ret (mkReceiver c, mkRngWorld (Some q') m' (Some a') (<[c := OnceCell.new]> cells) (c + 1) task woken
        (notified ++ [(VirtQueue.notify_offset (VirtQueueData.queue q'), VirtQueue.queue_index (VirtQueueData.queue q'))])) ∧
    rep N q' p s [] [([rng_desc f n], mkRngRequest (buffer_at f n) (mkSender c task))] ∧
    frames_ok a' ∧ ca_capacity a' = ca_capacity a ∧ 0 < f ∧ f + div_ceil n PAGE_SIZE ≤ ca_capacity a ∧
    free_run (ca_used a) f (div_ceil n PAGE_SIZE) ∧ marks_block (ca_used a) (ca_used a') f (div_ceil n PAGE_SIZE).
Proof.
  intros Hrep Hok Hn (x0 & Hx0 & Hrun). pose proof (div_ceil_spec n PAGE_SIZE ltac:(done)) as Hd.
  assert (Hk : 0 < div_ceil n PAGE_SIZE) by (unfold PAGE_SIZE in *; lia).
  unfold request_random_numbers. cbn [VIRTIO_RNG expect rng_bytes rng_frames rng_next_cell rng_task]. run_monad.
  rewrite (proj2 (Z.ltb_lt 0 n)) by done. change (assert_ true) with (Ret ()). run_monad.
  unfold PhysicalBuffer.allocate_zeroed, udiv_ceil, PhysicalBuffer.allocate_zeroed_pages, with_lock.
  change (PAGE_SIZE =? 0) with false. cbn iota. cbn [expect]. run_monad.
  destruct (allocate_pages_ok a _ Hok Hk) as (r & a' & _ & Hok' & Hcap & Hff & Hr).
  destruct r as [f|]; [|by destruct (Hff x0 Hx0 Hrun)]. destruct Hr as (-> & Hf & Hfc & Hmk). run_monad.
  rewrite (num_bytes_ok a f) by (done || lia). run_monad. fold (buffer_at f n).
  pose proof (buffer_phys a f n Hok Hn Hf Hfc) as Hp. unfold VirtioInit.VirtIOInitializedDevice.physical_address in Hp. rewrite Hp. run_monad.
  destruct (queue_size_bounds N HN) as (HNb & _).
  destruct (add_buffer_ok N HN q p s [] [] [rng_desc f n] (mkRngRequest (buffer_at f n) (mkSender c task)) Hrep)
    as (q' & E & Hrep'); [done|apply rng_desc_plain|change (0 + 1 ≤ N); lia|].
  fold (rng_desc f n). rewrite E. run_monad. exists f. do 2 eexists. exists q'. split; [done|]. destruct Hff as (_ & Hfr & _).
  split_and!; done.
Qed.

Lemma single_next {T} (q : VirtQueueData.t T) p s u d r : rep N q p s u [([d], r)] → plain d →
  ChainIterator.next (VirtQueue.descriptors (VirtQueueData.queue q)) (Some (s mod N)) = Ret (Some d, None).
Proof.
  intros Hrep Hd. destruct (rep_requests _ _ _ _ _ _ Hrep) as [(_ & _ & Hc & _) _].
  exact (chain_next N _ s d [] HN (rep_table _ _ _ _ _ _ Hrep) Hd Hc).
Qed.

Lemma rng_fill_ok q p s m a cells c task woken notified f n r random :
  rep N q p s [] [([rng_desc f n], r)] →
  ∃ q', fill (A := A) p random (mkRngWorld (Some q) m a cells c task woken notified) =
      Ret (mkRngWorld (Some q') (mem_write m (dma (PAGE_SIZE * f)) random) a cells c task woken notified) ∧
    rep N q' p s [zlen random] [([rng_desc f n], r)].
Proof.
  intros Hrep. unfold fill. cbn [VIRTIO_RNG expect rng_bytes]. run_monad.
  destruct (rep_requests _ _ _ _ _ _ Hrep) as [(_ & _ & _ & _ & _ & Hav) _]. cbn [head] in Hav.
  unfold VolatileArrayRW.len. rewrite (rep_avail _ _ _ _ _ _ Hrep).
  rewrite (array_read_ok N HN _ _ _ (rep_avail _ _ _ _ _ _ Hrep) Hav). run_monad.
  rewrite (single_next _ _ _ _ _ _ Hrep) by done. run_monad. cbn [expect]. run_monad.
  destruct (consume_ok N HN q p s [] _ (zlen random) Hrep) as (q' & E & Hrep' & _); [cbn; lia|].
  rewrite zlen_nil, Z.add_0_r in E. rewrite E. run_monad. by exists q'.
Qed.

Lemma rng_on_completion_ok q p s u m a cells nc task woken notified rq f n c t len i :
  rep N q p s u [([rng_desc f n], mkRngRequest (buffer_at f n) (mkSender c t))] →
  frames_ok a → 0 < n → 0 < f → f + div_ceil n PAGE_SIZE ≤ ca_capacity a →
  (∀ x, f ≤ x < f + div_ceil n PAGE_SIZE → ca_used a x = true) → cells !! c = Some OnceCell.new →
  ∃ a', on_completion (VirtQueue.descriptors (VirtQueueData.queue q)) {| id := i; used_len := len |} (Some (s mod N))
      (Some (mkRngRequest (buffer_at f n) (mkSender c t))) (mkRngWorld rq m (Some a) cells nc task woken notified) =
    Ret (mkRngWorld rq m (Some a') (<[c := OnceCell.mk (Some (mem_read m (frame_addr f) len)) true 0]> cells) nc task
           (woken ++ [t]) notified) ∧
    frames_ok a' ∧ clears_block (ca_used a) (ca_used a') f (div_ceil n PAGE_SIZE).
Proof.
  intros Hrep Hok Hn Hf Hfc Hu Hcell. pose proof (div_ceil_spec n PAGE_SIZE ltac:(done)) as Hd.
  assert (Hk : 0 < div_ceil n PAGE_SIZE) by (unfold PAGE_SIZE in *; lia).
  destruct (free_pages_ok a f (div_ceil n PAGE_SIZE) Hok Hf Hk Hfc Hu) as (a' & Ef & Hok' & _ & Hcl). exists a'. split; [|done].
  unfold on_completion. rewrite (single_next _ _ _ _ _ _ Hrep) by done. run_monad. cbn [expect ChainIterator.next]. run_monad.
  cbn [rng_desc addr]. destruct (in_buffer a f (div_ceil n PAGE_SIZE) 0) as (_ & _ & Ea); [done|lia|done|unfold PAGE_SIZE in *; lia|].
  rewrite !Z.add_0_r in Ea. rewrite Ea. run_monad.
  cbn [rng_bytes rng_cells rng_sender sender_cell rng_frames descriptor_buffer used_len]. rewrite Hcell. run_monad.
  unfold PhysicalBuffer.drop, with_lock. cbn [expect]. run_monad. fold (buffer_at f n) in Ef. rewrite Ef. by run_monad.
Qed.

Lemma answer_ok q p s m a cells nc task woken notified f n c t (random : list Z) :
  rep N q p s [zlen random] [([rng_desc f n], mkRngRequest (buffer_at f n) (mkSender c t))] → wrap 16 p + 1 < 2 ^ 16 →
  frames_ok a → 0 < n → 0 < f → f + div_ceil n PAGE_SIZE ≤ ca_capacity a →
  (∀ x, f ≤ x < f + div_ceil n PAGE_SIZE → ca_used a x = true) → cells !! c = Some OnceCell.new →
  ∃ q' a', virtio_rng_interrupt (mkRngWorld (Some q) m (Some a) cells nc task woken notified) =
      Ret (mkRngWorld (Some q') m (Some a')
        (<[c := OnceCell.mk (Some (mem_read m (frame_addr f) (zlen random))) true 0]> cells) nc task (woken ++ [t]) notified) ∧
    rep N q' (p + 1) (s + 1) [] [] ∧ frames_ok a' ∧ clears_block (ca_used a) (ca_used a') f (div_ceil n PAGE_SIZE).
Proof.
  intros Hrep Hw Hok Hn Hf Hfc Hu Hcell. unfold virtio_rng_interrupt. cbn [VIRTIO_RNG expect]. run_monad.
  destruct (process_ok N HN q p s [zlen random] _ (on_completion (VirtQueue.descriptors (VirtQueueData.queue q)))
    (mkRngWorld (Some q) m (Some a) cells nc task woken notified) Hrep Hw) as (q' & E & Hrep' & _). rewrite E.
  cbn [delivered foldM].
  destruct (rng_on_completion_ok q p s _ m a cells nc task woken notified (Some q) f n c t (zlen random) (s mod N) Hrep Hok Hn Hf Hfc Hu Hcell)
    as (a' & Ec & Hok' & Hcl). cbn [snd]. rewrite Ec. run_monad. exists q', a'. split_and!; try done.
Qed.

End answer.

