(* ===== verification/VirtioProbe.v ===== *)
(** * Probing for virtio devices

    [try_init_virtio_block] ([kernel/src/virtio/block.rs]), [try_init_virtio_rng]
    ([kernel/src/virtio/rng.rs]) and the closure that [global_setup]
    ([kernel/src/lib.rs]) runs for every PCI device: a device of a known kind is set up,
    gets an interrupt handler and is kept in a static. *)
From S2P Require Import Prelude AllocSpec External Addr PhysMem Registers Sched Interrupts Pci VirtQueue VirtioBlock VirtioInit VirtioRng.
#[local] Open Scope Z_scope.

(** [BlockDeviceFeatureBits] that the driver turns off *)
Definition FLUSH : Z := Z.shiftl 1 9.
Definition CONFIG_WCE : Z := Z.shiftl 1 11.
Definition MQ : Z := Z.shiftl 1 12.

(** All of them: [SIZE_MAX], [SEG_MAX], [GEOMETRY], [BLK_SIZE], [FLUSH], [TOPOLOGY], [CONFIG_WCE], [MQ], [DISCARD],
    [WRITE_ZEROES], [LIFETIME], [SECURE_ERASE] *)
Definition BlockDeviceFeatureBits : list Z :=
  [ Z.shiftl 1 1; Z.shiftl 1 2; Z.shiftl 1 4; Z.shiftl 1 6; FLUSH; Z.shiftl 1 10; CONFIG_WCE; MQ; Z.shiftl 1 13;
    Z.shiftl 1 14; Z.shiftl 1 15; Z.shiftl 1 16 ].

Definition BLOCK_VENDOR_IDS : list Z := [0x1001; 0x1042].
Definition RNG_VENDOR_IDS : list Z := [0x1005; 0x1044].

(** What probing changes: the interrupt handlers, the devices, the kernel's mappings,
    memory with its allocator, [VIRTIO_BLOCK] and [VIRTIO_RNG]. *)
Record probing (R D K A : Type) : Type := mkProbing {
  pr_table : @Interrupts.table R D;
  pr_bus : D;
  pr_map : K;
  pr_mem : store * option A;
  pr_block : list VirtIOBlockDevice;
  pr_rng : option (VirtQueueData.t VirtIORNGRequest);
}.
Arguments mkProbing {R D K A} _ _ _ _ _ _.
Arguments pr_table {R D K A} _.
Arguments pr_bus {R D K A} _.
Arguments pr_map {R D K A} _.
Arguments pr_mem {R D K A} _.
Arguments pr_block {R D K A} _.
Arguments pr_rng {R D K A} _.

Module Probe.
Section probe.
Context {x86 : X86_64} {bf : Bitflags} {bc : BitfieldCrate} {R D K A : Type} {CA : ContiguousAllocator A}.
Context `{!Bus D, !DeviceMapping K}.
(** The two interrupt handlers, whose work is that of [virtio_block_interrupt] and
    [virtio_rng_interrupt] *)
Context (block_handler rng_handler : @Interrupts.handler R D).
Implicit Types (s : probing R D K A) (config : VirtIODeviceConfig) (d : D).

Definition with_bus s d : probing R D K A := mkProbing (pr_table s) d (pr_map s) (pr_mem s) (pr_block s) (pr_rng s).

(** [let device_id = device_config.pci_config().device_id(); ..]: whether the device has
    the vendor and one of the device ids *)
Definition is_device (ids : list Z) config d : outcome (bool * D) :=
  '(vendor_id, d) ← read_at_reg 2 (device_id (pci_config config)) 0x00 d;
  if negb (vendor_id =? 0x1af4) then mret (false, d)
  else
    '(id, d) ← read_at_reg 2 (device_id (pci_config config)) 0x02 d;
    mret (bool_decide (id ∈ ids), d).

(** [from_device] of either driver, of its ids and of the features it removes *)
Definition from_device {T} (ids : list Z) (remove : Z → Z) config d (st : store * option A)
  : outcome (VirtQueueData.t T * D * (store * option A)) :=
  '(id, d) ← read_at_reg 2 (device_id (pci_config config)) 0x02 d;
  _ ← assert_ (bool_decide (id ∈ ids));
  '(_, virtqueues, d, st) ← VirtIOInitializedDevice.new (common_virtio_config config) remove 1 d st;
  match virtqueues with
  | [virtqueue] => mret (VirtQueueData.new virtqueue, d, st)
  | _ => Panic PanicExplicit
  end.

Definition block_features (features : Z) : Z := flags_remove (flags_remove (flags_remove features MQ) CONFIG_WCE) FLUSH.

Definition block_from_device config d st : outcome (VirtIOBlockDevice * D * (store * option A)) :=
  '(virtqueue, d, st) ← from_device BLOCK_VENDOR_IDS block_features config d st;
  mret (mkBlockDevice virtqueue, d, st).

Definition try_init_virtio_block (fuel : nat) config s : outcome (probing R D K A) :=
  '(found, d) ← is_device BLOCK_VENDOR_IDS config (pr_bus s);
  if negb found then mret (with_bus s d)
  else
    '(device, d, st) ← block_from_device config d (pr_mem s);
    let device_index := zlen (pr_block s) in
    let handler_id := wrap 32 device_index in
    '(t, d, k) ← VirtIOInitializedDevice.install_virtqueue_msix_handler fuel config
      (VirtQueue.queue_index (VirtQueueData.queue (virtqueue device))) 0 0 handler_id block_handler (pr_table s) d (pr_map s);
    mret (mkProbing t d k st (pr_block s ++ [device]) (pr_rng s)).

Definition rng_from_device config d st : outcome (VirtQueueData.t VirtIORNGRequest * D * (store * option A)) :=
  from_device RNG_VENDOR_IDS (λ features, features) config d st.

Definition enable_msix (fuel : nat) config (virtqueue : VirtQueueData.t VirtIORNGRequest) (processor_id : Z) t d k :=
  let msix_table_id := 0 in
  let handler_id := 1 in
  VirtIOInitializedDevice.install_virtqueue_msix_handler fuel config
    (VirtQueue.queue_index (VirtQueueData.queue virtqueue)) msix_table_id processor_id handler_id rng_handler t d k.

Definition try_init_virtio_rng (fuel : nat) config s : outcome (probing R D K A) :=
  '(found, d) ← is_device RNG_VENDOR_IDS config (pr_bus s);
  if negb found then mret (with_bus s d)
  else
    '(virtqueue, d, st) ← rng_from_device config d (pr_mem s);
    '(t, d, k) ← enable_msix fuel config virtqueue 0 (pr_table s) d (pr_map s);
    mret (mkProbing t d k st (pr_block s) (Some virtqueue)).

(** The closure for one PCI device, in [global_setup] *)
Definition probe_device (fuel : nat) (device : PCIDeviceConfig) s : outcome (probing R D K A) :=
  '(config, d, k) ← VirtIODeviceConfig.from_pci_config fuel device (pr_bus s) (pr_map s);
  let s := mkProbing (pr_table s) d k (pr_mem s) (pr_block s) (pr_rng s) in
  match config with
  | None => mret s
  | Some config =>
      s ← try_init_virtio_rng fuel config s;
      try_init_virtio_block fuel config s
  end.

(** The loop over the bus *)
Definition probe_virtio (fuel : nat) (pci_config_region_base_address : Z) s : outcome (probing R D K A) :=
  '(d, s) ← for_pci_devices_brute_force pci_config_region_base_address
    (λ device '(d, s), s ← probe_device fuel device (with_bus s d); mret (pr_bus s, s)) (pr_bus s, s);
  mret (with_bus s d).
End probe.
End Probe.
