(* ===== verification/VirtioProbeThms.v ===== *)
(** * Probing for virtio devices, proved

    A virtio device is a function of the PCI bus with BARs, a list of capabilities with an
    MSI-X structure among them, the MSI-X table, and the common configuration structure of
    [VirtioInitThms].  [VirtioFunction] is that picture and [VirtioFunctionLaws] says that
    the registers behave like it. *)
From S2P Require Import Prelude AllocSpec BitmapAlloc External Addr PhysMem PageTable Mapping Registers Sched Interrupts Tick Pci PciThms VirtQueue VirtQueueThms VirtioBlock VirtioBlockThms VirtioInit VirtioInitThms VirtioRng VirtioProbe.
#[local] Open Scope Z_scope.

(** ** The device on the bus *)
Record message : Type := mkMessage { msg_address : Z; msg_data : Z; msg_control : Z }.
Record msix_view : Type := mkMsixView { x_control : Z; x_entries : list message }.

Definition message_write (off v : Z) (e : message) : message :=
  if off =? 0 then mkMessage v (msg_data e) (msg_control e)
  else if off =? 8 then mkMessage (msg_address e) v (msg_control e)
  else mkMessage (msg_address e) (msg_data e) v.

(** [base] is the address of the function's configuration, [table] that of the MSI-X
    table.  Of the configuration only the MSI-X control register changes. *)
Class VirtioFunction (D : Type) `{!Bus D} (base common table : Z) : Type := {
  vf_device :: VirtioDevice D common;
  vf_byte : Z → Z;
  vf_vendor : Z;
  vf_id : Z;
  vf_status : Z;
  vf_bars : list bar_decl;
  vf_msix : Z;           (* the offset of the MSI-X capability *)
  vf_long : Z → Z;       (* the aligned words of the capabilities *)
  vf_view : D → msix_view;
}.

Class VirtioFunctionLaws (D : Type) `{VirtioFunction D base common table} : Prop := {
  vf_device_laws :: VirtioDeviceLaws D;
  vf_read_byte d off : 0 ≤ off ≤ 256 → bus_read 1 (base + off) d = (vf_byte off, d);
  vf_read_word d off v : (off, v) ∈ [(0x00, vf_vendor); (0x02, vf_id); (0x06, vf_status)] → bus_read 2 (base + off) d = (v, d);
  vf_read_bar d i v : (vf_bars ≫= bar_registers) !! i = Some v → bus_read 4 (base + (0x10 + 4 * Z.of_nat i)) d = (v, d);
  vf_read_control d : bus_read 2 (base + vf_msix + 2) d = (x_control (vf_view d), d);
  vf_read_long d off : 0x40 ≤ off ≤ 252 → off ≠ vf_msix → bus_read 4 (base + off) d = (vf_long off, d);
  vf_write_control v d : let d' := bus_write 2 (base + vf_msix + 2) v d in
    vf_view d' = mkMsixView v (x_entries (vf_view d)) ∧ v_view d' = v_view d;
  vf_read_message d i e : x_entries (vf_view d) !! i = Some e →
    bus_read 4 (table + 16 * Z.of_nat i + 0xc) d = (msg_control e, d);
  vf_write_message d i e off v : x_entries (vf_view d) !! i = Some e → off ∈ [0; 8; 0xc] →
    let d' := bus_write 4 (table + 16 * Z.of_nat i + off) v d in
    vf_view d' = mkMsixView (x_control (vf_view d)) (<[i := message_write off v e]> (x_entries (vf_view d))) ∧ v_view d' = v_view d;
  (** the common configuration is somewhere else *)
  vf_write_common bytes off val d : 0 ≤ off < 0x40 → vf_view (bus_write bytes (common + off) val d) = vf_view d;
}.

(** The physical address that a BAR of memory decodes. *)
Definition bar_memory (b : BARAddress) : option Z :=
  match b with Mem32Bit a _ | Mem64Bit a _ => Some a | IO _ => None end.

Section regions.
Context {x86 : X86_64} {x86_laws : X86_64Laws} {bc : BitfieldCrate} {bcl : BitfieldCrateLaws}.
Context {D K : Type} {bus : Bus D} {dm : DeviceMapping K}.
Context {base common table : Z} {vf : VirtioFunction D base common table} {vfl : VirtioFunctionLaws D}.
(** Mapping device memory does not fail. *)
Context (Hmap : ∀ pages (k : K), ∃ k', map_device_pages pages k = Ret k').
Implicit Types (d : D) (k : K).

(** The offset [offset] in the BAR [i], a BAR of memory, has the kernel address [address],
    with 64 KiB in the direct mapping. *)
Definition located (i offset address : Z) : Prop :=
  ∃ b a, (vf_bars ≫= bar_meaning) !! Z.to_nat i = Some (Some b) ∧ bar_memory b = Some a ∧
    0 ≤ a ∧ 0 ≤ offset ∧ address = a + KERNEL_PHYSICAL_MAPPING_START + offset ∧
    address + 2 ^ 16 ≤ KERNEL_PHYSICAL_MAPPING_END.

(** The bits of a register of the MSI-X capability name a BAR and an offset. *)
Definition places (bits address : Z) : Prop := located (bar_indicator_register bits) (table_offset bits) address.

(** What is fixed when the machine is built: [l1 ++ vf_msix :: l2] are the offsets of the
    capabilities. *)
Record well_placed (l1 l2 : list Z) : Prop := {
  wp_base : register_at base 0x1000;
  wp_common : register_at common 0x40;
  wp_status : get_bool PCIDeviceConfigStatus "capabilities_list" vf_status = true;
  wp_chain : chain vf_byte (vf_byte 0x34) (l1 ++ vf_msix :: l2);
  wp_msix : vf_byte vf_msix = MSIX_CAPABILITY_ID;
  wp_first : ∀ x, x ∈ l1 → vf_byte x ≠ MSIX_CAPABILITY_ID;
  wp_space : 0x40 ≤ vf_msix ≤ 244;
  wp_bars : Forall bar_valid vf_bars;
  wp_six : length (vf_bars ≫= bar_registers) = 6%nat;
  wp_table : places (vf_long (vf_msix + 4)) table;
  wp_pba : ∃ pba, places (vf_long (vf_msix + 8)) pba;
}.
Context {l1 l2 : list Z} (Hwp : well_placed l1 l2).

Lemma function_register off : 0 ≤ off ≤ 0x1000 → register base off = Ret (base + off).
Proof.
  intros Ho. destruct (wp_base _ _ Hwp) as [H1 H2].
  apply register_ok; [unfold KERNEL_PHYSICAL_MAPPING_START, HIGHER_HALF_START in H1; lia|lia..].
Qed.

Lemma read_bar d i v : (vf_bars ≫= bar_registers) !! i = Some v → read_at_reg 4 base (0x10 + 4 * Z.of_nat i) d = Ret (v, d).
Proof.
  intros Hi. pose proof (lookup_lt_Some _ _ _ Hi) as Hl. rewrite (wp_six _ _ Hwp) in Hl.
  unfold read_at_reg, RegisterRW.read. rewrite function_register by lia. run_monad. by rewrite (vf_read_bar d i v).
Qed.

Lemma bar_addresses_ok c d : bar_addresses (mkType0 c base) d = Ret (vf_bars ≫= bar_registers, d).
Proof.
  pose proof (wp_six _ _ Hwp) as H6. pose proof (read_bar d) as Hr. revert H6 Hr.
  generalize (vf_bars ≫= bar_registers). intros l H6 Hr.
  do 6 (destruct l as [|? l]; [discriminate H6|]). destruct l; [|discriminate H6].
  unfold bar_addresses. cbn [type0_registers].
  rewrite (Hr 0%nat _ eq_refl : read_at_reg 4 base 0x10 d = _). run_monad.
  rewrite (Hr 1%nat _ eq_refl : read_at_reg 4 base 0x14 d = _). run_monad.
  rewrite (Hr 2%nat _ eq_refl : read_at_reg 4 base 0x18 d = _). run_monad.
  rewrite (Hr 3%nat _ eq_refl : read_at_reg 4 base 0x1C d = _). run_monad.
  rewrite (Hr 4%nat _ eq_refl : read_at_reg 4 base 0x20 d = _). run_monad.
  by rewrite (Hr 5%nat _ eq_refl : read_at_reg 4 base 0x24 d = _).
Qed.

Lemma kern_add_ok x off : KERNEL_PHYSICAL_MAPPING_START ≤ x → 0 ≤ off → x + off ≤ KERNEL_PHYSICAL_MAPPING_END →
  KernPhysAddr.add x off = Ret (x + off).
Proof.
  intros H1 H2 H3. apply (register_ok x off); [unfold KERNEL_PHYSICAL_MAPPING_START, HIGHER_HALF_START in H1; lia|done..].
Qed.

(** The pages of a region of the direct mapping *)
Lemma region_pages x n : KERNEL_PHYSICAL_MAPPING_START ≤ x → 0 < n → x + n ≤ KERNEL_PHYSICAL_MAPPING_END →
  ∃ page r pages, containing_address x Size4KiB = Ret page ∧ from_num_bytes page n = Ret r ∧
    PageRange_iter (addr := AddressKernPhys) r = Ret pages.
Proof.
  intros Hx Hs He. unfold KERNEL_PHYSICAL_MAPPING_START, KERNEL_PHYSICAL_MAPPING_END, HIGHER_HALF_START in *.
  rewrite containing_address_ok by lia. do 3 eexists. split; [done|]. split; [reflexivity|].
  pose proof (div_ceil_spec n 4096 ltac:(lia)) as Hd. unfold PageRange_iter. apply PageRange_collect_ok; cbn [start num_pages start_addr size size_bytes].
  - lia.
  - lia.
  - intros j Hj. apply kern_add_ok;
      unfold KERNEL_PHYSICAL_MAPPING_START, KERNEL_PHYSICAL_MAPPING_END, HIGHER_HALF_START; zdm.
  - lia.
Qed.

Lemma region_ok c i offset address n d k : located i offset address → 0 < n ≤ 2 ^ 15 →
  ∃ k', bar_region_physical_address (mkType0 c base) i offset n d k = Ret (address, d, k').
Proof.
  intros (b & a & Hb & Ha & H0 & Ho & -> & He) Hn. unfold bar_region_physical_address, bar. rewrite bar_addresses_ok. run_monad.
  assert (Ei : interpreted (vf_bars ≫= bar_registers) = Ret (vf_bars ≫= bar_meaning)).
  { apply (interpreted_loop_ok vf_bars _ [] []); [apply (wp_bars _ _ Hwp)|done|lia]. }
  rewrite Ei. run_monad. rewrite Hb. run_monad.
  assert (Hp : PhysAddr_new a = Ret a).
  { apply PhysAddr_new_ok. unfold KERNEL_PHYSICAL_MAPPING_START, KERNEL_PHYSICAL_MAPPING_END, HIGHER_HALF_START in He. lia. }
  assert (Ep : match b with Mem32Bit x _ | Mem64Bit x _ => PhysAddr_new x | IO _ => Panic PanicExplicit end = Ret a).
  { destruct b; try discriminate Ha; injection Ha as ->; exact Hp. }
  rewrite Ep. run_monad. rewrite from_phys_addr_ok by lia. run_monad. rewrite kern_add_ok by lia. run_monad.
  destruct (region_pages (a + KERNEL_PHYSICAL_MAPPING_START + offset) n) as (page & r & pages & -> & E2 & E3); [lia..|].
  run_monad. rewrite E2. run_monad. rewrite E3. run_monad. destruct (Hmap pages k) as [k' ->]. run_monad. by exists k'.
Qed.

(** ** The MSI-X structure *)
Lemma msix_register off : 0 ≤ off ≤ 12 → register (base + vf_msix) off = Ret (base + vf_msix + off).
Proof.
  intros Ho. destruct (wp_base _ _ Hwp) as [H1 H2]. pose proof (wp_space _ _ Hwp) as Hs.
  apply register_ok; [unfold KERNEL_PHYSICAL_MAPPING_START, HIGHER_HALF_START in H1; lia|lia..].
Qed.

(** The number of entries of the table, as its control register says *)
Definition entries_of (control : Z) : Z := get MSIXMessageControl "table_size" control + 1.

Lemma entries_bound control : 1 ≤ entries_of control ≤ 2 ^ 11.
Proof. unfold entries_of. pose proof (get_bound MSIXMessageControl "table_size" 0 11 control eq_refl ltac:(lia) ltac:(lia)). lia. Qed.

Lemma msix_new_ok c d k :
  ∃ pba k', msix_new (mkType0 c base) (base + vf_msix) d k =
    Ret (mkMsix (base + vf_msix) (mkMsixTable table (entries_of (x_control (vf_view d)))) pba, d, k').
Proof.
  pose proof (entries_bound (x_control (vf_view d))) as Hn. unfold msix_new, read_at_reg, RegisterRW.read.
  rewrite !msix_register by lia. run_monad. rewrite vf_read_control. run_monad. fold (entries_of (x_control (vf_view d))).
  rewrite uadd_ok by (unfold entries_of in *; lia). fold (entries_of (x_control (vf_view d))). run_monad.
  rewrite <-Z.add_assoc, (vf_read_long d (vf_msix + 4)) by (pose proof (wp_space _ _ Hwp); lia). run_monad. rewrite !umul_ok by lia. run_monad.
  destruct (region_ok c _ _ _ (entries_of (x_control (vf_view d)) * 16) d k (wp_table _ _ Hwp)) as [k1 E1]; [lia|]. rewrite E1. run_monad.
  rewrite <-Z.add_assoc, (vf_read_long d (vf_msix + 8)) by (pose proof (wp_space _ _ Hwp); lia). run_monad.
  destruct (wp_pba _ _ Hwp) as [pba Hpba].
  destruct (region_ok c _ _ _ (entries_of (x_control (vf_view d)) * 8) d k1 Hpba) as [k2 E2]; [lia|]. rewrite E2. run_monad.
  by do 2 eexists.
Qed.

Lemma capability_ok x d : 0 < x < 256 →
  Header.capability (PciThms.header_at base x) d =
    Ret (if vf_byte x =? MSIX_CAPABILITY_ID then MSIX (base + x)
         else if vf_byte x =? VENDOR_SPECIFIC_CAPABILITY_ID then VendorSpecific (PciThms.header_at base x)
         else OtherCapability (PciThms.header_at base x), d).
Proof.
  intros Hx. assert (E : read_at_reg 1 (base + x) 0 d = Ret (vf_byte x, d)).
  { rewrite (read_cfg base vf_byte (λ _, True) (wp_base _ _ Hwp)); [by rewrite Z.add_0_r| |done|lia..]. intros. by apply vf_read_byte. }
  unfold Header.capability, Header.msix_from_capability. cbn [header_registers PciThms.header_at]. rewrite E. run_monad.
  destruct (vf_byte x =? MSIX_CAPABILITY_ID) eqn:Ex; [|by destruct (vf_byte x =? VENDOR_SPECIFIC_CAPABILITY_ID)]. rewrite E. run_monad. rewrite Ex. by run_monad.
Qed.

Definition msix_body (t0 : PCIDeviceConfigType0) (cap : PCIDeviceCapabilityHeader) k d : outcome (flow K (MSIXConfig * K) * D) :=
  '(c, d) ← Header.capability cap d;
  match c with
  | MSIX registers => '(m, d, k) ← msix_new t0 registers d k; mret (Stop (m, k), d)
  | _ => mret (Next k, d)
  end.

Lemma msix_body_other t0 x k d : vf_byte x ≠ MSIX_CAPABILITY_ID → 0 < x < 256 →
  msix_body t0 (PciThms.header_at base x) k d = Ret (Next k, d).
Proof.
  intros Hx Hb. unfold msix_body. rewrite capability_ok by done. run_monad. rewrite (proj2 (Z.eqb_neq _ _) Hx). by destruct (_ =? _).
Qed.

Lemma visit_others t0 l d k l' : (∀ x, x ∈ l → vf_byte x ≠ MSIX_CAPABILITY_ID ∧ 0 < x < 256) →
  visit (msix_body t0) (PciThms.header_at base <$> l ++ l') k d = visit (msix_body t0) (PciThms.header_at base <$> l') k d.
Proof.
  induction l as [|x l IH]; intros Hl; [done|]. destruct (Hl x) as [Hx Hb]; [by left|]. cbn [app fmap list_fmap visit].
  rewrite msix_body_other by done. run_monad. apply IH. intros y Hy. apply Hl. by right.
Qed.

Lemma msix_config_ok c d k : common_registers c = base →
  ∃ pba k', msix_config 256 (mkType0 c base) d k =
    Ret (Some (mkMsix (base + vf_msix) (mkMsixTable table (entries_of (x_control (vf_view d)))) pba), d, k').
Proof.
  intros Hc. pose proof (chain_offsets _ _ _ (wp_chain _ _ Hwp)) as Hoff.
  pose proof (walk_capabilities base vf_byte (λ _, True) (wp_base _ _ Hwp) (λ d off _ Ho, vf_read_byte d off Ho)
    (msix_body (mkType0 c base)) vf_status (l1 ++ vf_msix :: l2) k d c Hc I (vf_read_word d 0x06 vf_status ltac:(set_solver))
    (wp_chain _ _ Hwp) (λ _ _ _ _ _ _ _, I)) as E.
  rewrite (wp_status _ _ Hwp), visit_others in E.
  2:{ intros x Hx. split; [by apply (wp_first _ _ Hwp)|]. apply Hoff. apply elem_of_app. by left. }
  destruct (msix_new_ok c d k) as (pba & k' & En). exists pba, k'.
  assert (Eb : msix_body (mkType0 c base) (PciThms.header_at base vf_msix) k d =
    Ret (Stop (mkMsix (base + vf_msix) (mkMsixTable table (entries_of (x_control (vf_view d)))) pba, k'), d)).
  { unfold msix_body. rewrite capability_ok by (apply Hoff, elem_of_app; right; by left). run_monad. rewrite (wp_msix _ _ Hwp), Z.eqb_refl, En. by run_monad. }
  cbn [fmap list_fmap visit] in E. rewrite Eb in E. unfold msix_config. cbn [common_config].
  change (λ cap k d, _) with (msix_body (mkType0 c base)).
  revert E. run_monad. destruct (iter_capabilities c d) as [[caps d1]| |]; run_monad; [|done..]. intros ->. by run_monad.
Qed.
End regions.

(** ** Finding the configuration structures *)
Section find.
Context {x86 : X86_64} {x86_laws : X86_64Laws} {bc : BitfieldCrate} {bcl : BitfieldCrateLaws}.
Context {D K : Type} {bus : Bus D} {dm : DeviceMapping K}.
Context {base common table : Z} {vf : VirtioFunction D base common table} {vfl : VirtioFunctionLaws D}.
Context (Hmap : ∀ pages (k : K), ∃ k', map_device_pages pages k = Ret k').
Context {l1 l2 : list Z} (Hwp : well_placed l1 l2).
(** The kernel address of the structure that a virtio capability describes *)
Context (address : Z → Z).
Implicit Types (d : D) (k : K) (f : found).
Import VirtIODeviceConfig.

Definition is_virtio (x : Z) : Prop := vf_byte x = VENDOR_SPECIFIC_CAPABILITY_ID.
Definition cap_type (x : Z) : option VirtIOPCIConfigType := from_cfg_type (vf_byte (x + 3)).
Definition notify_of (x : Z) : VirtIONotifyConfig := mkNotify (address x) (vf_long (x + 16)).

(** A virtio capability at the offset [x], of a known type; if the driver uses it, it
    describes a structure in a BAR of memory. *)
Record virtio_cap (x : Z) : Prop := {
  vc_space : 0x40 ≤ x ≤ 236;
  vc_apart : x + 8 ≠ vf_msix ∧ (cap_type x = Some CfgNotify → x + 16 ≠ vf_msix);
  vc_type : is_Some (cap_type x);
  vc_length : 0 < vf_byte (x + 2) < 256;
  vc_located : cap_type x ∈ [Some CfgCommon; Some CfgNotify; Some CfgISR; Some CfgDevice] →
    located (vf_byte (x + 4)) (vf_long (x + 8)) (address x);
}.

(** The first structure of each kind is kept. *)
Definition find_one f (x : Z) : found :=
  if decide (is_virtio x) then
    match cap_type x with
    | Some CfgCommon => mkFound (get_or_insert (found_common f) (address x)) (found_isr f) (found_notify f) (found_device f)
    | Some CfgNotify => mkFound (found_common f) (found_isr f) (get_or_insert (found_notify f) (notify_of x)) (found_device f)
    | Some CfgISR => mkFound (found_common f) (get_or_insert (found_isr f) (address x)) (found_notify f) (found_device f)
    | Some CfgDevice => mkFound (found_common f) (found_isr f) (found_notify f) (get_or_insert (found_device f) (address x))
    | _ => f
    end
  else f.

Lemma cap_byte x o d : 0 ≤ x → 0 ≤ o → x + o ≤ 256 → read_at_reg 1 (base + x) o d = Ret (vf_byte (x + o), d).
Proof. intros Hx Ho Hs. apply (read_cfg base vf_byte (λ _, True) (wp_base _ _ Hwp)); [intros; by apply vf_read_byte|done..]. Qed.

Lemma cap_long x o d : 0 ≤ x → 0 ≤ o → 0x40 ≤ x + o ≤ 252 → x + o ≠ vf_msix →
  KernPhysAddr.add (base + x) o = Ret (base + x + o) ∧ bus_read 4 (base + x + o) d = (vf_long (x + o), d).
Proof.
  intros Hx Ho Hs Hm. destruct (wp_base _ _ Hwp) as [H1 H2]. split; [apply kern_add_ok; lia|]. rewrite <-Z.add_assoc. by apply vf_read_long.
Qed.

Lemma map_structure c x d k : virtio_cap x → cap_type x ∈ [Some CfgCommon; Some CfgNotify; Some CfgISR; Some CfgDevice] →
  ∃ k', compute_and_map_config_address (mkType0 c base) (base + x) d k = Ret (address x, d, k').
Proof.
  intros [Hs [Ha _] _ Hl Hloc] Ht. unfold compute_and_map_config_address. rewrite cap_byte by lia. run_monad.
  destruct (cap_long x 8 d) as [E1 E2]; [lia|lia|lia|done|].
  assert (E3 : read_at_reg 4 (base + x) 8 d = Ret (vf_long (x + 8), d)).
  { unfold read_at_reg, register, RegisterRW.read. rewrite E1. run_monad. by rewrite E2. }
  rewrite E3. run_monad. rewrite cap_byte by lia. run_monad. by apply (region_ok Hmap Hwp); [apply Hloc|lia].
Qed.

Lemma config_type_ok x d : virtio_cap x → config_type (base + x) d = (t ← expect (cap_type x); Ret (t, d)).
Proof. intros [Hs _ _ _ _]. unfold config_type. by rewrite cap_byte by lia. Qed.

Lemma scan_one c x f d k : (is_virtio x → virtio_cap x) → 0 < x < 256 →
  ∃ k', scan_capability (mkType0 c base) (PciThms.header_at base x) (f, k) d = Ret (Next (find_one f x, k'), d).
Proof.
  intros Hv Hx. unfold scan_capability, from_pci_capability. rewrite (capability_ok Hwp) by done. run_monad. unfold find_one, is_virtio.
  case_decide as Hd.
  2:{ exists k. destruct (vf_byte x =? MSIX_CAPABILITY_ID); [by run_monad|]. rewrite (proj2 (Z.eqb_neq _ _) Hd). by run_monad. }
  rewrite Hd. change (VENDOR_SPECIFIC_CAPABILITY_ID =? MSIX_CAPABILITY_ID) with false. rewrite Z.eqb_refl. run_monad. specialize (Hv Hd). cbn [header_registers PciThms.header_at]. rewrite !config_type_ok by done. destruct (vc_type x Hv) as [ty Ety]. rewrite Ety. run_monad.
  pose proof (map_structure c x d k Hv) as Hm. rewrite Ety in Hm. unfold config. cbn [header_registers PciThms.header_at].
  destruct ty; try (rewrite config_type_ok, Ety by done; run_monad); try (by eexists).
  all: destruct Hm as [k' Em]; [set_solver|]; rewrite Em; run_monad; try (by eexists).
  destruct (vc_space x Hv). destruct (cap_long x 16 d) as [E1 E2]; [lia|lia|lia|by apply (vc_apart x Hv)|].
  unfold VIRTIO_CAPABILITY_HEADER_SIZE, RegisterRW.read. rewrite E1. run_monad. rewrite E2. run_monad. by eexists.
Qed.

(** The first virtio capability of a type *)
Definition first (ty : VirtIOPCIConfigType) (l : list Z) : option Z :=
  head (filter (λ x, is_virtio x ∧ cap_type x = Some ty) l).

Lemma first_cons ty x l : first ty (x :: l) = if decide (is_virtio x ∧ cap_type x = Some ty) then Some x else first ty l.
Proof. unfold first. rewrite filter_cons. by case_decide. Qed.

Definition or_else {T} (o o' : option T) : option T := match o with Some x => Some x | None => o' end.

Lemma find_first l : ∀ f, foldl find_one f l =
  mkFound (or_else (found_common f) (address <$> first CfgCommon l)) (or_else (found_isr f) (address <$> first CfgISR l))
    (or_else (found_notify f) (notify_of <$> first CfgNotify l)) (or_else (found_device f) (address <$> first CfgDevice l)).
Proof.
  induction l as [|x l IH]; intros f; cbn [foldl].
  { destruct f as [[?|] [?|] [?|] [?|]]; done. }
  rewrite IH, !first_cons. unfold find_one. case_decide as Hv.
  - destruct (cap_type x) as [[]|] eqn:Et;
      repeat (case_decide as Hd; [try (destruct Hd; discriminate)|try (exfalso; by apply Hd)]; clear Hd); by destruct f as [[?|] [?|] [?|] [?|]].
  - by rewrite !decide_False by tauto.
Qed.

Lemma scan_ok c l : (∀ x, x ∈ l → 0 < x < 256 ∧ (is_virtio x → virtio_cap x)) → ∀ f d k,
  ∃ k', visit (scan_capability (mkType0 c base)) (PciThms.header_at base <$> l) (f, k) d = Ret (Next (foldl find_one f l, k'), d).
Proof.
  induction l as [|x l IH]; intros Hl f d k; cbn [fmap list_fmap visit foldl]; [by exists k|].
  destruct (Hl x) as [Hx Hv]; [by left|]. destruct (scan_one c x f d k Hv Hx) as [k1 ->]. run_monad. apply IH. intros y Hy. apply Hl. by right.
Qed.

(** The structures that the driver needs: [common] is the common configuration. *)
Record structures (isr device : Z) (notify : VirtIONotifyConfig) : Prop := {
  ss_caps : ∀ x, x ∈ l1 ++ vf_msix :: l2 → is_virtio x → virtio_cap x;
  ss_common : address <$> first CfgCommon (l1 ++ vf_msix :: l2) = Some common;
  ss_isr : address <$> first CfgISR (l1 ++ vf_msix :: l2) = Some isr;
  ss_notify : notify_of <$> first CfgNotify (l1 ++ vf_msix :: l2) = Some notify;
  ss_device : address <$> first CfgDevice (l1 ++ vf_msix :: l2) = Some device;
}.

Lemma config_found c isr device notify d k :
  device_id c = base → common_registers c = base → device_base_address (location c) = Ret base →
  vf_vendor = 0x1af4 → layout (vf_byte 0x0E) = Ok GeneralDevice → structures isr device notify →
  ∃ k', from_pci_config 256 c d k = Ret (Some (mkVirtio c (mkType0 c base) common isr notify device), d, k').
Proof.
  intros Hid Hc Hloc Hv Hh [Hcaps H1 H2 H3 H4]. pose proof (chain_offsets _ _ _ (wp_chain _ _ Hwp)) as Hoff. unfold from_pci_config.
  assert (E0 : read_at_reg 2 base 0 d = Ret (0x1af4, d)).
  { unfold read_at_reg, RegisterRW.read. rewrite (function_register Hwp) by lia. run_monad. rewrite (vf_read_word d 0 vf_vendor) by set_solver. by rewrite Hv. }
  rewrite Hid, E0. run_monad. cbn [Z.eqb negb]. unfold Pci.config_type. rewrite Hc.
  pose proof (cap_byte 0 0x0E d ltac:(lia) ltac:(lia) ltac:(lia)) as Eh. rewrite Z.add_0_r, Z.add_0_l in Eh. rewrite Eh. run_monad. rewrite Hh.
  unfold from_common_config. rewrite Hloc. run_monad.
  destruct (scan_ok c (l1 ++ vf_msix :: l2) (λ x Hx, conj (Hoff x Hx) (Hcaps x Hx)) (mkFound None None None None) d k) as [k' Es].
  pose proof (walk_capabilities base vf_byte (λ _, True) (wp_base _ _ Hwp) (λ d off _ Ho, vf_read_byte d off Ho)
    (scan_capability (mkType0 c base)) vf_status (l1 ++ vf_msix :: l2) (mkFound None None None None, k) d c Hc I
    (vf_read_word d 0x06 vf_status ltac:(set_solver)) (wp_chain _ _ Hwp) (λ _ _ _ _ _ _ _, I)) as E.
  rewrite (wp_status _ _ Hwp), Es, find_first in E. cbn [found_common found_isr found_notify found_device or_else] in E.
  rewrite H1, H2, H3, H4 in E. exists k'. revert E. destruct (iter_capabilities c d) as [[caps d1]| |]; run_monad; [|done..].
  intros ->. run_monad. done.
Qed.
End find.

(** ** The handler of a queue *)
Lemma message_data_ok {bc : BitfieldCrate} {bcl : BitfieldCrateLaws} v : 0 ≤ v < 256 → with_ MSIXMessageData "vector" v 0 = Ret v.
Proof. intros Hv. by with_fields. Qed.

Section connect.
Context {x86 : X86_64} {x86_laws : X86_64Laws} {bc : BitfieldCrate} {bcl : BitfieldCrateLaws}.
Context {D K : Type} {bus : Bus D} {dm : DeviceMapping K}.
Context {base common table : Z} {vf : VirtioFunction D base common table} {vfl : VirtioFunctionLaws D}.
Context (Hmap : ∀ pages (k : K), ∃ k', map_device_pages pages k = Ret k').
Context {l1 l2 : list Z} (Hwp : well_placed l1 l2).
Implicit Types (d : D) (k : K).

(** The interrupts of entry [i] go to the vector [v] of a processor. *)
Record connected (i processor_id v : Z) d : Prop := {
  cn_enabled : get_bool MSIXMessageControl "enable" (x_control (vf_view d)) = true;
  cn_message : ∃ control, x_entries (vf_view d) !! Z.to_nat i = Some (mkMessage (0xfee00000 + 4096 * processor_id) v control) ∧
    get_bool MSIXVectorControl "mask_bit" control = false;
}.

Lemma common_write bytes off val d :
  (off, bytes) ∈ [(0x00, 4); (0x08, 4); (0x0C, 4); (0x14, 1); (0x16, 2); (0x1A, 2); (0x1C, 2); (0x20, 8); (0x28, 8); (0x30, 8)] →
  ∃ d', write_at_reg bytes common off val d = Ret d' ∧ v_view d' = vwrite v_accepts off val (v_view d) ∧ vf_view d' = vf_view d.
Proof.
  intros Ho. unfold write_at_reg, RegisterRW.write. assert (Hb : 0 ≤ off < 0x40).
  { rewrite !elem_of_cons, elem_of_nil in Ho. naive_solver lia. }
  rewrite (common_reg (wp_common _ _ Hwp)) by lia. run_monad. eexists. split; [done|]. split; [by apply virtio_write|by apply vf_write_common].
Qed.

Lemma message_register i off : 0 ≤ i < 2 ^ 11 → 0 ≤ off ≤ 16 → register (table + 16 * i) off = Ret (table + 16 * i + off).
Proof.
  intros Hi Ho. destruct (wp_table _ _ Hwp) as (b & a & _ & _ & Ha & Hoff & Et & He).
  apply register_ok; unfold KERNEL_PHYSICAL_MAPPING_START, HIGHER_HALF_START in *; lia.
Qed.

Lemma table_entry i : 0 ≤ i < 2 ^ 11 → KernPhysAddr.add table (16 * i) = Ret (table + 16 * i).
Proof.
  intros Hi. destruct (wp_table _ _ Hwp) as (b & a & _ & _ & Ha & Hoff & Et & Hend).
  apply kern_add_ok; unfold KERNEL_PHYSICAL_MAPPING_START, HIGHER_HALF_START in *; lia.
Qed.

Lemma set_vector_ok i e processor_id v d : 0 ≤ processor_id < 256 → 0 ≤ v < 256 → 0 ≤ i < 2 ^ 11 →
  x_entries (vf_view d) !! Z.to_nat i = Some e →
  ∃ d' control, set_interrupt_vector (table + 16 * i) processor_id v d = Ret d' ∧ v_view d' = v_view d ∧
    vf_view d' = mkMsixView (x_control (vf_view d))
      (<[Z.to_nat i := mkMessage (0xfee00000 + 4096 * processor_id) v control]> (x_entries (vf_view d))) ∧
    get_bool MSIXVectorControl "mask_bit" control = false.
Proof.
  intros Hp Hv Hi He. pose proof (lookup_lt_Some _ _ _ He) as Hl. unfold set_interrupt_vector. rewrite message_address_ok by done. run_monad.
  assert (Hw : ∀ off x e d, off ∈ [0; 8; 0xc] → x_entries (vf_view d) !! Z.to_nat i = Some e →
    ∃ d', write_at_reg 4 (table + 16 * i) off x d = Ret d' ∧ v_view d' = v_view d ∧
      vf_view d' = mkMsixView (x_control (vf_view d)) (<[Z.to_nat i := message_write off x e]> (x_entries (vf_view d)))).
  { intros off x e0 d0 Ho H0. unfold write_at_reg, RegisterRW.write.
    rewrite message_register; [|done|rewrite !elem_of_cons, elem_of_nil in Ho; naive_solver lia]. run_monad. eexists. split; [done|].
    replace (16 * i) with (16 * Z.of_nat (Z.to_nat i)) by lia. by destruct (vf_write_message d0 (Z.to_nat i) e0 off x H0 Ho). }
  destruct (Hw 0 (0xfee00000 + 4096 * processor_id) e d) as (d1 & -> & V1 & X1); [set_solver|done|]. run_monad.
  rewrite message_data_ok by done. run_monad.
  destruct (Hw 8 v (message_write 0 (0xfee00000 + 4096 * processor_id) e) d1) as (d2 & -> & V2 & X2); [set_solver|by rewrite X1; apply list_lookup_insert_eq|].
  run_monad. rewrite X1 in X2. cbn [x_control x_entries] in X2. rewrite list_insert_insert_eq in X2.
  set (e2 := message_write 8 v _) in X2.
  assert (H2 : x_entries (vf_view d2) !! Z.to_nat i = Some e2) by (rewrite X2; by apply list_lookup_insert_eq).
  unfold modify_at_reg, RegisterRW.modify_mut, RegisterRW.read. rewrite message_register by lia. run_monad.
  pose proof (vf_read_message d2 (Z.to_nat i) e2 H2) as R2. replace (16 * Z.of_nat (Z.to_nat i)) with (16 * i) in R2 by lia. rewrite R2. run_monad.
  with_fields. set (control := set_ _ _ _ _).
  destruct (Hw 0xc control e2 d2) as (d3 & E3 & V3 & X3); [set_solver|done|]. unfold write_at_reg in E3. rewrite message_register in E3 by lia.
  exists d3, control. split; [exact E3|]. split; [congruence|]. rewrite X3, X2. cbn [x_control x_entries]. rewrite list_insert_insert_eq.
  split; [done|]. unfold control. by get_fields.
Qed.

Definition with_msix (index : Z) (q : vqueue) : vqueue :=
  mkVqueue (vq_size q) (vq_notify_off q) (vq_desc q) (vq_driver q) (vq_device q) (vq_enable q) index.

(** What the driver keeps of a device at [base] *)
Definition config_of (c : PCIDeviceConfig) (isr device : Z) (notify : VirtIONotifyConfig) : VirtIODeviceConfig :=
  mkVirtio c (mkType0 c base) common isr notify device.

Lemma install_handler_ok {R} c isr device notify i vq index e processor_id handler_id (h : @Interrupts.handler R D) t d k :
  common_registers c = base → 0 ≤ i → v_queues (v_view d) !! Z.to_nat i = Some vq →
  0 ≤ index < entries_of (x_control (vf_view d)) → x_entries (vf_view d) !! Z.to_nat index = Some e → 0 ≤ processor_id < 256 →
  length (Interrupts.handlers t) = 256%nat → 0 ≤ Interrupts.next_open t < 255 →
  ∃ d' k', VirtIOInitializedDevice.install_virtqueue_msix_handler 256 (config_of c isr device notify) i index processor_id handler_id h t d k =
      Ret (Interrupts.mkTable (<[Z.to_nat (Interrupts.next_open t) := (handler_id, h)]> (Interrupts.handlers t)) (Interrupts.next_open t + 1), d', k') ∧
    connected index processor_id (Interrupts.next_open t) d' ∧
    v_queues (v_view d') = <[Z.to_nat i := with_msix index vq]> (v_queues (v_view d)) ∧ same_config (v_view d) (v_view d').
Proof.
  intros Hc Hi Hq Hx He Hp Hh Hn. pose proof (entries_bound (x_control (vf_view d))) as Hb.
  unfold VirtIOInitializedDevice.install_virtqueue_msix_handler. cbn [common_virtio_config pci_type0_config config_of].
  destruct (common_write 2 0x16 i d) as (d1 & -> & V1 & X1); [set_solver|]. run_monad.
  destruct (common_write 2 0x1A index d1) as (d2 & -> & V2 & X2); [set_solver|]. run_monad.
  rewrite (rd (wp_common _ _ Hwp)) by set_solver. run_monad.
  assert (Eq : v_queues (v_view d2) = <[Z.to_nat i := with_msix index vq]> (v_queues (v_view d))).
  { rewrite V2, V1. cbn. apply list_eq. intros j. destruct (decide (Z.to_nat i = j)) as [<-|].
    - rewrite list_lookup_insert_eq by (by eapply lookup_lt_Some). by rewrite list_lookup_alter_eq, Hq.
    - by rewrite list_lookup_insert_ne, list_lookup_alter_ne by done. }
  assert (Es : v_queue_select (v_view d2) = i) by (by rewrite V2, V1).
  unfold vread. rewrite Es, Eq, list_lookup_insert_eq by (by eapply lookup_lt_Some). cbn [vq_msix with_msix]. rewrite Z.eqb_refl.
  change (assert_ true) with (Ret ()). run_monad.
  destruct (msix_config_ok Hmap Hwp c d2 k Hc) as (pba & k' & ->). rewrite X2, X1. run_monad.
  rewrite Interrupts.install_next by (done || lia). rewrite (proj2 (Z.ltb_lt (Interrupts.next_open t) 255)) by lia. run_monad.
  unfold msix_entry. cbn [msix_table table_size table_address]. rewrite (proj2 (Z.ltb_lt index _)) by lia. change (assert_ true) with (Ret ()). run_monad.
  rewrite umul_ok by lia. run_monad. replace (index * 16) with (16 * index) by lia.
  rewrite table_entry by lia. run_monad.
  destruct (set_vector_ok index e processor_id (Interrupts.next_open t) d2) as (d3 & control & -> & V3 & X3 & Hmask); [done|lia|lia|by rewrite X2, X1|].
  run_monad. unfold msix_enable, modify_at_reg, RegisterRW.modify_mut, RegisterRW.read, RegisterRW.write. cbn [msix_registers].
  rewrite (msix_register Hwp) by lia. run_monad. rewrite vf_read_control. run_monad. with_fields.
  do 2 eexists. split; [reflexivity|]. set (d4 := bus_write _ _ _ _).
  assert (W : vf_view d4 = mkMsixView _ (x_entries (vf_view d3)) ∧ v_view d4 = v_view d3) by apply vf_write_control.
  destruct W as [X4 V4]. rewrite X3 in X4. cbn [x_entries x_control] in X4. split_and!.
  - split; rewrite X4; cbn [x_control x_entries]; [by get_fields|]. exists control. split; [|done]. rewrite X2, X1.
    apply list_lookup_insert_eq. by eapply lookup_lt_Some.
  - by rewrite V4, V3.
  - rewrite V4, V3, V2, V1. done.
Qed.
End connect.

(** ** Setting up the queues leaves the MSI-X structure alone *)
Section keeps.
Context {x86 : X86_64} {x86_laws : X86_64Laws} {bf : Bitflags} {bc : BitfieldCrate} {bcl : BitfieldCrateLaws}.
Context {A : Type} {CA : ContiguousAllocator A}.
Context {D : Type} {bus : Bus D} {base common table : Z} {vf : VirtioFunction D base common table} {vfl : VirtioFunctionLaws D}.
Context (Hcommon : register_at common 0x40).
Implicit Types (d : D) (st : store * option A).
Import VirtIODeviceConfig VirtIOInitializedDevice.

Lemma write_keeps bytes off val d d' : 0 ≤ off < 0x40 → write_at_reg bytes common off val d = Ret d' → vf_view d' = vf_view d.
Proof.
  intros Ho. unfold write_at_reg, RegisterRW.write. rewrite (common_reg Hcommon) by lia. run_monad. intros [= <-]. by apply vf_write_common.
Qed.

Lemma read_keeps bytes off d v d' : (off, bytes) ∈ [(0x04, 4); (0x12, 2); (0x14, 1); (0x18, 2); (0x1A, 2); (0x1E, 2)] →
  read_at_reg bytes common off d = Ret (v, d') → vf_view d' = vf_view d.
Proof. intros Ho. rewrite (rd Hcommon) by done. by intros [= _ <-]. Qed.

(** Take a run apart, and follow the registers through it. *)
Ltac run_apart := repeat first [progress inv_ret | match goal with x : _ * _ |- _ => destruct x end].
Ltac keep := run_apart; repeat match goal with
  | H : write_at_reg _ common _ _ _ = Ret _ |- _ => apply write_keeps in H; [|lia]
  | H : read_at_reg _ common _ _ = Ret _ |- _ => apply read_keeps in H; [|set_solver]
  end; try congruence.

Lemma setup_queue_keeps i d st q d' st' : setup_queue common i d st = Ret (q, d', st') → vf_view d' = vf_view d.
Proof. unfold setup_queue. intros H. keep. Qed.

Lemma setup_queues_keeps n d st qs d' st' : setup_queues common n d st = Ret (qs, d', st') → vf_view d' = vf_view d.
Proof.
  unfold setup_queues. apply (foldM_preserve _ (λ s, vf_view s.1.2 = vf_view d)); [|done].
  intros i [[acc d0] st0] [[acc1 d1] st1] _ Hd H. run_apart. by erewrite setup_queue_keeps.
Qed.

Lemma get_features_keeps d f d' : get_device_features common d = Ret (f, d') → vf_view d' = vf_view d.
Proof.
  unfold get_device_features. apply (foldM_preserve _ (λ s, vf_view s.2 = vf_view d)); [|done].
  intros i [f0 d0] [f1 d1] _ Hd H. cbn in Hd |- *. keep.
Qed.

Lemma set_features_keeps f d d' : set_driver_features common f d = Ret d' → vf_view d' = vf_view d.
Proof.
  unfold set_driver_features. apply (foldM_preserve _ (λ s, vf_view s = vf_view d)); [|done]. intros i d0 d1 _ Hd H. keep.
Qed.

Lemma new_keeps narrow n d st f qs d' st' : new common narrow n d st = Ret (f, qs, d', st') → vf_view d' = vf_view d.
Proof.
  unfold new. intros H. run_apart.
  repeat match goal with
  | H : get_device_features _ _ = Ret _ |- _ => apply get_features_keeps in H
  | H : set_driver_features _ _ _ = Ret _ |- _ => apply set_features_keeps in H
  | H : setup_queues _ _ _ _ = Ret _ |- _ => apply setup_queues_keeps in H
  end. keep.
Qed.
End keeps.

(** ** A device of a known kind *)
Section probed.
Context {x86 : X86_64} {x86_laws : X86_64Laws} {bf : Bitflags} {bfl : BitflagsLaws} {bc : BitfieldCrate} {bcl : BitfieldCrateLaws}.
Context {A : Type} {CA : ContiguousAllocator A} {CAL : ContiguousAllocatorLaws A}.
Context {R D K : Type} {bus : Bus D} {dm : DeviceMapping K}.
Context {base common table : Z} {vf : VirtioFunction D base common table} {vfl : VirtioFunctionLaws D}.
Context (Hmap : ∀ pages (k : K), ∃ k', map_device_pages pages k = Ret k').
Context {l1 l2 : list Z} (Hwp : well_placed l1 l2).
Context (c : PCIDeviceConfig) (isr device : Z) (notify : VirtIONotifyConfig).
Context (Hid : device_id c = base) (Hregs : common_registers c = base).
Implicit Types (d : D) (k : K) (a : A) (m : store) (t : @Interrupts.table R D).
Import VirtIOInitializedDevice.

Definition config : VirtIODeviceConfig := config_of (base := base) (common := common) c isr device notify.

(** A device that can be probed: its features fit in 128 bits, it has queues of sizes
    that the standard allows, and an MSI-X table. *)
Record probeable d : Prop := {
  pb_offered : in_width 128 (v_offered (v_view d));
  pb_queues : 0 < zlen (v_queues (v_view d));
  pb_sizes : ∀ vq, vq ∈ v_queues (v_view d) → queue_size_ok (vq_size vq);
  pb_entry : is_Some (x_entries (vf_view d) !! 0%nat);
}.

(** A device at work: it runs with [features]; its first queue is enabled, uses the memory
    of [q], which is empty, and interrupts the processor 0 with the vector [v]. *)
Record running (features v : Z) {T} (q : VirtQueueData.t T) d : Prop := {
  rn_status : v_status (v_view d) = 15;
  rn_features : v_accepted (v_view d) = features;
  rn_queue : ∃ vq b1 b2 b3, v_queues (v_view d) !! 0%nat = Some vq ∧ queue_size_ok (vq_size vq) ∧ vq_msix vq = 0 ∧
    queue_ready 0 vq (VirtQueueData.queue q) ∧ q = fresh (vq_size vq) b1 b2 b3 0 (vq_notify_off vq);
  rn_interrupt : connected 0 0 v d;
}.

(** [handler_id] and [h] in the next open place *)
Definition installed (handler_id : Z) (h : @Interrupts.handler R D) t : Interrupts.table :=
  Interrupts.mkTable (<[Z.to_nat (Interrupts.next_open t) := (handler_id, h)]> (Interrupts.handlers t)) (Interrupts.next_open t + 1).

Lemma id_register off v d : (off, v) ∈ [(0x00, vf_vendor); (0x02, vf_id)] → read_at_reg 2 base off d = Ret (v, d).
Proof.
  intros Ho. unfold read_at_reg, RegisterRW.read. rewrite (function_register Hwp).
  - run_monad. rewrite (vf_read_word d off v); [done|]. set_solver.
  - rewrite !elem_of_cons, elem_of_nil in Ho. naive_solver lia.
Qed.

Lemma is_device_ok ids d : Probe.is_device ids config d = Ret ((vf_vendor =? 0x1af4) && bool_decide (vf_id ∈ ids), d).
Proof.
  unfold Probe.is_device. cbn [pci_config config config_of]. rewrite Hid, (id_register 0x00 vf_vendor) by set_solver. run_monad.
  destruct (vf_vendor =? 0x1af4); cbn [negb andb]; [|done]. by rewrite (id_register 0x02 vf_id) by set_solver.
Qed.

Lemma negotiate_width remove f : in_width 128 f → (∀ x, in_width 128 x → in_width 128 (remove x)) → in_width 128 (negotiate remove f).
Proof.
  intros Hf Hr. apply Hr. assert (Hd : ∀ x y, in_width 128 x → in_width 128 (flags_remove x y)); [|by repeat apply Hd].
  intros x y Hx. rewrite flags_remove_ok. apply in_width_testbit; [lia|apply Z.ldiff_nonneg; left; apply Hx|].
  intros i Hi. rewrite Z.ldiff_spec, (testbit_high 128 x) by (done || lia). done.
Qed.

(** The device is set up and its interrupts are connected, unless it refuses the features
    or memory runs out. *)
Lemma started_ok {T} ids remove handler_id h t d k m a :
  vf_id ∈ ids → probeable d → (∀ x, in_width 128 x → in_width 128 (remove x)) → frames_ok a →
  length (Interrupts.handlers t) = 256%nat → 0 ≤ Interrupts.next_open t < 255 →
  let features := negotiate remove (v_offered (v_view d)) in
  if v_accepts features then
    (∃ (q : VirtQueueData.t T) d1 d' k' m' a',
       Probe.from_device ids remove config d (m, Some a) = Ret (q, d1, (m', Some a')) ∧
       install_virtqueue_msix_handler 256 config (VirtQueue.queue_index (VirtQueueData.queue q)) 0 0 handler_id h t d1 k
         = Ret (installed handler_id h t, d', k') ∧
       running features (Interrupts.next_open t) q d' ∧ frames_ok a') ∨
    (Probe.from_device (T := T) ids remove config d (m, Some a) = Panic PanicExpect ∧ exhausted a)
  else Probe.from_device (T := T) ids remove config d (m, Some a) = Panic PanicAssert.
Proof.
  intros Hids [Hw Hq Hs [e He]] Hr Hok Ht Hn features.
  pose proof (virtio_device_initialized (wp_common _ _ Hwp) remove 1 d m a Hw (negotiate_width remove _ Hw Hr) Hq ltac:(lia) Hs Hok) as Hnew.
  cbv zeta in Hnew. fold features in Hnew. unfold Probe.from_device. cbn [pci_config config config_of common_virtio_config].
  rewrite Hid, (id_register 0x02 vf_id) by set_solver. run_monad. rewrite bool_decide_eq_true_2 by done. change (assert_ true) with (Ret ()). run_monad.
  destruct (v_accepts features); [|by rewrite Hnew]. destruct Hnew as [(qs & d1 & m' & a' & E & Hst & Hf & Hl & Hrd & Hok' & _)|[E Hex]]; [left|right; by rewrite E].
  rewrite E. run_monad. assert (Hl1 : zlen qs = 1) by lia. destruct qs as [|q [|? ?]]; [discriminate Hl1| |rewrite !zlen_cons in Hl1; pose proof (zlen_nonneg l); lia].
  destruct (Hrd 0%nat q eq_refl) as (vq & Hvq & Hready). pose proof (new_keeps (wp_common _ _ Hwp) _ _ _ _ _ _ _ _ E) as Hx.
  destruct (qr_fresh _ _ _ Hready) as (b1 & b2 & b3 & Hfresh).
  assert (Hi : VirtQueue.queue_index q = 0) by (by rewrite Hfresh).
  destruct (install_handler_ok Hmap Hwp c isr device notify 0 vq 0 e 0 handler_id h t d1 k) as (d' & k' & Ei & Hcn & Hvq' & C1 & C2 & C3);
    [done|done|done|pose proof (entries_bound (x_control (vf_view d1))); lia|by rewrite Hx|lia|done|done|].
  exists (VirtQueueData.new q), d1, d', k', m', a'. split; [done|]. cbn [VirtQueueData.queue VirtQueueData.new]. rewrite Hi. split; [exact Ei|].
  split; [|done]. split; [by rewrite C2|by rewrite C3| |done]. exists (with_msix 0 vq), b1, b2, b3. rewrite Hvq', list_lookup_insert_eq by (by eapply lookup_lt_Some).
  split_and!; [done|apply (qr_size _ _ _ Hready)|done| |by rewrite Hfresh].
  by destruct Hready.
Qed.

Lemma block_features_width x : in_width 128 x → in_width 128 (Probe.block_features x).
Proof.
  intros Hx. unfold Probe.block_features. rewrite !flags_remove_ok. apply in_width_testbit; [lia| |].
  - repeat (apply Z.ldiff_nonneg; left). apply Hx.
  - intros i Hi. rewrite !Z.ldiff_spec, (testbit_high 128 x) by (done || lia). done.
Qed.

(** A block device is appended to the kernel's; a device with another id is left alone. *)
Lemma try_init_block_ok (block_handler : @Interrupts.handler R D) t d k m a devices rng :
  probeable d → frames_ok a → length (Interrupts.handlers t) = 256%nat → 0 ≤ Interrupts.next_open t < 255 →
  let features := negotiate Probe.block_features (v_offered (v_view d)) in
  let s := mkProbing t d k (m, Some a) devices rng in
  let run := Probe.try_init_virtio_block block_handler 256 config s in
  if (vf_vendor =? 0x1af4) && bool_decide (vf_id ∈ BLOCK_VENDOR_IDS) then
    if v_accepts features then
      (∃ q d' k' m' a', run = Ret (mkProbing (installed (wrap 32 (zlen devices)) block_handler t) d' k' (m', Some a')
           (devices ++ [mkBlockDevice q]) rng) ∧ running features (Interrupts.next_open t) q d' ∧ frames_ok a') ∨
      (run = Panic PanicExpect ∧ exhausted a)
    else run = Panic PanicAssert
  else run = Ret s.
Proof.
  intros Hp Hok Ht Hn features s run. unfold run, s, Probe.try_init_virtio_block. cbn [pr_bus pr_mem pr_table pr_map pr_block pr_rng].
  rewrite is_device_ok. run_monad. destruct ((vf_vendor =? 0x1af4) && _) eqn:Hd; cbn [negb]; [|done].
  apply andb_true_iff in Hd as [_ Hids%bool_decide_eq_true_1].
  pose proof (started_ok (T := BlockDeviceDescData) BLOCK_VENDOR_IDS Probe.block_features (wrap 32 (zlen devices)) block_handler t d k m a
    Hids Hp block_features_width Hok Ht Hn) as Hs. cbv zeta in Hs. fold features in Hs. unfold Probe.block_from_device.
  destruct (v_accepts features); [|by rewrite Hs].
  destruct Hs as [(q & d1 & d' & k' & m' & a' & E1 & E2 & Hrun & Hok')|[E Hex]]; [left|right; by rewrite E].
  exists q, d', k', m', a'. rewrite E1. run_monad. cbn [virtqueue]. rewrite E2. by run_monad.
Qed.

(** An entropy device replaces the one the kernel had. *)
Lemma try_init_rng_ok (rng_handler : @Interrupts.handler R D) t d k m a devices rng :
  probeable d → frames_ok a → length (Interrupts.handlers t) = 256%nat → 0 ≤ Interrupts.next_open t < 255 →
  let features := negotiate (λ x, x) (v_offered (v_view d)) in
  let s := mkProbing t d k (m, Some a) devices rng in
  let run := Probe.try_init_virtio_rng rng_handler 256 config s in
  if (vf_vendor =? 0x1af4) && bool_decide (vf_id ∈ RNG_VENDOR_IDS) then
    if v_accepts features then
      (∃ q d' k' m' a', run = Ret (mkProbing (installed 1 rng_handler t) d' k' (m', Some a') devices (Some q)) ∧
         running features (Interrupts.next_open t) q d' ∧ frames_ok a') ∨
      (run = Panic PanicExpect ∧ exhausted a)
    else run = Panic PanicAssert
  else run = Ret s.
Proof.
  intros Hp Hok Ht Hn features s run. unfold run, s, Probe.try_init_virtio_rng, Probe.enable_msix. cbn [pr_bus pr_mem pr_table pr_map pr_block pr_rng].
  rewrite is_device_ok. run_monad. destruct ((vf_vendor =? 0x1af4) && _) eqn:Hd; cbn [negb]; [|done].
  apply andb_true_iff in Hd as [_ Hids%bool_decide_eq_true_1].
  pose proof (started_ok (T := VirtIORNGRequest) RNG_VENDOR_IDS (λ x, x) 1 rng_handler t d k m a Hids Hp (λ x H, H) Hok Ht Hn) as Hs.
  cbv zeta in Hs. fold features in Hs. unfold Probe.rng_from_device. destruct (v_accepts features); [|by rewrite Hs].
  destruct Hs as [(q & d1 & d' & k' & m' & a' & E1 & E2 & Hrun & Hok')|[E Hex]]; [left|right; by rewrite E].
  exists q, d', k', m', a'. rewrite E1. run_monad. rewrite E2. by run_monad.
Qed.

(** The whole of what a PCI function declares: the four structures of a virtio device,
    found by their capabilities, and a header of a general device *)
Record virtio_function (address : Z → Z) : Prop := {
  vn_location : device_base_address (location c) = Ret base;
  vn_vendor : vf_vendor = 0x1af4;
  vn_header : layout (vf_byte 0x0E) = Ok GeneralDevice;
  vn_structures : structures (l1 := l1) (l2 := l2) address isr device notify;
}.
Context (block_handler rng_handler : @Interrupts.handler R D) (address : Z → Z) (Hfun : virtio_function address).

Lemma probe_config t d k (mem : store * option A) devices rng :
  ∃ k', Probe.probe_device block_handler rng_handler 256 c (mkProbing t d k mem devices rng) =
    (s ← Probe.try_init_virtio_rng rng_handler 256 config (mkProbing t d k' mem devices rng);
     Probe.try_init_virtio_block block_handler 256 config s).
Proof.
  destruct Hfun as [Hl Hv Hh Hs]. destruct (config_found Hmap Hwp address c isr device notify d k) as [k' E]; [done..|].
  exists k'. unfold Probe.probe_device. cbn [pr_bus pr_map pr_table pr_mem pr_block pr_rng]. rewrite E. by run_monad.
Qed.

End probed.

(** ** A machine with a block device

    The device is at bus 0, device 3, function 0.  Its structures and its MSI-X table are
    in one 64-bit BAR; the capabilities are at 0x40, 0x50, 0x64, 0x74 and 0x84. *)
Module Example.
#[local] Existing Instances documented_x86_64 documented_x86_64_laws documented_bitflags documented_bitflags_laws.
#[local] Existing Instances documented_bitfield documented_bitfield_laws.

Definition ecam : Z := KERNEL_PHYSICAL_MAPPING_START + 0xb0000000.
Definition place : PCIDeviceLocation := mkLocation ecam 0 3 0.
Definition function_at : Z := ecam + 4096 * 24.
Definition bar_at : Z := KERNEL_PHYSICAL_MAPPING_START + 0xfe000000.
Definition table_at : Z := bar_at + 0x4000.

Definition bytes : list (Z * Z) :=
  [(0x34, 0x40);
   (0x40, 9); (0x41, 0x50); (0x42, 16); (0x43, 1);
   (0x50, 9); (0x51, 0x64); (0x52, 20); (0x53, 2);
   (0x64, 9); (0x65, 0x74); (0x66, 16); (0x67, 3);
   (0x74, 9); (0x75, 0x84); (0x76, 16); (0x77, 4);
   (0x84, 0x11)].
Definition longs : list (Z * Z) := [(0x58, 0x3000); (0x60, 4); (0x6c, 0x1000); (0x7c, 0x2000); (0x88, 0x4000); (0x8c, 0x5000)].
Fixpoint assoc (l : list (Z * Z)) (x : Z) : Z := match l with [] => 0 | (y, v) :: l => if x =? y then v else assoc l x end.

Record hw : Type := mkHw { hw_dev : vdev; hw_msix : msix_view }.

Definition in_function (a : Z) : bool := (function_at <=? a) && (a <? function_at + 4096).
Definition in_common (a : Z) : bool := (bar_at <=? a) && (a <? bar_at + 0x40).

#[local] Instance hw_bus : Bus hw := {|
  bus_read n a h :=
    (if in_function a then
       let off := a - function_at in
       if n =? 1 then assoc bytes off
       else if n =? 2 then if off =? 0x86 then x_control (hw_msix h) else assoc [(0, 0x1af4); (2, 0x1042); (6, 0x10)] off
       else if off <? 0x28 then assoc [(0x10, 0xfe000004)] off else assoc longs off
     else if in_common a then vread (a - bar_at) (hw_dev h)
     else match x_entries (hw_msix h) !! Z.to_nat ((a - table_at) / 16) with Some e => msg_control e | None => 0 end, h);
  bus_write n a v h :=
    if in_function a then mkHw (hw_dev h) (mkMsixView v (x_entries (hw_msix h)))
    else if in_common a then mkHw (vwrite VirtioInitThms.Example.version_1 (a - bar_at) v (hw_dev h)) (hw_msix h)
    else mkHw (hw_dev h) (mkMsixView (x_control (hw_msix h))
           (alter (message_write ((a - table_at) mod 16) v) (Z.to_nat ((a - table_at) / 16)) (x_entries (hw_msix h))));
|}.

#[local] Instance hw_device : VirtioDevice hw bar_at := {| v_view := hw_dev; v_accepts := VirtioInitThms.Example.version_1 |}.
#[local] Instance hw_function : VirtioFunction hw function_at bar_at table_at := {|
  vf_byte := assoc bytes; vf_vendor := 0x1af4; vf_id := 0x1042; vf_status := 0x10;
  vf_bars := [DeclMem64 0xfe000000 false; NoBar; NoBar; NoBar; NoBar]; vf_msix := 0x84; vf_long := assoc longs; vf_view := hw_msix;
|}.

Lemma places_apart : function_at + 4096 ≤ bar_at ∧ bar_at + 0x40 ≤ table_at.
Proof. unfold table_at, bar_at, function_at, ecam. lia. Qed.

Lemma function_true off : 0 ≤ off < 4096 → in_function (function_at + off) = true.
Proof. unfold in_function. lia. Qed.
Lemma common_true off : 0 ≤ off < 0x40 → in_function (bar_at + off) = false ∧ in_common (bar_at + off) = true.
Proof. pose proof places_apart. unfold in_function, in_common. lia. Qed.
Lemma table_false off : 0 ≤ off → in_function (table_at + off) = false ∧ in_common (table_at + off) = false.
Proof. pose proof places_apart. unfold in_function, in_common. lia. Qed.

#[local] Instance hw_device_laws : VirtioDeviceLaws hw.
Proof.
  split.
  - intros n off v d Ho. assert (0 ≤ off < 0x40) by (rewrite !elem_of_cons, elem_of_nil in Ho; naive_solver lia).
    cbn -[vwrite]. destruct (common_true off) as [-> ->]; [done|]. cbn -[vwrite]. by replace (bar_at + off - bar_at) with off by lia.
  - intros n off d Ho. assert (0 ≤ off < 0x40) by (rewrite !elem_of_cons, elem_of_nil in Ho; naive_solver lia).
    cbn -[vread]. destruct (common_true off) as [-> ->]; [done|]. by replace (bar_at + off - bar_at) with off by lia.
Qed.

Lemma message_place i off : 0 ≤ off < 16 →
  Z.to_nat ((table_at + 16 * Z.of_nat i + off - table_at) / 16) = i ∧ (table_at + 16 * Z.of_nat i + off - table_at) mod 16 = off.
Proof. intros Ho. replace (table_at + 16 * Z.of_nat i + off - table_at) with (off + Z.of_nat i * 16) by lia. rewrite Z.div_add, Z_mod_plus_full by lia. zdm. Qed.

#[local] Instance hw_function_laws : VirtioFunctionLaws hw.
Proof.
  split.
  - apply _.
  - intros d off Ho. cbn -[assoc]. rewrite function_true by lia. by replace (function_at + off - function_at) with off by lia.
  - intros d off v Ho. rewrite !elem_of_cons, elem_of_nil in Ho.
    destruct Ho as [[= -> ->]|[[= -> ->]|[[= -> ->]|[]]]]; cbn -[function_at]; by rewrite function_true by lia.
  - intros d i v Hi. pose proof (lookup_lt_Some _ _ _ Hi) as Hl. cbn in Hl.
    cbn -[assoc]. rewrite function_true by lia. replace (function_at + (16 + 4 * Z.of_nat i) - function_at) with (16 + 4 * Z.of_nat i) by lia.
    by do 6 (destruct i as [|i]; [by injection Hi as <-|]).
  - intros d. cbn -[assoc]. rewrite <-Z.add_assoc, function_true by lia.
    by replace (function_at + (132 + 2) - function_at) with 134 by lia.
  - intros d off Ho Hm. cbn -[assoc]. rewrite function_true by lia. replace (function_at + off - function_at) with off by lia.
    by replace (off <? 40) with false by lia.
  - intros v d. cbn -[assoc]. by rewrite <-Z.add_assoc, function_true by lia.
  - intros d i e He. cbn -[assoc]. rewrite <-Z.add_assoc. destruct (table_false (16 * Z.of_nat i + 12)) as [-> ->]; [lia|].
    rewrite Z.add_assoc. destruct (message_place i 12) as [-> _]; [lia|]. cbn in He. by rewrite He.
  - intros d i e off v He Ho. assert (0 ≤ off < 16) by (rewrite !elem_of_cons, elem_of_nil in Ho; naive_solver lia).
    cbn -[assoc]. rewrite <-Z.add_assoc. destruct (table_false (16 * Z.of_nat i + off)) as [-> ->]; [lia|].
    rewrite Z.add_assoc. destruct (message_place i off) as [-> ->]; [lia|]. split; [|done]. cbn in He |- *. f_equal.
    apply list_eq. intros j. destruct (decide (i = j)) as [<-|].
    + rewrite list_lookup_insert_eq by (by eapply lookup_lt_Some). by rewrite list_lookup_alter_eq, He.
    + by rewrite list_lookup_insert_ne, list_lookup_alter_ne.
  - intros n off v d Ho. cbn -[assoc vwrite]. by destruct (common_true off) as [-> ->].
Qed.

#[local] Instance unit_mapping : DeviceMapping () := {| map_device_pages _ k := Ret k |}.

Lemma unit_maps pages (k : ()) : ∃ k', map_device_pages pages k = Ret k'.
Proof. by exists k. Qed.

Definition function : PCIDeviceConfig := mkConfig place function_at function_at.
Definition addresses (x : Z) : Z := bar_at + assoc longs (x + 8).

Lemma hw_well_placed : well_placed [0x40; 0x50; 0x64; 0x74] [].
Proof.
  assert (Hp : ∀ bits, Z.land bits 7 = 0 → 0 ≤ table_offset bits ≤ 0x5000 → places bits (bar_at + table_offset bits)).
  { intros bits Hb Hr. exists (Mem64Bit 0xfe000000 false), 0xfe000000. unfold bar_indicator_register. rewrite Hb.
    split_and!; [done|done|done|lia|unfold bar_at; lia|].
    unfold bar_at, KERNEL_PHYSICAL_MAPPING_START, KERNEL_PHYSICAL_MAPPING_END, HIGHER_HALF_START. lia. }
  split; [vm_compute; split; discriminate|vm_compute; split; discriminate|done| |done| |done| |done| |].
  - repeat (apply chain_step; [vm_compute; split; reflexivity|]). apply chain_end.
  - intros x Hx. rewrite !elem_of_cons, elem_of_nil in Hx. naive_solver.
  - repeat (apply Forall_cons_2; [first [exact I|split; [lia|reflexivity]]|]). apply Forall_nil_2.
  - apply (Hp 0x4000); [done|vm_compute; split; discriminate].
  - eexists. apply (Hp 0x5000); [done|vm_compute; split; discriminate].
Qed.

Lemma hw_virtio_function :
  virtio_function (l1 := [0x40; 0x50; 0x64; 0x74]) (l2 := []) function (bar_at + 0x1000) (bar_at + 0x2000) (mkNotify (bar_at + 0x3000) 4) addresses.
Proof.
  split; [done..|].
  split; try done. intros x Hx Hv. change (x ∈ [0x40; 0x50; 0x64; 0x74; 0x84]) in Hx. rewrite !elem_of_cons, elem_of_nil in Hx.
    destruct Hx as [->|[->|[->|[->|[->|[]]]]]]; try discriminate Hv.
    all: split; [lia|split; [done|intros; done]|by eexists|by vm_compute|intros _].
    all: exists (Mem64Bit 0xfe000000 false), 0xfe000000; unfold addresses, bar_at, KERNEL_PHYSICAL_MAPPING_START,
      KERNEL_PHYSICAL_MAPPING_END, HIGHER_HALF_START; split_and!; try done; cbn; lia.
Qed.

Definition hw0 : hw := mkHw VirtioInitThms.Example.vdev0 (mkMsixView 1 [mkMessage 0 0 1; mkMessage 0 0 1]).
Definition no_handler : @Interrupts.handler () hw := λ _ _, Ret.

End Example.
