(* ===== verification/Shell.v ===== *)
(** * The shell ([kernel/src/shell.rs], [kernel/src/ansiterm.rs])

    The line editor, the parser of commands and their execution.  The serial port is the
    bytes still to be read and what was written; text of [serial_println!] is kept as its
    format and arguments.  What the commands call in other parts is the interface
    [ShellKernel]. *)
From S2P Require Import Prelude Ext2Dir Vfs Cells Sched VirtioBlock Text.
#[local] Open Scope Z_scope.

(** ** Escape sequences ([ansiterm.rs]) *)
Module AnsiTerm.
Definition ANSI_ESCAPE : Z := 27.

Inductive Color : Type := Black | Red | Green | Yellow | Blue | Magenta | Cyan | White.

Definition foreground_byte (c : Color) : Z :=
  match c with
  | Black => 30 | Red => 31 | Green => 32 | Yellow => 33 | Blue => 34 | Magenta => 35 | Cyan => 36 | White => 37
  end.
Definition background_byte (c : Color) : Z :=
  match c with
  | Black => 40 | Red => 41 | Green => 42 | Yellow => 43 | Blue => 44 | Magenta => 45 | Cyan => 46 | White => 47
  end.

Inductive SelectGraphicRendition : Type :=
| SgrReset | Bold | ForegroundColor (c : Color) | BackgroundColor (c : Color) | DefaultForegroundColor | DefaultBackgroundColor.

Definition sgr_fmt (s : SelectGraphicRendition) : list Z :=
  match s with
  | SgrReset => str "0"
  | Bold => str "1"
  | ForegroundColor color => decimal (foreground_byte color)
  | BackgroundColor color => decimal (background_byte color)
  | DefaultForegroundColor => str "39"
  | DefaultBackgroundColor => str "49"
  end ++ str "m".

Inductive AnsiEscapeSequence : Type :=
| Sgr (s : SelectGraphicRendition) | MoveCursorTopLeft | ClearScreenFromCursorToEnd | ClearEntireLine.

Definition fmt (s : AnsiEscapeSequence) : list Z :=
  ANSI_ESCAPE :: str "[" ++
  match s with
  | Sgr s => sgr_fmt s
  | MoveCursorTopLeft => str "H"
  | ClearScreenFromCursorToEnd => str "J"
  | ClearEntireLine => str "2K"
  end.

Definition CLEAR_FORMAT : AnsiEscapeSequence := Sgr SgrReset.
Definition BOLD : AnsiEscapeSequence := Sgr Bold.
Definition GREEN : AnsiEscapeSequence := Sgr (ForegroundColor Green).
End AnsiTerm.

(** ** Commands *)
Inductive VirtIOBlockCommand : Type :=
| BlockList
| BlockRead (device_id sector : Z)
| BlockWrite (device_id sector data : Z)
| BlockID (device_id : Z).

Inductive MountTarget : Type := MountDevice (device_id : Z) | MountSysfs.

Record ExecCommand : Type := mkExec { exec_path : FilePath.t; exec_args : list (list Z); num_processes : Z }.

Inductive PrimeCommand : Type := PrimeSync (nth_prime : Z) | PrimeAsync (nth_prime num_processes : Z).

Inductive Command : Type :=
| CTest | CExit | CBacktrace | CListPCI | CListVirtIO | CBootInfo | CPrintACPI | CPageTable
| CRNG (num_bytes : Z)
| CVirtIOBlock (c : VirtIOBlockCommand)
| CMount (target : MountTarget)
| CUnmount
| CLs (path : FilePath.t)
| CCat (path : FilePath.t)
| CExec (c : ExecCommand)
| CWriteFramebuffer (content : list Z)
| CWriteToFile (path : FilePath.t) (content : list Z)
| CFATBIOS (device_id : Z)
| CTimer (ms : Z)
| CSleep (ms : Z)
| CPrime (c : PrimeCommand).

(** ** Output *)
Inductive word_error : Type := IntError (e : int_error) | EmptyPath.

Inductive arg : Type :=
| ArgNum (n : Z) | ArgText (s : list Z) | ArgLossy (s : list Z) | ArgBytes (bs : list Z) | ArgWords (ws : list (list Z))
| ArgError (e : word_error) | ArgPathError (e : VfsOps.path_error) | ArgPath (p : FilePath.t) | ArgCommand (c : Command)
| ArgResponse (r : VirtIOBlockResponse) | ArgExit (e : option TaskExitCode).

(** What is written to the serial port and to the log *)
Inductive out : Type :=
| Byte (b : Z)
| Println (format : string) (args : list arg)
| Log (format : string) (args : list arg).

(** ** Computations on a state that may also end early *)
Definition M (S A : Type) : Type := S → outcome (option A * S).
#[export] Instance M_ret S : MRet (M S) := λ A a s, Ret (Some a, s).
#[export] Instance M_bind S : MBind (M S) := λ A B f m s,
  '(a, s) ← m s;
  match a with Some a => f a s | None => Ret (None, s) end.
Definition none {S A} : M S A := λ s, Ret (None, s).
Definition get_state {S} : M S S := λ s, Ret (Some s, s).
Definition modify_state {S} (f : S → S) : M S unit := λ s, Ret (Some (), f s).

Fixpoint foldS {St A B} (f : A → B → M St B) (l : list A) (b : B) : M St B :=
  match l with [] => mret b | a :: l => b ← f a b; foldS f l b end.

(** ** Parsing: the words left and what was printed; [none] is the operator [?] on [None]. *)
Module Parse.
Record state : Type := mk { words : list (list Z); printed : list out }.

Definition println (format : string) (args : list arg) : M state unit :=
  modify_state (λ s, mk (words s) (printed s ++ [Println format args])).

(** [words.next()] *)
Definition next : M state (option (list Z)) := λ s,
  match words s with
  | [] => Ret (Some None, s)
  | w :: ws => Ret (Some (Some w), mk ws (printed s))
  end.

(** The [FromStr] implementations used: integers, strings and paths *)
Definition uint (w : Z) (s : list Z) : outcome (result Z word_error) :=
  mret (match from_str_uint w s with Ok n => Ok n | Err e => Err (IntError e) end).
Definition text (s : list Z) : outcome (result (list Z) word_error) := mret (Ok s).
Definition path (s : list Z) : outcome (result FilePath.t word_error) :=
  p ← FilePath.parse s;
  mret (match p with Some p => Ok p | None => Err EmptyPath end).

Definition parse_word {T} (from_str : list Z → outcome (result T word_error)) (word : list Z) (name : string) : M state T := λ s,
  parsed ← from_str word;
  match parsed with
  | Ok parsed => Ret (Some parsed, s)
  | Err e => (println "Invalid {name}: {word}, error: {e}" [ArgText (str name); ArgText word; ArgError e] ≫= λ _, none) s
  end.

Definition parse_next_word {T} (from_str : list Z → outcome (result T word_error)) (name usage_msg : string) : M state T := λ s,
  '(val, s) ← (w ← next; match w with Some word => parse_word from_str word name | None => none end) s;
  match val with
  | Some val => Ret (Some val, s)
  | None => (println "Usage: {usage_msg}" [ArgText (str usage_msg)] ≫= λ _, none) s
  end.

Definition is_word (w : list Z) (s : string) : bool := bool_decide (w = str s).

Definition usage (msg : string) : M state Command := _ ← println "Usage: {usage}" [ArgText (str msg)]; none.

Definition abandon (format : string) : M state Command := _ ← println format []; none.

Definition block : M state Command :=
  w ← next;
  match w with
  | Some w =>
      if is_word w "list" then mret (CVirtIOBlock BlockList)
      else if is_word w "read" then
        let usage := "block read <device_id> <sector>"%string in
        device_id ← parse_next_word (uint 64) "device ID" usage;
        sector ← parse_next_word (uint 64) "sector number" usage;
        mret (CVirtIOBlock (BlockRead device_id sector))
      else if is_word w "write" then
        let usage := "block write <device_id> <sector> <number>"%string in
        device_id ← parse_next_word (uint 64) "device ID" usage;
        sector ← parse_next_word (uint 64) "sector number" usage;
        data ← parse_next_word (uint 64) "number" usage;
        mret (CVirtIOBlock (BlockWrite device_id sector data))
      else if is_word w "id" then
        device_id ← parse_next_word (uint 64) "device ID" "block id <device_id>";
        mret (CVirtIOBlock (BlockID device_id))
      else abandon "Usage: block [list|read|id]"
  | None => abandon "Usage: block [list|read|id]"
  end.

Definition mount : M state Command :=
  w ← next;
  match w with
  | Some w =>
      if is_word w "sysfs" then mret (CMount MountSysfs)
      else device_id ← parse_word (uint 64) w "device ID"; mret (CMount (MountDevice device_id))
  | None => usage "mount <device_id> | sysfs"
  end.

Definition prime : M state Command :=
  let u := "prime <sync|async> <nth_prime>"%string in
  w ← next;
  let sync := match w with
              | Some w => if is_word w "sync" then Some true else if is_word w "async" then Some false else None
              | None => None
              end in
  match sync with
  | None => usage u
  | Some sync =>
      nth_prime ← parse_next_word (uint 64) "prime number index" u;
      if sync : bool then mret (CPrime (PrimeSync nth_prime))
      else
        num_processes ← parse_next_word (uint 64) "num processes" "prime async <nth_prime> <num_processes>";
        mret (CPrime (PrimeAsync nth_prime num_processes))
  end.

(** [words.by_ref()] to the end *)
Definition rest : M state (list (list Z)) := λ s, Ret (Some (words s), mk [] (printed s)).

(** The [match] on the first word *)
Definition command (command_str w : list Z) : M state Command :=
  if is_word w "test" then mret CTest
  else if is_word w "exit" then mret CExit
  else if is_word w "backtrace" then mret CBacktrace
  else if is_word w "list-pci" then mret CListPCI
  else if is_word w "list-virtio" then mret CListVirtIO
  else if is_word w "boot-info" then mret CBootInfo
  else if is_word w "print-acpi" then mret CPrintACPI
  else if is_word w "page-table" then mret CPageTable
  else if is_word w "rng" then
    num_bytes ← parse_next_word (uint 32) "num bytes" "rng <num_bytes>";
    mret (CRNG num_bytes)
  else if is_word w "block" then block
  else if is_word w "mount" then mount
  else if is_word w "umount" then mret CUnmount
  else if is_word w "ls" then path ← parse_next_word path "path" "ls <path>"; mret (CLs path)
  else if is_word w "cat" then path ← parse_next_word path "path" "cat <path>"; mret (CCat path)
  else if is_word w "exec" then
    let usage := "exec <nproc> <path> [args]..."%string in
    num_processes ← parse_next_word (uint 64) "num processes" usage;
    path ← parse_next_word path "path" usage;
    args ← rest;
    mret (CExec (mkExec path args num_processes))
  else if is_word w "write-framebuffer" then
    words ← rest;
    mret (CWriteFramebuffer (foldl (λ content word, content ++ word ++ [32]) [] words))
  else if is_word w "write-to-file" then
    path ← parse_next_word path "path" "write-to-file <path> <content>";
    content ← parse_next_word text "content" "write-to-file <path> <content>";
    mret (CWriteToFile path content)
  else if is_word w "fat" then
    w ← next;
    if match w with Some w => is_word w "bios" | None => false end then
      device_id ← parse_next_word (uint 64) "device ID" "fat bios <device_id>";
      mret (CFATBIOS device_id)
    else abandon "Usage: fat [bios]"
  else if is_word w "timer" then
    milliseconds ← parse_next_word (uint 64) "milliseconds" "timer <milliseconds>";
    mret (CTimer milliseconds)
  else if is_word w "sleep" then
    milliseconds ← parse_next_word (uint 64) "milliseconds" "sleep <milliseconds>";
    mret (CSleep milliseconds)
  else if is_word w "prime" then prime
  else
    _ ← println "Unknown command: {:?}" [ArgText command_str];
    none.

(** The command of the first word, and no words left over *)
Definition whole_line (command_str w : list Z) : M state Command :=
  c ← command command_str w;
  s ← get_state;
  match words s with
  | [] => mret c
  | remaining =>
      _ ← println "Too many arguments. Parsed command: {command:?}, remaining args: {remaining}"
            [ArgCommand c; ArgText (join_words remaining)];
      none
  end.

Definition line (command_str : list Z) : M state Command :=
  w ← next;
  match w with None => none | Some w => whole_line command_str w end.

Definition parse_command (buffer : list Z) : outcome (option Command * list out) :=
  match Utf8.from_utf8 buffer with
  | None => mret (None, [Println "Invalid UTF-8 in command: {:?}" [ArgBytes buffer]])
  | Some command_str =>
      '(c, s) ← line command_str (mk (split_whitespace command_str) []);
      mret (c, printed s)
  end.
End Parse.

(** ** What the commands call *)

(** Commands that print what another part reports *)
Inductive report : Type :=
| StackTrace | PCIDevices | VirtIODevices | BootInformation | LimineMemoryMap | ACPIInformation | PageTableTest | BlockDevices.

Class ShellVfs (K I : Type) : Type := {
  sh_get_path_inode : FilePath.t → K → outcome (result (inode_type I) VfsOps.path_error * K);
  (** names and types of the entries *)
  sh_subdirectories : I → K → outcome (list (list Z * DirectoryEntryType) * K);
  sh_read_all : I → K → outcome (list Z * K);
  sh_create_file : I → list Z → K → outcome (option I * K);
  sh_write : I → list Z → K → outcome (bool * K);
  sh_mount_ext2 : Z → K → outcome K;
  sh_mount_sysfs : K → outcome K;
  sh_unmount : K → outcome K;
}.

Class ShellKernel (K : Type) : Type := {
  (** the lines printed, as text *)
  sh_report : report → K → outcome (list (list Z) * K);
  sh_run_test_suite : K → outcome K;
  sh_exit_qemu : Z → K → outcome K;
  (** a request together with [wait_sleep] on its channel *)
  sh_random_numbers : Z → K → outcome (list Z * K);
  sh_block_read : Z → Z → Z → K → outcome (VirtIOBlockResponse * K);
  sh_block_write : Z → Z → list Z → K → outcome (VirtIOBlockResponse * K);
  sh_block_get_id : Z → K → outcome (VirtIOBlockResponse * K);
  sh_response_data : VirtIOBlockReadResponse → K → outcome (list Z * K);
  sh_new_userspace_task : FilePath.t → list (list Z) → K → outcome (Z * K);
  sh_calculate_prime_task : list Z → Z → K → outcome (Z * K);
  sh_run_scheduler : K → outcome K;
  sh_wait_on_task : Z → K → outcome (option TaskExitCode * K);
  sh_add_timer : Z → K → outcome K;
  sh_sleep_timeout : Z → K → outcome K;
  sh_write_text_buffer : list Z → K → outcome K;
}.

(** [kernel/src/vfs] is what the commands on files call; the file system mounted is the
    whole state of the interface, and the two ways to make one are parameters. *)
Section vfs.
Context {FS I E : Type} `{!Vfs FS I E}.
Variable ext2_read : Z → outcome FS.
Variable sysfs : FS.
Variable fuel : nat.

Definition with_root {A} (f : FS → outcome (A * FS)) (root : option FS) : outcome (A * option FS) :=
  match root with
  | Some fs => '(a, fs) ← f fs; Ret (a, Some fs)
  | None => Panic PanicExpect
  end.

Definition vfs_subdirectories (dir : I) (fs : FS) : outcome (list (list Z * DirectoryEntryType) * FS) :=
  '(entries, fs) ← subdirectories fs dir;
  mret (map (λ e, (entry_name e, entry_type e)) entries, fs).
Definition vfs_read_all (file : I) (fs : FS) : outcome (list Z * FS) :=
  bytes ← VfsOps.read_all fuel fs file;
  mret (bytes, fs).
Definition vfs_write (file : I) (content : list Z) (fs : FS) : outcome (bool * FS) :=
  '(r, _, fs) ← write_file fs file content;
  mret (r, fs).
Definition vfs_mount_ext2 (device_id : Z) (root : option FS) : outcome (option FS) :=
  fs ← ext2_read device_id;
  mret (VfsOps.mount_root_filesystem root fs).

Definition shell_vfs : ShellVfs (option FS) I := {|
  sh_get_path_inode := λ path root, VfsOps.get_path_inode root path;
  sh_subdirectories := λ dir, with_root (vfs_subdirectories dir);
  sh_read_all := λ file, with_root (vfs_read_all file);
  sh_create_file := λ dir name, with_root (λ fs, create_file fs dir name);
  sh_write := λ file content, with_root (vfs_write file content);
  sh_mount_ext2 := vfs_mount_ext2;
  sh_mount_sysfs := λ root, Ret (VfsOps.mount_root_filesystem root sysfs);
  sh_unmount := λ root, Ret (VfsOps.unmount_root_filesystem root);
|}.
End vfs.

(** ** The shell *)
Module Shell.
Definition MAX_SIZE : Z := 512.

(** The bytes the serial port will receive, what was written so far,
    [NEXT_COMMAND_BUFFER], and the rest of the kernel *)
Record world (K : Type) : Type := mk { input : list Z; output : list out; buffer : list Z; kernel : K }.
Arguments mk {K} _ _ _ _.
Arguments input {K} _.
Arguments output {K} _.
Arguments buffer {K} _.
Arguments kernel {K} _.

Section shell.
Context {K I : Type} `{!ShellVfs K I, !ShellKernel K}.
Notation W := (world K).

Definition emit (o : list out) : M W unit := modify_state (λ w, mk (input w) (output w ++ o) (buffer w) (kernel w)).
Definition println (format : string) (args : list arg) : M W unit := emit [Println format args].
Definition log (format : string) (args : list arg) : M W unit := emit [Log format args].
Definition write_byte (b : Z) : M W unit := emit [Byte b].
Definition set_buffer (b : list Z) : M W unit := modify_state (λ w, mk (input w) (output w) b (kernel w)).

(** [serial1_read_byte]: with nothing more to read the shell keeps waiting, and the
    computation ends here. *)
Definition read_byte : M W Z := λ w,
  match input w with
  | [] => Ret (None, w)
  | c :: rest => Ret (Some c, mk rest (output w) (buffer w) (kernel w))
  end.

(** A call into another part of the kernel *)
Definition call {A} (f : K → outcome (A * K)) : M W A := λ w,
  '(a, k) ← f (kernel w);
  Ret (Some a, mk (input w) (output w) (buffer w) k).
Definition call_ (f : K → outcome K) : M W unit := call (λ k, k ← f k; mret ((), k)).
Definition print_report (r : report) : M W unit :=
  texts ← call (sh_report r);
  emit ((λ t, Println "{}" [ArgText t]) <$> texts).

(** *** [ShellBuffer] *)
Definition add_char (c : Z) : M W bool :=
  w ← get_state;
  if zlen (buffer w) <? MAX_SIZE - 1 then _ ← set_buffer (buffer w ++ [c]); mret true else mret false.

Definition delete_char : M W bool :=
  w ← get_state;
  match rev (buffer w) with
  | [] => mret false
  | _ :: l => _ ← set_buffer (rev l); mret true
  end.

Definition clear : M W unit := set_buffer [].

Definition reset_terminal_line : M W unit := emit (Byte <$> AnsiTerm.fmt AnsiTerm.ClearEntireLine ++ [13]).

Definition prompt : list Z :=
  AnsiTerm.fmt AnsiTerm.GREEN ++ AnsiTerm.fmt AnsiTerm.BOLD ++ str "ksh > " ++ AnsiTerm.fmt AnsiTerm.CLEAR_FORMAT.

Definition redraw_buffer : M W unit :=
  _ ← reset_terminal_line;
  _ ← emit (Byte <$> prompt);
  w ← get_state;
  emit (Byte <$> buffer w).

(** *** [run_command] *)
Definition block_command (c : VirtIOBlockCommand) : M W unit :=
  match c with
  | BlockList => print_report BlockDevices
  | BlockRead device_id sector =>
      _ ← println "Reading VirtIO block sector {sector}..." [ArgNum sector];
      response ← call (sh_block_read device_id sector 1);
      match response with
      | ReadResponse response =>
          data ← call (sh_response_data response);
          println "Got block data: {:x?}" [ArgBytes data]
      | _ => log "Unexpected response from block request: {response:x?}" [ArgResponse response]
      end
  | BlockWrite device_id sector data =>
      _ ← println "Reading VirtIO block sector {sector}..." [ArgNum sector];
      let data := (λ i, Z.shiftr data (8 * i) mod 256) <$> range 0 8 in
      response ← call (sh_block_write device_id sector data);
      match response with
      | WriteResponse => println "Write success" []
      | _ => log "Unexpected response from block request: {response:x?}" [ArgResponse response]
      end
  | BlockID device_id =>
      _ ← println "Reading VirtIO block device ID..." [];
      response ← call (sh_block_get_id device_id);
      match response with
      | GetIDResponse id => println "Got block ID: {id}" [ArgText id]
      | _ => log "Unexpected response from block request: {response:x?}" [ArgResponse response]
      end
  end.

Definition ls (path : FilePath.t) : M W unit :=
  _ ← println "ls: {path:?}" [ArgPath path];
  inode ← call (sh_get_path_inode path);
  match inode with
  | Err e => log "Failed to get inode for path: {e:?}" [ArgPathError e]
  | Ok (File _) => println "Not a directory" []
  | Ok (Directory dir) =>
      entries ← call (sh_subdirectories dir);
      emit ((λ '(name, type),
        Println "{}{}" [ArgText name; ArgText (match type with EntryDirectory => str "/" | EntryFile => [] end)]) <$> entries)
  end.

Definition cat (path : FilePath.t) : M W unit :=
  _ ← println "cat: {path:?}" [ArgPath path];
  inode ← call (sh_get_path_inode path);
  match inode with
  | Err e => log "Failed to get inode for path: {e:?}" [ArgPathError e]
  | Ok (Directory _) => println "Not a file" []
  | Ok (File file) =>
      bytes ← call (sh_read_all file);
      println "{}" [ArgLossy bytes]
  end.

Definition exec (c : ExecCommand) : M W unit :=
  _ ← println "Executing {path} with num processes {num_processes}, args {args:?}"
        [ArgPath (exec_path c); ArgNum (num_processes c); ArgWords (exec_args c)];
  task_ids ← foldS (λ _ task_ids,
    task_id ← call (sh_new_userspace_task (exec_path c) (exec_args c));
    mret (task_ids ++ [task_id])) (range 0 (num_processes c)) [];
  _ ← call_ sh_run_scheduler;
  foldS (λ task_id _,
    _ ← println "Waiting for userspace task {task_id:?} to finish..." [ArgNum task_id];
    exit_code ← call (sh_wait_on_task task_id);
    println "Task {task_id:?} finished! Exit code: {exit_code:?}" [ArgNum task_id; ArgExit exit_code]) task_ids ().

Definition write_to_file (path : FilePath.t) (content : list Z) : M W unit :=
  let write file := _ ← call (sh_write file content); mret () in
  inode ← call (sh_get_path_inode path);
  match inode with
  | Ok (File file) => write file
  | Ok (Directory _) => println "Not a file" []
  | Err _ =>
      match FilePath.split_dirname_filename path with
      | None => println "Parent directory path doesn't exist. Did you try to write to the root directory?" []
      | Some (parent_path, filename) =>
          parent_inode ← call (sh_get_path_inode path);
          match parent_inode with
          | Err e => log "Parent directory '{parent_path}' not found: {e:?}" [ArgPath parent_path; ArgPathError e]
          | Ok (File _) => println "Parent path '{parent_path}' is not a directory" [ArgPath parent_path]
          | Ok (Directory parent_dir) =>
              file ← call (sh_create_file parent_dir filename);
              match file with
              | None => println "Failed to create inode" []
              | Some file => write file
              end
          end
      end
  end.

Definition fat_bios (device_id : Z) : M W unit :=
  response ← call (sh_block_read device_id 0 1);
  match response with
  | ReadResponse response =>
      data ← call (sh_response_data response);
      println "BIOS Parameter Block: {:#x?}" [ArgBytes data]
  | _ => log "Unexpected response from block request: {response:x?}" [ArgResponse response]
  end.

Definition prime_command (c : PrimeCommand) : M W unit :=
  match c with
  | PrimeSync nth_prime =>
      task_id ← call (sh_calculate_prime_task (str "prime sync " ++ decimal nth_prime) nth_prime);
      _ ← println "Waiting for task {task_id:?} to finish..." [ArgNum task_id];
      exit_code ← call (sh_wait_on_task task_id);
      println "Task {task_id:?} finished! Exit code: {exit_code:?}" [ArgNum task_id; ArgExit exit_code]
  | PrimeAsync nth_prime num_processes =>
      _ ← println "spawning {num_processes} processes to calculate {nth_prime}th prime" [ArgNum num_processes; ArgNum nth_prime];
      _ ← foldS (λ i _,
        _ ← call (sh_calculate_prime_task (str "prime async " ++ decimal nth_prime ++ [32] ++ decimal i) nth_prime);
        mret ()) (range 0 num_processes) ();
      call_ sh_run_scheduler
  end.

Definition run_command (c : Command) : M W unit :=
  match c with
  | CTest => call_ sh_run_test_suite
  | CExit => _ ← println "Exiting..." []; call_ (sh_exit_qemu 0x10)
  | CBacktrace => print_report StackTrace
  | CListPCI => _ ← println "Listing PCI devices..." []; print_report PCIDevices
  | CListVirtIO => _ ← println "Listing virtio devices..." []; print_report VirtIODevices
  | CBootInfo =>
      _ ← println "Printing boot info..." [];
      _ ← print_report BootInformation;
      print_report LimineMemoryMap
  | CPrintACPI => _ ← println "Printing ACPI info..." []; print_report ACPIInformation
  | CPageTable => print_report PageTableTest
  | CRNG num_bytes =>
      _ ← println "Generating random numbers..." [];
      buffer ← call (sh_random_numbers num_bytes);
      println "Got RNG buffer: {buffer:x?}" [ArgBytes buffer]
  | CVirtIOBlock c => block_command c
  | CMount (MountDevice device_id) =>
      _ ← println "Mounting ext2 filesystem from VirtIO block device {device_id}" [ArgNum device_id];
      call_ (sh_mount_ext2 device_id)
  | CMount MountSysfs => _ ← println "Mounting sysfs filesystem" []; call_ sh_mount_sysfs
  | CUnmount => _ ← call_ sh_unmount; println "Unmounted filesystem" []
  | CLs path => ls path
  | CCat path => cat path
  | CExec c => exec c
  | CWriteFramebuffer content =>
      _ ← call_ (sh_write_text_buffer content);
      call_ (sh_write_text_buffer [10])
  | CWriteToFile path content => write_to_file path content
  | CFATBIOS device_id => fat_bios device_id
  | CTimer ms => _ ← call_ (sh_add_timer ms); println "Created a timer for {ms} from now" [ArgNum ms]
  | CSleep ms =>
      _ ← println "Sleeping for {ms}" [ArgNum ms];
      _ ← call_ (sh_sleep_timeout ms);
      println "Slept for {ms}" [ArgNum ms]
  | CPrime c => prime_command c
  end.

(** [parse_command] and, if it finds one, [run_command] *)
Definition run_line (line : list Z) : M W unit := λ w,
  '(c, printed) ← Parse.parse_command line;
  (_ ← emit printed; match c with Some c => run_command c | None => mret () end) w.

(** *** [shell_loop] *)
Definition handle_ansi_escape_sequence : M W unit :=
  left_bracket ← read_byte;
  if negb (left_bracket =? 91) then println "invalid escape sequence: {}" [ArgNum left_bracket]
  else
    escaped_char ← read_byte;
    println "\ngot ANSI escape char: {}" [ArgNum escaped_char].

(** One turn of the inner loop, which answers whether it goes on *)
Definition read_key : M W bool :=
  c ← read_byte;
  if (c =? 10) || (c =? 13) then
    _ ← println "" [];
    w ← get_state;
    _ ← run_line (buffer w);
    _ ← clear;
    mret false
  else if c =? 127 then
    deleted ← delete_char;
    _ ← (if deleted : bool then emit [Byte 8; Byte 32; Byte 8] else mret ());
    mret true
  else if (32 <=? c) && (c <=? 126) then
    added ← add_char c;
    _ ← (if added : bool then write_byte c else mret ());
    mret true
  else if c =? 3 then
    _ ← println "^C" [];
    _ ← clear;
    mret false
  else if c =? AnsiTerm.ANSI_ESCAPE then
    _ ← handle_ansi_escape_sequence;
    mret false
  else
    _ ← reset_terminal_line;
    _ ← println "Don't know what to do with ASCII char: {c}" [ArgNum c];
    mret false.

(** The two loops; [redraw] says whether the inner loop was left. *)
Fixpoint shell_loop (fuel : nat) (redraw : bool) : M W unit :=
  match fuel with
  | O => λ _, Diverge
  | S fuel =>
      _ ← (if redraw then redraw_buffer else mret ());
      go_on ← read_key;
      shell_loop fuel (negb go_on)
  end.

Definition run_serial_shell (fuel : nat) (kernel_cmdline : list Z) : M W unit :=
  _ ← println "Welcome to Rust OS! Here is a shell for you to use." [];
  _ ← match kernel_cmdline with
      | [] => mret ()
      | _ =>
          _ ← println "Running kernel command line: {}" [ArgText kernel_cmdline];
          foldS (λ command_str _, run_line command_str) (split_byte 59 [] kernel_cmdline) ()
      end;
  shell_loop fuel true.
End shell.
End Shell.
