(* ===== verification/ShellThms.v ===== *)
(** * Theorems on the shell: parsing of commands, the line editor, and what is run *)
From S2P Require Import Prelude Ext2Dir Vfs Cells Sched VirtioBlock Text Shell.
#[local] Open Scope Z_scope.

(** ** A logic for computations that may end early: [F] holds when they do. *)
Section logic.
Context {St : Type}.

Definition triple {A} (P : St → Prop) (m : M St A) (Q : A → St → Prop) (F : St → Prop) : Prop :=
  ∀ s, P s → ∃ r s', m s = Ret (r, s') ∧ match r with Some a => Q a s' | None => F s' end.

Lemma triple_ret {A} (P : St → Prop) (a : A) Q F : (∀ s, P s → Q a s) → triple P (mret a) Q F.
Proof. intros H s HP. exists (Some a), s. auto. Qed.

Lemma triple_bind {A B} P (m : M St A) (f : A → M St B) Q R F :
  triple P m R F → (∀ a, triple (R a) (f a) Q F) → triple P (m ≫= f) Q F.
Proof.
  intros Hm Hf s HP. destruct (Hm s HP) as (r & s1 & E & H1). unfold mbind, M_bind. rewrite E. run_monad.
  destruct r as [a|]; [by apply Hf|]. by exists None, s1.
Qed.

Lemma triple_none {A} (P F : St → Prop) (Q : A → St → Prop) : (∀ s, P s → F s) → triple P none Q F.
Proof. intros H s HP. exists None, s. auto. Qed.

Lemma triple_modify (P : St → Prop) (f : St → St) (Q : unit → St → Prop) F : (∀ s, P s → Q () (f s)) → triple P (modify_state f) Q F.
Proof. intros H s HP. exists (Some ()), (f s). auto. Qed.

Lemma triple_get (P F : St → Prop) (Q : St → St → Prop) : (∀ s, P s → Q s s) → triple P get_state Q F.
Proof. intros H s HP. exists (Some s), s. auto. Qed.

Lemma triple_pre {A} (P P' : St → Prop) (m : M St A) Q F : (∀ s, P s → P' s) → triple P' m Q F → triple P m Q F.
Proof. intros H Hm s HP. by apply Hm, H. Qed.
End logic.

(** ** Parsing *)
Import Parse.

Definition word_ok (w : list Z) : Prop := w ≠ [].

(** What the parser guarantees of a command: numbers in their widths, paths well formed *)
Definition block_ok (c : VirtIOBlockCommand) : Prop :=
  match c with
  | BlockList => True
  | BlockRead d s => in_width 64 d ∧ in_width 64 s
  | BlockWrite d s n => in_width 64 d ∧ in_width 64 s ∧ in_width 64 n
  | BlockID d => in_width 64 d
  end.

Definition command_ok (c : Command) : Prop :=
  match c with
  | CRNG n => in_width 32 n
  | CVirtIOBlock c => block_ok c
  | CMount (MountDevice d) => in_width 64 d
  | CLs p | CCat p => path_ok p
  | CExec c => path_ok (exec_path c) ∧ Forall word_ok (exec_args c) ∧ in_width 64 (num_processes c)
  | CWriteToFile p content => path_ok p ∧ word_ok content
  | CFATBIOS n | CTimer n | CSleep n => in_width 64 n
  | CPrime (PrimeSync n) => in_width 64 n
  | CPrime (PrimeAsync n p) => in_width 64 n ∧ in_width 64 p
  | _ => True
  end.

(** Words are left and nothing was printed; something was printed *)
Definition quiet (s : state) : Prop := Forall word_ok (words s) ∧ printed s = [].
Definition told (s : state) : Prop := printed s ≠ [].

Lemma triple_println format args (P : state → Prop) (Q : unit → state → Prop) F :
  (∀ s, P s → Q () (mk (words s) (printed s ++ [Println format args]))) → triple P (println format args) Q F.
Proof. apply triple_modify. Qed.

Lemma told_snoc ws pr o : told (mk ws (pr ++ [o])).
Proof. unfold told. cbn. by destruct pr. Qed.

Lemma triple_refuse {A} format args (P : state → Prop) (Q : A → state → Prop) :
  triple P (println format args ≫= λ _, none) Q told.
Proof.
  eapply (triple_bind _ _ _ _ (λ _, told)); [apply triple_println; intros; apply told_snoc|]. intros _. by apply triple_none.
Qed.

Lemma triple_next :
  triple quiet next (λ w s, quiet s ∧ match w with Some w => word_ok w | None => True end) told.
Proof.
  intros s [Hw Hp]. unfold next. destruct (words s) as [|w ws] eqn:E.
  - exists (Some None), s. unfold quiet. rewrite E. auto.
  - apply Forall_cons in Hw as [? ?]. exists (Some (Some w)), (mk ws (printed s)). repeat split; done.
Qed.

(** What a [FromStr] implementation does: it answers, and what it accepts is well formed *)
Definition from_str_ok {T} (from_str : list Z → outcome (result T word_error)) (ok : T → Prop) : Prop :=
  ∀ w, word_ok w → ∃ r, from_str w = Ret r ∧ match r with Ok t => ok t | Err _ => True end.

Lemma parse_uint_ok w : 0 < w → from_str_ok (uint w) (in_width w).
Proof.
  intros Hw s _. eexists. split; [reflexivity|]. destruct (from_str_uint w s) eqn:E; [|done].
  by eapply from_str_range.
Qed.

Lemma text_ok : from_str_ok text word_ok.
Proof. intros s Hs. by eexists. Qed.

Lemma path_from_str_ok : from_str_ok path path_ok.
Proof.
  intros s _. unfold path. pose proof (parse_total s) as H. destruct (FilePath.parse s) as [[p|]| |]; try done; run_monad.
  - exists (Ok p). split; [done|]. apply H.
  - by exists (Err EmptyPath).
Qed.

Lemma triple_word {T} from_str (ok : T → Prop) word name :
  from_str_ok from_str ok → word_ok word →
  triple quiet (parse_word from_str word name) (λ t s, quiet s ∧ ok t) told.
Proof.
  intros Hf Hw s Hs. unfold parse_word. destruct (Hf word Hw) as (r & -> & Hr). run_monad. destruct r as [t|e].
  - exists (Some t), s. auto.
  - by apply (triple_refuse _ _ quiet).
Qed.

Lemma triple_next_word {T} from_str (ok : T → Prop) name usage :
  from_str_ok from_str ok →
  triple quiet (parse_next_word from_str name usage) (λ t s, quiet s ∧ ok t) told.
Proof.
  intros Hf s Hs. unfold parse_next_word.
  destruct (triple_bind quiet next (λ w, match w with Some word => parse_word from_str word name | None => none end)
              (λ t s, quiet s ∧ ok t) (λ w s, quiet s ∧ match w with Some w => word_ok w | None => True end) (λ _, True))
    with (s := s) as (r & s1 & E & H1); [| |done|].
  - intros s' Hs'. destruct (triple_next s' Hs') as (r & s1 & E & H1). exists r, s1. by destruct r.
  - intros [w|] s' [Hq Hw].
    + destruct (triple_word from_str ok w name Hf Hw s' Hq) as (r & s1 & E & H1). exists r, s1. by destruct r.
    + by exists None, s'.
  - rewrite E. run_monad. destruct r as [t|].
    + exists (Some t), s1. done.
    + by apply (triple_refuse _ _ (λ _, True)).
Qed.

(** Rules for the ways a command goes on *)
Lemma parse_word_bind {T A} from_str (ok : T → Prop) word name (k : T → M state A) Q :
  from_str_ok from_str ok → word_ok word → (∀ t, ok t → triple quiet (k t) Q told) →
  triple quiet (parse_word from_str word name ≫= k) Q told.
Proof. intros Hf Hw Hk. eapply triple_bind; [by apply triple_word|]. intros t s [Hs Ht]. by apply Hk. Qed.

Lemma next_word_bind {T A} from_str (ok : T → Prop) name usage (k : T → M state A) Q :
  from_str_ok from_str ok → (∀ t, ok t → triple quiet (k t) Q told) →
  triple quiet (parse_next_word from_str name usage ≫= k) Q told.
Proof. intros Hf Hk. eapply triple_bind; [by apply triple_next_word|]. intros t s [Hs Ht]. by apply Hk. Qed.

Lemma next_bind {A} (k : option (list Z) → M state A) Q :
  triple quiet (k None) Q told → (∀ w, word_ok w → triple quiet (k (Some w)) Q told) → triple quiet (next ≫= k) Q told.
Proof.
  intros H0 H1. eapply triple_bind; [apply triple_next|]. intros [w|] s [Hs Hw]; [by apply H1|by apply H0].
Qed.

Lemma rest_bind {A} (k : list (list Z) → M state A) Q :
  (∀ ws, Forall word_ok ws → triple quiet (k ws) Q told) → triple quiet (rest ≫= k) Q told.
Proof.
  intros Hk. eapply (triple_bind _ _ _ _ (λ ws s, Forall word_ok ws ∧ quiet s)).
  - intros s [Hw Hp]. exists (Some (words s)), (mk [] (printed s)). done.
  - intros ws s [Hws Hs]. by apply Hk.
Qed.

Lemma ret_command c : command_ok c → triple quiet (mret c) (λ c s, quiet s ∧ command_ok c) told.
Proof. intros Hc. by apply triple_ret. Qed.

Create HintDb parse.
#[export] Hint Resolve parse_uint_ok text_ok path_from_str_ok : parse.
#[export] Hint Extern 1 (0 < _) => lia : parse.

Ltac parse_step :=
  lazymatch goal with
  | |- triple _ (if ?b then _ else _) _ _ => destruct b
  | |- triple _ (println _ _ ≫= _) _ _ => apply triple_refuse
  | |- triple _ (abandon _) _ _ => apply triple_refuse
  | |- triple _ (usage _) _ _ => apply triple_refuse
  | |- triple _ (parse_next_word _ _ _ ≫= _) _ _ => eapply next_word_bind; [by auto with parse|intros ? ?]
  | |- triple _ (parse_word _ _ _ ≫= _) _ _ => eapply parse_word_bind; [by auto with parse|done|intros ? ?]
  | |- triple _ (next ≫= _) _ _ => apply next_bind; [|intros ? ?]
  | |- triple _ (rest ≫= _) _ _ => apply rest_bind; intros ? ?
  | |- triple _ (mret _) _ _ => apply ret_command; cbn; auto
  end.

Lemma block_triple : triple quiet block (λ c s, quiet s ∧ command_ok c) told.
Proof. unfold block. repeat parse_step. Qed.

Lemma mount_triple : triple quiet mount (λ c s, quiet s ∧ command_ok c) told.
Proof. unfold mount. repeat parse_step. Qed.

Lemma prime_triple : triple quiet prime (λ c s, quiet s ∧ command_ok c) told.
Proof. unfold prime. repeat (cbv zeta; try case_match; repeat parse_step). Qed.

Lemma command_triple s w : triple quiet (command s w) (λ c s, quiet s ∧ command_ok c) told.
Proof.
  unfold command.
  repeat first [apply block_triple | apply mount_triple | apply prime_triple | parse_step | case_match].
Qed.

Lemma split_whitespace_words s : Forall word_ok (split_whitespace s).
Proof.
  assert (∀ w, Forall word_ok (flush_word w)) as Hf by (intros [|c w]; repeat constructor; done).
  unfold split_whitespace. enough (∀ skip w, Forall word_ok (words_from skip w s)) as H by apply H.
  induction s as [|c s IH]; intros skip w; cbn [words_from]; [done|].
  destruct skip; [|apply IH]. destruct (white_space (c :: s)); [apply IH|]. apply Forall_app. split; [done|apply IH].
Qed.

Lemma whole_line_triple s w : triple quiet (whole_line s w) (λ c s, quiet s ∧ command_ok c) told.
Proof.
  eapply triple_bind; [apply command_triple|]. intros c.
  eapply (triple_bind _ _ _ _ (λ s s', s = s' ∧ quiet s ∧ command_ok c)); [apply triple_get; tauto|]. intros s'.
  destruct (words s') eqn:E; [|apply triple_refuse]. apply triple_ret. intros ? (-> & ? & ?). done.
Qed.

Lemma line_words s w ws pr : line s (mk (w :: ws) pr) = whole_line s w (mk ws pr).
Proof. reflexivity. Qed.

(** C38: every line is parsed without a panic.  A command that is accepted has its
    numbers within their types and its paths well formed, and nothing was printed;
    a line that is refused was either blank or the user was told why. *)
Theorem parse_command_total buffer :
  ∃ c printed, parse_command buffer = Ret (c, printed) ∧
    match c with
    | Some c => command_ok c ∧ printed = []
    | None => printed ≠ [] ∨ split_whitespace buffer = []
    end.
Proof.
  unfold parse_command, Utf8.from_utf8. destruct (Utf8.valid buffer).
  2: { eexists None, _. split; [reflexivity|]. by left. }
  pose proof (split_whitespace_words buffer) as Hw. destruct (split_whitespace buffer) as [|w ws].
  { exists None, []. split; [reflexivity|]. by right. }
  apply Forall_cons in Hw as [Hw Hws].
  destruct (whole_line_triple buffer w (mk ws [])) as (r & s' & E & Hr); [done|].
  exists r, (printed s'). rewrite line_words, E. split; [done|].
  destruct r as [c|]; [destruct Hr as [[_ Hp] ?]; done|by left].
Qed.

(** ** Printing a command *)
Definition block_words (c : VirtIOBlockCommand) : list (list Z) :=
  match c with
  | BlockList => [str "list"]
  | BlockRead d s => [str "read"; decimal d; decimal s]
  | BlockWrite d s n => [str "write"; decimal d; decimal s; decimal n]
  | BlockID d => [str "id"; decimal d]
  end.

Definition print_words (c : Command) : list (list Z) :=
  match c with
  | CTest => [str "test"] | CExit => [str "exit"] | CBacktrace => [str "backtrace"] | CListPCI => [str "list-pci"]
  | CListVirtIO => [str "list-virtio"] | CBootInfo => [str "boot-info"] | CPrintACPI => [str "print-acpi"]
  | CPageTable => [str "page-table"] | CUnmount => [str "umount"]
  | CRNG n => [str "rng"; decimal n]
  | CVirtIOBlock c => str "block" :: block_words c
  | CMount (MountDevice d) => [str "mount"; decimal d]
  | CMount MountSysfs => [str "mount"; str "sysfs"]
  | CLs p => [str "ls"; FilePath.as_string p]
  | CCat p => [str "cat"; FilePath.as_string p]
  | CExec c => str "exec" :: decimal (num_processes c) :: FilePath.as_string (exec_path c) :: exec_args c
  | CWriteFramebuffer content => str "write-framebuffer" :: split_whitespace content
  | CWriteToFile p content => [str "write-to-file"; FilePath.as_string p; content]
  | CFATBIOS d => [str "fat"; str "bios"; decimal d]
  | CTimer ms => [str "timer"; decimal ms]
  | CSleep ms => [str "sleep"; decimal ms]
  | CPrime (PrimeSync n) => [str "prime"; str "sync"; decimal n]
  | CPrime (PrimeAsync n p) => [str "prime"; str "async"; decimal n; decimal p]
  end.

(** A text for the framebuffer is words that each end in a space. *)
Definition framebuffer_text (words : list (list Z)) : list Z := foldl (λ content word, content ++ word ++ [32]) [] words.
Definition text_of_words (c : Command) : Prop :=
  match c with CWriteFramebuffer content => content = framebuffer_text (split_whitespace content) | _ => True end.

Lemma ascii_valid s : Forall (λ c, c ≤ 127) s → Utf8.valid s = true.
Proof. induction 1 as [|c s Hc Hs IH]; [done|]. cbn [Utf8.valid]. by replace (c <=? 127) with true by lia. Qed.

Lemma join_words_ascii ws : Forall (Forall word_byte) ws → Forall (λ c, c ≤ 127) (join_words ws).
Proof.
  assert (∀ w, Forall word_byte w → Forall (λ c, c ≤ 127) w) as Hw.
  { intros w Hw. eapply Forall_impl; [exact Hw|]. unfold word_byte. intros; cbn in *; lia. }
  induction 1 as [|w ws H Hws IH]; [constructor|]. cbn [join_words]. destruct ws; [by apply Hw|].
  apply Forall_app. split; [by apply Hw|]. constructor; [lia|done].
Qed.

Lemma as_string_word p : path_ok p → FilePath.as_string p ≠ [].
Proof.
  intros [Hc Hne]. unfold FilePath.as_string. destruct (FilePath.absolute p); [done|].
  destruct Hne as [|Hne]; [done|]. destruct (FilePath.components p) as [|w ws]; [done|].
  apply Forall_cons in Hc as [[Hw _] _]. cbn. destruct ws, w; done.
Qed.

Section evaluation.
Context {A : Type}.
Implicit Types (k : list Z → M state A).

Lemma next_word_run {T} (from_str : list Z → outcome (result T word_error)) w t name usage (k : T → M state A) ws pr :
  from_str w = Ret (Ok t) → (parse_next_word from_str name usage ≫= k) (mk (w :: ws) pr) = k t (mk ws pr).
Proof.
  intros E. assert (parse_next_word from_str name usage (mk (w :: ws) pr) = Ret (Some t, mk ws pr)) as H.
  { unfold parse_next_word, parse_word, next, mbind, M_bind. cbn. by rewrite E. }
  unfold mbind, M_bind. by rewrite H.
Qed.

Lemma word_run {T} (from_str : list Z → outcome (result T word_error)) w t name (k : T → M state A) s :
  from_str w = Ret (Ok t) → (parse_word from_str w name ≫= k) s = k t s.
Proof.
  intros E. assert (parse_word from_str w name s = Ret (Some t, s)) as H by (unfold parse_word; by rewrite E).
  unfold mbind, M_bind. by rewrite H.
Qed.

Lemma next_run (k : option (list Z) → M state A) w ws pr : (next ≫= k) (mk (w :: ws) pr) = k (Some w) (mk ws pr).
Proof. reflexivity. Qed.

Lemma rest_run (k : list (list Z) → M state A) ws pr : (rest ≫= k) (mk ws pr) = k ws (mk [] pr).
Proof. reflexivity. Qed.
End evaluation.

Lemma uint_run w n : in_width w n → uint w (decimal n) = Ret (Ok n).
Proof. intros H. unfold uint. by rewrite from_str_decimal. Qed.

Lemma path_run p : path_ok p → path (FilePath.as_string p) = Ret (Ok p).
Proof. intros H. unfold path. by rewrite parse_as_string. Qed.

(** Decide which word it is. *)
Ltac which_word :=
  repeat match goal with
  | |- context [is_word (str ?a) ?b] =>
      let v := eval vm_compute in (is_word (str a) b) in change (is_word (str a) b) with v
  end; cbv beta iota zeta.

Lemma decimal_not n s : 0 ≤ n → is_digit (default 0 (head (str s))) = false → is_word (decimal n) s = false.
Proof.
  intros Hn Hs. apply bool_decide_eq_false. intros E. destruct (decimal_spec n Hn) as (_ & F & Hne).
  rewrite E in *. destruct (str s) as [|c l]; [done|]. apply Forall_cons in F as [F _].
  change (is_digit c = false) in Hs. congruence.
Qed.

Ltac run_words :=
  repeat first
    [ erewrite next_word_run by first [apply uint_run; eassumption | apply path_run; eassumption | reflexivity]
    | rewrite next_run | rewrite rest_run | progress which_word ].

Lemma block_run c : block_ok c → block (mk (block_words c) []) = Ret (Some (CVirtIOBlock c), mk [] []).
Proof.
  intros Hc. destruct c as [|d sec|d sec n|d]; cbn [block_words block_ok] in *; unfold block.
  - reflexivity.
  - destruct Hc as [? ?]. by run_words.
  - destruct Hc as (? & ? & ?). by run_words.
  - by run_words.
Qed.

Lemma command_run s c :
  command_ok c → text_of_words c →
  command s (default [] (head (print_words c))) (mk (tail (print_words c)) []) = Ret (Some c, mk [] []).
Proof.
  intros Hc Ht. destruct c as [| | | | | | | |n|c|[d|]| |p|p|c|content|p content|d|ms|ms|[n|n p]]; try reflexivity;
    cbn [print_words head tail] in *; change (default [] (Some ?x)) with x; unfold command; which_word; cbn [command_ok] in Hc.
  all: try (unfold mount, prime; run_words; done).
  - by apply block_run.
  - unfold mount. rewrite next_run, decimal_not by (apply Hc || done). by rewrite (word_run _ _ _ _ _ _ (uint_run _ _ Hc)).
  - destruct Hc as (? & ? & ?), c. cbn in *. by run_words.
  - rewrite rest_run. cbn in Ht. by rewrite Ht at 2.
  - destruct Hc as [? _]. by run_words.
  - destruct Hc as [? ?]. unfold prime. by run_words.
Qed.

Lemma print_words_ok c :
  command_ok c → Forall (Forall word_byte) (print_words c) → Forall (λ w, w ≠ [] ∧ Forall word_byte w) (print_words c).
Proof.
  intros Hc Hw. apply Forall_and. split; [|done].
  assert (∀ n w, in_width w n → decimal n ≠ []) as Hd by (intros n w [? _]; by apply decimal_spec).
  destruct c as [| | | | | | | |n|[|d sec|d sec n|d]|[d|]| |p|p|c|content|p content|d|ms|ms|[n|n p]]; cbn [print_words block_words command_ok block_ok] in *;
    repeat match goal with H : _ ∧ _ |- _ => lazymatch type of H with in_width _ _ => fail | _ => destruct H end end;
    repeat apply Forall_cons_2; try apply Forall_nil_2; eauto using as_string_word.
  all: try (intros E; discriminate E).
  apply split_whitespace_words.
Qed.

(** C31: a command printed with its words separated by spaces is parsed to itself: every
    command the parser can produce (its numbers in range, its paths well formed) whose
    words are printable is the result of the line that spells it, with nothing printed. *)
Theorem command_roundtrip c :
  command_ok c → text_of_words c → Forall (Forall word_byte) (print_words c) →
  parse_command (join_words (print_words c)) = Ret (Some c, []).
Proof.
  intros Hc Ht Hw. unfold parse_command, Utf8.from_utf8. rewrite ascii_valid by by apply join_words_ascii.
  rewrite split_join_words by by apply print_words_ok.
  assert (print_words c = default [] (head (print_words c)) :: tail (print_words c)) as E.
  { by destruct c as [| | | | | | | | | |[]| | | | | | | | | |[]]. }
  rewrite E, line_words. unfold whole_line. unfold mbind at 1 2, M_bind at 1. rewrite command_run by done. reflexivity.
Qed.

Definition exec_example : Command :=
  CExec (mkExec (FilePath.mk true [str "bin"; str "primes"]) [str "10"] 3).

Lemma command_roundtrip_witness :
  parse_command (str "exec 3 /bin/primes 10") = Ret (Some exec_example, []).
Proof.
  apply (command_roundtrip exec_example).
  - repeat split; try done; [|by left|repeat constructor; done]. cbn.
    repeat constructor; try done; vm_compute; set_solver.
  - exact I.
  - apply (bool_decide_unpack _). vm_compute. exact I.
Defined.
