(* ===== verification/ShellSession.v ===== *)
(** * Theorems on the shell: the line editor, and what a session at the terminal runs *)
From S2P Require Import Prelude Ext2Dir Vfs Cells Sched VirtioBlock Text Shell.
#[local] Open Scope Z_scope.
Import Shell.

(** ** A line editor, and a terminal line that shows what is written to it *)
Definition edit_key (buf : list Z) (c : Z) : list Z :=
  if c =? 127 then take (pred (length buf)) buf else if zlen buf <? 511 then buf ++ [c] else buf.
Definition edit (keys : list Z) : list Z := foldl edit_key [] keys.

Definition echo_key (buf : list Z) (c : Z) : list Z :=
  if c =? 127 then match buf with [] => [] | _ => [8; 32; 8] end else if zlen buf <? 511 then [c] else [].
Fixpoint echo (buf keys : list Z) : list Z :=
  match keys with [] => [] | c :: keys => echo_key buf c ++ echo (edit_key buf c) keys end.

(** The characters of the line and the column of the cursor; byte 8 moves it left. *)
Definition put (t : list Z * nat) (c : Z) : list Z * nat :=
  if c =? 8 then (t.1, pred t.2) else (take t.2 t.1 ++ [c] ++ drop (S t.2) t.1, S t.2).
Definition shows (t : list Z * nat) (buf : list Z) : Prop :=
  t.2 = length buf ∧ take t.2 t.1 = buf ∧ Forall (λ c, c = 32) (drop t.2 t.1).

Definition key (c : Z) : Prop := 32 ≤ c ≤ 127.

Lemma edit_key_len buf c : zlen buf ≤ 511 → zlen (edit_key buf c) ≤ 511.
Proof.
  unfold edit_key, zlen. intros H. destruct (c =? 127); [rewrite length_take; lia|].
  destruct (Z.ltb_spec (Z.of_nat (length buf)) 511); [|done]. rewrite length_app. cbn. lia.
Qed.

Lemma shows_char t buf c : c ≠ 8 → shows t buf → shows (put t c) (buf ++ [c]).
Proof.
  intros Hc (Hn & Ht & Hb). destruct t as [l n]. cbn in *. subst n. unfold put. rewrite (proj2 (Z.eqb_neq c 8)) by done.
  cbn [fst snd]. unfold shows. cbn [fst snd]. rewrite Ht.
  assert (S (length buf) = length (buf ++ [c])) as E by (rewrite length_app; cbn; lia).
  rewrite app_assoc. repeat split; [done|by rewrite E, take_app_length|].
  rewrite E, drop_app_length. replace (length (buf ++ [c])) with (length buf + 1)%nat by lia.
  rewrite <-drop_drop. by apply Forall_drop.
Qed.

Lemma shows_delete t buf :
  buf ≠ [] → shows t buf → shows (foldl put t [8; 32; 8]) (take (pred (length buf)) buf).
Proof.
  intros Hne (Hn & Ht & Hb). destruct t as [l n]. cbn in *. subst n.
  assert (0 < length buf)%nat by (destruct buf; cbn; [done|lia]).
  assert (length buf ≤ length l)%nat.
  { assert (length (take (length buf) l) = length buf) as E by (by rewrite Ht). rewrite length_take in E. lia. }
  unfold put, shows. cbn [fst snd Z.eqb foldl Pos.eqb]. cbn [pred].
  rewrite length_take, Nat.min_l by lia. replace (S (pred (length buf))) with (length buf) by lia.
  assert (length (take (pred (length buf)) l) = pred (length buf)) as El by (rewrite length_take; lia).
  repeat split.
  - rewrite <-El at 1. rewrite take_app_length.
    transitivity (take (pred (length buf)) (take (length buf) l)); [rewrite take_take; f_equal; lia|by rewrite Ht].
  - rewrite <-El at 1. rewrite drop_app_length. by constructor.
Qed.

Lemma echo_shows keys t buf :
  Forall key keys → shows t buf → shows (foldl put t (echo buf keys)) (foldl edit_key buf keys).
Proof.
  intros Hk. revert t buf. induction Hk as [|c keys Hc Hk IH]; intros t buf Ht; cbn [echo foldl]; [done|].
  rewrite foldl_app. apply IH. unfold echo_key, edit_key, key in *. destruct (Z.eqb_spec c 127).
  - destruct buf as [|x b]; [done|]. by apply shows_delete.
  - destruct (zlen buf <? 511); [|done]. cbn [foldl]. apply shows_char; [lia|done].
Qed.

(** ** The loop *)
Section session.
Context {K I : Type} `{!ShellVfs K I, !ShellKernel K}.
Implicit Types (k : K) (i b : list Z) (o : list out).

Lemma delete_char_run i o b k :
  delete_char (mk i o b k) = Ret (Some (negb (bool_decide (b = []))), mk i o (take (pred (length b)) b) k).
Proof.
  unfold delete_char, get_state, mbind, M_bind. run_monad. cbn [buffer].
  destruct b as [|x l _] using rev_ind; [done|]. rewrite rev_app_distr. cbn [rev app].
  rewrite rev_involutive, length_app, Nat.add_1_r. cbn [pred]. rewrite take_app_length.
  rewrite bool_decide_false by (by destruct l). done.
Qed.

Lemma add_char_run c i o b k :
  add_char c (mk i o b k) =
  Ret (Some (zlen b <? 511), mk i o (if zlen b <? 511 then b ++ [c] else b) k).
Proof. unfold add_char, get_state, mbind, M_bind. run_monad. cbn [buffer]. change (MAX_SIZE - 1) with 511. by destruct (zlen b <? 511). Qed.

Lemma read_key_edit c i o b k :
  key c → read_key (mk (c :: i) o b k) = Ret (Some true, mk i (o ++ (Byte <$> echo_key b c)) (edit_key b c) k).
Proof.
  intros Hc. unfold key in Hc. unfold read_key, read_byte, mbind at 1, M_bind at 1. cbn [input]. run_monad.
  cbn [output buffer kernel]. replace ((c =? 10) || (c =? 13)) with false by lia.
  unfold echo_key, edit_key. destruct (Z.eqb_spec c 127).
  - unfold mbind, M_bind. rewrite delete_char_run. run_monad. destruct b; cbn; [by rewrite app_nil_r|done].
  - replace ((32 <=? c) && (c <=? 126)) with true by lia. unfold mbind, M_bind. rewrite add_char_run. run_monad.
    destruct (zlen b <? 511); cbn; [done|by rewrite app_nil_r].
Qed.

Lemma bind_some {St A B} (m : M St A) (f : A → M St B) s a s' : m s = Ret (Some a, s') → (m ≫= f) s = f a s'.
Proof. intros E. unfold mbind, M_bind. by rewrite E. Qed.
Lemma bind_none {St A B} (m : M St A) (f : A → M St B) s s' : m s = Ret (None, s') → (m ≫= f) s = Ret (None, s').
Proof. intros E. unfold mbind, M_bind. by rewrite E. Qed.
Lemma bind_panic {St A B} (m : M St A) (f : A → M St B) s p : m s = Panic p → (m ≫= f) s = Panic p.
Proof. intros E. unfold mbind, M_bind. by rewrite E. Qed.
Lemma bind_diverge {St A B} (m : M St A) (f : A → M St B) s : m s = Diverge → (m ≫= f) s = Diverge.
Proof. intros E. unfold mbind, M_bind. by rewrite E. Qed.

(** What [redraw_buffer] writes *)
Definition redrawn (b : list Z) : list Z := AnsiTerm.fmt AnsiTerm.ClearEntireLine ++ [13] ++ prompt ++ b.

Lemma shell_loop_redraw fuel i o b k :
  shell_loop (S fuel) true (mk i o b k) = shell_loop (S fuel) false (mk i (o ++ (Byte <$> redrawn b)) b k).
Proof.
  cbn [shell_loop]. erewrite bind_some.
  2: { unfold redraw_buffer. erewrite bind_some by reflexivity. erewrite bind_some by reflexivity.
       erewrite bind_some by reflexivity. reflexivity. }
  cbn [input output buffer kernel]. symmetry. erewrite bind_some by reflexivity. unfold redrawn.
  by rewrite !fmap_app, !app_assoc.
Qed.

Lemma shell_loop_keys keys fuel i o b k :
  Forall key keys →
  shell_loop (length keys + fuel) false (mk (keys ++ i) o b k) =
  shell_loop fuel false (mk i (o ++ (Byte <$> echo b keys)) (foldl edit_key b keys) k).
Proof.
  intros Hk. revert o b. induction Hk as [|c keys Hc Hk IH]; intros o b; cbn [length Nat.add app echo foldl].
  - by rewrite app_nil_r.
  - cbn [shell_loop]. erewrite bind_some by reflexivity. erewrite bind_some by by apply read_key_edit. cbn [negb].
    rewrite IH. by rewrite fmap_app, app_assoc.
Qed.
(** *** Commands do not depend on the terminal

    [framed m]: what [m] does to the kernel and what it prints are functions of the kernel;
    it neither reads the serial port nor touches the command buffer. *)
Definition framed {A} (m : M (world K) A) : Prop :=
  ∀ i o b k, match m (mk [] [] [] k) with
             | Ret (Some a, w) => m (mk i o b k) = Ret (Some a, mk i (o ++ output w) b (kernel w))
             | Ret (None, _) => False
             | Panic p => m (mk i o b k) = Panic p
             | Diverge => m (mk i o b k) = Diverge
             end.

Lemma framed_ret {A} (a : A) : framed (mret a).
Proof. intros i o b k. cbn. by rewrite app_nil_r. Qed.

Lemma framed_emit l : framed (emit l).
Proof. intros i o b k. reflexivity. Qed.

Lemma framed_call {A} (f : K → outcome (A * K)) : framed (call f).
Proof. intros i o b k. unfold call. cbn [kernel]. destruct (f k) as [[a k']|p|]; run_monad; [|done..]. by rewrite app_nil_r. Qed.

Lemma framed_bind {A B} (m : M (world K) A) (f : A → M (world K) B) :
  framed m → (∀ a, framed (f a)) → framed (m ≫= f).
Proof.
  intros Hm Hf i o b k. pose proof (Hm i o b k) as H1. pose proof (Hm [] [] [] k) as H0.
  destruct (m (mk [] [] [] k)) as [[[a|] w]|p|] eqn:E; [|done|by rewrite (bind_panic _ _ _ p E), (bind_panic _ _ _ p H1)
    |by rewrite (bind_diverge _ _ _ E), (bind_diverge _ _ _ H1)].
  rewrite (bind_some _ _ _ _ _ E), (bind_some _ _ _ _ _ H1). injection H0 as H0. rewrite H0. cbn [app].
  pose proof (Hf a i (o ++ output w) b (kernel w)) as H2. pose proof (Hf a [] (output w) [] (kernel w)) as H3.
  cbn [output kernel] in *. destruct (f a (mk [] [] [] (kernel w))) as [[[r|] w2]|p|]; [|done|by rewrite H3, H2..].
  rewrite H3, H2. cbn [output kernel]. by rewrite app_assoc.
Qed.

Lemma framed_fold {A B} (f : A → B → M (world K) B) l x : (∀ a x, framed (f a x)) → framed (foldS f l x).
Proof.
  intros Hf. revert x. induction l as [|a l IH]; intros x; cbn [foldS]; [apply framed_ret|].
  apply framed_bind; [apply Hf|done].
Qed.

Ltac framed_step :=
  first
    [ apply framed_ret | apply framed_emit | apply framed_call
    | apply framed_bind; [|intros ?] | apply framed_fold; intros ? ? | case_match ].

Lemma framed_command c : framed (run_command c).
Proof.
  destruct c; cbn [run_command];
    unfold print_report, println, log, block_command, ls, cat, exec, write_to_file, fat_bios, prime_command, call_;
    repeat framed_step.
Qed.

Lemma framed_line line : framed (run_line line).
Proof.
  intros i o b k. unfold run_line. destruct (Parse.parse_command line) as [[c pr]|p|]; run_monad; [|done..].
  refine (framed_bind _ _ (framed_emit pr) (λ _, _) i o b k). case_match; [apply framed_command|apply framed_ret].
Qed.

(** *** A session: lines typed with corrections, each ended by a return or given up with [^C] *)

(** What a line does to the kernel *)
Definition exec_line (line : list Z) (k : K) : outcome K :=
  '(_, w) ← run_line line (mk [] [] [] k);
  mret (kernel w).

Definition segment : Type := list Z * Z.
Definition typed (segments : list segment) : list Z := segments ≫= λ s, s.1 ++ [s.2].
Definition exec_segment (s : segment) (k : K) : outcome K :=
  if s.2 =? 3 then mret k else exec_line (edit s.1) k.
Definition segment_ok (s : segment) : Prop := Forall key s.1 ∧ (s.2 = 10 ∨ s.2 = 13 ∨ s.2 = 3).

(** [m] leaves the kernel [r], with all it was given read and an empty command buffer. *)
Definition leaves {A} (m : outcome (option A * world K)) (a : option A) i b (r : outcome K) : Prop :=
  match r with
  | Ret k => ∃ o, m = Ret (a, mk i o b k)
  | Panic p => m = Panic p
  | Diverge => m = Diverge
  end.

Lemma read_key_end e i o b k :
  e = 10 ∨ e = 13 ∨ e = 3 →
  leaves (read_key (mk (e :: i) o b k)) (Some false) i [] (if e =? 3 then mret k else exec_line b k).
Proof.
  intros He. unfold read_key. erewrite bind_some by reflexivity. cbn [output buffer kernel]. destruct (Z.eqb_spec e 3) as [->|].
  { by eexists. }
  replace ((e =? 10) || (e =? 13)) with true by lia. erewrite bind_some by reflexivity. erewrite bind_some by reflexivity.
  cbn [output input buffer kernel]. unfold exec_line. pose proof (framed_line b i (o ++ [Println "" []]) b k) as H.
  destruct (run_line b (mk [] [] [] k)) as [[[a|] w]|p|]; run_monad; cbn [leaves]; [|done|by rewrite (bind_panic _ _ _ _ H)
    |by rewrite (bind_diverge _ _ _ H)].
  rewrite (bind_some _ _ _ _ _ H). by eexists.
Qed.

Lemma shell_loop_segment s fuel i o k :
  segment_ok s →
  match exec_segment s k with
  | Ret k' => ∃ o', shell_loop (length s.1 + S fuel) true (mk (s.1 ++ s.2 :: i) o [] k) = shell_loop fuel true (mk i o' [] k')
  | Panic p => shell_loop (length s.1 + S fuel) true (mk (s.1 ++ s.2 :: i) o [] k) = Panic p
  | Diverge => shell_loop (length s.1 + S fuel) true (mk (s.1 ++ s.2 :: i) o [] k) = Diverge
  end.
Proof.
  intros [Hk He]. destruct s as [keys e]. cbn [fst snd] in *. unfold exec_segment. cbn [fst snd].
  assert (∃ o1, shell_loop (length keys + S fuel) true (mk (keys ++ e :: i) o [] k)
                = (go_on ← read_key; shell_loop fuel (negb go_on)) (mk (e :: i) o1 (edit keys) k)) as [o1 ->].
  { destruct (length keys + S fuel)%nat as [|n] eqn:E; [lia|]. rewrite shell_loop_redraw, <-E, shell_loop_keys by done.
    cbn [shell_loop]. erewrite bind_some by reflexivity. by eexists. }
  pose proof (read_key_end e i o1 (edit keys) k He) as H. destruct (if e =? 3 then mret k else exec_line (edit keys) k); cbn in H.
  - destruct H as [o' H]. exists o'. by rewrite (bind_some _ _ _ _ _ H).
  - by apply bind_panic.
  - by apply bind_diverge.
Qed.

Lemma shell_loop_last keys fuel o k :
  Forall key keys →
  shell_loop (length keys + S fuel) true (mk keys o [] k) =
  Ret (None, mk [] (o ++ (Byte <$> redrawn []) ++ (Byte <$> echo [] keys)) (edit keys) k).
Proof.
  intros Hk. destruct (length keys + S fuel)%nat as [|n] eqn:E; [lia|]. rewrite shell_loop_redraw, <-E.
  rewrite <-(app_nil_r keys) at 2. rewrite shell_loop_keys by done. cbn [shell_loop]. erewrite bind_some by reflexivity.
  erewrite bind_none by reflexivity. by rewrite app_assoc.
Qed.

(** C14: the shell runs what was typed.  After any lines typed with corrections, each of
    them ended by a return or given up with [^C], and a last line still being typed, the
    kernel is as after running the edited lines one after the other, the shell waits for
    the next key with the last line in its buffer, and the terminal shows that line after
    the prompt.  A line that stops the kernel stops the shell at that line. *)
Theorem shell_runs_lines segments last o k fuel :
  Forall segment_ok segments → Forall key last → (length (typed segments ++ last) < fuel)%nat →
  match foldM exec_segment segments k with
  | Ret k' => ∃ o' e,
      shell_loop fuel true (mk (typed segments ++ last) o [] k) =
        Ret (None, mk [] (o' ++ (Byte <$> redrawn []) ++ (Byte <$> e)) (edit last) k') ∧
      shows (foldl put ([], O) e) (edit last) ∧ zlen (edit last) ≤ 511
  | Panic p => shell_loop fuel true (mk (typed segments ++ last) o [] k) = Panic p
  | Diverge => shell_loop fuel true (mk (typed segments ++ last) o [] k) = Diverge
  end.
Proof.
  intros Hs Hl. revert o k fuel. induction Hs as [|s segments Hs Hss IH]; intros o k fuel Hf; cbn [foldM].
  - cbn in *. assert (fuel = length last + S (fuel - length last - 1))%nat as -> by lia.
    exists o, (echo [] last). split; [by apply shell_loop_last|]. split; [by apply echo_shows|].
    enough (∀ b, zlen b ≤ 511 → zlen (foldl edit_key b last) ≤ 511) as H by (by apply H).
    clear. induction last as [|c l IH]; intros b Hb; cbn [foldl]; [done|]. by apply IH, edit_key_len.
  - assert (typed (s :: segments) ++ last = s.1 ++ s.2 :: typed segments ++ last) as E.
    { cbn [typed mbind list_bind]. by rewrite <-!app_assoc. }
    rewrite E in *. rewrite length_app in Hf. cbn [length] in Hf.
    assert (fuel = length s.1 + S (fuel - length s.1 - 1))%nat as -> by lia.
    pose proof (shell_loop_segment s (fuel - length s.1 - 1) (typed segments ++ last) o k Hs) as H.
    destruct (exec_segment s k) as [k'|p|]; run_monad; [|done..]. destruct H as [o1 ->]. apply IH. lia.
Qed.

(** [write-to-file] never makes a file: for a path that is not found it looks up the same
    path again in place of the parent's, and gives up when it is not found again. *)
Lemma write_to_file_never_creates path content i o b k k1 k2 e1 e2 :
  sh_get_path_inode (I := I) path k = Ret (Err e1, k1) → sh_get_path_inode (I := I) path k1 = Ret (Err e2, k2) →
  FilePath.components path ≠ [] →
  ∃ message, run_command (CWriteToFile path content) (mk i o b k) = Ret (Some (), mk i (o ++ [message]) b k2).
Proof.
  intros E1 E2 Hne. cbn [run_command]. unfold write_to_file.
  erewrite bind_some by (unfold call; cbn [kernel]; rewrite E1; reflexivity). cbn [input output buffer].
  pose proof (split_dirname_filename_ok path) as H. destruct (FilePath.split_dirname_filename path) as [[parent filename]|]; [|done].
  erewrite bind_some by (unfold call; cbn [kernel]; rewrite E2; reflexivity). by eexists.
Qed.
End session.

(** A kernel of which only the timers matter *)
Module Example.
#[local] Instance no_vfs : ShellVfs (list Z) unit := {|
  sh_get_path_inode := λ _ k, Ret (Err VfsOps.NoFileSystem, k);
  sh_subdirectories := λ _ k, Ret ([], k); sh_read_all := λ _ k, Ret ([], k);
  sh_create_file := λ _ _ k, Ret (None, k); sh_write := λ _ _ k, Ret (false, k);
  sh_mount_ext2 := λ _ k, Ret k; sh_mount_sysfs := λ k, Ret k; sh_unmount := λ k, Ret k |}.
#[local] Instance timers : ShellKernel (list Z) := {|
  sh_report := λ _ k, Ret ([], k); sh_run_test_suite := λ k, Ret k; sh_exit_qemu := λ _ k, Ret k;
  sh_random_numbers := λ _ k, Ret ([], k); sh_block_read := λ _ _ _ k, Ret (WriteResponse, k);
  sh_block_write := λ _ _ _ k, Ret (WriteResponse, k); sh_block_get_id := λ _ k, Ret (WriteResponse, k);
  sh_response_data := λ _ k, Ret ([], k); sh_new_userspace_task := λ _ _ k, Ret (0, k);
  sh_calculate_prime_task := λ _ _ k, Ret (0, k); sh_run_scheduler := λ k, Ret k; sh_wait_on_task := λ _ k, Ret (None, k);
  sh_add_timer := λ ms k, Ret (k ++ [ms]); sh_sleep_timeout := λ _ k, Ret k; sh_write_text_buffer := λ _ k, Ret k |}.

Definition session : list segment :=
  [(str "timer 50x" ++ [127], 13); (str "nonsense", 10); (str "timer 60", 3); (str "timer 7", 13)].

Lemma shell_runs_lines_witness :
  ∃ o e,
    shell_loop 100 true (mk (typed session ++ str "ls /x") [] [] []) =
      Ret (None, mk [] (o ++ (Byte <$> redrawn []) ++ (Byte <$> e)) (str "ls /x") [50; 7]) ∧
    shows (foldl put ([], O) e) (str "ls /x") ∧ zlen (str "ls /x") ≤ 511.
Proof.
  pose proof (shell_runs_lines session (str "ls /x") [] [] 100) as H.
  assert (foldM exec_segment session [] = Ret [50; 7]) as E by (vm_compute; reflexivity).
  assert (edit (str "ls /x") = str "ls /x") as E' by (vm_compute; reflexivity).
  rewrite E, E' in H. apply H.
  - apply (bool_decide_unpack (Forall (λ s, Forall (λ c, 32 ≤ c ≤ 127) s.1 ∧ (s.2 = 10 ∨ s.2 = 13 ∨ s.2 = 3)) session)).
    vm_compute. exact I.
  - apply (bool_decide_unpack (Forall (λ c, 32 ≤ c ≤ 127) (str "ls /x"))). vm_compute. exact I.
  - vm_compute. lia.
Defined.
End Example.
