(* ===== verification/Serial.v ===== *)
(** * The serial port ([kernel/src/serial.rs], [print_record] of [kernel/src/logging.rs])

    The driver works on any device behind the ports ([Ports]); the theorems are about the
    16550 UART, whose registers are modelled at the end. *)
From S2P Require Import Prelude Ext2Dir Text Shell.
#[local] Open Scope Z_scope.

(** Port I/O of bytes: [u8::read_from_port] and [u8::write_to_port] *)
Class Ports (D : Type) : Type := {
  port_read : Z → D → Z * D;
  port_write : Z → Z → D → D;
}.

Definition COM1_PORT : Z := 0x3F8.
Definition COM2_PORT : Z := 0x2F8.

Record SerialPort : Type := mkPort { data : Z; int_en : Z; fifo_ctrl : Z; line_ctrl : Z; modem_ctrl : Z; line_sts : Z }.

Module SerialPort.
Definition LINE_STATUS_DATA_READY : Z := Z.shiftl 1 0.
Definition LINE_STATUS_TRANSMITTER_EMPTY : Z := Z.shiftl 1 5.

Definition new (com_port : Z) : outcome SerialPort :=
  int_en ← uadd 16 com_port 1;
  fifo_ctrl ← uadd 16 com_port 2;
  line_ctrl ← uadd 16 com_port 3;
  modem_ctrl ← uadd 16 com_port 4;
  line_sts ← uadd 16 com_port 5;
  mret (mkPort com_port int_en fifo_ctrl line_ctrl modem_ctrl line_sts).

Section port.
Context {D : Type} `{!Ports D}.
Implicit Types (self : SerialPort) (d : D).

Definition init self d : D :=
  let d := port_write (int_en self) 0x00 d in
  let d := port_write (line_ctrl self) 0x80 d in
  let d := port_write (data self) 0x01 d in
  let d := port_write (int_en self) 0x00 d in
  let d := port_write (line_ctrl self) 0x03 d in
  let d := port_write (fifo_ctrl self) 0xC7 d in
  let d := port_write (modem_ctrl self) 0x0B d in
  port_write (int_en self) 0x01 d.

Definition is_transmit_empty self d : bool * D :=
  let '(v, d) := port_read (line_sts self) d in
  (negb (Z.land v LINE_STATUS_TRANSMITTER_EMPTY =? 0), d).

Fixpoint write (fuel : nat) self (byte : Z) d : outcome D :=
  match fuel with
  | O => Diverge
  | S fuel =>
      let '(empty, d) := is_transmit_empty self d in
      if empty : bool then mret (port_write (data self) byte d) else write fuel self byte d
  end.

Definition write_str_bytes (fuel : nat) self (s : list Z) d : outcome D := foldM (write fuel self) s d.

Definition is_data_ready self d : bool * D :=
  let '(v, d) := port_read (line_sts self) d in
  (negb (Z.land v LINE_STATUS_DATA_READY =? 0), d).

Fixpoint read (fuel : nat) self d : outcome (Z * D) :=
  match fuel with
  | O => Diverge
  | S fuel =>
      let '(ready, d) := is_data_ready self d in
      if ready : bool then mret (port_read (data self) d) else read fuel self d
  end.

Definition init_serial_port (fuel : nat) (com_port : Z) d : outcome (SerialPort * D) :=
  serial_port ← new com_port;
  let d := init serial_port d in
  d ← write_str_bytes fuel serial_port
        (AnsiTerm.fmt AnsiTerm.CLEAR_FORMAT ++ AnsiTerm.fmt AnsiTerm.MoveCursorTopLeft ++
         AnsiTerm.fmt AnsiTerm.ClearScreenFromCursorToEnd) d;
  mret (serial_port, d).
End port.
End SerialPort.

(** ** Log records *)
Inductive Level : Type := LError | LWarn | LInfo | LDebug | LTrace.
Definition level_name (l : Level) : list Z :=
  match l with
  | LError => str "ERROR" | LWarn => str "WARN" | LInfo => str "INFO" | LDebug => str "DEBUG" | LTrace => str "TRACE"
  end.

(** The line that [print_record] writes; [args] is the formatted message. *)
Definition print_record (level : Level) (args : list Z) : list Z :=
  let color := match level with
               | LError => AnsiTerm.Red | LWarn => AnsiTerm.Yellow | LInfo => AnsiTerm.Green
               | LDebug | LTrace => AnsiTerm.White
               end in
  AnsiTerm.fmt (AnsiTerm.Sgr (AnsiTerm.ForegroundColor color)) ++ str "[" ++ level_name level ++ str "]" ++
  AnsiTerm.fmt AnsiTerm.CLEAR_FORMAT ++ str " " ++ args ++ [10].

(** ** A 16550 UART at [base]

    The divisor latch shares its ports with the data and interrupt registers; after a
    byte is written the transmitter is busy for [delay] readings of the status. *)
Record uart : Type := mkUart {
  ier : Z; fcr : Z; lcr : Z; mcr : Z; divisor_low : Z; divisor_high : Z;
  sent : list Z; received : list Z; busy : nat; delay : nat }.

Definition uart_write (base port v : Z) (u : uart) : uart :=
  let dlab := Z.testbit (lcr u) 7 in
  if port =? base then
    if dlab then mkUart (ier u) (fcr u) (lcr u) (mcr u) v (divisor_high u) (sent u) (received u) (busy u) (delay u)
    else mkUart (ier u) (fcr u) (lcr u) (mcr u) (divisor_low u) (divisor_high u) (sent u ++ [v]) (received u) (delay u) (delay u)
  else if port =? base + 1 then
    if dlab then mkUart (ier u) (fcr u) (lcr u) (mcr u) (divisor_low u) v (sent u) (received u) (busy u) (delay u)
    else mkUart v (fcr u) (lcr u) (mcr u) (divisor_low u) (divisor_high u) (sent u) (received u) (busy u) (delay u)
  else if port =? base + 2 then mkUart (ier u) v (lcr u) (mcr u) (divisor_low u) (divisor_high u) (sent u) (received u) (busy u) (delay u)
  else if port =? base + 3 then mkUart (ier u) (fcr u) v (mcr u) (divisor_low u) (divisor_high u) (sent u) (received u) (busy u) (delay u)
  else if port =? base + 4 then mkUart (ier u) (fcr u) (lcr u) v (divisor_low u) (divisor_high u) (sent u) (received u) (busy u) (delay u)
  else u.

Definition uart_read (base port : Z) (u : uart) : Z * uart :=
  if port =? base + 5 then
    (Z.lor (if (busy u =? 0)%nat then 0x20 else 0) (match received u with [] => 0 | _ => 1 end),
     mkUart (ier u) (fcr u) (lcr u) (mcr u) (divisor_low u) (divisor_high u) (sent u) (received u) (pred (busy u)) (delay u))
  else if port =? base then
    match received u with
    | [] => (0, u)
    | c :: r => (c, mkUart (ier u) (fcr u) (lcr u) (mcr u) (divisor_low u) (divisor_high u) (sent u) r (busy u) (delay u))
    end
  else (0, u).

Definition uart_ports (base : Z) : Ports uart := {| port_read := uart_read base; port_write := uart_write base |}.

(** The port is set up: 115200 baud (divisor 1), eight data bits, no parity, one stop bit,
    divisor latch closed *)
Definition configured (u : uart) : Prop := lcr u = 3 ∧ divisor_low u = 1 ∧ divisor_high u = 0 ∧ (busy u ≤ delay u)%nat.

Section uart.
Variables (base : Z) (Hbase : 0 ≤ base < 2 ^ 16 - 5).
#[local] Instance here : Ports uart := uart_ports base.
Implicit Types (u : uart).

Definition the_port : SerialPort := mkPort base (base + 1) (base + 2) (base + 3) (base + 4) (base + 5).

Lemma new_ok : SerialPort.new base = Ret the_port.
Proof. unfold SerialPort.new. by rewrite !uadd_ok by lia. Qed.

Lemma write_ok fuel byte u :
  configured u → (busy u < fuel)%nat →
  ∃ u', SerialPort.write fuel the_port byte u = Ret u' ∧ configured u' ∧
    sent u' = sent u ++ [byte] ∧ received u' = received u ∧ delay u' = delay u.
Proof.
  intros (Hl & H1 & H2 & Hb) Hf. revert u Hl H1 H2 Hb Hf. induction fuel as [|fuel IH]; intros u Hl H1 H2 Hb Hf; [lia|].
  cbn [SerialPort.write]. unfold SerialPort.is_transmit_empty. cbn [line_sts the_port].
  change (port_read (base + 5) u) with (uart_read base (base + 5) u). unfold uart_read. rewrite Z.eqb_refl.
  destruct (busy u) as [|b] eqn:Eb; cbn [Nat.eqb pred].
  - replace (negb (Z.land (Z.lor 32 (match received u with [] => 0 | _ => 1 end)) SerialPort.LINE_STATUS_TRANSMITTER_EMPTY =? 0))
      with true by (by destruct (received u)).
    eexists. split; [reflexivity|]. cbn [port_write here uart_ports data the_port]. unfold uart_write. rewrite Z.eqb_refl. cbn [lcr]. rewrite Hl.
    unfold configured. cbn. repeat split; try done; lia.
  - replace (negb (Z.land (Z.lor 0 (match received u with [] => 0 | _ => 1 end)) SerialPort.LINE_STATUS_TRANSMITTER_EMPTY =? 0))
      with false by (by destruct (received u)).
    edestruct IH as (u' & E & Hc & Hs & Hr & Hd); [| | | | |by exists u']; cbn; try done; lia.
Qed.

Lemma serial_write_str_ok fuel s u :
  configured u → (delay u < fuel)%nat →
  ∃ u', SerialPort.write_str_bytes fuel the_port s u = Ret u' ∧ configured u' ∧
    sent u' = sent u ++ s ∧ received u' = received u ∧ delay u' = delay u.
Proof.
  revert u. induction s as [|c s IH]; intros u Hc Hf.
  - exists u. by rewrite app_nil_r.
  - unfold SerialPort.write_str_bytes in *. cbn [foldM]. destruct (write_ok fuel c u) as (u1 & -> & H1 & H2 & H3 & H4); [done|destruct Hc; lia|].
    run_monad. destruct (IH u1) as (u' & -> & G1 & G2 & G3 & G4); [done|lia|]. exists u'. rewrite G2, H2, <-app_assoc. by rewrite G3, G4.
Qed.

Lemma read_ok fuel u c r :
  configured u → received u = c :: r →
  ∃ u', SerialPort.read (S fuel) the_port u = Ret (c, u') ∧ configured u' ∧ received u' = r ∧ sent u' = sent u ∧ delay u' = delay u.
Proof.
  intros (H1 & H2 & H3 & H4) Hr. cbn [SerialPort.read]. unfold SerialPort.is_data_ready. cbn [line_sts the_port].
  change (port_read (base + 5) u) with (uart_read base (base + 5) u). unfold uart_read at 1. rewrite Z.eqb_refl, Hr.
  replace (negb (Z.land (Z.lor (if (busy u =? 0)%nat then 32 else 0) 1) SerialPort.LINE_STATUS_DATA_READY =? 0))
    with true by (by destruct (busy u =? 0)%nat).
  cbn [port_read here uart_ports data the_port]. unfold uart_read. replace (base =? base + 5) with false by lia. rewrite Z.eqb_refl.
  cbn [received]. eexists. split; [reflexivity|]. unfold configured. cbn. repeat split; try done. lia.
Qed.

(** What writing to the ports does to a UART given by its registers *)
Section writes.
Variables (v i f l m dl dh : Z) (snt rcv : list Z) (b d : nat).

Lemma write_data :
  uart_write base base v (mkUart i f l m dl dh snt rcv b d) =
  if Z.testbit l 7 then mkUart i f l m v dh snt rcv b d else mkUart i f l m dl dh (snt ++ [v]) rcv d d.
Proof. unfold uart_write. by rewrite Z.eqb_refl. Qed.
Lemma write_int_en :
  uart_write base (base + 1) v (mkUart i f l m dl dh snt rcv b d) =
  if Z.testbit l 7 then mkUart i f l m dl v snt rcv b d else mkUart v f l m dl dh snt rcv b d.
Proof. unfold uart_write. by replace (base + 1 =? base) with false by lia; rewrite Z.eqb_refl. Qed.
Lemma write_fifo_ctrl :
  uart_write base (base + 2) v (mkUart i f l m dl dh snt rcv b d) = mkUart i v l m dl dh snt rcv b d.
Proof. unfold uart_write. replace (base + 2 =? base) with false by lia. by replace (base + 2 =? base + 1) with false by lia; rewrite Z.eqb_refl. Qed.
Lemma write_line_ctrl :
  uart_write base (base + 3) v (mkUart i f l m dl dh snt rcv b d) = mkUart i f v m dl dh snt rcv b d.
Proof.
  unfold uart_write. replace (base + 3 =? base) with false by lia. replace (base + 3 =? base + 1) with false by lia.
  by replace (base + 3 =? base + 2) with false by lia; rewrite Z.eqb_refl.
Qed.
Lemma write_modem_ctrl :
  uart_write base (base + 4) v (mkUart i f l m dl dh snt rcv b d) = mkUart i f l v dl dh snt rcv b d.
Proof.
  unfold uart_write. replace (base + 4 =? base) with false by lia. replace (base + 4 =? base + 1) with false by lia.
  replace (base + 4 =? base + 2) with false by lia. by replace (base + 4 =? base + 3) with false by lia; rewrite Z.eqb_refl.
Qed.
End writes.

Lemma init_ok u :
  SerialPort.init the_port u = mkUart 1 0xC7 3 0x0B 1 0 (sent u) (received u) (busy u) (delay u).
Proof.
  unfold SerialPort.init. cbn [port_write here uart_ports the_port int_en line_ctrl data fifo_ctrl modem_ctrl].
  destruct u as [i f l m dl dh s r b d]. cbn [sent received busy delay]. rewrite write_int_en. destruct (Z.testbit l 7).
  all: rewrite write_line_ctrl, write_data; change (Z.testbit 128 7) with true; cbv iota.
  all: rewrite write_int_en; change (Z.testbit 128 7) with true; cbv iota.
  all: rewrite write_line_ctrl, write_fifo_ctrl, write_modem_ctrl, write_int_en; by change (Z.testbit 3 7) with false.
Qed.

(** [n] calls of [read] *)
Definition read_many (fuel n : nat) (u : uart) : outcome (list Z * uart) :=
  foldM (λ _ '(bytes, u), '(c, u) ← SerialPort.read fuel the_port u; mret (bytes ++ [c], u)) (seq 0 n) ([], u).

Lemma read_many_ok fuel u :
  configured u → ∃ u', read_many (S fuel) (length (received u)) u = Ret (received u, u') ∧ received u' = [] ∧ sent u' = sent u.
Proof.
  unfold read_many. intros Hc.
  enough (∀ l k got u, configured u → received u = l →
    ∃ u', foldM (λ _ '(bytes, u), '(c, u) ← SerialPort.read (S fuel) the_port u; mret (bytes ++ [c], u)) (seq k (length l)) (got, u)
      = Ret (got ++ l, u') ∧ received u' = [] ∧ sent u' = sent u) as H by (by apply (H (received u) 0%nat [])).
  clear u Hc. induction l as [|c l IH]; intros k got u Hc Hr; cbn [length seq foldM].
  - exists u. by rewrite app_nil_r.
  - destruct (read_ok fuel u c l Hc Hr) as (u1 & E & H1 & H2 & H3 & _). rewrite E. run_monad.
    destruct (IH (S k) (got ++ [c]) u1 H1 H2) as (u' & E' & ? & ?). exists u'. rewrite E', <-app_assoc. split; [done|]. split; congruence.
Qed.

End uart.

