(* ===== verification/Primes.v ===== *)
(** * Prime numbers: the task of the shell's [prime] command ([naive_nth_prime] of
    [kernel/src/shell.rs]) and the user program [userspace/primes/primes.c]

    Characters of the C program are bytes, strings end in a zero byte.  An overflow of an
    [int] and an access outside of an array are [Panic Undefined]. *)
From Stdlib Require Import Zdivisibility.
From S2P Require Import Prelude Ext2Dir Text.
#[local] Open Scope Z_scope.

(** ** The search, which both programs share up to the width of their integers *)
Definition is_prime (x : Z) : bool :=
  match loop (λ i _, if x mod i =? 0 then Stop false else Next ()) (range 2 x) () with
  | Stop b => b
  | Next _ => true
  end.

Fixpoint nth_prime_loop (increment : Z → outcome Z) (fuel : nat) (n found_primes i : Z) : outcome Z :=
  match fuel with
  | O => Diverge
  | S fuel =>
      if found_primes <? n then
        let found_primes := if is_prime i then found_primes + 1 else found_primes in
        i ← increment i;
        nth_prime_loop increment fuel n found_primes i
      else mret i
  end.

(** [shell.rs]; the result is what it logs *)
Definition naive_nth_prime (fuel : nat) (n : Z) : outcome Z := nth_prime_loop (λ i, uadd 64 i 1) fuel n 0 2.

(** ** [primes.c] *)
Module PrimesC.
Definition int (x : Z) : outcome Z := if (- 2 ^ 31 <=? x) && (x <? 2 ^ 31) then Ret x else Panic Undefined.
Definition load (a : list Z) (i : Z) : outcome Z :=
  if 0 <=? i then match a !! Z.to_nat i with Some c => Ret c | None => Panic Undefined end else Panic Undefined.
Definition store (a : list Z) (i v : Z) : outcome (list Z) :=
  _ ← load a i;
  mret (<[Z.to_nat i := v]> a).

Definition c_naive_nth_prime (fuel : nat) (n : Z) : outcome Z := nth_prime_loop (λ i, int (i + 1)) fuel n 0 2.

Fixpoint strlen_loop (s : list Z) (len : Z) : outcome Z :=
  match s with
  | [] => Panic Undefined
  | c :: s => if c =? 0 then mret len else strlen_loop s (len + 1)
  end.
Definition strlen (s : list Z) : outcome Z := strlen_loop s 0.

(** [dest] is an index of [buffer]; the result is where the copied string ends *)
Fixpoint strcpy (buffer : list Z) (dest : Z) (src : list Z) : outcome (list Z * Z) :=
  match src with
  | [] => Panic Undefined
  | c :: src =>
      if c =? 0 then buffer ← store buffer dest 0; mret (buffer, dest)
      else buffer ← store buffer dest c; strcpy buffer (dest + 1) src
  end.

Fixpoint digits_loop (fuel : nat) (x : Z) (buffer : list Z) (base i : Z) : outcome (list Z * Z) :=
  match fuel with
  | O => Diverge
  | S fuel =>
      if 0 <? x then
        buffer ← store buffer (base + i) (x mod 10 + 48);
        digits_loop fuel (x / 10) buffer base (i + 1)
      else mret (buffer, i)
  end.

Fixpoint reverse_loop (fuel : nat) (buffer : list Z) (base i j : Z) : outcome (list Z) :=
  match fuel with
  | O => Diverge
  | S fuel =>
      if i <? j then
        tmp ← load buffer (base + i);
        c ← load buffer (base + j);
        buffer ← store buffer (base + i) c;
        buffer ← store buffer (base + j) tmp;
        reverse_loop fuel buffer base (i + 1) (j - 1)
      else mret buffer
  end.

(** An [int] has at most ten digits. *)
Definition int_to_str (x : Z) (buffer : list Z) (base : Z) : outcome (list Z) :=
  '(buffer, i) ← digits_loop 11 x buffer base 0;
  buffer ← store buffer (base + i) 0;
  reverse_loop 11 buffer base 0 (i - 1).

(** [None]: the error was printed and the program left *)
Fixpoint str_to_int_loop (s : list Z) (x : Z) : outcome (option Z) :=
  match s with
  | [] => Panic Undefined
  | c :: s =>
      if c =? 0 then mret (Some x) else
      x ← int (x * 10);
      if (c <? 48) || (57 <? c) then mret None else
      x ← int (x + (c - 48));
      str_to_int_loop s x
  end.
Definition str_to_int (s : list Z) : outcome (option Z) := str_to_int_loop s 0.

Definition c_string (s : list Z) : list Z := s ++ [0].

(** What is printed and the exit code, of the arguments as C strings *)
Definition main (fuel : nat) (argv : list (list Z)) : outcome (list (list Z) * Z) :=
  if negb (zlen argv =? 2) then mret ([str "Usage: primes <n>" ++ [10]], 1) else
  n_str ← index argv 1;
  n ← str_to_int n_str;
  match n with
  | None => mret ([str "Error: non-digit character in integer string" ++ [10]], 1)
  | Some n =>
      nth_prime ← c_naive_nth_prime fuel n;
      let buffer := str "The " ++ replicate 96 0 in
      ptr ← strlen buffer;
      '(buffer, ptr) ← strcpy buffer ptr n_str;
      '(buffer, ptr) ← strcpy buffer ptr (c_string (str "th prime is: "));
      buffer ← int_to_str nth_prime buffer ptr;
      len ← strlen buffer;
      mret ([take (Z.to_nat len) buffer], 0)
  end.
End PrimesC.

(** ** The search finds primes *)
Definition count_primes (x : Z) : Z := zlen (filter (λ i, is_prime i = true) (range 2 x)).

Lemma is_prime_spec x : 2 ≤ x → is_prime x = true ↔ Z.prime x.
Proof.
  intros Hx. unfold Z.prime, is_prime.
  assert (∀ l, (∀ i, i ∈ l → 0 < i) → match loop (λ i _, if x mod i =? 0 then Stop false else Next ()) l () with Stop b => b | Next _ => true end = true
               ↔ ∀ i, i ∈ l → ¬ (i | x)) as H.
  { intros l. induction l as [|i l IH]; intros Hl; cbn [loop].
    - split; [intros _ i Hi; by apply not_elem_of_nil in Hi|done].
    - pose proof (Hl i ltac:(by left)). destruct (Z.eqb_spec (x mod i) 0) as [E|E].
      + split; [done|]. intros Hd. destruct (Hd i ltac:(by left)). by apply Z.mod_divide; [lia|].
      + rewrite IH by (intros; apply Hl; by right). split; intros Hd j Hj.
        * apply elem_of_cons in Hj as [->|Hj]; [|by apply Hd]. intros Hi. apply E. by apply Z.mod_divide; [lia|].
        * apply Hd. by right. }
  rewrite H by (intros i Hi%elem_of_range; lia). split.
  - intros Hd. split; [lia|]. intros i Hi. apply Hd, elem_of_range. lia.
  - intros [_ Hd] i Hi%elem_of_range. apply Hd. lia.
Qed.

Lemma count_primes_succ x : 2 ≤ x → count_primes (x + 1) = count_primes x + (if is_prime x then 1 else 0).
Proof.
  intros Hx. unfold count_primes. rewrite range_snoc by lia. replace (x + 1 - 1) with x by lia.
  rewrite filter_app, filter_cons, filter_nil. unfold zlen. rewrite length_app.
  destruct (is_prime x); [rewrite decide_True by done|rewrite decide_False by done]; cbn; lia.
Qed.

(** [p] is the [n]-th prime, counting from one: so many primes are below it. *)
Definition nth_prime (n p : Z) : Prop :=
  Z.prime p ∧ ∃ ps, NoDup ps ∧ (∀ q, q ∈ ps ↔ Z.prime q ∧ q < p) ∧ n = zlen ps + 1.

Lemma nth_prime_count n p : nth_prime n p → 2 ≤ p ∧ is_prime p = true ∧ count_primes p = n - 1.
Proof.
  intros (Hp & ps & Hnd & Hps & ->). assert (2 ≤ p) by (destruct Hp; lia). split; [done|]. split; [by apply is_prime_spec|].
  unfold count_primes. enough (filter (λ i, is_prime i = true) (range 2 p) ≡ₚ ps) as E by (unfold zlen; rewrite E; lia).
  apply NoDup_Permutation; [apply NoDup_filter, NoDup_range|done|]. intros q.
  rewrite list_elem_of_filter, elem_of_range, Hps. split.
  - intros [H1 H2]. split; [apply is_prime_spec; [lia|done]|lia].
  - intros [H1 H2]. assert (2 ≤ q) by (destruct H1; lia). split; [by apply is_prime_spec|lia].
Qed.

Lemma nth_prime_loop_ok increment n p d fuel i :
  is_prime p = true → count_primes p = n - 1 → i + Z.of_nat d = p → 2 ≤ i →
  (∀ i, 2 ≤ i ≤ p → increment i = Ret (i + 1)) → (S (S d) ≤ fuel)%nat →
  nth_prime_loop increment fuel n (count_primes i) i = Ret (p + 1).
Proof.
  intros Hp Hc. revert fuel i. induction d as [|d IH]; intros fuel i Hi H2 Hinc Hf; (destruct fuel as [|fuel]; [lia|]); cbn [nth_prime_loop].
  - replace i with p in * by lia. rewrite Hc, Hp, Hinc by lia. replace (n - 1 <? n) with true by lia. run_monad.
    destruct fuel as [|fuel]; [lia|]. cbn [nth_prime_loop]. by replace (n - 1 + 1 <? n) with false by lia.
  - assert (count_primes i ≤ n - 1) as Hle.
    { rewrite <-Hc. unfold count_primes. rewrite (range_app 2 i p), filter_app by lia. unfold zlen. rewrite length_app. lia. }
    replace (count_primes i <? n) with true by lia. rewrite Hinc by lia. run_monad.
    replace (if is_prime i then count_primes i + 1 else count_primes i) with (count_primes (i + 1))
      by (rewrite count_primes_succ by lia; destruct (is_prime i); lia).
    apply IH; [lia..|done|lia].
Qed.

(** Both searches answer one more than the prime they found. *)
Lemma prime_task_reports n p fuel :
  nth_prime n p → p + 1 < 2 ^ 64 → p ≤ Z.of_nat fuel → naive_nth_prime fuel n = Ret (p + 1).
Proof.
  intros (H2 & Hp & Hc)%nth_prime_count Hw Hf.
  apply (nth_prime_loop_ok _ n p (Z.to_nat (p - 2)) fuel 2); [done|done|lia|lia| |lia].
  intros i Hi. apply uadd_ok. lia.
Qed.

Lemma c_nth_prime_reports n p fuel :
  nth_prime n p → p + 1 < 2 ^ 31 → p ≤ Z.of_nat fuel → PrimesC.c_naive_nth_prime fuel n = Ret (p + 1).
Proof.
  intros (H2 & Hp & Hc)%nth_prime_count Hw Hf.
  apply (nth_prime_loop_ok _ n p (Z.to_nat (p - 2)) fuel 2); [done|done|lia|lia| |lia].
  intros i Hi. unfold PrimesC.int. by replace ((- 2 ^ 31 <=? i + 1) && (i + 1 <? 2 ^ 31)) with true by lia.
Qed.

(** ** C strings *)
Section strings.
Import PrimesC.
Implicit Types a b old s : list Z.

Lemma load_app a x b : load (a ++ x :: b) (zlen a) = Ret x.
Proof.
  unfold load, zlen. replace (0 <=? Z.of_nat (length a)) with true by lia. by rewrite Nat2Z.id, list_lookup_middle.
Qed.

Lemma store_app a x b v : store (a ++ x :: b) (zlen a) v = Ret (a ++ v :: b).
Proof.
  unfold store. rewrite load_app. run_monad. unfold zlen. rewrite Nat2Z.id. f_equal.
  rewrite <-(Nat.add_0_r (length a)). by rewrite insert_app_r.
Qed.

Lemma store_room a old v : old ≠ [] → store (a ++ old) (zlen a) v = Ret (a ++ v :: tail old).
Proof. destruct old; [done|]. intros _. apply store_app. Qed.

Lemma strlen_ok s b : 0 ∉ s → strlen (s ++ 0 :: b) = Ret (zlen s).
Proof.
  unfold strlen. enough (∀ n, 0 ∉ s → strlen_loop (s ++ 0 :: b) n = Ret (n + zlen s)) as H by (apply (H 0)).
  induction s as [|c s IH]; intros n Hs; cbn [strlen_loop app].
  - rewrite Z.eqb_refl. unfold zlen. cbn. f_equal. lia.
  - apply not_elem_of_cons in Hs as [H0 Hs]. replace (c =? 0) with false by lia. rewrite IH by done. unfold zlen. cbn. f_equal. lia.
Qed.

Lemma strcpy_ok s a old :
  0 ∉ s → zlen s < zlen old →
  strcpy (a ++ old) (zlen a) (c_string s) = Ret (a ++ s ++ 0 :: drop (S (length s)) old, zlen (a ++ s)).
Proof.
  unfold c_string. revert a old. induction s as [|c s IH]; intros a old Hs Hl; cbn [strcpy app].
  - rewrite Z.eqb_refl, store_room by (intros ->; cbn in Hl; lia). run_monad. rewrite app_nil_r. by destruct old.
  - apply not_elem_of_cons in Hs as [H0 Hs]. replace (c =? 0) with false by lia.
    rewrite store_room by (intros ->; unfold zlen in Hl; cbn in Hl; lia). run_monad.
    replace (a ++ c :: tail old) with ((a ++ [c]) ++ tail old) by (by rewrite <-app_assoc).
    replace (zlen a + 1) with (zlen (a ++ [c])) by (unfold zlen; rewrite length_app; cbn; lia).
    rewrite IH; [|done|]. 2: { destruct old; unfold zlen in *; cbn in *; lia. }
    rewrite <-!app_assoc. cbn [app length]. by destruct old.
Qed.

Lemma str_to_int_ok ds :
  Forall (λ c, is_digit c = true) ds → value ds < 2 ^ 31 → str_to_int (c_string ds) = Ret (Some (value ds)).
Proof.
  unfold str_to_int, value, c_string. intros Hds.
  enough (∀ x, 0 ≤ x → foldl (λ acc c, acc * 10 + (c - 48)) x ds < 2 ^ 31 →
    x ≤ foldl (λ acc c, acc * 10 + (c - 48)) x ds ∧
    str_to_int_loop (ds ++ [0]) x = Ret (Some (foldl (λ acc c, acc * 10 + (c - 48)) x ds))) as H by (apply H; lia).
  induction Hds as [|c ds Hc Hds IH]; intros x Hx Hv; cbn [foldl app str_to_int_loop] in *.
  - by rewrite Z.eqb_refl.
  - unfold is_digit in Hc. destruct (IH (x * 10 + (c - 48))) as [Hle E]; [lia|done|]. split; [lia|].
    replace (c =? 0) with false by lia. unfold int. replace ((- 2 ^ 31 <=? x * 10) && (x * 10 <? 2 ^ 31)) with true by lia.
    run_monad. replace ((c <? 48) || (57 <? c)) with false by lia.
    replace ((- 2 ^ 31 <=? x * 10 + (c - 48)) && (x * 10 + (c - 48) <? 2 ^ 31)) with true by lia. run_monad. done.
Qed.

(** The digits of a number, last digit first *)
Fixpoint rdigits (fuel : nat) (x : Z) : list Z :=
  match fuel with O => [] | S fuel => if 0 <? x then (x mod 10 + 48) :: rdigits fuel (x / 10) else [] end.

Lemma rdigits_digits f g x :
  0 < x → x < 10 ^ Z.of_nat f → x < 2 ^ Z.of_nat g → rev (rdigits f x) = digits g x.
Proof.
  revert g x. induction f as [|f IH]; intros g x H0 Hf Hg; [cbn in Hf; lia|].
  destruct g as [|g]; [cbn in Hg; lia|]. cbn [rdigits digits]. replace (0 <? x) with true by lia. cbn [rev].
  rewrite Nat2Z.inj_succ, Z.pow_succ_r in Hf, Hg by lia. destruct (Z.ltb_spec x 10).
  - assert (x / 10 = 0) as -> by zdm. rewrite Z.mod_small by lia. destruct f; cbn; f_equal; lia.
  - rewrite (IH g (x / 10)) by zdm. f_equal. f_equal. lia.
Qed.

Lemma rdigits_length f x : (length (rdigits f x) ≤ f)%nat.
Proof. revert x. induction f as [|f IH]; intros x; cbn; [lia|]. destruct (0 <? x); cbn; [|lia]. specialize (IH (x / 10)). lia. Qed.

Lemma digits_loop_ok fuel x a w old :
  0 ≤ x < 10 ^ Z.of_nat fuel → (length (rdigits fuel x) ≤ length old)%nat →
  digits_loop (S fuel) x (a ++ w ++ old) (zlen a) (zlen w) =
  Ret (a ++ (w ++ rdigits fuel x) ++ drop (length (rdigits fuel x)) old, zlen (w ++ rdigits fuel x)).
Proof.
  revert x w old. induction fuel as [|fuel IH]; intros x w old Hx Hl.
  - cbn in Hx. cbn. replace (0 <? x) with false by lia. by rewrite app_nil_r.
  - rewrite Nat2Z.inj_succ, Z.pow_succ_r in Hx by lia. cbn [rdigits] in *.
    change (digits_loop (S (S fuel)) x) with (λ buffer base i, if 0 <? x then
        buffer ← store buffer (base + i) (x mod 10 + 48); digits_loop (S fuel) (x / 10) buffer base (i + 1)
      else mret (buffer, i)). cbv beta. destruct (Z.ltb_spec 0 x).
    2: { by rewrite app_nil_r. }
    cbn [length] in *. assert (zlen a + zlen w = zlen (a ++ w)) as -> by (unfold zlen; rewrite length_app; lia).
    rewrite app_assoc, store_room by (intros ->; cbn in Hl; lia). run_monad.
    replace ((a ++ w) ++ x mod 10 + 48 :: tail old) with (a ++ (w ++ [x mod 10 + 48]) ++ tail old) by (by rewrite <-!app_assoc).
    replace (zlen w + 1) with (zlen (w ++ [x mod 10 + 48])) by (unfold zlen; rewrite length_app; cbn; lia).
    rewrite IH; [|zdm|destruct old; cbn in *; lia]. rewrite <-!(app_assoc w). cbn [app].
    destruct old; [cbn in Hl; lia|]. done.
Qed.

Lemma reverse_loop_ok n fuel seg a b done after :
  (length seg ≤ n)%nat → (n < fuel + fuel)%nat → length done = length after →
  reverse_loop fuel (a ++ done ++ seg ++ after ++ b) (zlen a) (zlen done) (zlen done + zlen seg - 1) =
  Ret (a ++ done ++ rev seg ++ after ++ b).
Proof.
  revert fuel seg done after. induction n as [n IH] using lt_wf_ind. intros fuel seg done after Hn Hf Hda.
  destruct fuel as [|fuel]; [lia|]. cbn [reverse_loop]. destruct seg as [|x seg].
  { replace (zlen done <? zlen done + zlen [] - 1) with false by (unfold zlen; cbn; lia). done. }
  destruct seg as [|y m _] using rev_ind.
  { replace (zlen done <? zlen done + zlen [x] - 1) with false by (unfold zlen; cbn; lia). done. }
  assert (length (x :: m ++ [y]) = S (S (length m))) as Hlen by (cbn; rewrite length_app; cbn; lia).
  replace (zlen done <? zlen done + zlen (x :: m ++ [y]) - 1) with true by (unfold zlen; lia).
  assert (∀ u v, a ++ done ++ (u :: m ++ [v]) ++ after ++ b = (a ++ done) ++ u :: (m ++ v :: after ++ b)) as E1
    by (intros; by rewrite <-!app_assoc; cbn; rewrite <-!app_assoc).
  assert (∀ u v, a ++ done ++ (u :: m ++ [v]) ++ after ++ b = (a ++ done ++ u :: m) ++ v :: after ++ b) as E2
    by (intros; by rewrite <-!app_assoc; cbn; rewrite <-!app_assoc).
  assert (zlen a + zlen done = zlen (a ++ done)) as Ei by (unfold zlen; rewrite length_app; lia).
  assert (∀ u, zlen a + (zlen done + zlen (x :: m ++ [y]) - 1) = zlen (a ++ done ++ u :: m)) as Ej
    by (intros; unfold zlen; rewrite Hlen, !length_app; cbn; lia).
  rewrite E1 at 1. rewrite Ei, load_app. run_monad. rewrite E2 at 1. rewrite (Ej x), load_app. run_monad.
  rewrite E1, store_app. run_monad. rewrite <-E1, E2, <-(Ej x), (Ej y), store_app. run_monad. rewrite <-E2.
  specialize (IH (length m) ltac:(lia) fuel m (done ++ [y]) (x :: after) ltac:(lia) ltac:(lia)).
  rewrite length_app in IH. cbn [length] in IH. specialize (IH ltac:(lia)).
  replace (zlen done + 1) with (zlen (done ++ [y])) by (unfold zlen; rewrite length_app; cbn; lia).
  replace (zlen done + zlen (x :: m ++ [y]) - 1 - 1) with (zlen (done ++ [y]) + zlen m - 1)
    by (unfold zlen; rewrite Hlen, length_app; cbn; lia).
  replace (a ++ done ++ (y :: m ++ [x]) ++ after ++ b) with (a ++ (done ++ [y]) ++ m ++ (x :: after) ++ b)
    by (rewrite <-!app_assoc; cbn; by rewrite <-!app_assoc).
  rewrite IH. cbn [rev]. rewrite rev_app_distr. cbn [rev app]. by rewrite <-!app_assoc.
Qed.

Lemma int_to_str_ok x a old :
  0 < x < 2 ^ 31 → (11 ≤ length old)%nat →
  ∃ rest, int_to_str x (a ++ old) (zlen a) = Ret (a ++ decimal x ++ 0 :: rest).
Proof.
  intros Hx Hl. pose proof (rdigits_length 10 x) as Hr.
  assert (digits_loop 11 x (a ++ old) (zlen a) 0 =
          Ret (a ++ rdigits 10 x ++ drop (length (rdigits 10 x)) old, zlen (rdigits 10 x))) as E.
  { apply (digits_loop_ok 10 x a [] old); [change (10 ^ Z.of_nat 10) with 10000000000; lia|lia]. }
  unfold int_to_str. rewrite E. run_monad.
  assert (drop (length (rdigits 10 x)) old ≠ []) as Hd.
  { assert (0 < length (drop (length (rdigits 10 x)) old))%nat as Hd by (rewrite length_drop; lia). intros Ed. rewrite Ed in Hd. cbn in Hd. lia. }
  assert (zlen a + zlen (rdigits 10 x) = zlen (a ++ rdigits 10 x)) as -> by (unfold zlen; rewrite length_app; lia).
  rewrite app_assoc, store_room by done. run_monad. eexists. rewrite <-app_assoc.
  pose proof (reverse_loop_ok 10 11 (rdigits 10 x) a (0 :: tail (drop (length (rdigits 10 x)) old)) [] []
    ltac:(lia) ltac:(lia) eq_refl) as R. cbn [app] in R. change (zlen (@nil Z)) with 0 in R. rewrite Z.add_0_l in R. rewrite R.
  f_equal. f_equal. f_equal. unfold decimal. apply rdigits_digits; [lia|change (10 ^ Z.of_nat 10) with 10000000000; lia|].
  rewrite Nat2Z.inj_succ, Z2Nat.id by apply Z.log2_nonneg. apply Z.log2_spec. lia.
Qed.

Lemma digits_no_nul ds : Forall (λ c, is_digit c = true) ds → 0 ∉ ds.
Proof. intros H Hin. rewrite Forall_forall in H. by specialize (H 0 Hin). Qed.

(** the user program [primes] called with the number [n] in decimal (leading zeros
    allowed, at most 72 digits so that its message fits in its buffer) prints its message
    and exits with code 0, without undefined behaviour, if the [n]-th prime [p] is less
    than [2^31 - 1].  The number in the message is [p + 1], not [p]. *)
Theorem primes_program prog ds p fuel :
  Forall (λ c, is_digit c = true) ds → zlen ds ≤ 72 → nth_prime (value ds) p → p + 1 < 2 ^ 31 → p ≤ Z.of_nat fuel →
  value ds < 2 ^ 31 →
  main fuel [prog; c_string ds] = Ret ([str "The " ++ ds ++ str "th prime is: " ++ decimal (p + 1)], 0).
Proof.
  intros Hds Hlen Hp Hw Hf Hn. unfold main. change (negb (zlen [prog; c_string ds] =? 2)) with false. cbv iota.
  change (index [prog; c_string ds] 1) with (@Ret (list Z) (c_string ds)). run_monad. rewrite str_to_int_ok by done. run_monad.
  rewrite (c_nth_prime_reports _ p) by done. run_monad.
  change (strlen (str "The " ++ replicate 96 0)) with (@Ret Z (zlen (str "The "))). run_monad.
  pose proof (digits_no_nul ds Hds) as Hnul. unfold zlen in Hlen.
  rewrite strcpy_ok; [|done|unfold zlen; rewrite length_replicate; lia]. run_monad. rewrite drop_replicate, app_assoc.
  assert (length (str "th prime is: ") = 13%nat) as Hth by reflexivity.
  assert (0 ∉ str "The " ∧ 0 ∉ str "th prime is: ") as [Hthe Hth0] by (split; vm_compute; set_solver).
  rewrite strcpy_ok; [|done|unfold zlen; cbn [length]; rewrite length_replicate; lia]. run_monad. cbn [drop]. rewrite Hth, drop_replicate.
  rewrite app_assoc. destruct (int_to_str_ok (p + 1) ((str "The " ++ ds) ++ str "th prime is: ")
    (0 :: replicate (96 - S (length ds) - 13) 0)) as [rest ->].
  { destruct Hp as [[] _]. lia. }
  { cbn [length]. rewrite length_replicate. lia. }
  run_monad. rewrite app_assoc. assert (0 ≤ p + 1) as Hp0 by (destruct Hp as [[] _]; lia).
  assert (0 ∉ ((str "The " ++ ds) ++ str "th prime is: ") ++ decimal (p + 1)) as Hno.
  { pose proof (digits_no_nul _ (proj1 (proj2 (decimal_spec (p + 1) Hp0)))). rewrite !elem_of_app. tauto. }
  rewrite strlen_ok by done. run_monad. unfold zlen. rewrite Nat2Z.id, take_app_length. by rewrite <-!app_assoc.
Qed.
End strings.

Lemma third_prime : nth_prime 3 5.
Proof.
  split; [by apply is_prime_spec; [lia|vm_compute]|]. exists [2; 3]. split; [|split; [|done]].
  - repeat constructor; set_solver.
  - intros q. rewrite !elem_of_cons, elem_of_nil. split.
    + intros [->|[->|Hf]]; [| |done]; (split; [|lia]); by apply is_prime_spec; [lia|vm_compute].
    + intros [Hq Hlt]. assert (2 ≤ q) by (destruct Hq; lia). apply is_prime_spec in Hq; [|done].
      assert (q = 2 ∨ q = 3 ∨ q = 4) as Hcases by lia. destruct Hcases as [Hc|[Hc|Hc] ]; subst q; [tauto|tauto|by vm_compute in Hq].
Qed.

Lemma primes_program_witness :
  PrimesC.main 10 [PrimesC.c_string (str "primes"); PrimesC.c_string (str "03")] = Ret ([str "The 03th prime is: 6"], 0).
Proof.
  refine (primes_program (PrimesC.c_string (str "primes")) (str "03") 5 10 _ _ third_prime _ _ _); try lia.
  - repeat constructor.
  - vm_compute. discriminate.
  - vm_compute. reflexivity.
Defined.

(** The number zero is written as an empty string, and an argument that is too long is
    written past the end of the buffer. *)
Lemma int_to_str_zero : PrimesC.int_to_str 0 (replicate 12 1) 0 = Ret (0 :: replicate 11 1).
Proof. reflexivity. Qed.

Lemma long_argument_overflows :
  PrimesC.main 10 [PrimesC.c_string (str "primes"); PrimesC.c_string (replicate 100 48)] = Panic Undefined.
Proof. by vm_compute. Qed.
