(* ===== verification/UserAsm.v ===== *)
(** * The assembly of the user programs

    [userspace/primes/runtime.asm] (the start of a C program and the stubs of its system
    calls) and [userspace/hello/hello.asm], run on the machine of [Asm]: a system call goes
    through the instruction, the kernel's assembly and its dispatch.  The stack a program
    starts with is the one the kernel's loader leaves ([UserspaceThms]). *)
From S2P Require Import Prelude Addr PhysMem Transmute Ext2Dir Asm Sched TaskMem Userspace UserspaceThms.
#[local] Open Scope Z_scope.

(** What a program does to the outside *)
Inductive event : Type := Printed (line : list Z) | Exited (code : TaskExitCode) | Trapped.

(** A run: its events, and the machine unless the program is gone *)
Abbreviation run := (outcome (list event * option machine)).

Definition and_then (r : run) (f : machine → run) : run :=
  '(ev, m) ← r;
  match m with
  | None => mret (ev, None)
  | Some m => '(ev', m) ← f m; mret (ev ++ ev', m)
  end.

(** The instructions of the programs besides those of [Asm] *)
Inductive uinstr : Type :=
| Plain (i : instr)
| UCall (f : machine → run)
| Syscall
| Int3.

Section user.
(** The lengths of the encoded instructions; where the kernel's handler is, what its C part
    does to the machine, and the bytes of the program's memory *)
Context (len : uinstr → Z) (handler : Z) (inner : machine → machine) (read : Z → Z → list Z).

(** What the dispatch of [syscall_handler_inner] does for the calling task: the event, and
    whether the task is gone *)
Definition dispatch (registers : TaskRegisters) : outcome (list event * bool) :=
  let syscall_num := syscall_number_or_irq_or_error_code registers in
  if syscall_num =? 0 then mret ([Exited (exit_code_from (tr_rsi registers))], true)
  else if syscall_num =? 1 then
    line ← Syscall.syscall_print read (tr_rsi registers) (tr_rdx registers);
    mret ([Printed line], false)
  else mret ([], false).

(** [syscall], the next instruction being at [next] *)
Definition do_syscall (next : Z) (m : machine) : run :=
  let m := syscall_instruction handler next m in
  let entered := exec (take 25 (syscall_handler inner)) m in
  '(ev, gone) ← dispatch (read_task_registers (mem entered) (regs entered RDI));
  mret (ev, if (gone : bool) then None else Some (exec (syscall_handler inner) m)).

(** Code at the address [pc] *)
Fixpoint run_code (pc : Z) (code : list uinstr) (m : machine) : run :=
  match code with
  | [] => mret ([], Some m)
  | i :: code =>
      let next := pc + len i in
      match i with
      | Plain i => run_code next code (step i m)
      | UCall f => and_then (f (push_word next m)) (run_code next code)
      | Syscall => and_then (do_syscall next m) (run_code next code)
      | Int3 => and_then (mret ([Trapped], Some m)) (run_code next code)
      end
  end.

(** ** [runtime.asm] *)
Definition syscall_print : list uinstr :=
  [ Plain (MovReg RDX RSI); Plain (MovReg RSI RDI); Plain (MovImm RDI 1); Syscall; Plain RetI ].

Definition syscall_exit : list uinstr := [ Plain (MovReg RSI RDI); Plain (MovImm RDI 0); Syscall ].

(** [main] and the stub at [exit_address] *)
Definition start (main : machine → run) (exit_address : Z) : list uinstr :=
  [ Plain (Pop RDI); Plain (MovReg RSI RSP); UCall main; Plain (MovReg RDI RAX); UCall (run_code exit_address syscall_exit) ].

(** ** [hello.asm] *)
Definition hello_msg : list Z := str "Hello, world!" ++ [10].

Definition hello (msg : Z) : list uinstr :=
  [ Int3;
    Plain (MovImm RDI 1); Plain (MovImm RSI msg); Plain (MovImm RDX (zlen hello_msg)); Syscall;
    Plain (MovImm RDI 0); Plain (MovImm RSI 0); Syscall ].
End user.

(** ** The dispatch is the kernel's *)
Lemma dispatch_kernel {R} `{!TaskMemory R} read registers (st : state R) p rsp lines b st' :
  Syscall.syscall_handler_inner read registers st p rsp = Ret (lines, b, st') →
  ∃ ev gone, dispatch read registers = Ret (ev, gone) ∧ lines = omap (λ e, match e with Printed l => Some l | _ => None end) ev ∧
    (gone = true ↔ syscall_number_or_irq_or_error_code registers = 0) ∧
    (gone = true → Syscall.syscall_exit (tr_rsi registers) st p rsp = Ret st' ∧ ev = [Exited (exit_code_from (tr_rsi registers))]).
Proof.
  unfold Syscall.syscall_handler_inner, dispatch. destruct (Z.eqb_spec (syscall_number_or_irq_or_error_code registers) 0) as [E|E].
  - intros H. inv_ret. do 2 eexists. split; [done|]. by split_and!.
  - destruct (_ =? 1); intros H.
    + apply bind_ret_inv in H as (line & Hl & H). apply bind_ret_inv in H as ([b' s'] & _ & H). injection H as <- <- <-.
      rewrite Hl. do 2 eexists. split; [done|]. by split_and!.
    + apply bind_ret_inv in H as ([b' s'] & _ & H). injection H as <- <- <-. do 2 eexists. split; [done|]. by split_and!.
Qed.

(** ** Memory across a system call *)
Definition stores (i : instr) : bool :=
  match i with Push _ | PushImm _ | PushGs _ | MovStore _ _ | Call _ => true | _ => false end.

Lemma exec_mem code : ∀ m, forallb (λ i, negb (stores i)) code = true → mem (exec code m) = mem m.
Proof.
  induction code as [|i code IH]; intros m H; [done|]. cbn [forallb] in H. apply andb_true_iff in H as [Hi H].
  change (exec (i :: code) m) with (exec code (step i m)). rewrite IH by done. by destruct i.
Qed.

Lemma syscall_entry_mem m f x : 168 ≤ gs m TOP_OF_KERNEL_STACK < 2 ^ 64 →
  ¬ gs m TOP_OF_KERNEL_STACK - 168 ≤ x < gs m TOP_OF_KERNEL_STACK →
  mem (exec (take 25 (syscall_handler f)) m) x = mem m x.
Proof.
  intros Hk Hx. rewrite syscall_handler_entry, !exec_app.
  set (m1 := exec [SwapGs; MovToGs USER_STACK_SCRATCH RSP; MovFromGs RSP TOP_OF_KERNEL_STACK] m).
  assert (E1 : regs m1 RSP = gs m TOP_OF_KERNEL_STACK) by reflexivity.
  assert (E2 : mem m1 = mem m) by reflexivity.
  rewrite (exec_push _ m1 (syscall_pushed m)) by reflexivity. clearbody m1.
  destruct (push_all_ok (syscall_pushed m) m1) as (_ & _ & _ & F4 & _);
    change (8 * zlen (syscall_pushed m)) with 168 in *; [lia|].
  rewrite exec_mem by done. rewrite F4 by lia. by rewrite E2.
Qed.

(** ** Programs *)
Section programs.
Context (len : uinstr → Z) (handler : Z) (inner : machine → machine) (read : Z → Z → list Z).
Context (Hinner : c_call inner).
(** The kernel's handler leaves the lower half of the address space alone. *)
Context (Huser : ∀ m x, x < 2 ^ 47 → mem (inner m) x = mem m x).

(** A machine in user mode, with a kernel stack for its system calls in the upper half *)
Record ready (m : machine) : Prop := {
  rd_stack : 2 ^ 47 + 168 ≤ gs m TOP_OF_KERNEL_STACK < 2 ^ 64;
  rd_gs : gs_is_kernel m = false;
}.

(** After a system call that returns *)
Record returned (next : Z) (m m' : machine) : Prop := {
  rt_regs r : r ∉ [RAX; RCX; R11] → regs m' r = regs m r;
  rt_rip : rip m' = next;
  rt_mem x : x < 2 ^ 47 → mem m' x = mem m x;
  rt_ready : ready m';
}.

Lemma do_syscall_ok next m : ready m →
  ∃ m', do_syscall handler inner read next m =
      ('(ev, gone) ← dispatch read (syscall_registers (syscall_instruction handler next m));
       mret (ev, if (gone : bool) then None else Some m')) ∧ returned next m m'.
Proof.
  intros [Hk Hg]. set (m0 := syscall_instruction handler next m).
  assert (Hk0 : 168 ≤ gs m0 TOP_OF_KERNEL_STACK < 2 ^ 64) by (change (gs m0) with (gs m); lia).
  destruct (syscall_runs m0 inner Hinner Hk0 Hg) as ((m3 & E3 & Er & _) & G1 & _ & G3 & _ & _ & G6 & G7).
  exists (exec (syscall_handler inner) m0). unfold do_syscall. fold m0. cbv zeta. rewrite E3, Er. split; [done|]. split.
  - intros r Hr. rewrite !not_elem_of_cons in Hr. destruct Hr as (H1 & H2 & H3 & _). rewrite G1 by done.
    change (regs m0) with (upd (upd (regs m) RCX next) R11 (rflags m)). by rewrite !upd_ne.
  - rewrite G3. change (regs m0) with (upd (upd (regs m) RCX next) R11 (rflags m)). by rewrite upd_ne, upd_eq.
  - intros x Hx. rewrite (syscall_handler_split inner), exec_app, E3, exec_app. rewrite exec_mem by done.
    change (exec [Call inner] m3) with (inner m3). rewrite Huser by done. rewrite <-E3, syscall_entry_mem; [done|done|].
    change (gs m0) with (gs m). lia.
  - split; [rewrite G6; exact Hk|done].
Qed.

Lemma sys_exit next m : ready m → regs m RDI = 0 →
  do_syscall handler inner read next m = Ret ([Exited (exit_code_from (regs m RSI))], None).
Proof.
  intros Hm H0. destruct (do_syscall_ok next m Hm) as (m' & -> & _). unfold dispatch. cbn [syscall_number_or_irq_or_error_code syscall_registers].
  change (regs (syscall_instruction handler next m)) with (upd (upd (regs m) RCX next) R11 (rflags m)). rewrite !upd_ne by done. by rewrite H0.
Qed.

Lemma sys_print next m line : ready m → regs m RDI = 1 → Utf8.from_utf8 (read (regs m RSI) (regs m RDX)) = Some line →
  ∃ m', do_syscall handler inner read next m = Ret ([Printed line], Some m') ∧ returned next m m'.
Proof.
  intros Hm H1 Hl. destruct (do_syscall_ok next m Hm) as (m' & -> & Hr). exists m'. split; [|done]. unfold dispatch.
  cbn [syscall_number_or_irq_or_error_code tr_rsi tr_rdx syscall_registers].
  change (regs (syscall_instruction handler next m)) with (upd (upd (regs m) RCX next) R11 (rflags m)). rewrite !upd_ne by done. rewrite H1.
  cbn [Z.eqb]. unfold Syscall.syscall_print. by rewrite Hl.
Qed.

Lemma ready_set r v m : ready m → ready (set_reg r v m).
Proof. intros [? ?]. by split. Qed.
Hint Resolve ready_set : core.

(** Steps of a run *)
Lemma and_then_some ev m f : and_then (Ret (ev, Some m)) f = ('(ev', m) ← f m; mret (ev ++ ev', m)).
Proof. reflexivity. Qed.

Lemma and_then_none ev f : and_then (Ret (ev, None)) f = Ret (ev, None).
Proof. reflexivity. Qed.

Lemma and_then_ext r f g : (∀ ev m, r = Ret (ev, Some m) → f m = g m) → and_then r f = and_then r g.
Proof. intros H. destruct r as [[ev [m|]]| |]; [|done..]. rewrite !and_then_some. by rewrite (H ev m). Qed.

Lemma run_plain pc i code m :
  run_code len handler inner read pc (Plain i :: code) m = run_code len handler inner read (pc + len (Plain i)) code (step i m).
Proof. reflexivity. Qed.

Lemma run_syscall pc code m :
  run_code len handler inner read pc (Syscall :: code) m =
  and_then (do_syscall handler inner read (pc + len Syscall) m) (run_code len handler inner read (pc + len Syscall) code).
Proof. reflexivity. Qed.

Lemma run_int3 pc code m :
  run_code len handler inner read pc (Int3 :: code) m =
  ('(ev, m) ← run_code len handler inner read (pc + len Int3) code m; mret (Trapped :: ev, m)).
Proof. reflexivity. Qed.

Lemma run_call pc f code m :
  run_code len handler inner read pc (UCall f :: code) m =
  and_then (f (push_word (pc + len (UCall f)) m)) (run_code len handler inner read (pc + len (UCall f)) code).
Proof. reflexivity. Qed.

(** The stub of [syscall_exit] ends the program with the code in [rdi]. *)
Lemma exit_stub pc m : ready m →
  run_code len handler inner read pc syscall_exit m = Ret ([Exited (exit_code_from (regs m RDI))], None).
Proof.
  intros Hm. cbn [run_code syscall_exit step]. rewrite sys_exit; [|by repeat apply ready_set|cbn; apply upd_eq].
  cbn. rewrite !upd_ne, upd_eq by done. done.
Qed.

(** The stub of [syscall_print] prints the bytes at [rdi], whose number is in [rsi], and
    returns to its caller with the registers that a call keeps. *)
Lemma print_stub pc m line : ready m → 0 ≤ regs m RSP < 2 ^ 47 →
  Utf8.from_utf8 (read (regs m RDI) (regs m RSI)) = Some line →
  ∃ m', run_code len handler inner read pc syscall_print m = Ret ([Printed line], Some m') ∧
    rip m' = mem m (regs m RSP) ∧ regs m' RSP = regs m RSP + 8 ∧ ready m' ∧
    (∀ r, r ∈ [RBX; RBP; R12; R13; R14; R15] → regs m' r = regs m r) ∧ ∀ x, x < 2 ^ 47 → mem m' x = mem m x.
Proof.
  intros Hm Hs Hl. cbn [run_code syscall_print step]. set (m1 := set_reg RDI 1 _).
  assert (E : ∀ r, r ∉ [RDX; RSI; RDI] → regs m1 r = regs m r).
  { intros r Hr. rewrite !not_elem_of_cons in Hr. destruct Hr as (H1 & H2 & H3 & _). cbn. by rewrite !upd_ne. }
  destruct (sys_print (pc + len (Plain (MovReg RDX RSI)) + len (Plain (MovReg RSI RDI)) + len (Plain (MovImm RDI 1)) + len Syscall) m1 line)
    as (m2 & E2 & [R1 R2 R3 R4]); [by repeat apply ready_set|apply upd_eq| |].
  { cbn. rewrite upd_ne, upd_eq, (upd_ne _ RDI) , (upd_ne _ RSI), upd_eq by done. by rewrite upd_ne. }
  rewrite E2. unfold and_then. run_monad. eexists. split; [reflexivity|].
  assert (Esp : regs m2 RSP = regs m RSP) by (rewrite R1, E; [done|set_solver|set_solver]).
  cbn. rewrite Esp, upd_eq, R3 by lia. split_and!; [done|apply wrap_id; lia| | |].
  - by destruct R4.
  - intros r Hr. rewrite upd_ne by set_solver. rewrite R1, E by set_solver. done.
  - intros x Hx. by rewrite R3.
Qed.

Lemma hello_msg_utf8 : Utf8.from_utf8 hello_msg = Some hello_msg.
Proof. by vm_compute. Qed.

(** [hello] traps once, prints its line and exits with success. *)
Theorem hello_prints pc msg m : ready m → read msg (zlen hello_msg) = hello_msg →
  run_code len handler inner read pc (hello msg) m = Ret ([Trapped; Printed hello_msg; Exited ExitSuccess], None).
Proof.
  intros Hm Hr. unfold hello. rewrite run_int3, !run_plain, run_syscall. cbn [step].
  set (m1 := set_reg RDX _ _). match goal with |- context [do_syscall _ _ _ ?n m1] => set (next := n) end.
  destruct (sys_print next m1 hello_msg) as (m2 & E2 & [_ _ _ R4]); [by repeat apply ready_set|done| |].
  { unfold m1. cbn [set_reg regs]. rewrite upd_eq, !(upd_ne _ _ RSI), upd_eq, Hr by done. exact hello_msg_utf8. }
  rewrite E2, and_then_some, !run_plain, run_syscall. cbn [step].
  rewrite sys_exit, and_then_none; [|by repeat apply ready_set|]; cbn [set_reg regs].
  - rewrite upd_eq. done.
  - rewrite upd_ne, upd_eq; done.
Qed.

(** ** The start of a C program *)
(** The word of memory at [a], of bytes *)
Definition word_at (byte : Z → Z) (a : Z) : Z := le_combine (map (λ i, byte (a + Z.of_nat i)) (seq 0 8)).

Lemma word_at_holds byte a v : in_width 64 v → holds byte a (le_split 8 v) → word_at byte a = v.
Proof.
  intros Hv H. unfold word_at. rewrite <-(le_combine_split 8 v) by done. f_equal. apply list_eq. intros i.
  destruct (le_split 8 v !! i) as [b|] eqn:E.
  - pose proof (lookup_lt_Some _ _ _ E) as Hi. rewrite length_le_split in Hi. rewrite list_lookup_fmap, lookup_seq_lt by lia.
    cbn. f_equal. by apply H.
  - apply lookup_ge_None in E. rewrite length_le_split in E. apply lookup_ge_None. by rewrite length_map, length_seq.
Qed.

(** What [main] finds: its two arguments, and the strings that the second leads to *)
Record called (byte : Z → Z) (args : list (list Z)) (return_address : Z) (m : machine) : Prop := {
  ca_argc : regs m RDI = zlen args;
  ca_argv i arg : args !! i = Some arg → holds byte (mem m (regs m RSI + 8 * Z.of_nat i)) (arg ++ [0]);
  ca_return : mem m (regs m RSP) = return_address;
  ca_ready : ready m;
}.

(** C22: From [jump_to_userspace], on the stack that the loader leaves, [_start] calls [main] with
    the arguments of the program, and ends the program with the code that [main] returns. *)
Theorem program_starts main exit_address byte args sp top m0 :
  (∀ m ev m', ready m → main m = Ret (ev, Some m') → ready m') →
  regs m0 RSI = sp → 2 ^ 47 + 168 ≤ regs m0 RSP < 2 ^ 64 → gs_is_kernel m0 = true →
  0 ≤ sp → sp + 8 ≤ top → top ≤ 2 ^ 47 → argument_block byte args sp top →
  (∀ a, sp ≤ a → a + 8 ≤ top → a mod 8 = 0 → mem m0 a = word_at byte a) →
  let pc := regs m0 RDI in
  let return_address := pc + len (Plain (Pop RDI)) + len (Plain (MovReg RSI RSP)) + len (UCall main) in
  ∃ m1, called byte args return_address m1 ∧
    run_code len handler inner read pc (start len handler inner read main exit_address) (exec jump_to_userspace m0) =
    and_then (main m1) (λ m, Ret ([Exited (exit_code_from (regs m RAX))], None)).
Proof.
  intros Hmain Hsp Hk Hg H0 H8 Htop [Ha Hc Hv] Hw pc ret. unfold start. rewrite !run_plain, run_call. fold ret. set (m := exec jump_to_userspace m0).
  set (m1 := push_word ret (step (MovReg RSI RSP) (step (Pop RDI) m))). exists m1.
  assert (Hm1 : ready m1) by (split; [exact Hk|change (negb (gs_is_kernel m0) = false); by rewrite Hg]).
  assert (Hz : in_width 64 (zlen args)).
  { pose proof (zlen_nonneg args). split; [done|]. destruct args as [|arg args]; [done|].
    destruct (Hv 0%nat arg eq_refl) as (loc & _ & _ & Hl & Hl'). pose proof (zlen_nonneg arg). lia. }
  assert (Esp : regs (step (Pop RDI) m) RSP = sp + 8).
  { change (wrap 64 (regs m0 RSI + 8) = sp + 8). rewrite Hsp. apply wrap_id. lia. }
  assert (Emem : mem m1 = store_set (mem m0) sp ret).
  { unfold m1, push_word. cbn [set_reg set_mem mem]. change (regs (step (MovReg RSI RSP) (step (Pop RDI) m)) RSP) with (regs (step (Pop RDI) m) RSP).
    rewrite Esp, wrap_id by lia. by replace (sp + 8 - 8) with sp by lia. }
  split; [split|].
  - change (mem m0 (regs m0 RSI) = zlen args). rewrite Hsp, Hw by lia. by apply word_at_holds.
  - intros i arg Hi. destruct (Hv i arg Hi) as (loc & Hl1 & Hl2 & Hl3 & Hl4). pose proof (lookup_lt_Some _ _ _ Hi). pose proof (zlen_nonneg arg).
    change (regs m1 RSI) with (regs (step (Pop RDI) m) RSP). rewrite Esp, Emem, store_set_ne by lia. unfold zlen in Hl3.
    rewrite Hw; [|lia|lia|zdm]. replace (sp + 8 + 8 * Z.of_nat i) with (sp + 8 * (Z.of_nat i + 1)) by lia.
    rewrite (word_at_holds _ _ loc); [done|split; lia|done].
  - change (mem m1 (wrap 64 (regs (step (Pop RDI) m) RSP - 8)) = ret). rewrite Esp, Emem, wrap_id by lia.
    replace (sp + 8 - 8) with sp by lia. apply store_set_eq.
  - done.
  - apply and_then_ext. intros ev m' E. rewrite run_plain, run_call, exit_stub, and_then_none; [done|].
    split; apply (Hmain _ _ _ Hm1 E).
Qed.
End programs.

(** ** A program with one argument *)
Module Example.
Definition args : list (list Z) := [str "hi"].
Definition byte (a : Z) : Z :=
  if a =? 0x1000 then 1 else if (a =? 0x1008) || (a =? 0x1009) then 0x10
  else if a =? 0x1010 then 104 else if a =? 0x1011 then 105 else 0.
Definition m0 : machine :=
  mkMachine (λ r, match r with RSI => 0x1000 | RSP => 2 ^ 63 | RDI => 0x400000 | _ => 0 end) (word_at byte) 0 0 0 (λ _, 0) true false.
Definition main (m : machine) : run := Ret ([Printed (str "hi")], Some (set_reg RAX 1 m)).
Definition len (i : uinstr) : Z := 3.

Lemma block : argument_block byte args 0x1000 0x1018.
Proof.
  split; [done| |].
  - intros i b Hi. do 8 (destruct i as [|i]; [by injection Hi as <-|]). done.
  - intros i arg Hi. destruct i as [|i]; [|done]. injection Hi as <-. exists 0x1010. split_and!; [| |done|done].
    + intros i b Hi. do 8 (destruct i as [|i]; [by injection Hi as <-|]). done.
    + intros i b Hi. do 3 (destruct i as [|i]; [by injection Hi as <-|]). done.
Qed.

Lemma program_starts_witness :
  ∃ m1, called byte args 0x400009 m1 ∧
    run_code len 0 (λ m, m) (λ _ _, []) 0x400000 (start len 0 (λ m, m) (λ _ _, []) main 0x500000) (exec jump_to_userspace m0) =
    Ret ([Printed (str "hi"); Exited (ExitFailure 1)], None).
Proof.
  destruct (program_starts len 0 (λ m, m) (λ _ _, []) ltac:(by split) ltac:(done) main 0x500000 byte args 0x1000 0x1018 m0)
    as (m1 & Hc & E); [|done|by vm_compute|done|done|done|done|exact block|done|].
  - intros m ev m' [H1 H2] E. injection E as _ <-. by split.
  - exists m1. split; [exact Hc|]. etransitivity; [exact E|reflexivity].
Defined.

Definition msg_machine : machine :=
  mkMachine (λ _, 0) (λ _, 0) 0 0 0 (λ _, 2 ^ 63) false true.

Lemma hello_prints_witness :
  run_code len 0 (λ m, m) (λ _ _, hello_msg) 0x400000 (hello 0x402000) msg_machine = Ret ([Trapped; Printed hello_msg; Exited ExitSuccess], None).
Proof. apply hello_prints; [by split|done|by split; vm_compute|done]. Defined.
End Example.
