(* ===== verification/GrubBoot.v ===== *)
(** * The earlier boot code ([old-code/grub-64-bit-boot])

    [boot.asm] is started by a multiboot loader in 32-bit mode without paging; it checks the
    CPU, maps the first GiB of memory to itself with pages of 2 MiB, turns on long mode and
    jumps to [long_mode_start] of [long_mode_init.asm].  The program is a list of instructions
    run on a machine with memory of bytes, whose accesses (fetches too) go through the page
    tables in memory once paging is on. *)
From S2P Require Import Prelude Transmute Ext2Dir.
#[local] Open Scope Z_scope.

Inductive reg32 : Type := EAX | EBX | ECX | EDX | EDI | ESP.
#[export] Instance reg32_eq_dec : EqDecision reg32.
Proof. solve_decision. Defined.

Record cpu : Type := mkCpu {
  reg : reg32 → Z;
  eflags : Z;
  cr0 : Z;
  cr3 : Z;
  cr4 : Z;
  efer : Z;
  gdtr : Z * Z;        (** limit and base *)
  ram : Z → Z;         (** the bytes of physical memory *)
}.

Definition set_reg (r : reg32) (v : Z) (m : cpu) : cpu :=
  mkCpu (λ x, if decide (x = r) then v else reg m x) (eflags m) (cr0 m) (cr3 m) (cr4 m) (efer m) (gdtr m) (ram m).
Definition set_eflags (v : Z) (m : cpu) : cpu := mkCpu (reg m) v (cr0 m) (cr3 m) (cr4 m) (efer m) (gdtr m) (ram m).
Definition set_cr0 (v : Z) (m : cpu) : cpu := mkCpu (reg m) (eflags m) v (cr3 m) (cr4 m) (efer m) (gdtr m) (ram m).
Definition set_cr3 (v : Z) (m : cpu) : cpu := mkCpu (reg m) (eflags m) (cr0 m) v (cr4 m) (efer m) (gdtr m) (ram m).
Definition set_cr4 (v : Z) (m : cpu) : cpu := mkCpu (reg m) (eflags m) (cr0 m) (cr3 m) v (efer m) (gdtr m) (ram m).
Definition set_efer (v : Z) (m : cpu) : cpu := mkCpu (reg m) (eflags m) (cr0 m) (cr3 m) (cr4 m) v (gdtr m) (ram m).
Definition set_gdtr (v : Z * Z) (m : cpu) : cpu := mkCpu (reg m) (eflags m) (cr0 m) (cr3 m) (cr4 m) (efer m) v (ram m).
Definition set_ram (f : Z → Z) (m : cpu) : cpu := mkCpu (reg m) (eflags m) (cr0 m) (cr3 m) (cr4 m) (efer m) (gdtr m) f.

(** ** Memory *)
Definition read_bytes (f : Z → Z) (a : Z) (n : nat) : list Z := (λ i, f (a + Z.of_nat i)) <$> seq 0 n.
Definition read_le (f : Z → Z) (a : Z) (n : nat) : Z := le_combine (read_bytes f a n).
Definition write_le (a : Z) (n : nat) (v : Z) (f : Z → Z) : Z → Z :=
  λ x, if decide (a ≤ x < a + Z.of_nat n) then le_split n v !!! Z.to_nat (x - a) else f x.

(** The walk of four levels: [level] tables are left below the one at [table]. *)
Fixpoint walk (f : Z → Z) (level : nat) (table : Z) (a : Z) : option Z :=
  let shift := 12 + 9 * Z.of_nat level in
  let entry := read_le f (table + 8 * (Z.shiftr a shift mod 512)) 8 in
  let next := Z.land entry 0xf_ffff_ffff_f000 in
  if negb (Z.testbit entry 0) then None
  else match level with
  | O => Some (next + a mod 2 ^ shift)
  | S level' =>
      if Z.testbit entry 7 then (if (level' =? 2)%nat then None else Some (Z.shiftl (Z.shiftr next shift) shift + a mod 2 ^ shift))
      else walk f level' next a
  end.

(** Paging is on: bit 31 of CR0. *)
Definition paging (m : cpu) : bool := Z.testbit (cr0 m) 31.

Definition linear (m : cpu) (a : Z) : option Z := if paging m then walk (ram m) 3 (Z.land (cr3 m) 0xf_ffff_ffff_f000) a else Some a.

(** The physical address of an access of [n] bytes, which no access of the program splits *)
Definition access (m : cpu) (a : Z) (n : nat) : option Z :=
  p ← linear m a; q ← linear m (a + Z.of_nat n - 1); if q =? p + Z.of_nat n - 1 then Some p else None.

Definition load (m : cpu) (a : Z) (n : nat) : option Z := p ← access m a n; Some (read_le (ram m) p n).
Definition store (a : Z) (n : nat) (v : Z) (m : cpu) : option cpu := p ← access m a n; Some (set_ram (write_le p n v (ram m)) m).

Definition push32 (v : Z) (m : cpu) : option cpu :=
  let sp := wrap 32 (reg m ESP - 4) in m ← store sp 4 v m; Some (set_reg ESP sp m).
Definition pop32 (m : cpu) : option (Z * cpu) :=
  v ← load m (reg m ESP) 4; Some (v, set_reg ESP (wrap 32 (reg m ESP + 4)) m).

(** ** Instructions *)
Inductive label : Type :=
| start | check_multiboot | no_multiboot | check_cpuid | no_cpuid | check_long_mode | no_long_mode
| set_up_page_tables | map_p2_table | enable_paging | error.
#[export] Instance label_eq_dec : EqDecision label.
Proof. solve_decision. Defined.

Inductive cond : Type := CE | CNE | CB.

Inductive instr : Type :=
| MovImm (r : reg32) (v : Z)
| MovAl (v : Z)
| MovReg (d s : reg32)
| StoreReg (a : Z) (r : reg32)                 (** [mov [a], r] *)
| StoreIndexed (a : Z) (i r : reg32)           (** [mov [a + i * 8], r] *)
| StoreImm (a v : Z)                           (** [mov dword [a], v] *)
| StoreAl (a : Z)                              (** [mov byte [a], al] *)
| OrImm (r : reg32) (v : Z)
| XorImm (r : reg32) (v : Z)
| CmpImm (r : reg32) (v : Z)
| CmpReg (r s : reg32)
| TestImm (r : reg32) (v : Z)
| Inc (r : reg32)
| Mul (r : reg32)
| Push (r : reg32)
| Pop (r : reg32)
| Pushfd
| Popfd
| Cpuid
| Rdmsr
| Wrmsr
| MovFromCr (r : reg32) (n : Z)
| MovToCr (n : Z) (r : reg32)
| Call (l : label)
| RetI
| Jmp (l : label)
| Jcc (c : cond) (l : label)
| Lgdt (a : Z)
| JmpFar (selector : Z)                        (** [jmp selector:long_mode_start] *)
| Hlt.

(** Of the status flags, the zero flag and the carry flag are kept; the program tests no other. *)
Definition set_flags (zf cf : bool) (m : cpu) : cpu :=
  set_eflags (Z.lor (Z.ldiff (eflags m) (2 ^ 6 + 1)) ((if zf then 2 ^ 6 else 0) + (if cf then 1 else 0))) m.
Definition zf (m : cpu) : bool := Z.testbit (eflags m) 6.
Definition cf (m : cpu) : bool := Z.testbit (eflags m) 0.

Definition holds_cond (c : cond) (m : cpu) : bool :=
  match c with CE => zf m | CNE => negb (zf m) | CB => cf m end.

Definition IA32_EFER : Z := 0xC0000080.
Definition LME : Z := 8.
Definition LMA : Z := 10.
Definition PAE : Z := 5.

(** A write to CR0 that turns on paging activates long mode if EFER.LME is set; CR4.PAE has to
    be set then. *)
Definition write_cr0 (v : Z) (m : cpu) : option cpu :=
  if Z.testbit v 31 && negb (paging m) && Z.testbit (efer m) LME then
    if Z.testbit (cr4 m) PAE then Some (set_cr0 v (set_efer (Z.setbit (efer m) LMA) m)) else None
  else Some (set_cr0 v m).

(** What the CPU offers: whether the ID flag can be changed, and what [cpuid] returns *)
Record processor : Type := mkProcessor {
  has_cpuid : bool;
  cpuid : Z → Z * Z * Z * Z;
}.

(** *** The state between instructions *)
Inductive config : Type :=
| Running (eip : nat) (m : cpu)
| Halted (m : cpu)
| Long (m : cpu)          (** in 64-bit mode at [long_mode_start] *)
| Fault.

Section program.
(** Where the linker puts the page tables, [multiboot_header], the descriptor table and each
    instruction, and the CPU *)
Context (p4_table multiboot_header gdt64 : Z) (addr : nat → Z) (proc : processor).

Definition p3_table : Z := p4_table + 4096.
Definition p2_table : Z := p3_table + 4096.
Definition stack_bottom : Z := p2_table + 4096.
Definition stack_top : Z := stack_bottom + 4096 * 16.

(** *** [boot.asm] *)
Definition error_code : list instr :=
  [ StoreImm 0xb8000 0x4f524f45; StoreImm 0xb8004 0x4f3a4f52; StoreImm 0xb8008 0x4f204f20; StoreAl 0xb800a; Hlt ].

Definition code (l : label) : list instr :=
  match l with
  | start =>
      [ MovImm ESP stack_top;
        Call check_multiboot; Call check_cpuid; Call check_long_mode;
        Call set_up_page_tables; Call enable_paging;
        Lgdt (gdt64 + 16); JmpFar 8 ]
  | check_multiboot => [ CmpImm EAX 0x36d76289; Jcc CNE no_multiboot; StoreReg multiboot_header EBX; RetI ]
  | no_multiboot => [ MovAl 0x30; Jmp error ]
  | check_cpuid =>
      [ Pushfd; Pop EAX; MovReg ECX EAX; XorImm EAX (Z.shiftl 1 21); Push EAX; Popfd; Pushfd; Pop EAX; Push ECX; Popfd;
        CmpReg EAX ECX; Jcc CE no_cpuid; RetI ]
  | no_cpuid => [ MovAl 0x31; Jmp error ]
  | check_long_mode =>
      [ MovImm EAX 0x80000000; Cpuid; CmpImm EAX 0x80000001; Jcc CB no_long_mode;
        MovImm EAX 0x80000001; Cpuid; TestImm EDX (Z.shiftl 1 29); Jcc CE no_long_mode; RetI ]
  | no_long_mode => [ MovAl 0x32; Jmp error ]
  | set_up_page_tables =>
      [ MovImm EAX p3_table; OrImm EAX 3; StoreReg p4_table EAX;
        MovImm EAX p2_table; OrImm EAX 3; StoreReg p3_table EAX;
        MovImm ECX 0 ]
  | map_p2_table =>
      [ MovImm EAX 0x200000; Mul ECX; OrImm EAX (Z.lor (Z.lor (Z.shiftl 1 0) (Z.shiftl 1 1)) (Z.shiftl 1 7));
        StoreIndexed p2_table ECX EAX; Inc ECX; CmpImm ECX 512; Jcc CNE map_p2_table; RetI ]
  | enable_paging =>
      [ MovImm EAX p4_table; MovToCr 3 EAX;
        MovFromCr EAX 4; OrImm EAX (Z.shiftl 1 5); MovToCr 4 EAX;
        MovImm ECX IA32_EFER; Rdmsr; OrImm EAX (Z.shiftl 1 8); Wrmsr;
        MovFromCr EAX 0; OrImm EAX (Z.shiftl 1 31); MovToCr 0 EAX; RetI ]
  | error => error_code
  end.

(** The labels in the order of the file *)
Definition labels : list label :=
  [start; check_multiboot; no_multiboot; check_cpuid; no_cpuid; check_long_mode; no_long_mode;
   set_up_page_tables; map_p2_table; enable_paging; error].

Definition text : list instr := labels ≫= code.

(** How many instructions come before a label *)
Fixpoint before (l : label) (ls : list label) : nat :=
  match ls with [] => 0 | l' :: ls => if decide (l = l') then 0 else length (code l') + before l ls end.
Definition position (l : label) : nat := before l labels.

(** The descriptor table: the null descriptor, the code segment, and the operand of [lgdt] *)
Definition code_descriptor : Z :=
  Z.lor (Z.lor (Z.lor (Z.lor (Z.shiftl 1 41) (Z.shiftl 1 43)) (Z.shiftl 1 44)) (Z.shiftl 1 47)) (Z.shiftl 1 53).

Definition rodata : list Z := le_split 8 0 ++ le_split 8 code_descriptor ++ le_split 2 (16 - 1) ++ le_split 8 gdt64.

(** *** A step *)
Definition alu (r : reg32) (v : Z) (m : cpu) : cpu := set_flags (v =? 0) false (set_reg r v m).
Definition al (m : cpu) : Z := reg m EAX mod 256.
Definition next (eip : nat) (m : option cpu) : config := from_option (Running (S eip)) Fault m.

(** The instruction at an address *)
Definition at_address (v : Z) : option nat := fst <$> list_find (λ i, addr i = v) (seq 0 (S (length text))).

(** A far jump in compatibility mode, to a 64-bit code segment *)
Definition jump_far (selector : Z) (m : cpu) : config :=
  match load m ((gdtr m).2 + selector) 8 with
  | Some d =>
      if (selector + 7 <=? (gdtr m).1) && Z.testbit d 47 && Z.testbit d 44 && Z.testbit d 43 && Z.testbit d 53 && negb (Z.testbit d 54)
         && Z.testbit (efer m) LMA
      then Long m else Fault
  | None => Fault
  end.

Definition execute (i : instr) (eip : nat) (m : cpu) : config :=
  match i with
  | MovImm r v => next eip (Some (set_reg r v m))
  | MovAl v => next eip (Some (set_reg EAX (reg m EAX - al m + v) m))
  | MovReg d s => next eip (Some (set_reg d (reg m s) m))
  | StoreReg a r => next eip (store a 4 (reg m r) m)
  | StoreIndexed a i r => next eip (store (a + reg m i * 8) 4 (reg m r) m)
  | StoreImm a v => next eip (store a 4 v m)
  | StoreAl a => next eip (store a 1 (al m) m)
  | OrImm r v => next eip (Some (alu r (Z.lor (reg m r) v) m))
  | XorImm r v => next eip (Some (alu r (Z.lxor (reg m r) v) m))
  | CmpImm r v => next eip (Some (set_flags (reg m r =? v) (reg m r <? v) m))
  | CmpReg r s => next eip (Some (set_flags (reg m r =? reg m s) (reg m r <? reg m s) m))
  | TestImm r v => next eip (Some (set_flags (Z.land (reg m r) v =? 0) false m))
  | Inc r => let v := wrap 32 (reg m r + 1) in next eip (Some (set_flags (v =? 0) (cf m) (set_reg r v m)))
  | Mul r =>
      let p := reg m EAX * reg m r in
      next eip (Some (set_flags (zf m) (negb (p / 2 ^ 32 =? 0)) (set_reg EDX (p / 2 ^ 32) (set_reg EAX (wrap 32 p) m))))
  | Push r => next eip (push32 (reg m r) m)
  | Pop r => next eip ('(v, m) ← pop32 m; Some (set_reg r v m))
  | Pushfd => next eip (push32 (eflags m) m)
  | Popfd =>
      next eip ('(v, m) ← pop32 m;
        Some (set_eflags (if has_cpuid proc then v else Z.lor (Z.ldiff v (2 ^ 21)) (Z.land (eflags m) (2 ^ 21))) m))
  | Cpuid =>
      let '(a, b, c, d) := cpuid proc (reg m EAX) in
      next eip (if has_cpuid proc then Some (set_reg EDX d (set_reg ECX c (set_reg EBX b (set_reg EAX a m)))) else None)
  | Rdmsr => next eip (if reg m ECX =? IA32_EFER then Some (set_reg EDX (efer m / 2 ^ 32) (set_reg EAX (wrap 32 (efer m)) m)) else None)
  | Wrmsr => next eip (if reg m ECX =? IA32_EFER then Some (set_efer (reg m EDX * 2 ^ 32 + reg m EAX) m) else None)
  | MovFromCr r n => next eip (if n =? 0 then Some (set_reg r (cr0 m) m) else if n =? 4 then Some (set_reg r (cr4 m) m) else None)
  | MovToCr n r =>
      next eip (if n =? 0 then write_cr0 (reg m r) m
                else if n =? 3 then Some (set_cr3 (reg m r) m) else if n =? 4 then Some (set_cr4 (reg m r) m) else None)
  | Call l => from_option (Running (position l)) Fault (push32 (addr (S eip)) m)
  | RetI => from_option id Fault ('(v, m) ← pop32 m; i ← at_address v; Some (Running i m))
  | Jmp l => Running (position l) m
  | Jcc c l => if holds_cond c m then Running (position l) m else Running (S eip) m
  | Lgdt a => next eip (limit ← load m a 2; base ← load m (a + 2) 4; Some (set_gdtr (limit, base) m))
  | JmpFar selector => jump_far selector m
  | Hlt => Halted m
  end.

(** The instruction is fetched from where it was loaded. *)
Definition step (c : config) : config :=
  match c with
  | Running eip m =>
      match text !! eip with
      | Some i => if bool_decide (linear m (addr eip) = Some (addr eip)) then execute i eip m else Fault
      | None => Fault
      end
  | _ => c
  end.

Definition steps (n : nat) (c : config) : config := Nat.iter n step c.

(** *** [long_mode_init.asm]

    In 64-bit mode, with [kmain] a function, and [ret] the address after its call.  The machine's
    registers are the 64-bit ones from here on. *)
Definition long_mode_start (kmain : cpu → option cpu) (ret : Z) (m : cpu) : option cpu :=
  let m := set_flags true false (set_reg EDI 0 m) in
  v ← load m multiboot_header 4;
  let m := set_reg EDI v m in
  m ← store (reg m ESP - 8) 8 ret m;
  m ← kmain (set_reg ESP (reg m ESP - 8) m);
  let m := set_reg EAX 0x2f592f412f4b2f4f m in
  store 0xb8000 8 (reg m EAX) m.
End program.
