(* ===== verification/GrubBootThms.v ===== *)
(** * Theorems on the earlier boot code

    [boot.asm] run to its end: the page tables it builds, what the checks report, and the
    machine that [long_mode_start] finds. *)
From S2P Require Import Prelude Transmute Ext2Dir GrubBoot.
#[local] Open Scope Z_scope.

(** ** Memory *)
Lemma read_le_ext f g a n : (∀ x, a ≤ x < a + Z.of_nat n → f x = g x) → read_le f a n = read_le g a n.
Proof.
  intros H. unfold read_le, read_bytes. f_equal. apply list_fmap_ext. intros j i Hi. apply lookup_seq in Hi as [-> Hj].
  apply H. lia.
Qed.

Lemma write_le_out a n v f x : x < a ∨ a + Z.of_nat n ≤ x → write_le a n v f x = f x.
Proof. intros H. unfold write_le. case_decide; [lia|done]. Qed.

Lemma read_le_out a n v f b k : b + Z.of_nat k ≤ a ∨ a + Z.of_nat n ≤ b → read_le (write_le a n v f) b k = read_le f b k.
Proof. intros H. apply read_le_ext. intros x Hx. apply write_le_out. lia. Qed.

Lemma read_le_same a n v f : in_width (8 * Z.of_nat n) v → read_le (write_le a n v f) a n = v.
Proof.
  intros Hv. unfold read_le. rewrite <-(le_combine_split n v) at 2 by done. f_equal. apply list_eq. intros i. unfold read_bytes.
  rewrite list_lookup_fmap. destruct (decide (i < n)%nat) as [Hi|Hi].
  - rewrite lookup_seq_lt by done. cbn. unfold write_le. case_decide; [|lia]. rewrite list_lookup_total_alt.
    replace (Z.to_nat (a + Z.of_nat i - a)) with i by lia. destruct (lookup_lt_is_Some_2 (le_split n v) i) as [b Hb]; [by rewrite length_le_split|].
    by rewrite Hb.
  - rewrite lookup_seq_ge by lia. cbn. symmetry. apply lookup_ge_None_2. rewrite length_le_split. lia.
Qed.

Lemma le_combine_app bs cs : le_combine (bs ++ cs) = le_combine bs + 256 ^ Z.of_nat (length bs) * le_combine cs.
Proof.
  induction bs as [|b bs IH]; [cbn; lia|]. cbn [le_combine app length]. rewrite IH, Nat2Z.inj_succ, Z.pow_succ_r by lia. lia.
Qed.

Lemma read_le_split f a n k : read_le f a (n + k) = read_le f a n + 256 ^ Z.of_nat n * read_le f (a + Z.of_nat n) k.
Proof.
  unfold read_le, read_bytes. rewrite seq_app, fmap_app, le_combine_app, length_fmap, length_seq. f_equal. f_equal. f_equal.
  rewrite <-(Nat.add_0_r n) at 1. rewrite Nat.add_comm, <-fmap_add_seq, <-list_fmap_compose. apply list_fmap_ext. intros j i _. cbn. f_equal. lia.
Qed.

(** A doubleword over zeroes is a quadword. *)
Lemma read_quad f a v : in_width 32 v → read_le f (a + 4) 4 = 0 → read_le (write_le a 4 v f) a 8 = v.
Proof.
  intros Hv Hz. change 8%nat with (4 + 4)%nat. rewrite read_le_split, read_le_same by done.
  rewrite read_le_out by (right; cbn; lia). change (Z.of_nat 4) with 4. rewrite Hz. lia.
Qed.

Lemma read_zero f a n : (∀ x, a ≤ x < a + Z.of_nat n → f x = 0) → read_le f a n = 0.
Proof.
  intros H. rewrite (read_le_ext f (λ _, 0)) by done. unfold read_le, read_bytes. clear H. generalize 0%nat as k.
  induction n as [|n IH]; intros k; [done|]. cbn. rewrite IH. done.
Qed.

Lemma read_bytes_sub f a k n N : (k + n ≤ N)%nat → read_bytes f (a + Z.of_nat k) n = take n (drop k (read_bytes f a N)).
Proof.
  intros H. unfold read_bytes. rewrite <-fmap_drop, <-fmap_take, drop_seq, take_seq. replace (n `min` (N - k))%nat with n by lia.
  rewrite Nat.add_0_l, <-(Nat.add_0_r k), <-fmap_add_seq, <-list_fmap_compose. apply list_fmap_ext. intros j i _. cbn. f_equal. lia.
Qed.

(** ** Page tables *)
(** An entry: an aligned address and the bits of a byte *)
Lemma entry_bits p fl i : p mod 4096 = 0 → 0 ≤ fl < 4096 → 0 ≤ i < 12 → Z.testbit (p + fl) i = Z.testbit fl i.
Proof.
  intros Hp Hf Hi. rewrite <-(Z.mod_pow2_bits_low (p + fl) 12 i) by lia. f_equal. change (2 ^ 12) with 4096. zdm.
Qed.

Lemma entry_address p fl : 0 ≤ p < 2 ^ 52 → p mod 4096 = 0 → 0 ≤ fl < 4096 → Z.land (p + fl) 0xf_ffff_ffff_f000 = p.
Proof.
  intros Hp Ha Hf. apply Z.bits_inj'. intros i Hi. rewrite Z.land_spec.
  change 0xf_ffff_ffff_f000 with (Z.shiftl (Z.ones 40) 12). rewrite Z.shiftl_spec by done.
  destruct (decide (i < 12)).
  - rewrite (Z.testbit_neg_r _ (i - 12)), andb_false_r by lia. symmetry. rewrite <-(Z.mod_pow2_bits_low p 12 i) by lia.
    change (2 ^ 12) with 4096. rewrite Ha. apply Z.bits_0.
  - rewrite Z.testbit_ones by lia. destruct (decide (i < 52)).
    + replace ((0 <=? i - 12) && (i - 12 <? 40)) with true by lia. rewrite andb_true_r.
      replace i with (i - 12 + 12) by lia. rewrite <-!Z.div_pow2_bits by lia. f_equal. change (2 ^ 12) with 4096. zdm.
    + replace ((0 <=? i - 12) && (i - 12 <? 40)) with false by lia. rewrite andb_false_r. symmetry. apply (testbit_high 52); [split|]; lia.
Qed.

Lemma or_low p fl : p mod 4096 = 0 → 0 ≤ fl < 4096 → Z.lor p fl = p + fl.
Proof.
  intros Hp Hf. apply Z.bits_inj'. intros i Hi. rewrite Z.lor_spec. destruct (decide (i < 12)).
  - rewrite entry_bits by (done || lia). rewrite <-(Z.mod_pow2_bits_low p 12 i) by lia. change (2 ^ 12) with 4096. by rewrite Hp, Z.bits_0.
  - rewrite (testbit_high 12 fl), orb_false_r by (split || done || lia; lia).
    replace i with (i - 12 + 12) by lia. rewrite <-!Z.div_pow2_bits by lia. f_equal. change (2 ^ 12) with 4096. zdm.
Qed.

(** The tables of [set_up_page_tables] *)
Record identity_tables (f : Z → Z) (p4 p3 p2 : Z) : Prop := {
  it_p4 : ∀ i, 0 ≤ i < 512 → read_le f (p4 + 8 * i) 8 = if i =? 0 then p3 + 3 else 0;
  it_p3 : ∀ i, 0 ≤ i < 512 → read_le f (p3 + 8 * i) 8 = if i =? 0 then p2 + 3 else 0;
  it_p2 : ∀ i, 0 ≤ i < 512 → read_le f (p2 + 8 * i) 8 = i * 0x200000 + 0x83;
}.

Definition table_ok (p : Z) : Prop := 0 ≤ p < 2 ^ 32 ∧ p mod 4096 = 0.

(** An entry that leads to a table *)
Lemma walk_table f level table a p :
  table_ok p → read_le f (table + 8 * (Z.shiftr a (12 + 9 * Z.of_nat (S level)) mod 512)) 8 = p + 3 →
  walk f (S level) table a = walk f level p a.
Proof.
  intros [Hp Ha] E. cbn [walk]. rewrite E. rewrite !entry_bits by (done || lia). change (Z.testbit 3 0) with true. change (Z.testbit 3 7) with false.
  cbn [negb]. by rewrite entry_address by lia.
Qed.

Lemma walk_none f level table a :
  read_le f (table + 8 * (Z.shiftr a (12 + 9 * Z.of_nat level) mod 512)) 8 = 0 → walk f level table a = None.
Proof. intros E. by destruct level; cbn [walk]; rewrite E. Qed.

Lemma walk_huge f table a i :
  0 ≤ i < 512 → Z.shiftr a 21 mod 512 = i → read_le f (table + 8 * i) 8 = i * 0x200000 + 0x83 →
  walk f 1 table a = Some (i * 0x200000 + a mod 0x200000).
Proof.
  intros Hi Hs E. cbn [walk]. change (12 + 9 * Z.of_nat 1) with 21. rewrite Hs, E.
  assert (i * 0x200000 mod 4096 = 0) by zdm.
  rewrite !entry_bits by (done || lia). change (Z.testbit 0x83 0) with true. change (Z.testbit 0x83 7) with true. cbn [negb Nat.eqb].
  rewrite entry_address by lia. rewrite Z.shiftr_div_pow2, Z.shiftl_mul_pow2 by lia. change (2 ^ 21) with 0x200000.
  by rewrite Z.div_mul by lia.
Qed.

Lemma index_zero k a : 0 ≤ k → 0 ≤ a < 2 ^ k → Z.shiftr a k mod 512 = 0.
Proof. intros Hk Ha. rewrite Z.shiftr_div_pow2, Z.div_small by lia. done. Qed.

Lemma index_nonzero k a : 0 ≤ k → 2 ^ k ≤ a < 2 ^ k * 512 → a / 2 ^ k mod 512 ≠ 0.
Proof.
  intros Hk Ha. assert (1 ≤ a / 2 ^ k) by (apply Z.div_le_lower_bound; lia).
  assert (a / 2 ^ k < 512) by (apply Z.div_lt_upper_bound; lia). rewrite Z.mod_small; lia.
Qed.

Section tables.
Context (f : Z → Z) (p4 p3 p2 : Z) (T : identity_tables f p4 p3 p2) (H3 : table_ok p3) (H2 : table_ok p2).

(** The first GiB is mapped to itself. *)
Lemma walk_identity a : 0 ≤ a < 2 ^ 30 → walk f 3 p4 a = Some a.
Proof.
  intros Ha. rewrite (walk_table _ _ _ _ p3), (walk_table _ _ _ _ p2), (walk_huge _ _ _ (a / 0x200000)); [| | | |done| |done|].
  - f_equal. zdm.
  - zdm.
  - rewrite Z.shiftr_div_pow2 by lia. change (2 ^ 21) with 0x200000. zdm.
  - apply T. zdm.
  - change (12 + 9 * Z.of_nat 2) with 30. rewrite index_zero, (it_p3 _ _ _ _ T) by lia. done.
  - change (12 + 9 * Z.of_nat 3) with 39. rewrite index_zero, (it_p4 _ _ _ _ T) by lia. done.
Qed.

(** Nothing else is mapped. *)
Lemma walk_outside a : 2 ^ 30 ≤ a < 2 ^ 48 → walk f 3 p4 a = None.
Proof.
  intros Ha. destruct (decide (a < 2 ^ 39)) as [Hl|Hl].
  - rewrite (walk_table _ _ _ _ p3); [|done|].
    + apply walk_none. change (12 + 9 * Z.of_nat 2) with 30. rewrite Z.shiftr_div_pow2 by lia.
      rewrite (it_p3 _ _ _ _ T) by (apply Z.mod_pos_bound; lia). replace (_ =? 0) with false; [done|]. symmetry. apply Z.eqb_neq. apply (index_nonzero 30); cbn; lia.
    + change (12 + 9 * Z.of_nat 3) with 39. rewrite index_zero, (it_p4 _ _ _ _ T) by lia. done.
  - apply walk_none. change (12 + 9 * Z.of_nat 3) with 39. rewrite Z.shiftr_div_pow2 by lia.
    rewrite (it_p4 _ _ _ _ T) by (apply Z.mod_pos_bound; lia). replace (_ =? 0) with false; [done|]. symmetry. apply Z.eqb_neq. apply (index_nonzero 39); cbn; lia.
Qed.
End tables.

Lemma wrap32_id x : 0 ≤ x < 2 ^ 32 → wrap 32 x = x.
Proof. apply Z.mod_small. Qed.

(** ** Accesses without paging *)
Lemma linear_flat m a : paging m = false → linear m a = Some a.
Proof. unfold linear. by intros ->. Qed.

Lemma access_flat m a n : paging m = false → access m a n = Some a.
Proof. intros H. unfold access. rewrite !linear_flat by done. cbn. by rewrite Z.eqb_refl. Qed.

Lemma load_flat m a n : paging m = false → load m a n = Some (read_le (ram m) a n).
Proof. intros H. unfold load. by rewrite access_flat. Qed.

Lemma store_flat m a n v : paging m = false → store a n v m = Some (set_ram (write_le a n v (ram m)) m).
Proof. intros H. unfold store. by rewrite access_flat. Qed.

Lemma push32_flat m v : paging m = false → 4 ≤ reg m ESP < 2 ^ 32 →
  push32 v m = Some (set_reg ESP (reg m ESP - 4) (set_ram (write_le (reg m ESP - 4) 4 v (ram m)) m)).
Proof. intros H Hs. unfold push32. rewrite wrap32_id by lia. by rewrite store_flat. Qed.

Lemma pop32_flat m : paging m = false → 0 ≤ reg m ESP < 2 ^ 32 - 4 →
  pop32 m = Some (read_le (ram m) (reg m ESP) 4, set_reg ESP (reg m ESP + 4) m).
Proof. intros H Hs. unfold pop32. rewrite wrap32_id by lia. by rewrite load_flat. Qed.

(** Everything but the registers, the flags and memory *)
Record kept (m m' : cpu) : Prop := {
  kp_cr0 : cr0 m' = cr0 m;
  kp_cr3 : cr3 m' = cr3 m;
  kp_cr4 : cr4 m' = cr4 m;
  kp_efer : efer m' = efer m;
  kp_gdtr : gdtr m' = gdtr m;
}.

Lemma kept_trans m1 m2 m3 : kept m1 m2 → kept m2 m3 → kept m1 m3.
Proof. intros [] []. split; congruence. Qed.

Lemma kept_paging m m' : kept m m' → paging m' = paging m.
Proof. intros K. unfold paging. by rewrite (kp_cr0 _ _ K). Qed.

Lemma zf_set z c m : zf (set_flags z c m) = z.
Proof. unfold zf, set_flags. cbn [eflags set_eflags]. rewrite Z.lor_spec, Z.ldiff_spec. by destruct z, c; rewrite andb_false_r. Qed.

Lemma cf_set z c m : cf (set_flags z c m) = c.
Proof. unfold cf, set_flags. cbn [eflags set_eflags]. rewrite Z.lor_spec, Z.ldiff_spec. by destruct z, c; rewrite andb_false_r. Qed.

Lemma set_flags_width z c m : in_width 32 (eflags m) → in_width 32 (eflags (set_flags z c m)).
Proof.
  intros Hw. unfold set_flags. cbn [eflags set_eflags]. apply in_width_lor; [|by destruct z, c|lia].
  apply in_width_testbit; [lia|apply Z.ldiff_nonneg; left; apply Hw|]. intros i Hi. rewrite Z.ldiff_spec. by rewrite (testbit_high 32) by (done || lia).
Qed.

Section execution.
Context (p4_table multiboot_header gdt64 : Z) (addr : nat → Z) (proc : processor).
#[local] Abbreviation p3_table := (GrubBoot.p3_table p4_table).
#[local] Abbreviation p2_table := (GrubBoot.p2_table p4_table).
#[local] Abbreviation stack_top := (GrubBoot.stack_top p4_table).
#[local] Abbreviation text := (GrubBoot.text p4_table multiboot_header gdt64).
#[local] Abbreviation position := (GrubBoot.position p4_table multiboot_header gdt64).
#[local] Abbreviation execute := (GrubBoot.execute p4_table multiboot_header gdt64 addr proc).
#[local] Abbreviation steps := (GrubBoot.steps p4_table multiboot_header gdt64 addr proc).
#[local] Abbreviation at_address := (GrubBoot.at_address p4_table multiboot_header gdt64 addr).

(** What the linker and the loader see to: the sections are in the first GiB and apart, and
    the instructions have addresses. *)
Record linked : Prop := {
  lk_bss : 0 < p4_table ∧ p4_table mod 4096 = 0 ∧ stack_top ≤ 2 ^ 30;
  lk_text i : (i ≤ length text)%nat → 0 ≤ addr i < 2 ^ 30;
  lk_inj i j : (i ≤ length text)%nat → (j ≤ length text)%nat → addr i = addr j → i = j;
  lk_header : 0 ≤ multiboot_header ∧ multiboot_header + 4 ≤ 2 ^ 30 ∧ (multiboot_header + 4 ≤ p4_table ∨ stack_top ≤ multiboot_header);
  lk_gdt : 0 ≤ gdt64 ∧ gdt64 + 26 ≤ 2 ^ 30 ∧ (gdt64 + 26 ≤ p4_table ∨ stack_top ≤ gdt64);
  lk_apart : multiboot_header + 4 ≤ gdt64 ∨ gdt64 + 26 ≤ multiboot_header;
}.

Context (Hl : linked).

Definition reaches (c c' : config) : Prop := ∃ n, steps n c = c'.

Lemma reaches_refl c : reaches c c.
Proof. by exists 0%nat. Qed.

Lemma reaches_trans c1 c2 c3 : reaches c1 c2 → reaches c2 c3 → reaches c1 c3.
Proof. intros [n <-] [k <-]. exists (k + n)%nat. unfold GrubBoot.steps. by rewrite Nat.iter_add. Qed.

Lemma reach_exec eip i m c :
  text !! eip = Some i → linear m (addr eip) = Some (addr eip) → reaches (execute i eip m) c → reaches (Running eip m) c.
Proof.
  intros Hi Ha [n Hn]. exists (n + 1)%nat.
  assert (E : GrubBoot.step p4_table multiboot_header gdt64 addr proc (Running eip m) = execute i eip m).
  { unfold GrubBoot.step. rewrite Hi. by rewrite bool_decide_true. }
  unfold GrubBoot.steps in *. rewrite Nat.iter_add. change (Nat.iter 1 ?f ?x) with (f x). by rewrite E.
Qed.

Lemma reach_flat eip i m c :
  text !! eip = Some i → paging m = false → reaches (execute i eip m) c → reaches (Running eip m) c.
Proof. intros Hi Hp. apply reach_exec; [done|by apply linear_flat]. Qed.

Lemma at_address_ok i : (i ≤ length text)%nat → at_address (addr i) = Some i.
Proof.
  intros Hi. unfold GrubBoot.at_address.
  assert (list_find (λ j, addr j = addr i) (seq 0 (S (length text))) = Some (i, i)) as ->; [|done].
  apply list_find_Some. split; [apply lookup_seq_lt; lia|]. split; [done|].
  intros j k Hj Hlt. apply lookup_seq in Hj as [-> Hj]. intros E. apply lk_inj in E; [|done|lia|lia]. lia.
Qed.

(** A return to the instruction [k] *)
Lemma reach_ret eip k m c :
  text !! eip = Some RetI → paging m = false → 0 ≤ reg m ESP < 2 ^ 32 - 4 → (k ≤ length text)%nat →
  read_le (ram m) (reg m ESP) 4 = addr k →
  reaches (Running k (set_reg ESP (reg m ESP + 4) m)) c → reaches (Running eip m) c.
Proof.
  intros Hi Hp Hs Hk E Hc. eapply reach_flat; [done|done|]. cbn [GrubBoot.execute]. rewrite pop32_flat, E by done. cbn [mbind option_bind]. rewrite at_address_ok by done.
  exact Hc.
Qed.

(** One instruction, without paging *)
Ltac exec1 := eapply reach_flat; [reflexivity|assumption|cbn [GrubBoot.execute GrubBoot.next from_option Z.eqb Pos.eqb]].

(** Reading the machine after updates *)
Ltac look := cbn [reg eflags cr0 cr3 cr4 efer gdtr ram set_reg set_eflags set_cr0 set_cr3 set_cr4 set_efer set_gdtr set_ram set_flags alu];
  repeat ((rewrite decide_True by reflexivity) || (rewrite decide_False by discriminate)).

Definition returns (l : label) (m m' : cpu) : Prop :=
  ∀ k, (k ≤ length text)%nat → read_le (ram m) (reg m ESP) 4 = addr k → reaches (Running (position l) m) (Running k m').

(** A machine that a function of [boot.asm] is called on *)
Record entered (m : cpu) : Prop := {
  en_flat : paging m = false;
  en_stack : reg m ESP = stack_top - 4;
}.

Lemma stack_bounds : stack_top = p4_table + 0x13000 ∧ 0 < p4_table ∧ stack_top ≤ 2 ^ 30.
Proof. pose proof (lk_bss Hl). unfold GrubBoot.stack_top, stack_bottom, GrubBoot.p2_table, GrubBoot.p3_table in *. lia. Qed.

Lemma check_multiboot_ok m : entered m → reg m EAX = 0x36d76289 →
  ∃ m', returns check_multiboot m m' ∧ kept m m' ∧ reg m' ESP = stack_top ∧ ram m' = write_le multiboot_header 4 (reg m EBX) (ram m) ∧
    (in_width 32 (eflags m) → in_width 32 (eflags m')).
Proof.
  intros [Hp Hs] Ha. pose proof stack_bounds. pose proof (lk_header Hl) as Hh. eexists. split.
  - intros k Hk E. change (position check_multiboot) with 8%nat. exec1. exec1. cbn [holds_cond]. rewrite zf_set, Ha. cbn [Z.eqb Pos.eqb negb].
    exec1. rewrite store_flat by done. cbn [from_option].
    eapply (reach_ret _ k); [reflexivity|done|look; lia|done| |apply reaches_refl].
    look. rewrite read_le_out by lia. exact E.
  - split; [done|]. split; [look; lia|]. split; [done|]. apply (set_flags_width true false).
Qed.

Lemma check_long_mode_ok m :
  let '(a, _, _, _) := cpuid proc 0x80000000 in let '(_, _, _, d) := cpuid proc 0x80000001 in
  entered m → has_cpuid proc = true → 0x80000001 ≤ a → Z.testbit d 29 = true →
  ∃ m', returns check_long_mode m m' ∧ kept m m' ∧ reg m' ESP = stack_top ∧ ram m' = ram m.
Proof.
  destruct (cpuid proc 0x80000000) as [[[a b] c] d] eqn:C1. destruct (cpuid proc 0x80000001) as [[[a' b'] c'] d'] eqn:C2.
  intros [Hp Hs] Hc Ha Hd. pose proof stack_bounds. eexists. split.
  - intros k Hk E. change (position check_long_mode) with 29%nat. exec1. exec1. look. rewrite C1, Hc. cbn [from_option].
    exec1. exec1. cbn [holds_cond]. rewrite cf_set. look. rewrite (proj2 (Z.ltb_ge _ _)) by lia.
    exec1. exec1. look. rewrite C2, Hc. cbn [from_option]. exec1. exec1. cbn [holds_cond]. rewrite zf_set. look.
    rewrite land_bit_zero, Hd by lia. cbn [negb].
    eapply (reach_ret _ k); [reflexivity|done|look; lia|done|exact E|apply reaches_refl].
  - split; [done|]. split; [|done]. look. lia.
Qed.

(** A value pushed is the value popped. *)
Lemma push_pop v m : paging m = false → 4 ≤ reg m ESP < 2 ^ 32 - 4 → in_width 32 v →
  ∃ m1 m2, push32 v m = Some m1 ∧ pop32 m1 = Some (v, m2) ∧ kept m m1 ∧ kept m m2 ∧
    (∀ r, r ≠ ESP → reg m1 r = reg m r) ∧ (∀ r, reg m2 r = reg m r) ∧ eflags m1 = eflags m ∧ eflags m2 = eflags m ∧
    ram m2 = write_le (reg m ESP - 4) 4 v (ram m).
Proof.
  intros Hp Hs Hv. rewrite push32_flat by (done || lia). eexists _, _. split; [done|]. rewrite pop32_flat by (done || (look; lia)). look.
  rewrite read_le_same by done. split; [done|]. do 2 (split; [done|]). split; [|split; [|done]].
  - intros r Hr. look. by rewrite decide_False.
  - intros r. look. destruct (decide (r = ESP)) as [->|]; [lia|done].
Qed.

(** [m2] is [m] with [eflags] and the values [g] in the registers, up to the bytes below the stack. *)
Record scratch (m m2 : cpu) (fl : Z) (g : reg32 → Z) : Prop := {
  sc_kept : kept m m2;
  sc_flags : eflags m2 = fl;
  sc_regs : ∀ r, reg m2 r = g r;
  sc_ram : ∀ x, ¬ reg m ESP - 4 ≤ x < reg m ESP → ram m2 x = ram m x;
}.

Lemma scratch_stack m m2 fl g : scratch m m2 fl g → g ESP = reg m ESP → paging m = false → 4 ≤ reg m ESP < 2 ^ 32 - 4 →
  paging m2 = false ∧ 4 ≤ reg m2 ESP < 2 ^ 32 - 4.
Proof. intros [K _ Hr _] Hg Hp Hs. rewrite (kept_paging _ _ K), Hr, Hg. done. Qed.

Lemma flags_to_reg e r m :
  text !! e = Some Pushfd → text !! S e = Some (Pop r) → r ≠ ESP → paging m = false → 4 ≤ reg m ESP < 2 ^ 32 - 4 → in_width 32 (eflags m) →
  ∃ m2, scratch m m2 (eflags m) (λ x, if decide (x = r) then eflags m else reg m x) ∧ reaches (Running e m) (Running (S (S e)) m2).
Proof.
  intros E1 E2 Hr Hp Hs Hv. destruct (push_pop (eflags m) m Hp Hs Hv) as (m1 & m2 & P1 & P2 & K1 & K2 & R1 & R2 & F1 & F2 & Hm).
  exists (set_reg r (eflags m) m2). split; [split|].
  - by destruct K2.
  - done.
  - intros x. look. by destruct (decide (x = r)).
  - intros x Hx. look. rewrite Hm. apply write_le_out. lia.
  - eapply reach_flat; [exact E1|done|]. cbn [GrubBoot.execute]. rewrite P1. cbn [GrubBoot.next from_option].
    eapply reach_flat; [exact E2|by rewrite (kept_paging _ _ K1)|]. cbn [GrubBoot.execute]. rewrite P2. apply reaches_refl.
Qed.

(** The flags after [popfd]: bit 21 changes if the CPU has [cpuid]. *)
Definition popped (v old : Z) : Z := if has_cpuid proc then v else Z.lor (Z.ldiff v (2 ^ 21)) (Z.land old (2 ^ 21)).

Lemma reg_to_flags e r m :
  text !! e = Some (Push r) → text !! S e = Some Popfd → paging m = false → 4 ≤ reg m ESP < 2 ^ 32 - 4 → in_width 32 (reg m r) →
  ∃ m2, scratch m m2 (popped (reg m r) (eflags m)) (reg m) ∧ reaches (Running e m) (Running (S (S e)) m2).
Proof.
  intros E1 E2 Hp Hs Hv. destruct (push_pop (reg m r) m Hp Hs Hv) as (m1 & m2 & P1 & P2 & K1 & K2 & R1 & R2 & F1 & F2 & Hm).
  exists (set_eflags (popped (reg m r) (eflags m)) m2). split; [split|].
  - by destruct K2.
  - done.
  - done.
  - intros x Hx. look. rewrite Hm. apply write_le_out. lia.
  - eapply reach_flat; [exact E1|done|]. cbn [GrubBoot.execute]. rewrite P1. cbn [GrubBoot.next from_option].
    eapply reach_flat; [exact E2|by rewrite (kept_paging _ _ K1)|]. cbn [GrubBoot.execute]. rewrite P2, <-F2. apply reaches_refl.
Qed.

Lemma popped_flip e old : Z.testbit old 21 = Z.testbit e 21 →
  popped (Z.lxor e (Z.shiftl 1 21)) old = if has_cpuid proc then Z.lxor e (Z.shiftl 1 21) else e.
Proof.
  intros H. unfold popped. destruct (has_cpuid proc); [done|]. apply Z.bits_inj'. intros i Hi.
  rewrite Z.lor_spec, Z.ldiff_spec, Z.land_spec, Z.lxor_spec. change (2 ^ 21) with (Z.shiftl 1 21). rewrite !testbit_one_shiftl by lia.
  case_bool_decide as Hb; [subst; rewrite H|clear H]; rewrite ?andb_false_r; by destruct (Z.testbit e _).
Qed.

Lemma popped_same e old : Z.testbit old 21 = Z.testbit e 21 ∨ has_cpuid proc = true → popped e old = e.
Proof.
  intros H. unfold popped. destruct (has_cpuid proc); [done|]. destruct H as [H|H]; [|done]. apply Z.bits_inj'. intros i Hi.
  rewrite Z.lor_spec, Z.ldiff_spec, Z.land_spec. change (2 ^ 21) with (Z.shiftl 1 21). rewrite !testbit_one_shiftl by lia.
  case_bool_decide as Hb; [subst; rewrite H|clear H]; rewrite ?andb_false_r; by destruct (Z.testbit e _).
Qed.

Lemma set_flags_id z c m : Z.testbit (eflags (set_flags z c m)) 21 = Z.testbit (eflags m) 21.
Proof. look. rewrite Z.lor_spec, Z.ldiff_spec. by destruct z, c; rewrite andb_true_r, orb_false_r. Qed.

(** The first ten instructions of [check_cpuid]: the flags are as they were, and [eax] has the
    flags after an attempt to change bit 21. *)
Lemma check_cpuid_flags m : entered m → in_width 32 (eflags m) →
  ∃ m', reaches (Running (position check_cpuid) m) (Running 24 m') ∧ kept m m' ∧ reg m' ECX = eflags m ∧ reg m' ESP = reg m ESP ∧
    reg m' EAX = (if has_cpuid proc then Z.lxor (eflags m) (Z.shiftl 1 21) else eflags m) ∧
    ∀ x, ¬ reg m ESP - 4 ≤ x < reg m ESP → ram m' x = ram m x.
Proof.
  intros [Hp Hs] Hw. set (e := eflags m) in *. pose proof stack_bounds.
  assert (Hx : in_width 32 (Z.lxor e (Z.shiftl 1 21))).
  { apply in_width_testbit; [lia|apply Z.lxor_nonneg; by destruct Hw|]. intros i Hi. rewrite Z.lxor_spec, testbit_one_shiftl by lia.
    rewrite (testbit_high 32) by (done || lia). by rewrite bool_decide_false by lia. }
  change (position check_cpuid) with 14%nat. assert (Hsp : 4 ≤ reg m ESP < 2 ^ 32 - 4) by lia.
  destruct (flags_to_reg 14 EAX m) as (m1 & S1 & G1); [done..|]. destruct (scratch_stack _ _ _ _ S1) as [Hp1 Hs1]; [done..|].
  set (m2 := alu EAX (Z.lxor e (Z.shiftl 1 21)) (set_reg ECX e m1)).
  destruct (reg_to_flags 18 EAX m2) as (m3 & S3 & G3); [done|done|exact Hp1|exact Hs1|done|].
  destruct (scratch_stack _ _ _ _ S3) as [Hp3 Hs3]; [done|exact Hp1|exact Hs1|].
  assert (F3 : eflags m3 = if has_cpuid proc then Z.lxor e (Z.shiftl 1 21) else e).
  { rewrite (sc_flags _ _ _ _ S3). apply popped_flip. unfold m2, alu. rewrite set_flags_id. look. by rewrite (sc_flags _ _ _ _ S1). }
  destruct (flags_to_reg 20 EAX m3) as (m4 & S4 & G4); [done..| |]; [rewrite F3; by destruct (has_cpuid proc)|].
  destruct (scratch_stack _ _ _ _ S4) as [Hp4 Hs4]; [done..|].
  assert (R4 : reg m4 ECX = e).
  { rewrite (sc_regs _ _ _ _ S4). look. rewrite (sc_regs _ _ _ _ S3). unfold m2. by look. }
  destruct (reg_to_flags 22 ECX m4) as (m5 & S5 & G5); [done..|by rewrite R4|]. exists m5.
  assert (E1 : reg m1 EAX = e) by (by rewrite (sc_regs _ _ _ _ S1)).
  assert (G2 : reaches (Running 16 m1) (Running 18 m2)).
  { exec1. rewrite E1. exec1. look. rewrite E1. apply reaches_refl. }
  assert (P1 : reg m1 ESP = reg m ESP) by (by rewrite (sc_regs _ _ _ _ S1)).
  assert (P2 : reg m2 ESP = reg m ESP) by exact P1.
  assert (P3 : reg m3 ESP = reg m ESP) by (by rewrite (sc_regs _ _ _ _ S3)).
  assert (P4 : reg m4 ESP = reg m ESP) by (by rewrite (sc_regs _ _ _ _ S4)).
  split_and!.
  - do 4 (eapply reaches_trans; [eassumption|]). exact G5.
  - eapply kept_trans; [apply (sc_kept _ _ _ _ S1)|]. eapply kept_trans; [|eapply kept_trans; [apply (sc_kept _ _ _ _ S4)|apply (sc_kept _ _ _ _ S5)]].
    by destruct (sc_kept _ _ _ _ S3).
  - by rewrite (sc_regs _ _ _ _ S5).
  - by rewrite (sc_regs _ _ _ _ S5).
  - rewrite (sc_regs _ _ _ _ S5), (sc_regs _ _ _ _ S4). look. done.
  - intros x Hx'. rewrite (sc_ram _ _ _ _ S5), (sc_ram _ _ _ _ S4), (sc_ram _ _ _ _ S3) by (rewrite ?P4, ?P3, ?P2; done).
    change (ram m2) with (ram m1). by rewrite (sc_ram _ _ _ _ S1).
Qed.

Lemma check_cpuid_ok m : entered m → in_width 32 (eflags m) → has_cpuid proc = true →
  ∃ m', returns check_cpuid m m' ∧ kept m m' ∧ reg m' ESP = stack_top ∧ ∀ x, ¬ stack_top - 8 ≤ x < stack_top - 4 → ram m' x = ram m x.
Proof.
  intros Hm Hw Hc. pose proof stack_bounds. destruct (check_cpuid_flags m Hm Hw) as (m1 & G1 & K1 & Rc & Rs & Ra & Hr). destruct Hm as [Hp Hs].
  rewrite Hc in Ra. rewrite Hs in *. eexists. split; [|split; [|split]].
  - intros k Hk E. eapply reaches_trans; [exact G1|]. pose proof (kept_paging _ _ K1) as Hp1. rewrite Hp in Hp1. exec1. exec1. cbn [holds_cond].
    rewrite zf_set, Ra, Rc. rewrite (proj2 (Z.eqb_neq _ _)).
    2: { intros Hx. apply (f_equal (λ z, Z.testbit z 21)) in Hx. rewrite Z.lxor_spec in Hx. by destruct (Z.testbit (eflags m) 21). }
    eapply (reach_ret _ k); [reflexivity|done|look; lia|done| |apply reaches_refl]. look. rewrite Rs.
    rewrite (read_le_ext _ (ram m)); [by rewrite <-Hs|]. intros x Hx. apply Hr. lia.
  - destruct K1. by split.
  - look. lia.
  - intros x Hx. look. apply Hr. lia.
Qed.

(** ** The page tables *)
Lemma map_p2_step i m : paging m = false → reg m ECX = i → 0 ≤ i < 512 →
  ∃ m', kept m m' ∧ reg m' ESP = reg m ESP ∧ reg m' ECX = i + 1 ∧
    ram m' = write_le (p2_table + 8 * i) 4 (i * 0x200000 + 0x83) (ram m) ∧
    reaches (Running 47 m) (Running (if i + 1 =? 512 then 54 else 47) m').
Proof.
  intros Hp Hc Hi. eexists. split; [|split; [|split; [|split]]]; cycle 4.
  - exec1. exec1. exec1. exec1. rewrite store_flat by done. cbn [from_option]. exec1. exec1. exec1. cbn [holds_cond]. rewrite zf_set. look.
    rewrite Hc, (wrap32_id (i + 1)) by lia. change (position map_p2_table) with 47%nat.
    assert (J : ∀ (b : bool) x, (if negb b then Running 47 x else Running 54 x) = Running (if b then 54 else 47)%nat x) by (by intros []).
    rewrite J. apply reaches_refl.
  - done.
  - done.
  - done.
  - look. rewrite wrap32_id by lia. change (Z.lor (Z.lor (Z.shiftl 1 0) _) _) with 0x83.
    rewrite or_low by (lia || zdm). by rewrite (Z.mul_comm i 8), (Z.mul_comm 0x200000).
Qed.

(** The first [i] entries of the last table *)
Fixpoint filled (i : nat) (f : Z → Z) : Z → Z :=
  match i with
  | O => f
  | S i => write_le (p2_table + 8 * Z.of_nat i) 4 (Z.of_nat i * 0x200000 + 0x83) (filled i f)
  end.

Lemma map_p2_loop j m : (j < 512)%nat → paging m = false → reg m ECX = Z.of_nat (511 - j) →
  ∃ m', kept m m' ∧ reg m' ESP = reg m ESP ∧
    (∀ f, ram m = filled (511 - j) f → ram m' = filled 512 f) ∧ reaches (Running 47 m) (Running 54 m').
Proof.
  revert m. induction j as [|j IH]; intros m Hj Hp Hc; (destruct (map_p2_step (reg m ECX) m Hp eq_refl) as (m1 & K1 & P1 & C1 & M1 & G1); [lia|]); rewrite Hc in *.
  - exists m1. split_and!; [done|done| |exact G1]. intros f Hf. rewrite M1, Hf. done.
  - destruct (IH m1) as (m2 & K2 & P2 & M2 & G2); [lia|by rewrite (kept_paging _ _ K1)|lia|]. exists m2.
    split_and!; [by eapply kept_trans|congruence| |].
    + intros f Hf. apply M2. rewrite M1, Hf. replace (511 - j)%nat with (S (511 - S j)) by lia. done.
    + rewrite (proj2 (Z.eqb_neq _ _)) in G1 by lia. by eapply reaches_trans.
Qed.

Lemma filled_out i f x : x < p2_table ∨ p2_table + 8 * Z.of_nat i ≤ x → filled i f x = f x.
Proof.
  intros Hx. induction i as [|i IH]; [done|]. cbn [filled]. rewrite write_le_out by (change (Z.of_nat 4) with 4; lia). apply IH. lia.
Qed.

Lemma filled_read_out i f a n : a + Z.of_nat n ≤ p2_table → read_le (filled i f) a n = read_le f a n.
Proof. intros Ha. apply read_le_ext. intros x Hx. apply filled_out. lia. Qed.

Lemma filled_read i f j : (i ≤ 512)%nat → (∀ x, p2_table ≤ x < p2_table + 4096 → f x = 0) → 0 ≤ j < Z.of_nat i →
  read_le (filled i f) (p2_table + 8 * j) 8 = j * 0x200000 + 0x83.
Proof.
  intros Hi Hz. induction i as [|i IH]; [lia|]. intros Hj. cbn [filled]. destruct (decide (j = Z.of_nat i)) as [->|Hne].
  - apply read_quad; [split; lia|]. apply read_zero. intros x Hx. rewrite filled_out by lia. apply Hz. lia.
  - rewrite read_le_out by lia. apply IH; lia.
Qed.

(** The tables, in memory that was zero *)
Definition tables (f : Z → Z) : Z → Z :=
  filled 512 (write_le p3_table 4 (p2_table + 3) (write_le p4_table 4 (p3_table + 3) f)).

Lemma tables_layout : p3_table = p4_table + 4096 ∧ p2_table = p4_table + 8192.
Proof. unfold GrubBoot.p2_table, GrubBoot.p3_table. lia. Qed.

Lemma tables_out f x : x < p4_table ∨ p4_table + 0x3000 ≤ x → tables f x = f x.
Proof.
  intros Hx. pose proof tables_layout. unfold tables. rewrite filled_out by lia. rewrite write_le_out by lia. apply write_le_out. lia.
Qed.

Lemma tables_ok : table_ok p3_table ∧ table_ok p2_table ∧ table_ok p4_table.
Proof.
  pose proof (lk_bss Hl) as (H0 & Hm & Ht). pose proof stack_bounds. unfold table_ok, GrubBoot.p2_table, GrubBoot.p3_table. split_and!; (lia || zdm).
Qed.

Lemma tables_identity f : (∀ x, p4_table ≤ x < p4_table + 0x3000 → f x = 0) → identity_tables (tables f) p4_table p3_table p2_table.
Proof.
  intros Hz. destruct tables_ok as ([B3 _] & [B2 _] & _). pose proof stack_bounds. pose proof tables_layout. unfold tables.
  split; intros i Hi.
  - rewrite filled_read_out, read_le_out by lia. destruct (Z.eqb_spec i 0) as [->|Hne].
    + rewrite Z.mul_0_r, Z.add_0_r. apply read_quad; [split; lia|]. apply read_zero. intros x Hx. apply Hz. lia.
    + rewrite read_le_out by lia. apply read_zero. intros x Hx. apply Hz. lia.
  - rewrite filled_read_out by lia. destruct (Z.eqb_spec i 0) as [->|Hne].
    + rewrite Z.mul_0_r, Z.add_0_r. apply read_quad; [split; lia|]. rewrite read_le_out by lia. apply read_zero. intros x Hx. apply Hz. lia.
    + rewrite !read_le_out by lia. apply read_zero. intros x Hx. apply Hz. lia.
  - apply filled_read; [lia| |lia]. intros x Hx. rewrite !write_le_out by lia. apply Hz. lia.
Qed.

Lemma set_up_page_tables_ok m : entered m →
  ∃ m', returns set_up_page_tables m m' ∧ kept m m' ∧ reg m' ESP = stack_top ∧ ram m' = tables (ram m).
Proof.
  intros [Hp Hs]. pose proof stack_bounds. destruct tables_ok as ([B3 A3] & [B2 A2] & _).
  set (f := write_le p3_table 4 (p2_table + 3) (write_le p4_table 4 (p3_table + 3) (ram m))).
  assert (∃ m1, reaches (Running (position set_up_page_tables) m) (Running 47 m1) ∧ kept m m1 ∧ reg m1 ESP = reg m ESP ∧ reg m1 ECX = 0 ∧ ram m1 = f)
    as (m1 & G1 & K1 & P1 & C1 & M1).
  { eexists. change (position set_up_page_tables) with 40%nat. split.
    - do 3 exec1. rewrite store_flat by done. cbn [from_option]. do 3 exec1. rewrite store_flat by done. cbn [from_option]. exec1. apply reaches_refl.
    - split; [done|]. split; [done|]. split; [done|]. look. unfold f. by rewrite !or_low by (done || lia). }
  destruct (map_p2_loop 511 m1) as (m2 & K2 & P2 & M2 & G2); [lia|by rewrite (kept_paging _ _ K1)|done|].
  specialize (M2 f M1). unfold f in M2. fold (tables (ram m)) in M2. clearbody f. exists (set_reg ESP (reg m2 ESP + 4) m2).
  pose proof (kept_trans _ _ _ K1 K2) as K. split; [|split; [by destruct K|split; [look; lia|exact M2]]].
  intros k Hk E. eapply reaches_trans; [exact G1|]. eapply reaches_trans; [exact G2|].
  eapply (reach_ret _ k); [reflexivity|by rewrite (kept_paging _ _ K)|lia|done| |apply reaches_refl].
  rewrite M2, P2, P1. rewrite (read_le_ext _ (ram m)); [exact E|]. intros x Hx. rewrite tables_out by lia. done.
Qed.

Lemma identity_tables_ext f g : identity_tables f p4_table p3_table p2_table →
  (∀ x, p4_table ≤ x < p4_table + 0x3000 → g x = f x) → identity_tables g p4_table p3_table p2_table.
Proof.
  intros [H4 H3 H2] E. pose proof tables_layout.
  split; intros i Hi; [rewrite <-H4 by done|rewrite <-H3 by done|rewrite <-H2 by done]; apply read_le_ext; intros x Hx; apply E; lia.
Qed.

(** ** Paging *)
(** Paging is on, with the tables of [set_up_page_tables]. *)
Record paged (m : cpu) : Prop := {
  pg_on : paging m = true;
  pg_root : cr3 m = p4_table;
  pg_tables : identity_tables (ram m) p4_table p3_table p2_table;
}.

Lemma linear_paged m a : paged m → linear m a = walk (ram m) 3 p4_table a.
Proof.
  intros [Hp Hr _]. unfold linear. rewrite Hp, Hr. destruct tables_ok as (_ & _ & B4 & A4).
  rewrite <-(Z.add_0_r p4_table) at 1. by rewrite entry_address by lia.
Qed.

Lemma identity_paged m a : paged m → 0 ≤ a < 2 ^ 30 → linear m a = Some a.
Proof. intros Hm Ha. rewrite linear_paged by done. destruct tables_ok as (? & ? & _). eapply walk_identity; [apply Hm|done|done|done]. Qed.

Lemma load_paged m a n : paged m → (0 < n)%nat → 0 ≤ a → a + Z.of_nat n ≤ 2 ^ 30 → load m a n = Some (read_le (ram m) a n).
Proof.
  intros Hm Hn H0 Ha. unfold load, access. rewrite !identity_paged by (done || lia). cbn [mbind option_bind]. by rewrite Z.eqb_refl.
Qed.

Lemma store_paged m a n v : paged m → (0 < n)%nat → 0 ≤ a → a + Z.of_nat n ≤ 2 ^ 30 → store a n v m = Some (set_ram (write_le a n v (ram m)) m).
Proof.
  intros Hm Hn H0 Ha. unfold store, access. rewrite !identity_paged by (done || lia). cbn [mbind option_bind]. by rewrite Z.eqb_refl.
Qed.

Lemma efer_bits e : 0 ≤ e → Z.testbit (e / 2 ^ 32 * 2 ^ 32 + Z.lor (wrap 32 e) (Z.shiftl 1 8)) LME = true.
Proof.
  intros He. rewrite <-(Z.mod_pow2_bits_low _ 32) by (unfold LME; lia). rewrite Z.add_comm, Z.mod_add by lia.
  rewrite Z.mod_pow2_bits_low, Z.lor_spec by (unfold LME; lia). apply orb_true_r.
Qed.

Lemma write_cr0_long v m : Z.testbit v 31 = true → paging m = false → Z.testbit (efer m) LME = true → Z.testbit (cr4 m) PAE = true →
  write_cr0 v m = Some (set_cr0 v (set_efer (Z.setbit (efer m) LMA) m)).
Proof. intros H1 H2 H3 H4. unfold write_cr0. by rewrite H1, H2, H3, H4. Qed.

Lemma enable_paging_ok m : entered m → identity_tables (ram m) p4_table p3_table p2_table → 0 ≤ efer m →
  ∃ m', returns enable_paging m m' ∧ paged m' ∧ Z.testbit (efer m') LMA = true ∧ reg m' ESP = stack_top ∧ ram m' = ram m.
Proof.
  intros [Hp Hs] HT He. pose proof stack_bounds.
  assert (∃ m1, reaches (Running (position enable_paging) m) (Running 67 m1) ∧ paged m1 ∧ Z.testbit (efer m1) LMA = true ∧
    reg m1 ESP = reg m ESP ∧ ram m1 = ram m) as (m1 & G1 & P1 & L1 & S1 & M1).
  { eexists. change (position enable_paging) with 55%nat. split.
    - do 6 exec1. exec1. look. change (IA32_EFER =? IA32_EFER) with true. cbn [from_option].
      do 2 exec1. look. change (IA32_EFER =? IA32_EFER) with true. cbn [from_option].
      do 3 exec1. rewrite write_cr0_long; [apply reaches_refl| |done| |]; look; [|by apply efer_bits|]; by rewrite Z.lor_spec, orb_true_r.
    - split; [|split; [|done]].
      + split; [|done|done]. unfold paging. look. by rewrite Z.lor_spec, orb_true_r.
      + look. by rewrite Z.setbit_eq. }
  exists (set_reg ESP (reg m1 ESP + 4) m1). split; [|split; [by destruct P1|split; [done|split; [look; lia|done]]]].
  intros k Hk E. eapply reaches_trans; [exact G1|].
  eapply reach_exec; [reflexivity|apply identity_paged; [done|apply (lk_text Hl); by vm_compute; lia]|].
  cbn [GrubBoot.execute]. unfold pop32. rewrite load_paged by (done || (change (Z.of_nat 4) with 4; lia)).
  cbn [mbind option_bind]. rewrite M1, S1, E, at_address_ok by done. rewrite wrap32_id by lia. apply reaches_refl.
Qed.

(** ** The whole program *)
(** A call from [start] *)
Lemma reach_enter eip l m : text !! eip = Some (Call l) → paging m = false → reg m ESP = stack_top →
  ∃ m1, entered m1 ∧ kept m m1 ∧ (∀ r, r ≠ ESP → reg m1 r = reg m r) ∧ eflags m1 = eflags m ∧
    (∀ x, ¬ stack_top - 4 ≤ x < stack_top → ram m1 x = ram m x) ∧
    reaches (Running eip m) (Running (position l) m1) ∧ read_le (ram m1) (reg m1 ESP) 4 = addr (S eip).
Proof.
  intros Hi Hp Hs. pose proof stack_bounds. assert (Hlt : (S eip ≤ length text)%nat) by (apply lookup_lt_Some in Hi; lia).
  eexists (set_reg ESP (stack_top - 4) (set_ram (write_le (stack_top - 4) 4 (addr (S eip)) (ram m)) m)). split_and!.
  - split; [done|]. by look.
  - done.
  - intros r Hr. look. by rewrite decide_False.
  - done.
  - intros x Hx. look. apply write_le_out. lia.
  - eapply reach_flat; [exact Hi|done|]. cbn [GrubBoot.execute]. rewrite push32_flat, Hs by (done || lia). apply reaches_refl.
  - look. apply read_le_same. pose proof (lk_text Hl _ Hlt). split; [lia|]. change (8 * Z.of_nat 4) with 32. lia.
Qed.

Lemma reach_call eip l m : text !! eip = Some (Call l) → paging m = false → reg m ESP = stack_top →
  ∃ m1, entered m1 ∧ kept m m1 ∧ (∀ r, r ≠ ESP → reg m1 r = reg m r) ∧ eflags m1 = eflags m ∧
    (∀ x, ¬ stack_top - 4 ≤ x < stack_top → ram m1 x = ram m x) ∧
    ∀ m', returns l m1 m' → reaches (Running eip m) (Running (S eip) m').
Proof.
  intros Hi Hp Hs. destruct (reach_enter eip l m Hi Hp Hs) as (m1 & ? & ? & ? & ? & ? & G & E). exists m1. split_and!; [done..|].
  intros m' Hr. eapply reaches_trans; [exact G|]. apply Hr; [|exact E]. apply lookup_lt_Some in Hi. lia.
Qed.

(** The CPU has long mode. *)
Definition has_long_mode : bool :=
  let '(a, _, _, _) := cpuid proc 0x80000000 in let '(_, _, _, d) := cpuid proc 0x80000001 in
  (0x80000001 <=? a) && Z.testbit d 29.

(** The code of the error that [boot.asm] reports *)
Definition boot_error (m : cpu) : option Z :=
  if negb (reg m EAX =? 0x36d76289) then Some 0x30
  else if negb (has_cpuid proc) then Some 0x31 else if negb has_long_mode then Some 0x32 else None.

(** What the loader leaves *)
Record loaded (m : cpu) : Prop := {
  ld_flat : paging m = false;
  ld_ebx : in_width 32 (reg m EBX);
  ld_eflags : in_width 32 (eflags m);
  ld_efer : 0 ≤ efer m;
  ld_bss : ∀ x, p4_table ≤ x < stack_top → ram m x = 0;
  ld_rodata : read_bytes (ram m) gdt64 26 = rodata gdt64;
}.

(** The machine before the instruction [eip] of [start], between its calls; of memory, the stack apart *)
Record between (m : cpu) (f : Z → Z) (eip : nat) (m' : cpu) : Prop := {
  bt_reaches : reaches (Running (position start) m) (Running eip m');
  bt_kept : kept m m';
  bt_stack : reg m' ESP = stack_top;
  bt_ram : ∀ x, ¬ stack_top - 8 ≤ x < stack_top → ram m' x = f x;
}.

Lemma start_stack m : loaded m → between m (ram m) 1 (set_reg ESP stack_top m).
Proof. intros Hm. pose proof (ld_flat _ Hm). split; [|done..]. change (position start) with 0%nat. exec1. apply reaches_refl. Qed.

Lemma start_multiboot m : loaded m → reg m EAX = 0x36d76289 →
  ∃ m', between m (write_le multiboot_header 4 (reg m EBX) (ram m)) 2 m' ∧ in_width 32 (eflags m').
Proof.
  intros Hm Ha. destruct (start_stack m Hm) as [G0 K0 S0 R0].
  destruct (reach_call 1 check_multiboot (set_reg ESP stack_top m)) as (m1 & E1 & K1 & R1 & F1 & M1 & C1); [done|apply (ld_flat _ Hm)|done|].
  destruct (check_multiboot_ok m1 E1) as (m2 & C2 & K2 & S2 & M2 & F2); [by rewrite R1|]. exists m2. split.
  - split; [eapply reaches_trans; [exact G0|by apply C1]|by eapply kept_trans; [|eapply kept_trans]|done|].
    intros x Hx. rewrite M2, R1 by done. unfold write_le. case_decide; [done|]. rewrite M1 by lia. done.
  - apply F2. rewrite F1. apply (ld_eflags _ Hm).
Qed.

Lemma start_cpuid m f m2 : between m f 2 m2 → paging m = false → in_width 32 (eflags m2) → has_cpuid proc = true → ∃ m', between m f 3 m'.
Proof.
  intros [G0 K0 S0 R0] Hp Hw Hc.
  destruct (reach_call 2 check_cpuid m2) as (m3 & E3 & K3 & R3 & F3 & M3 & C3); [done|by rewrite (kept_paging _ _ K0)|done|].
  destruct (check_cpuid_ok m3 E3) as (m4 & C4 & K4 & S4 & M4); [by rewrite F3|done|]. exists m4.
  split; [eapply reaches_trans; [exact G0|by apply C3]|by eapply kept_trans; [|eapply kept_trans]|done|].
  intros x Hx. rewrite M4, M3, R0 by lia. done.
Qed.

Lemma start_long_mode m f m3 : between m f 3 m3 → paging m = false → has_cpuid proc = true → has_long_mode = true → ∃ m', between m f 4 m'.
Proof.
  intros [G0 K0 S0 R0] Hp Hc Hm. unfold has_long_mode in Hm.
  destruct (reach_call 3 check_long_mode m3) as (m4 & E4 & K4 & R4 & F4 & M4 & C4); [done|by rewrite (kept_paging _ _ K0)|done|].
  pose proof (check_long_mode_ok m4) as H. destruct (cpuid proc 0x80000000) as [[[a b] c] d]. destruct (cpuid proc 0x80000001) as [[[a' b'] c'] d'].
  apply andb_true_iff in Hm as [Ha Hd]. destruct H as (m5 & C5 & K5 & S5 & M5); [done|done|lia|done|]. exists m5.
  split; [eapply reaches_trans; [exact G0|by apply C4]|by eapply kept_trans; [|eapply kept_trans]|done|].
  intros x Hx. rewrite M5, M4, R0 by lia. done.
Qed.

(** After the tables are set up *)
Lemma start_tables m f m4 : between m f 4 m4 → paging m = false → (∀ x, p4_table ≤ x < p4_table + 0x3000 → f x = 0) →
  ∃ m', reaches (Running (position start) m) (Running 5 m') ∧ kept m m' ∧ reg m' ESP = stack_top ∧
    identity_tables (ram m') p4_table p3_table p2_table ∧ ∀ x, ¬ p4_table ≤ x < stack_top → ram m' x = f x.
Proof.
  intros [G0 K0 S0 R0] Hp Hz. pose proof stack_bounds.
  destruct (reach_call 4 set_up_page_tables m4) as (m5 & E5 & K5 & R5 & F5 & M5 & C5); [done|by rewrite (kept_paging _ _ K0)|done|].
  destruct (set_up_page_tables_ok m5 E5) as (m6 & C6 & K6 & S6 & M6). exists m6. split_and!.
  - eapply reaches_trans; [exact G0|by apply C5].
  - by eapply kept_trans; [|eapply kept_trans].
  - done.
  - rewrite M6. apply tables_identity. intros x Hx. rewrite M5, R0, Hz by lia. done.
  - intros x Hx. rewrite M6, tables_out, M5, R0 by lia. done.
Qed.

(** After paging is on *)
Lemma start_paging m f m5 :
  reaches (Running (position start) m) (Running 5 m5) → kept m m5 → reg m5 ESP = stack_top → paging m = false → 0 ≤ efer m →
  identity_tables (ram m5) p4_table p3_table p2_table → (∀ x, ¬ p4_table ≤ x < stack_top → ram m5 x = f x) →
  ∃ m', reaches (Running (position start) m) (Running 6 m') ∧ reg m' ESP = stack_top ∧ paged m' ∧ Z.testbit (efer m') LMA = true ∧
    ∀ x, ¬ p4_table ≤ x < stack_top → ram m' x = f x.
Proof.
  intros G0 K0 S0 Hp He HT R0. pose proof stack_bounds. pose proof tables_layout.
  destruct (reach_call 5 enable_paging m5) as (m6 & E6 & K6 & R6 & F6 & M6 & C6); [done|by rewrite (kept_paging _ _ K0)|done|].
  destruct (enable_paging_ok m6 E6) as (m7 & C7 & P7 & L7 & S7 & M7).
  { eapply identity_tables_ext; [exact HT|]. intros x Hx. apply M6. lia. }
  { rewrite (kp_efer _ _ K6), (kp_efer _ _ K0). done. }
  exists m7. split; [eapply reaches_trans; [exact G0|by apply C6]|]. split_and!; [done..|]. intros x Hx. rewrite M7, M6, R0 by lia. done.
Qed.

Lemma read_rodata f : read_bytes f gdt64 26 = rodata gdt64 →
  read_le f (gdt64 + 8) 8 = code_descriptor ∧ read_le f (gdt64 + 16) 2 = 15 ∧ read_le f (gdt64 + 16 + 2) 4 = gdt64.
Proof.
  intros H. pose proof (lk_gdt Hl). unfold read_le.
  pose proof (read_bytes_sub f gdt64 8 8 26 ltac:(lia)) as E1. pose proof (read_bytes_sub f gdt64 16 2 26 ltac:(lia)) as E2.
  pose proof (read_bytes_sub f gdt64 18 4 26 ltac:(lia)) as E3. rewrite H in E1, E2, E3.
  change (Z.of_nat 8) with 8 in E1. change (Z.of_nat 16) with 16 in E2. change (Z.of_nat 18) with (16 + 2) in E3. rewrite Z.add_assoc in E3.
  rewrite E1, E2, E3. split; [done|]. split; [done|]. change (take 4 (drop 18 (rodata gdt64))) with (le_split 4 gdt64).
  apply le_combine_split. split; [lia|]. change (8 * Z.of_nat 4) with 32. lia.
Qed.

(** The last two instructions: the descriptor table, and the jump into 64-bit mode *)
Lemma start_jump m : paged m → Z.testbit (efer m) LMA = true → read_bytes (ram m) gdt64 26 = rodata gdt64 →
  reaches (Running 6 m) (Long (set_gdtr (15, gdt64) m)).
Proof.
  intros Hm HL Hr. destruct (read_rodata _ Hr) as (R1 & R2 & R3). pose proof (lk_gdt Hl).
  assert (Hf : ∀ eip, (eip ≤ length text)%nat → linear m (addr eip) = Some (addr eip)) by (intros; apply identity_paged; [done|by apply (lk_text Hl)]).
  eapply reach_exec; [reflexivity|apply Hf; by vm_compute; lia|]. cbn [GrubBoot.execute].
  rewrite !load_paged, R2, R3 by (lia || exact Hm). cbn [mbind option_bind GrubBoot.next from_option].
  eapply reach_exec; [reflexivity|apply Hf; by vm_compute; lia|]. cbn [GrubBoot.execute]. unfold jump_far. look. cbn [fst snd].
  assert (P : paged (set_gdtr (15, gdt64) m)) by (destruct Hm; by split).
  rewrite load_paged by (lia || exact P). look. rewrite R1, HL. apply reaches_refl.
Qed.

(** From the loader to long mode: on a CPU that has it, the program reaches [long_mode_start] in
    64-bit mode, with exactly the first GiB of memory mapped, to itself. *)
Lemma boots m : loaded m → boot_error m = None →
  ∃ m', reaches (Running (position start) m) (Long m') ∧ paged m' ∧ Z.testbit (efer m') LMA = true ∧ gdtr m' = (15, gdt64) ∧
    reg m' ESP = stack_top ∧ read_le (ram m') multiboot_header 4 = reg m EBX.
Proof.
  intros Hm He. unfold boot_error in He. destruct (Z.eqb_spec (reg m EAX) 0x36d76289) as [Ha|]; [|done].
  destruct (has_cpuid proc) eqn:Hc; [|done]. destruct has_long_mode eqn:Hlm; [|done]. pose proof (ld_flat _ Hm) as Hp.
  pose proof stack_bounds. pose proof (lk_header Hl). pose proof (lk_gdt Hl). pose proof (lk_apart Hl).
  destruct (start_multiboot m Hm Ha) as (m2 & B2 & W2). destruct (start_cpuid _ _ _ B2) as (m3 & B3); [done..|].
  destruct (start_long_mode _ _ _ B3) as (m4 & B4); [done..|].
  destruct (start_tables _ _ _ B4) as (m5 & G5 & K5 & S5 & T5 & R5); [done| |].
  { intros x Hx. rewrite write_le_out by lia. apply (ld_bss _ Hm). lia. }
  destruct (start_paging m _ m5 G5 K5 S5 Hp (ld_efer _ Hm) T5 R5) as (m6 & G6 & S6 & P6 & L6 & R6).
  exists (set_gdtr (15, gdt64) m6). split; [|split_and!; [by destruct P6|done|done|done|]].
  - eapply reaches_trans; [exact G6|]. apply start_jump; [done|done|]. rewrite <-(ld_rodata _ Hm). unfold read_bytes.
    apply list_fmap_ext. intros j i Hi. apply lookup_seq in Hi as [-> Hi]. rewrite R6, write_le_out by lia. done.
  - look. rewrite (read_le_ext _ (write_le multiboot_header 4 (reg m EBX) (ram m))); [apply read_le_same, (ld_ebx _ Hm)|].
    intros x Hx. apply R6. lia.
Qed.

(** C21: the boot code of [old-code] brings the machine up.  Loaded by a multiboot loader on a CPU
    with long mode, [boot.asm] comes to [long_mode_start] in 64-bit mode, with every address of
    the first GiB mapped to itself and nothing else mapped; [long_mode_start] then calls [kmain]
    with the address of the loader's information, on the program's stack. *)
Theorem boot_enters_kernel kmain ret m : loaded m → boot_error m = None →
  ∃ m' m2, reaches (Running (position start) m) (Long m') ∧ Z.testbit (efer m') LMA = true ∧
    (∀ a, 0 ≤ a < 2 ^ 30 → linear m' a = Some a) ∧ (∀ a, 2 ^ 30 ≤ a < 2 ^ 48 → linear m' a = None) ∧
    reg m2 EDI = reg m EBX ∧ reg m2 ESP = stack_top - 8 ∧ (in_width 64 ret → load m2 (reg m2 ESP) 8 = Some ret) ∧
    long_mode_start multiboot_header kmain ret m' =
    (m3 ← kmain m2; store 0xb8000 8 0x2f592f412f4b2f4f (set_reg EAX 0x2f592f412f4b2f4f m3)).
Proof.
  intros Hm He. destruct (boots m Hm He) as (m' & G & P & L & Gd & S & R). pose proof stack_bounds. pose proof (lk_header Hl). pose proof tables_layout.
  exists m'. set (mk := set_ram (write_le (stack_top - 8) 8 ret (ram m')) (set_reg EDI (reg m EBX) (set_flags true false (set_reg EDI 0 m')))).
  assert (Pk : paged (set_reg ESP (stack_top - 8) mk)).
  { destruct P as [P1 P2 P3]. split; [done|done|]. eapply identity_tables_ext; [exact P3|]. intros x Hx. apply write_le_out. lia. }
  exists (set_reg ESP (stack_top - 8) mk). split_and!; [done|done| | |done|done| |].
  - intros a Ha. by apply identity_paged.
  - intros a Ha. rewrite linear_paged by done. destruct tables_ok as (? & ? & _). eapply walk_outside; [apply P|done|done].
  - intros Hw. change (reg _ ESP) with (stack_top - 8). rewrite load_paged by (done || lia). f_equal. by apply read_le_same.
  - unfold long_mode_start. cbv zeta. rewrite load_paged by (lia || by destruct P). look. rewrite R. cbn [mbind option_bind].
    rewrite store_paged; [|by destruct P|look; lia..]. cbn [mbind option_bind]. look. rewrite S. reflexivity.
Qed.

(** ** Errors *)
Lemma error_screen c m : c = 0x30 ∨ c = 0x31 ∨ c = 0x32 → paging m = false →
  ∃ m', reaches (Running (position error) (set_reg EAX (reg m EAX - al m + c) m)) (Halted m') ∧
    read_bytes (ram m') 0xb8000 12 = [0x45; 0x4f; 0x52; 0x4f; 0x52; 0x4f; 0x3a; 0x4f; 0x20; 0x4f; c; 0x4f].
Proof.
  intros Hc Hp. assert (E : al (set_reg EAX (reg m EAX - al m + c) m) = c) by (unfold al; look; zdm).
  eexists. change (position error) with 68%nat. split.
  - do 4 (exec1; rewrite store_flat by done; cbn [from_option]). exec1. apply reaches_refl.
  - change (al (set_ram _ _)) with (al (set_reg EAX (reg m EAX - al m + c) m)). look. rewrite E. by destruct Hc as [->|[->| ->]].
Qed.

(** What is on the screen when the program gives up *)
Definition reports (c : Z) (m : cpu) : Prop :=
  read_bytes (ram m) 0xb8000 12 = [0x45; 0x4f; 0x52; 0x4f; 0x52; 0x4f; 0x3a; 0x4f; 0x20; 0x4f; c; 0x4f].

Lemma give_error k c m : c = 0x30 ∨ c = 0x31 ∨ c = 0x32 → paging m = false →
  text !! k = Some (MovAl c) → text !! S k = Some (Jmp error) → ∃ m', reaches (Running k m) (Halted m') ∧ reports c m'.
Proof.
  intros Hc Hp E1 E2. destruct (error_screen c m Hc Hp) as (m' & G & R). exists m'. split; [|exact R].
  eapply reach_flat; [exact E1|exact Hp|]. cbn [GrubBoot.execute GrubBoot.next from_option].
  eapply reach_flat; [exact E2|exact Hp|]. cbn [GrubBoot.execute]. exact G.
Qed.

(** A call of [start] after which the program halts *)
Lemma start_fails m f eip l c m2 : between m f eip m2 → paging m = false → text !! eip = Some (Call l) →
  (∀ m3, entered m3 → (∀ r, r ≠ ESP → reg m3 r = reg m2 r) → eflags m3 = eflags m2 →
    ∃ m', reaches (Running (position l) m3) (Halted m') ∧ reports c m') →
  ∃ m', reaches (Running (position start) m) (Halted m') ∧ reports c m'.
Proof.
  intros [G0 K0 S0 R0] Hp Hi H.
  destruct (reach_enter eip l m2) as (m3 & E3 & K3 & R3 & F3 & M3 & C3 & _); [done|by rewrite (kept_paging _ _ K0)|done|].
  destruct (H m3 E3 R3 F3) as (m' & G & Hr). exists m'. split; [|done]. eapply reaches_trans; [exact G0|]. by eapply reaches_trans.
Qed.

Lemma check_multiboot_fails m : entered m → reg m EAX ≠ 0x36d76289 →
  ∃ m', reaches (Running (position check_multiboot) m) (Halted m') ∧ reports 0x30 m'.
Proof.
  intros [Hp Hs] Ha.
  destruct (give_error 12 0x30 (set_flags (reg m EAX =? 0x36d76289) (reg m EAX <? 0x36d76289) m)) as (m' & G & R); [by left|done|done|done|].
  exists m'. split; [|done]. change (position check_multiboot) with 8%nat. exec1. exec1. cbn [holds_cond]. rewrite zf_set.
  rewrite (proj2 (Z.eqb_neq _ _)) in * by done. exact G.
Qed.

Lemma check_cpuid_fails m : entered m → in_width 32 (eflags m) → has_cpuid proc = false →
  ∃ m', reaches (Running (position check_cpuid) m) (Halted m') ∧ reports 0x31 m'.
Proof.
  intros Hm Hw Hc. destruct (check_cpuid_flags m Hm Hw) as (m1 & G1 & K1 & Rc & Rs & Ra & Hr). destruct Hm as [Hp Hs]. rewrite Hc in Ra.
  pose proof (kept_paging _ _ K1) as Hp1. rewrite Hp in Hp1.
  destruct (give_error 27 0x31 (set_flags (reg m1 EAX =? reg m1 ECX) (reg m1 EAX <? reg m1 ECX) m1)) as (m' & G & R); [by right; left|done|done|done|].
  exists m'. split; [|done]. eapply reaches_trans; [exact G1|]. exec1. exec1. cbn [holds_cond]. rewrite zf_set.
  rewrite Ra, Rc, Z.eqb_refl in *. exact G.
Qed.

Lemma check_long_mode_fails m : entered m → has_cpuid proc = true → has_long_mode = false →
  ∃ m', reaches (Running (position check_long_mode) m) (Halted m') ∧ reports 0x32 m'.
Proof.
  intros [Hp Hs] Hc Hlm. unfold has_long_mode in Hlm.
  destruct (cpuid proc 0x80000000) as [[[a b] c] d] eqn:C1. destruct (cpuid proc 0x80000001) as [[[a' b'] c'] d'] eqn:C2.
  assert (F : ∀ m1, paging m1 = false → ∃ m', reaches (Running 38 m1) (Halted m') ∧ reports 0x32 m').
  { intros m1 H1. apply give_error; [by right; right|done|done|done]. }
  assert (D : ∀ c1 c2, (paging c2 = false ∧ reaches c1 (Running 38 c2)) → ∃ m', reaches c1 (Halted m') ∧ reports 0x32 m').
  { intros c1 c2 [H1 H2]. destruct (F c2 H1) as (m' & G & R). exists m'. split; [|done]. by eapply reaches_trans. }
  destruct (Z.leb_spec 0x80000001 a) as [Ha|Ha]; cbn [andb] in Hlm; eapply D; (split; [|change (position check_long_mode) with 29%nat;
    exec1; exec1; look; rewrite C1, Hc; cbn [from_option]; exec1; exec1; cbn [holds_cond]; rewrite cf_set; look]).
  - shelve.
  - rewrite (proj2 (Z.ltb_ge _ _)) by lia. exec1. exec1. look. rewrite C2, Hc. cbn [from_option]. exec1. exec1. cbn [holds_cond]. rewrite zf_set. look.
    rewrite land_bit_zero, Hlm by lia. apply reaches_refl.
  - shelve.
  - rewrite (proj2 (Z.ltb_lt _ _)) by lia. apply reaches_refl.
  Unshelve. all: exact Hp.
Qed.

(** on a machine without what it needs, [boot.asm] halts with a message: [ERR: 0] if it was
    not loaded by a multiboot loader, [ERR: 1] without [cpuid], [ERR: 2] without long mode. *)
Theorem boot_reports_error c m : loaded m → boot_error m = Some c →
  ∃ m', reaches (Running (position start) m) (Halted m') ∧ reports c m'.
Proof.
  intros Hm He. pose proof (ld_flat _ Hm) as Hp. unfold boot_error in He. destruct (Z.eqb_spec (reg m EAX) 0x36d76289) as [Ha|Ha]; cbn [negb] in He.
  - destruct (start_multiboot m Hm Ha) as (m2 & B2 & W2). destruct (has_cpuid proc) eqn:Hc; cbn [negb] in He.
    + destruct has_long_mode eqn:Hlm; [done|]. injection He as <-. destruct (start_cpuid _ _ _ B2) as (m3 & B3); [done..|].
      eapply (start_fails _ _ 3); [exact B3|done|done|]. intros m4 E4 _ _. by apply check_long_mode_fails.
    + injection He as <-. eapply (start_fails _ _ 2); [exact B2|done|done|]. intros m3 E3 _ F3. apply check_cpuid_fails; [done|by rewrite F3|done].
  - injection He as <-. eapply (start_fails _ _ 1); [by apply start_stack|done|done|]. intros m2 E2 R2 _. apply check_multiboot_fails; [done|].
    by rewrite R2.
Qed.
End execution.

(** ** Two machines *)
Module Example.
Definition addr (i : nat) : Z := 0x100000 + 8 * Z.of_nat i.
Definition new_cpu : processor := mkProcessor true (λ leaf, if leaf =? 0x80000000 then (0x80000008, 0, 0, 0) else (0, 0, 0, 2 ^ 29)).
Definition old_cpu : processor := mkProcessor true (λ _, (0x80000000, 0, 0, 0)).
Definition memory (x : Z) : Z :=
  if decide (0x180000 ≤ x < 0x180000 + 26) then rodata 0x180000 !!! Z.to_nat (x - 0x180000) else 0.
Definition machine : cpu :=
  mkCpu (λ r, match r with EAX => 0x36d76289 | EBX => 0x9500 | _ => 0 end) 2 0x11 0 0 0 (0, 0) memory.

Lemma is_linked : linked 0x200000 0x300000 0x180000 addr.
Proof. split; [by vm_compute| | |vm_compute; split_and!; [done|done|by right]|vm_compute; split_and!; [done|done|by left]|by vm_compute; right].
  - intros i Hi. change (length _) with 73%nat in Hi. unfold addr. lia.
  - intros i j _ _. unfold addr. lia.
Qed.

Lemma is_loaded : loaded 0x200000 0x180000 machine.
Proof.
  split; [done|by vm_compute|by vm_compute|done| |by vm_compute]. intros x Hx. cbn [ram machine]. unfold memory. rewrite decide_False; [done|lia].
Qed.

Lemma boot_enters_kernel_witness :
  ∃ m', reaches 0x200000 0x300000 0x180000 addr new_cpu (Running 0 machine) (Long m') ∧ linear m' 0x3fff_ffff = Some 0x3fff_ffff ∧
    linear m' 0x4000_0000 = None.
Proof.
  destruct (boot_enters_kernel 0x200000 0x300000 0x180000 addr new_cpu is_linked Some 0 machine is_loaded) as (m' & m2 & G & _ & I & O & _); [done|].
  exists m'. split; [exact G|]. split; [by apply I|by apply O].
Defined.

Lemma boot_reports_error_witness :
  ∃ m', reaches 0x200000 0x300000 0x180000 addr old_cpu (Running 0 machine) (Halted m') ∧ reports 0x32 m'.
Proof. apply (boot_reports_error 0x200000 0x300000 0x180000 addr old_cpu is_linked 0x32 machine is_loaded). done. Defined.
End Example.
