(* ===== verification/Keyboard.v ===== *)
(** * The keyboard ([kernel/src/keyboard.rs])

    Its interrupt handler feeds the scancodes of the controller to the decoder of the
    [pc_keyboard] crate and logs the keys.  The devices of the other drivers, the static
    [KEYBOARD] and the log are one state here, so that the handler is one of [Interrupts]. *)
From S2P Require Import Prelude External Addr Asm Sched Registers Interrupts Tick TickThms.
#[local] Open Scope Z_scope.

(** ** The [pc_keyboard] crate *)
Inductive DecodedKey (K : Type) : Type := Unicode (character : Z) | RawKey (key : K).
Arguments Unicode {K} character.
Arguments RawKey {K} key.

Class PcKeyboard : Type := {
  Keyboard : Type;
  KeyEvent : Type;
  KeyCode : Type;
  (** [Keyboard::new(layouts::Us104Key, ScancodeSet1, HandleControl::Ignore)] *)
  keyboard_new : Keyboard;
  (** [None] is an error *)
  add_byte : Keyboard → Z → option (option KeyEvent) * Keyboard;
  process_keyevent : Keyboard → KeyEvent → option (DecodedKey KeyCode) * Keyboard;
}.

(** An I/O port of a byte *)
Class Port8 (D : Type) : Type := { port_read : Z → D → Z * D }.

Record with_keyboard (D : Type) `{!PcKeyboard} : Type := mkWith {
  other_devices : D;
  KEYBOARD : option Keyboard;
  key_log : list (DecodedKey KeyCode);
}.
Arguments mkWith {D _} other_devices KEYBOARD key_log.
Arguments other_devices {D _} w.
Arguments KEYBOARD {D _} w.
Arguments key_log {D _} w.

#[export] Instance with_keyboard_bus {D} `{!PcKeyboard, !Bus D} : Bus (with_keyboard D) := {|
  bus_read bytes a w := let '(v, d) := bus_read bytes a (other_devices w) in (v, mkWith d (KEYBOARD w) (key_log w));
  bus_write bytes a v w := mkWith (bus_write bytes a v (other_devices w)) (KEYBOARD w) (key_log w);
|}.

Section keyboard.
Context {R D : Type} `{!TaskMemory R, !Bus D, !Port8 D, !PcKeyboard} {bc : BitfieldCrate} {x86 : X86_64}.
Import Interrupts.

Definition KEYBOARD_PORT : Z := 0x60.

Definition keyboard_interrupt_handler : @handler R (with_keyboard D) := λ _ _ k,
  let w := k_devices k in
  keyboard ← expect (KEYBOARD w);
  let '(scancode, d) := port_read KEYBOARD_PORT (other_devices w) in
  let '(r, keyboard) := add_byte keyboard scancode in
  match r with
  | Some (Some key_event) =>
      let '(key, keyboard) := process_keyevent keyboard key_event in
      let log := match key with Some key => key_log w ++ [key] | None => key_log w end in
      mret (mkKernel (k_sched k) (mkWith d (Some keyboard) log))
  | _ => mret (mkKernel (k_sched k) (mkWith d (Some keyboard) (key_log w)))
  end.

Definition init_keyboard (ioapic : option Z) (t : @table R (with_keyboard D)) (w : with_keyboard D) : outcome (table * with_keyboard D) :=
  let w := mkWith (other_devices w) (Some keyboard_new) (key_log w) in
  '(interrupt_vector, t) ← install_interrupt_next_vector 1 keyboard_interrupt_handler t;
  w ← IOAPIC.install_irq ioapic interrupt_vector IRQKeyboard w;
  mret (t, w).

(** ** What the decoder makes of a sequence of scancodes *)
Definition decode_byte (keyboard : Keyboard) (b : Z) : list (DecodedKey KeyCode) * Keyboard :=
  let '(r, keyboard) := add_byte keyboard b in
  match r with
  | Some (Some e) => let '(key, keyboard) := process_keyevent keyboard e in (option_list key, keyboard)
  | _ => ([], keyboard)
  end.

Fixpoint decode (keyboard : Keyboard) (bs : list Z) : list (DecodedKey KeyCode) * Keyboard :=
  match bs with
  | [] => ([], keyboard)
  | b :: bs => let '(keys, keyboard) := decode_byte keyboard b in let '(rest, keyboard) := decode keyboard bs in (keys ++ rest, keyboard)
  end.

Lemma handler_decodes v i (k : @kernel R (with_keyboard D)) keyboard b d :
  KEYBOARD (k_devices k) = Some keyboard → port_read KEYBOARD_PORT (other_devices (k_devices k)) = (b, d) →
  keyboard_interrupt_handler v i k =
  Ret (mkKernel (k_sched k) (mkWith d (Some (decode_byte keyboard b).2) (key_log (k_devices k) ++ (decode_byte keyboard b).1))).
Proof.
  intros Hk Hp. unfold keyboard_interrupt_handler, decode_byte. rewrite Hk. run_monad. rewrite Hp.
  destruct (add_byte keyboard b) as [[[e|]|] kb]; cbn; [|by rewrite app_nil_r..].
  destruct (process_keyevent kb e) as [[key|] kb']; cbn; [done|by rewrite app_nil_r].
Qed.
End keyboard.

(** ** The chips behind the other devices *)
Section lifted.
Context {D : Type} `{!PcKeyboard} {bus : Bus D} {ioapic hpet : Z} {tc : TimerChips D ioapic hpet} {bc : BitfieldCrate} {tcl : TimerChipsLaws D}.

#[export] Instance with_keyboard_chips : TimerChips (with_keyboard D) ioapic hpet := {|
  chip_sel w := chip_sel (other_devices w);
  chip_reg w := chip_reg (other_devices w);
  timer_reg w := timer_reg (other_devices w);
|}.

#[export] Instance with_keyboard_chips_laws : TimerChipsLaws (with_keyboard D).
Proof.
  split.
  - intros w r. apply (chip_width (other_devices w)).
  - intros v w. apply (chip_select v (other_devices w)).
  - intros [d kb l]. cbn. by rewrite chip_read.
  - intros v w. apply (chip_write v (other_devices w)).
  - intros o [d kb l] Ho. cbn. by rewrite timer_read.
  - intros o v w. apply (timer_write o v (other_devices w)).
  - intros v w. apply (timer_route v (other_devices w)).
  - intros w o. apply (timer_width (other_devices w)).
Qed.
End lifted.

(** ** The keyboard's interrupt *)
(** The bytes that the controller has for the kernel *)
Class Scancodes (D : Type) `{!Port8 D} : Type := {
  scancodes : D → list Z;
  scancodes_read d b bs : scancodes d = b :: bs → ∃ d', port_read KEYBOARD_PORT d = (b, d') ∧ scancodes d' = bs;
}.

Section wired.
Context {R D : Type} `{!TaskMemory R, !PcKeyboard, !Port8 D, !Scancodes D} {bus : Bus D} {ioapic hpet : Z} {tc : TimerChips D ioapic hpet}
  {bc : BitfieldCrate} {bcl : BitfieldCrateLaws} {tcl : TimerChipsLaws D} {x86 : X86_64}.
Import Interrupts.
Implicit Types (t : @table R (with_keyboard D)) (w : with_keyboard D) (k : @kernel R (with_keyboard D)).

(** The drivers of the other devices leave the keyboard alone. *)
Definition same_keyboard w w' : Prop := KEYBOARD w' = KEYBOARD w ∧ key_log w' = key_log w.

Lemma same_keyboard_trans w1 w2 w3 : same_keyboard w1 w2 → same_keyboard w2 w3 → same_keyboard w1 w3.
Proof. intros [] []. split; congruence. Qed.

Lemma keyboard_read_keeps bytes a o w v w' : read_at_reg bytes a o w = Ret (v, w') → same_keyboard w w'.
Proof.
  unfold read_at_reg, RegisterRW.read. intros Hx. apply bind_ret_inv in Hx as (x & _ & Hx). cbn in Hx. destruct (bus_read _ _ _). by injection Hx as <- <-.
Qed.

Lemma keyboard_write_keeps bytes a o v w w' : write_at_reg bytes a o v w = Ret w' → same_keyboard w w'.
Proof. unfold write_at_reg, RegisterRW.write. intros Hx. apply bind_ret_inv in Hx as (x & _ & Hx). by injection Hx as <-. Qed.

Lemma keyboard_modify_keeps bytes a o f w w' : modify_at_reg bytes a o f w = Ret w' → same_keyboard w w'.
Proof.
  unfold modify_at_reg, RegisterRW.modify_mut, RegisterRW.read, RegisterRW.write. intros Hx. apply bind_ret_inv in Hx as (x & _ & Hx).
  apply bind_ret_inv in Hx as ([v w1] & H1 & Hx). apply bind_ret_inv in Hx as (y & _ & Hx). cbn in H1. destruct (bus_read _ _ _). injection H1 as <- <-.
  by injection Hx as <-.
Qed.

(** Follow the accesses of a driver. *)
Ltac keeps :=
  repeat match goal with
  | E : (_ ≫= _) = Ret _ |- _ => let x := fresh "x" in let E1 := fresh "E" in apply bind_ret_inv in E as (x & E1 & E)
  | x : _ * _ |- _ => destruct x
  | E : read_at_reg _ _ _ _ = Ret _ |- _ => apply keyboard_read_keeps in E as [? ?]
  | E : write_at_reg _ _ _ _ _ = Ret _ |- _ => apply keyboard_write_keeps in E as [? ?]
  | E : modify_at_reg _ _ _ _ _ = Ret _ |- _ => apply keyboard_modify_keeps in E as [? ?]
  end.

Lemma install_irq_keeps v irq w w' : IOAPIC.install_irq (Some ioapic) v irq w = Ret w' → same_keyboard w w'.
Proof.
  unfold IOAPIC.install_irq, IOAPIC.ioapic_id, IOAPIC.read_32_bit_register, IOAPIC.write_ioredtbl, IOAPIC.write_64_bit_register, IOAPIC.write_32_bit_register.
  intros E. keeps. split; congruence.
Qed.

Lemma global_init_keeps apic p t t' w w' : Tick.global_init apic (Some ioapic) (Some hpet) p t w = Ret (t', w') → same_keyboard w w'.
Proof.
  unfold Tick.global_init, HPET.enable_periodic_timer_handler, HPET.enable_periodic_timer. intros E. keeps.
  repeat match goal with E : IOAPIC.install_irq _ _ _ _ = Ret _ |- _ => apply install_irq_keeps in E as [? ?] end.
  injection E as <- <-. split; congruence.
Qed.

Lemma init_keyboard_ok t w : register_at ioapic 0x10 → length (handlers t) = 256%nat → 49 ≤ next_open t < 255 →
  ∃ w', init_keyboard (Some ioapic) t w =
      Ret (mkTable (<[Z.to_nat (next_open t) := (1, keyboard_interrupt_handler)]> (handlers t)) (next_open t + 1), w') ∧
    routed w' 1 (next_open t) (get IOAPICID "id" (chip_reg w 0)) ∧ (∀ o, timer_reg w' o = timer_reg w o) ∧
    KEYBOARD w' = Some keyboard_new ∧ key_log w' = key_log w.
Proof.
  intros Hio Hl Hn. unfold init_keyboard. rewrite install_next by (done || lia). rewrite (proj2 (Z.ltb_lt (next_open t) 255)) by lia. run_monad.
  set (w0 := mkWith (other_devices w) (Some keyboard_new) (key_log w)).
  destruct (install_irq_ok Hio (next_open t) IRQKeyboard w0) as (w1 & E1 & Hr & _ & Ht); [lia|]. rewrite E1. run_monad.
  destruct (install_irq_keeps _ _ _ _ E1) as [K1 K2]. exists w1. split_and!; [done|exact Hr|exact Ht|done|done].
Qed.

(** The keyboard and the timer, one after the other: each has a vector of its own. *)
Lemma interrupts_wired apic p t w : register_at ioapic 0x10 → register_at hpet 0x200 → length (handlers t) = 256%nat →
  49 ≤ next_open t < 254 → timer_capable w 9 →
  ∃ t1 w1 t2 w2, init_keyboard (Some ioapic) t w = Ret (t1, w1) ∧
    Tick.global_init apic (Some ioapic) (Some hpet) p t1 w1 = Ret (t2, w2) ∧
    routed w2 1 (next_open t) (get IOAPICID "id" (chip_reg w 0)) ∧ routed w2 9 (next_open t + 1) (get IOAPICID "id" (chip_reg w1 0)) ∧
    timer_armed w2 9 (50 * 10 ^ 12) ∧ KEYBOARD w2 = Some keyboard_new ∧ key_log w2 = key_log w ∧
    handlers t2 !! Z.to_nat (next_open t) = Some (1, keyboard_interrupt_handler) ∧
    handlers t2 !! Z.to_nat (next_open t + 1) = Some (0, Tick.tick_broadcast apic (Some hpet) p).
Proof.
  intros Hio Hhp Hl Hn Hc. destruct (init_keyboard_ok t w Hio Hl) as (w1 & E1 & R1 & T1 & K1 & L1); [lia|].
  set (t1 := mkTable _ _) in E1.
  destruct (tick_starts apic p t1 w1 Hio Hhp) as (t2 & w2 & E2 & R2 & O2 & A2 & H2 & _); [by cbn; rewrite length_insert|cbn; lia| |].
  { unfold timer_capable. rewrite !T1. exact Hc. }
  destruct (global_init_keeps _ _ _ _ _ _ E2) as [K2 L2]. exists t1, w1, t2, w2. split_and!; [done|done| |exact R2|exact A2|congruence|congruence| |].
  - unfold routed. rewrite O2 by done. exact R1.
  - rewrite H2. cbn [next_open t1]. rewrite list_lookup_insert_ne by lia. apply list_lookup_insert_eq. lia.
  - rewrite H2. cbn [next_open t1]. apply list_lookup_insert_eq. cbn. rewrite length_insert. lia.
Qed.

(** Interrupts of the keyboard, one for each byte: the log is what the decoder makes of the bytes. *)
Lemma keys_decoded v i bs rest : ∀ k kb, KEYBOARD (k_devices k) = Some kb → scancodes (other_devices (k_devices k)) = bs ++ rest →
  ∃ k', foldM (λ _ k, keyboard_interrupt_handler v i k) bs k = Ret k' ∧ k_sched k' = k_sched k ∧
    key_log (k_devices k') = key_log (k_devices k) ++ (decode kb bs).1 ∧ KEYBOARD (k_devices k') = Some (decode kb bs).2 ∧
    scancodes (other_devices (k_devices k')) = rest.
Proof.
  induction bs as [|b bs IH]; intros k kb Hk Hs; [exists k; cbn; by rewrite app_nil_r|].
  destruct (scancodes_read _ _ _ Hs) as (d & Hp & Hs'). cbn [foldM]. rewrite (handler_decodes _ _ _ _ _ _ Hk Hp). run_monad.
  set (k1 := mkKernel _ _). destruct (IH k1 _ eq_refl Hs') as (k' & E & S' & L' & K' & D'). exists k'. rewrite E. cbn in S', L', K'. cbn [decode].
  destruct (decode_byte kb b) as [keys kb1]. cbn in *. destruct (decode kb1 bs) as [keys' kb2]. cbn in *.
  split_and!; [done|done|by rewrite app_assoc|done|done].
Qed.
End wired.
