(* ===== verification/Acpi.v ===== *)
(** * ACPI ([kernel/src/acpi.rs]) and the devices it names

    What the kernel takes from the ACPI tables, through the [acpi] crate: the addresses of the
    local APIC, the I/O APIC, the event timer and the PCI configuration space; and the part of
    [global_setup] that initialises these devices from them. *)
From S2P Require Import Prelude External Addr Asm Cells Sched SchedProps Registers Interrupts Tick TickThms Keyboard.
#[local] Open Scope Z_scope.
#[local] Open Scope rust_scope.

(** ** The [acpi] crate

    Its types as far as the kernel reads them, and its operations. *)
Record IoApic : Type := mkIoApic { io_id : Z; io_address : Z; io_gsi_base : Z }.
Record ApicModel : Type := mkApicModel { local_apic_address : Z; io_apics : list IoApic }.
Inductive InterruptModel : Type := UnknownModel | ApicInterrupts (apic : ApicModel) | OtherModel.
Record PhysicalMapping : Type := mkMapping {
  physical_start : Z;
  virtual_start : Z;
  region_length : Z;
  mapped_length : Z;
}.

Class AcpiCrate : Type := {
  Tables : Type;
  ProcessorInfo : Type;
  (** [AcpiTables::from_rsdp], with the handler's [map_physical_region] *)
  tables_from_rsdp : (Z → Z → outcome PhysicalMapping) → Z → outcome (option Tables);
  (** [PciConfigRegions::new(tables)] and its [physical_address] *)
  pci_config_regions : Tables → option (Z → Z → Z → Z → option Z);
  (** [platform_info()]: the interrupt model and the processors *)
  platform_info : Tables → option (InterruptModel * option ProcessorInfo);
  (** [HpetInfo::new(tables)]: [base_address] *)
  hpet_base_address : Tables → option Z;
  size_of_mcfg : Z;
  size_of_mcfg_entry : Z;
}.

(** [header().length] of a table and where it is mapped *)
Record McfgMapping : Type := mkMcfg { mcfg_length : Z; mcfg_virtual_start : Z }.

Section acpi.
Context {ac : AcpiCrate} {x86 : X86_64}.

(** ** [OffsetMapAcpiHandler] *)
Definition map_physical_region (physical_address size : Z) : outcome PhysicalMapping :=
  virtual_start ← (if physical_address <? KERNEL_PHYSICAL_MAPPING_START
                   then physical_address +! KERNEL_PHYSICAL_MAPPING_START else mret physical_address);
  mret (mkMapping physical_address virtual_start size size).

(** ** [ACPIInfo] *)
Definition from_rsdp (rsdp_addr : Z) : outcome Tables :=
  tables ← tables_from_rsdp map_physical_region rsdp_addr;
  expect tables.

(** [ACPI_INFO] is replaced. *)
Definition init (rsdp_addr : Z) (ACPI_INFO : option Tables) : outcome (option Tables) :=
  tables ← from_rsdp rsdp_addr; mret (Some tables).

Definition acpi_info (ACPI_INFO : option Tables) : outcome Tables := expect ACPI_INFO.

(** [KernPhysAddr::from(PhysAddr::new(a))] *)
Definition kern_address (a : Z) : outcome Z := phys_addr ← PhysAddr_new a; KernPhysAddr.from_phys_addr phys_addr.

Definition pci_config_region_base_address (self : Tables) : outcome Z :=
  pci_config_regions ← expect (pci_config_regions self);
  pci_config_region_base_address ← expect (pci_config_regions 0 0 0 0);
  kern_address pci_config_region_base_address.

Definition apic_info (self : Tables) : outcome ApicModel :=
  '(interrupt_model, _) ← expect (platform_info self);
  match interrupt_model with
  | UnknownModel => Panic PanicExplicit
  | ApicInterrupts apic => mret apic
  | OtherModel => Panic PanicExplicit
  end.

Definition lapic_address (self : Tables) : outcome Z :=
  apic_info ← apic_info self;
  kern_address (local_apic_address apic_info).

Record IOApicInfo : Type := mkIOApicInfo { info_id : Z; info_address : Z; info_gsi_base : Z }.

Definition ioapic_info (self : Tables) (ioapic_index : Z) : outcome IOApicInfo :=
  apic_info ← apic_info self;
  io_apic ← expect (io_apics apic_info !! Z.to_nat ioapic_index);
  address ← kern_address (io_address io_apic);
  mret (mkIOApicInfo (io_id io_apic) address (io_gsi_base io_apic)).

Definition hpet_info (self : Tables) : outcome Z := expect (hpet_base_address self).

Definition hpet_address (self : Tables) : outcome Z :=
  base_address ← hpet_info self;
  kern_address base_address.

Definition processor_info (self : Tables) : outcome ProcessorInfo :=
  '(_, processor_info) ← expect (platform_info self);
  expect processor_info.

(** [mcfg_entries]: where the entries start, and their number *)
Definition mcfg_entries (mcfg : McfgMapping) : outcome (Z * Z) :=
  length ← mcfg_length mcfg -! size_of_mcfg;
  num_entries ← udiv length size_of_mcfg_entry;
  mret (mcfg_virtual_start mcfg + size_of_mcfg, num_entries).
End acpi.

(** ** The devices of [global_setup] *)
Record IOAPIC : Type := mkIOAPIC { ioapic_id : Z; global_system_interrupt_base : Z; ioapic_registers : Z }.

Record platform {ac : AcpiCrate} : Type := mkPlatform {
  ACPI_INFO : option Tables;
  LOCAL_APIC : OnceCell.t Z;       (** the address of its registers *)
  IOAPIC_ : OnceCell.t IOAPIC;
  HPET_ : OnceCell.t Z;
}.
Arguments mkPlatform {ac} ACPI_INFO LOCAL_APIC IOAPIC_ HPET_.

Section devices.
Context {ac : AcpiCrate} {x86 : X86_64}.

(** [LocalAPIC::from_acpi_info] and [apic::global_init] *)
Definition apic_from_acpi_info (acpi_info : Tables) : outcome Z := lapic_address acpi_info.
Definition apic_global_init (acpi_info : Tables) (cell : OnceCell.t Z) : outcome (OnceCell.t Z) :=
  local_apic ← apic_from_acpi_info acpi_info;
  InitCell.init cell local_apic.

(** [IOAPIC::from_acpi_info] and [ioapic::init] *)
Definition ioapic_from_acpi_info (acpi_info : Tables) : outcome IOAPIC :=
  ioapic ← ioapic_info acpi_info 0;
  mret (mkIOAPIC (info_id ioapic) (info_gsi_base ioapic) (info_address ioapic)).
Definition ioapic_init (acpi_info : Tables) (cell : OnceCell.t IOAPIC) : outcome (OnceCell.t IOAPIC) :=
  ioapic ← ioapic_from_acpi_info acpi_info;
  InitCell.init cell ioapic.

(** [hpet::init] *)
Definition hpet_init (hpet_apic_base_address : Z) (cell : OnceCell.t Z) : outcome (OnceCell.t Z) :=
  InitCell.init cell hpet_apic_base_address.

(** [global_setup] up to [hpet::init], the memory and the scheduler apart; [rsdp_address] is the
    one of the boot information. *)
Definition device_setup (rsdp_address : option Z) (p : platform) : outcome platform :=
  rsdp_address ← expect rsdp_address;
  acpi ← init rsdp_address (ACPI_INFO p);
  info ← acpi_info acpi;
  apic ← apic_global_init info (LOCAL_APIC p);
  ioapic ← ioapic_init info (IOAPIC_ p);
  hpet_address ← hpet_address info;
  hpet ← hpet_init hpet_address (HPET_ p);
  mret (mkPlatform acpi apic ioapic hpet).
End devices.

(** ** Theorems *)
Section theorems.
Context {ac : AcpiCrate} {x86 : X86_64} {x86l : X86_64Laws}.

(** An address of physical memory that the kernel's mapping covers, with [n] bytes after it *)
Definition physical (a n : Z) : Prop := 0 ≤ a ∧ a + n + KERNEL_PHYSICAL_MAPPING_START ≤ KERNEL_PHYSICAL_MAPPING_END.

Lemma kern_address_ok a : physical a 0 → kern_address a = Ret (a + KERNEL_PHYSICAL_MAPPING_START).
Proof.
  intros [H0 H1]. unfold kern_address. rewrite PhysAddr_new_ok.
  - run_monad. apply from_phys_addr_ok; lia.
  - unfold KERNEL_PHYSICAL_MAPPING_START, KERNEL_PHYSICAL_MAPPING_END, HIGHER_HALF_START in *. lia.
Qed.

(** The handler of the [acpi] crate maps a physical address to its place in the kernel's mapping,
    and leaves an address of the mapping where it is. *)
Lemma map_physical_region_ok a size : physical a 0 →
  map_physical_region a size = Ret (mkMapping a (a + KERNEL_PHYSICAL_MAPPING_START) size size) ∧
  map_physical_region (a + KERNEL_PHYSICAL_MAPPING_START) size =
    Ret (mkMapping (a + KERNEL_PHYSICAL_MAPPING_START) (a + KERNEL_PHYSICAL_MAPPING_START) size size).
Proof.
  intros [H0 H1]. unfold map_physical_region. split.
  - rewrite (proj2 (Z.ltb_lt _ _)) by (unfold KERNEL_PHYSICAL_MAPPING_START, KERNEL_PHYSICAL_MAPPING_END, HIGHER_HALF_START in *; lia).
    rewrite uadd_ok by (unfold KERNEL_PHYSICAL_MAPPING_END in *; lia). done.
  - by rewrite (proj2 (Z.ltb_ge _ _)) by lia.
Qed.

(** The entries of the MCFG table: as many as fit the table, all of them inside it; a table shorter than its header
    stops the kernel. *)
Lemma mcfg_entries_ok mcfg : 0 ≤ size_of_mcfg → 0 < size_of_mcfg_entry → in_width 32 (mcfg_length mcfg) →
  (size_of_mcfg ≤ mcfg_length mcfg →
    ∃ n, mcfg_entries mcfg = Ret (mcfg_virtual_start mcfg + size_of_mcfg, n) ∧ 0 ≤ n ∧
      size_of_mcfg + n * size_of_mcfg_entry ≤ mcfg_length mcfg < size_of_mcfg + (n + 1) * size_of_mcfg_entry) ∧
  (mcfg_length mcfg < size_of_mcfg → mcfg_entries mcfg = Panic PanicOverflow).
Proof.
  intros Hs He [Hl0 Hl1]. unfold mcfg_entries. split; intros H.
  - rewrite usub_ok by lia. run_monad. unfold udiv. rewrite (proj2 (Z.eqb_neq _ _)) by lia. run_monad. eexists. split; [done|].
    split; [apply Z.div_pos; lia|]. pose proof (Z.mul_div_le (mcfg_length mcfg - size_of_mcfg) size_of_mcfg_entry He).
    pose proof (Z.mul_succ_div_gt (mcfg_length mcfg - size_of_mcfg) size_of_mcfg_entry He). lia.
  - unfold usub. by rewrite (proj2 (Z.leb_gt _ _)) by lia.
Qed.

(** What the tables say *)
Record described (tables : Tables) (lapic : Z) (io : IoApic) (hpet pci : Z) : Prop := {
  ds_apic : ∃ rest processors, platform_info tables = Some (ApicInterrupts (mkApicModel lapic (io :: rest)), processors);
  ds_hpet : hpet_base_address tables = Some hpet;
  ds_pci : ∃ regions, pci_config_regions tables = Some regions ∧ regions 0 0 0 0 = Some pci;
  ds_physical : physical lapic 0x400 ∧ physical (io_address io) 0x20 ∧ physical hpet 0x400 ∧ physical pci 0;
}.

Definition new_platform : platform := mkPlatform None InitCell.new InitCell.new InitCell.new.

(** The addresses that the statics hold *)
Definition local_apic (p : platform) : option Z := OnceCell.message (LOCAL_APIC p).
Definition io_apic (p : platform) : option Z := ioapic_registers <$> OnceCell.message (IOAPIC_ p).
Definition event_timer (p : platform) : option Z := OnceCell.message (HPET_ p).

Lemma physical_weaken a n : 0 ≤ n → physical a n → physical a 0.
Proof. intros Hn [H0 H1]. split; lia. Qed.

Lemma apic_info_ok tables lapic io hpet pci : described tables lapic io hpet pci →
  lapic_address tables = Ret (lapic + KERNEL_PHYSICAL_MAPPING_START) ∧
  ioapic_info tables 0 = Ret (mkIOApicInfo (io_id io) (io_address io + KERNEL_PHYSICAL_MAPPING_START) (io_gsi_base io)).
Proof.
  intros [(rest & pr & Ha) _ _ (P1 & P2 & _)]. apply physical_weaken in P1, P2; [|done..].
  unfold lapic_address, ioapic_info, apic_info. rewrite Ha. cbn [expect]. run_monad. cbn [local_apic_address io_apics].
  rewrite kern_address_ok by done. split; [done|]. change (expect ((io :: rest) !! Z.to_nat 0)) with (Ret io). run_monad. by rewrite kern_address_ok.
Qed.

Lemma other_addresses_ok tables lapic io hpet pci : described tables lapic io hpet pci →
  hpet_address tables = Ret (hpet + KERNEL_PHYSICAL_MAPPING_START) ∧
  pci_config_region_base_address tables = Ret (pci + KERNEL_PHYSICAL_MAPPING_START).
Proof.
  intros [_ Hh (regions & Hp1 & Hp2) (_ & _ & P3 & P4)]. apply physical_weaken in P3; [|done].
  unfold hpet_address, hpet_info, pci_config_region_base_address. rewrite Hh, Hp1. cbn [expect]. run_monad. rewrite Hp2. cbn [expect]. run_monad.
  by rewrite !kern_address_ok.
Qed.

Lemma device_setup_ok rsdp tables lapic io hpet pci :
  tables_from_rsdp map_physical_region rsdp = Ret (Some tables) → described tables lapic io hpet pci →
  ∃ p, device_setup (Some rsdp) new_platform = Ret p ∧
    local_apic p = Some (lapic + KERNEL_PHYSICAL_MAPPING_START) ∧
    io_apic p = Some (io_address io + KERNEL_PHYSICAL_MAPPING_START) ∧
    event_timer p = Some (hpet + KERNEL_PHYSICAL_MAPPING_START) ∧
    (info ← acpi_info (ACPI_INFO p); pci_config_region_base_address info) = Ret (pci + KERNEL_PHYSICAL_MAPPING_START).
Proof.
  intros Hr Hd. destruct (apic_info_ok _ _ _ _ _ Hd) as [E1 E2]. destruct (other_addresses_ok _ _ _ _ _ Hd) as [E3 E4].
  eexists. split.
  { unfold device_setup, init, from_rsdp. cbn [expect]. run_monad. rewrite Hr. run_monad. cbn [expect]. run_monad. unfold acpi_info. cbn [expect]. run_monad.
  unfold apic_global_init, apic_from_acpi_info, ioapic_init, ioapic_from_acpi_info, hpet_init. rewrite E1, E2. run_monad. rewrite E3. reflexivity. }
  split_and!; [done|done|done|exact E4].
Qed.
End theorems.

(** ** The interrupts of the devices that ACPI names *)
Section started.
Context {R D : Type} `{!TaskMemory R, !PcKeyboard, !Port8 D, !Scancodes D} {bus : Bus D} {ioapic hpet : Z} {tc : TimerChips D ioapic hpet}
  {bc : BitfieldCrate} {bcl : BitfieldCrateLaws} {tcl : TimerChipsLaws D} {x86 : X86_64} {x86l : X86_64Laws} {ac : AcpiCrate}.
Import Interrupts.

(** The vector of an entry of the I/O APIC *)
Definition entry_vector (w : with_keyboard D) (n : Z) : Z := get IOAPICRedirectionTableRegister "interrupt_vector" (chip_entry w n).

End started.

(** ** A machine with one CPU, on the board of [TickThms], and two bytes from the keyboard *)
Module Example.
Import TickThms.Example.
#[local] Existing Instances documented_x86_64 documented_x86_64_laws documented_bitfield documented_bitfield_laws demo_memory
  TickThms.Example.board_bus TickThms.Example.board_chips TickThms.Example.board_laws.

#[local] Instance tables : AcpiCrate := {|
  Tables := unit;
  ProcessorInfo := unit;
  tables_from_rsdp map rsdp := _ ← map rsdp 36; mret (Some tt);
  pci_config_regions _ := Some (λ _ _ _ _, Some 0xb0000000);
  platform_info _ := Some (ApicInterrupts (mkApicModel 0xfee00000 [mkIoApic 0 0xfec00000 0]), None);
  hpet_base_address _ := Some 0xfed00000;
  size_of_mcfg := 44;
  size_of_mcfg_entry := 16;
|}.

(** Presses are characters, releases are nothing. *)
#[local] Instance decoder : PcKeyboard := {|
  Keyboard := unit;
  KeyEvent := Z;
  KeyCode := unit;
  keyboard_new := tt;
  add_byte kb b := (Some (if b <? 128 then Some b else None), kb);
  process_keyevent kb e := (Some (Unicode e), kb);
|}.

Definition typed : list Z := [0x1e; 0x9e].
Definition read_so_far (d : board) : nat := Z.to_nat (default 0 (b_timer d !! -1)).

#[local] Instance controller : Port8 board := {|
  port_read _ d := (nth (read_so_far d) typed 0, mkBoard (b_sel d) (b_io d) (<[-1 := Z.of_nat (S (read_so_far d))]> (b_timer d)));
|}.

Lemma next_typed n (l : list Z) b bs : drop n l = b :: bs → nth n l 0 = b ∧ drop (S n) l = bs.
Proof.
  revert l. induction n as [|n IH]; intros [|x l] E; [done| |done|].
  - by injection E as -> ->.
  - by apply IH.
Qed.

#[local] Instance typing : Scancodes board.
Proof.
  refine {| scancodes d := drop (read_so_far d) typed |}. intros d b bs E. destruct (next_typed _ _ _ _ E) as [<- <-].
  eexists. split; [reflexivity|]. unfold read_so_far at 1. cbn [b_timer]. rewrite lookup_insert_eq. change (default 0 (Some ?n)) with n. by rewrite Nat2Z.id.
Defined.

Definition devices : with_keyboard board := mkWith board0 None [].

End Example.
