(* ===== verification/Boot.v ===== *)
(** * Starting the CPUs ([kernel/src/lib.rs], [LimineCPU] of [kernel/src/boot_info.rs])

    The bootstrap processor runs [start]; the other CPUs wait in the boot loader until it
    gives them an address, and then run [bootstrap_secondary_cpu].  A CPU is the list of the
    calls it still has to make; they interleave, except that the bootstrap processor
    waits until [NUM_CPUS_BOOTSTRAPPED] is the number of CPUs. *)
From S2P Require Import Prelude.
#[local] Open Scope Z_scope.

Inductive call : Type :=
| SerialInit | LoggingInit
| InitPerCpuGdt | InitInterrupts | InitCurrentCpu | TickPerCpuInit
| MemoryInit | AcpiInit | ApicGlobalInit | IoapicInit | SchedGlobalInit | HpetInit | InitKeyboard | ProbeVirtio | GraphicsInit
| ApicPerCpuInit | SchedPerCpuInit | CountBootstrapped
| BootstrapCpu (entry : nat)
| AllBootstrapped
| TickGlobalInit | NewShellTask | StartScheduler.

#[export] Instance call_eq_dec : EqDecision call.
Proof. solve_decision. Defined.

Definition early_per_cpu_setup : list call := [InitPerCpuGdt; InitInterrupts; InitCurrentCpu; TickPerCpuInit].

Definition global_setup : list call :=
  [MemoryInit; AcpiInit; ApicGlobalInit; IoapicInit; SchedGlobalInit; HpetInit; InitKeyboard; ProbeVirtio; GraphicsInit].

Definition later_per_cpu_setup : list call := [ApicPerCpuInit; SchedPerCpuInit; CountBootstrapped].

(** [start] on a machine with [n] CPUs *)
Definition start (n : nat) : list call :=
  [SerialInit; LoggingInit] ++ early_per_cpu_setup ++ global_setup ++ later_per_cpu_setup ++
  (BootstrapCpu <$> seq 0 n) ++ [AllBootstrapped; TickGlobalInit; NewShellTask; StartScheduler].

Definition bootstrap_secondary_cpu : list call := early_per_cpu_setup ++ later_per_cpu_setup ++ [StartScheduler].

(** What every CPU has still to do, the CPUs whose [goto_address] is set,
    [NUM_CPUS_BOOTSTRAPPED], and the calls made so far *)
Record machine : Type := mkMachine {
  remaining : list (list call);
  goto : list bool;
  num_cpus_bootstrapped : Z;
  trace : list (nat * call);
}.

Section boot.
Variables (n bsp : nat).

Definition program (c : nat) : list call := if decide (c = bsp) then start n else bootstrap_secondary_cpu.

Definition initial : machine := mkMachine (program <$> seq 0 n) (replicate n false) 0 [].

(** May CPU [c] make the call?  The loop [while NUM_CPUS_BOOTSTRAPPED < cpu_count] is left
    when it may; [cpu_count] is the number of CPUs [as u8]. *)
Definition enabled (m : machine) (c : nat) (e : call) : bool :=
  (bool_decide (c = bsp) || bool_decide (goto m !! c = Some true)) &&
  match e with AllBootstrapped => wrap 8 (Z.of_nat n) <=? num_cpus_bootstrapped m | _ => true end.

(** [LimineCPU::bootstrap_cpu] leaves the bootstrap processor alone. *)
Definition effect (m : machine) (e : call) : list bool * Z :=
  match e with
  | BootstrapCpu i => (if decide (i = bsp) then goto m else <[i := true]> (goto m), num_cpus_bootstrapped m)
  | CountBootstrapped => (goto m, wrap 8 (num_cpus_bootstrapped m + 1))
  | _ => (goto m, num_cpus_bootstrapped m)
  end.

Inductive step : machine → machine → Prop :=
| step_call m c e rest :
    remaining m !! c = Some (e :: rest) → enabled m c e = true →
    step m (mkMachine (<[c := rest]> (remaining m)) (effect m e).1 (effect m e).2 (trace m ++ [(c, e)])).

(** ** The order of the calls *)
Definition calls_of (c : nat) (t : list (nat * call)) : list call := snd <$> filter (λ p, p.1 = c) t.

Definition counted (t : list (nat * call)) (c : nat) : bool := bool_decide (CountBootstrapped ∈ calls_of c t).

Record boot_inv (m : machine) : Prop := {
  bi_len : length (remaining m) = n ∧ length (goto m) = n;
  bi_program : ∀ c r, remaining m !! c = Some r → program c = calls_of c (trace m) ++ r;
  bi_goto : ∀ c, (c < n)%nat → c ≠ bsp → goto m !! c = Some true ↔ BootstrapCpu c ∈ calls_of bsp (trace m);
  bi_count : num_cpus_bootstrapped m = zlen (filter (λ c, counted (trace m) c = true) (seq 0 n));
  bi_barrier : AllBootstrapped ∈ calls_of bsp (trace m) → ∀ c, (c < n)%nat → counted (trace m) c = true;
}.

Lemma calls_of_snoc c t c' e : calls_of c (t ++ [(c', e)]) = calls_of c t ++ (if decide (c' = c) then [e] else []).
Proof.
  unfold calls_of. rewrite filter_app, fmap_app. f_equal. rewrite filter_cons, filter_nil. cbn [fst].
  by destruct (decide (c' = c)).
Qed.

Lemma program_nodup c : NoDup (program c).
Proof.
  unfold program. destruct (decide (c = bsp)) as [_|_]; [|apply (bool_decide_unpack _); by vm_compute].
  unfold start. rewrite !app_assoc. apply NoDup_app. split; [|split].
  - apply NoDup_app. split; [apply (bool_decide_unpack _); by vm_compute|]. split.
    + intros e He (i & -> & _)%list_elem_of_fmap. revert He. vm_compute. set_solver.
    + apply NoDup_fmap_2; [intros i j [=]; done|apply NoDup_seq].
  - intros e He Hx. apply elem_of_app in He as [He|(i & -> & _)%list_elem_of_fmap]; revert Hx; [|vm_compute; set_solver].
    revert He. vm_compute. set_solver.
  - apply (bool_decide_unpack _). by vm_compute.
Qed.

Lemma filter_set_one (P Q : nat → bool) c :
  (c < n)%nat → P c = false → Q c = true → (∀ i, i ≠ c → P i = Q i) →
  zlen (filter (λ i, Q i = true) (seq 0 n)) = zlen (filter (λ i, P i = true) (seq 0 n)) + 1.
Proof.
  intros Hc HP HQ H. replace n with (c + S (n - S c))%nat by lia. rewrite seq_app, !filter_app. cbn [seq].
  rewrite !filter_cons. destruct (decide (Q (0 + c)%nat = true)) as [_|]; [|cbn in *; congruence].
  destruct (decide (P (0 + c)%nat = true)) as [|_]; [cbn in *; congruence|].
  assert (∀ l : list nat, c ∉ l → filter (λ i, Q i = true) l = filter (λ i, P i = true) l) as E.
  { intros l Hl. apply filter_ext_in. intros i Hi. rewrite H; [done|]. intros ->. done. }
  rewrite !E by (rewrite elem_of_seq; lia). unfold zlen. rewrite !length_app. cbn. lia.
Qed.

Lemma initial_inv : (bsp < n)%nat → boot_inv initial.
Proof.
  intros Hb. split; cbn.
  - by rewrite length_fmap, length_seq, length_replicate.
  - intros c r Hr. rewrite list_lookup_fmap in Hr. destruct (seq 0 n !! c) eqn:E; [|done]. apply lookup_seq in E as [-> _].
    by injection Hr as <-.
  - intros c Hc _. rewrite lookup_replicate_2 by done. split; [done|]. by intros ?%not_elem_of_nil.
  - by rewrite filter_none by done.
  - by intros ?%not_elem_of_nil.
Qed.

Lemma counted_snoc t c' e c :
  counted (t ++ [(c', e)]) c = counted t c || bool_decide (c' = c ∧ e = CountBootstrapped).
Proof.
  unfold counted. rewrite calls_of_snoc. destruct (decide (c' = c)) as [->|Hc].
  - destruct (decide (e = CountBootstrapped)) as [->|He].
    + rewrite (bool_decide_true (c = c ∧ _)), orb_true_r by done. apply bool_decide_eq_true. set_solver.
    + rewrite (bool_decide_false (c = c ∧ _)) by tauto. rewrite orb_false_r. apply bool_decide_ext. set_solver.
  - rewrite app_nil_r, (bool_decide_false (c' = c ∧ _)) by tauto. by rewrite orb_false_r.
Qed.

Lemma calls_of_mono t p c e : e ∈ calls_of c t → e ∈ calls_of c (t ++ [p]).
Proof. destruct p. rewrite calls_of_snoc. set_solver. Qed.

Hypothesis (Hn : (n ≤ 255)%nat) (Hbsp : (bsp < n)%nat).

Lemma step_count m c e rest :
  boot_inv m → remaining m !! c = Some (e :: rest) →
  (effect m e).2 = zlen (filter (λ i, counted (trace m ++ [(c, e)]) i = true) (seq 0 n)).
Proof.
  intros I Hr. pose proof (lookup_lt_Some _ _ _ Hr) as Hlt. rewrite (proj1 (bi_len m I)) in Hlt.
  destruct (decide (e = CountBootstrapped)) as [->|He].
  - cbn [effect snd]. assert (counted (trace m) c = false) as Hf.
    { apply bool_decide_eq_false. intros Hin. pose proof (program_nodup c) as Hnd. rewrite (bi_program m I c _ Hr) in Hnd.
      apply NoDup_app in Hnd as (_ & Hd & _). apply (Hd _ Hin). left. }
    rewrite (filter_set_one (counted (trace m)) (counted (trace m ++ [(c, CountBootstrapped)])) c); [|done|done| |].
    + rewrite <-(bi_count m I). unfold wrap. apply Z.mod_small. rewrite (bi_count m I). unfold zlen.
      pose proof (filter_set_one (counted (trace m)) (counted (trace m ++ [(c, CountBootstrapped)])) c Hlt Hf) as H.
      pose proof (length_filter (λ i, counted (trace m ++ [(c, CountBootstrapped)]) i = true) (seq 0 n)) as Hle.
      rewrite length_seq in Hle. unfold zlen in H. rewrite <-H; [lia| |].
      * rewrite counted_snoc. by rewrite bool_decide_true, orb_true_r.
      * intros i Hi. rewrite counted_snoc, bool_decide_false by naive_solver. by rewrite orb_false_r.
    + rewrite counted_snoc. by rewrite bool_decide_true, orb_true_r.
    + intros i Hi. rewrite counted_snoc, bool_decide_false by naive_solver. by rewrite orb_false_r.
  - transitivity (num_cpus_bootstrapped m); [by destruct e|]. rewrite (bi_count m I). f_equal. apply filter_ext_in. intros i _.
    rewrite counted_snoc, bool_decide_false by naive_solver. by rewrite orb_false_r.
Qed.

Lemma all_counted m :
  boot_inv m → wrap 8 (Z.of_nat n) ≤ num_cpus_bootstrapped m → ∀ c, (c < n)%nat → counted (trace m) c = true.
Proof.
  intros I Hle c Hc. rewrite (bi_count m I) in Hle. unfold wrap in Hle. rewrite Z.mod_small in Hle by lia. unfold zlen in Hle.
  destruct (counted (trace m) c) eqn:E; [done|]. exfalso.
  pose proof (filter_set_one (counted (trace m)) (λ i, counted (trace m) i || bool_decide (i = c)) c Hc E) as H.
  pose proof (length_filter (λ i, counted (trace m) i || bool_decide (i = c) = true) (seq 0 n)) as Hl.
  rewrite length_seq in Hl. unfold zlen in H. assert (Z.of_nat (length (filter (λ i, counted (trace m) i = true) (seq 0 n))) + 1 ≤ Z.of_nat n); [|lia].
  rewrite <-H; [lia| |].
  - by rewrite bool_decide_true, orb_true_r.
  - intros i Hi. by rewrite bool_decide_false, orb_false_r.
Qed.

(** In a list without duplicates that starts with [p], what comes before an element of [p]
    is in [p]. *)
Lemma prefix_before {A} (l p r a b : list A) x y :
  NoDup l → l = p ++ r → l = a ++ x :: b → x ∈ p → y ∈ a → y ∈ p.
Proof.
  intros Hnd -> Hl Hx Hy. apply list_elem_of_split in Hx as (p1 & p2 & ->).
  enough (p1 = a) as -> by set_solver. rewrite <-app_assoc in Hl, Hnd. cbn [app] in *. clear Hy y. revert a Hl Hnd.
  induction p1 as [|z p1 IH]; intros [|w a]; cbn; intros Hl Hnd; [done|..].
  - injection Hl as -> Hl. apply NoDup_cons in Hnd as [Hn' _]. rewrite Hl in Hn'. set_solver.
  - injection Hl as -> Hl. apply NoDup_cons in Hnd as [Hn' _]. set_solver.
  - injection Hl as -> Hl. apply NoDup_cons in Hnd as [_ Hnd]. f_equal. by apply IH.
Qed.

Lemma calls_of_elem c e t : e ∈ calls_of c t ↔ (c, e) ∈ t.
Proof.
  unfold calls_of. rewrite list_elem_of_fmap. split.
  - intros ([c' e'] & -> & [E H]%list_elem_of_filter). cbn in *. by subst.
  - intros H. exists (c, e). by rewrite list_elem_of_filter.
Qed.

Lemma in_program m c e rest : boot_inv m → remaining m !! c = Some (e :: rest) → e ∈ program c.
Proof. intros I Hr. rewrite (bi_program m I c _ Hr). set_solver. Qed.

Lemma only_bsp m c e rest :
  boot_inv m → remaining m !! c = Some (e :: rest) → e ∉ bootstrap_secondary_cpu → c = bsp.
Proof.
  intros I Hr He. apply in_program in Hr; [|done]. unfold program in Hr. by destruct (decide (c = bsp)).
Qed.

Lemma boot_step_inv m m' : boot_inv m → step m m' → boot_inv m'.
Proof.
  intros I Hs. destruct Hs as [m c e rest Hr Hen]. pose proof (bi_len m I) as [Hl1 Hl2]. split; cbn [remaining goto num_cpus_bootstrapped trace].
  - rewrite length_insert. split; [done|]. destruct e; cbn; try done. destruct (decide (entry = bsp)); [done|by rewrite length_insert].
  - intros c' r Hr'. rewrite calls_of_snoc. destruct (decide (c = c')) as [->|Hc].
    + rewrite list_lookup_insert_eq in Hr' by (by eapply lookup_lt_Some). injection Hr' as <-.
      rewrite (bi_program m I c' _ Hr). by rewrite <-app_assoc.
    + rewrite list_lookup_insert_ne in Hr' by done. rewrite app_nil_r. by apply (bi_program m I).
  - intros c' Hc' Hne. rewrite calls_of_snoc, elem_of_app, <-(bi_goto m I c' Hc' Hne). destruct e as [| | | | | | | | | | | | | | | | | |i| | | |].
    all: try (cbn [effect fst]; split; [auto|intros [?|Hx]; [done|destruct (decide (c = bsp)); set_solver]]).
    assert (c = bsp) as -> by (eapply only_bsp; [done..|]; vm_compute; set_solver).
    rewrite decide_True by done. cbn [effect fst]. destruct (decide (i = c')) as [->|Hi].
    + rewrite decide_False by done. rewrite list_lookup_insert_eq by lia. set_solver.
    + destruct (decide (i = bsp)); [set_solver|]. rewrite list_lookup_insert_ne by done. set_solver.
  - by eapply step_count.
  - intros Hin c' Hc'. rewrite counted_snoc. apply orb_true_intro. left. rewrite calls_of_snoc in Hin.
    apply elem_of_app in Hin as [Hin|Hin]; [by apply (bi_barrier m I)|].
    destruct (decide (c = bsp)) as [->|]; [|set_solver]. apply list_elem_of_singleton in Hin as <-.
    unfold enabled in Hen. apply andb_true_iff in Hen as [_ Hen]. apply all_counted; [done|lia|done].
Qed.

(** [y] is called before [x] by a CPU that runs the program [l]. *)
Definition precedes (l : list call) (y x : call) : Prop := ∃ a b, l = a ++ x :: b ∧ y ∈ a.

Lemma called_before m c x y r :
  boot_inv m → remaining m !! c = Some r → precedes (program c) y x →
  (x ∈ calls_of c (trace m) ∨ head r = Some x) → y ∈ calls_of c (trace m).
Proof.
  intros I Hr (a & b & Hp & Hy) Hx. pose proof (bi_program m I c r Hr) as Hc. destruct Hx as [Hx|Hx].
  - eapply prefix_before; [apply program_nodup|done..].
  - destruct r as [|x' r]; [done|]. injection Hx as ->.
    enough (y ∈ calls_of c (trace m) ++ [x]) as H.
    { apply elem_of_app in H as [?|H%list_elem_of_singleton]; [done|]. subst y. pose proof (program_nodup c) as Hnd.
      rewrite Hp in Hnd. apply NoDup_app in Hnd as (_ & Hd & _). destruct (Hd _ Hy). left. }
    apply (prefix_before (program c) (calls_of c (trace m) ++ [x]) r a b x); [apply program_nodup|by rewrite <-app_assoc|done|set_solver|done].
Qed.

Lemma program_bsp : program bsp = start n.
Proof. unfold program. by rewrite decide_True. Qed.

Lemma global_before_cpus c g : (c < n)%nat → g ∈ global_setup → precedes (program bsp) g (BootstrapCpu c).
Proof.
  intros Hc Hg. rewrite program_bsp. unfold start.
  exists ([SerialInit; LoggingInit] ++ early_per_cpu_setup ++ global_setup ++ later_per_cpu_setup ++ (BootstrapCpu <$> seq 0 c)).
  eexists. split; [|set_solver].
  assert (seq 0 n = seq 0 c ++ c :: seq (S c) (n - S c)) as ->.
  { replace n with (c + S (n - S c))%nat at 1 by lia. by rewrite seq_app. }
  rewrite fmap_app. cbn [fmap list_fmap]. rewrite <-!app_assoc. cbn [app]. reflexivity.
Qed.

Lemma barrier_before_tick : precedes (program bsp) AllBootstrapped TickGlobalInit.
Proof.
  rewrite program_bsp. unfold start.
  exists ([SerialInit; LoggingInit] ++ early_per_cpu_setup ++ global_setup ++ later_per_cpu_setup ++ (BootstrapCpu <$> seq 0 n) ++ [AllBootstrapped]).
  eexists. split; [by rewrite <-!app_assoc|set_solver].
Qed.

Lemma setup_before_count c l : l ∈ [ApicPerCpuInit; SchedPerCpuInit] → precedes (program c) l CountBootstrapped.
Proof.
  intros Hl. unfold program. destruct (decide (c = bsp)) as [_|_].
  - exists ([SerialInit; LoggingInit] ++ early_per_cpu_setup ++ global_setup ++ [ApicPerCpuInit; SchedPerCpuInit]).
    eexists. split; [unfold start, later_per_cpu_setup; rewrite <-!app_assoc; reflexivity|set_solver].
  - exists (early_per_cpu_setup ++ [ApicPerCpuInit; SchedPerCpuInit]). eexists. split; [reflexivity|set_solver].
Qed.

(** What must have been called before the call [e] of the CPU [c] *)
Definition in_order (t : list (nat * call)) (c : nat) (e : call) : Prop :=
  (c ≠ bsp → ∀ g, g ∈ global_setup → (bsp, g) ∈ t) ∧
  (e = TickGlobalInit → ∀ c' l, (c' < n)%nat → l ∈ [ApicPerCpuInit; SchedPerCpuInit] → (c', l) ∈ t).

Lemma step_in_order m c e rest :
  boot_inv m → remaining m !! c = Some (e :: rest) → enabled m c e = true → in_order (trace m) c e.
Proof.
  intros I Hr Hen. pose proof (bi_len m I) as [Hl _].
  destruct (lookup_lt_is_Some_2 (remaining m) bsp) as [rb Hb]; [lia|]. split.
  - intros Hc g Hg. apply calls_of_elem. assert (c < n)%nat as Hlt by (apply lookup_lt_Some in Hr; lia).
    eapply (called_before m bsp (BootstrapCpu c)); [done..|by apply global_before_cpus|]. left. apply (bi_goto m I); [done|done|].
    unfold enabled in Hen. rewrite bool_decide_false in Hen by done. apply andb_true_iff in Hen as [Hen _].
    by apply bool_decide_eq_true in Hen.
  - intros -> c' l Hc' Hl'. assert (c = bsp) as -> by (eapply only_bsp; [done..|]; vm_compute; set_solver).
    assert (AllBootstrapped ∈ calls_of bsp (trace m)) as Hbar 
      by (apply (called_before m bsp TickGlobalInit _ (TickGlobalInit :: rest) I Hr barrier_before_tick); by right).
    pose proof (bi_barrier m I Hbar c' Hc') as Hcount. apply bool_decide_eq_true in Hcount.
    destruct (lookup_lt_is_Some_2 (remaining m) c') as [r' Hr']; [lia|].
    apply calls_of_elem. eapply called_before; [done..|by apply setup_before_count|by left].
Qed.

Lemma boot_reachable_inv m : rtc step initial m → boot_inv m ∧ ∀ t1 c e t2, trace m = t1 ++ (c, e) :: t2 → in_order t1 c e.
Proof.
  revert m. apply (rtc_ind_r _ initial); [|intros m m' _ Hs [I Ho] ].
  - split; [by apply initial_inv|]. intros [] ? ? ? ?; done.
  - split; [by eapply boot_step_inv|]. destruct Hs as [m c e rest Hr Hen]. cbn [trace]. intros t1 c' e' t2 Ht.
    destruct t2 as [|q t2 _] using rev_ind.
    + apply app_inj_tail in Ht as [<- [= <- <-]]. by eapply step_in_order.
    + rewrite app_comm_cons, app_assoc in Ht. apply app_inj_tail in Ht as [Ht _]. by eapply Ho.
Qed.

(** C19: however the CPUs interleave while the machine starts, every CPU makes the calls of
    its own program in order; a secondary CPU makes none before the bootstrap processor has
    finished the whole global set-up; and the periodic tick is started only when every
    CPU has its local APIC enabled and its scheduler set up. *)
Theorem boot_order m :
  rtc step initial m →
  (∀ c, (c < n)%nat → calls_of c (trace m) `prefix_of` program c) ∧
  (∀ t1 c e t2, trace m = t1 ++ (c, e) :: t2 →
     (c ≠ bsp → ∀ g, g ∈ global_setup → (bsp, g) ∈ t1) ∧
     (e = TickGlobalInit → ∀ c', (c' < n)%nat → (c', ApicPerCpuInit) ∈ t1 ∧ (c', SchedPerCpuInit) ∈ t1)).
Proof.
  intros [I Ho]%boot_reachable_inv. split.
  - intros c Hc. destruct (lookup_lt_is_Some_2 (remaining m) c) as [r Hr]; [rewrite (proj1 (bi_len m I)); done|].
    exists r. by apply (bi_program m I).
  - intros t1 c e t2 Ht. destruct (Ho t1 c e t2 Ht) as [H1 H2]. split; [done|].
    intros He c' Hc'. split; apply H2; set_solver.
Qed.

(** ** The machine starts *)
Definition left_to_do (m : machine) : nat := sum_list (length <$> remaining m).

Lemma sum_list_insert l c (x y : nat) : l !! c = Some x → (sum_list (<[c := y]> l) + x = sum_list l + y)%nat.
Proof.
  revert c. induction l as [|z l IH]; intros [|c] H; [done..| |].
  - injection H as ->. cbn. lia.
  - change (<[S c := y]> (z :: l)) with (z :: <[c := y]> l). cbn [sum_list sum_list_with]. specialize (IH c H). lia.
Qed.

Lemma step_decreases m m' : step m m' → left_to_do m = S (left_to_do m').
Proof.
  intros [m0 c e rest Hr _]. unfold left_to_do. cbn [remaining]. rewrite list_fmap_insert.
  pose proof (sum_list_insert (length <$> remaining m0) c (length (e :: rest)) (length rest)) as H.
  rewrite list_lookup_fmap, Hr in H. specialize (H eq_refl). cbn [length] in H. lia.
Qed.

Lemma secondary_steps m c e r :
  boot_inv m → c ≠ bsp → remaining m !! c = Some (e :: r) → BootstrapCpu c ∈ calls_of bsp (trace m) → ∃ m', step m m'.
Proof.
  intros I Hc Hr Hb. eexists. eapply step_call; [done|]. unfold enabled.
  assert (c < n)%nat as Hlt by (apply lookup_lt_Some in Hr; pose proof (bi_len m I); lia).
  rewrite (bool_decide_true (goto m !! c = _)) by (by apply (bi_goto m I)). rewrite orb_true_r. cbn [andb].
  assert (e ≠ AllBootstrapped) as He; [|by destruct e]. intros ->. destruct Hc. eapply only_bsp; [done..|]. vm_compute. set_solver.
Qed.

Lemma before_barrier x : x ∈ later_per_cpu_setup ++ (BootstrapCpu <$> seq 0 n) → precedes (program bsp) x AllBootstrapped.
Proof.
  intros Hx. rewrite program_bsp. unfold start.
  exists ([SerialInit; LoggingInit] ++ early_per_cpu_setup ++ global_setup ++ later_per_cpu_setup ++ (BootstrapCpu <$> seq 0 n)).
  eexists. split; [by rewrite <-!app_assoc|set_solver].
Qed.

Lemma uncounted m :
  boot_inv m → num_cpus_bootstrapped m < wrap 8 (Z.of_nat n) → ∃ c, (c < n)%nat ∧ counted (trace m) c = false.
Proof.
  intros I Hlt. rewrite (bi_count m I) in Hlt. unfold wrap in Hlt. rewrite Z.mod_small in Hlt by lia.
  destruct (decide (Exists (λ c, counted (trace m) c = false) (seq 0 n))) as [Hx|Hx].
  - apply Exists_exists in Hx as (c & Hc%elem_of_seq & Hx). exists c. split; [lia|done].
  - exfalso. assert (∀ l : list nat, (∀ c, c ∈ l → c ∈ seq 0 n) → filter (λ c, counted (trace m) c = true) l = l) as E.
    { intros l Hl. induction l as [|c l IH]; [done|]. rewrite filter_cons, IH by (intros; apply Hl; by right).
      destruct (decide (counted (trace m) c = true)) as [|Hc]; [done|]. destruct Hx. apply Exists_exists. exists c.
      split; [apply Hl; by left|by apply not_true_is_false]. }
    rewrite E in Hlt by done. unfold zlen in Hlt. rewrite length_seq in Hlt. lia.
Qed.

(** As long as there is something left to do, some CPU can go on. *)
Lemma boot_progress m : boot_inv m → left_to_do m ≠ 0%nat → ∃ m', step m m'.
Proof.
  intros I Hl. pose proof (bi_len m I) as [Hl1 _]. destruct (lookup_lt_is_Some_2 (remaining m) bsp) as [rb Hb]; [lia|].
  assert (∀ c, (c < n)%nat → BootstrapCpu c ∈ (BootstrapCpu <$> seq 0 n)) as Hboot.
  { intros c Hc. apply list_elem_of_fmap_2, elem_of_seq. lia. }
  destruct rb as [|e rb].
  - assert (∃ c e r, remaining m !! c = Some (e :: r)) as (c & e & r & Hr).
    { clear -Hl. unfold left_to_do in Hl. induction (remaining m) as [|[|e r] l IH]; [done| |by exists 0%nat, e, r].
      destruct IH as (c & e & r & Hr); [done|]. by exists (S c), e, r. }
    assert (c < n)%nat by (apply lookup_lt_Some in Hr; lia).
    assert (c ≠ bsp) as Hc by congruence. eapply (secondary_steps m c); [done..|].
    pose proof (bi_program m I bsp [] Hb) as Hp. rewrite app_nil_r, program_bsp in Hp. rewrite <-Hp. unfold start. set_solver.
  - destruct (enabled m bsp e) eqn:Hen; [eexists; by eapply step_call|].
    assert (e = AllBootstrapped) as ->.
    { unfold enabled in Hen. rewrite bool_decide_true in Hen by done. by destruct e. }
    unfold enabled in Hen. rewrite bool_decide_true in Hen by done. cbn [orb andb] in Hen.
    destruct (uncounted m I) as (c & Hc & Hcount%bool_decide_eq_false); [lia|].
    assert (∀ x, x ∈ later_per_cpu_setup ++ (BootstrapCpu <$> seq 0 n) → x ∈ calls_of bsp (trace m)) as Hbefore.
    { intros x Hx. eapply called_before; [done|exact Hb|by apply before_barrier|by right]. }
    assert (c ≠ bsp) as Hne by (intros ->; apply Hcount, Hbefore; set_solver).
    destruct (lookup_lt_is_Some_2 (remaining m) c) as [[|e r] Hr]; [lia| |].
    + destruct Hcount. pose proof (bi_program m I c [] Hr) as Hp. rewrite app_nil_r in Hp. rewrite <-Hp. unfold program.
      rewrite decide_False by done. vm_compute. set_solver.
    + eapply secondary_steps; [done..|]. apply Hbefore. set_solver.
Qed.

Lemma nothing_left m c : left_to_do m = 0%nat → boot_inv m → (c < n)%nat → calls_of c (trace m) = program c.
Proof.
  intros Hl I Hc. destruct (lookup_lt_is_Some_2 (remaining m) c) as [r Hr]; [rewrite (proj1 (bi_len m I)); done|].
  rewrite (bi_program m I c r Hr). enough (r = []) as -> by (by rewrite app_nil_r).
  unfold left_to_do in Hl. revert c Hc Hr. induction (remaining m) as [|x l IH]; intros [|c] Hc Hr; [done..| |].
  - injection Hr as ->. destruct r; [done|]. cbn in Hl. lia.
  - cbn in Hl. eapply (IH ltac:(lia) c); [lia|done].
Qed.

(** C20: the machine always starts: in every interleaving the number of calls made and of
    those left adds up to the same number, as long as calls are left some CPU can make its
    next one (nobody waits forever at the barrier), and when none are left every CPU has
    made all calls of its program, the last of which enters the scheduler. *)
Theorem boot_completes k m :
  nsteps step k initial m →
  (k + left_to_do m = left_to_do initial)%nat ∧
  (left_to_do m ≠ 0%nat → ∃ m', step m m') ∧
  (left_to_do m = 0%nat → ∀ c, (c < n)%nat → calls_of c (trace m) = program c ∧ last (program c) = Some StartScheduler).
Proof.
  intros Hk. assert (boot_inv m) as I by (apply boot_reachable_inv; by eapply rtc_nsteps_2). split; [|split].
  - clear I. revert Hk. generalize initial. induction k as [|k IH]; intros m0 Hk; inversion Hk as [|? ? m1 ? Hs Hk']; subst; [done|].
    apply IH in Hk'. apply step_decreases in Hs. lia.
  - by apply boot_progress.
  - intros Hl c Hc. split; [by apply nothing_left|]. unfold program. destruct (decide (c = bsp)); [|reflexivity].
    unfold start. by rewrite !app_assoc, last_app.
Qed.
End boot.

(** Two CPUs, of which the second is the bootstrap processor *)
Module Example.
Definition run1 (c : nat) (m : machine) : machine :=
  match remaining m !! c with
  | Some (e :: rest) =>
      mkMachine (<[c := rest]> (remaining m)) (effect 1 m e).1 (effect 1 m e).2 (trace m ++ [(c, e)])
  | _ => m
  end.
Definition schedule : list nat := replicate 20 1%nat ++ replicate 8 0%nat ++ replicate 4 1%nat.
Definition may_step (c : nat) (m : machine) : bool :=
  match remaining m !! c with Some (e :: _) => enabled 2 1 m c e | _ => false end.
Definition finished : machine := foldl (λ m c, run1 c m) (initial 2 1) schedule.

Lemma run_steps l m : (∀ l1 c l2, l = l1 ++ c :: l2 → may_step c (foldl (λ m c, run1 c m) m l1) = true) →
  nsteps (step 2 1) (length l) m (foldl (λ m c, run1 c m) m l).
Proof.
  revert m. induction l as [|c l IH]; intros m H; [constructor|]. cbn [foldl length].
  econstructor; [|apply IH; intros l1 c' l2 ->; exact (H (c :: l1) c' l2 eq_refl)].
  specialize (H [] c l eq_refl). cbn in H. unfold may_step, run1 in *. destruct (remaining m !! c) as [[|e rest]|] eqn:E; done.
Qed.

Lemma schedule_runs : nsteps (step 2 1) 32 (initial 2 1) finished.
Proof.
  apply (run_steps schedule). intros l1 c l2 H.
  assert (∀ i, (i < 32)%nat → match schedule !! i with Some c => may_step c (foldl (λ m c, run1 c m) (initial 2 1) (take i schedule)) | None => false end = true) as Hall.
  { intros i Hi. do 32 (destruct i as [|i]; [by vm_compute|]). lia. }
  specialize (Hall (length l1)). rewrite H in Hall. rewrite list_lookup_middle, take_app_length in Hall by done. apply Hall.
  apply (f_equal length) in H. rewrite length_app in H. cbn in H. lia.
Qed.

Lemma boot_order_witness :
  (∀ c, (c < 2)%nat → calls_of c (trace finished) `prefix_of` program 2 1 c) ∧
  (∀ t1 c e t2, trace finished = t1 ++ (c, e) :: t2 →
     (c ≠ 1%nat → ∀ g, g ∈ global_setup → (1%nat, g) ∈ t1) ∧
     (e = TickGlobalInit → ∀ c', (c' < 2)%nat → (c', ApicPerCpuInit) ∈ t1 ∧ (c', SchedPerCpuInit) ∈ t1)).
Proof. apply (boot_order 2 1); [lia|lia|]. eapply rtc_nsteps_2, schedule_runs. Defined.

Lemma boot_completes_witness :
  (32 + left_to_do finished = left_to_do (initial 2 1))%nat ∧
  (left_to_do finished ≠ 0%nat → ∃ m', step 2 1 finished m') ∧
  (left_to_do finished = 0%nat → ∀ c, (c < 2)%nat →
     calls_of c (trace finished) = program 2 1 c ∧ last (program 2 1 c) = Some StartScheduler).
Proof. apply (boot_completes 2 1); [lia|lia|]. exact schedule_runs. Defined.
End Example.
