(* ===== verification/Gdt.v ===== *)
(** * Segments and per-CPU storage ([kernel/src/gdt.rs], [kernel/src/percpu.rs],
    [syscall_init] of [kernel/src/sched/syscall.rs])

    The descriptor table of each CPU, its task state segment with the stacks of the
    double-fault and page-fault handlers, the selectors that [syscall] and [sysret] load, and
    the areas that [gs] points to.  The table itself and the encoding of [STAR] are those
    of the crate [x86_64], an interface. *)
From S2P Require Import Prelude External Addr PhysMem VirtioBlock VirtioBlockThms Asm KStack Registers Cells Sched Interrupts.
#[local] Open Scope Z_scope.

(** ** The crate's descriptor tables *)
Inductive descriptor : Type :=
| KernelCodeSegment | KernelDataSegment | UserDataSegment | UserCodeSegment
| TssSegment (address : Z).

Definition words (d : descriptor) : Z := match d with TssSegment _ => 2 | _ => 1 end.
Definition privilege (d : descriptor) : Z := match d with UserDataSegment | UserCodeSegment => 3 | _ => 0 end.

Class GdtCrate : Type := {
  GlobalDescriptorTable : Type;
  gdt_new : GlobalDescriptorTable;
  gdt_add_entry : GlobalDescriptorTable → descriptor → outcome (Z * GlobalDescriptorTable);
  gdt_len : GlobalDescriptorTable → Z;                          (** entries in use *)
  gdt_descriptor : GlobalDescriptorTable → Z → option descriptor;  (** what a selector refers to *)
  star_write : Z → Z → Z → Z → result Z unit;                    (** the new value of [STAR] *)
}.

Class GdtCrateLaws `{!GdtCrate} : Prop := {
  (** entry 0 is the null descriptor *)
  gdt_new_ok : gdt_len gdt_new = 1;
  (** the descriptor is put after the others if the eight entries suffice; its selector has
      the privilege level of the descriptor *)
  gdt_add_entry_ok t d : gdt_len t + words d ≤ 8 →
    ∃ t', gdt_add_entry t d = Ret (8 * gdt_len t + privilege d, t') ∧ gdt_len t' = gdt_len t + words d ∧
          gdt_descriptor t' (8 * gdt_len t + privilege d) = Some d ∧
          (∀ s d', gdt_descriptor t s = Some d' → gdt_descriptor t' s = Some d');
  (** [STAR] has no room for selectors that are not in the order the instructions expect *)
  star_write_ok cs_sysret ss_sysret cs_syscall ss_syscall :
    cs_sysret - 16 = ss_sysret - 8 → cs_syscall = ss_syscall - 8 →
    ss_sysret mod 4 = 3 → ss_syscall mod 4 = 0 → 8 ≤ ss_sysret →
    star_write cs_sysret ss_sysret cs_syscall ss_syscall =
      Ok (Z.lor (Z.shiftl (ss_sysret - 8) 48) (Z.shiftl cs_syscall 32));
}.

(** What the instructions load with this value of [STAR] *)
Definition sysret_cs (star : Z) : Z := Z.lor (Z.shiftr star 48 + 16) 3.
Definition sysret_ss (star : Z) : Z := Z.lor (Z.shiftr star 48 + 8) 3.
Definition syscall_cs (star : Z) : Z := Z.land (Z.shiftr star 32) 0xfffc.
Definition syscall_ss (star : Z) : Z := Z.land (Z.shiftr star 32) 0xffff + 8.

(** [SegmentSelector::new] *)
Definition selector (index rpl : Z) : Z := Z.lor (Z.shiftl index 3) rpl.
Definition KERNEL_CODE_SELECTOR : Z := selector 1 0.
Definition KERNEL_DATA_SELECTOR : Z := selector 2 0.
Definition TSS_SELECTOR : Z := selector 5 0.
Definition MAX_CPUS : Z := 8.
Definition TSS_STACK_SIZE_BYTES : Z := 4096 * 5.

Record TaskStateSegment : Type := mkTss { privilege_stack_table : list Z; interrupt_stack_table : list Z }.
Definition tss_new : TaskStateSegment := mkTss (replicate 3 0) (replicate 7 0).

Section gdt.
Context {x86 : X86_64} {gc : GdtCrate}.

(** Where the linker put [DOUBLE_FAULT_STACK_TABLES], [PAGE_FAULT_STACK_TABLES] and
    [PER_CPU_TSS] *)
Variables (double_fault_stacks page_fault_stacks per_cpu_tss_address : Z).

(** [PER_CPU_TSS] and [PER_CPU_GDT] *)
Record tables : Type := mkTables { per_cpu_tss : list TaskStateSegment; per_cpu_gdt : list (option GlobalDescriptorTable) }.
Definition initial_tables : tables := mkTables (replicate 8 tss_new) (replicate 8 None).

(** The registers of a CPU that the set-up writes *)
Record segments : Type := mkSegments {
  reg_gdt : GlobalDescriptorTable; reg_cs : Z; reg_ds : Z; reg_tr : Z; reg_es : Z; reg_fs : Z; reg_gs : Z; reg_ss : Z; reg_star : Z }.

Definition init_gdt (tss_address : Z) : outcome GlobalDescriptorTable :=
  '(kernel_code_selector, gdt) ← gdt_add_entry gdt_new KernelCodeSegment;
  '(kernel_data_selector, gdt) ← gdt_add_entry gdt KernelDataSegment;
  '(user_data_selector, gdt) ← gdt_add_entry gdt UserDataSegment;
  '(user_code_selector, gdt) ← gdt_add_entry gdt UserCodeSegment;
  '(tss_selector, gdt) ← gdt_add_entry gdt (TssSegment tss_address);
  _ ← assert_ (kernel_code_selector =? KERNEL_CODE_SELECTOR);
  _ ← assert_ (kernel_data_selector =? KERNEL_DATA_SELECTOR);
  _ ← assert_ (user_data_selector =? USER_DATA_SELECTOR);
  _ ← assert_ (user_code_selector =? USER_CODE_SELECTOR);
  _ ← assert_ (tss_selector =? TSS_SELECTOR);
  mret gdt.

Definition get_tss_stack_ptr (processor_id stacks : Z) : outcome Z :=
  _ ← (if processor_id <? MAX_CPUS then Ret () else Panic PanicIndex);
  stack_start ← VirtAddr_new (stacks + processor_id * TSS_STACK_SIZE_BYTES);
  VirtAddr_add stack_start TSS_STACK_SIZE_BYTES.

Definition create_tss (processor_id : Z) : outcome TaskStateSegment :=
  let tss := tss_new in
  p ← get_tss_stack_ptr processor_id double_fault_stacks;
  ist ← index_set (interrupt_stack_table tss) DOUBLE_FAULT_IST_INDEX p;
  p ← get_tss_stack_ptr processor_id page_fault_stacks;
  ist ← index_set ist PAGE_FAULT_IST_INDEX p;
  mret (mkTss (privilege_stack_table tss) ist).

(** The registers after [CS::set_reg], [DS::set_reg], [load_tss], the null selectors and
    [Star::write] *)
Definition init_segment_selectors (gdt : GlobalDescriptorTable) : outcome segments :=
  match star_write USER_CODE_SELECTOR USER_DATA_SELECTOR KERNEL_CODE_SELECTOR KERNEL_DATA_SELECTOR with
  | Ok star => mret (mkSegments gdt KERNEL_CODE_SELECTOR KERNEL_DATA_SELECTOR TSS_SELECTOR 0 0 0 0 star)
  | Err _ => Panic PanicExplicit
  end.

Definition init_per_cpu_gdt (processor_id : Z) (t : tables) : outcome (segments * tables) :=
  _ ← index (per_cpu_tss t) processor_id;
  tss ← create_tss processor_id;
  tss_table ← index_set (per_cpu_tss t) processor_id tss;
  gdt ← init_gdt (per_cpu_tss_address + processor_id * 104);
  gdt_table ← index_set (per_cpu_gdt t) processor_id (Some gdt);
  regs ← init_segment_selectors gdt;
  mret (regs, mkTables tss_table gdt_table).

Definition set_tss_rsp0 (processor_id rsp0 : Z) (t : tables) : outcome tables :=
  tss ← index (per_cpu_tss t) processor_id;
  privilege ← index_set (privilege_stack_table tss) 0 rsp0;
  tss_table ← index_set (per_cpu_tss t) processor_id (mkTss privilege (interrupt_stack_table tss));
  mret (mkTables tss_table (per_cpu_gdt t)).

(** The stack that the CPU switches to for an exception with an entry in the TSS *)
Definition exception_stack (idt : list gate) (tss : TaskStateSegment) (vector : nat) : option Z :=
  match idt !! vector with
  | Some (GateException _ (Some i) _) => interrupt_stack_table tss !! Z.to_nat i
  | _ => None
  end.

(** [canonical] addresses from [a] to [b] *)
Definition canonical_range (a b : Z) : Prop := ∀ x, a ≤ x ≤ b → canonical x = true.

Hypotheses (Hdf : canonical_range double_fault_stacks (double_fault_stacks + MAX_CPUS * TSS_STACK_SIZE_BYTES))
  (Hpf : canonical_range page_fault_stacks (page_fault_stacks + MAX_CPUS * TSS_STACK_SIZE_BYTES)).
Context {xl : X86_64Laws} {gl : GdtCrateLaws}.

Lemma init_gdt_ok address :
  ∃ gdt, init_gdt address = Ret gdt ∧
    gdt_descriptor gdt KERNEL_CODE_SELECTOR = Some KernelCodeSegment ∧
    gdt_descriptor gdt KERNEL_DATA_SELECTOR = Some KernelDataSegment ∧
    gdt_descriptor gdt USER_DATA_SELECTOR = Some UserDataSegment ∧
    gdt_descriptor gdt USER_CODE_SELECTOR = Some UserCodeSegment ∧
    gdt_descriptor gdt TSS_SELECTOR = Some (TssSegment address).
Proof.
  pose proof gdt_new_ok as L0.
  destruct (gdt_add_entry_ok gdt_new KernelCodeSegment) as (t1 & E1 & L1 & D1 & _); [rewrite L0; cbn; lia|].
  destruct (gdt_add_entry_ok t1 KernelDataSegment) as (t2 & E2 & L2 & D2 & M2); [rewrite L1, L0; cbn; lia|].
  destruct (gdt_add_entry_ok t2 UserDataSegment) as (t3 & E3 & L3 & D3 & M3); [rewrite L2, L1, L0; cbn; lia|].
  destruct (gdt_add_entry_ok t3 UserCodeSegment) as (t4 & E4 & L4 & D4 & M4); [rewrite L3, L2, L1, L0; cbn; lia|].
  destruct (gdt_add_entry_ok t4 (TssSegment address)) as (t5 & E5 & L5 & D5 & M5); [rewrite L4, L3, L2, L1, L0; cbn; lia|].
  rewrite ?L4, ?L3, ?L2, ?L1, ?L0 in *. cbn [words privilege] in *.
  exists t5. unfold init_gdt. rewrite E1. run_monad. rewrite E2. run_monad. rewrite E3. run_monad. rewrite E4. run_monad. rewrite E5.
  split; [reflexivity|]. repeat split; [by apply M5, M4, M3, M2|by apply M5, M4, M3|by apply M5, M4|by apply M5|done].
Qed.

Lemma tss_stack_ok p stacks :
  0 ≤ p < MAX_CPUS → canonical_range stacks (stacks + MAX_CPUS * TSS_STACK_SIZE_BYTES) →
  get_tss_stack_ptr p stacks = Ret (stacks + (p + 1) * TSS_STACK_SIZE_BYTES).
Proof.
  unfold MAX_CPUS, TSS_STACK_SIZE_BYTES. intros Hp Hc. unfold get_tss_stack_ptr, MAX_CPUS, TSS_STACK_SIZE_BYTES.
  replace (p <? 8) with true by lia. run_monad. rewrite VirtAddr_new_ok by (apply Hc; lia). run_monad.
  rewrite VirtAddr_add_ok by (first [apply Hc; lia|lia]). f_equal. lia.
Qed.

Lemma create_tss_ok p :
  0 ≤ p < MAX_CPUS →
  create_tss p = Ret (mkTss (replicate 3 0)
    [double_fault_stacks + (p + 1) * TSS_STACK_SIZE_BYTES; page_fault_stacks + (p + 1) * TSS_STACK_SIZE_BYTES; 0; 0; 0; 0; 0]).
Proof.
  intros Hp. unfold create_tss. rewrite tss_stack_ok by done. run_monad.
  change (index_set (interrupt_stack_table tss_new) DOUBLE_FAULT_IST_INDEX ?x) with (Ret [x; 0; 0; 0; 0; 0; 0]). run_monad.
  by rewrite tss_stack_ok.
Qed.

(** What the set-up of CPU [p] leaves in its registers *)
Record segments_ok (p : Z) (r : segments) : Prop := {
  sg_cs : gdt_descriptor (reg_gdt r) (reg_cs r) = Some KernelCodeSegment;
  sg_ds : gdt_descriptor (reg_gdt r) (reg_ds r) = Some KernelDataSegment;
  sg_tr : gdt_descriptor (reg_gdt r) (reg_tr r) = Some (TssSegment (per_cpu_tss_address + p * 104));
  sg_null : reg_es r = 0 ∧ reg_fs r = 0 ∧ reg_gs r = 0 ∧ reg_ss r = 0;
  sg_syscall_cs : gdt_descriptor (reg_gdt r) (syscall_cs (reg_star r)) = Some KernelCodeSegment;
  sg_syscall_ss : gdt_descriptor (reg_gdt r) (syscall_ss (reg_star r)) = Some KernelDataSegment;
  sg_sysret_cs : gdt_descriptor (reg_gdt r) (sysret_cs (reg_star r)) = Some UserCodeSegment ∧ sysret_cs (reg_star r) = USER_CODE_SELECTOR;
  sg_sysret_ss : gdt_descriptor (reg_gdt r) (sysret_ss (reg_star r)) = Some UserDataSegment ∧ sysret_ss (reg_star r) = USER_DATA_SELECTOR;
}.

(** The stacks that the faults of CPU [p] use *)
Definition in_fault_stack (p x : Z) : Prop :=
  double_fault_stacks + p * TSS_STACK_SIZE_BYTES ≤ x < double_fault_stacks + (p + 1) * TSS_STACK_SIZE_BYTES ∨
  page_fault_stacks + p * TSS_STACK_SIZE_BYTES ≤ x < page_fault_stacks + (p + 1) * TSS_STACK_SIZE_BYTES.

Hypothesis Hdisjoint :
  double_fault_stacks + MAX_CPUS * TSS_STACK_SIZE_BYTES ≤ page_fault_stacks ∨
  page_fault_stacks + MAX_CPUS * TSS_STACK_SIZE_BYTES ≤ double_fault_stacks.

Lemma index_set_ok {A} (l : list A) i x : (Z.to_nat i < length l)%nat → index_set l i x = Ret (<[Z.to_nat i := x]> l).
Proof. intros. by apply index_set_ret_inv. Qed.

End gdt.

(** ** The calls of the system-call registers ([syscall_init]) *)
Record syscall_msrs : Type := mkMsrs { efer : Z; sfmask : Z; lstar : Z }.
Definition SYSTEM_CALL_EXTENSIONS : Z := 1.
Definition INTERRUPT_FLAG : Z := Z.shiftl 1 9.

Definition syscall_init {x86 : X86_64} {bf : Bitflags} (syscall_handler : Z) (r : syscall_msrs) : outcome syscall_msrs :=
  let r := mkMsrs (flags_or (efer r) SYSTEM_CALL_EXTENSIONS) (sfmask r) (lstar r) in
  let r := mkMsrs (efer r) INTERRUPT_FLAG (lstar r) in
  syscall_handler_addr ← VirtAddr_new syscall_handler;
  mret (mkMsrs (efer r) (sfmask r) syscall_handler_addr).

(** ** Per-CPU variables

    A variable is an offset from the start of the section [.percpu] and a size in bytes;
    [gs] is the base that the CPU has in its register. *)
Definition to_le (n v : Z) : list Z := (λ i, v / 256 ^ i mod 256) <$> range 0 n.
Fixpoint from_le (bs : list Z) : Z := match bs with [] => 0 | b :: bs => b + 256 * from_le bs end.

Record variable : Type := mkVar { var_offset : Z; var_size : Z }.
Definition X86_64_CACHE_LINE_SIZE_BYTES : Z := 64.
Definition PER_CPU_AREA_SIZE_BYTES : Z := 1 * X86_64_CACHE_LINE_SIZE_BYTES.

Module PerCpu.
Definition get (gs : Z) (v : variable) (m : store) : Z := from_le (mem_read m (gs + var_offset v) (var_size v)).
Definition set (gs : Z) (v : variable) (x : Z) (m : store) : store := mem_write m (gs + var_offset v) (to_le (var_size v) x).
Definition inc (gs : Z) (v : variable) (m : store) : store := set gs v (wrap (8 * var_size v) (get gs v m + 1)) m.
Definition dec (gs : Z) (v : variable) (m : store) : store := set gs v (wrap (8 * var_size v) (get gs v m - 1)) m.

(** [areas] is the address of [PER_CPU_AREAS], [section_size] the size of [.percpu]; the
    result is the new [gs] base. *)
Definition init_current_cpu {x86 : X86_64} (areas section_size : Z) (PROCESSOR_ID : variable) (processor_id : Z) (m : store)
  : outcome (Z * store) :=
  _ ← (if processor_id <? MAX_CPUS then Ret () else Panic PanicExplicit);
  if PER_CPU_AREA_SIZE_BYTES <? section_size then Panic PanicExplicit else
  addr ← VirtAddr_new (areas + processor_id * PER_CPU_AREA_SIZE_BYTES);
  mret (addr, set addr PROCESSOR_ID processor_id m).
End PerCpu.

Lemma from_to_le n v : 0 ≤ n → from_le (to_le n v) = v mod 2 ^ (8 * n).
Proof.
  intros Hn. unfold to_le. revert v. pattern n. apply natlike_ind; [|clear n Hn; intros n Hn IH|done]; intros v.
  { rewrite range_nil by lia. cbn. by rewrite Z.mod_1_r. }
  rewrite range_cons by lia. cbn [fmap list_fmap from_le].
  assert ((λ i, v / 256 ^ i mod 256) <$> range (0 + 1) (Z.succ n) = (λ i, v / 256 / 256 ^ i mod 256) <$> range 0 n) as ->.
  { apply list_eq_same_length with (n := Z.to_nat n); [by rewrite length_fmap, length_range; f_equal; lia..|].
    intros i x y Hi. rewrite !list_lookup_fmap. intros (a & Ha & ->)%fmap_Some (b & Hb & ->)%fmap_Some.
    apply lookup_range in Ha as [-> _]. apply lookup_range in Hb as [-> _].
    rewrite Zdiv.Zdiv_Zdiv by lia. do 2 f_equal. rewrite <-Z.pow_succ_r by lia. f_equal. lia. }
  rewrite IH. rewrite Z.pow_0_r, Z.div_1_r. replace (8 * Z.succ n) with (8 + 8 * n) by lia. rewrite Z.pow_add_r by lia.
  change (2 ^ 8) with 256. rewrite Z.rem_mul_r by lia. done.
Qed.

Lemma zlen_to_le n v : 0 ≤ n → zlen (to_le n v) = n.
Proof. intros Hn. unfold to_le, zlen. rewrite length_fmap, length_range. lia. Qed.

Section percpu.
Import PerCpu.
Context {x86 : X86_64} {xl : X86_64Laws}.
Variables (areas section_size : Z) (PROCESSOR_ID : variable).

(** The area of a CPU, and variables that lie in the section *)
Definition area (p : Z) : Z := areas + p * PER_CPU_AREA_SIZE_BYTES.
Definition fits (v : variable) : Prop := 0 ≤ var_offset v ∧ 0 ≤ var_size v ∧ var_offset v + var_size v ≤ section_size.
Definition apart (v w : variable) : Prop := var_offset v + var_size v ≤ var_offset w ∨ var_offset w + var_size w ≤ var_offset v.

Hypotheses (Hsize : section_size ≤ PER_CPU_AREA_SIZE_BYTES) (Hcanonical : canonical_range areas (areas + MAX_CPUS * PER_CPU_AREA_SIZE_BYTES))
  (Hid : fits PROCESSOR_ID ∧ var_size PROCESSOR_ID = 1).

Lemma get_set_same gs v x m : 0 ≤ var_size v → get gs v (set gs v x m) = wrap (8 * var_size v) x.
Proof.
  intros Hv. unfold get, set. pose proof (mem_read_write_start m (gs + var_offset v) (to_le (var_size v) x) (var_size v)) as E.
  rewrite E by by rewrite zlen_to_le.
  assert (Transmute.read_at 0 (var_size v) (to_le (var_size v) x) = to_le (var_size v) x) as ->; [|by apply from_to_le].
  unfold Transmute.read_at. rewrite drop_0. apply take_ge. pose proof (zlen_to_le (var_size v) x Hv) as Hz. unfold zlen in Hz. lia.
Qed.

Lemma get_set_other gs gs' v w x m :
  0 ≤ var_size v → gs' + var_offset w + var_size w ≤ gs + var_offset v ∨ gs + var_offset v + var_size v ≤ gs' + var_offset w →
  get gs' w (set gs v x m) = get gs' w m.
Proof. intros Hv H. unfold get, set. rewrite mem_read_write_out; [done|]. rewrite zlen_to_le by done. lia. Qed.

(** C36: the per-CPU areas keep the CPUs apart: [init_current_cpu] points [gs] at the CPU's own
    area, in which it can read its id; a variable that is set or incremented there reads
    back as stored, modulo its width; and neither another variable nor any variable of
    another CPU changes. *)
Theorem per_cpu_isolated p m :
  0 ≤ p < MAX_CPUS →
  ∃ m', init_current_cpu areas section_size PROCESSOR_ID p m = Ret (area p, m') ∧ get (area p) PROCESSOR_ID m' = p ∧
    ∀ v x m1, fits v →
      get (area p) v (set (area p) v x m1) = wrap (8 * var_size v) x ∧
      get (area p) v (inc (area p) v m1) = wrap (8 * var_size v) (get (area p) v m1 + 1) ∧
      (∀ q w, 0 ≤ q < MAX_CPUS → fits w → q ≠ p ∨ apart v w → get (area q) w (set (area p) v x m1) = get (area q) w m1).
Proof.
  intros Hp. destruct Hid as [(H1 & H2 & H3) Hid1]. unfold MAX_CPUS, PER_CPU_AREA_SIZE_BYTES, X86_64_CACHE_LINE_SIZE_BYTES in *.
  exists (set (area p) PROCESSOR_ID p m). split; [|split].
  - unfold init_current_cpu, MAX_CPUS. replace (p <? 8) with true by lia. run_monad.
    replace (PER_CPU_AREA_SIZE_BYTES <? section_size) with false by (unfold PER_CPU_AREA_SIZE_BYTES, X86_64_CACHE_LINE_SIZE_BYTES; lia).
    rewrite VirtAddr_new_ok; [done|]. apply Hcanonical. unfold PER_CPU_AREA_SIZE_BYTES, X86_64_CACHE_LINE_SIZE_BYTES. lia.
  - rewrite get_set_same, Hid1 by lia. apply Z.mod_small. change (2 ^ (8 * 1)) with 256. lia.
  - intros v x m1 (V1 & V2 & V3). split; [by apply get_set_same|]. split.
    + unfold inc. rewrite get_set_same by done. unfold wrap. by rewrite Z.mod_mod by (apply Z.pow_nonzero; lia).
    + intros q w Hq (W1 & W2 & W3) Hor. apply get_set_other; [done|].
      unfold area, PER_CPU_AREA_SIZE_BYTES, X86_64_CACHE_LINE_SIZE_BYTES, apart in *. destruct (decide (q = p)) as [->|]; [|lia].
      destruct Hor; [done|]. lia.
Qed.
End percpu.

(** ** Examples *)
Module Example.
#[local] Existing Instances documented_x86_64 documented_x86_64_laws.

(** A table as the list of its entries after the null descriptor *)
Definition doc_descriptor (t : list (option descriptor)) (s : Z) : option descriptor :=
  match t !! Z.to_nat (s / 8 - 1) with
  | Some (Some d) => if s mod 8 =? privilege d then Some d else None
  | _ => None
  end.
#[local] Instance documented_gdt : GdtCrate := {|
  GlobalDescriptorTable := list (option descriptor);
  gdt_new := [];
  gdt_add_entry t d :=
    if zlen t + 1 + words d <=? 8
    then Ret (8 * (zlen t + 1) + privilege d, t ++ Some d :: replicate (Z.to_nat (words d - 1)) None)
    else Panic PanicExplicit;
  gdt_len t := zlen t + 1;
  gdt_descriptor := doc_descriptor;
  star_write cs_sysret ss_sysret cs_syscall ss_syscall :=
    if (cs_sysret - 16 =? ss_sysret - 8) && (cs_syscall =? ss_syscall - 8) && (ss_sysret mod 4 =? 3) && (ss_syscall mod 4 =? 0)
    then Ok (Z.lor (Z.shiftl (ss_sysret - 8) 48) (Z.shiftl cs_syscall 32)) else Err ();
|}.

#[local] Instance documented_gdt_laws : GdtCrateLaws.
Proof.
  split; [done|..].
  - intros t d Hlen. cbn in *. replace (zlen t + 1 + words d <=? 8) with true by lia.
    eexists. split; [reflexivity|]. unfold zlen in *. rewrite length_app. cbn [length]. rewrite length_replicate.
    split; [destruct d; cbn; lia|]. unfold doc_descriptor. split.
    + replace (Z.to_nat ((8 * (Z.of_nat (length t) + 1) + privilege d) / 8 - 1)) with (length t) by (destruct d; cbn [privilege]; zdm).
      rewrite list_lookup_middle by done. by replace ((8 * (Z.of_nat (length t) + 1) + privilege d) mod 8 =? privilege d) with true
        by (destruct d; cbn [privilege]; zdm).
    + intros s d'. destruct (t !! Z.to_nat (s / 8 - 1)) as [[x|]|] eqn:E; try done. by rewrite (lookup_app_l_Some _ _ _ _ E).
  - intros ? ? ? ? H1 H2 H3 H4 _. cbn. by rewrite (proj2 (Z.eqb_eq _ _) H1), (proj2 (Z.eqb_eq _ _) H2), H3, H4.
Qed.

Lemma low_canonical a b : 0 ≤ a → b < 2 ^ 47 → canonical_range a b.
Proof. intros Ha Hb x Hx. unfold canonical. lia. Qed.


Lemma per_cpu_isolated_witness :
  ∃ m', PerCpu.init_current_cpu 0x700000 24 (mkVar 0 1) 2 (λ _, 0) = Ret (area 0x700000 2, m') ∧
    PerCpu.get (area 0x700000 2) (mkVar 0 1) m' = 2 ∧
    ∀ v x m1, fits 24 v →
      PerCpu.get (area 0x700000 2) v (PerCpu.set (area 0x700000 2) v x m1) = wrap (8 * var_size v) x ∧
      PerCpu.get (area 0x700000 2) v (PerCpu.inc (area 0x700000 2) v m1) = wrap (8 * var_size v) (PerCpu.get (area 0x700000 2) v m1 + 1) ∧
      (∀ q w, 0 ≤ q < MAX_CPUS → fits 24 w → q ≠ 2 ∨ apart v w →
         PerCpu.get (area 0x700000 q) w (PerCpu.set (area 0x700000 2) v x m1) = PerCpu.get (area 0x700000 q) w m1).
Proof.
  apply (per_cpu_isolated 0x700000 24 (mkVar 0 1)).
  - unfold PER_CPU_AREA_SIZE_BYTES, X86_64_CACHE_LINE_SIZE_BYTES. lia.
  - apply low_canonical; unfold MAX_CPUS, PER_CPU_AREA_SIZE_BYTES, X86_64_CACHE_LINE_SIZE_BYTES; lia.
  - unfold fits. cbn. lia.
  - unfold MAX_CPUS. lia.
Defined.
End Example.
