(* ===== verification/TextBuffer.v ===== *)
(** * The text console ([kernel/src/graphics])

    Text goes into a ring buffer of lines and is drawn, newest line at the bottom, into
    the framebuffer with a font of 8 by 13 pixels. *)
From S2P Require Import Prelude RingBuffer External Addr PhysMem.
#[local] Open Scope Z_scope.
#[local] Open Scope rust_scope.

(** ** [font.rs] *)
Definition FONT_START_CHAR_ASCII_CODE : Z := 32.
Definition FONT_WIDTH_PIXELS : Z := 8.
Definition FONT_HEIGHT_PIXELS : Z := 13.
Definition FONT_SPACE_CHARACTER_INDEX : Z := 0.

(** The glyphs of the characters up to [L], and the others *)
Definition OPENGL_FONT_LOW : list (list Z) := [
  [0x00; 0x00; 0x00; 0x00; 0x00; 0x00; 0x00; 0x00; 0x00; 0x00; 0x00; 0x00; 0x00];
  [0x18; 0x18; 0x18; 0x18; 0x18; 0x18; 0x18; 0x00; 0x00; 0x18; 0x18; 0x00; 0x00];
  [0x36; 0x36; 0x36; 0x36; 0x00; 0x00; 0x00; 0x00; 0x00; 0x00; 0x00; 0x00; 0x00];
  [0x00; 0x00; 0x66; 0x66; 0xff; 0x66; 0x66; 0xff; 0x66; 0x66; 0x00; 0x00; 0x00];
  [0x18; 0x7e; 0xff; 0xd8; 0xf8; 0x7e; 0x1f; 0x1b; 0xff; 0x7e; 0x18; 0x00; 0x00];
  [0x70; 0xd8; 0xdb; 0x76; 0x0c; 0x18; 0x30; 0x6e; 0xdb; 0x1b; 0x0e; 0x00; 0x00];
  [0x38; 0x6c; 0xcc; 0xcc; 0xd8; 0x70; 0x70; 0xd8; 0xcf; 0xc6; 0x7f; 0x00; 0x00];
  [0x0e; 0x0c; 0x1c; 0x18; 0x00; 0x00; 0x00; 0x00; 0x00; 0x00; 0x00; 0x00; 0x00];
  [0x0c; 0x18; 0x30; 0x30; 0x30; 0x30; 0x30; 0x30; 0x30; 0x18; 0x0c; 0x00; 0x00];
  [0x30; 0x18; 0x0c; 0x0c; 0x0c; 0x0c; 0x0c; 0x0c; 0x0c; 0x18; 0x30; 0x00; 0x00];
  [0x00; 0x00; 0x99; 0x5a; 0x3c; 0xff; 0x3c; 0x5a; 0x99; 0x00; 0x00; 0x00; 0x00];
  [0x00; 0x00; 0x18; 0x18; 0x18; 0xff; 0xff; 0x18; 0x18; 0x18; 0x00; 0x00; 0x00];
  [0x00; 0x00; 0x00; 0x00; 0x00; 0x00; 0x00; 0x1c; 0x1c; 0x18; 0x30; 0x00; 0x00];
  [0x00; 0x00; 0x00; 0x00; 0x00; 0xff; 0xff; 0x00; 0x00; 0x00; 0x00; 0x00; 0x00];
  [0x00; 0x00; 0x00; 0x00; 0x00; 0x00; 0x00; 0x00; 0x38; 0x38; 0x00; 0x00; 0x00];
  [0x03; 0x03; 0x06; 0x06; 0x0c; 0x0c; 0x18; 0x18; 0x30; 0x30; 0x60; 0x60; 0x00];
  [0x3c; 0x66; 0xc3; 0xc7; 0xcf; 0xdb; 0xf3; 0xe3; 0xc3; 0x66; 0x3c; 0x00; 0x00];
  [0x18; 0x38; 0x78; 0x18; 0x18; 0x18; 0x18; 0x18; 0x18; 0x18; 0x7e; 0x00; 0x00];
  [0x7e; 0xe7; 0x03; 0x06; 0x0c; 0x18; 0x30; 0x60; 0xc0; 0xc0; 0xff; 0x00; 0x00];
  [0x7e; 0xe7; 0x03; 0x03; 0x07; 0x7e; 0x07; 0x03; 0x03; 0xe7; 0x7e; 0x00; 0x00];
  [0x0c; 0x1c; 0x3c; 0x6c; 0xcc; 0xff; 0x0c; 0x0c; 0x0c; 0x0c; 0x0c; 0x00; 0x00];
  [0xff; 0xc0; 0xc0; 0xc0; 0xc0; 0xfe; 0x07; 0x03; 0x03; 0xe7; 0x7e; 0x00; 0x00];
  [0x7e; 0xe7; 0xc0; 0xc0; 0xc0; 0xfe; 0xc7; 0xc3; 0xc3; 0xe7; 0x7e; 0x00; 0x00];
  [0xff; 0x03; 0x03; 0x03; 0x06; 0x0c; 0x18; 0x30; 0x30; 0x30; 0x30; 0x00; 0x00];
  [0x7e; 0xe7; 0xc3; 0xc3; 0xe7; 0x7e; 0xe7; 0xc3; 0xc3; 0xe7; 0x7e; 0x00; 0x00];
  [0x7e; 0xe7; 0xc3; 0xc3; 0xe7; 0x7f; 0x03; 0x03; 0x03; 0xe7; 0x7e; 0x00; 0x00];
  [0x00; 0x00; 0x00; 0x00; 0x38; 0x38; 0x00; 0x00; 0x38; 0x38; 0x00; 0x00; 0x00];
  [0x00; 0x00; 0x00; 0x1c; 0x1c; 0x00; 0x00; 0x1c; 0x1c; 0x18; 0x30; 0x00; 0x00];
  [0x06; 0x0c; 0x18; 0x30; 0x60; 0xc0; 0x60; 0x30; 0x18; 0x0c; 0x06; 0x00; 0x00];
  [0x00; 0x00; 0x00; 0x00; 0xff; 0xff; 0x00; 0xff; 0xff; 0x00; 0x00; 0x00; 0x00];
  [0x60; 0x30; 0x18; 0x0c; 0x06; 0x03; 0x06; 0x0c; 0x18; 0x30; 0x60; 0x00; 0x00];
  [0x7e; 0xc3; 0xc3; 0x03; 0x06; 0x0c; 0x18; 0x18; 0x00; 0x00; 0x18; 0x00; 0x00];
  [0x00; 0x00; 0x00; 0x7e; 0xc3; 0xdd; 0xd3; 0xdb; 0xcf; 0x60; 0x3f; 0x00; 0x00];
  [0x18; 0x3c; 0x66; 0xc3; 0xc3; 0xc3; 0xff; 0xc3; 0xc3; 0xc3; 0xc3; 0x00; 0x00];
  [0xfe; 0xc7; 0xc3; 0xc3; 0xc7; 0xfe; 0xc7; 0xc3; 0xc3; 0xc7; 0xfe; 0x00; 0x00];
  [0x7e; 0xe7; 0xc0; 0xc0; 0xc0; 0xc0; 0xc0; 0xc0; 0xc0; 0xe7; 0x7e; 0x00; 0x00];
  [0xfc; 0xce; 0xc7; 0xc3; 0xc3; 0xc3; 0xc3; 0xc3; 0xc7; 0xce; 0xfc; 0x00; 0x00];
  [0xff; 0xc0; 0xc0; 0xc0; 0xc0; 0xfc; 0xc0; 0xc0; 0xc0; 0xc0; 0xff; 0x00; 0x00];
  [0xff; 0xc0; 0xc0; 0xc0; 0xfc; 0xc0; 0xc0; 0xc0; 0xc0; 0xc0; 0xc0; 0x00; 0x00];
  [0x7e; 0xe7; 0xc0; 0xc0; 0xc0; 0xc0; 0xcf; 0xc3; 0xc3; 0xe7; 0x7e; 0x00; 0x00];
  [0xc3; 0xc3; 0xc3; 0xc3; 0xc3; 0xff; 0xc3; 0xc3; 0xc3; 0xc3; 0xc3; 0x00; 0x00];
  [0x7e; 0x18; 0x18; 0x18; 0x18; 0x18; 0x18; 0x18; 0x18; 0x18; 0x7e; 0x00; 0x00];
  [0x06; 0x06; 0x06; 0x06; 0x06; 0x06; 0x06; 0x06; 0xc6; 0xee; 0x7c; 0x00; 0x00];
  [0xc3; 0xc6; 0xcc; 0xd8; 0xf0; 0xe0; 0xf0; 0xd8; 0xcc; 0xc6; 0xc3; 0x00; 0x00];
  [0xc0; 0xc0; 0xc0; 0xc0; 0xc0; 0xc0; 0xc0; 0xc0; 0xc0; 0xc0; 0xff; 0x00; 0x00]
].

Definition OPENGL_FONT_HIGH : list (list Z) := [
  [0xc3; 0xe7; 0xff; 0xff; 0xdb; 0xc3; 0xc3; 0xc3; 0xc3; 0xc3; 0xc3; 0x00; 0x00];
  [0xe3; 0xe3; 0xf3; 0xf3; 0xfb; 0xdb; 0xdf; 0xcf; 0xcf; 0xc7; 0xc7; 0x00; 0x00];
  [0x7e; 0xe7; 0xc3; 0xc3; 0xc3; 0xc3; 0xc3; 0xc3; 0xc3; 0xe7; 0x7e; 0x00; 0x00];
  [0xfe; 0xc7; 0xc3; 0xc3; 0xc7; 0xfe; 0xc0; 0xc0; 0xc0; 0xc0; 0xc0; 0x00; 0x00];
  [0x3c; 0x66; 0xc3; 0xc3; 0xc3; 0xc3; 0xc3; 0xdb; 0xdf; 0x6e; 0x3f; 0x00; 0x00];
  [0xfe; 0xc7; 0xc3; 0xc3; 0xc7; 0xfe; 0xf0; 0xd8; 0xcc; 0xc6; 0xc3; 0x00; 0x00];
  [0x7e; 0xe7; 0xc0; 0xc0; 0xe0; 0x7e; 0x07; 0x03; 0x03; 0xe7; 0x7e; 0x00; 0x00];
  [0xff; 0x18; 0x18; 0x18; 0x18; 0x18; 0x18; 0x18; 0x18; 0x18; 0x18; 0x00; 0x00];
  [0xc3; 0xc3; 0xc3; 0xc3; 0xc3; 0xc3; 0xc3; 0xc3; 0xc3; 0xe7; 0x7e; 0x00; 0x00];
  [0xc3; 0xc3; 0xc3; 0xc3; 0xc3; 0xc3; 0x66; 0x66; 0x3c; 0x3c; 0x18; 0x00; 0x00];
  [0xc3; 0xc3; 0xc3; 0xc3; 0xc3; 0xdb; 0xdb; 0xff; 0xff; 0xe7; 0xc3; 0x00; 0x00];
  [0xc3; 0x66; 0x66; 0x3c; 0x3c; 0x18; 0x3c; 0x3c; 0x66; 0x66; 0xc3; 0x00; 0x00];
  [0xc3; 0x66; 0x66; 0x3c; 0x3c; 0x18; 0x18; 0x18; 0x18; 0x18; 0x18; 0x00; 0x00];
  [0xff; 0x03; 0x03; 0x06; 0x0c; 0x7e; 0x30; 0x60; 0xc0; 0xc0; 0xff; 0x00; 0x00];
  [0x3c; 0x30; 0x30; 0x30; 0x30; 0x30; 0x30; 0x30; 0x30; 0x30; 0x3c; 0x00; 0x00];
  [0x60; 0x60; 0x30; 0x30; 0x18; 0x18; 0x0c; 0x0c; 0x06; 0x06; 0x03; 0x03; 0x00];
  [0x3c; 0x0c; 0x0c; 0x0c; 0x0c; 0x0c; 0x0c; 0x0c; 0x0c; 0x0c; 0x3c; 0x00; 0x00];
  [0x18; 0x3c; 0x66; 0xc3; 0x00; 0x00; 0x00; 0x00; 0x00; 0x00; 0x00; 0x00; 0x00];
  [0x00; 0x00; 0x00; 0x00; 0x00; 0x00; 0x00; 0x00; 0x00; 0x00; 0x00; 0xff; 0xff];
  [0x70; 0x30; 0x38; 0x18; 0x00; 0x00; 0x00; 0x00; 0x00; 0x00; 0x00; 0x00; 0x00];
  [0x00; 0x00; 0x00; 0x00; 0x7e; 0xc3; 0x03; 0x7f; 0xc3; 0xc3; 0x7f; 0x00; 0x00];
  [0xc0; 0xc0; 0xc0; 0xc0; 0xc0; 0xfe; 0xc3; 0xc3; 0xc3; 0xc3; 0xfe; 0x00; 0x00];
  [0x00; 0x00; 0x00; 0x00; 0x7e; 0xc3; 0xc0; 0xc0; 0xc0; 0xc3; 0x7e; 0x00; 0x00];
  [0x03; 0x03; 0x03; 0x03; 0x03; 0x7f; 0xc3; 0xc3; 0xc3; 0xc3; 0x7f; 0x00; 0x00];
  [0x00; 0x00; 0x00; 0x00; 0x7e; 0xc3; 0xc3; 0xfe; 0xc0; 0xc0; 0x7f; 0x00; 0x00];
  [0x1e; 0x33; 0x30; 0x30; 0x30; 0xfc; 0x30; 0x30; 0x30; 0x30; 0x30; 0x00; 0x00];
  [0x00; 0x00; 0x00; 0x00; 0x7e; 0xc3; 0xc3; 0xc3; 0x7f; 0x03; 0x03; 0xc3; 0x7e];
  [0xc0; 0xc0; 0xc0; 0xc0; 0xfe; 0xc3; 0xc3; 0xc3; 0xc3; 0xc3; 0xc3; 0x00; 0x00];
  [0x00; 0x18; 0x00; 0x00; 0x18; 0x18; 0x18; 0x18; 0x18; 0x18; 0x18; 0x00; 0x00];
  [0x00; 0x0c; 0x00; 0x00; 0x0c; 0x0c; 0x0c; 0x0c; 0x0c; 0x0c; 0x0c; 0x6c; 0x38];
  [0xc0; 0xc0; 0xc0; 0xc0; 0xc6; 0xcc; 0xd8; 0xf0; 0xf8; 0xcc; 0xc6; 0x00; 0x00];
  [0x78; 0x18; 0x18; 0x18; 0x18; 0x18; 0x18; 0x18; 0x18; 0x18; 0x7e; 0x00; 0x00];
  [0x00; 0x00; 0x00; 0x00; 0xfe; 0xdb; 0xdb; 0xdb; 0xdb; 0xdb; 0xdb; 0x00; 0x00];
  [0x00; 0x00; 0x00; 0x00; 0xfc; 0xc6; 0xc6; 0xc6; 0xc6; 0xc6; 0xc6; 0x00; 0x00];
  [0x00; 0x00; 0x00; 0x00; 0x7c; 0xc6; 0xc6; 0xc6; 0xc6; 0xc6; 0x7c; 0x00; 0x00];
  [0x00; 0x00; 0x00; 0x00; 0xfe; 0xc3; 0xc3; 0xc3; 0xc3; 0xfe; 0xc0; 0xc0; 0xc0];
  [0x00; 0x00; 0x00; 0x00; 0x7f; 0xc3; 0xc3; 0xc3; 0xc3; 0x7f; 0x03; 0x03; 0x03];
  [0x00; 0x00; 0x00; 0x00; 0xfe; 0xe0; 0xc0; 0xc0; 0xc0; 0xc0; 0xc0; 0x00; 0x00];
  [0x00; 0x00; 0x00; 0x00; 0x7f; 0xc0; 0xc0; 0x7e; 0x03; 0x03; 0xfe; 0x00; 0x00];
  [0x00; 0x30; 0x30; 0x30; 0xfc; 0x30; 0x30; 0x30; 0x30; 0x36; 0x1c; 0x00; 0x00];
  [0x00; 0x00; 0x00; 0x00; 0xc6; 0xc6; 0xc6; 0xc6; 0xc6; 0xc6; 0x7e; 0x00; 0x00];
  [0x00; 0x00; 0x00; 0x00; 0xc3; 0xc3; 0x66; 0x66; 0x3c; 0x3c; 0x18; 0x00; 0x00];
  [0x00; 0x00; 0x00; 0x00; 0xc3; 0xc3; 0xc3; 0xdb; 0xff; 0xe7; 0xc3; 0x00; 0x00];
  [0x00; 0x00; 0x00; 0x00; 0xc3; 0x66; 0x3c; 0x18; 0x3c; 0x66; 0xc3; 0x00; 0x00];
  [0x00; 0x00; 0x00; 0x00; 0xc3; 0x66; 0x66; 0x3c; 0x18; 0x30; 0x60; 0x60; 0xc0];
  [0x00; 0x00; 0x00; 0x00; 0xff; 0x06; 0x0c; 0x18; 0x30; 0x60; 0xff; 0x00; 0x00];
  [0x0f; 0x18; 0x18; 0x18; 0x38; 0xf0; 0x38; 0x18; 0x18; 0x18; 0x0f; 0x00; 0x00];
  [0x18; 0x18; 0x18; 0x18; 0x18; 0x18; 0x18; 0x18; 0x18; 0x18; 0x18; 0x18; 0x18];
  [0xf0; 0x18; 0x18; 0x18; 0x1c; 0x0f; 0x1c; 0x18; 0x18; 0x18; 0xf0; 0x00; 0x00];
  [0x00; 0x00; 0x00; 0x60; 0xf1; 0x8f; 0x06; 0x00; 0x00; 0x00; 0x00; 0x00; 0x00]
].

Definition OPENGL_FONT : list (list Z) := OPENGL_FONT_LOW ++ OPENGL_FONT_HIGH.

(** ** [framebuffer.rs] *)
Record ARGB32Bit : Type := mkColor { blue : Z; green : Z; red : Z; alpha : Z }.
Definition ARGB32BIT_WHITE : ARGB32Bit := mkColor 0xFF 0xFF 0xFF 0xFF.
Definition ARGB32BIT_BLACK : ARGB32Bit := mkColor 0x00 0x00 0x00 0xFF.

(** The boot loader's description of the screen *)
Record LimineFramebuffer : Type := mkLimine {
  fb_address : option Z; fb_width : Z; fb_height : Z; fb_pitch : Z; fb_bpp : Z;
  red_mask_size : Z; red_mask_shift : Z; green_mask_size : Z; green_mask_shift : Z; blue_mask_size : Z; blue_mask_shift : Z;
}.

Record VESAFramebuffer32Bit : Type := mkFramebuffer { address : Z; width_pixels : Z; height_pixels : Z; pitch : Z }.

(** The [bitvec] crate: the bits of bytes, and their rows *)
Class Bitvec : Type := {
  as_bits_msb0 : list Z → list bool;
  bit_chunks : Z → list bool → list (list bool);
}.

Definition byte_bits (b : Z) : list bool := (λ i, Z.testbit b (7 - i)) <$> range 0 8.

Fixpoint chunks_of (fuel n : nat) (l : list bool) : list (list bool) :=
  match fuel, l with
  | S fuel, _ :: _ => take n l :: chunks_of fuel n (drop n l)
  | _, _ => []
  end.

Class BitvecLaws `{!Bitvec} : Prop := {
  as_bits_ok bytes : as_bits_msb0 bytes = bytes ≫= byte_bits;
  bit_chunks_ok n l : 0 < n → bit_chunks n l = chunks_of (length l) (Z.to_nat n) l;
}.

#[local] Instance documented_bitvec : Bitvec := {|
  as_bits_msb0 bytes := bytes ≫= byte_bits;
  bit_chunks n l := chunks_of (length l) (Z.to_nat n) l;
|}.
#[local] Instance documented_bitvec_laws : BitvecLaws.
Proof. by split. Qed.

(** Writing a colour: its four bytes *)
Definition write_color (m : store) (a : Z) (c : ARGB32Bit) : store :=
  λ x, if x =? a then blue c else if x =? a + 1 then green c else if x =? a + 2 then red c else if x =? a + 3 then alpha c else m x.

Module VESAFramebuffer32Bit.
Section framebuffer.
Context {bv : Bitvec}.
Implicit Types (self : VESAFramebuffer32Bit) (m : store).

Definition from_limine_framebuffer (fb : LimineFramebuffer) : outcome (result VESAFramebuffer32Bit string) :=
  if negb (fb_bpp fb =? 32) then mret (Err "limine framebuffer must be 32 bits per pixel"%string)
  else if negb (red_mask_size fb =? 8) then mret (Err "limine framebuffer must use 8 bits for red"%string)
  else if negb (green_mask_size fb =? 8) then mret (Err "limine framebuffer must use 8 bits for green"%string)
  else if negb (blue_mask_size fb =? 8) then mret (Err "limine framebuffer must use 8 bits for blue"%string)
  else if negb (red_mask_shift fb =? 16) then mret (Err "limine framebuffer must shift red mask by 16 bits"%string)
  else if negb (green_mask_shift fb =? 8) then mret (Err "limine framebuffer must shift green mask by 8 bits"%string)
  else if negb (blue_mask_shift fb =? 0) then mret (Err "limine framebuffer must shift blue mask by 0 bits"%string)
  else
    address ← expect (fb_address fb);
    mret (Ok (mkFramebuffer address (fb_width fb) (fb_height fb) (fb_pitch fb))).

Definition draw_pixel self (x y : Z) (color : ARGB32Bit) m : outcome store :=
  _ ← assert_ (x <? width_pixels self);
  _ ← assert_ (y <? height_pixels self);
  row ← y *! pitch self;
  col ← x *! 4;
  pixel_offset ← row +! col;
  mret (write_color m (address self + pixel_offset) color).

Definition draw_bitmap self (x y : Z) (bitmap : list bool) (bits_per_row : Z) (foreground background : ARGB32Bit) m
  : outcome store :=
  _ ← assert_ (x <? width_pixels self);
  _ ← assert_ (y <? height_pixels self);
  foldM (λ '(j, row) m,
    foldM (λ '(i, bit) m,
      px ← x +! i;
      py ← y +! j;
      draw_pixel self px py (if (bit : bool) then foreground else background) m)
      (zip (range 0 (zlen row)) row) m)
    (zip (range 0 (zlen (bit_chunks bits_per_row bitmap))) (bit_chunks bits_per_row bitmap)) m.

Definition clear self m : outcome store :=
  n ← pitch self *! height_pixels self;
  mret (store_zero m (address self) n).
End framebuffer.
End VESAFramebuffer32Bit.

(** ** [text_buffer.rs] *)
Record ColorChar : Type := mkChar { char_byte : Z; color : ARGB32Bit }.

Record TextBuffer : Type := mkText { buffer : RingBuffer.t (list ColorChar); cursor : Z }.

Definition blank : ColorChar := mkChar 0x00 ARGB32BIT_WHITE.

Module TextBuffer.
Section text.
Context {bv : Bitvec} (N W : Z).
Implicit Types (self : TextBuffer) (m : store).

Definition new : TextBuffer := mkText (RingBuffer.new N) 0.

Definition new_line self : outcome TextBuffer :=
  b ← RingBuffer.push N (replicate (Z.to_nat W) blank) (buffer self);
  mret (mkText b 0).

Definition write_char (c : ColorChar) self : outcome TextBuffer :=
  if char_byte c =? 10 then new_line self
  else
    self ← (if cursor self =? W then new_line self else mret self);
    line ← RingBuffer.get N (buffer self) 0;
    self ← match line with Some _ => mret self | None => new_line self end;
    '(line, b) ← RingBuffer.get_mut N (λ l, <[Z.to_nat (cursor self) := c]> l) (buffer self) 0;
    line ← expect line;
    _ ← index line (cursor self);
    cur ← cursor self +! 1;
    mret (mkText b cur).

Definition write_str (s : list Z) self : outcome TextBuffer :=
  foldM (λ byte self, write_char (mkChar byte ARGB32BIT_WHITE) self) s self.

Definition draw_char (fb : VESAFramebuffer32Bit) (x y : Z) (c : ColorChar) m : outcome store :=
  let i := if FONT_START_CHAR_ASCII_CODE <=? char_byte c then char_byte c - FONT_START_CHAR_ASCII_CODE
           else FONT_SPACE_CHARACTER_INDEX in
  match OPENGL_FONT !! Z.to_nat i with
  | None => mret m
  | Some char_bytes =>
      VESAFramebuffer32Bit.draw_bitmap fb x y (as_bits_msb0 char_bytes) FONT_WIDTH_PIXELS (color c) ARGB32BIT_BLACK m
  end.

(** The loop over the characters of a line *)
Definition draw_line (fb : VESAFramebuffer32Bit) (pixel_y : Z) (line : list ColorChar) m : outcome store :=
  r ← loopM (λ c '(x, m),
        right ← x +! FONT_WIDTH_PIXELS;
        if width_pixels fb <? right then mret (Stop m)
        else
          m ← draw_char fb x pixel_y c m;
          x ← x +! (FONT_WIDTH_PIXELS + 1);
          mret (Next (x, m))) line (1, m);
  mret (match r with Next (_, m) => m | Stop m => m end).

Definition flush self (fb : VESAFramebuffer32Bit) m : outcome store :=
  m ← VESAFramebuffer32Bit.clear fb m;
  lines ← RingBuffer.collect N (S (Z.to_nat N)) (RingBuffer.iter (buffer self));
  r ← loopM (λ line '(pixel_y, m),
        if pixel_y <? FONT_HEIGHT_PIXELS + 1 then mret (Stop m)
        else
          let pixel_y := pixel_y - (FONT_HEIGHT_PIXELS + 1) in
          m ← draw_line fb pixel_y line m;
          mret (Next (pixel_y, m))) lines (height_pixels fb, m);
  mret (match r with Next (_, m) => m | Stop m => m end).
End text.
End TextBuffer.

(** [write_text_buffer]: the lines are 100 characters long and 50 of them are kept. *)
Definition write_text_buffer {bv : Bitvec} (text : list Z) (framebuffer : option VESAFramebuffer32Bit) (text_buffer : TextBuffer)
    (m : store) : outcome (TextBuffer * store) :=
  framebuffer ← expect framebuffer;
  text_buffer ← TextBuffer.write_str 50 100 text text_buffer;
  m ← TextBuffer.flush 50 text_buffer framebuffer m;
  mret (text_buffer, m).
