(* ===== verification/TextBufferThms.v ===== *)
(** * The text console, proved

    The text buffer holds the last lines of the text, wrapped, with nothing lost; drawing
    never leaves the memory of the framebuffer and shows every line and character in its
    place. *)
From S2P Require Import Prelude RingBuffer External Addr PhysMem TextBuffer.
#[local] Open Scope Z_scope.

(** ** Lines

    The lines of a text, newest first, of at most [W] characters. *)
Definition layout_char (W : Z) (lines : list (list ColorChar)) (c : ColorChar) : list (list ColorChar) :=
  if char_byte c =? 10 then [] :: lines
  else match lines with
       | [] => [[c]]
       | l :: ls => if zlen l =? W then [c] :: l :: ls else (l ++ [c]) :: ls
       end.

Definition layout (W : Z) (s : list Z) : list (list ColorChar) :=
  foldl (layout_char W) [] ((λ b, mkChar b ARGB32BIT_WHITE) <$> s).

Definition pad (W : Z) (l : list ColorChar) : list ColorChar := l ++ replicate (Z.to_nat (W - zlen l)) blank.

(** All characters but the line breaks are in the lines, in their order. *)
Lemma layout_keeps_text W cs : ∀ lines,
  concat (reverse (foldl (layout_char W) lines cs)) = concat (reverse lines) ++ filter (λ c, char_byte c ≠ 10) cs.
Proof.
  induction cs as [|c cs IH]; intros lines; cbn [foldl]; [by rewrite app_nil_r|]. rewrite IH. unfold layout_char.
  destruct (Z.eqb_spec (char_byte c) 10) as [E|E].
  - rewrite filter_cons_False by tauto. by rewrite reverse_cons, concat_app, app_nil_r.
  - rewrite filter_cons_True by done. change (c :: filter _ cs) with ([c] ++ filter (λ c, char_byte c ≠ 10) cs). rewrite app_assoc. f_equal.
    destruct lines as [|l ls]; [done|]. destruct (zlen l =? W); rewrite !reverse_cons, !concat_app; cbn; by rewrite ?app_nil_r, ?app_assoc.
Qed.

Section text.
Context (N W : Z) (HN : 0 < N < 2 ^ 64) (HW : 0 < W < 2 ^ 64).
Import TextBuffer.

Record text_inv (tb : TextBuffer) (lines : list (list ColorChar)) : Prop := {
  ti_buffer : RingBuffer.repr N (buffer tb) (pad W <$> lines);
  ti_cursor : cursor tb = zlen (default [] (head lines));
  ti_width : Forall (λ l, zlen l ≤ W) lines;
}.

Lemma new_inv : text_inv (new N) [].
Proof. split; [by apply RingBuffer.repr_new|done|constructor]. Qed.

Lemma new_line_ok tb lines : text_inv tb lines → ∃ tb', new_line N W tb = Ret tb' ∧ text_inv tb' ([] :: lines).
Proof.
  intros [H1 H2 H3]. unfold new_line.
  destruct (RingBuffer.push_ok N HN (buffer tb) _ (replicate (Z.to_nat W) blank) H1) as (b & -> & Hb). run_monad.
  eexists. split; [done|]. split; [|done|constructor; [rewrite zlen_nil; lia|done]].
  cbn [buffer fmap list_fmap]. unfold pad at 1. rewrite zlen_nil, Z.sub_0_r. done.
Qed.

Lemma pad_insert l c : zlen l < W → <[Z.to_nat (zlen l) := c]> (pad W l) = pad W (l ++ [c]).
Proof.
  intros Hl. unfold pad. rewrite zlen_app. change (zlen [c]) with 1. unfold zlen in *. rewrite Nat2Z.id.
  replace (Z.to_nat (W - Z.of_nat (length l))) with (S (Z.to_nat (W - (Z.of_nat (length l) + 1)))) by lia. cbn [replicate].
  rewrite insert_app_r_alt, Nat.sub_diag by lia. cbn. by rewrite <-app_assoc.
Qed.

(** A character into a buffer whose newest line has room. *)
Lemma put_char_ok tb l ls c : text_inv tb (l :: ls) → zlen l < W →
  ∃ tb', ('(line, b) ← RingBuffer.get_mut N (λ l, <[Z.to_nat (cursor tb) := c]> l) (buffer tb) 0;
          line ← expect line; _ ← index line (cursor tb); cur ← (cursor tb +! 1)%rust; mret (mkText b cur)) = Ret tb' ∧
    text_inv tb' ((l ++ [c]) :: ls).
Proof.
  intros [H1 H2 H3] Hl. change (cursor tb = zlen l) in H2. pose proof (zlen_nonneg l).
  destruct (RingBuffer.get_mut_ok N HN (λ l, <[Z.to_nat (cursor tb) := c]> l) (buffer tb) _ 0 H1) as (b & E & Hb); [lia|].
  rewrite E. replace (0 <? N) with true in * by lia. change ((pad W <$> l :: ls) !! Z.to_nat 0) with (Some (pad W l)). run_monad. cbn [expect]. run_monad.
  assert (Hi : index (pad W l) (cursor tb) = Ret blank).
  { apply index_ret_inv. rewrite H2. unfold pad. rewrite lookup_app_r by (unfold zlen; lia).
    replace (Z.to_nat (zlen l) - length l)%nat with 0%nat by (unfold zlen; lia).
    destruct (Z.to_nat (W - zlen l)) eqn:En; [lia|done]. }
  rewrite Hi. run_monad. rewrite (uadd_ok 64) by lia. run_monad. eexists. split; [done|].
  apply Forall_cons in H3 as [_ H3]. split; cbn [buffer cursor default head].
  - change (RingBuffer.repr N b (<[Z.to_nat (cursor tb) := c]> (pad W l) :: (pad W <$> ls))) in Hb.
    rewrite H2, pad_insert in Hb by done. exact Hb.
  - change (cursor tb + 1 = zlen (l ++ [c])). by rewrite H2, zlen_app.
  - constructor; [rewrite zlen_app; change (zlen [c]) with 1; lia|done].
Qed.

Lemma get_newest tb lines : text_inv tb lines → RingBuffer.get N (buffer tb) 0 = Ret (head (pad W <$> lines)).
Proof.
  intros [H1 _ _]. rewrite (RingBuffer.get_ok N HN _ _ 0 H1) by lia. replace (0 <? N) with true by lia. by destruct lines.
Qed.

Lemma write_char_ok c tb lines : text_inv tb lines → ∃ tb', write_char N W c tb = Ret tb' ∧ text_inv tb' (layout_char W lines c).
Proof.
  intros HI. unfold write_char, layout_char. destruct (char_byte c =? 10); [by apply new_line_ok|].
  pose proof (ti_cursor _ _ HI) as Hc. destruct lines as [|l ls].
  - change (cursor tb = 0) in Hc. rewrite Hc. replace (0 =? W) with false by lia. run_monad. rewrite (get_newest _ _ HI). cbn [fmap list_fmap head]. run_monad.
    destruct (new_line_ok _ _ HI) as (tb1 & -> & HI1). run_monad. apply (put_char_ok tb1 [] []); [done|rewrite zlen_nil; lia].
  - change (cursor tb = zlen l) in Hc. rewrite Hc. destruct (Z.eqb_spec (zlen l) W).
    + destruct (new_line_ok _ _ HI) as (tb1 & -> & HI1). run_monad. rewrite (get_newest _ _ HI1). cbn [fmap list_fmap head]. run_monad.
      apply (put_char_ok tb1 [] (l :: ls)); [done|rewrite zlen_nil; lia].
    + run_monad. rewrite (get_newest _ _ HI). cbn [fmap list_fmap head]. run_monad. apply put_char_ok; [done|].
      destruct HI as [_ _ H3]. apply Forall_cons in H3 as [? _]. lia.
Qed.

Lemma write_str_ok s : ∀ tb lines, text_inv tb lines →
  ∃ tb', write_str N W s tb = Ret tb' ∧ text_inv tb' (foldl (layout_char W) lines ((λ b, mkChar b ARGB32BIT_WHITE) <$> s)).
Proof.
  induction s as [|b s IH]; intros tb lines HI; unfold write_str; cbn [foldM fmap list_fmap foldl]; [by exists tb|].
  destruct (write_char_ok (mkChar b ARGB32BIT_WHITE) tb lines HI) as (tb1 & -> & HI1). run_monad. by apply IH.
Qed.

(** the console keeps the newest lines of the text.  After writing any text into a
    new buffer, the lines that are drawn, newest first, are the last [N] lines of the
    text, broken at line breaks and after [W] characters and padded to [W]; no other
    character is dropped, added or moved. *)
Theorem text_buffer_layout s :
  ∃ tb, write_str N W s (new N) = Ret tb ∧
    RingBuffer.collect N (S (Z.to_nat N)) (RingBuffer.iter (buffer tb)) = Ret (take (Z.to_nat N) (pad W <$> layout W s)) ∧
    Forall (λ l, zlen l ≤ W) (layout W s) ∧
    concat (reverse (layout W s)) = (λ b, mkChar b ARGB32BIT_WHITE) <$> filter (λ b, b ≠ 10) s.
Proof.
  destruct (write_str_ok s _ _ new_inv) as (tb & E & [H1 H2 H3]). exists tb. split_and!; [done| |done|].
  - unfold RingBuffer.iter. rewrite (RingBuffer.collect_ok N HN _ _ 0 _ H1) by lia. by rewrite drop_0.
  - unfold layout. rewrite layout_keeps_text. cbn. clear. induction s as [|b s IH]; [done|]. cbn [fmap list_fmap].
    destruct (decide (b = 10)) as [->|]; [by rewrite !filter_cons_False by (cbn; tauto)|].
    rewrite !filter_cons_True by (cbn; done). cbn [fmap list_fmap]. by rewrite IH.
Qed.
End text.

(** ** Pixels *)
Record fb_ok (fb : VESAFramebuffer32Bit) : Prop := {
  fo_width : 0 ≤ width_pixels fb < 2 ^ 61;
  fo_height : 0 ≤ height_pixels fb;
  fo_pitch : 4 * width_pixels fb ≤ pitch fb;
  fo_size : pitch fb * height_pixels fb < 2 ^ 63;
}.

Definition on_screen (fb : VESAFramebuffer32Bit) (x y : Z) : Prop := 0 ≤ x < width_pixels fb ∧ 0 ≤ y < height_pixels fb.

Definition pixel_address (fb : VESAFramebuffer32Bit) (x y : Z) : Z := address fb + (y * pitch fb + x * 4).

Definition pixel (fb : VESAFramebuffer32Bit) (m : store) (x y : Z) : ARGB32Bit :=
  let a := pixel_address fb x y in mkColor (m a) (m (a + 1)) (m (a + 2)) (m (a + 3)).

(** Nothing but the framebuffer's memory differs. *)
Definition only_screen (fb : VESAFramebuffer32Bit) (m m' : store) : Prop :=
  ∀ a, a < address fb ∨ address fb + pitch fb * height_pixels fb ≤ a → m' a = m a.

Section pixels.
Context (fb : VESAFramebuffer32Bit) (Hfb : fb_ok fb) {bv : Bitvec} {bvl : BitvecLaws}.
Implicit Types (m : store).
Import VESAFramebuffer32Bit.

Lemma only_screen_trans m1 m2 m3 : only_screen fb m1 m2 → only_screen fb m2 m3 → only_screen fb m1 m3.
Proof. intros H1 H2 a Ha. by rewrite H2, H1. Qed.

Lemma pixel_bounds x y : on_screen fb x y → 0 ≤ y * pitch fb ∧ y * pitch fb + x * 4 + 4 ≤ pitch fb * height_pixels fb.
Proof. intros [Hx Hy]. destruct Hfb. nia. Qed.

Lemma pixels_apart x y x' y' : on_screen fb x y → on_screen fb x' y' → (x, y) ≠ (x', y') →
  pixel_address fb x y + 4 ≤ pixel_address fb x' y' ∨ pixel_address fb x' y' + 4 ≤ pixel_address fb x y.
Proof.
  intros [Hx Hy] [Hx' Hy'] Hne. destruct Hfb as [_ _ Hp _]. unfold pixel_address. destruct (Z.lt_total y y') as [?|[->|?]].
  - left. nia.
  - assert (x ≠ x') by congruence. lia.
  - right. nia.
Qed.

Lemma write_color_out m a c x : x < a ∨ a + 4 ≤ x → write_color m a c x = m x.
Proof. intros Hx. unfold write_color. by rewrite !(proj2 (Z.eqb_neq x _)) by lia. Qed.

Lemma draw_pixel_ok x y c m : on_screen fb x y →
  ∃ m', draw_pixel fb x y c m = Ret m' ∧ only_screen fb m m' ∧
    ∀ x' y', on_screen fb x' y' → pixel fb m' x' y' = if decide ((x', y') = (x, y)) then c else pixel fb m x' y'.
Proof.
  intros Hs. pose proof (pixel_bounds x y Hs) as [Hb1 Hb2]. destruct Hs as [Hx Hy], Hfb as [_ _ _ Hsz].
  unfold draw_pixel. rewrite (proj2 (Z.ltb_lt _ _)), (proj2 (Z.ltb_lt _ _)) by lia. run_monad.
  rewrite (umul_ok 64) by lia. run_monad. rewrite (umul_ok 64) by lia. run_monad. rewrite (uadd_ok 64) by lia. run_monad.
  eexists. split; [done|]. fold (pixel_address fb x y). split.
  - intros a Ha. apply write_color_out. unfold pixel_address. lia.
  - intros x' y' Hs'. unfold pixel. case_decide as Hd.
    + injection Hd as -> ->. set (a := pixel_address fb x y). unfold write_color. rewrite !Z.eqb_refl.
      repeat (rewrite (proj2 (Z.eqb_neq (a + _) _)) by lia). by destruct c.
    + destruct (pixels_apart x y x' y') as [?|?]; [done|done|congruence| |]; by rewrite !write_color_out by lia.
Qed.

(** Drawing points one after the other: the last one counts. *)
Lemma draw_points_ok (pts : list (Z * Z * ARGB32Bit)) : (∀ x y c, (x, y, c) ∈ pts → on_screen fb x y) → ∀ m,
  ∃ m', foldM (λ '(x, y, c) m, draw_pixel fb x y c m) pts m = Ret m' ∧ only_screen fb m m' ∧
    ∀ x y, on_screen fb x y → pixel fb m' x y = foldl (λ old '(x', y', c), if decide ((x, y) = (x', y')) then c else old) (pixel fb m x y) pts.
Proof.
  induction pts as [|[[x y] c] pts IH]; intros Hp m; cbn [foldM foldl]; [by exists m|].
  destruct (draw_pixel_ok x y c m) as (m1 & -> & F1 & P1); [eapply Hp; by left|]. run_monad.
  destruct (IH (λ x y c Hin, Hp x y c (list_elem_of_further _ _ _ Hin)) m1) as (m2 & -> & F2 & P2). exists m2. split; [done|].
  split; [by eapply only_screen_trans|]. intros x' y' Hs. by rewrite P2, P1.
Qed.

Lemma foldl_points (pts : list (Z * Z * ARGB32Bit)) x y c : (∀ c', (x, y, c') ∈ pts → c' = c) → ∀ old,
  foldl (λ old '(x', y', c), if decide ((x, y) = (x', y')) then c else old) old pts
  = if decide (Exists (λ p, p.1 = (x, y)) pts) then c else old.
Proof.
  induction pts as [|[[x' y'] c'] pts IH]; intros Hc old; cbn [foldl].
  { rewrite decide_False; [done|]. intros Hx. by inversion Hx. }
  rewrite IH by (intros c0 Hin; apply Hc; by right).
  destruct (decide ((x, y) = (x', y'))) as [Hd|Hd].
  - injection Hd as <- <-. assert (c' = c) as -> by (apply Hc; left). rewrite (decide_True (P := Exists _ (_ :: _))) by (by left).
    by case_decide.
  - destruct (decide (Exists (λ p, p.1 = (x, y)) pts)) as [He|He].
    + by rewrite decide_True by (by right).
    + rewrite decide_False; [done|]. intros Hx. apply Exists_cons in Hx as [Hx|Hx]; [by apply Hd|by apply He].
Qed.

Lemma elem_of_enumerated {T} (l : list T) j a : (j, a) ∈ zip (range 0 (zlen l)) l ↔ 0 ≤ j ∧ l !! Z.to_nat j = Some a.
Proof.
  rewrite list_elem_of_lookup. setoid_rewrite lookup_zip_Some. setoid_rewrite lookup_range. split.
  - intros (i & [-> Hi] & Ha). split; [lia|]. by replace (Z.to_nat (0 + Z.of_nat i)) with i by lia.
  - intros [Hj Ha]. exists (Z.to_nat j). split; [|done]. apply lookup_lt_Some in Ha. unfold zlen. lia.
Qed.

Lemma byte_bits_eq b : byte_bits b = [Z.testbit b 7; Z.testbit b 6; Z.testbit b 5; Z.testbit b 4; Z.testbit b 3; Z.testbit b 2; Z.testbit b 1; Z.testbit b 0].
Proof. unfold byte_bits. rewrite !range_cons by lia. by rewrite range_nil by lia. Qed.

Lemma chunks_of_bytes bytes : ∀ fuel, (length bytes ≤ fuel)%nat → chunks_of fuel 8 (bytes ≫= byte_bits) = byte_bits <$> bytes.
Proof.
  induction bytes as [|b bytes IH]; intros fuel Hf; [by destruct fuel|]. destruct fuel as [|fuel]; [cbn in Hf; lia|].
  cbn [mbind list_bind fmap list_fmap]. rewrite byte_bits_eq. cbn [app chunks_of take drop]. f_equal. apply IH. cbn in Hf. lia.
Qed.

Lemma bits_of_bytes bytes : bit_chunks 8 (as_bits_msb0 bytes) = byte_bits <$> bytes.
Proof.
  rewrite as_bits_ok, bit_chunks_ok by lia. apply chunks_of_bytes. induction bytes as [|b bytes IH]; [done|].
  cbn [mbind list_bind]. rewrite length_app, byte_bits_eq. cbn. lia.
Qed.

(** The points of a bitmap at [(x, y)] *)
Definition bitmap_points (x y : Z) (bytes : list Z) (fg bg : ARGB32Bit) : list (Z * Z * ARGB32Bit) :=
  '(j, row) ← zip (range 0 (zlen bytes)) (byte_bits <$> bytes);
  (λ '(i, bit), (x + i, y + j, if (bit : bool) then fg else bg)) <$> zip (range 0 8) row.

Lemma elem_of_bitmap x y bytes fg bg px py c : (px, py, c) ∈ bitmap_points x y bytes fg bg ↔
  0 ≤ px - x < 8 ∧ 0 ≤ py - y ∧ ∃ b, bytes !! Z.to_nat (py - y) = Some b ∧ c = if Z.testbit b (7 - (px - x)) then fg else bg.
Proof.
  unfold bitmap_points. rewrite list_elem_of_bind. replace (zlen bytes) with (zlen (byte_bits <$> bytes)) by (unfold zlen; by rewrite length_fmap).
  split.
  - intros ([j row] & Hin & Hj). apply elem_of_enumerated in Hj as [Hj0 Hj]. rewrite list_lookup_fmap, fmap_Some in Hj.
    destruct Hj as (b & Hb & ->). apply list_elem_of_fmap in Hin as ([i bit] & [= -> -> ->] & Hin).
    assert (H8 : range 0 8 = range 0 (zlen (byte_bits b))) by (by rewrite byte_bits_eq). rewrite H8 in Hin.
    apply elem_of_enumerated in Hin as [Hi0 Hi]. unfold byte_bits in Hi. rewrite list_lookup_fmap, fmap_Some in Hi.
    destruct Hi as (i' & Hi & ->). apply lookup_range in Hi as [-> Hi]. replace (y + j - y) with j by lia.
    split; [lia|]. split; [done|]. exists b. split; [done|].
    replace (x + i - x) with i by lia. by replace (0 + Z.of_nat (Z.to_nat i)) with i by lia.
  - intros (Hx & Hy & b & Hb & ->). exists (py - y, byte_bits b). split.
    + apply list_elem_of_fmap. exists (px - x, Z.testbit b (7 - (px - x))). split; [by replace (x + (px - x)) with px by lia; replace (y + (py - y)) with py by lia|].
      assert (H8 : range 0 8 = range 0 (zlen (byte_bits b))) by (by rewrite byte_bits_eq). rewrite H8.
      apply elem_of_enumerated. split; [lia|]. unfold byte_bits. rewrite list_lookup_fmap.
      rewrite (proj2 (lookup_range 0 8 (Z.to_nat (px - x)) (px - x))) by lia. done.
    + apply elem_of_enumerated. split; [done|]. by rewrite list_lookup_fmap, Hb.
Qed.

Lemma small_screen x y : on_screen fb x y → width_pixels fb < 2 ^ 61 ∧ height_pixels fb < 2 ^ 63.
Proof. intros [Hx Hy]. destruct Hfb as [? ? Hp Hs]. nia. Qed.

Lemma draw_bitmap_ok x y bytes fg bg m : 0 ≤ x → x + 8 ≤ width_pixels fb → 0 ≤ y → y + zlen bytes ≤ height_pixels fb → 0 < zlen bytes →
  ∃ m', draw_bitmap fb x y (as_bits_msb0 bytes) 8 fg bg m = Ret m' ∧ only_screen fb m m' ∧
    ∀ px py, on_screen fb px py → pixel fb m' px py =
      if (0 <=? px - x) && (px - x <? 8) && (0 <=? py - y) then
        match bytes !! Z.to_nat (py - y) with Some b => if Z.testbit b (7 - (px - x)) then fg else bg | None => pixel fb m px py end
      else pixel fb m px py.
Proof.
  intros Hx Hw Hy Hh Hb. assert (Hon : on_screen fb x y) by (unfold on_screen; lia). pose proof (small_screen x y Hon) as [Hs1 Hs2].
  destruct (draw_points_ok (bitmap_points x y bytes fg bg)) with (m := m) as (m' & E & F & P).
  { intros px py c Hin. apply elem_of_bitmap in Hin as (H1 & H2 & b & Hb' & _). apply lookup_lt_Some in Hb'. unfold on_screen, zlen in *. lia. }
  exists m'. split; [|split; [done|]].
  - rewrite <-E. unfold draw_bitmap. rewrite !(proj2 (Z.ltb_lt _ _)) by lia. change (assert_ true) with (Ret ()). run_monad.
    rewrite bits_of_bytes. unfold bitmap_points. rewrite foldM_bind.
    replace (zlen (byte_bits <$> bytes)) with (zlen bytes) by (unfold zlen; by rewrite length_fmap).
    apply foldM_ext. intros [j row] s Hj. rewrite foldM_fmap. pose proof (elem_of_zip_l _ _ _ _ Hj) as Hjr. apply elem_of_range in Hjr.
    apply elem_of_zip_r, list_elem_of_fmap in Hj as (b & -> & _). replace (zlen (byte_bits b)) with 8 by (by rewrite byte_bits_eq).
    apply foldM_ext. intros [i bit] s' Hi. apply elem_of_zip_l, elem_of_range in Hi. rewrite !(uadd_ok 64) by lia. by run_monad.
  - intros px py Hp. rewrite P by done. destruct (bytes !! Z.to_nat (py - y)) as [b|] eqn:Eb.
    + rewrite (foldl_points _ px py (if Z.testbit b (7 - (px - x)) then fg else bg)).
      2:{ intros c' Hin. apply elem_of_bitmap in Hin as (_ & _ & b' & Hb' & ->). rewrite Eb in Hb'. by injection Hb' as <-. }
      destruct ((0 <=? px - x) && (px - x <? 8) && (0 <=? py - y)) eqn:Ec.
      * rewrite decide_True; [done|]. apply Exists_exists. exists (px, py, if Z.testbit b (7 - (px - x)) then fg else bg).
        split; [|done]. apply elem_of_bitmap. split; [lia|]. split; [lia|]. by exists b.
      * rewrite decide_False; [done|]. rewrite Exists_exists. intros ([[qx qy] c] & Hin & Hq). cbn in Hq. injection Hq as -> ->.
        apply elem_of_bitmap in Hin as (? & ? & _). lia.
    + rewrite (foldl_points _ px py bg); [rewrite decide_False; [by destruct (_ && _)|]|].
      * rewrite Exists_exists. intros ([[qx qy] c] & Hin & Hq). cbn in Hq. injection Hq as -> ->.
        apply elem_of_bitmap in Hin as (_ & _ & b & Hb' & _). congruence.
      * intros c' Hin. apply elem_of_bitmap in Hin as (_ & _ & b & Hb' & _). congruence.
Qed.
End pixels.

(** ** Characters *)
Definition glyph (c : ColorChar) : option (list Z) :=
  OPENGL_FONT !! Z.to_nat (if FONT_START_CHAR_ASCII_CODE <=? char_byte c then char_byte c - FONT_START_CHAR_ASCII_CODE
                           else FONT_SPACE_CHARACTER_INDEX).

(** The pixel at [(dx, dy)] of the box of a character, drawn over [old] *)
Definition char_pixel (c : ColorChar) (dx dy : Z) (old : ARGB32Bit) : ARGB32Bit :=
  if (0 <=? dx) && (dx <? 8) && (0 <=? dy) then
    match glyph c ≫= (λ bytes, bytes !! Z.to_nat dy) with
    | Some b => if Z.testbit b (7 - dx) then color c else ARGB32BIT_BLACK
    | None => old
    end
  else old.

Lemma font_rows i bytes : OPENGL_FONT !! i = Some bytes → zlen bytes = 13.
Proof.
  assert (H : Forall (λ l, zlen l = 13) OPENGL_FONT) by (unfold OPENGL_FONT; apply Forall_app; split; [unfold OPENGL_FONT_LOW|unfold OPENGL_FONT_HIGH]; repeat constructor).
  intros Hi. by eapply Forall_lookup_1 in H.
Qed.

(** The pixel at [px], [dy] rows below the top of a line whose first character is at [x] *)
Definition line_pixel (fb : VESAFramebuffer32Bit) (x : Z) (line : list ColorChar) (px dy : Z) (old : ARGB32Bit) : ARGB32Bit :=
  let k := (px - x) / 9 in
  if (x <=? px) && (x + 9 * k + 8 <=? width_pixels fb) then
    match line !! Z.to_nat k with Some c => char_pixel c ((px - x) mod 9) dy old | None => old end
  else old.

(** The pixel of lines drawn from the bottom up: line [k] is 14 (k + 1) rows above [bottom]. *)
Definition lines_pixel (fb : VESAFramebuffer32Bit) (bottom : Z) (lines : list (list ColorChar)) (px py : Z) (old : ARGB32Bit) : ARGB32Bit :=
  let k := (bottom - 1 - py) / 14 in
  if (py <? bottom) && (14 * (k + 1) <=? bottom) then
    match lines !! Z.to_nat k with Some l => line_pixel fb 1 l px (py - (bottom - 14 * (k + 1))) old | None => old end
  else old.

Section drawing.
Context (fb : VESAFramebuffer32Bit) (Hfb : fb_ok fb) {bv : Bitvec} {bvl : BitvecLaws}.
Implicit Types (m : store).
Import TextBuffer.

Lemma char_pixel_out c dx dy old : dx < 0 ∨ 8 ≤ dx ∨ dy < 0 ∨ 13 ≤ dy → char_pixel c dx dy old = old.
Proof.
  intros Ho. unfold char_pixel. destruct ((0 <=? dx) && (dx <? 8) && (0 <=? dy)) eqn:E; [|done].
  unfold glyph. destruct (OPENGL_FONT !! _) as [bytes|] eqn:Eb; [|done]. apply font_rows in Eb. cbn.
  rewrite lookup_ge_None_2; [done|]. unfold zlen in Eb. lia.
Qed.

Lemma draw_char_ok x y c m : 0 ≤ x → x + 8 ≤ width_pixels fb → 0 ≤ y → y + 13 ≤ height_pixels fb →
  ∃ m', draw_char fb x y c m = Ret m' ∧ only_screen fb m m' ∧
    ∀ px py, on_screen fb px py → pixel fb m' px py = char_pixel c (px - x) (py - y) (pixel fb m px py).
Proof.
  intros Hx Hw Hy Hh. unfold draw_char. fold (glyph c). unfold char_pixel. destruct (glyph c) as [bytes|] eqn:Eg; cbn [mbind option_bind].
  - assert (Hr : zlen bytes = 13) by (by eapply font_rows).
    destruct (draw_bitmap_ok fb Hfb x y bytes (color c) ARGB32BIT_BLACK m) as (m' & E & F & P); [lia..|]. by exists m'.
  - exists m. split_and!; [done|done|]. intros px py _. by destruct (_ && _).
Qed.

Lemma line_pixel_nil x px dy old : line_pixel fb x [] px dy old = old.
Proof. unfold line_pixel. by destruct (_ && _). Qed.

Lemma line_pixel_cons x c cs px dy old : x + 8 ≤ width_pixels fb →
  line_pixel fb (x + 9) cs px dy (char_pixel c (px - x) dy old) = line_pixel fb x (c :: cs) px dy old.
Proof.
  intros Hw. unfold line_pixel. destruct (Z.lt_ge_cases px x) as [?|Hge].
  { rewrite char_pixel_out by lia. rewrite !(proj2 (Z.leb_gt _ px)) by lia. done. }
  rewrite (proj2 (Z.leb_le x px)) by done. cbn [andb]. destruct (Z.lt_ge_cases px (x + 9)).
  - rewrite (proj2 (Z.leb_gt (x + 9) px)) by lia. cbn [andb]. replace ((px - x) / 9) with 0 by zdm.
    rewrite (proj2 (Z.leb_le _ (width_pixels fb))) by lia. cbn. by rewrite Z.mod_small by lia.
  - rewrite (proj2 (Z.leb_le (x + 9) px)) by lia. cbn [andb]. rewrite (char_pixel_out c) by lia.
    replace ((px - x) / 9) with ((px - (x + 9)) / 9 + 1) by zdm. replace ((px - x) mod 9) with ((px - (x + 9)) mod 9) by zdm.
    replace (x + 9 * ((px - (x + 9)) / 9 + 1) + 8) with (x + 9 + 9 * ((px - (x + 9)) / 9) + 8) by lia.
    destruct (_ <=? width_pixels fb); [|done]. replace (Z.to_nat ((px - (x + 9)) / 9 + 1)) with (S (Z.to_nat ((px - (x + 9)) / 9))) by zdm. done.
Qed.

Lemma draw_chars_ok y cs : 0 ≤ y → y + 13 ≤ height_pixels fb → width_pixels fb < 2 ^ 61 → ∀ x m, 0 ≤ x ≤ width_pixels fb + 10 →
  ∃ r m', loopM (λ c '(x, m), right ← (x +! FONT_WIDTH_PIXELS)%rust;
        if width_pixels fb <? right then mret (Stop m)
        else m ← draw_char fb x y c m; x ← (x +! (FONT_WIDTH_PIXELS + 1))%rust; mret (Next (x, m))) cs (x, m) = Ret r ∧
    (match r with Next (_, m) => m | Stop m => m end) = m' ∧ only_screen fb m m' ∧
    ∀ px py, on_screen fb px py → pixel fb m' px py = line_pixel fb x cs px (py - y) (pixel fb m px py).
Proof.
  intros Hy Hh Hw. induction cs as [|c cs IH]; intros x m Hx; cbn [loopM].
  { exists (Next (x, m)), m. split; [done|]. split; [done|]. split; [done|]. intros px py _. by rewrite line_pixel_nil. }
  unfold FONT_WIDTH_PIXELS. rewrite (uadd_ok 64 x 8) by lia. run_monad. destruct (Z.ltb_spec (width_pixels fb) (x + 8)); run_monad.
  { exists (Stop m), m. split; [done|]. split; [done|]. split; [done|]. intros px py _. unfold line_pixel. destruct (Z.leb_spec x px); [|done]. cbn [andb].
    rewrite (proj2 (Z.leb_gt _ (width_pixels fb))) by zdm. done. }
  destruct (draw_char_ok x y c m) as (m1 & -> & F1 & P1); [lia..|]. run_monad. change (8 + 1) with 9 in *. rewrite (uadd_ok 64 x 9) by lia. run_monad.
  destruct (IH (x + 9) m1) as (r & m' & E & Er & F2 & P2); [lia|]. exists r, m'. split; [exact E|]. split; [done|]. split; [by eapply only_screen_trans|].
  intros px py Hs. rewrite P2, P1 by done. by apply line_pixel_cons.
Qed.

Lemma draw_line_ok y line m : 0 ≤ y → y + 13 ≤ height_pixels fb → width_pixels fb < 2 ^ 61 →
  ∃ m', draw_line fb y line m = Ret m' ∧ only_screen fb m m' ∧
    ∀ px py, on_screen fb px py → pixel fb m' px py = line_pixel fb 1 line px (py - y) (pixel fb m px py).
Proof.
  intros Hy Hh Hw. destruct Hfb as [? ? _ _]. destruct (draw_chars_ok y line Hy Hh Hw 1 m) as (r & m' & E & Er & F & P); [lia|].
  exists m'. unfold draw_line. rewrite E. run_monad. by rewrite Er.
Qed.

Lemma line_pixel_out x line px dy old : dy < 0 ∨ 13 ≤ dy → line_pixel fb x line px dy old = old.
Proof.
  intros Hd. unfold line_pixel. destruct (_ && _); [|done]. destruct (line !! _); [|done]. apply char_pixel_out. lia.
Qed.

Lemma lines_pixel_cons Y l ls px py old : 14 ≤ Y →
  lines_pixel fb (Y - 14) ls px py (line_pixel fb 1 l px (py - (Y - 14)) old) = lines_pixel fb Y (l :: ls) px py old.
Proof.
  intros HY. unfold lines_pixel. destruct (Z.lt_ge_cases py Y) as [?|Hge].
  2:{ rewrite line_pixel_out by lia. rewrite !(proj2 (Z.ltb_ge py _)) by lia. done. }
  rewrite (proj2 (Z.ltb_lt py Y)) by done. cbn [andb]. destruct (Z.lt_ge_cases py (Y - 14)).
  - rewrite (proj2 (Z.ltb_lt py (Y - 14))) by done. cbn [andb]. rewrite (line_pixel_out 1 l) by lia.
    set (k := (Y - 14 - 1 - py) / 14). replace ((Y - 1 - py) / 14) with (k + 1) by (unfold k; zdm).
    replace (14 * (k + 1 + 1) <=? Y) with (14 * (k + 1) <=? Y - 14) by lia. destruct (_ <=? Y - 14); [|done].
    replace (Z.to_nat (k + 1)) with (S (Z.to_nat k)) by (unfold k; zdm). cbn [lookup list_lookup]. destruct (ls !! Z.to_nat k); [|done].
    f_equal. lia.
  - rewrite (proj2 (Z.ltb_ge py (Y - 14))) by lia. cbn [andb]. replace ((Y - 1 - py) / 14) with 0 by zdm.
    rewrite (proj2 (Z.leb_le _ Y)) by lia. done.
Qed.

Lemma draw_lines_ok lines : width_pixels fb < 2 ^ 61 → ∀ Y m, 0 ≤ Y ≤ height_pixels fb →
  ∃ r m', loopM (λ line '(pixel_y, m),
        if pixel_y <? FONT_HEIGHT_PIXELS + 1 then mret (Stop m)
        else let pixel_y := pixel_y - (FONT_HEIGHT_PIXELS + 1) in m ← draw_line fb pixel_y line m; mret (Next (pixel_y, m)))
      lines (Y, m) = Ret r ∧ (match r with Next (_, m) => m | Stop m => m end) = m' ∧ only_screen fb m m' ∧
    ∀ px py, on_screen fb px py → pixel fb m' px py = lines_pixel fb Y lines px py (pixel fb m px py).
Proof.
  intros Hw. induction lines as [|l ls IH]; intros Y m HY; cbn [loopM].
  { exists (Next (Y, m)), m. split; [done|]. split; [done|]. split; [done|]. intros px py _. unfold lines_pixel. by destruct (_ && _). }
  change (FONT_HEIGHT_PIXELS + 1) with 14 in *. destruct (Z.ltb_spec Y 14); run_monad.
  { exists (Stop m), m. split; [done|]. split; [done|]. split; [done|]. intros px py [_ Hs]. unfold lines_pixel.
    destruct (Z.ltb_spec py Y); [|done]. cbn [andb]. rewrite (proj2 (Z.leb_gt _ Y)) by zdm. done. }
  destruct (draw_line_ok (Y - 14) l m) as (m1 & -> & F1 & P1); [lia..|done|]. run_monad.
  destruct (IH (Y - 14) m1) as (r & m' & E & Er & F2 & P2); [lia|]. exists r, m'. split; [exact E|]. split; [done|].
  split; [by eapply only_screen_trans|]. intros px py Hs. rewrite P2, P1 by done. by apply lines_pixel_cons.
Qed.

Lemma clear_ok m : ∃ m', VESAFramebuffer32Bit.clear fb m = Ret m' ∧ only_screen fb m m' ∧
  ∀ px py, on_screen fb px py → pixel fb m' px py = mkColor 0 0 0 0.
Proof.
  unfold VESAFramebuffer32Bit.clear. pose proof Hfb as [? ? Hp Hs]. rewrite (umul_ok 64) by nia. run_monad. eexists. split; [done|].
  unfold store_zero. split.
  - intros a Ha. destruct (_ && _) eqn:E; [exfalso; lia|done].
  - intros px py Hon. pose proof (pixel_bounds fb Hfb px py Hon) as [H1 H2]. destruct Hon as [Hx Hy]. unfold pixel, pixel_address.
    repeat match goal with |- context [(address fb <=? ?x) && ?b] => replace ((address fb <=? x) && b) with true by lia end. done.
Qed.

(** What a flush shows. *)
Lemma text_flush_ok N W tb lines m : 0 < N < 2 ^ 64 → text_inv N W tb lines →
  ∃ m', flush N tb fb m = Ret m' ∧ only_screen fb m m' ∧
    ∀ px py, on_screen fb px py →
      pixel fb m' px py = lines_pixel fb (height_pixels fb) (take (Z.to_nat N) (pad W <$> lines)) px py (mkColor 0 0 0 0).
Proof.
  intros HN [H1 _ _]. unfold flush. destruct (clear_ok m) as (m1 & -> & F1 & P1). run_monad. unfold RingBuffer.iter.
  rewrite (RingBuffer.collect_ok N HN _ _ 0 _ H1) by lia. rewrite drop_0. run_monad. pose proof Hfb as [Hw0 Hh0 _ _].
  destruct (draw_lines_ok (take (Z.to_nat N) (pad W <$> lines)) (proj2 Hw0) (height_pixels fb) m1) as (r & m' & E & Er & F2 & P2); [lia|].
  exists m'. cbv zeta in E. rewrite E. run_monad. rewrite Er. split; [done|]. split; [by eapply only_screen_trans|].
  intros px py Hon. by rewrite P2, P1.
Qed.

(** C23: the console shows the text.  Writing a text never fails and never writes outside
    the framebuffer's memory; afterwards the screen shows the newest lines, the newest at
    the bottom, 14 rows each, as many as fit, and of each line the characters that fit, 9
    columns each, as the font draws them; every other pixel is clear. *)
Theorem console_shows_text text tb lines m : text_inv 50 100 tb lines →
  ∃ tb' m', let lines' := foldl (layout_char 100) lines ((λ b, mkChar b ARGB32BIT_WHITE) <$> text) in
    write_text_buffer text (Some fb) tb m = Ret (tb', m') ∧ text_inv 50 100 tb' lines' ∧ only_screen fb m m' ∧
    ∀ px py, on_screen fb px py →
      pixel fb m' px py = lines_pixel fb (height_pixels fb) (take 50 (pad 100 <$> lines')) px py (mkColor 0 0 0 0).
Proof.
  intros HI. unfold write_text_buffer. cbn [expect]. run_monad.
  destruct (write_str_ok 50 100 ltac:(lia) ltac:(lia) text tb lines HI) as (tb' & -> & HI'). run_monad.
  destruct (text_flush_ok 50 100 tb' _ m ltac:(lia) HI') as (m' & -> & F & P). run_monad. by exists tb', m'.
Qed.
End drawing.

Lemma console_shows_text_witness :
  ∃ tb' m', write_text_buffer (bv := documented_bitvec) [72; 105] (Some (mkFramebuffer 0x1000 64 30 256)) (TextBuffer.new 50) (λ _, 7)
      = Ret (tb', m') ∧
    pixel (mkFramebuffer 0x1000 64 30 256) m' 1 18 = ARGB32BIT_WHITE ∧ m' 0 = 7.
Proof.
  destruct (console_shows_text (mkFramebuffer 0x1000 64 30 256)) with (bv := documented_bitvec) (bvl := documented_bitvec_laws)
    (text := [72; 105]) (tb := TextBuffer.new 50) (lines := @nil (list ColorChar)) (m := (λ _, 7) : store) as (tb' & m' & E & _ & F & P).
  - split; cbn; lia.
  - apply new_inv. lia.
  - exists tb', m'. split; [exact E|]. split; [|apply F; cbn; lia].
    rewrite P by (split; cbn; lia). vm_compute. reflexivity.
Defined.

(** The four-column buffer of the kernel's own test. *)
Lemma text_buffer_layout_witness :
  ∃ tb, TextBuffer.write_str 5 4 [97; 98; 99; 10; 49; 50; 51; 52; 53; 54; 55; 10] (TextBuffer.new 5) = Ret tb ∧
    RingBuffer.collect 5 6 (RingBuffer.iter (buffer tb))
    = Ret (map (map (λ b, mkChar b ARGB32BIT_WHITE)) [[0; 0; 0; 0]; [53; 54; 55; 0]; [49; 50; 51; 52]; [97; 98; 99; 0]]).
Proof.
  destruct (text_buffer_layout 5 4 ltac:(lia) ltac:(lia) [97; 98; 99; 10; 49; 50; 51; 52; 53; 54; 55; 10]) as (tb & E & C & _).
  exists tb. split; [exact E|exact C].
Defined.
