(* ===== verification/BootInfo.v ===== *)
(** * Boot information ([kernel/src/boot_info.rs]) and stack traces ([kernel/src/debug.rs])

    The answers of the boot loader are a record, in which an absent answer and a null
    pointer are [None]; texts are C strings in memory. *)
From S2P Require Import Prelude External Addr PhysMem Bootstrap Ext2Dir VirtioBlock VirtioBlockThms Text TextBuffer.
#[local] Open Scope Z_scope.

(** ** What the boot loader answers *)
Inductive LimineMemoryMapEntryType : Type :=
| Usable | Reserved | AcpiReclaimable | AcpiNvs | BadMemory | BootloaderReclaimable | KernelAndModules | FramebufferMemory.
#[export] Instance LimineMemoryMapEntryType_eq_dec : EqDecision LimineMemoryMapEntryType.
Proof. solve_decision. Defined.

Definition type_as_usize (t : LimineMemoryMapEntryType) : Z :=
  match t with
  | Usable => 0 | Reserved => 1 | AcpiReclaimable => 2 | AcpiNvs => 3 | BadMemory => 4 | BootloaderReclaimable => 5
  | KernelAndModules => 6 | FramebufferMemory => 7
  end.

Record LimineMemmapEntry : Type := mkMemmap { mm_base : Z; mm_len : Z; mm_typ : LimineMemoryMapEntryType }.
Record LimineModule : Type := mkModule { module_path : option Z; module_base : option Z; module_length : Z }.
Record LimineSmpInfo : Type := mkSmpInfo { lapic_id : Z; extra_argument : Z; goto_address : option Z }.
Record LimineSmpResponse : Type := mkSmp { smp_flags : Z; bsp_lapic_id : Z; cpus : list LimineSmpInfo }.

Record responses : Type := mkResponses {
  re_boot_info : option (option Z * option Z);       (** name and version *)
  re_hhdm : option Z;                                (** offset *)
  re_kernel_address : option (Z * Z);                (** physical and virtual base *)
  re_framebuffer : option (list LimineFramebuffer);
  re_smp : option LimineSmpResponse;
  re_kernel_file : option (option (option Z));       (** the file and its command line *)
  re_modules : option (list LimineModule);
  re_efi : option (option Z);
  re_rsdp : option (option Z);
  re_memory_map : option (list LimineMemmapEntry);
}.

Record KernelSymbolMapFile : Type := mkMapFile { map_address : Z; map_length : Z }.

Record BootInfo : Type := mkBootInfo {
  info_name : list Z; info_version : list Z; kernel_cmdline : list Z;
  higher_half_direct_map_offset : Z; kernel_address_physical_base : Z; kernel_address_virtual_base : Z;
  efi_system_table_address : option Z; rsdp_address : option Z; framebuffer : LimineFramebuffer;
  x2apic_enabled : bool; bootstrap_processor_lapic_id : Z; cpu_count : Z;
  kernel_symbol_map_file : option KernelSymbolMapFile;
}.

(** ** [boot_info] *)
Section boot_info.
Context {x86 : X86_64}.
Variables (m : store) (re : responses).

Definition limine_boot_info : outcome (list Z * list Z) :=
  '(name, version) ← expect (re_boot_info re);
  name ← expect name;
  version ← expect version;
  mret (c_str_from_pointer m name 100, c_str_from_pointer m version 100).

(** [VirtAddr::try_new(..).expect(..)] is [VirtAddr::new] *)
Definition limine_higher_half_offset : outcome Z :=
  offset ← expect (re_hhdm re);
  VirtAddr_new offset.

Definition limine_efi_system_table_address : outcome (option Z) :=
  match re_efi re with
  | Some (Some address) => a ← VirtAddr_new address; mret (Some a)
  | _ => mret None
  end.

Definition limine_rsdp_address : outcome (option Z) :=
  match re_rsdp re with
  | Some (Some address) => a ← KernPhysAddr.new address; mret (Some a)
  | _ => mret None
  end.

Definition limine_framebuffer : outcome LimineFramebuffer :=
  framebuffers ← expect (re_framebuffer re);
  _ ← assert_ (1 <=? zlen framebuffers);
  index framebuffers 0.

(** The loop over the modules *)
Definition find_symbol_map (modules : list LimineModule) : outcome (option KernelSymbolMapFile) :=
  foldM (λ module found,
    path_ptr ← expect (module_path module);
    if bool_decide (c_str_from_pointer m path_ptr 1000 = str "/kernel.symbols") then
      address ← expect (module_base module);
      address ← VirtAddr_new address;
      mret (Some (mkMapFile address (module_length module)))
    else mret found) modules None.

Definition make_boot_info : outcome BootInfo :=
  '(name, version) ← limine_boot_info;
  hhdm ← limine_higher_half_offset;
  '(physical_base, virtual_base) ← expect (re_kernel_address re);
  fb ← limine_framebuffer;
  smp_info ← expect (re_smp re);
  kernel_file ← expect (re_kernel_file re);
  kernel_file ← expect kernel_file;
  cmdline ← expect kernel_file;
  let kernel_cmdline := c_str_from_pointer m cmdline 1000 in
  modules ← expect (re_modules re);
  kernel_symbol_map_file ← find_symbol_map modules;
  physical_base ← PhysAddr_new physical_base;
  virtual_base ← VirtAddr_new virtual_base;
  efi ← limine_efi_system_table_address;
  rsdp ← limine_rsdp_address;
  mret (mkBootInfo name version kernel_cmdline hhdm physical_base virtual_base efi rsdp fb
          (Z.land (smp_flags smp_info) 1 =? 1) (bsp_lapic_id smp_info) (zlen (cpus smp_info)) kernel_symbol_map_file).

(** [BOOT_INFO_ONCE.call_once(..)] *)
Definition boot_info (once : option BootInfo) : outcome (BootInfo * option BootInfo) :=
  match once with
  | Some info => mret (info, once)
  | None => info ← make_boot_info; mret (info, Some info)
  end.

(** ** The memory map *)
Definition limine_memory_regions : outcome (list Bootstrap.MemoryRegion) :=
  entries ← expect (re_memory_map re);
  mret (map (λ e, {| Bootstrap.start_address := mm_base e; Bootstrap.len_bytes := mm_len e;
                     Bootstrap.free := bool_decide (mm_typ e = Usable) |}) entries).

(** The totals that [print_limine_memory_map] prints *)
Definition memory_totals : outcome (list Z * Z) :=
  entries ← expect (re_memory_map re);
  foldM (λ entry '(totals, max_memory),
    old ← index totals (type_as_usize (mm_typ entry));
    new ← uadd 64 old (mm_len entry);
    totals ← index_set totals (type_as_usize (mm_typ entry)) new;
    end_ ← uadd 64 (mm_base entry) (mm_len entry);
    mret (totals, Z.max max_memory end_)) entries (replicate 16 0, 0).

(** ** CPUs: [LimineCPU::bootstrap_cpu] for every entry of [limine_smp_entries] *)
Definition bootstrap_cpu (smp : LimineSmpResponse) (f : Z) (info : LimineSmpInfo) : LimineSmpInfo :=
  if bsp_lapic_id smp =? lapic_id info then info else mkSmpInfo (lapic_id info) 0xdeadbeef (Some f).

Definition bootstrap_cpus (f : Z) : outcome LimineSmpResponse :=
  smp ← expect (re_smp re);
  mret (mkSmp (smp_flags smp) (bsp_lapic_id smp) (map (bootstrap_cpu smp f) (cpus smp))).
End boot_info.

(** ** Symbols and stack traces *)

(** [str::lines] *)
Definition strip_cr (l : list Z) : list Z := match rev l with 13 :: r => rev r | _ => l end.
Fixpoint lines_from (l s : list Z) : list (list Z) :=
  match s with
  | [] => flush_word l
  | c :: s => if c =? 10 then strip_cr l :: lines_from [] s else lines_from (l ++ [c]) s
  end.
Definition lines (s : list Z) : list (list Z) := lines_from [] s.

(** [u64::from_str_radix(s, 16)] *)
Definition hex_digit (c : Z) : option Z :=
  if (48 <=? c) && (c <=? 57) then Some (c - 48)
  else if (97 <=? c) && (c <=? 102) then Some (c - 87)
  else if (65 <=? c) && (c <=? 70) then Some (c - 55)
  else None.
Fixpoint accumulate_hex (acc : Z) (ds : list Z) : option Z :=
  match ds with
  | [] => Some acc
  | c :: ds =>
      match hex_digit c with
      | Some d => if acc * 16 + d <? 2 ^ 64 then accumulate_hex (acc * 16 + d) ds else None
      | None => None
      end
  end.
Definition from_hex (s : list Z) : option Z :=
  match s with
  | [] | [43] | [45] => None
  | 43 :: ds => accumulate_hex 0 ds
  | ds => accumulate_hex 0 ds
  end.

(** The closure of [map]: the address at the start of a line *)
Definition symbol_address (line : list Z) : outcome (Z * list Z) :=
  address_str ← expect (head (split_whitespace line));
  address ← expect (from_hex address_str);
  mret (address, line).

(** [map], [filter] and [max_by_key] pull one line after the other through; of equal keys
    the last one counts. *)
Definition best_symbol (address : Z) (line : list Z) (best : option (Z * list Z)) : outcome (option (Z * list Z)) :=
  '(symbol_address, line) ← symbol_address line;
  if symbol_address <=? address then
    mret (match best with
          | Some (a, l) => if symbol_address <? a then Some (a, l) else Some (symbol_address, line)
          | None => Some (symbol_address, line)
          end)
  else mret best.

Definition find_function_symbol_for_instruction_address (m : store) (self : KernelSymbolMapFile) (address : Z)
  : outcome (option (list Z)) :=
  best ← foldM (best_symbol address) (lines (c_str_from_pointer m (map_address self) (map_length self))) None;
  mret (option_map snd best).

(** [print_stack_trace]: the return addresses and their locations; [load] reads a word. *)
Fixpoint print_stack_trace (fuel : nat) (load : Z → Z) (find_symbol_in_map_file : Z → outcome (option (list Z))) (rbp : Z)
  : outcome (list (Z * list Z)) :=
  if rbp =? 0 then mret [] else
  match fuel with
  | O => Diverge
  | S fuel =>
      let return_address := load (rbp + 8) in
      location ← find_symbol_in_map_file return_address;
      rest ← print_stack_trace fuel load find_symbol_in_map_file (load rbp);
      mret ((return_address, default (str "???") location) :: rest)
  end.

(** ** Theorems *)
Definition parses_to (line : list Z) (a : Z) : Prop := symbol_address line = Ret (a, line).

(** [best] is the last of the greatest addresses of [seen] up to [address] *)
Definition is_best (address : Z) (seen : list (list Z)) (best : option (Z * list Z)) : Prop :=
  match best with
  | Some (a, line) => ∃ before after, seen = before ++ line :: after ∧ parses_to line a ∧ a ≤ address ∧
      (∀ l a', l ∈ before → parses_to l a' → a' ≤ address → a' ≤ a) ∧
      (∀ l a', l ∈ after → parses_to l a' → a' ≤ address → a' < a)
  | None => ∀ l a, l ∈ seen → parses_to l a → address < a
  end.

(** A line that is not better leaves the best as it is. *)
Lemma is_best_skip address seen best l a :
  is_best address seen best → parses_to l a → match best with Some (b, _) => a ≤ address → a < b | None => address < a end →
  is_best address (seen ++ [l]) best.
Proof.
  intros HI Ha Hworse. assert (∀ a', parses_to l a' → a' = a) as Hu by (unfold parses_to in *; intros; congruence).
  destruct best as [[b line]|]; cbn in *.
  - destruct HI as (before & after & -> & Hp & Hle & H1 & H2). exists before, (after ++ [l]). split; [by rewrite <-app_assoc|].
    repeat (split; [done|]). intros l' a' [?|Hx%list_elem_of_singleton]%elem_of_app Hp' ?; [by eapply H2|].
    subst l'. apply Hu in Hp'. subst a'. by apply Hworse.
  - intros l' a' [?|Hx%list_elem_of_singleton]%elem_of_app Hp'; [by eapply HI|]. subst l'. apply Hu in Hp'. by subst a'.
Qed.

(** One that is at least as good takes its place. *)
Lemma is_best_take address seen best l a :
  is_best address seen best → parses_to l a → a ≤ address → match best with Some (b, _) => b ≤ a | None => True end →
  is_best address (seen ++ [l]) (Some (a, l)).
Proof.
  intros HI Ha Hle Hb. exists seen, []. repeat (split; [done|]). split; [|by intros ? ? ?%not_elem_of_nil].
  intros l' a' Hin Hp' Hle'. destruct best as [[b line]|]; cbn in *.
  - destruct HI as (before & after & -> & Hp & _ & H1 & H2). apply elem_of_app in Hin as [Hin|Hin].
    + specialize (H1 l' a' Hin Hp' Hle'). lia.
    + apply elem_of_cons in Hin as [->|Hin]; [unfold parses_to in *; assert (a' = b) by congruence; lia|].
      specialize (H2 l' a' Hin Hp' Hle'). lia.
  - specialize (HI l' a' Hin Hp'). lia.
Qed.

Lemma best_symbol_step address seen l best :
  is_best address seen best → (∃ a, parses_to l a) →
  ∃ best', best_symbol address l best = Ret best' ∧ is_best address (seen ++ [l]) best'.
Proof.
  intros HI [a Ha]. unfold best_symbol. rewrite Ha. run_monad. destruct (Z.leb_spec a address).
  - destruct best as [[b line]|]; [destruct (Z.ltb_spec a b)|]; (eexists; split; [reflexivity|]).
    + by apply (is_best_skip _ _ _ _ a).
    + by apply (is_best_take _ _ (Some (b, line))).
    + by apply (is_best_take _ _ None).
  - eexists. split; [reflexivity|]. apply (is_best_skip _ _ _ _ a); [done..|]. destruct best as [[b line]|]; lia.
Qed.

(** the symbol found for an instruction is the one it lies in: if every line of the symbol
    map starts with a hexadecimal address, the lookup answers the last line among those
    with the greatest address that is not above the instruction, and [None] exactly when
    all symbols are above it. *)
Theorem symbol_found m self address :
  (∀ l, l ∈ lines (c_str_from_pointer m (map_address self) (map_length self)) → ∃ a, parses_to l a) →
  ∃ r, find_function_symbol_for_instruction_address m self address = Ret r ∧
    match r with
    | Some line => ∃ before after a,
        lines (c_str_from_pointer m (map_address self) (map_length self)) = before ++ line :: after ∧
        parses_to line a ∧ a ≤ address ∧
        (∀ l a', l ∈ before → parses_to l a' → a' ≤ address → a' ≤ a) ∧
        (∀ l a', l ∈ after → parses_to l a' → a' ≤ address → a' < a)
    | None => ∀ l a, l ∈ lines (c_str_from_pointer m (map_address self) (map_length self)) → parses_to l a → address < a
    end.
Proof.
  intros Hl. unfold find_function_symbol_for_instruction_address. set (ls := lines _) in *.
  destruct (foldM_inv (best_symbol address) (is_best address) ls None) as (best & E & HI).
  - by intros l a ?%not_elem_of_nil.
  - intros seen l rest best Hls HI. apply best_symbol_step; [done|]. apply Hl. rewrite Hls. set_solver.
  - rewrite E. run_monad. eexists. split; [reflexivity|]. destruct best as [[a line]|]; cbn; [|done].
    destruct HI as (before & after & H). by exists before, after, a.
Qed.

(** A chain of stack frames that ends in a null pointer, with the return addresses *)
Fixpoint frames (load : Z → Z) (rbp : Z) (addresses : list Z) : Prop :=
  match addresses with
  | [] => rbp = 0
  | a :: addresses => rbp ≠ 0 ∧ load (rbp + 8) = a ∧ frames load (load rbp) addresses
  end.

(** The stack trace lists the return addresses of the frames, and ends with them. *)
Lemma stack_trace_ok load find rbp addresses fuel locations :
  frames load rbp addresses → (length addresses ≤ fuel)%nat → Forall2 (λ a l, find a = Ret l) addresses locations →
  print_stack_trace fuel load find rbp = Ret (zip addresses (default (str "???") <$> locations)).
Proof.
  intros Hf Hl Hloc. revert fuel rbp Hf Hl. induction Hloc as [|a l addresses locations E Hloc IH]; intros fuel rbp Hf Hl; cbn [frames] in Hf.
  - subst rbp. by destruct fuel.
  - destruct Hf as (H0 & Ha & Hf). destruct fuel as [|fuel]; [cbn in Hl; lia|]. cbn [print_stack_trace].
    replace (rbp =? 0) with false by lia. rewrite Ha, E. run_monad. rewrite IH; [done|done|cbn in Hl; lia].
Qed.

(** Totals of the memory map: the length of all entries of each type *)
Definition total (t : LimineMemoryMapEntryType) (entries : list LimineMemmapEntry) : Z :=
  foldr (λ e acc, mm_len e + acc) 0 (filter (λ e, mm_typ e = t) entries).

Lemma total_snoc t entries e : total t (entries ++ [e]) = total t entries + (if decide (mm_typ e = t) then mm_len e else 0).
Proof.
  unfold total. rewrite filter_app, filter_cons, filter_nil.
  induction (filter (λ e, mm_typ e = t) entries) as [|x l IH]; cbn.
  - destruct (decide (mm_typ e = t)); cbn; lia.
  - rewrite IH. lia.
Qed.

Lemma total_prefix t l1 l2 : Forall (λ e, 0 ≤ mm_len e) l2 → total t l1 ≤ total t (l1 ++ l2).
Proof.
  intros H. revert l1. induction H as [|e l2 He H IH]; intros l1; [by rewrite app_nil_r|].
  specialize (IH (l1 ++ [e])). rewrite <-app_assoc, total_snoc in IH. cbn [app] in IH. destruct (decide (mm_typ e = t)); lia.
Qed.

Lemma type_inj t t' : type_as_usize t = type_as_usize t' → t = t'.
Proof. by destruct t, t'. Qed.

(** The totals printed are those of the memory map, if they fit in 64 bits. *)
Lemma memory_totals_ok re entries :
  re_memory_map re = Some entries → Forall (λ e, 0 ≤ mm_len e ∧ mm_base e + mm_len e < 2 ^ 64) entries →
  (∀ t, total t entries < 2 ^ 64) →
  ∃ totals max_memory, memory_totals re = Ret (totals, max_memory) ∧
    ∀ t, totals !! Z.to_nat (type_as_usize t) = Some (total t entries).
Proof.
  intros Hre Hok Hfit. unfold memory_totals. rewrite Hre. run_monad.
  destruct (foldM_inv (λ entry '(totals, max_memory),
      old ← index totals (type_as_usize (mm_typ entry));
      new ← uadd 64 old (mm_len entry);
      totals ← index_set totals (type_as_usize (mm_typ entry)) new;
      end_ ← uadd 64 (mm_base entry) (mm_len entry);
      mret (totals, Z.max max_memory end_))
    (λ seen s, ∀ t, s.1 !! Z.to_nat (type_as_usize t) = Some (total t seen)) entries (replicate 16 0, 0))
    as ([totals max_memory] & E & HI); [by intros []| |by exists totals, max_memory].
  intros seen e rest [totals max_memory] Hl HI. cbn [fst] in *. unfold index. rewrite HI. run_monad.
  rewrite Hl in Hok. apply Forall_app in Hok as [_ Hok]. apply Forall_cons in Hok as [[He1 He2] Hrest].
  rewrite (uadd_ok 64 (total (mm_typ e) seen) (mm_len e)). 2: { specialize (Hfit (mm_typ e)). rewrite Hl in Hfit. pose proof (total_prefix (mm_typ e) (seen ++ [e]) rest) as Hp.
    rewrite <-app_assoc, total_snoc, decide_True in Hp by done. cbn [app] in Hp.
    assert (Forall (λ e, 0 ≤ mm_len e) rest) as Hr by (eapply Forall_impl; [exact Hrest|]; intros ? [? _]; done). specialize (Hp Hr). lia. }
  run_monad. unfold index_set. rewrite HI. run_monad. rewrite (uadd_ok 64 (mm_base e) (mm_len e) He2). run_monad. eexists. split; [reflexivity|].
  intros t. cbn [fst]. rewrite total_snoc. destruct (decide (mm_typ e = t)) as [<-|Hne].
  - apply list_lookup_insert_eq. eapply lookup_lt_Some, HI.
  - rewrite list_lookup_insert_ne, HI; [f_equal; lia|]. intros H. apply Hne, type_inj.
    apply Z2Nat.inj in H; [done|destruct (mm_typ e); cbn; lia|destruct t; cbn; lia].
Qed.

(** A symbol map with three functions *)
Definition map_text : list Z := str "1000 start" ++ [10] ++ str "2a00 main" ++ [13; 10] ++ str "30ff stop" ++ [10].

Lemma symbol_found_witness :
  ∃ r, find_function_symbol_for_instruction_address (mem_write (λ _, 0) 4096 map_text) (mkMapFile 4096 100) 0x2b10 = Ret r ∧
    match r with
    | Some line => ∃ before after a,
        [str "1000 start"; str "2a00 main"; str "30ff stop"] = before ++ line :: after ∧
        parses_to line a ∧ a ≤ 0x2b10 ∧
        (∀ l a', l ∈ before → parses_to l a' → a' ≤ 0x2b10 → a' ≤ a) ∧
        (∀ l a', l ∈ after → parses_to l a' → a' ≤ 0x2b10 → a' < a)
    | None => ∀ l a, l ∈ [str "1000 start"; str "2a00 main"; str "30ff stop"] → parses_to l a → 0x2b10 < a
    end.
Proof.
  pose proof (symbol_found (mem_write (λ _, 0) 4096 map_text) (mkMapFile 4096 100) 0x2b10) as H.
  assert (lines (c_str_from_pointer (mem_write (λ _, 0) 4096 map_text) 4096 100) = [str "1000 start"; str "2a00 main"; str "30ff stop"]) as E
    by (vm_compute; reflexivity).
  cbn [map_address map_length] in H. rewrite E in H. apply H. intros l Hl.
  repeat (apply elem_of_cons in Hl as [->|Hl]; [eexists; vm_compute; reflexivity|]). by apply not_elem_of_nil in Hl.
Defined.
